(* ===== verification/_CoqProject ===== *)
-Q . S2P
Prelude.v
GoStrings.v
GoTime.v
GoTimeFacts.v
ProviderErrors.v
RuntimeModel.v
GoStrconv.v
GoJson.v
ConfigTypes.v
Money.v
QuotaWindow.v
QuotaTracker.v
QuotaTrackerFacts.v
QuotaReload.v
Router.v
Accounting.v
AccountingFacts.v
UsageFile.v
UsageFileFacts.v
LogBuffer.v
LogArchives.v
LogArchivesFacts.v
LogLines.v
LogLinesFacts.v
LogView.v
LogViewFacts.v
QuotaEvents.v
Latency.v
Health.v
Program.v
Dispatcher.v
DispatcherFacts.v
StreamFacts.v
Attribution.v
EventStream.v
EventStreamFacts.v
Sessions.v
SessionsFacts.v
ConfigValidate.v
ConfigFacts.v
ConfigResources.v
AdminConfig.v
AdminConfigFacts.v
ConfigParse.v
QuotaSnapshot.v
AppRuntime.v
Reload.v
ReloadFacts.v
RuntimeRequest.v
RuntimeRequestFacts.v
ProviderCodecs.v
ChatStream.v
GatewayStream.v
ChatStreamFacts.v
GatewayStreamFacts.v
HttpTime.v
ProviderResponses.v
ProviderClient.v
ProviderClientFacts.v
GatewayResponses.v
GatewayCodecs.v
Gateway.v
GatewayFacts.v
GatewayWorld.v
GatewaySafety.v
GatewaySessions.v
GatewaySessionsFacts.v
GatewayStats.v
Providers.v
Traces.v
AdminMetrics.v
OAuth.v
OAuthFacts.v
AdminHandlers.v
AdminHandlersFacts.v
CommandLine.v
Launcher.v
LauncherFacts.v
Server.v
ServerFacts.v
