(* ===== verification/Prelude.v ===== *)
(** * Syrogo: a verification development (root file)

    Syrogo is a gateway for language models: clients speak one of three wire formats
    (OpenAI chat completions, OpenAI Responses, Anthropic messages), the gateway picks
    upstream providers by the client's tag and the model, tries them in order until one
    succeeds, translates between formats, accounts for usage and money, and can change its
    configuration while it runs.  This library models the Go code under [src/] and proves
    what makes each part correct.  Every other file opens with what it models.

    ** How the parts interact

    - A request enters [Gateway.handleRequest] ([internal/gateway/handler.go]): the bearer
      token names a client ([GatewaySafety]), the client's quota is asked
      ([QuotaTracker]), a codec reads the body ([GatewayCodecs], [GatewayResponses],
      [RuntimeRequest]) into the neutral model ([RuntimeModel]), the router makes a plan
      ([Router]), the dispatcher walks it ([Dispatcher]) asking outbound quotas and the
      health breaker ([Health]) before each attempt, and a provider client sends it
      upstream ([ProviderClient] with [ProviderCodecs], [ProviderResponses], [ChatStream]).
      The answer goes back through the codec, or as a stream of events ([EventStream],
      [GatewayStream]); usage is recorded ([Accounting], [UsageFile]), as are governance
      events ([QuotaEvents]) and latencies ([Latency]).
    - The configuration is parsed ([ConfigParse]), defaulted and validated
      ([ConfigValidate]), assembled into a runtime ([AppRuntime]), and replaced while the
      program runs ([Reload]); the administration API edits its resources
      ([ConfigResources], [AdminConfig]).
    - Agents report their sessions ([Sessions], [GatewaySessions]); administrators read
      statistics ([GatewayStats], [AdminMetrics]) and the log, which is kept in memory
      ([LogBuffer]) and in rotated files ([LogArchives]) and shown in pages ([LogLines],
      [LogView]).  [AdminHandlers] has every endpoint under [/admin/].
    - Logins with OAuth give the credentials of some providers ([OAuth]); [Providers] makes the
      client of an outbound, and [Traces] writes what it sends when a developer asks for it.
    - [Server] starts all this and ends it: [runMain], the HTTP servers, the lock of the
      session directory, the reaper.  The same program starts agents: [CommandLine] reads the
      arguments and makes the plan, [Launcher] runs it and reports the session to the gateway.
    - [GatewayWorld] composes gateway, router, trackers, dispatcher and stores into one
      machine and shows that the assumptions of the component theorems hold in it.

    ** Where the code is

    - [internal/provider]: [ProviderErrors], [Health], [ProviderCodecs],
      [ProviderResponses], [ChatStream], [HttpTime], [ProviderClient], [Providers], [Traces].
    - [internal/execution/dispatcher.go]: [Dispatcher]; its contract to the gateway is the
      class of [Attribution].
    - [internal/router]: [Router].  [internal/quota]: [QuotaWindow], [QuotaTracker],
      [QuotaSnapshot], [QuotaEvents].  [internal/accounting]: [Accounting], [UsageFile].
      [internal/logging]: [LogBuffer], [LogArchives].  [internal/oauth]: [OAuth], with the
      sources of credentials of [internal/provider].
      [internal/latency]: [Latency].  [internal/eventstream]: [EventStream].
      [internal/semantic] and [internal/runtime]: [RuntimeRequest], [RuntimeModel].
    - [internal/config]: [ConfigTypes], [Money], [ConfigParse], [ConfigValidate],
      [ConfigResources].  [internal/app]: [AppRuntime], [Reload], [Server].
    - [internal/server], and [main.go] of [cmd/syrogo]: [Server].  The rest of [cmd/syrogo]:
      [CommandLine], [Launcher].
    - [internal/gateway]: [RuntimeRequest], [GatewayCodecs], [GatewayResponses],
      [GatewayStream], [Gateway], [GatewaySessions], [GatewayStats], [AdminConfig],
      [AdminHandlers], [AdminMetrics], [LogLines], [LogView].
      [internal/sessions]: [Sessions], [Server].
    - The Go standard library, as far as the program uses it: [GoStrings], [GoTime],
      [GoStrconv], [GoJson]; the order of texts is in [GoStrings].

    ** How code becomes definitions

    A pure function is a function.  A method that holds a mutex from start to end is one
    atomic step: a function from the old state, and the clock readings it makes, to the
    result and the new state.  Code that uses several shared objects in turn (dispatcher,
    provider client, gateway) is a program of the free monad of [Program] over the calls it
    makes: a theorem on [runs] is about any answers, so it holds under any interleaving
    with other requests; [exec] runs it against the models of the components.  A goroutine
    that only reads a channel is a fold over what it receives; goroutines that share a
    store, a file and a [Close] are a machine whose steps interleave ([Sessions.saver_step],
    [QuotaSnapshot.quota_step], [Server.reaper_step]), down to single calls on the file.  Errors are values of
    [result], panics and impossible cases [None].  An [int] is a [Z] kept in 64 bits by
    [i64] where it can overflow, a [float64] is binary64.  A map is a [gmap]; where the
    code's iteration order shows, the text of the file says which order is taken.

    ** Groups of theorems

    - The request path: the calls are made in the code's order and charged to the client of
      the token ([request_flow], [request_charged]), every request is answered, after a
      bounded number of calls, and its trace closed ([request_answered], [trace_closed]), a
      token names one client ([token_identifies]), errors leak nothing they must not
      ([error_reply_safe]).
    - Failover: the dispatcher refines a walk over the plan ([dispatch_first_success]), one
      record per request ([dispatch_one_record], [stream_accounted]), the error that is
      reported ([dispatch_preferred_error]); keys are tried in rotation ([keys_tried]).
    - Quotas: nothing passes an exhausted window, also when a reload changes the
      limits ([client_quota_bound]), exact retry times
      ([decision_retry_exact]), one probe per cooldown ([cooldown_single_probe]), nothing is
      lost over a restart or a reload unless it is reported ([export_import_roundtrip],
      [reconfigure_reports_loss]).  Health refines a circuit breaker
      ([health_refines_breaker]).
    - Translations: what reaches the client of a stream is what the provider sent
      ([chat_stream_relayed], [anthropic_calls_rebuilt], [stream_protocol]), tool results
      reach the provider ([tool_results_delivered]), upstream streams end
      ([upstream_stream_ends]).
    - Configuration: changes are atomic and never lost ([mutate_atomic],
      [update_not_lost]), edits leave no dangling reference ([removals_safe]) and no secret
      is lost or shown ([redacted_edit_roundtrip], [redaction_hides_secrets]), what
      validates can be built ([validated_config_builds]); which cost limits a file can state
      ([decoded_costs]), and the embedded prices ([default_prices_load]).
    - Statistics and sessions: queries answer with the aggregate of the records
      ([query_aggregates]), which survive a restart ([restart_exact]), owners are isolated
      ([session_isolation]), a stopped session is final ([stopped_final]).
    - What survives a stop: [Close] keeps every session and comes to an end
      ([close_keeps_sessions], [close_completes]), its file is replaced as a whole
      ([snapshot_write_atomic]); the file of the quotas is never torn while one store has
      the directory ([lone_store_intact]), which a reload does not always grant
      ([shared_temp_torn]).
    - Administration: nothing without the token ([admin_requires_token]), no token in an
      answer ([answers_redacted]).  The log: rotation keeps the text ([write_keeps_text]),
      memory answers only for what it holds ([recent_covered]), following the cursors of
      pages shows every matching line once until the file is compressed or gone, which the
      answer then says ([pages_exact]).
    - OAuth: a credential is stored only for a login that the provider answered
      ([login_authentic]), a flow is used once ([flow_used_once]), what is stored is loaded
      again ([save_then_load]).

    - The running program: a signal ends all that was started, and who writes sessions holds
      the lock of their directory, except a store whose [Close] has timed out
      ([shutdown_complete]); one instance has that lock at a time
      ([lock_exclusive]); a reload ends with the handlers a start would have
      made and trackers configured as its own ([reload_as_start]) and never panics ([started_never_panics]); sessions that are no
      longer heard of go ([silent_session_reaped]).  The client of a provider has the key it
      needs ([validated_client]), and traces never hold it ([traces_hide_keys]).
    - The launcher: what it finds in the configuration is what the gateway accepts
      ([launch_reaches_client]), and after a tick the gateway knows the session unless it
      refuses the token or another client owns it ([tick_reports]).

    Where the code does not do what it means to, the model follows the code and an example
    or a theorem shows the behaviour.

    ** Bounds and fuel

    Every fuel is computed from the input and shown to be enough or given where the
    function is defined: the JSON decoder's is the length of the text
    ([GoJson.Parse]), the loop over the days of a range has as many steps as days
    ([Accounting.days_between]), the walk of [QuotaWindow] over local days is bounded by
    the window, glob matching by the lengths of pattern and text ([Router.match_from]).

    ** What is not modelled, and why

    Sockets, TLS and HTTP/2, which are net/http's; processes and terminals, which appear as
    calls with any answer ([Launcher], [Server]); the text layer of YAML, [net/url] and the
    zone database, which are libraries and appear as parameters; the pages and assets of the
    administration site, and the wording of the log and of its audit lines.  The copies that
    [cloneSession], [cloneTrace] and the like make against aliasing are values here.  Memory
    exhaustion and the monotonic clock are left out everywhere. *)

From stdpp Require Export base gmap list sorting strings option.
From stdpp Require Export fin_maps fin_map_dom.
From Stdlib Require Export ZArith Lia.

#[export] Set Default Goal Selector "!".
#[export] Set Warnings "-clear-no-such-hyp".

(** ** Notations *)

Declare Scope go_scope.
Delimit Scope go_scope with go.

(** Go's [==] on strings, as a boolean. *)
Notation "s == t" := (String.eqb s t) (at level 70, no associativity) : go_scope.
Notation "s != t" := (negb (String.eqb s t)) (at level 70, no associativity) : go_scope.
Open Scope go_scope.
Open Scope Z_scope.

(** ** Go's error-returning functions

    [result E A] is the pair [(A, error)] of a Go function that returns either
    a value with a nil error or a zero value with an error. *)
Inductive result (E A : Type) : Type :=
| Ok (a : A)
| Err (e : E).
Arguments Ok {E A} a.
Arguments Err {E A} e.

#[export] Instance result_ret E : MRet (result E) := fun A a => Ok a.
#[export] Instance result_bind E : MBind (result E) := fun A B f r =>
  match r with Ok a => f a | Err e => Err e end.
#[export] Instance result_fmap E : FMap (result E) := fun A B f r =>
  match r with Ok a => Ok (f a) | Err e => Err e end.

Definition is_Ok {E A} (r : result E A) : bool :=
  match r with Ok _ => true | Err _ => false end.

(** [require c e] is the Go idiom [if !c { return e }]. *)
Definition require {E} (c : bool) (e : E) : result E unit :=
  if c then Ok tt else Err e.

(** [for_each f l] runs the body [f] of a [for _, x := range l] loop whose only
    exit is an early [return err]. *)
Fixpoint for_each {E A} (f : A -> result E unit) (l : list A) : result E unit :=
  match l with
  | [] => Ok tt
  | x :: l => _ ← f x; for_each f l
  end.

(** [for_eachi f i l] is [for_each] with the index, counted from [i]. *)
Fixpoint for_eachi {E A} (f : nat -> A -> result E unit) (i : nat) (l : list A)
    : result E unit :=
  match l with
  | [] => Ok tt
  | x :: l => _ ← f i x; for_eachi f (S i) l
  end.

(** [fold_err f s l] is a loop that also carries a local state [s]. *)
Fixpoint fold_err {E S A} (f : S -> A -> result E S) (s : S) (l : list A)
    : result E S :=
  match l with
  | [] => Ok s
  | x :: l => s' ← f s x; fold_err f s' l
  end.

(** ** 64-bit integers

    Go's [int], [int64] and [time.Duration] are 64-bit two's complement; their
    [+], [-] and [*] wrap around, [/] and [%] truncate ([Z.quot], [Z.rem]). *)
Definition min_int64 : Z := - 2 ^ 63.
Definition max_int64 : Z := 2 ^ 63 - 1.
Definition i64 (z : Z) : Z := (z + 2 ^ 63) mod 2 ^ 64 - 2 ^ 63.
Definition in_i64 (z : Z) : Prop := min_int64 <= z <= max_int64.

(** ** Bounded buffers

    [keep_last n l] is what remains of the slice [l] after the idiom
    [if overflow := len(l) - n; overflow > 0 { copy(l, l[overflow:]); l = l[:n] }]. *)
Definition keep_last {A} (n : nat) (l : list A) : list A :=
  drop (length l - n) l.

(** ** Stable sorting

    Insertion sort by a boolean [less]: an element is placed after the ones it is
    not less than, as [sort.SliceStable] does.  [sort.Slice] promises the same up
    to the order of elements neither of which is less than the other. *)
Section sort_by.
  Context {A : Type} (less : A -> A -> bool).

Fixpoint insert_by (x : A) (l : list A) : list A :=
  match l with
  | [] => [x]
  | y :: l' => if less x y then x :: l else y :: insert_by x l'
  end.

Fixpoint sort_by_aux (acc l : list A) : list A :=
  match l with
  | [] => acc
  | x :: l => sort_by_aux (insert_by x acc) l
  end.

Definition sort_by (l : list A) : list A := sort_by_aux [] l.
End sort_by.

(** [sorted_by less l]: no element is less than one before it. *)
Definition sorted_by {A} (less : A -> A -> bool) : list A -> Prop :=
  StronglySorted (fun x y => less y x = false).

(** ** Automation *)

Create HintDb go discriminated.

(** Case analysis on every [if] and [match] of the goal, then simplification. *)
Ltac split_ifs :=
  repeat (case_match; simplify_eq/=).

(** Turns boolean tests on integers and strings in the context into propositions. *)
Ltac breflect :=
  repeat match goal with
  | H : (_ && _) = true |- _ => apply andb_true_iff in H; destruct H
  | H : (_ || _) = false |- _ => apply orb_false_iff in H; destruct H
  | H : negb _ = true |- _ => apply negb_true_iff in H
  | H : negb _ = false |- _ => apply negb_false_iff in H
  | H : String.eqb _ _ = true |- _ => apply String.eqb_eq in H
  | H : String.eqb _ _ = false |- _ => apply String.eqb_neq in H
  | H : Z.ltb _ _ = true |- _ => apply Z.ltb_lt in H
  | H : Z.ltb _ _ = false |- _ => apply Z.ltb_ge in H
  | H : Z.leb _ _ = true |- _ => apply Z.leb_le in H
  | H : Z.leb _ _ = false |- _ => apply Z.leb_gt in H
  | H : Z.eqb _ _ = true |- _ => apply Z.eqb_eq in H
  | H : Z.eqb _ _ = false |- _ => apply Z.eqb_neq in H
  end.

(** ** Lemmas on results *)

Lemma bind_Ok {E A B} (r : result E A) (f : A -> result E B) b :
  (r ≫= f) = Ok b -> exists a, r = Ok a /\ f a = Ok b.
Proof. destruct r as [a|e]; cbn; [eauto | discriminate]. Qed.

Lemma require_Ok {E} c (e : E) u : require c e = Ok u -> c = true.
Proof. by destruct c. Qed.

Lemma for_each_Ok {E A} (f : A -> result E unit) l :
  for_each f l = Ok tt <-> Forall (fun x => f x = Ok tt) l.
Proof.
  induction l as [|x l IH]; cbn; [by split|].
  rewrite Forall_cons, <- IH.
  destruct (f x) as [[]|e]; cbn; intuition congruence.
Qed.

Lemma for_eachi_Ok {E A} (f : nat -> A -> result E unit) i l :
  for_eachi f i l = Ok tt <-> (forall j x, l !! j = Some x -> f (i + j)%nat x = Ok tt).
Proof.
  revert i. induction l as [|x l IH]; intros i; cbn; [naive_solver|].
  destruct (f i x) as [[]|e] eqn:Hf; cbn.
  - rewrite IH. split.
    + intros H [|j] y Hy; cbn in Hy; simplify_eq.
      * by rewrite Nat.add_0_r.
      * rewrite Nat.add_succ_r. by apply (H j).
    + intros H j y Hy. specialize (H (S j) y Hy). by rewrite Nat.add_succ_r in H.
  - split; [done|]. intros H. specialize (H 0%nat x eq_refl).
    rewrite Nat.add_0_r in H. congruence.
Qed.

Lemma fold_err_app {E S A} (f : S -> A -> result E S) s l k :
  fold_err f s (l ++ k) = (s' ← fold_err f s l; fold_err f s' k).
Proof.
  revert s. induction l as [|x l IH]; intros s; cbn; [done|].
  destruct (f s x); cbn; [apply IH | done].
Qed.

(** Invariant rule for a loop with early exit. *)
Lemma fold_err_inv {E S A} (f : S -> A -> result E S) (I : list A -> S -> Prop) s l s' :
  I [] s ->
  (forall done x s1 s2, I done s1 -> f s1 x = Ok s2 -> I (done ++ [x]) s2) ->
  fold_err f s l = Ok s' -> I l s'.
Proof.
  intros H0 Hstep.
  enough (forall k s s', I k s -> fold_err f s l = Ok s' -> I (k ++ l) s') as Hall
    by (by apply (Hall [])).
  induction l as [|x l IH]; intros k t t' HI Hf; cbn in Hf.
  - simplify_eq. by rewrite app_nil_r.
  - apply bind_Ok in Hf as (u & Hx & Hl).
    rewrite cons_middle, app_assoc. by eapply IH, Hl; eauto.
Qed.

(** ** Lemmas on 64-bit integers *)

Lemma i64_range z : in_i64 (i64 z).
Proof. unfold in_i64, i64, min_int64, max_int64. pose proof (Z.mod_pos_bound (z + 2 ^ 63) (2 ^ 64)). lia. Qed.

Lemma i64_id z : in_i64 z -> i64 z = z.
Proof.
  unfold in_i64, i64, min_int64, max_int64. intros H.
  rewrite Z.mod_small by lia. lia.
Qed.

(** Wrapping early or late gives the same sum. *)
Lemma i64_add_l a b : i64 (i64 a + b) = i64 (a + b).
Proof.
  unfold i64. replace ((a + 2 ^ 63) mod 2 ^ 64 - 2 ^ 63 + b + 2 ^ 63) with ((a + 2 ^ 63) mod 2 ^ 64 + b) by lia.
  rewrite Z.add_mod_idemp_l by lia. do 2 f_equal. lia.
Qed.

Lemma i64_add_r a b : i64 (a + i64 b) = i64 (a + b).
Proof. rewrite Z.add_comm, i64_add_l. f_equal. lia. Qed.

#[export] Hint Resolve i64_range : go.

(** A decidable statement about the integers below a bound is checked by running it. *)
Lemma forall_below (n : nat) (P : Z -> bool) z :
  forallb (fun k => P (Z.of_nat k)) (seq 0 n) = true -> 0 <= z < Z.of_nat n -> P z = true.
Proof.
  rewrite forallb_forall. intros H Hz. rewrite <- (Z2Nat.id z) by lia.
  apply H, in_seq. lia.
Qed.

(** ** Lemmas on bounded buffers *)

Lemma keep_last_length {A} n (l : list A) : length (keep_last n l) = Nat.min n (length l).
Proof. unfold keep_last. rewrite length_drop. lia. Qed.

Lemma keep_last_small {A} n (l : list A) : (length l <= n)%nat -> keep_last n l = l.
Proof. intros H. unfold keep_last. by replace (length l - n)%nat with 0%nat by lia. Qed.

(** Dropping to the bound after each append is the same as dropping once. *)
Lemma keep_last_snoc {A} n (l : list A) x :
  keep_last n (keep_last n l ++ [x]) = keep_last n (l ++ [x]).
Proof.
  unfold keep_last. rewrite !length_app, length_drop. cbn.
  destruct (decide (n = 0%nat)) as [->|Hn].
  - rewrite !drop_ge; [done|..]; rewrite ?length_app, ?length_drop; cbn; lia.
  - rewrite !drop_app_le by (rewrite ?length_drop; lia). rewrite drop_drop.
    f_equal. f_equal. lia.
Qed.

Lemma keep_last_last {A} n (l : list A) x : n <> 0%nat -> last (keep_last n (l ++ [x])) = Some x.
Proof.
  intros Hn. unfold keep_last. rewrite length_app. cbn. rewrite drop_app_le by lia. apply last_snoc.
Qed.

Lemma keep_last_suffix {A} n (l : list A) : exists k, l = k ++ keep_last n l.
Proof. exists (take (length l - n) l). unfold keep_last. by rewrite take_drop. Qed.

(** An element of a concatenation is in the first or the second part. *)
Lemma app_split_at {A} (l1 l2 d r : list A) e :
  l1 ++ e :: l2 = d ++ r ->
  (exists k, l1 = d ++ k /\ e ∈ r) \/ (exists k, d = l1 ++ [e] ++ k /\ e ∈ d).
Proof.
  revert l1. induction d as [|f d IH]; intros l1 H; cbn in *.
  - left. exists l1. split; [done|]. rewrite <- H. set_solver.
  - destruct l1 as [|g l1]; cbn in H; injection H as -> H.
    + right. exists d. split; [done|]. set_solver.
    + destruct (IH l1 H) as [(k & -> & ?)|(k & -> & ?)]; [left|right]; exists k.
      * done.
      * split; [done|by right].
Qed.

(** ** Lemmas on boolean predicates *)

Lemma not_Forall_false {A} (f : A -> bool) l :
  ~ Forall (fun x => f x = false) l <-> exists x, x ∈ l /\ f x = true.
Proof.
  induction l as [|x l IH].
  - split; [intros []; constructor|]. intros (x & Hx & _). by apply elem_of_nil in Hx.
  - rewrite Forall_cons. destruct (f x) eqn:E.
    + split; [intros _; exists x; split; [by left|done]|]. by intros _ [? _].
    + split.
      * intros H. destruct IH as [IH _]. destruct IH as (y & Hy & Hf); [tauto|].
        exists y. split; [by right|done].
      * intros (y & [->|Hy]%elem_of_cons & Hf); [congruence|]. intros [_ Hall].
        apply IH; [|done]. by exists y.
Qed.

Lemma forallb_ltb_true b l : forallb (fun u => u <? b) l = true <-> Forall (fun u => u < b) l.
Proof.
  induction l as [|x l IH]; cbn; [by split; constructor|].
  by rewrite andb_true_iff, Z.ltb_lt, Forall_cons, IH.
Qed.

Lemma filter_none {A} (P : A -> Prop) `{!forall x, Decision (P x)} l :
  Forall (fun x => ~ P x) l -> filter P l = [].
Proof. induction 1 as [|x l Hx Hl IH]; [done|]. by rewrite filter_cons_False, IH. Qed.

Lemma foldl_ext_in {A B} (f g : B -> A -> B) l b :
  (forall acc x, x ∈ l -> f acc x = g acc x) -> foldl f b l = foldl g b l.
Proof.
  revert b. induction l as [|x l IH]; intros b H; cbn; [done|].
  rewrite H by (by left). apply IH. intros acc y Hy. apply H. by right.
Qed.

Lemma filter_iff_in {A} (P Q : A -> Prop) `{!forall x, Decision (P x)} `{!forall x, Decision (Q x)} (l : list A) :
  (forall x, x ∈ l -> P x <-> Q x) -> filter P l = filter Q l.
Proof.
  induction l as [|x l IH]; intros Hl; [done|].
  assert (filter P l = filter Q l) as E by (apply IH; intros y Hy; apply Hl; by right).
  specialize (Hl x ltac:(by left)). destruct (decide (P x)).
  - rewrite !filter_cons_True by tauto. by f_equal.
  - by rewrite !filter_cons_False by tauto.
Qed.

(** Elements with one image are one when the images have no duplicate. *)
Lemma NoDup_map_inj {A B} (f : A -> B) l x y :
  NoDup (map f l) -> x ∈ l -> y ∈ l -> f x = f y -> x = y.
Proof.
  induction l as [|z l IH]; intros Hnd Hx Hy E; [by apply elem_of_nil in Hx|].
  cbn in Hnd. apply NoDup_cons in Hnd as [Hz Hnd].
  apply elem_of_cons in Hx as [->|Hx]; apply elem_of_cons in Hy as [->|Hy]; try done.
  - exfalso. apply Hz. rewrite E. by apply list_elem_of_fmap_2.
  - exfalso. apply Hz. rewrite <-E. by apply list_elem_of_fmap_2.
  - by apply IH.
Qed.

Lemma filter_all {A} (P : A -> Prop) `{!forall x, Decision (P x)} l : Forall P l -> filter P l = l.
Proof. induction 1 as [|x l Hx Hl IH]; [done|]. by rewrite filter_cons_True, IH. Qed.

(** ** Lemmas on sorting *)

Section sort_by_lemmas.
  Context {A : Type} (less : A -> A -> bool).

Lemma insert_by_Permutation x l : insert_by less x l ≡ₚ x :: l.
Proof.
  induction l as [|y l IH]; cbn; [done|].
  destruct (less x y); [done|]. rewrite IH. apply Permutation_swap.
Qed.

Lemma sort_by_aux_Permutation acc l : sort_by_aux less acc l ≡ₚ acc ++ l.
Proof.
  revert acc. induction l as [|x l IH]; intros acc; cbn; [by rewrite app_nil_r|].
  rewrite IH, insert_by_Permutation. cbn. by rewrite Permutation_middle.
Qed.

Lemma sort_by_Permutation l : sort_by less l ≡ₚ l.
Proof. apply sort_by_aux_Permutation. Qed.

Lemma sort_by_length l : length (sort_by less l) = length l.
Proof. by rewrite sort_by_Permutation. Qed.

Lemma elem_of_sort_by x l : x ∈ sort_by less l <-> x ∈ l.
Proof. by rewrite sort_by_Permutation. Qed.

(** [less] is a strict weak order, as Go's [sort] asks of its argument. *)
Class StrictWeak : Prop := {
  less_asym x y : less x y = true -> less y x = false;
  less_co_trans x y z : less y x = false -> less z y = false -> less z x = false
}.

Lemma insert_by_sorted `{!StrictWeak} x l :
  sorted_by less l -> sorted_by less (insert_by less x l).
Proof.
  unfold sorted_by. induction 1 as [|y l Hl IH Hy]; cbn.
  - repeat constructor.
  - destruct (less x y) eqn:Hxy.
    + constructor; [by constructor|]. constructor; [by apply less_asym|].
      eapply Forall_impl; [exact Hy|]. cbn. intros z Hz.
      eapply less_co_trans; [|exact Hz]. by apply less_asym.
    + constructor; [done|]. rewrite insert_by_Permutation. by constructor.
Qed.

Lemma sort_by_sorted `{!StrictWeak} l : sorted_by less (sort_by less l).
Proof.
  unfold sort_by. assert (sorted_by less []) as Hnil by constructor. revert Hnil.
  generalize (@nil A) as acc.
  induction l as [|x l IH]; intros acc Hacc; cbn; [done|].
  by apply IH, insert_by_sorted.
Qed.

(** Inserting at the end of a list none of whose elements is greater. *)
Lemma insert_by_last x l :
  Forall (fun y => less x y = false) l -> insert_by less x l = l ++ [x].
Proof.
  induction 1 as [|y l Hy Hl IH]; cbn; [done|]. by rewrite Hy, IH.
Qed.

Lemma sort_by_aux_id acc l :
  sorted_by less (acc ++ l) -> sort_by_aux less acc l = acc ++ l.
Proof.
  revert acc. induction l as [|x l IH]; intros acc H; cbn; [by rewrite app_nil_r|].
  rewrite (cons_middle x acc l), app_assoc in H |- *.
  rewrite insert_by_last; [by apply IH|].
  clear IH. induction acc as [|y acc IH]; [constructor|]. cbn in H.
  inversion H as [|? ? Hs Hy]; subst. constructor; [|by apply IH].
  rewrite Forall_forall in Hy. apply Hy. set_solver.
Qed.

(** A sorted list is left as it is: the sort is stable. *)
Lemma sort_by_id l : sorted_by less l -> sort_by less l = l.
Proof. apply (sort_by_aux_id []). Qed.
End sort_by_lemmas.

(** ** Lemmas on the byte order of strings *)

Lemma string_ltb_leb x y : String.ltb x y = negb (String.leb y x).
Proof.
  unfold String.ltb, String.leb. rewrite (String.compare_antisym y x).
  by destruct (String.compare x y).
Qed.

#[export] Instance string_by_StrictWeak {A} (f : A -> string) :
  StrictWeak (fun x y => String.ltb (f x) (f y)).
Proof.
  split.
  - intros x y. rewrite !string_ltb_leb, negb_true_iff, negb_false_iff.
    intros H. by destruct (String.leb_total (f x) (f y)) as [|]; [|congruence].
  - intros x y z. rewrite !string_ltb_leb, !negb_false_iff. intros H1 H2.
    apply Is_true_eq_true. change (String.le (f x) (f z)).
    etransitivity; apply Is_true_eq_left; eassumption.
Qed.
