(* ===== verification/GoStrings.v ===== *)
(** * Go strings

    The part of Go's [strings] package the program uses, on byte strings
    ([string], one [ascii] per byte), with the lemmas the components share. *)

From Stdlib Require Export Ascii.
From S2P Require Import Prelude.

(** ** Operations *)

(** [len(s)] *)
Abbreviation len := String.length.

(** [s\[n:\]] *)
Fixpoint str_drop (n : nat) (s : string) : string :=
  match n, s with
  | O, _ => s
  | S n, String _ s => str_drop n s
  | S _, EmptyString => EmptyString
  end.

(** [s\[:n\]] *)
Fixpoint str_take (n : nat) (s : string) : string :=
  match n, s with
  | S n, String c s => String c (str_take n s)
  | _, _ => EmptyString
  end.

(** [strings.HasPrefix(s, p)] *)
Fixpoint HasPrefix (s p : string) {struct p} : bool :=
  match p, s with
  | EmptyString, _ => true
  | String c p, String d s => bool_decide (c = d) && HasPrefix s p
  | String _ _, EmptyString => false
  end.

(** [strings.HasSuffix(s, p)]: [len(s) >= len(p) && s\[len(s)-len(p):\] == p] *)
Definition HasSuffix (s p : string) : bool :=
  (len p <=? len s)%nat && (str_drop (len s - len p) s == p).

(** [strings.Index(s, sub)], with [None] for -1 *)
Fixpoint Index (s sub : string) : option nat :=
  if HasPrefix s sub then Some 0%nat else
  match s with
  | EmptyString => None
  | String _ s => S <$> Index s sub
  end.

(** [strings.Contains(s, sub)] *)
Definition Contains (s sub : string) : bool :=
  match Index s sub with Some _ => true | None => false end.

(** [strings.LastIndex(s, sep)] for a one-byte separator *)
Fixpoint LastIndexByte (s : string) (sep : ascii) : option nat :=
  match s with
  | EmptyString => None
  | String c s =>
      match LastIndexByte s sep with
      | Some n => Some (S n)
      | None => if bool_decide (c = sep) then Some 0%nat else None
      end
  end.

(** [strings.Split(s, sep)] for a one-byte separator, as the first part and the rest *)
Fixpoint split_aux (s : string) (sep : ascii) : string * list string :=
  match s with
  | EmptyString => (EmptyString, [])
  | String c s =>
      let '(x, xs) := split_aux s sep in
      if bool_decide (c = sep) then (EmptyString, x :: xs) else (String c x, xs)
  end.
Definition Split (s : string) (sep : ascii) : list string :=
  let '(x, xs) := split_aux s sep in x :: xs.

(** [strings.ContainsAny(s, chars)] for ASCII [chars] *)
Fixpoint ContainsAny (s : string) (chars : list ascii) : bool :=
  match s with
  | EmptyString => false
  | String c s => bool_decide (c ∈ chars) || ContainsAny s chars
  end.

(** [strings.TrimSpace]: the UTF-8 encodings of the code points [unicode.IsSpace]
    accepts are removed from both ends. *)
Definition byte (n : N) : ascii := ascii_of_N n.
Definition bytes (l : list N) : string := foldr (fun n s => String (byte n) s) EmptyString l.
Definition space_runes : list string :=
  map bytes
    ([[9]; [10]; [11]; [12]; [13]; [32]; [194; 133]; [194; 160]; [225; 154; 128]]
     ++ map (fun k => [226; 128; 128 + k]) [0; 1; 2; 3; 4; 5; 6; 7; 8; 9; 10; 40; 41; 47]
     ++ [[226; 129; 159]; [227; 128; 128]])%N.

Fixpoint trim_left_fuel (fuel : nat) (s : string) : string :=
  match fuel with
  | O => s
  | S fuel =>
      match list_find (fun r => HasPrefix s r = true) space_runes with
      | Some (_, r) => trim_left_fuel fuel (str_drop (len r) s)
      | None => s
      end
  end.
Fixpoint trim_right_fuel (fuel : nat) (s : string) : string :=
  match fuel with
  | O => s
  | S fuel =>
      match list_find (fun r => HasSuffix s r = true) space_runes with
      | Some (_, r) => trim_right_fuel fuel (str_take (len s - len r) s)
      | None => s
      end
  end.
Definition TrimSpace (s : string) : string :=
  let s := trim_left_fuel (len s) s in trim_right_fuel (len s) s.

(** [strings.ToLower] on bytes: ASCII letters, and the two other code points whose
    lower case is an ASCII letter (U+212A, the Kelvin sign, and U+0130).  Code points
    whose lower case is not ASCII are left alone: the callers only look for ASCII
    words in the result. *)
Definition lower_ascii (c : ascii) : ascii :=
  let n := N_of_ascii c in
  if ((65 <=? n) && (n <=? 90))%N then byte (n + 32) else c.
Fixpoint ToLower (s : string) : string :=
  match s with
  | EmptyString => EmptyString
  | String c s' =>
      if HasPrefix s (bytes [226; 132; 170]%N) then
        match s' with
        | String _ (String _ s'') => String "k" (ToLower s'')
        | _ => String (lower_ascii c) (ToLower s')
        end
      else if HasPrefix s (bytes [196; 176]%N) then
        match s' with
        | String _ s'' => String "i" (ToLower s'')
        | _ => String (lower_ascii c) (ToLower s')
        end
      else String (lower_ascii c) (ToLower s')
  end.

(** [strings.TrimRight(s, "/")] *)
Definition trim_slashes (s : string) : string :=
  String.string_of_list_ascii (rev ((fix drop (l : list ascii) := match l with
    | c :: l' => if Ascii.eqb c "/" then drop l' else l | [] => [] end) (rev (String.list_ascii_of_string s)))).

(** ** Lemmas *)

#[local] Arguments String.append !_ _ /.


Lemma str_app_nil_r s : s +:+ "" = s.
Proof. induction s as [|c s IH]; cbn; congruence. Qed.

Lemma str_app_assoc s t u : s +:+ (t +:+ u) = (s +:+ t) +:+ u.
Proof. induction s as [|c s IH]; cbn; congruence. Qed.

Lemma str_len_app s t : len (s +:+ t) = (len s + len t)%nat.
Proof. induction s as [|c s IH]; cbn; congruence. Qed.

Lemma str_len_nil s : len s = 0%nat -> s = "".
Proof. by destruct s. Qed.

Lemma str_drop_app s t : str_drop (len s) (s +:+ t) = t.
Proof. induction s as [|c s IH]; cbn; [by destruct t|done]. Qed.
Lemma str_take_app a b : str_take (len a) (a +:+ b) = a.
Proof. induction a as [|c a IH]; cbn; [by destruct b|]. by rewrite IH. Qed.

Lemma str_drop_len n s : len (str_drop n s) = (len s - n)%nat.
Proof. revert s. induction n as [|n IH]; intros [|c s]; cbn; auto. Qed.

Lemma str_drop_drop n m s : str_drop n (str_drop m s) = str_drop (m + n) s.
Proof.
  revert s. induction m as [|m IH]; intros [|c s]; cbn; auto.
  by destruct n.
Qed.

Lemma str_take_drop n s : str_take n s +:+ str_drop n s = s.
Proof. revert s. induction n as [|n IH]; intros [|c s]; cbn; auto. by rewrite IH. Qed.

Lemma str_app_inj_r s t u : s +:+ u = t +:+ u -> s = t.
Proof.
  revert t. induction s as [|c s IH]; intros [|d t] H; auto.
  - apply (f_equal len) in H. cbn in H. rewrite str_len_app in H. lia.
  - apply (f_equal len) in H. cbn in H. rewrite str_len_app in H. lia.
  - injection H as -> H. by rewrite (IH t).
Qed.

Lemma HasPrefix_spec s p : HasPrefix s p = true <-> exists t, s = p +:+ t.
Proof.
  revert s. induction p as [|c p IH]; intros s; cbn.
  - split; [eauto|done].
  - destruct s as [|d s]; cbn.
    + split; [discriminate|]. intros [t Ht]. discriminate.
    + rewrite andb_true_iff, bool_decide_eq_true, IH. split.
      * intros [-> [t ->]]. by exists t.
      * intros [t [= -> ->]]. split; [done|by exists t].
Qed.

Lemma HasPrefix_app p t : HasPrefix (p +:+ t) p = true.
Proof. apply HasPrefix_spec. by exists t. Qed.

Lemma HasSuffix_spec s p : HasSuffix s p = true <-> exists t, s = t +:+ p.
Proof.
  unfold HasSuffix. rewrite andb_true_iff, Nat.leb_le, String.eqb_eq. split.
  - intros [_ H]. exists (str_take (len s - len p) s).
    rewrite <- H at 2. by rewrite str_take_drop.
  - intros [t ->]. rewrite str_len_app. split; [lia|].
    replace (len t + len p - len p)%nat with (len t) by lia. apply str_drop_app.
Qed.

Lemma Index_Some s sub k :
  Index s sub = Some k -> exists a b, s = a +:+ (sub +:+ b) /\ len a = k.
Proof.
  revert k. induction s as [|c s IH]; intros k; cbn -[HasPrefix].
  - destruct (HasPrefix _ _) eqn:E; [|done].
    intros [= <-]. apply HasPrefix_spec in E as [t ->]. by exists "", t.
  - destruct (HasPrefix _ _) eqn:E.
    + intros [= <-]. apply HasPrefix_spec in E as [t ->]. by exists "", t.
    + destruct (Index s sub) as [k'|]; cbn; [|done]. intros [= <-].
      destruct (IH k' eq_refl) as (a & b & -> & <-). by exists (String c a), b.
Qed.

(** [Index] finds the first occurrence. *)
Lemma Index_first s sub a b :
  s = a +:+ (sub +:+ b) -> exists k, Index s sub = Some k /\ (k <= len a)%nat.
Proof.
  revert s. induction a as [|c a IH]; intros s ->.
  - cbn [String.append]. exists 0%nat. split; [|lia].
    pose proof (HasPrefix_app sub b) as H.
    destruct (sub +:+ b); cbn [Index]; by rewrite H.
  - cbn -[HasPrefix]. destruct (HasPrefix _ _); [exists 0%nat; split; [done|lia]|].
    destruct (IH _ eq_refl) as (k & -> & Hk). exists (S k). cbn. split; [done|lia].
Qed.

Lemma Contains_spec s sub :
  Contains s sub = true <-> exists a b, s = a +:+ (sub +:+ b).
Proof.
  unfold Contains. split.
  - destruct (Index s sub) as [k|] eqn:E; [|done].
    intros _. apply Index_Some in E as (a & b & H & _). by exists a, b.
  - intros (a & b & H). apply Index_first in H as (k & -> & _). done.
Qed.

Lemma Split_nil sep : Split "" sep = [""].
Proof. done. Qed.

Lemma Split_no_sep s sep : Forall (fun x => LastIndexByte x sep = None) (Split s sep).
Proof.
  unfold Split. induction s as [|c s IH]; cbn; [by repeat constructor|].
  destruct (split_aux s sep) as [x xs]. inversion IH as [|? ? Hx Hxs]; subst.
  case_bool_decide as Hc; [by repeat constructor|].
  constructor; [|done]. cbn. rewrite Hx. by rewrite bool_decide_eq_false_2.
Qed.

Lemma str_drop_app_le n s t : (n <= len s)%nat -> str_drop n (s +:+ t) = str_drop n s +:+ t.
Proof.
  revert n. induction s as [|c s IH]; intros [|n] H; cbn in *; [done|lia|done|]. apply IH. lia.
Qed.

(** Two ways to cut a string: the later cut extends the earlier. *)
Lemma str_app_split a b c d :
  a +:+ b = c +:+ d -> (len a <= len c)%nat -> exists m, c = a +:+ m /\ b = m +:+ d.
Proof.
  revert c. induction a as [|x a IH]; intros c H Hle; cbn in *; [by exists c|].
  destruct c as [|y c]; cbn in *; [lia|]. injection H as -> H.
  destruct (IH c H) as (m & -> & ->); [lia|]. by exists m.
Qed.

(** ** The byte order of strings *)

Abbreviation slt a b := (String.ltb a b = true).
Abbreviation sle a b := (String.leb a b = true).

Lemma ascii_compare_refl c : Ascii.compare c c = Eq.
Proof. unfold Ascii.compare. apply N.compare_refl. Qed.
Lemma ltb_app_same p x y : String.ltb (p +:+ x) (p +:+ y) = String.ltb x y.
Proof.
  unfold String.ltb. induction p as [|c p IH]; [done|]. cbn [String.append String.compare].
  by rewrite ascii_compare_refl.
Qed.
Lemma ltb_cons_same c x y : String.ltb (String c x) (String c y) = String.ltb x y.
Proof. unfold String.ltb. cbn [String.compare]. by rewrite ascii_compare_refl. Qed.
Lemma ltb_app_lt a b x y : len a = len b -> slt a b -> slt (a +:+ x) (b +:+ y).
Proof.
  unfold String.ltb. revert b. induction a as [|c a IH]; intros [|c' b] Hl H; try discriminate. injection Hl as Hl.
  cbn [String.append String.compare] in *. destruct (Ascii.compare c c'); [by apply IH|done|done].
Qed.
Lemma ltb_app_cases a b x y : len a = len b -> slt (a +:+ x) (b +:+ y) -> slt a b \/ a = b /\ slt x y.
Proof.
  unfold String.ltb. revert b. induction a as [|c a IH]; intros [|c' b] Hl H; try discriminate; [by right|]. injection Hl as Hl.
  cbn [String.append String.compare] in *. destruct (Ascii.compare c c') eqn:E; [|by left|done].
  apply Ascii.compare_eq_iff in E as <-. destruct (IH b Hl H) as [?|[-> ?]]; [by left|by right].
Qed.
Lemma slt_trans x y z : slt x y -> slt y z -> slt x z.
Proof.
  rewrite !string_ltb_leb, !negb_true_iff. intros H1 H2. destruct (String.leb z x) eqn:E; [|done].
  destruct (String.leb_total x y) as [H|H]; [|congruence].
  assert (String.leb z y = true) as Hzy; [|congruence]. apply Is_true_eq_true. change (String.le z y).
  etransitivity; apply Is_true_eq_left; eassumption.
Qed.
Lemma slt_irrefl x : ~ slt x x.
Proof. rewrite string_ltb_leb. by destruct (String.leb_total x x) as [->| ->]. Qed.
Lemma sle_cases x y : sle x y -> x = y \/ slt x y.
Proof.
  unfold String.leb, String.ltb. destruct (String.compare x y) eqn:E; [|by right|done].
  left. by apply String.compare_eq_iff.
Qed.
Lemma slt_sle x y : slt x y -> sle x y.
Proof. unfold String.leb, String.ltb. by destruct (String.compare x y). Qed.

Lemma str_app_eq a b x y : a +:+ x = b +:+ y -> len a = len b -> a = b /\ x = y.
Proof.
  revert b. induction a as [|c a IH]; intros [|c' b] E Hl; try discriminate; [done|].
  injection Hl as Hl. injection E as -> E. by destruct (IH b E Hl) as [-> ->].
Qed.

(** ** The entries of a map by key *)

Section entries.
Context {A : Type}.
Definition sorted_entries (m : gmap string A) : list (string * A) := sort_by (fun a b => String.ltb a.1 b.1) (map_to_list m).

Lemma elem_of_sorted_entries m k v : (k, v) ∈ sorted_entries m <-> m !! k = Some v.
Proof. unfold sorted_entries. by rewrite elem_of_sort_by, elem_of_map_to_list. Qed.
Lemma sorted_entries_NoDup m : NoDup (sorted_entries m).*1.
Proof. unfold sorted_entries. rewrite sort_by_Permutation. apply NoDup_fst_map_to_list. Qed.

Lemma sorted_by_lt (l : list (string * A)) :
  sorted_by (fun a b => String.ltb a.1 b.1) l -> NoDup l.*1 -> StronglySorted (fun a b => slt a.1 b.1) l.
Proof.
  unfold sorted_by. induction 1 as [|[p f] l Hs IH Hall]; intros Hnd; [constructor|].
  cbn in Hnd. apply NoDup_cons in Hnd as [Hp Hnd]. constructor; [by apply IH|].
  apply Forall_forall. intros [q g] Hin. rewrite Forall_forall in Hall. specialize (Hall _ Hin). cbn in Hall |- *.
  rewrite string_ltb_leb in Hall. breflect. destruct (sle_cases p q Hall) as [->|]; [|done].
  destruct Hp. apply list_elem_of_fmap. by exists (q, g).
Qed.
Lemma sorted_entries_lt m : StronglySorted (fun a b => slt a.1 b.1) (sorted_entries m).
Proof. apply sorted_by_lt; [apply sort_by_sorted, _|apply sorted_entries_NoDup]. Qed.

Lemma sorted_entries_unique (l k : list (string * A)) :
  StronglySorted (fun a b => slt a.1 b.1) l -> StronglySorted (fun a b => slt a.1 b.1) k -> l ≡ₚ k -> l = k.
Proof.
  apply StronglySorted_unique_strong. intros x y _ _ H1 H2. by destruct (slt_irrefl x.1), (slt_trans _ _ _ H1 H2).
Qed.

Lemma insert_by_split less (x : string * A) l : exists l1 l2, l = l1 ++ l2 /\ insert_by less x l = l1 ++ x :: l2.
Proof.
  induction l as [|y l (l1 & l2 & -> & E)]; [by exists [], []|]. cbn. destruct (less x y); [by exists [], (y :: l1 ++ l2)|].
  exists (y :: l1), l2. by rewrite E.
Qed.
(** A new entry goes to one place, the others stay in their order. *)
Lemma sorted_entries_insert m k v : m !! k = None ->
  exists l1 l2, sorted_entries m = l1 ++ l2 /\ sorted_entries (<[k := v]> m) = l1 ++ (k, v) :: l2.
Proof.
  intros Hk. destruct (insert_by_split (fun a b => String.ltb a.1 b.1) (k, v) (sorted_entries m)) as (l1 & l2 & E1 & E2).
  exists l1, l2. split; [done|]. rewrite <- E2.
  assert (insert_by (fun a b => String.ltb a.1 b.1) (k, v) (sorted_entries m) ≡ₚ sorted_entries (<[k := v]> m)) as Hperm.
  { rewrite insert_by_Permutation. unfold sorted_entries. rewrite !sort_by_Permutation. by rewrite map_to_list_insert. }
  symmetry. apply sorted_entries_unique; [|apply sorted_entries_lt|done]. apply sorted_by_lt.
  - apply insert_by_sorted; [apply _|]. apply sort_by_sorted, _.
  - rewrite Hperm. apply sorted_entries_NoDup.
Qed.
End entries.

(** ** Sorting a list with a least element *)

Section least.
Context {A : Type} (less : A -> A -> bool).
Lemma sort_by_aux_app acc l k : sort_by_aux less acc (l ++ k) = sort_by_aux less (sort_by_aux less acc l) k.
Proof. revert acc. by induction l as [|x l IH]; intros acc; cbn. Qed.
Lemma sort_by_aux_least a acc l : (forall x, x ∈ l -> less x a = false) -> sort_by_aux less (a :: acc) l = a :: sort_by_aux less acc l.
Proof.
  revert acc. induction l as [|x l IH]; intros acc Hl; [done|]. cbn. rewrite Hl by set_solver.
  apply IH. set_solver.
Qed.
Lemma sort_by_least a l k : (forall x, x ∈ l ++ k -> less a x = true /\ less x a = false) ->
  sort_by less (l ++ a :: k) = a :: sort_by less (l ++ k).
Proof.
  intros H. unfold sort_by. rewrite !sort_by_aux_app. cbn.
  assert (insert_by less a (sort_by_aux less [] l) = a :: sort_by_aux less [] l) as ->.
  { assert (forall x, x ∈ sort_by_aux less [] l -> less a x = true) as Hx.
    { intros x Hx. apply H, elem_of_app. left. by apply (elem_of_sort_by less). }
    destruct (sort_by_aux less [] l) as [|y s]; [done|]. cbn. by rewrite Hx by set_solver. }
  apply sort_by_aux_least. intros x Hx. by apply H, elem_of_app; right.
Qed.
End least.

(** ** Sorting and filtering *)

Section filter.
Context {A : Type} (less : A -> A -> bool) `{!StrictWeak less} (P : A -> Prop) `{!forall x, Decision (P x)}.
Lemma insert_by_filter x l : sorted_by less l ->
  filter P (insert_by less x l) = if decide (P x) then insert_by less x (filter P l) else filter P l.
Proof.
  unfold sorted_by. induction 1 as [|y l Hl IH Hy]; [cbn; by destruct (decide (P x))|]. cbn [insert_by].
  destruct (less x y) eqn:Exy.
  - rewrite filter_cons. destruct (decide (P x)) as [Hx|]; [|done]. rewrite filter_cons. destruct (decide (P y)) as [Hp|].
    + cbn. by rewrite Exy.
    + assert (forall z, z ∈ filter P l -> less x z = true) as Hz.
      { intros z Hz. apply list_elem_of_filter in Hz as [_ Hz]. rewrite Forall_forall in Hy. specialize (Hy z Hz). cbn in Hy.
        destruct (less x z) eqn:Exz; [done|]. pose proof (less_co_trans less y z x Hy Exz). congruence. }
      destruct (filter P l) as [|z k]; [done|]. cbn. by rewrite Hz by set_solver.
  - rewrite filter_cons, IH. destruct (decide (P y)); destruct (decide (P x)); rewrite ?filter_cons_True by done; try done.
    + cbn. by rewrite Exy.
    + rewrite filter_cons_False; done.
    + rewrite filter_cons_False; done.
Qed.
Lemma sort_by_filter l : sort_by less (filter P l) = filter P (sort_by less l).
Proof.
  unfold sort_by. assert (forall acc, sorted_by less acc -> sort_by_aux less (filter P acc) (filter P l) = filter P (sort_by_aux less acc l)) as Hgen.
  { induction l as [|x l IH]; intros acc Hacc; [done|]. cbn [sort_by_aux]. rewrite <- IH by (by apply insert_by_sorted).
    rewrite filter_cons, insert_by_filter by done. by destruct (decide (P x)). }
  by rewrite <- Hgen by constructor.
Qed.
End filter.

Lemma sorted_entries_filter {A} (P : string -> Prop) `{!forall k, Decision (P k)} (m : gmap string A) :
  sorted_entries (filter (fun kv => P kv.1) m) = filter (fun kv => P kv.1) (sorted_entries m).
Proof.
  apply sorted_entries_unique; [apply sorted_entries_lt| |].
  - pose proof (sorted_entries_lt m) as Hs. induction Hs as [|x l Hl IH Hx]; [constructor|]. rewrite filter_cons.
    destruct (decide _); [|done]. constructor; [done|]. rewrite Forall_forall in Hx |- *. intros y Hy.
    apply list_elem_of_filter in Hy as [_ Hy]. by apply Hx.
  - unfold sorted_entries at 1. rewrite sort_by_Permutation. apply NoDup_Permutation.
    + apply NoDup_map_to_list.
    + apply NoDup_filter. apply NoDup_fmap_1 with fst, sorted_entries_NoDup.
    + intros [k v]. rewrite list_elem_of_filter, elem_of_map_to_list, elem_of_sorted_entries, map_lookup_filter_Some. tauto.
Qed.

(** ** Values as texts

    A text for every value of a countable type, which examples take for an encoding the
    library does not fix *)

Fixpoint pos_text (p : positive) : string :=
  match p with xH => "1" | xO p => String "0" (pos_text p) | xI p => String "1" (pos_text p) end.
Fixpoint text_pos (s : string) : option positive :=
  match s with
  | String "1" EmptyString => Some xH
  | String "0" s => xO <$> text_pos s
  | String "1" s => xI <$> text_pos s
  | _ => None
  end.
Lemma text_pos_text p : text_pos (pos_text p) = Some p.
Proof. induction p as [p IH|p IH|]; cbn; [|by rewrite IH|done]. rewrite IH. by destruct p. Qed.
Section text_of.
Context {A : Type} `{Countable A}.
Definition text_of (a : A) : string := pos_text (encode a).
Definition of_text (s : string) : option A := p ← text_pos s; decode p.
Lemma of_text_of (a : A) : of_text (text_of a) = Some a.
Proof. unfold of_text, text_of. rewrite text_pos_text. apply decode_encode. Qed.
End text_of.
