(* ===== verification/GoTime.v ===== *)
(** * Go time

    The part of Go's [time] package the program uses.  An instant is the number of
    nanoseconds since 0001-01-01T00:00:00Z, so that Go's zero [time.Time] is [0];
    a duration is an [int64] number of nanoseconds.  Monotonic clock readings are
    not modelled: instants compare and subtract by their wall clock. *)

From S2P Require Import Prelude GoStrings.

Abbreviation Time := Z (only parsing).
Abbreviation Duration := Z (only parsing).

(** ** Instants and durations *)

Definition zero_time : Time := 0.
Definition IsZero (t : Time) : bool := t =? 0.
Definition Before (t u : Time) : bool := t <? u.
Definition After (t u : Time) : bool := u <? t.
Definition Add (t : Time) (d : Duration) : Time := t + d.

(** [t.Sub(u)] saturates at the bounds of [int64]. *)
Definition Sub (t u : Time) : Duration := Z.max min_int64 (Z.min max_int64 (t - u)).

Definition Nanosecond : Duration := 1.
Definition Microsecond : Duration := 1000.
Definition Millisecond : Duration := 1000000.
Definition Second : Duration := 1000000000.
Definition Minute : Duration := 60 * Second.
Definition Hour : Duration := 60 * Minute.

(** [d.Milliseconds()] *)
Definition Milliseconds (d : Duration) : Z := Z.quot d Millisecond.

(** Seconds from 0001-01-01 to 1970-01-01, and [time.Unix(0, 0)]. *)
Definition unix_offset : Z := 62135596800.
Definition unix_epoch : Time := unix_offset * Second.
Definition unix_sec (t : Time) : Z := t / Second - unix_offset.

(** ** The civil calendar

    Days are counted from 0001-01-01; the computations use years that start on
    March 1st, so that the leap day is the last day of the year. *)

Definition march_offset : Z := 306.

(** First day, counted from 0000-03-01, of the March-based year [y]. *)
Definition year_start (y : Z) : Z := 365 * y + y / 4 - y / 100 + y / 400.

(** [year, month, day] of a day number *)
Definition civil_of_day (n : Z) : Z * Z * Z :=
  let z := n + march_offset in
  let n400 := z / 146097 in
  let d := z mod 146097 in
  let n100 := Z.min 3 (d / 36524) in
  let d := d - 36524 * n100 in
  let n4 := d / 1461 in
  let d := d - 1461 * n4 in
  let n1 := Z.min 3 (d / 365) in
  let doy := d - 365 * n1 in
  let y := 400 * n400 + 100 * n100 + 4 * n4 + n1 in
  let mp := (5 * doy + 2) / 153 in
  let dd := doy - (153 * mp + 2) / 5 + 1 in
  if mp <? 10 then (y, mp + 3, dd) else (y + 1, mp - 9, dd).

(** Day number of a date whose month is in 1..12; any [day] is accepted, as
    [time.Date] does. *)
Definition day_of_civil (year month day : Z) : Z :=
  let y := if month <=? 2 then year - 1 else year in
  let mp := if month <=? 2 then month + 9 else month - 3 in
  year_start y + (153 * mp + 2) / 5 + day - 1 - march_offset.

Definition is_leap (y : Z) : bool :=
  (y mod 4 =? 0) && (negb (y mod 100 =? 0) || (y mod 400 =? 0)).

(** [daysIn(month, year)] *)
Definition days_in (month year : Z) : Z :=
  if month =? 2 then if is_leap year then 29 else 28
  else if (month =? 4) || (month =? 6) || (month =? 9) || (month =? 11) then 30 else 31.

(** [t.Weekday()] of a day number, Sunday = 0; 0001-01-01 is a Monday. *)
Definition weekday_of_day (n : Z) : Z := (n + 1) mod 7.

(** Clock fields of an instant read in UTC *)
Record Civil := mkCivil {
  c_year : Z; c_month : Z; c_day : Z;
  c_hour : Z; c_min : Z; c_sec : Z; c_nsec : Z;
  c_weekday : Z
}.

Definition civil (t : Time) : Civil :=
  let s := t / Second in
  let day := s / 86400 in
  let sod := s mod 86400 in
  let '(y, m, d) := civil_of_day day in
  mkCivil y m d (sod / 3600) (sod mod 3600 / 60) (sod mod 60) (t mod Second)
    (weekday_of_day day).

(** [time.Date(y, m, d, h, mi, s, ns, time.UTC)] with [m] in 1..12 *)
Definition date_utc (y m d h mi s ns : Z) : Time :=
  (day_of_civil y m d * 86400 + h * 3600 + mi * 60 + s) * Second + ns.

(** [t.ISOWeek()] of a day number *)
Definition iso_week (n : Z) : Z * Z :=
  let wd := weekday_of_day n in
  let delta := if wd =? 0 then -3 else 4 - wd in
  let th := n + delta in
  let '(y, _, _) := civil_of_day th in
  (y, (th - day_of_civil y 1 1) / 7 + 1).

(** ** Locations

    A [*time.Location] is its name and the lookup of its zone table: the offset in
    seconds in use at a Unix second, and the Unix seconds between which that offset
    holds. *)
Record Location := mkLocation {
  loc_name : string;
  loc_lookup : Z -> Z * Z * Z
}.

Definition fixed_zone (name : string) (offset : Z) : Location :=
  mkLocation name (fun _ => (offset, min_int64, max_int64)).
Definition UTC : Location := fixed_zone "UTC" 0.

Definition offset_at (loc : Location) (t : Time) : Z :=
  (loc_lookup loc (unix_sec t)).1.1.

(** The fields of [t.In(loc)] *)
Definition civil_in (loc : Location) (t : Time) : Civil :=
  civil (t + offset_at loc t * Second).

(** [time.Date(y, m, d, h, mi, s, ns, loc)]: the offset is looked up at the local
    time read as UTC, and again when the result is outside that zone's interval. *)
Definition date_in (loc : Location) (y m d h mi s ns : Z) : Time :=
  let t := date_utc y m d h mi s ns in
  let unix := unix_sec t in
  let '(offset, start, stop) := loc_lookup loc unix in
  if offset =? 0 then t else
  let utc := unix - offset in
  let offset' :=
    if (utc <? start) || (stop <=? utc) then (loc_lookup loc utc).1.1 else offset in
  t - offset' * Second.

(** [t.AddDate(0, 0, days)] in a location *)
Definition add_days_in (loc : Location) (t : Time) (days : Z) : Time :=
  let c := civil_in loc t in
  date_in loc (c_year c) (c_month c) (c_day c + days)
    (c_hour c) (c_min c) (c_sec c) (c_nsec c).

(** ** Decimal digits *)

Definition digit (n : Z) : ascii := ascii_of_N (Z.to_N (48 + n)).
Definition digit_val (c : ascii) : option Z :=
  let n := Z.of_N (N_of_ascii c) in
  if (48 <=? n) && (n <=? 57) then Some (n - 48) else None.
Definition is_digit (c : ascii) : bool :=
  match digit_val c with Some _ => true | None => false end.

(** [k] decimal digits of [n], most significant first *)
Fixpoint fixed_digits (k : nat) (n : Z) : string :=
  match k with
  | O => ""
  | S k => fixed_digits k (n / 10) +:+ String (digit (n mod 10)) ""
  end.

(** Decimal representation of a non-negative integer, with fuel *)
Fixpoint dec_fuel (fuel : nat) (n : Z) : string :=
  match fuel with
  | O => ""
  | S fuel => (if n <? 10 then "" else dec_fuel fuel (n / 10)) +:+ String (digit (n mod 10)) ""
  end.

(** [strconv.Itoa]: an [int64] has at most 19 digits *)
Definition itoa (n : Z) : string :=
  if n <? 0 then String "-" (dec_fuel 20 (- n)) else dec_fuel 20 n.

(** Removes trailing ['0'] bytes: [strings.TrimRight(s, "0")] *)
Fixpoint trim_zeros (s : string) : string :=
  match s with
  | EmptyString => EmptyString
  | String c s =>
      match trim_zeros s with
      | EmptyString => if bool_decide (c = "0"%char) then EmptyString else String c EmptyString
      | s' => String c s'
      end
  end.

(** [k] leading decimal digits as a number, with what follows them *)
Fixpoint take_digits (k : nat) (acc : Z) (s : string) : option (Z * string) :=
  match k with
  | O => Some (acc, s)
  | S k =>
      match s with
      | EmptyString => None
      | String c s =>
          match digit_val c with
          | Some v => take_digits k (10 * acc + v) s
          | None => None
          end
      end
  end.

(** The longest prefix of decimal digits and the rest *)
Fixpoint span_digits (s : string) : string * string :=
  match s with
  | EmptyString => (EmptyString, EmptyString)
  | String c s' =>
      if is_digit c then let '(a, b) := span_digits s' in (String c a, b)
      else (EmptyString, s)
  end.

(** Value of a string of decimal digits *)
Fixpoint digits_value (acc : Z) (s : string) : Z :=
  match s with
  | EmptyString => acc
  | String c s => digits_value (10 * acc + default 0 (digit_val c)) s
  end.

(** ** Formatting and parsing *)

(** A year in four digits, or more where it has more, with a sign when negative *)
Definition format_year (y : Z) : string :=
  let ds := if Z.abs y <=? 9999 then fixed_digits 4 (Z.abs y) else itoa (Z.abs y) in
  if y <? 0 then "-" +:+ ds else ds.
Definition format_date (y m d : Z) : string :=
  format_year y +:+ "-" +:+ fixed_digits 2 m +:+ "-" +:+ fixed_digits 2 d.

(** [t.UTC().Format(time.RFC3339Nano)] *)
Definition format_frac (ns : Z) : string :=
  if ns =? 0 then "" else "." +:+ trim_zeros (fixed_digits 9 ns).
Definition format_rfc3339nano (t : Time) : string :=
  let c := civil t in
  format_date (c_year c) (c_month c) (c_day c) +:+ "T" +:+
  fixed_digits 2 (c_hour c) +:+ ":" +:+ fixed_digits 2 (c_min c) +:+ ":" +:+
  fixed_digits 2 (c_sec c) +:+ format_frac (c_nsec c) +:+ "Z".

(** [t.UTC().Format("2006-01-02")] and [t.UTC().Format("2006-01")] *)
Definition format_day (t : Time) : string :=
  let c := civil t in format_date (c_year c) (c_month c) (c_day c).
Definition format_month (t : Time) : string :=
  let c := civil t in format_year (c_year c) +:+ "-" +:+ fixed_digits 2 (c_month c).

Definition expect (c : ascii) (s : string) : option string :=
  match s with
  | String d s => if bool_decide (c = d) then Some s else None
  | EmptyString => None
  end.

(** One or two digits: [getnum(s, false)] *)
Definition getnum (s : string) : option (Z * string) :=
  match take_digits 2 0 s with
  | Some r => Some r
  | None => take_digits 1 0 s
  end.

(** A fractional second of any number of digits, truncated to nanoseconds *)
Definition parse_frac (s : string) : Z * string :=
  match s with
  | String c s' =>
      if bool_decide (c = "."%char) || bool_decide (c = ","%char) then
        let '(ds, rest) := span_digits s' in
        match ds with
        | EmptyString => (0, s)
        | _ =>
            let ds := str_take 9 ds in
            (digits_value 0 ds * 10 ^ (9 - Z.of_nat (len ds)), rest)
        end
      else (0, s)
  | EmptyString => (0, s)
  end.

(** The zone designator, which must end the string: its offset in seconds *)
Definition parse_zone (s : string) : option Z :=
  match s with
  | String "Z" EmptyString => Some 0
  | String c s =>
      '(hr, s) ← take_digits 2 0 s;
      s ← expect ":" s;
      '(mm, s) ← take_digits 2 0 s;
      if (24 <? hr) || (60 <? mm) || (s != "") then None else
      if bool_decide (c = "+"%char) then Some ((hr * 60 + mm) * 60)
      else if bool_decide (c = "-"%char) then Some (- ((hr * 60 + mm) * 60))
      else None
  | EmptyString => None
  end.

(** [time.Parse(time.RFC3339Nano, s)], which is also [time.Parse(time.RFC3339, s)]:
    both accept a fractional second. *)
Definition parse_rfc3339 (s : string) : option Time :=
  '(year, s) ← take_digits 4 0 s;
  s ← expect "-" s;
  '(month, s) ← take_digits 2 0 s;
  s ← expect "-" s;
  '(day, s) ← take_digits 2 0 s;
  s ← expect "T" s;
  '(hour, s) ← getnum s;
  s ← expect ":" s;
  '(mi, s) ← take_digits 2 0 s;
  s ← expect ":" s;
  '(sec, s) ← take_digits 2 0 s;
  let '(ns, s) := parse_frac s in
  offset ← parse_zone s;
  if (1 <=? month) && (month <=? 12) && (1 <=? day) && (day <=? days_in month year)
     && (hour <? 24) && (mi <? 60) && (sec <? 60)
  then Some (date_utc year month day hour mi sec ns - offset * Second)
  else None.

(** [d.String()] *)
Definition format_scaled (prec : nat) (u : Z) : string :=
  let frac := trim_zeros (fixed_digits prec (u mod 10 ^ Z.of_nat prec)) in
  itoa (u / 10 ^ Z.of_nat prec) +:+ (if frac == "" then "" else "." +:+ frac).
Definition duration_string (d : Duration) : string :=
  let u := Z.abs d in
  (if d <? 0 then "-" else "") +:+
  if u =? 0 then "0s"
  else if u <? Microsecond then itoa u +:+ "ns"
  else if u <? Millisecond then format_scaled 3 u +:+ bytes [194; 181]%N +:+ "s"
  else if u <? Second then format_scaled 6 u +:+ "ms"
  else
    let secs := u / Second in
    let mins := secs / 60 in
    let hours := mins / 60 in
    (if 0 <? hours then itoa hours +:+ "h" else "") +:+
    (if 0 <? mins then itoa (mins mod 60) +:+ "m" else "") +:+
    format_scaled 9 (secs mod 60 * Second + u mod Second) +:+ "s".

(** Sanity checks against values printed by Go *)
Example format_unix_epoch : format_rfc3339nano unix_epoch = "1970-01-01T00:00:00Z".
Proof. reflexivity. Qed.
Example format_leap_day :
  format_rfc3339nano (date_utc 2024 2 29 23 59 58 120000000) = "2024-02-29T23:59:58.12Z".
Proof. reflexivity. Qed.
Example parse_with_offset :
  parse_rfc3339 "2024-02-29T23:59:58.12+08:00" = Some (date_utc 2024 2 29 15 59 58 120000000).
Proof. reflexivity. Qed.
Example parse_bad_day : parse_rfc3339 "2023-02-29T00:00:00Z" = None.
Proof. reflexivity. Qed.
Example duration_90m : duration_string (90 * Minute + 1500 * Millisecond) = "1h30m1.5s".
Proof. reflexivity. Qed.
Example iso_week_2021 : iso_week (day_of_civil 2021 1 3) = (2020, 53).
Proof. reflexivity. Qed.
