(* ===== verification/GoTimeFacts.v ===== *)
(** * Facts about Go time

    The calendar computations are inverse to each other, and parsing an RFC 3339
    time stamp gives back the instant it was printed from. *)

From S2P Require Import Prelude GoStrings GoTime.

#[local] Arguments String.append !_ _ /.

(** ** The calendar *)

(** The four quotients [civil_of_day] computes, and the day within the year. *)
Lemma year_decomposition z :
  let n400 := z / 146097 in
  let d := z mod 146097 in
  let n100 := Z.min 3 (d / 36524) in
  let d1 := d - 36524 * n100 in
  let n4 := d1 / 1461 in
  let d2 := d1 - 1461 * n4 in
  let n1 := Z.min 3 (d2 / 365) in
  0 <= n100 <= 3 /\ 0 <= n4 <= 24 /\ 0 <= n1 <= 3 /\ 0 <= d2 - 365 * n1 <= 365 /\
  z = 146097 * n400 + 36524 * n100 + 1461 * n4 + d2.
Proof. cbv zeta. Z.to_euclidean_division_equations. lia. Qed.

Lemma year_start_decomposed a b c d :
  0 <= b <= 3 -> 0 <= c <= 24 -> 0 <= d <= 3 ->
  year_start (400 * a + 100 * b + 4 * c + d) = 146097 * a + 36524 * b + 1461 * c + 365 * d.
Proof. intros. unfold year_start. Z.to_euclidean_division_equations. lia. Qed.

Lemma month_decomposition doy :
  0 <= doy <= 365 ->
  let mp := (5 * doy + 2) / 153 in
  let dd := doy - (153 * mp + 2) / 5 + 1 in
  0 <= mp <= 11 /\ 1 <= dd <= 31.
Proof. cbv zeta. intros. Z.to_euclidean_division_equations. lia. Qed.

Lemma civil_of_day_spec n :
  let '(y, m, d) := civil_of_day n in
  1 <= m <= 12 /\ 1 <= d <= 31 /\ day_of_civil y m d = n.
Proof.
  unfold civil_of_day. pose proof (year_decomposition (n + march_offset)) as H.
  cbv zeta in H |- *. revert H.
  generalize ((n + march_offset) / 146097) as a. intros a.
  set (d0 := (n + march_offset) mod 146097). clearbody d0.
  set (b := Z.min 3 (d0 / 36524)). clearbody b.
  set (d1 := d0 - 36524 * b). clearbody d1.
  set (c := d1 / 1461). clearbody c.
  set (d2 := d1 - 1461 * c). clearbody d2.
  set (e := Z.min 3 (d2 / 365)). clearbody e. intros (Hb & Hc & He & Hdoy & Hz).
  pose proof (year_start_decomposed a b c e Hb Hc He) as Hys.
  pose proof (month_decomposition (d2 - 365 * e) Hdoy) as Hm. cbv zeta in Hm.
  set (mp := (5 * (d2 - 365 * e) + 2) / 153) in *. clearbody mp.
  set (q := (153 * mp + 2) / 5) in *.
  destruct (Z.ltb_spec mp 10); unfold day_of_civil.
  - destruct (Z.leb_spec (mp + 3) 2); [lia|]. replace (mp + 3 - 3) with mp by lia.
    fold q. rewrite Hys. lia.
  - destruct (Z.leb_spec (mp - 9) 2); [|lia].
    replace (400 * a + 100 * b + 4 * c + e + 1 - 1) with (400 * a + 100 * b + 4 * c + e) by lia.
    replace (mp - 9 + 9) with mp by lia. fold q. rewrite Hys. lia.
Qed.

Lemma day_of_civil_of_day n :
  let '(y, m, d) := civil_of_day n in day_of_civil y m d = n.
Proof. pose proof (civil_of_day_spec n). destruct (civil_of_day n) as [[y m] d]. tauto. Qed.

(** Adding to the day of the month adds days. *)
Lemma day_of_civil_add y m d k : day_of_civil y m (d + k) = day_of_civil y m d + k.
Proof. unfold day_of_civil. lia. Qed.

(** The number of days before the month that follows. *)
Lemma month_length mp :
  0 <= mp <= 10 ->
  (153 * (mp + 1) + 2) / 5 - (153 * mp + 2) / 5 =
  if (mp =? 1) || (mp =? 3) || (mp =? 6) || (mp =? 8) then 30 else 31.
Proof.
  intros H. apply Z.eqb_eq.
  refine (forall_below 11 (fun mp => (153 * (mp + 1) + 2) / 5 - (153 * mp + 2) / 5 =?
    if (mp =? 1) || (mp =? 3) || (mp =? 6) || (mp =? 8) then 30 else 31) mp eq_refl _).
  lia.
Qed.

(** The last day of February. *)
Lemma february_length y :
  year_start (y + 1) - year_start y = if is_leap (y + 1) then 366 else 365.
Proof.
  unfold year_start, is_leap.
  destruct (Z.eqb_spec ((y + 1) mod 4) 0); destruct (Z.eqb_spec ((y + 1) mod 100) 0);
    destruct (Z.eqb_spec ((y + 1) mod 400) 0); cbn;
    Z.to_euclidean_division_equations; lia.
Qed.

(** The 366th day of a March-based year occurs only before the end of a February
    that has 29 days. *)
Lemma leap_of_last_day z :
  let d := z mod 146097 in
  let n100 := Z.min 3 (d / 36524) in
  let d1 := d - 36524 * n100 in
  let n4 := d1 / 1461 in
  let d2 := d1 - 1461 * n4 in
  let n1 := Z.min 3 (d2 / 365) in
  d2 - 365 * n1 = 365 ->
  n1 = 3 /\ (n4 <= 23 \/ (n4 = 24 /\ n100 = 3)).
Proof. cbv zeta. intros H. Z.to_euclidean_division_equations. lia. Qed.

Lemma is_leap_block a b c :
  0 <= b <= 3 -> 0 <= c <= 24 -> c <= 23 \/ (c = 24 /\ b = 3) ->
  is_leap (400 * a + 100 * b + 4 * c + 3 + 1) = true.
Proof.
  intros Hb Hc Hd. unfold is_leap.
  replace ((400 * a + 100 * b + 4 * c + 3 + 1) mod 4) with 0
    by (Z.to_euclidean_division_equations; lia).
  cbn. destruct (Z.eqb_spec ((400 * a + 100 * b + 4 * c + 3 + 1) mod 100) 0); cbn; [|done].
  apply Z.eqb_eq. Z.to_euclidean_division_equations. lia.
Qed.

Lemma february_day doy :
  0 <= doy <= 365 -> (5 * doy + 2) / 153 = 11 ->
  doy - (153 * 11 + 2) / 5 + 1 <= if doy =? 365 then 29 else 28.
Proof. intros. destruct (Z.eqb_spec doy 365); Z.to_euclidean_division_equations; lia. Qed.

Lemma month_day doy :
  0 <= doy <= 365 -> (5 * doy + 2) / 153 <= 10 ->
  let mp := (5 * doy + 2) / 153 in
  doy - (153 * mp + 2) / 5 + 1 <=
  if (mp =? 1) || (mp =? 3) || (mp =? 6) || (mp =? 8) then 30 else 31.
Proof.
  cbv zeta. intros H H10.
  assert (0 <= (5 * doy + 2) / 153) by (Z.to_euclidean_division_equations; lia).
  pose proof (month_length ((5 * doy + 2) / 153)) as <-; [|lia].
  Z.to_euclidean_division_equations. lia.
Qed.

Lemma civil_of_day_valid n :
  let '(y, m, d) := civil_of_day n in d <= days_in m y.
Proof.
  unfold civil_of_day.
  pose proof (year_decomposition (n + march_offset)) as H.
  pose proof (leap_of_last_day (n + march_offset)) as HL.
  cbv zeta in H, HL |- *. revert H HL.
  generalize ((n + march_offset) / 146097) as a. intros a.
  set (d0 := (n + march_offset) mod 146097). clearbody d0.
  set (b := Z.min 3 (d0 / 36524)). clearbody b.
  set (d1 := d0 - 36524 * b). clearbody d1.
  set (c := d1 / 1461). clearbody c.
  set (d2 := d1 - 1461 * c). clearbody d2.
  set (e := Z.min 3 (d2 / 365)). clearbody e.
  intros (Hb & Hc & He & Hdoy & _) HL.
  pose proof (month_decomposition _ Hdoy) as [Hmp _]. cbv zeta in Hmp.
  pose proof (month_day _ Hdoy) as Hmd. pose proof (february_day _ Hdoy) as Hfeb.
  cbv zeta in Hmd.
  set (mp := (5 * (d2 - 365 * e) + 2) / 153) in *. clearbody mp.
  assert (mp = 11 \/ mp <= 10) as [Hm|Hm] by lia.
  - subst mp. cbn [Z.ltb]. change (11 <? 10) with false. cbv iota. unfold days_in.
    change (11 - 9 =? 2) with true. cbv iota. specialize (Hfeb eq_refl).
    destruct (Z.eqb_spec (d2 - 365 * e) 365) as [Hlast|]; [|destruct (is_leap _); lia].
    destruct (HL Hlast) as [-> Hcb]. rewrite is_leap_block by lia. lia.
  - specialize (Hmd Hm). revert Hmd. unfold days_in.
    destruct (Z.ltb_spec mp 10);
      repeat match goal with |- context [?x =? ?y] => destruct (Z.eqb_spec x y) end;
      cbn [orb]; try lia; destruct (is_leap _); lia.
Qed.

(** The fields of an instant are in range, and give back the instant. *)
Lemma civil_spec t :
  let c := civil t in
  1 <= c_month c <= 12 /\ 1 <= c_day c <= days_in (c_month c) (c_year c) /\
  0 <= c_hour c < 24 /\ 0 <= c_min c < 60 /\ 0 <= c_sec c < 60 /\ 0 <= c_nsec c < Second /\
  date_utc (c_year c) (c_month c) (c_day c) (c_hour c) (c_min c) (c_sec c) (c_nsec c) = t.
Proof.
  cbv zeta. unfold civil, date_utc, Second in *.
  pose proof (civil_of_day_spec (t / 1000000000 / 86400)) as H.
  pose proof (civil_of_day_valid (t / 1000000000 / 86400)) as Hv.
  destruct (civil_of_day (t / 1000000000 / 86400)) as [[y m] d]. cbn.
  destruct H as (Hm & Hd & Hday). rewrite Hday.
  repeat split; try lia; Z.to_euclidean_division_equations; lia.
Qed.

(** ** Digits *)

Lemma digit_val_digit n : 0 <= n <= 9 -> digit_val (digit n) = Some n.
Proof.
  intros H.
  pose proof (forall_below 10 (fun n => bool_decide (digit_val (digit n) = Some n)) n eq_refl) as Hd.
  apply (bool_decide_eq_true_1 _), Hd. lia.
Qed.

Lemma take_digits_fixed k n acc s :
  0 <= n < 10 ^ Z.of_nat k ->
  take_digits k acc (fixed_digits k n +:+ s) = Some (acc * 10 ^ Z.of_nat k + n, s).
Proof.
  revert n acc s. induction k as [|k IH]; intros n acc s Hn.
  - cbn. cbn in Hn. f_equal. f_equal. lia.
  - rewrite Nat2Z.inj_succ, Z.pow_succ_r in Hn |- * by lia.
    assert (Hmod : 0 <= n mod 10 <= 9) by (Z.to_euclidean_division_equations; lia).
    assert (Hdiv : 0 <= n / 10 < 10 ^ Z.of_nat k).
    { split; [apply Z.div_pos; lia|]. apply Z.div_lt_upper_bound; lia. }
    cbn [fixed_digits]. rewrite <- str_app_assoc. cbn [String.append].
    assert (forall j b, take_digits (S j) b (fixed_digits j (n / 10) +:+ String (digit (n mod 10)) s)
              = '(v, r) ← take_digits j b (fixed_digits j (n / 10) +:+ String (digit (n mod 10)) s);
                take_digits 1 v r) as Hsplit.
    { clear. intros j. generalize (fixed_digits j (n / 10) +:+ String (digit (n mod 10)) s) as r.
      induction j as [|j IHj]; intros r b; [done|].
      cbn [take_digits]. destruct r as [|c r]; [done|].
      destruct (digit_val c); [|done]. by rewrite <- IHj. }
    rewrite Hsplit, IH by done. cbn. rewrite digit_val_digit by done.
    f_equal. f_equal. pose proof (Z.div_mod n 10). lia.
Qed.

Lemma fixed_digits_len k n : len (fixed_digits k n) = k.
Proof. revert n. induction k as [|k IH]; intros n; cbn; [done|]. rewrite str_len_app, IH. cbn. lia. Qed.

(** Only digits in the string *)
Fixpoint all_digits (s : string) : bool :=
  match s with EmptyString => true | String c s => is_digit c && all_digits s end.

Lemma all_digits_app s t : all_digits (s +:+ t) = all_digits s && all_digits t.
Proof. induction s as [|c s IH]; cbn; [done|]. by rewrite IH, andb_assoc. Qed.

Lemma is_digit_digit n : 0 <= n <= 9 -> is_digit (digit n) = true.
Proof. intros. unfold is_digit. by rewrite digit_val_digit. Qed.

Lemma all_digits_fixed k n : all_digits (fixed_digits k n) = true.
Proof.
  revert n. induction k as [|k IH]; intros n; cbn; [done|].
  rewrite all_digits_app, IH. cbn.
  rewrite is_digit_digit; [done|]. Z.to_euclidean_division_equations. lia.
Qed.

Lemma span_digits_app s c r :
  all_digits s = true -> is_digit c = false ->
  span_digits (s +:+ String c r) = (s, String c r).
Proof.
  intros Hs Hc. induction s as [|d s IH]; cbn in *; [by rewrite Hc|].
  apply andb_true_iff in Hs as [-> Hs]. by rewrite IH.
Qed.

Lemma digits_value_app acc s t :
  digits_value acc (s +:+ t) = digits_value (digits_value acc s) t.
Proof. revert acc. induction s as [|c s IH]; intros acc; cbn; auto. Qed.

Lemma digits_value_fixed k n acc :
  0 <= n < 10 ^ Z.of_nat k ->
  digits_value acc (fixed_digits k n) = acc * 10 ^ Z.of_nat k + n.
Proof.
  revert n acc. induction k as [|k IH]; intros n acc Hn.
  - cbn in *. lia.
  - rewrite Nat2Z.inj_succ, Z.pow_succ_r in Hn |- * by lia.
    cbn [fixed_digits]. rewrite digits_value_app, IH.
    + cbn. rewrite digit_val_digit by (Z.to_euclidean_division_equations; lia).
      cbn. pose proof (Z.div_mod n 10). lia.
    + split; [apply Z.div_pos; lia|]. apply Z.div_lt_upper_bound; lia.
Qed.

(** Trailing zeros do not change the value of a fraction. *)
Fixpoint zeros (k : nat) : string :=
  match k with O => "" | S k => String "0" (zeros k) end.

Lemma trim_zeros_spec s : exists k, s = trim_zeros s +:+ zeros k.
Proof.
  induction s as [|c s [k IH]]; [by exists 0%nat|].
  cbn. destruct (trim_zeros s) as [|d t] eqn:E; cbn in *.
  - case_bool_decide as Hc.
    + exists (S k). cbn. by rewrite Hc, IH.
    + exists k. cbn. by rewrite IH.
  - exists k. by rewrite IH at 1.
Qed.

Lemma zeros_len k : len (zeros k) = k.
Proof. induction k; cbn; congruence. Qed.

Lemma digits_value_zeros acc k : digits_value acc (zeros k) = acc * 10 ^ Z.of_nat k.
Proof.
  revert acc. induction k as [|k IH]; intros acc; [cbn; lia|].
  cbn [zeros digits_value]. rewrite IH, Nat2Z.inj_succ, Z.pow_succ_r by lia.
  change (default 0 (digit_val "0")) with 0. lia.
Qed.

Lemma trim_zeros_value k n :
  0 <= n < 10 ^ Z.of_nat k ->
  let s := trim_zeros (fixed_digits k n) in
  all_digits s = true /\ (len s <= k)%nat /\
  digits_value 0 s * 10 ^ (Z.of_nat k - Z.of_nat (len s)) = n.
Proof.
  intros Hn s. destruct (trim_zeros_spec (fixed_digits k n)) as [j Hj]. fold s in Hj.
  pose proof (all_digits_fixed k n) as Hd. pose proof (fixed_digits_len k n) as Hl.
  pose proof (digits_value_fixed k n 0 Hn) as Hv.
  rewrite Hj in Hd, Hl, Hv. rewrite all_digits_app in Hd. apply andb_true_iff in Hd as [Hd _].
  rewrite str_len_app, zeros_len in Hl. rewrite digits_value_app, digits_value_zeros in Hv.
  split; [done|]. split; [lia|].
  replace (Z.of_nat k - Z.of_nat (len s)) with (Z.of_nat j) by lia. lia.
Qed.

Lemma trim_zeros_nonzero k n :
  0 < n < 10 ^ Z.of_nat k -> trim_zeros (fixed_digits k n) <> "".
Proof.
  intros Hn He. pose proof (trim_zeros_value k n) as H. rewrite He in H. cbn in H. lia.
Qed.

(** ** RFC 3339 round trip *)

Lemma str_take_all n s : (len s <= n)%nat -> str_take n s = s.
Proof.
  revert s. induction n as [|n IH]; intros [|c s] H; cbn in *; try done; [lia|].
  rewrite IH; [done|lia].
Qed.

Lemma parse_format_frac ns c r :
  0 <= ns < Second -> is_digit c = false -> c <> "."%char -> c <> ","%char ->
  parse_frac (format_frac ns +:+ String c r) = (ns, String c r).
Proof.
  intros Hns Hc Hdot Hcomma. unfold format_frac.
  destruct (Z.eqb_spec ns 0) as [->|Hnz].
  - cbn. by rewrite !bool_decide_eq_false_2.
  - pose proof (trim_zeros_value 9 ns) as Hv. cbv zeta in Hv.
    destruct Hv as (Hd & Hl & Hv); [unfold Second in Hns; lia|].
    pose proof (trim_zeros_nonzero 9 ns) as Hne.
    set (s := trim_zeros (fixed_digits 9 ns)) in *. clearbody s.
    rewrite <- str_app_assoc. cbn -[str_take span_digits]. rewrite span_digits_app by done.
    destruct s as [|d s']; [exfalso; apply Hne; [unfold Second in Hns; lia|done]|].
    rewrite str_take_all by lia. f_equal. rewrite <- Hv. f_equal.
Qed.

Lemma expect_self c s : expect c (String c s) = Some s.
Proof. cbn. by rewrite bool_decide_eq_true_2. Qed.

(** Four-digit years *)
Definition year_ok (t : Time) : Prop := 0 <= c_year (civil t) <= 9999.

Lemma format_year_ok y : 0 <= y <= 9999 -> format_year y = fixed_digits 4 y.
Proof.
  intros Hy. unfold format_year. rewrite Z.abs_eq by lia.
  replace (y <=? 9999) with true by lia. by replace (y <? 0) with false by lia.
Qed.

Theorem parse_format t : year_ok t -> parse_rfc3339 (format_rfc3339nano t) = Some t.
Proof.
  intros Hy. pose proof (civil_spec t) as Hc. cbv zeta in Hc. unfold year_ok in Hy.
  unfold format_rfc3339nano, parse_rfc3339, format_date.
  destruct (civil t) as [y m d h mi s ns wd]; cbn [c_year c_month c_day c_hour c_min c_sec c_nsec] in *.
  destruct Hc as (Hm & Hd & Hh & Hmi & Hs & Hns & Ht).
  assert (d <= 31) by (unfold days_in in Hd; repeat case_match; lia).
  rewrite format_year_ok by done. rewrite <- !str_app_assoc. cbn [String.append].
  repeat (rewrite take_digits_fixed by (cbn; lia);
          cbn [mbind option_bind]; rewrite expect_self; cbn [mbind option_bind]).
  unfold getnum. rewrite take_digits_fixed by (cbn; lia). cbn [mbind option_bind].
  repeat (rewrite expect_self; cbn [mbind option_bind];
          rewrite take_digits_fixed by (cbn; lia); cbn [mbind option_bind]).
  rewrite parse_format_frac by done. cbn [mbind option_bind parse_zone].
  rewrite !Z.mul_0_l, !Z.add_0_l.
  replace ((1 <=? m) && (m <=? 12) && (1 <=? d) && (d <=? days_in m y)
    && (h <? 24) && (mi <? 60) && (s <? 60)) with true by lia.
  f_equal. lia.
Qed.

(** ** Day arithmetic in a zone without transitions *)

Definition day_number (t : Time) : Z := t / Second / 86400.

Lemma civil_fields t :
  let c := civil t in
  c_hour c = t / Second mod 86400 / 3600 /\ c_min c = t / Second mod 86400 mod 3600 / 60 /\
  c_sec c = t / Second mod 86400 mod 60 /\ c_nsec c = t mod Second /\
  c_weekday c = weekday_of_day (day_number t) /\
  day_of_civil (c_year c) (c_month c) (c_day c) = day_number t.
Proof.
  unfold civil, day_number. pose proof (day_of_civil_of_day (t / Second / 86400)) as H.
  destruct (civil_of_day _) as [[y m] d]. by cbn.
Qed.

(** The instant at a clock reading on the [k]th day after that of [t] *)
Lemma date_utc_same_day t k h mi s ns :
  date_utc (c_year (civil t)) (c_month (civil t)) (c_day (civil t) + k) h mi s ns =
  ((day_number t + k) * 86400 + h * 3600 + mi * 60 + s) * Second + ns.
Proof.
  unfold date_utc. rewrite day_of_civil_add.
  destruct (civil_fields t) as (_ & _ & _ & _ & _ & ->). done.
Qed.

(** The clock read back from an instant built from a day and a clock reading *)
Lemma civil_of_clock D h mi s :
  0 <= h < 24 -> 0 <= mi < 60 -> 0 <= s < 60 ->
  let t := (D * 86400 + h * 3600 + mi * 60 + s) * Second in
  c_hour (civil t) = h /\ c_min (civil t) = mi /\ c_sec (civil t) = s /\
  c_nsec (civil t) = 0 /\ day_number t = D.
Proof.
  intros Hh Hm Hs t. destruct (civil_fields t) as (-> & -> & -> & -> & _ & _).
  assert (t / Second = D * 86400 + h * 3600 + mi * 60 + s) as E.
  { unfold t. by rewrite Z.div_mul. }
  assert (t mod Second = 0) as E2 by (unfold t; by rewrite Z.mod_mul).
  unfold day_number. rewrite E, E2. repeat split; Z.to_euclidean_division_equations; lia.
Qed.

Lemma date_in_fixed name off y m d h mi s ns :
  date_in (fixed_zone name off) y m d h mi s ns = date_utc y m d h mi s ns - off * Second.
Proof.
  unfold date_in, fixed_zone. cbn [loc_lookup]. destruct (Z.eqb_spec off 0) as [->|]; [lia|].
  by destruct (_ || _).
Qed.

Lemma civil_in_fixed name off t :
  civil_in (fixed_zone name off) t = civil (t + off * Second).
Proof. done. Qed.

Lemma add_days_fixed name off t k :
  add_days_in (fixed_zone name off) t k = t + k * 86400 * Second.
Proof.
  unfold add_days_in. rewrite civil_in_fixed, date_in_fixed, date_utc_same_day.
  pose proof (civil_spec (t + off * Second)) as H. cbv zeta in H.
  destruct H as (_ & _ & _ & _ & _ & _ & H).
  rewrite <- (Z.add_0_r (c_day _)), date_utc_same_day in H. lia.
Qed.

Lemma take_digits_nonneg k acc s v r :
  0 <= acc -> take_digits k acc s = Some (v, r) -> 0 <= v.
Proof.
  revert acc s. induction k as [|k IH]; intros acc s Hacc; cbn; [by intros [= <- _]|].
  destruct s as [|c s]; [done|]. destruct (digit_val c) as [d|] eqn:Hd; [|done].
  apply IH. unfold digit_val in Hd. case_match; simplify_eq. breflect. lia.
Qed.

(** ** Years and day numbers *)

Lemma year_start_mono a b : a <= b -> year_start a + 365 * (b - a) <= year_start b.
Proof. intros H. unfold year_start. Z.to_euclidean_division_equations. lia. Qed.

(** Days of a year before and after the first of January of another *)
Lemma day_of_civil_year y m d Y :
  1 <= m <= 12 -> 1 <= d <= 31 ->
  (y < Y -> day_of_civil y m d < day_of_civil Y 1 1) /\
  (Y <= y -> day_of_civil Y 1 1 <= day_of_civil y m d).
Proof.
  intros Hm Hd. unfold day_of_civil, march_offset. cbn [Z.leb Z.compare Pos.compare Pos.compare_cont].
  change ((153 * (1 + 9) + 2) / 5) with 306.
  destruct (Z.leb_spec m 2).
  - assert (306 <= (153 * (m + 9) + 2) / 5 <= 337) by (Z.to_euclidean_division_equations; lia).
    split; intros Hy.
    + pose proof (year_start_mono (y - 1) (Y - 1) ltac:(lia)). lia.
    + pose proof (year_start_mono (Y - 1) (y - 1) ltac:(lia)). lia.
  - assert (0 <= (153 * (m - 3) + 2) / 5 <= 275) by (Z.to_euclidean_division_equations; lia).
    split; intros Hy.
    + pose proof (year_start_mono y (Y - 1) ltac:(lia)). lia.
    + pose proof (year_start_mono (Y - 1) y ltac:(lia)). lia.
Qed.

Lemma year_ok_spec t : year_ok t <-> day_of_civil 0 1 1 <= day_number t < day_of_civil 10000 1 1.
Proof.
  unfold year_ok. pose proof (civil_spec t) as Hc. cbv zeta in Hc. destruct Hc as (Hm & Hd & _).
  destruct (civil_fields t) as (_ & _ & _ & _ & _ & <-).
  assert (1 <= c_day (civil t) <= 31) as Hd' by (unfold days_in in Hd; repeat case_match; lia).
  destruct (day_of_civil_year (c_year (civil t)) _ _ 0 Hm Hd').
  destruct (day_of_civil_year (c_year (civil t)) _ _ 10000 Hm Hd'). lia.
Qed.

Lemma take_digits_bound k acc s v r :
  0 <= acc -> take_digits k acc s = Some (v, r) -> v < (acc + 1) * 10 ^ Z.of_nat k.
Proof.
  revert acc s. induction k as [|k IH]; intros acc s Hacc; cbn [take_digits].
  - intros [= <- _]. cbn. lia.
  - destruct s as [|c s]; [done|]. destruct (digit_val c) as [d|] eqn:Hd; [|done].
    intros Ht. apply IH in Ht; [|unfold digit_val in Hd; case_match; simplify_eq; breflect; lia].
    assert (0 <= d <= 9) by (unfold digit_val in Hd; case_match; simplify_eq; breflect; lia).
    rewrite Nat2Z.inj_succ, Z.pow_succ_r by lia.
    pose proof (Z.pow_pos_nonneg 10 (Z.of_nat k)). nia.
Qed.

Lemma format_nonempty t : format_rfc3339nano t <> "".
Proof.
  unfold format_rfc3339nano, format_date. intros H. apply (f_equal len) in H.
  rewrite !str_len_app in H. cbn in H. lia.
Qed.
