(* ===== verification/ProviderErrors.v ===== *)
(** * Provider errors

    Models [internal/provider/errors.go]: the error taxonomy of upstream calls, the
    classification of an arbitrary error, and the rule that decides whether the
    dispatcher may fall back to the next outbound. *)

From S2P Require Import Prelude GoStrings.

#[local] Set Warnings "-register-all".

(** [type ErrorKind string], by its constants *)
Inductive ErrorKind :=
| ErrorKindUnknown
| ErrorKindRetryable
| ErrorKindTimeout
| ErrorKindQuotaExceeded
| ErrorKindUpstreamServerError
| ErrorKindAuthFailed
| ErrorKindCapabilityUnsupported
| ErrorKindModelUnavailable
| ErrorKindFatal.

#[export] Instance ErrorKind_eq_dec : EqDecision ErrorKind.
Proof. solve_decision. Defined.

Definition kind_string (k : ErrorKind) : string :=
  match k with
  | ErrorKindUnknown => "unknown"
  | ErrorKindRetryable => "retryable"
  | ErrorKindTimeout => "timeout"
  | ErrorKindQuotaExceeded => "quota_exceeded"
  | ErrorKindUpstreamServerError => "upstream_server_error"
  | ErrorKindAuthFailed => "auth_failed"
  | ErrorKindCapabilityUnsupported => "capability_unsupported"
  | ErrorKindModelUnavailable => "model_unavailable"
  | ErrorKindFatal => "fatal"
  end.

(** A non-nil Go [error].  [ErrPlain] is [errors.New] or [fmt.Errorf] without
    [%w], [ErrFormat] the latter with its text left unrendered; [ErrWrap] has an [Unwrap] method; [ErrNet] implements [net.Error];
    [ErrProvider] is [*ProviderError] with its fields in the source's order. *)
Inductive goerror :=
| ErrPlain (msg : string)
| ErrFormat (format : string) (args : list string)
| ErrWrap (msg : string) (inner : goerror)
| ErrNet (timeout : bool) (inner : option goerror)
| ErrDeadlineExceeded
| ErrCanceled
| ErrProvider (Kind : ErrorKind) (Err : option goerror)
    (StatusCode : Z) (RequestID RetryAfter : string).

(** [err.(interface{ Unwrap() error })] *)
Definition Unwrap (err : goerror) : option goerror :=
  match err with
  | ErrWrap _ inner => Some inner
  | ErrNet _ inner => inner
  | ErrProvider _ inner _ _ _ => inner
  | _ => None
  end.

(** [func (e *ProviderError) Unwrap() error] *)
Definition ProviderError_Unwrap (e : goerror) : option goerror :=
  match e with
  | ErrProvider _ inner _ _ _ => inner
  | _ => None
  end.

(** The [New...Error] constructors *)
Definition provider_error (k : ErrorKind) (err : goerror) : goerror :=
  ErrProvider k (Some err) 0 "" "".
Definition NewRetryableError := provider_error ErrorKindRetryable.
Definition NewTimeoutError := provider_error ErrorKindTimeout.
Definition NewQuotaExceededError := provider_error ErrorKindQuotaExceeded.
Definition NewUpstreamServerError := provider_error ErrorKindUpstreamServerError.
Definition NewAuthFailedError := provider_error ErrorKindAuthFailed.
Definition NewCapabilityUnsupportedError := provider_error ErrorKindCapabilityUnsupported.
Definition NewModelUnavailableError := provider_error ErrorKindModelUnavailable.
Definition NewFatalError := provider_error ErrorKindFatal.

(** [errors.Is(err, context.DeadlineExceeded)] *)
Fixpoint is_deadline (err : goerror) : bool :=
  match err with
  | ErrDeadlineExceeded => true
  | ErrWrap _ e => is_deadline e
  | ErrNet _ (Some e) => is_deadline e
  | ErrProvider _ (Some e) _ _ _ => is_deadline e
  | _ => false
  end.

(** [errors.As(err, &netErr) && netErr.Timeout()]: the first [net.Error] of the
    chain decides; [context.DeadlineExceeded] is one. *)
Fixpoint net_timeout (err : goerror) : bool :=
  match err with
  | ErrDeadlineExceeded => true
  | ErrNet timeout _ => timeout
  | ErrWrap _ e => net_timeout e
  | ErrProvider _ (Some e) _ _ _ => net_timeout e
  | _ => false
  end.

Definition NewTransientError (err : option goerror) : option goerror :=
  match err with
  | None => None
  | Some err =>
      if is_deadline err then Some (NewTimeoutError err)
      else if net_timeout err then Some (NewTimeoutError err)
      else Some (NewRetryableError err)
  end.

(** [AsProviderError]: the outermost [*ProviderError] of the chain *)
Fixpoint AsProviderError (err : goerror) : option (ErrorKind * Z * string * string) :=
  match err with
  | ErrProvider k _ st rid ra => Some (k, st, rid, ra)
  | ErrWrap _ e => AsProviderError e
  | ErrNet _ (Some e) => AsProviderError e
  | _ => None
  end.

Definition NormalizeError (err : option goerror) : ErrorKind :=
  match err with
  | None => ErrorKindUnknown
  | Some err =>
      match AsProviderError err with
      | Some (k, _, _, _) => k
      | None => ErrorKindUnknown
      end
  end.

Definition isRecoverable (kind : ErrorKind) : bool :=
  match kind with
  | ErrorKindRetryable | ErrorKindTimeout | ErrorKindQuotaExceeded
  | ErrorKindUpstreamServerError | ErrorKindModelUnavailable => true
  | _ => false
  end.

(** [FallbackAllowed], with [None] for the panic on an unknown condition *)
Definition FallbackAllowed (condition : string) (kind : ErrorKind) (isLast : bool)
    : option bool :=
  if isLast then Some false
  else if (condition == "") || (condition == "always") then Some (isRecoverable kind)
  else if condition == "retryable" then Some (isRecoverable kind)
  else if condition == "quota_exceeded" then
    Some (bool_decide (kind = ErrorKindQuotaExceeded))
  else None.

(** ** Response metadata *)

Definition maxUpstreamMetadataLength : nat := 256.

Definition safeMetadataValue (value : string) : string :=
  let value := TrimSpace value in
  if (value == "") || (maxUpstreamMetadataLength <? len value)%nat
     || ContainsAny value [byte 13; byte 10]
  then "" else value.

(** [header.Get] is a function of the header name, [""] when absent. *)
Fixpoint firstSafeHeaderValue (get : string -> string) (names : list string) : string :=
  match names with
  | [] => ""
  | name :: names =>
      let value := safeMetadataValue (get name) in
      if value != "" then value else firstSafeHeaderValue get names
  end.

(** ** Lemmas *)

(** [AsProviderError] follows [Unwrap] to the outermost provider error. *)
Lemma AsProviderError_unwrap err :
  AsProviderError err =
  match err with
  | ErrProvider k _ st rid ra => Some (k, st, rid, ra)
  | _ => err' ← Unwrap err; AsProviderError err'
  end.
Proof. by destruct err as [| | |? []| | |]. Qed.

Lemma NormalizeError_new k err : NormalizeError (Some (provider_error k err)) = k.
Proof. done. Qed.

Lemma FallbackAllowed_last c k : FallbackAllowed c k true = Some false.
Proof. done. Qed.

Lemma FallbackAllowed_recoverable c k b :
  FallbackAllowed c k b = Some true -> b = false /\ isRecoverable k = true.
Proof.
  unfold FallbackAllowed. destruct b; [done|]. intros H. split; [done|].
  repeat case_match; simplify_eq; try done.
  by case_bool_decide; simplify_eq.
Qed.

(** A metadata value the gateway keeps is bounded and has no line break. *)
Lemma safeMetadataValue_safe value :
  safeMetadataValue value <> "" ->
  (len (safeMetadataValue value) <= maxUpstreamMetadataLength)%nat /\
  ContainsAny (safeMetadataValue value) [byte 13; byte 10] = false.
Proof.
  unfold safeMetadataValue. generalize (TrimSpace value) as v. intros v.
  destruct ((v == "") || _ || _) eqn:E; [done|]. intros _.
  apply orb_false_iff in E as [E1 E2]. apply orb_false_iff in E1 as [_ E1].
  apply Nat.ltb_ge in E1. done.
Qed.
