(* ===== verification/RuntimeModel.v ===== *)
(** * The neutral runtime model

    Models [internal/runtime/runtime.go]: the request, response, usage and stream
    types every other component speaks.  JSON blobs ([json.RawMessage]) are byte
    strings, [""] standing for nil and for empty alike (the program only tests their
    length); [float64] is IEEE binary64. *)

From Stdlib Require Import SpecFloat.
From S2P Require Import Prelude GoStrings ProviderErrors.

(** ** Go's float64 *)

Abbreviation float64 := spec_float.
Definition fadd : float64 -> float64 -> float64 := SFadd 53 1024.
Definition fmul : float64 -> float64 -> float64 := SFmul 53 1024.
Definition fdiv : float64 -> float64 -> float64 := SFdiv 53 1024.
Definition fzero : float64 := S754_zero false.
(** [float64(n)] for an integer *)
Definition float_of_int (n : Z) : float64 := binary_normalize 53 1024 n 0 false.
(** [f <= 0] *)
Definition fleb0 (f : float64) : bool :=
  match f with
  | S754_zero _ => true
  | S754_infinity s => s
  | S754_finite s _ _ => s
  | S754_nan => false
  end.
(** [int64(math.Round(f))]: round half away from zero.  The conversion of a NaN, an
    infinity or an out-of-range value gives [min_int64], as on amd64. *)
Definition round_to_int64 (f : float64) : Z :=
  match f with
  | S754_zero _ => 0
  | S754_infinity _ | S754_nan => min_int64
  | S754_finite s m e =>
      let mag := if 0 <=? e then Z.pos m * 2 ^ e
                 else (2 * Z.pos m + 2 ^ (- e)) / (2 * 2 ^ (- e)) in
      let z := if s then - mag else mag in
      if (min_int64 <=? z) && (z <=? max_int64) then z else min_int64
  end.

(** ** Messages *)

Inductive ContentPartType := ContentPartTypeText | ContentPartTypeJSON | ContentPartTypeOther (s : string).
#[export] Instance ContentPartType_eq_dec : EqDecision ContentPartType.
Proof. solve_decision. Defined.

Abbreviation MessageRole := string.
Definition MessageRoleSystem : MessageRole := "system".
Definition MessageRoleUser : MessageRole := "user".
Definition MessageRoleAssistant : MessageRole := "assistant".
Definition MessageRoleTool : MessageRole := "tool".

(** ["outbound"] is the only step type. *)
Abbreviation StepType := string.
Definition StepTypeOutbound : StepType := "outbound".

Abbreviation FallbackCondition := string.
Definition FallbackAlways : FallbackCondition := "always".
Definition FallbackOnRetryable : FallbackCondition := "retryable".
Definition FallbackOnQuotaExceeded : FallbackCondition := "quota_exceeded".

Inductive FinishReason :=
| FinishReasonStop | FinishReasonLength | FinishReasonError | FinishReasonToolUse
| FinishReasonEndTurn | FinishReasonEmpty | FinishReasonOther (s : string).

Inductive StreamEventType :=
| StreamEventMessageStart | StreamEventContentDelta | StreamEventMessageEnd
| StreamEventUsage | StreamEventError | StreamEventOther (s : string).

Abbreviation RoutingStrategy := string.
Definition RoutingStrategyFailover : RoutingStrategy := "failover".
Definition RoutingStrategyRoundRobin : RoutingStrategy := "round_robin".
Definition RoutingStrategyWeightedRoundRobin : RoutingStrategy := "weighted_round_robin".

Abbreviation UsageSource := string.
Definition UsageSourceProvider : UsageSource := "provider".
Definition UsageSourceProviderAPI : UsageSource := "provider_count_api".
Definition UsageSourceEstimated : UsageSource := "estimated".

Inductive UsageStatus := UsageStatusSuccess | UsageStatusError | UsageStatusOther (s : string).
#[export] Instance UsageStatus_eq_dec : EqDecision UsageStatus.
Proof. solve_decision. Defined.

Record ContentPart := mkContentPart {
  cp_Type : ContentPartType;
  cp_Text : string;
  cp_Data : string
}.

Record ToolCall := mkToolCall {
  tc_ID : string;
  tc_Type : string;
  tc_Name : string;
  tc_Arguments : string;
  tc_Input : string
}.

Record ToolDefinition := mkToolDefinition {
  td_Type : string;
  td_Name : string;
  td_Description : string;
  td_InputSchema : string;
  td_Format : string;
  td_Raw : string
}.

Record Message := mkMessage {
  msg_Role : MessageRole;
  msg_Parts : list ContentPart;
  msg_ToolCalls : list ToolCall;
  msg_ToolCallID : string;
  msg_ToolCallType : string;
  msg_ToolResultIsError : bool
}.

Record Request := mkRequest {
  req_Model : string;
  req_System : string;
  req_MaxTokens : Z;
  req_Messages : list Message;
  req_Tools : list ToolDefinition;
  req_ToolChoice : string;
  req_Stream : bool;
  req_PreviousResponseID : string;
  req_Metadata : string;
  req_ThinkingType : string;
  req_ContextManagement : string;
  req_OutputEffort : string
}.

Record Usage := mkUsage {
  u_InputTokens : Z;
  u_OutputTokens : Z;
  u_CachedInputReadTokens : Z;
  u_CachedInputWriteTokens : Z;
  u_TotalTokens : Z;
  u_Source : UsageSource
}.

Record UsageBreakdown := mkUsageBreakdown {
  ub_RequestCount : Z;
  ub_InputTokens : Z;
  ub_OutputTokens : Z;
  ub_CachedInputReadTokens : Z;
  ub_CachedInputWriteTokens : Z;
  ub_TotalTokens : Z;
  ub_ToolUnits : gmap string float64
}.

Record UsageRecord := mkUsageRecord {
  ur_RequestID : string;
  ur_ClientName : string;
  ur_InboundName : string;
  ur_InboundProtocol : string;
  ur_ActiveTag : string;
  ur_MatchedRule : string;
  ur_Strategy : RoutingStrategy;
  ur_OutboundName : string;
  ur_OutboundProtocol : string;
  ur_ProviderName : string;
  ur_RequestedModel : string;
  ur_ExecutedModel : string;
  ur_UsageSource : UsageSource;
  ur_Status : UsageStatus;
  ur_ErrorKind : string;
  ur_SessionID : string;
  ur_Agent : string;
  ur_CostUSD : float64;
  ur_Priced : bool;
  ur_Breakdown : UsageBreakdown;
  ur_StartedAt : string;
  ur_FinishedAt : string;
  ur_LatencyMs : Z;
  ur_FallbackCount : Z
}.

Record Response := mkResponse {
  resp_ID : string;
  resp_Object : string;
  resp_Model : string;
  resp_Message : Message;
  resp_FinishReason : FinishReason;
  resp_Usage : option Usage
}.

Record StreamEvent := mkStreamEvent {
  ev_Type : StreamEventType;
  ev_ResponseID : string;
  ev_Model : string;
  ev_MessageRole : MessageRole;
  ev_Delta : option ContentPart;
  ev_ToolCall : option ToolCall;
  ev_ToolCallIndex : Z;
  ev_FinishReason : FinishReason;
  ev_Usage : option Usage;
  ev_Err : option goerror
}.

(** ** Routing and execution *)

(** The concrete type behind a [CompletionProvider], as far as the router's type
    switch tells them apart, and its [Name()]. *)
Inductive ProviderType :=
| MockProvider | OpenAICompatibleProvider | AnthropicMessagesProvider | OtherProvider.
Record Provider := mkProvider { prov_type : ProviderType; prov_name : string }.

Record RouteContext := mkRouteContext {
  rc_Request : Request;
  rc_ClientName : string;
  rc_InboundName : string;
  rc_InboundProtocol : string;
  rc_ActiveTag : string
}.

Record ExecutionStep := mkExecutionStep {
  st_Type : StepType;
  st_OutboundName : string;
  st_OutboundProtocol : string;
  st_OutboundTarget : option Provider;
  st_Model : string;
  st_ModelUnavailable : bool;
  st_OnError : FallbackCondition
}.

Record ExecutionPlan := mkExecutionPlan {
  plan_ClientName : string;
  plan_InboundName : string;
  plan_InboundProtocol : string;
  plan_ActiveTag : string;
  plan_RequestedModel : string;
  plan_MatchedRule : string;
  plan_Strategy : RoutingStrategy;
  plan_ResolvedToTags : list string;
  plan_Steps : list ExecutionStep
}.

Definition with_Model (r : Request) (m : string) : Request :=
  mkRequest m (req_System r) (req_MaxTokens r) (req_Messages r) (req_Tools r)
    (req_ToolChoice r) (req_Stream r) (req_PreviousResponseID r) (req_Metadata r)
    (req_ThinkingType r) (req_ContextManagement r) (req_OutputEffort r).
Definition with_Stream (r : Request) (b : bool) : Request :=
  mkRequest (req_Model r) (req_System r) (req_MaxTokens r) (req_Messages r) (req_Tools r)
    (req_ToolChoice r) b (req_PreviousResponseID r) (req_Metadata r)
    (req_ThinkingType r) (req_ContextManagement r) (req_OutputEffort r).

Example float_round : round_to_int64 (fmul (float_of_int 3) (fdiv (float_of_int 1) (float_of_int 2))) = 2.
Proof. reflexivity. Qed.
