(* ===== verification/GoStrconv.v ===== *)
(** * Number and duration parsing

    Go's [strconv.ParseInt] (base 10) and [time.ParseDuration]. *)

From Stdlib Require Import SpecFloat.
From S2P Require Import Prelude GoStrings GoTime GoTimeFacts RuntimeModel.

#[local] Arguments String.append !_ _ /.

(** ** strconv.ParseInt(s, 10, 64) *)

Definition parse_digits (s : string) : option Z :=
  if (s == "") || negb (all_digits s) then None else Some (digits_value 0 s).

Definition ParseInt (s : string) : option Z :=
  match s with
  | String c s' =>
      if bool_decide (c = "+"%char) then
        n ← parse_digits s'; if n <=? max_int64 then Some n else None
      else if bool_decide (c = "-"%char) then
        n ← parse_digits s'; if n <=? - min_int64 then Some (- n) else None
      else n ← parse_digits s; if n <=? max_int64 then Some n else None
  | EmptyString => None
  end.

(** ** time.ParseDuration *)

(** [leadingInt]: the leading digits, unless they exceed 2^63 *)
Definition leadingInt (s : string) : option (Z * string) :=
  let '(ds, rest) := span_digits s in
  let v := digits_value 0 ds in
  if v <=? 2 ^ 63 then Some (v, rest) else None.

(** [leadingFraction]: digits that do not fit are dropped; the scale is a power of
    ten, given by its exponent. *)
Fixpoint fraction_aux (x : Z) (scale : Z) (overflow : bool) (s : string) : Z * Z * string :=
  match s with
  | EmptyString => (x, scale, s)
  | String c s' =>
      match digit_val c with
      | None => (x, scale, s)
      | Some d =>
          if overflow || ((2 ^ 63 - 1) / 10 <? x) then fraction_aux x scale true s'
          else
            let y := x * 10 + d in
            if 2 ^ 63 <? y then fraction_aux x scale true s'
            else fraction_aux y (scale + 1) false s'
      end
  end.
Definition leadingFraction (s : string) : Z * Z * string := fraction_aux 0 0 false s.

(** The longest prefix without a digit or a period *)
Fixpoint span_unit (s : string) : string * string :=
  match s with
  | EmptyString => (EmptyString, EmptyString)
  | String c s' =>
      if bool_decide (c = "."%char) || is_digit c then (EmptyString, s)
      else let '(a, b) := span_unit s' in (String c a, b)
  end.

Definition unitMap (u : string) : option Z :=
  if u == "ns" then Some Nanosecond
  else if (u == "us") || (u == bytes [194; 181; 115]%N) || (u == bytes [206; 188; 115]%N)
  then Some Microsecond
  else if u == "ms" then Some Millisecond
  else if u == "s" then Some Second
  else if u == "m" then Some Minute
  else if u == "h" then Some Hour
  else None.

(** [uint64(f)] of a non-negative float in range *)
Definition trunc_float (f : float64) : Z :=
  match f with
  | S754_finite false m e => if 0 <=? e then Z.pos m * 2 ^ e else Z.pos m / 2 ^ (- e)
  | _ => 0
  end.

(** One number with its unit: its nanoseconds and what follows *)
Definition parse_component (s : string) : option (Z * string) :=
  match s with
  | EmptyString => None
  | String c _ =>
      if negb (bool_decide (c = "."%char) || is_digit c) then None else
      '(v, s1) ← leadingInt s;
      let pre := negb (len s =? len s1)%nat in
      let '(f, scale, s2, post) :=
        match s1 with
        | String "." s1' =>
            let '(f, scale, s2) := leadingFraction s1' in
            (f, scale, s2, negb (len s1' =? len s2)%nat)
        | _ => (0, 0, s1, false)
        end in
      if negb pre && negb post then None else
      let '(u, s3) := span_unit s2 in
      if u == "" then None else
      unit ← unitMap u;
      if 2 ^ 63 / unit <? v then None else
      let v := v * unit in
      let v :=
        if 0 <? f then
          v + trunc_float (fmul (float_of_int f)
                (fdiv (float_of_int unit) (float_of_int (10 ^ scale))))
        else v in
      if 2 ^ 63 <? v then None else Some (v, s3)
  end.

(** Each component takes at least one byte, so the length of the string is enough
    fuel. *)
Fixpoint parse_components (fuel : nat) (d : Z) (s : string) : option Z :=
  match s with
  | EmptyString => Some d
  | _ =>
      match fuel with
      | O => None
      | S fuel =>
          '(v, s) ← parse_component s;
          let d := d + v in
          if 2 ^ 63 <? d then None else parse_components fuel d s
      end
  end.

Definition ParseDuration (s : string) : option Z :=
  let '(neg, s) :=
    match s with
    | String "-" s' => (true, s')
    | String "+" s' => (false, s')
    | _ => (false, s)
    end in
  if s == "0" then Some 0
  else if s == "" then None
  else
    d ← parse_components (len s) 0 s;
    if neg then Some (- d)
    else if max_int64 <? d then None
    else Some d.

Example parse_duration_1 : ParseDuration "1h30m1.5s" = Some (90 * Minute + 1500 * Millisecond).
Proof. vm_compute. reflexivity. Qed.
Example parse_duration_2 : ParseDuration "-.5ms" = Some (-500 * Microsecond).
Proof. vm_compute. reflexivity. Qed.
Example parse_duration_3 : ParseDuration "10" = None.
Proof. vm_compute. reflexivity. Qed.

(** ** Lemmas *)

(** [dec_fuel] prints a non-negative number that has fewer digits than the fuel. *)
Lemma dec_fuel_digits fuel n : all_digits (dec_fuel fuel n) = true.
Proof.
  revert n. induction fuel as [|fuel IH]; intros n; cbn; [done|].
  rewrite all_digits_app. cbn.
  rewrite is_digit_digit by (Z.to_euclidean_division_equations; lia).
  destruct (n <? 10); cbn; [done|]. by rewrite IH.
Qed.

Lemma dec_fuel_value fuel n acc :
  0 <= n < 10 ^ Z.of_nat fuel ->
  exists k, 0 <= k /\ n < 10 ^ k /\ digits_value acc (dec_fuel fuel n) = acc * 10 ^ k + n.
Proof.
  revert n acc. induction fuel as [|fuel IH]; intros n acc Hn.
  - exists 0. cbn in *. lia.
  - rewrite Nat2Z.inj_succ, Z.pow_succ_r in Hn by lia. cbn [dec_fuel].
    rewrite digits_value_app. cbn.
    rewrite digit_val_digit by (Z.to_euclidean_division_equations; lia). cbn.
    destruct (Z.ltb_spec n 10).
    + exists 1. cbn. rewrite Z.mod_small by lia. lia.
    + destruct (IH (n / 10) acc) as (k & Hk & Hlt & Hv).
      { split; [apply Z.div_pos; lia|]. apply Z.div_lt_upper_bound; lia. }
      exists (k + 1). rewrite Hv. rewrite Z.pow_add_r, Z.pow_1_r by lia.
      pose proof (Z.div_mod n 10). pose proof (Z.mod_pos_bound n 10). lia.
Qed.

Lemma dec_fuel_nonempty fuel n : fuel <> 0%nat -> dec_fuel fuel n <> "".
Proof.
  destruct fuel as [|fuel]; [done|]. intros _ H. cbn in H.
  apply (f_equal len) in H. rewrite str_len_app in H. cbn in H. lia.
Qed.

(** A non-negative [int64] prints to digits that parse back to it. *)
Lemma itoa_digits n : 0 <= n -> all_digits (itoa n) = true.
Proof. intros. unfold itoa. destruct (Z.ltb_spec n 0); [lia|]. apply dec_fuel_digits. Qed.

Lemma itoa_value n : 0 <= n <= max_int64 -> digits_value 0 (itoa n) = n.
Proof.
  intros Hn. unfold itoa. destruct (Z.ltb_spec n 0); [lia|].
  destruct (dec_fuel_value 20 n 0) as (k & _ & _ & ->); [|lia].
  unfold max_int64 in Hn. cbn. lia.
Qed.

Lemma itoa_nonempty n : 0 <= n -> itoa n <> "".
Proof. intros. unfold itoa. destruct (Z.ltb_spec n 0); [lia|]. by apply dec_fuel_nonempty. Qed.

Lemma parse_digits_digits s :
  s <> "" -> all_digits s = true -> parse_digits s = Some (digits_value 0 s).
Proof. intros Hs Hd. unfold parse_digits. apply String.eqb_neq in Hs. by rewrite Hs, Hd. Qed.

Lemma ParseInt_digits s :
  s <> "" -> all_digits s = true -> digits_value 0 s <= max_int64 ->
  ParseInt s = Some (digits_value 0 s).
Proof.
  intros Hs Hd Hv. unfold ParseInt. destruct s as [|c s']; [done|].
  assert (is_digit c = true) as Hc by (cbn in Hd; by apply andb_true_iff in Hd as [? _]).
  rewrite !bool_decide_eq_false_2 by (intros ->; discriminate).
  rewrite parse_digits_digits by done. cbn [mbind option_bind].
  by apply Z.leb_le in Hv as ->.
Qed.

Lemma digits_value_nonneg acc s : 0 <= acc -> 0 <= digits_value acc s.
Proof.
  revert acc. induction s as [|c s IH]; intros acc H; cbn; [done|]. apply IH.
  unfold digit_val. case_match; cbn; [|lia]. breflect. lia.
Qed.
