(* ===== verification/GoJson.v ===== *)
(** * JSON

    The part of Go's [encoding/json] the program uses, on byte strings: the syntax
    ([Parse]), decoding into [any] ([Unmarshal_any]) and into the fields of a struct,
    [Compact] and [Marshal].

    A decoded document keeps the source text of every element and member value, which is
    what a [json.RawMessage] field receives.  A member that occurs twice in an object
    is the last one (Go merges two occurrences when the field is itself a struct or a
    slice).  An error of the package is [None]. *)

From Stdlib Require Import SpecFloat.
From S2P Require Import Prelude GoStrings GoTime GoTimeFacts GoStrconv RuntimeModel.

#[local] Arguments String.append !_ _ /.

(** ** Bytes and runes *)

Definition code (c : ascii) : N := N_of_ascii c.
Definition cont (c : ascii) : bool := ((128 <=? code c) && (code c <=? 191))%N.

(** The length of the UTF-8 sequence of two bytes or more at the head of the string, 0
    when there is none ([utf8.DecodeRuneInString] gives [RuneError]) *)
Definition utf8_size (s : string) : nat :=
  match s with
  | String a (String b s') =>
      let x := code a in let y := code b in
      if ((194 <=? x) && (x <=? 223))%N then if cont b then 2 else 0
      else if ((224 <=? x) && (x <=? 239))%N then
        if ((if (x =? 224)%N then 160 else 128) <=? y)%N && (y <=? (if (x =? 237)%N then 159 else 191))%N then
          match s' with String c _ => if cont c then 3 else 0 | _ => 0 end
        else 0
      else if ((240 <=? x) && (x <=? 244))%N then
        if ((if (x =? 240)%N then 144 else 128) <=? y)%N && (y <=? (if (x =? 244)%N then 143 else 191))%N then
          match s' with
          | String c (String d _) => if cont c && cont d then 4 else 0
          | _ => 0
          end
        else 0
      else 0
  | _ => 0
  end%nat.

(** [utf8.AppendRune] *)
Definition encode_rune (r : N) : string :=
  if (r <? 128)%N then bytes [r]
  else if (r <? 2048)%N then bytes [192 + r / 64; 128 + r mod 64]%N
  else if (r <? 65536)%N then bytes [224 + r / 4096; 128 + r / 64 mod 64; 128 + r mod 64]%N
  else bytes [240 + r / 262144; 128 + r / 4096 mod 64; 128 + r / 64 mod 64; 128 + r mod 64]%N.
(** The double quote *)
Definition dquote : string := bytes [34%N].
Definition replacement : string := bytes [239; 191; 189]%N.

Definition hex_val (c : ascii) : option N :=
  let n := code c in
  if ((48 <=? n) && (n <=? 57))%N then Some (n - 48)%N
  else if ((97 <=? n) && (n <=? 102))%N then Some (n - 87)%N
  else if ((65 <=? n) && (n <=? 70))%N then Some (n - 55)%N
  else None.
Definition hex4 (a b c d : ascii) : option N :=
  match hex_val a, hex_val b, hex_val c, hex_val d with
  | Some a, Some b, Some c, Some d => Some (((a * 16 + b) * 16 + c) * 16 + d)%N
  | _, _, _, _ => None
  end.
Definition is_high (r : N) : bool := ((55296 <=? r) && (r <? 56320))%N.
Definition is_low (r : N) : bool := ((56320 <=? r) && (r <? 57344))%N.

Definition escape_val (c : ascii) : option ascii :=
  match c with
  | "034" => Some "034" | "\" => Some "\" | "/" => Some "/"
  | "b" => Some (byte 8) | "f" => Some (byte 12) | "n" => Some (byte 10)
  | "r" => Some (byte 13) | "t" => Some (byte 9)
  | _ => None
  end%char.

(** The body of a string literal, after its opening quote: the string it denotes and
    what follows the closing quote *)
Fixpoint scan_string (s : string) : option (string * string) :=
  match s with
  | EmptyString => None
  | String "034" s' => Some (EmptyString, s')
  | String "\" (String "u" (String a (String b (String c (String d s'))))) =>
      r ← hex4 a b c d;
      let plain r := '(t, rest) ← scan_string s'; Some (encode_rune r +:+ t, rest) in
      if is_high r then
        match s' with
        | String "\" (String "u" (String a (String b (String c (String d s''))))) =>
            match hex4 a b c d with
            | Some r2 =>
                if is_low r2 then
                  '(t, rest) ← scan_string s'';
                  Some (encode_rune (65536 + (r - 55296) * 1024 + (r2 - 56320))%N +:+ t, rest)
                else plain 65533%N
            | None => None
            end
        | _ => plain 65533%N
        end
      else if is_low r then plain 65533%N
      else plain r
  | String "\" (String e s') =>
      c ← escape_val e; '(t, rest) ← scan_string s'; Some (String c t, rest)
  | String c s' =>
      if (code c <? 32)%N then None
      else if (code c <? 128)%N then '(t, rest) ← scan_string s'; Some (String c t, rest)
      else
        match utf8_size s, s' with
        | 2%nat, String c1 s' => '(t, rest) ← scan_string s'; Some (String c (String c1 t), rest)
        | 3%nat, String c1 (String c2 s') =>
            '(t, rest) ← scan_string s'; Some (String c (String c1 (String c2 t)), rest)
        | 4%nat, String c1 (String c2 (String c3 s')) =>
            '(t, rest) ← scan_string s'; Some (String c (String c1 (String c2 (String c3 t))), rest)
        | _, _ => '(t, rest) ← scan_string s'; Some (replacement +:+ t, rest)
        end
  end.

(** ** Syntax *)

(** A document; every element and member value comes with its source text. *)
#[local] Set Warnings "-register-all".
Inductive json :=
| JNull
| JBool (b : bool)
| JNum (lit : string)
| JStr (s : string)
| JArr (items : list (string * json))
| JObj (members : list (string * (string * json))).

Definition is_space (c : ascii) : bool :=
  match c with " " => true | _ => bool_decide (code c ∈ [9; 10; 13]%N) end%char.
Fixpoint skip_ws (s : string) : string :=
  match s with
  | String c s' => if is_space c then skip_ws s' else s
  | EmptyString => s
  end.

(** The literal of a number at the head of the string *)
Definition scan_frac (s : string) : option (string * string) :=
  match s with
  | String "." s' =>
      let '(ds, rest) := span_digits s' in
      if ds == "" then None else Some (String "." ds, rest)
  | _ => Some (EmptyString, s)
  end.
Definition scan_exp (s : string) : option (string * string) :=
  match s with
  | String c s' =>
      if bool_decide (c = "e"%char) || bool_decide (c = "E"%char) then
        let '(sign, s'') :=
          match s' with
          | String "+" r => ("+", r)
          | String "-" r => ("-", r)
          | _ => (EmptyString, s')
          end in
        let '(ds, rest) := span_digits s'' in
        if ds == "" then None else Some (String c (sign +:+ ds), rest)
      else Some (EmptyString, s)
  | EmptyString => Some (EmptyString, s)
  end.
Definition scan_number (s : string) : option (string * string) :=
  let '(sign, s) := match s with String "-" r => ("-", r) | _ => (EmptyString, s) end in
  '(int, s) ← match s with
    | String "0" r => Some ("0", r)
    | _ => let '(ds, r) := span_digits s in if ds == "" then None else Some (ds, r)
    end;
  '(frac, s) ← scan_frac s;
  '(exp, s) ← scan_exp s;
  Some (sign +:+ int +:+ frac +:+ exp, s).

Definition maxNestingDepth : N := 10000.

(** The value at the head of the string (spaces before it skipped by the caller), and
    what follows.  Every call consumes a byte, so twice the length is enough fuel. *)
Fixpoint parse_value (fuel : nat) (depth : N) (s : string) : option (json * string) :=
  match fuel with
  | O => None
  | S fuel =>
      match s with
      | String "{" s' =>
          if (maxNestingDepth <=? depth)%N then None else
          match skip_ws s' with
          | String "}" rest => Some (JObj [], rest)
          | s'' => '(ms, rest) ← parse_members fuel (depth + 1) s''; Some (JObj ms, rest)
          end
      | String "[" s' =>
          if (maxNestingDepth <=? depth)%N then None else
          match skip_ws s' with
          | String "]" rest => Some (JArr [], rest)
          | s'' => '(vs, rest) ← parse_items fuel (depth + 1) s''; Some (JArr vs, rest)
          end
      | String "034" s' => '(t, rest) ← scan_string s'; Some (JStr t, rest)
      | String "t" (String "r" (String "u" (String "e" rest))) => Some (JBool true, rest)
      | String "f" (String "a" (String "l" (String "s" (String "e" rest)))) => Some (JBool false, rest)
      | String "n" (String "u" (String "l" (String "l" rest))) => Some (JNull, rest)
      | _ => '(lit, rest) ← scan_number s; Some (JNum lit, rest)
      end
  end
with parse_items (fuel : nat) (depth : N) (s : string) : option (list (string * json) * string) :=
  match fuel with
  | O => None
  | S fuel =>
      '(v, rest) ← parse_value fuel depth s;
      let raw := str_take (len s - len rest) s in
      match skip_ws rest with
      | String "," rest =>
          '(vs, rest) ← parse_items fuel depth (skip_ws rest); Some ((raw, v) :: vs, rest)
      | String "]" rest => Some ([(raw, v)], rest)
      | _ => None
      end
  end
with parse_members (fuel : nat) (depth : N) (s : string) : option (list (string * (string * json)) * string) :=
  match fuel with
  | O => None
  | S fuel =>
      match s with
      | String "034" s' =>
          '(k, rest) ← scan_string s';
          match skip_ws rest with
          | String ":" rest =>
              let s := skip_ws rest in
              '(v, rest) ← parse_value fuel depth s;
              let raw := str_take (len s - len rest) s in
              match skip_ws rest with
              | String "," rest =>
                  '(ms, rest) ← parse_members fuel depth (skip_ws rest); Some ((k, (raw, v)) :: ms, rest)
              | String "}" rest => Some ([(k, (raw, v))], rest)
              | _ => None
              end
          | _ => None
          end
      | _ => None
      end
  end.

Definition Parse (s : string) : option json :=
  let s := skip_ws s in
  '(v, rest) ← parse_value (2 * len s + 2) 0 s;
  if skip_ws rest == "" then Some v else None.

(** [json.Valid] *)
Definition Valid (s : string) : bool := match Parse s with Some _ => true | None => false end.

(** ** Numbers *)

(** The binary64 nearest to [p / q], ties to even: enough bits of the quotient, the
    last of them telling whether anything was cut off *)
Definition float_of_ratio (neg : bool) (p q : Z) : float64 :=
  let k := Z.max 0 (66 + Z.log2 q - Z.log2 p) in
  let n := p * 2 ^ k / q in
  let m := 2 * n + (if p * 2 ^ k mod q =? 0 then 0 else 1) in
  binary_normalize 53 1024 (if neg then - m else m) (- (k + 1)) neg.

(** The decimal [m * 10 ^ e]; far exponents are infinite or zero. *)
Definition float_of_decimal (neg : bool) (m e : Z) : float64 :=
  if m =? 0 then S754_zero neg
  else if 400 <? e then S754_infinity neg
  else if Z.log2 m + 4 * e <? -4000 - 3 * Z.log2 m then S754_zero neg
  else if 0 <=? e then float_of_ratio neg (m * 10 ^ e) 1
  else float_of_ratio neg m (10 ^ (- e)).

(** [strconv.ParseFloat] of a JSON number: sign, digits, fraction, exponent *)
Definition number_parts (lit : string) : bool * Z * Z :=
  let '(neg, s) := match lit with String "-" s => (true, s) | _ => (false, lit) end in
  let '(int, s) := span_digits s in
  let '(frac, s) := match s with String "." s => span_digits s | _ => (EmptyString, s) end in
  let exp :=
    match s with
    | String _ (String "-" ds) => - digits_value 0 ds
    | String _ (String "+" ds) => digits_value 0 ds
    | String _ ds => digits_value 0 ds
    | EmptyString => 0
    end in
  (neg, digits_value 0 (int +:+ frac), exp - Z.of_nat (len frac)).
Definition parse_float (lit : string) : option float64 :=
  let '(neg, m, e) := number_parts lit in
  match float_of_decimal neg m e with
  | S754_infinity _ => None
  | f => Some f
  end.

(** *** Printing: the shortest decimal that reads back as the same float *)

(** [10 ^ (k - 1) <= p / q < 10 ^ k] *)
Fixpoint decimal_exponent (fuel : nat) (k p q : Z) : Z :=
  match fuel with
  | O => k
  | S fuel =>
      if p * 10 ^ (Z.max 0 (1 - k)) <? q * 10 ^ (Z.max 0 (k - 1)) then decimal_exponent fuel (k - 1) p q
      else if q * 10 ^ (Z.max 0 k) <=? p * 10 ^ (Z.max 0 (- k)) then decimal_exponent fuel (k + 1) p q
      else k
  end.

#[export] Instance float64_eq_dec : EqDecision float64.
Proof. solve_decision. Defined.
(** The decimals of [n] digits around [p / q]: those that read back as [f], the nearer first *)
Definition candidates (f : float64) (p q k : Z) (n : Z) : list Z :=
  let num := p * 10 ^ (Z.max 0 (n - k)) in
  let den := q * 10 ^ (Z.max 0 (k - n)) in
  let d := num / den in
  let near := if 2 * (num mod den) <? den then [d; d + 1]
              else if 2 * (num mod den) =? den then (if Z.even d then [d; d + 1] else [d + 1; d])
              else [d + 1; d] in
  List.filter (fun c => bool_decide (float_of_decimal false c (k - n) = f)) near.

Fixpoint shortest (fuel : nat) (f : float64) (p q k n : Z) : Z * Z :=
  match candidates f p q k n with
  | c :: _ => if c mod 10 =? 0 then (c / 10, k - n + 1) else (c, k - n)
  | [] => match fuel with O => (0, 0) | S fuel => shortest fuel f p q k (n + 1) end
  end.

Fixpoint zeros (n : nat) : string := match n with O => EmptyString | S n => String "0" (zeros n) end.

(** Digits [c] and exponent [e] (the value is [c * 10 ^ e]) in the [f] or the [e] format *)
Definition format_decimal (c e : Z) : string :=
  let ds := itoa c in
  let dp := Z.of_nat (len ds) + e in
  if (dp <? -5) || (21 <? dp) then
    let x := dp - 1 in
    str_take 1 ds +:+ (if (len ds <=? 1)%nat then EmptyString else "." +:+ str_drop 1 ds) +:+
    "e" +:+ (if x <? 0 then "-" else "+") +:+ itoa (Z.abs x)
  else if dp <=? 0 then "0." +:+ zeros (Z.to_nat (- dp)) +:+ ds
  else if 0 <=? e then ds +:+ zeros (Z.to_nat e)
  else str_take (Z.to_nat dp) ds +:+ "." +:+ str_drop (Z.to_nat dp) ds.

Definition format_float (f : float64) : option string :=
  match f with
  | S754_zero neg => Some (if neg then "-0" else "0")
  | S754_finite neg m e =>
      let '(p, q) := if 0 <=? e then (Z.pos m * 2 ^ e, 1) else (Z.pos m, 2 ^ (- e)) in
      let k := decimal_exponent 800 0 p q in
      let '(c, x) := shortest 20 (S754_finite false m e) p q k 1 in
      Some ((if neg then "-" else EmptyString) +:+ format_decimal c x)
  | _ => None
  end.

(** ** Values: Go's [any], and what the program marshals *)

Inductive value :=
| VNull
| VBool (b : bool)
| VInt (n : Z)
| VFloat (f : float64)
| VStr (s : string)
| VArr (l : list value)
| VMap (m : list (string * value))      (** a [map\[string\]any] *)
| VStruct (m : list (string * value))   (** a struct: its members in the order of the fields *)
| VRaw (raw : string).                  (** a [json.RawMessage] *)

(** [m\[k\] = v] *)
Fixpoint map_set {A} (k : string) (v : A) (m : list (string * A)) : list (string * A) :=
  match m with
  | [] => [(k, v)]
  | (k', v') :: m => if k' == k then (k, v) :: m else (k', v') :: map_set k v m
  end.
Fixpoint map_get {A} (k : string) (m : list (string * A)) : option A :=
  match m with
  | [] => None
  | (k', v) :: m => if k' == k then Some v else map_get k m
  end.

(** Decoding into [any] *)
Fixpoint to_any (j : json) : option value :=
  match j with
  | JNull => Some VNull
  | JBool b => Some (VBool b)
  | JNum lit => VFloat <$> parse_float lit
  | JStr s => Some (VStr s)
  | JArr items =>
      VArr <$> (fix go (l : list (string * json)) : option (list value) :=
                  match l with
                  | [] => Some []
                  | (_, j) :: l => v ← to_any j; vs ← go l; Some (v :: vs)
                  end) items
  | JObj members =>
      VMap <$> (fix go (l : list (string * (string * json))) (acc : list (string * value))
                  : option (list (string * value)) :=
                  match l with
                  | [] => Some acc
                  | (k, (_, j)) :: l => v ← to_any j; go l (map_set k v acc)
                  end) members []
  end.
Definition Unmarshal_any (s : string) : option value := j ← Parse s; to_any j.

(** ** Marshal *)

Definition hex_digit (n : N) : ascii :=
  if (n <? 10)%N then byte (48 + n) else byte (87 + n).
Definition u00 (c : ascii) : string :=
  "\u00" +:+ String (hex_digit (code c / 16)) (String (hex_digit (code c mod 16)) EmptyString).

(** A byte below 128 in a string literal ([escapeHTML] on) *)
Definition quote_ascii (c : ascii) : string :=
  match c with
  | "034"%char => String "\" dquote
  | "\"%char => "\\"
  | "<"%char => "\u003c"
  | ">"%char => "\u003e"
  | "&"%char => "\u0026"
  | "008"%char => "\b"
  | "012"%char => "\f"
  | "010"%char => "\n"
  | "013"%char => "\r"
  | "009"%char => "\t"
  | _ => if (code c <? 32)%N then u00 c else String c EmptyString
  end.

(** The body of a string literal and its closing quote *)
Fixpoint quote_body (s : string) : string :=
  match s with
  | EmptyString => dquote
  | String c s' =>
      if (code c <? 128)%N then quote_ascii c +:+ quote_body s'
      else
        match utf8_size s, s' with
        | 2%nat, String c1 s' => String c (String c1 (quote_body s'))
        | 3%nat, String c1 (String c2 s') =>
            (if (code c =? 226)%N && (code c1 =? 128)%N && (code c2 =? 168)%N then "\u2028"
             else if (code c =? 226)%N && (code c1 =? 128)%N && (code c2 =? 169)%N then "\u2029"
             else String c (String c1 (String c2 EmptyString))) +:+ quote_body s'
        | 4%nat, String c1 (String c2 (String c3 s')) =>
            String c (String c1 (String c2 (String c3 (quote_body s'))))
        | _, _ => "\ufffd" +:+ quote_body s'
        end
  end.
Definition quote (s : string) : string := dquote +:+ quote_body s.

(** [compact]: the spaces outside string literals are dropped; [escape] is what
    [Marshal] adds for a [RawMessage]. *)
Fixpoint strip (escape in_str : bool) (s : string) : string :=
  match s with
  | EmptyString => EmptyString
  | String c s' =>
      if escape && bool_decide (c ∈ ["<"; ">"; "&"]%char) then u00 c +:+ strip escape in_str s'
      else if escape && HasPrefix s (bytes [226; 128; 168]%N) then
        match s' with
        | String _ (String _ s'') => "\u2028" +:+ strip escape in_str s''
        | _ => EmptyString
        end
      else if escape && HasPrefix s (bytes [226; 128; 169]%N) then
        match s' with
        | String _ (String _ s'') => "\u2029" +:+ strip escape in_str s''
        | _ => EmptyString
        end
      else if in_str then
        match c, s' with
        | "\"%char, String e s'' => String c (String e (strip escape true s''))
        | "034"%char, _ => String c (strip escape false s')
        | _, _ => String c (strip escape true s')
        end
      else if is_space c then strip escape false s'
      else String c (strip escape (bool_decide (c = "034"%char)) s')
  end.
(** [json.Compact] *)
Definition Compact (s : string) : option string := if Valid s then Some (strip false false s) else None.

Definition key_less (a b : string * string) : bool := String.ltb a.1 b.1.
Definition concat_comma (l : list string) : string := String.concat "," l.
Definition render_members (l : list (string * string)) : string :=
  "{" +:+ concat_comma (map (fun '(k, v) => quote k +:+ ":" +:+ v) l) +:+ "}".

Fixpoint Marshal (v : value) : option string :=
  let fields := fix go (l : list (string * value)) : option (list (string * string)) :=
    match l with
    | [] => Some []
    | (k, v) :: l => s ← Marshal v; ss ← go l; Some ((k, s) :: ss)
    end in
  match v with
  | VNull => Some "null"
  | VBool b => Some (if b then "true" else "false")
  | VInt n => Some (itoa n)
  | VFloat f => format_float f
  | VStr s => Some (quote s)
  | VArr l =>
      ss ← (fix go (l : list value) : option (list string) :=
              match l with
              | [] => Some []
              | v :: l => s ← Marshal v; ss ← go l; Some (s :: ss)
              end) l;
      Some ("[" +:+ concat_comma ss +:+ "]")
  | VMap m => ms ← fields m; Some (render_members (sort_by key_less ms))
  | VStruct m => ms ← fields m; Some (render_members ms)
  | VRaw raw =>
      if raw == "" then Some "null"
      else if Valid raw then Some (strip true false raw) else None
  end.

(** ** Decoding the fields of a struct *)

(** [foldName]: ASCII letters, and the two other runes that fold to one *)
Fixpoint fold_name (s : string) : string :=
  match s with
  | EmptyString => EmptyString
  | String c s' =>
      if HasPrefix s (bytes [226; 132; 170]%N) then
        match s' with
        | String _ (String _ s'') => String "k" (fold_name s'')
        | _ => EmptyString
        end
      else if HasPrefix s (bytes [197; 191]%N) then
        match s' with
        | String _ s'' => String "s" (fold_name s'')
        | _ => EmptyString
        end
      else String (lower_ascii c) (fold_name s')
  end.

Definition members : Type := list (string * (string * json)).

(** The object a struct is decoded from; [null] leaves the struct as it is. *)
Definition as_object (j : json) : option members :=
  match j with JObj ms => Some ms | JNull => Some [] | _ => None end.
(** The last member that goes to the field [name] *)
Definition member (name : string) (ms : members) : option (string * json) :=
  match List.filter (fun p => fold_name p.1 == name) (reverse ms) with
  | p :: _ => Some p.2
  | [] => None
  end.
(** Every member of the field must have its type; the last one stays.  [null] leaves the
    zero value. *)
Definition field {A} (zero : A) (dec : json -> option A) (name : string) (ms : members) : option A :=
  (fix go (l : members) (acc : A) : option A :=
     match l with
     | [] => Some acc
     | (k, (_, j)) :: l =>
         if fold_name k == name then
           match j with
           | JNull => go l acc
           | _ => v ← dec j; go l v
           end
         else go l acc
     end) ms zero.

Definition as_string (j : json) : option string :=
  match j with JStr s => Some s | JNull => Some "" | _ => None end.
Definition as_bool (j : json) : option bool :=
  match j with JBool b => Some b | JNull => Some false | _ => None end.
Definition as_int (j : json) : option Z :=
  match j with JNum lit => ParseInt lit | JNull => Some 0 | _ => None end.
Definition as_list {A} (dec : json -> option A) (j : json) : option (list A) :=
  match j with
  | JNull => Some []
  | JArr items => mapM (fun p => dec p.2) items
  | _ => None
  end.
(** A slice of raw messages *)
Definition as_raw_list (j : json) : option (list string) :=
  match j with JNull => Some [] | JArr items => Some (map fst items) | _ => None end.

Definition f_string := field "" as_string.
Definition f_bool := field false as_bool.
Definition f_int := field 0 as_int.
Definition f_list {A} (dec : json -> option A) := field [] (as_list dec).
(** A [json.RawMessage] field: the text of the value, [null] included; [""] when absent *)
Definition f_raw (name : string) (ms : members) : string :=
  match member name ms with Some (raw, _) => raw | None => "" end.

(** [json.Unmarshal(raw, &text)] for a string *)
Definition Unmarshal_string (s : string) : option string := j ← Parse s; as_string j.
(** [json.Unmarshal(raw, &m)] for a [map\[string\]any]: [None] is an error, [Some None] the nil map *)
Definition Unmarshal_map (s : string) : option (option (list (string * value))) :=
  j ← Parse s; v ← to_any j;
  match v with VMap m => Some (Some m) | VNull => Some None | _ => None end.

(** ** Examples *)

(** A text with its single quotes made double *)
Fixpoint js (s : string) : string :=
  match s with
  | EmptyString => EmptyString
  | String c s => String (if bool_decide (c = "'"%char) then "034"%char else c) (js s)
  end.

Example json_any : Unmarshal_any (js " {'a' : [1, -2.5e1, true,null], 'b':'x\u00e9\n'} ") =
  Some (VMap [("a", VArr [VFloat (float_of_int 1); VFloat (float_of_int (-25)); VBool true; VNull]);
              ("b", VStr (String "x" (bytes [195; 169; 10]%N)))]).
Proof. vm_compute. reflexivity. Qed.
Example json_normal : (Unmarshal_any (js "{'b':1.50,'a':[1e3,0.1,1e-7,1e+21,12345678901234567890,123456.7]}") ≫= Marshal) =
  Some (js "{'a':[1000,0.1,1e-7,1e+21,12345678901234567000,123456.7],'b':1.5}").
Proof. vm_compute. reflexivity. Qed.
Example json_floats : map (fun s => parse_float s ≫= format_float)
    ["-0"; "5e-324"; "1.7976931348623157e308"; "1e309"; "9007199254740993"; "0.000001"; "0.30000000000000004"; "100"] =
  [Some "-0"; Some "5e-324"; Some "1.7976931348623157e+308"; None; Some "9007199254740992"; Some "0.000001";
   Some "0.30000000000000004"; Some "100"].
Proof. vm_compute. reflexivity. Qed.
Example json_quote : Marshal (VStr (bytes [60; 34; 255; 10; 1; 226; 128; 168; 195; 169]%N)) =
  Some (String "034" "\u003c\" +:+ dquote +:+ "\ufffd\n\u0001\u2028" +:+ bytes [195; 169; 34]%N).
Proof. vm_compute. reflexivity. Qed.
Example json_compact : Compact (js "{ 'a' : 'b \' c' , 'd':[ ] }") = Some (js "{'a':'b \' c','d':[]}").
Proof. vm_compute. reflexivity. Qed.
Example json_invalid : map Valid (map js ["{'a':1,}"; "01"; "[1 2]"; "{'a' 1}"; "1."; "nul"; "'a"; "1 2"; ""; "[1,]"]) =
  replicate 10 false.
Proof. vm_compute. reflexivity. Qed.
Example json_raw : (j ← Parse (js "{'A': [1 , 2] ,'b':null,'k':'x'}"); ms ← as_object j;
    k ← f_string (js "k") ms; Some (f_raw "a" ms, f_raw "b" ms, f_raw "c" ms, k)) =
  Some ("[1 , 2]", "null", "", "x").
Proof. vm_compute. reflexivity. Qed.
