(* ===== verification/ConfigTypes.v ===== *)
(** * Configuration data

    Models the types of [internal/config/config.go] and the duration and protocol
    helpers other components read them with.  YAML decoding is not modelled: a
    configuration is a value of these types. *)

From S2P Require Import Prelude GoStrings GoTime GoStrconv RuntimeModel.

(** [type DurationValue string] *)
Abbreviation DurationValue := string.
Definition DurationOf (d : DurationValue) : Z :=
  if d == "" then 0 else default 0 (ParseDuration d).

Record AdminLogsRotationConfig := mkAdminLogsRotationConfig {
  alr_MaxSizeMB : Z;
  alr_MaxFiles : Z;
  alr_MaxAgeDays : Z;
  alr_MaxTotalSizeMB : Z;
  alr_Compress : option bool
}.

Definition CompressionEnabled (c : AdminLogsRotationConfig) : bool := default true (alr_Compress c).

Record AdminLogsConfig := mkAdminLogsConfig {
  al_Enabled : bool;
  al_Path : string;
  al_MaxBytes : Z;
  al_Rotation : AdminLogsRotationConfig
}.

Record AdminConfig := mkAdminConfig {
  adm_Enabled : bool;
  adm_Token : string;
  adm_Logs : AdminLogsConfig
}.

Record ServerConfig := mkServerConfig { srv_Listen : string }.

Record ListenerSpec := mkListenerSpec {
  ls_Name : string;
  ls_Listen : string;
  ls_Inbounds : list string
}.

(** [MaxCostUSD] is a [json.Number]: its text. *)
Record QuotaWindowConfig := mkQuotaWindowConfig {
  qw_Name : string;
  qw_Type : string;
  qw_Duration : DurationValue;
  qw_MaxRequests : Z;
  qw_MaxTokens : Z;
  qw_MaxCostUSD : string
}.

Record ClientQuotaConfig := mkClientQuotaConfig {
  cq_Enabled : bool;
  cq_Windows : list QuotaWindowConfig
}.

Record ClientSpec := mkClientSpec {
  cs_Name : string;
  cs_Token : string;
  cs_Quota : ClientQuotaConfig
}.

Record ClientBindingSpec := mkClientBindingSpec { cb_Ref : string; cb_Tag : string }.

Record QuotaFixedScheduleConfig := mkQuotaFixedScheduleConfig {
  qf_Period : string;
  qf_Anchor : string;
  qf_Time : string;
  qf_Timezone : string;
  qf_Weekday : string
}.

Record OutboundQuotaWindowConfig := mkOutboundQuotaWindowConfig {
  oqw_Name : string;
  oqw_Reset : string;
  oqw_Duration : DurationValue;
  oqw_Fixed : QuotaFixedScheduleConfig;
  oqw_MaxRequests : Z;
  oqw_MaxTokens : Z
}.

Record QuotaResetScheduleConfig := mkQuotaResetScheduleConfig {
  qrs_Period : string;
  qrs_Duration : DurationValue;
  qrs_Anchor : string;
  qrs_Time : string;
  qrs_Timezone : string;
  qrs_Weekday : string
}.

Record QuotaResetAllConfig := mkQuotaResetAllConfig {
  qra_Enabled : bool;
  qra_Schedule : QuotaResetScheduleConfig
}.

Record InboundSpec := mkInboundSpec {
  in_Name : string;
  in_Protocol : string;
  in_Path : string;
  in_Clients : list ClientBindingSpec
}.

Record RoutingRuleMatch := mkRoutingRuleMatch { rm_Models : list string }.

Record RoutingRule := mkRoutingRule {
  rr_Name : string;
  rr_FromTags : list string;
  rr_ToTags : list string;
  rr_Strategy : string;
  rr_Weights : gmap string Z;
  rr_TargetModel : string;
  rr_ModelMap : gmap string string;
  rr_Match : option RoutingRuleMatch
}.

Record RoutingConfig := mkRoutingConfig { rt_Rules : list RoutingRule }.

Record OutboundAuthConfig := mkOutboundAuthConfig {
  oa_Type : string;
  oa_CredentialRef : string
}.

Record OAuthConfig := mkOAuthConfig { oauth_Dir : string }.

Record OutboundModelSpec := mkOutboundModelSpec {
  om_Name : string;
  om_Aliases : list string
}.

Record OutboundProxyConfig := mkOutboundProxyConfig { op_URL : string }.

Record OutboundQuotaConfig := mkOutboundQuotaConfig {
  oq_Enabled : bool;
  oq_Windows : list OutboundQuotaWindowConfig;
  oq_Cooldown : DurationValue;
  oq_ProbeInterval : DurationValue;
  oq_ResetAll : QuotaResetAllConfig
}.

Record OutboundCapabilities := mkOutboundCapabilities {
  cap_ResponsesPreviousResponseID : option bool;
  cap_ResponsesBuiltinTools : option bool;
  cap_ResponsesToolResultStatusError : option bool;
  cap_ResponsesAssistantHistoryNative : option bool;
  cap_UsageEstimation : bool;
  cap_UsageEstimationMode : string
}.

Record OutboundSpec := mkOutboundSpec {
  ob_Name : string;
  ob_Protocol : string;
  ob_Endpoint : string;
  ob_AuthToken : string;
  ob_Auth : OutboundAuthConfig;
  ob_Tag : string;
  ob_Enabled : option bool;
  ob_Models : list OutboundModelSpec;
  ob_Capabilities : OutboundCapabilities;
  ob_Quota : OutboundQuotaConfig;
  ob_Proxy : OutboundProxyConfig
}.

Record SessionSnapshotConfig := mkSessionSnapshotConfig {
  ss_Enabled : option bool;
  ss_Dir : string;
  ss_FlushInterval : DurationValue
}.

Definition EnabledEffective (c : SessionSnapshotConfig) : bool := default true (ss_Enabled c).

Record SessionsConfig := mkSessionsConfig { sess_Snapshot : SessionSnapshotConfig }.

Record GovernanceQuotaSnapshotConfig := mkGovernanceQuotaSnapshotConfig {
  gqs_Enabled : bool;
  gqs_Dir : string;
  gqs_FlushInterval : DurationValue
}.

Record GovernanceQuotaEventsConfig := mkGovernanceQuotaEventsConfig {
  gqe_Enabled : bool;
  gqe_MaxEntries : Z
}.

Record GovernanceQuotaConfig := mkGovernanceQuotaConfig {
  gq_Snapshot : GovernanceQuotaSnapshotConfig;
  gq_Events : GovernanceQuotaEventsConfig
}.

Record GovernanceConfig := mkGovernanceConfig { gov_Quota : GovernanceQuotaConfig }.

Record AccountingPriceConfig := mkAccountingPriceConfig {
  ap_Provider : string;
  ap_Model : string;
  ap_InputPerMillionUSD : float64;
  ap_OutputPerMillionUSD : float64;
  ap_CacheCreatePerMillionUSD : float64;
  ap_CacheReadPerMillionUSD : float64
}.

Record AccountingLocalFileConfig := mkAccountingLocalFileConfig {
  alf_Dir : string;
  alf_RotateMaxSizeMB : Z;
  alf_RetentionDays : Z;
  alf_SnapshotInterval : DurationValue;
  alf_SnapshotRetentionDays : Z;
  alf_WriteBufferRecords : Z;
  alf_FlushInterval : DurationValue;
  alf_QueueSize : Z
}.

Record AccountingConfig := mkAccountingConfig {
  acc_Enabled : bool;
  acc_Backend : string;
  acc_ExposeHTTP : bool;
  acc_AdminToken : string;
  acc_LocalFile : AccountingLocalFileConfig;
  acc_Pricing : list AccountingPriceConfig
}.

Record Config := mkConfig {
  cfg_Server : ServerConfig;
  cfg_Listeners : list ListenerSpec;
  cfg_Clients : list ClientSpec;
  cfg_Inbounds : list InboundSpec;
  cfg_Routing : RoutingConfig;
  cfg_Outbounds : list OutboundSpec;
  cfg_Accounting : AccountingConfig;
  cfg_Governance : GovernanceConfig;
  cfg_Sessions : SessionsConfig;
  cfg_OAuth : OAuthConfig;
  cfg_Admin : AdminConfig
}.

(** [config.OutboundEnabled] *)
Definition OutboundEnabled (o : OutboundSpec) : bool := default true (ob_Enabled o).

(** ** internal/protocol *)

Definition IsSupportedInbound (name : string) : bool :=
  bool_decide (name ∈ ["openai_chat"; "openai_responses"; "anthropic_messages"]).

Definition IsSupportedOutbound (name : string) : bool :=
  bool_decide (name ∈ ["mock"; "openai_chat"; "openai_responses"; "anthropic_messages"]).

#[export] Instance QuotaFixedScheduleConfig_eq_dec : EqDecision QuotaFixedScheduleConfig.
Proof. solve_decision. Defined.
#[export] Instance QuotaResetScheduleConfig_eq_dec : EqDecision QuotaResetScheduleConfig.
Proof. solve_decision. Defined.
#[export] Instance OutboundCapabilities_eq_dec : EqDecision OutboundCapabilities.
Proof. solve_decision. Defined.
