(* ===== verification/Money.v ===== *)
(** * Amounts of money

    Models how costs in US dollars are read ([costUSDMicro] and
    [QuotaWindowConfig.MaxCostMicroUSD] of [internal/config/config.go]) and printed
    ([formatMicroUSD] of [internal/quota/tracker.go]) in millionths of a dollar. *)

From S2P Require Import Prelude GoStrings GoTime GoTimeFacts GoStrconv ConfigTypes.

#[local] Arguments String.append !_ _ /.

(** ** Definitions *)

(** The errors of [costUSDMicro], by their texts *)
Inductive costError :=
| MustBePositive          (* must be greater than 0 *)
| NotDecimal              (* must be a positive decimal with at most 6 fractional digits *)
| TooManyDigits           (* must have at most 6 fractional digits *)
| TooLarge.               (* is too large *)

(** The loop [for len(fraction) < 6 { fraction += "0" }] *)
Definition pad_fraction (fraction : string) : string := fraction +:+ zeros (6 - len fraction).

Definition costUSDMicro (text : string) : result costError Z :=
  if text == "" then Err MustBePositive else
  if HasPrefix text "+" || ContainsAny text ["e"; "E"]%char then Err NotDecimal else
  match Split text "." with
  | first :: rest =>
      if (1 <? length rest)%nat || (first == "") || HasPrefix first "-" then Err NotDecimal else
      if match rest with [f] => (6 <? len f)%nat | _ => false end then Err TooManyDigits else
      match ParseInt first with
      | None => Err NotDecimal
      | Some whole =>
          if match rest with [f] => f == "" | _ => false end then Err NotDecimal else
          match ParseInt (pad_fraction (match rest with [f] => f | _ => "" end)) with
          | None => Err NotDecimal
          | Some fractionMicro =>
              if Z.quot (i64 (max_int64 - fractionMicro)) 1000000 <? whole then Err TooLarge else
              let micro := i64 (i64 (whole * 1000000) + fractionMicro) in
              if micro <=? 0 then Err MustBePositive else Ok micro
          end
      end
  | [] => Err NotDecimal
  end.

Definition MaxCostMicroUSD (w : QuotaWindowConfig) : Z :=
  match costUSDMicro (qw_MaxCostUSD w) with Ok value => value | Err _ => 0 end.

(** [fmt.Sprintf("%06d", n)]: the sign counts towards the width. *)
Definition sprintf_06d (n : Z) : string :=
  let ds := itoa (Z.abs n) in
  if n <? 0 then String "-" (zeros (5 - len ds) +:+ ds) else zeros (6 - len ds) +:+ ds.

Definition formatMicroUSD (value : Z) : string :=
  if value =? 0 then "" else
  let whole := Z.quot value 1000000 in
  let fraction := Z.rem value 1000000 in
  if fraction =? 0 then itoa whole
  else trim_zeros (itoa whole +:+ "." +:+ sprintf_06d fraction).

Example cost_1 : costUSDMicro "12.5" = Ok 12500000.
Proof. vm_compute. reflexivity. Qed.
Example cost_2 : costUSDMicro "0.0000001" = Err TooManyDigits.
Proof. vm_compute. reflexivity. Qed.
Example cost_3 : formatMicroUSD 12050000 = "12.05".
Proof. vm_compute. reflexivity. Qed.

(** ** Lemmas *)

Lemma Split_once s t sep :
  LastIndexByte s sep = None -> LastIndexByte t sep = None ->
  Split s sep = [s] /\ Split (s +:+ String sep t) sep = [s; t].
Proof.
  assert (forall x, LastIndexByte x sep = None -> split_aux x sep = (x, [])) as Hone.
  { induction x as [|c x IH]; cbn; [done|]. intros H.
    destruct (LastIndexByte x sep); [done|]. case_bool_decide as Hc; [done|].
    by rewrite IH. }
  unfold Split. intros Hs Ht. split; [by rewrite Hone|].
  induction s as [|c s IH]; cbn in *.
  - rewrite (Hone t Ht). by case_bool_decide.
  - destruct (LastIndexByte s sep); [done|]. case_bool_decide as Hc; [done|].
    specialize (IH eq_refl). destruct (split_aux _ _) as [x xs]. by simplify_eq/=.
Qed.

Lemma digits_no_byte s c : all_digits s = true -> is_digit c = false -> LastIndexByte s c = None.
Proof.
  induction s as [|d s IH]; cbn; [done|]. intros [Hd Hs]%andb_true_iff Hc.
  rewrite IH by done. rewrite bool_decide_eq_false_2; [done|]. intros ->. congruence.
Qed.

Lemma ContainsAny_digits s chars :
  Forall (fun c => is_digit c = false) chars -> all_digits s = true -> ContainsAny s chars = false.
Proof.
  intros Hc. induction s as [|d s IH]; cbn; [done|]. intros [Hd Hs]%andb_true_iff.
  rewrite IH, orb_false_r by done. apply bool_decide_eq_false_2. intros Hin.
  rewrite Forall_forall in Hc. apply Hc in Hin. congruence.
Qed.

Lemma ContainsAny_app s t chars : ContainsAny (s +:+ t) chars = ContainsAny s chars || ContainsAny t chars.
Proof. induction s as [|c s IH]; cbn; [done|]. by rewrite IH, orb_assoc. Qed.

Lemma HasPrefix_digits s t c :
  all_digits s = true -> s <> "" -> is_digit c = false -> HasPrefix (s +:+ t) (String c "") = false.
Proof.
  intros Hs Hne Hc. destruct s as [|d s]; [done|]. cbn in *. apply andb_true_iff in Hs as [Hd _].
  rewrite bool_decide_eq_false_2; [done|]. intros ->. congruence.
Qed.

Lemma all_digits_zeros k : all_digits (zeros k) = true.
Proof. by induction k. Qed.

(** [costUSDMicro] on digits, and on digits, a point and one to six digits *)
Definition decimal_text (ds : string) (fs : option string) : string :=
  match fs with None => ds | Some f => ds +:+ String "." f end.

Definition decimal_value (ds : string) (fs : option string) : Z :=
  let f := default "" fs in
  digits_value 0 ds * 1000000 + digits_value 0 f * 10 ^ (6 - Z.of_nat (len f)).

Lemma digits_value_bound s :
  all_digits s = true -> 0 <= digits_value 0 s < 10 ^ Z.of_nat (len s).
Proof.
  intros Hs. enough (forall acc, 0 <= acc ->
    acc * 10 ^ Z.of_nat (len s) <= digits_value acc s < (acc + 1) * 10 ^ Z.of_nat (len s)) as H
    by (specialize (H 0); lia).
  induction s as [|c s IH]; intros acc Hacc; [cbn; lia|].
  cbn in Hs. apply andb_true_iff in Hs as [Hc Hs]. unfold is_digit in Hc.
  destruct (digit_val c) as [d|] eqn:Hd; [|done].
  assert (0 <= d <= 9) by (unfold digit_val in Hd; case_match; simplify_eq; breflect; lia).
  cbn [digits_value String.length]. rewrite Hd, Nat2Z.inj_succ, Z.pow_succ_r by lia.
  cbn [default from_option]. unfold id. specialize (IH Hs (10 * acc + d)). nia.
Qed.

(** The range check of [costUSDMicro] is exact and nothing wraps around. *)
Lemma cost_arith w f :
  0 <= w <= max_int64 -> 0 <= f < 1000000 ->
  (if Z.quot (i64 (max_int64 - f)) 1000000 <? w then Err TooLarge else
   let micro := i64 (i64 (w * 1000000) + f) in
   if micro <=? 0 then Err MustBePositive else Ok micro) =
  (if max_int64 <? w * 1000000 + f then Err TooLarge
   else if w * 1000000 + f =? 0 then Err MustBePositive else Ok (w * 1000000 + f)).
Proof.
  intros Hw Hf. rewrite (i64_id (max_int64 - f)) by (unfold in_i64, min_int64, max_int64 in *; lia).
  rewrite Z.quot_div_nonneg by (unfold max_int64; lia).
  destruct (Z.ltb_spec ((max_int64 - f) / 1000000) w) as [Hlt|Hge].
  - assert (max_int64 - f < w * 1000000) by (Z.to_euclidean_division_equations; lia).
    by replace (max_int64 <? w * 1000000 + f) with true by lia.
  - assert (w * 1000000 <= max_int64 - f) by (Z.to_euclidean_division_equations; lia).
    replace (max_int64 <? w * 1000000 + f) with false by lia.
    rewrite (i64_id (w * 1000000)), i64_id by (unfold in_i64, min_int64, max_int64 in *; lia).
    cbv zeta. destruct (Z.leb_spec (w * 1000000 + f) 0), (Z.eqb_spec (w * 1000000 + f) 0);
      done || lia.
Qed.

Lemma pad_fraction_value f :
  (len f <= 6)%nat -> all_digits f = true ->
  all_digits (pad_fraction f) = true /\ pad_fraction f <> "" /\
  digits_value 0 (pad_fraction f) = digits_value 0 f * 10 ^ (6 - Z.of_nat (len f)) /\
  0 <= digits_value 0 (pad_fraction f) < 1000000.
Proof.
  intros Hl Hd. unfold pad_fraction. rewrite all_digits_app, Hd, all_digits_zeros.
  rewrite digits_value_app, digits_value_zeros.
  split; [done|]. split.
  { intros E. apply (f_equal len) in E. rewrite str_len_app, zeros_len in E. cbn in E. lia. }
  replace (Z.of_nat (6 - len f)) with (6 - Z.of_nat (len f)) by lia. split; [done|].
  pose proof (digits_value_bound f Hd) as [Hlo Hhi].
  pose proof (Z.pow_pos_nonneg 10 (6 - Z.of_nat (len f))). split; [lia|].
  replace 1000000 with (10 ^ Z.of_nat (len f) * 10 ^ (6 - Z.of_nat (len f))).
  - apply Z.mul_lt_mono_pos_r; lia.
  - rewrite <- Z.pow_add_r by lia. by replace (Z.of_nat (len f) + _) with 6 by lia.
Qed.

(** What [costUSDMicro] computes once the text is split *)
Lemma costUSDMicro_decimal ds fs :
  all_digits ds = true -> ds <> "" ->
  match fs with None => True | Some f => all_digits f = true /\ (1 <= len f <= 6)%nat end ->
  digits_value 0 ds <= max_int64 ->
  costUSDMicro (decimal_text ds fs) =
    if max_int64 <? decimal_value ds fs then Err TooLarge
    else if decimal_value ds fs =? 0 then Err MustBePositive else Ok (decimal_value ds fs).
Proof.
  intros Hds Hne Hfs Hbound. unfold costUSDMicro.
  set (f := default "" fs).
  assert (all_digits f = true /\ (len f <= 6)%nat) as [Hf Hlen]
    by (subst f; destruct fs; cbn; intuition lia).
  destruct (pad_fraction_value f Hlen Hf) as (Hpd & Hpne & Hpv & Hpr).
  assert (exists rest, Split (decimal_text ds fs) "." = ds :: rest /\
    (1 <? length rest)%nat = false /\ (match rest with [g] => g | _ => "" end) = f /\
    match rest with [g] => (6 <? len g)%nat | _ => false end = false /\
    match rest with [g] => g == "" | _ => false end = false) as (rest & -> & -> & -> & -> & ->).
  { assert (LastIndexByte ds "." = None) as Hno by (by apply digits_no_byte).
    destruct fs as [g|]; cbn [decimal_text].
    - exists [g]. destruct Hfs as [Hg Hl]. split; [apply Split_once; [done|by apply digits_no_byte]|].
      split; [done|]. split; [done|]. split; [by apply Nat.ltb_ge|].
      apply String.eqb_neq. intros ->. cbn in Hl. lia.
    - exists []. split; [by apply (Split_once ds "")|done]. }
  assert ((decimal_text ds fs == "") = false) as ->
    by (apply String.eqb_neq; destruct fs, ds; cbn; congruence).
  assert (forall t, HasPrefix (decimal_text ds fs) (String t "") = true -> is_digit t = true) as Hpre.
  { intros t. destruct (is_digit t) eqn:Ht; [done|]. intros Hp.
    destruct fs as [g|]; cbn [decimal_text] in Hp.
    - by rewrite HasPrefix_digits in Hp.
    - by rewrite <- (str_app_nil_r ds), HasPrefix_digits in Hp. }
  destruct (HasPrefix _ "+") eqn:E; [by apply Hpre in E|]. clear E.
  assert (ContainsAny (decimal_text ds fs) ["e"; "E"]%char = false) as ->.
  { assert (Forall (fun c => is_digit c = false) ["e"; "E"]%char) as He by (by repeat constructor).
    destruct fs as [g|]; cbn [decimal_text]; rewrite ?ContainsAny_app, (ContainsAny_digits ds) by done;
      [|done]. cbn [orb ContainsAny]. rewrite ContainsAny_digits by (done || apply Hfs). done. }
  rewrite (proj2 (String.eqb_neq ds "")) by done.
  rewrite <- (str_app_nil_r ds) at 1. rewrite HasPrefix_digits by done. cbn [orb].
  rewrite ParseInt_digits by done.
  rewrite ParseInt_digits by (done || unfold max_int64; lia).
  unfold decimal_value. fold f. rewrite <- Hpv.
  pose proof (digits_value_nonneg 0 ds).
  generalize dependent (digits_value 0 (pad_fraction f)). generalize dependent (digits_value 0 ds).
  clear. intros w Hw Hw0 fr _ Hfr. apply cost_arith; lia.
Qed.

Lemma dec_fuel_len fuel n k :
  0 <= n < 10 ^ Z.of_nat (S k) -> (len (dec_fuel fuel n) <= S k)%nat.
Proof.
  revert n k. induction fuel as [|fuel IH]; intros n k Hn; cbn [dec_fuel]; [cbn; lia|].
  rewrite str_len_app. destruct (Z.ltb_spec n 10); [cbn; lia|].
  destruct k as [|k]; [cbn in Hn; lia|].
  assert (len (dec_fuel fuel (n / 10)) <= S k)%nat; [|cbn; lia].
  apply IH. rewrite Nat2Z.inj_succ, Z.pow_succ_r in Hn by lia.
  split; [apply Z.div_pos; lia|]. apply Z.div_lt_upper_bound; lia.
Qed.

(** The fraction printed by [formatMicroUSD] before trailing zeros are removed *)
Lemma sprintf_06d_spec f : 0 < f < 1000000 ->
  all_digits (sprintf_06d f) = true /\ len (sprintf_06d f) = 6%nat /\
  digits_value 0 (sprintf_06d f) = f.
Proof.
  intros Hf. unfold sprintf_06d. replace (f <? 0) with false by lia.
  rewrite (Z.abs_eq f) by lia.
  assert (len (itoa f) <= 6)%nat.
  { unfold itoa. replace (f <? 0) with false by lia. apply dec_fuel_len. cbn. lia. }
  rewrite all_digits_app, all_digits_zeros, itoa_digits by lia.
  rewrite str_len_app, zeros_len, digits_value_app, digits_value_zeros.
  rewrite Z.mul_0_l, itoa_value by (unfold max_int64; lia). repeat split. lia.
Qed.

Lemma trim_zeros_app s t : trim_zeros t <> "" -> trim_zeros (s +:+ t) = s +:+ trim_zeros t.
Proof.
  intros Ht. induction s as [|c s IH]; cbn; [done|]. rewrite IH.
  destruct s; cbn; [by destruct (trim_zeros t)|done].
Qed.

(** Removing trailing zeros of a nonzero fraction *)
Lemma trim_zeros_fraction s :
  all_digits s = true -> len s = 6%nat -> digits_value 0 s <> 0 ->
  all_digits (trim_zeros s) = true /\ (1 <= len (trim_zeros s) <= 6)%nat /\
  digits_value 0 (trim_zeros s) * 10 ^ (6 - Z.of_nat (len (trim_zeros s))) = digits_value 0 s.
Proof.
  intros Hd Hl Hv. destruct (trim_zeros_spec s) as [k Hk].
  set (t := trim_zeros s) in *. clearbody t. rewrite Hk in Hd, Hl, Hv |- *.
  rewrite all_digits_app in Hd. apply andb_true_iff in Hd as [Hd _].
  rewrite str_len_app, zeros_len in Hl. rewrite digits_value_app, digits_value_zeros in *.
  split; [done|]. split.
  - split; [|lia]. destruct t; cbn in *; [lia|lia].
  - by replace (6 - Z.of_nat (len t)) with (Z.of_nat k) by lia.
Qed.

(** ** Properties *)

(** A positive cost printed by [formatMicroUSD] is read back by [costUSDMicro] as
    the same number of micro-dollars, for every positive 64-bit amount. *)
Theorem cost_roundtrip m : 0 < m <= max_int64 -> costUSDMicro (formatMicroUSD m) = Ok m.
Proof.
  intros Hm. unfold formatMicroUSD. replace (m =? 0) with false by lia.
  rewrite Z.quot_div_nonneg, Z.rem_mod_nonneg by lia.
  pose proof (Z.div_mod m 1000000). pose proof (Z.mod_pos_bound m 1000000).
  assert (0 <= m / 1000000 <= max_int64) as Hw by (Z.to_euclidean_division_equations; lia).
  pose proof (itoa_digits (m / 1000000)) as Hd. pose proof (itoa_value _ Hw) as Hv.
  pose proof (itoa_nonempty (m / 1000000)) as Hne.
  destruct (Z.eqb_spec (m mod 1000000) 0) as [E|E].
  - pose proof (costUSDMicro_decimal (itoa (m / 1000000)) None) as Hc.
    cbn [decimal_text] in Hc. rewrite Hc by (done || lia || auto with lia). clear Hc.
    unfold decimal_value. cbn [default from_option String.length digits_value]. rewrite Hv.
    replace (max_int64 <? _) with false by lia. replace (_ =? 0) with false by lia. f_equal. lia.
  - destruct (sprintf_06d_spec (m mod 1000000)) as (Hfd & Hfl & Hfv); [lia|].
    destruct (trim_zeros_fraction (sprintf_06d (m mod 1000000))) as (Htd & Htl & Htv);
      [done|done|lia|].
    rewrite str_app_assoc, trim_zeros_app by (intros E'; rewrite E' in Htl; cbn in Htl; lia).
    rewrite <- str_app_assoc.
    pose proof (costUSDMicro_decimal (itoa (m / 1000000))
      (Some (trim_zeros (sprintf_06d (m mod 1000000))))) as Hc.
    cbn [decimal_text] in Hc. cbn [String.append].
    rewrite Hc by (done || lia || auto with lia). clear Hc.
    unfold decimal_value. cbn [default from_option]. unfold id. rewrite Hv, Htv, Hfv.
    replace (max_int64 <? _) with false by lia. replace (_ =? 0) with false by lia. f_equal. lia.
Qed.

(** ** Witness *)

Lemma cost_roundtrip_witness :
  formatMicroUSD 12050000 = "12.05" /\ costUSDMicro (formatMicroUSD 12050000) = Ok 12050000.
Proof.
  split; [by vm_compute|]. apply (cost_roundtrip 12050000). unfold max_int64. lia.
Defined.

(** The sign [strconv.ParseInt] accepts is also accepted in the fraction. *)
Example cost_signed_fraction : costUSDMicro "1.+5" = Ok 1050000 /\ costUSDMicro "1.-0" = Ok 1000000.
Proof. vm_compute. done. Qed.
