(* ===== verification/QuotaWindow.v ===== *)
(** * Quota windows

    Models the window half of [internal/quota/tracker.go]: usage events, rolling and
    fixed windows, the schedules that bound fixed windows, and the time at which an
    exhausted window admits requests again.

    The zone database behind [time.LoadLocation] is not part of the program: it is
    the parameter [tzdb] of the constructors. *)

From S2P Require Import Prelude GoStrings GoTime GoTimeFacts GoStrconv.

(** ** Data *)

Record usageEvent := mkUsageEvent {
  ue_At : Time;
  ue_Requests : Z;
  ue_Tokens : Z;
  ue_CostMicroUSD : Z;
  ue_Unpriced : Z
}.

(** A zero [schedule] has period [""]; weekdays are numbered from Sunday = 0. *)
Record schedule := mkSchedule {
  sc_period : string;
  sc_duration : Duration;
  sc_anchor : Time;
  sc_clock : string;
  sc_location : option Location;
  sc_weekday : Z
}.
Definition zero_schedule : schedule := mkSchedule "" 0 zero_time "" None 0.

Record windowState := mkWindowState {
  ws_name : string;
  ws_typeName : string;
  ws_reset : string;
  ws_duration : Duration;
  ws_fixed : schedule;
  ws_maxRequests : Z;
  ws_maxTokens : Z;
  ws_maxCostMicroUSD : Z;
  ws_events : list usageEvent
}.

Record WindowConfig := mkWindowConfig {
  wc_Name : string;
  wc_Type : string;
  wc_Reset : string;
  wc_Duration : Duration;
  wc_FixedPeriod : string;
  wc_Anchor : Time;
  wc_Time : string;
  wc_Timezone : string;
  wc_Weekday : Z;
  wc_MaxRequests : Z;
  wc_MaxTokens : Z;
  wc_MaxCostMicroUSD : Z
}.

Record ResetAllConfig := mkResetAllConfig {
  ra_Enabled : bool;
  ra_Period : string;
  ra_Duration : Duration;
  ra_Anchor : Time;
  ra_Time : string;
  ra_Timezone : string;
  ra_Weekday : Z
}.

Definition with_events (w : windowState) (l : list usageEvent) : windowState :=
  mkWindowState (ws_name w) (ws_typeName w) (ws_reset w) (ws_duration w) (ws_fixed w)
    (ws_maxRequests w) (ws_maxTokens w) (ws_maxCostMicroUSD w) l.

(** ** Construction *)

Section tzdb.
Context (tzdb : string -> option Location).

Definition newSchedule (period : string) (duration : Duration) (anchor : Time)
    (clock timezone : string) (weekday : Z) : schedule :=
  let location :=
    if timezone != "" then
      match tzdb timezone with Some loaded => loaded | None => UTC end
    else UTC in
  mkSchedule period duration anchor clock (Some location) weekday.

Definition newResetSchedule (cfg : ResetAllConfig) : schedule :=
  if negb (ra_Enabled cfg) then zero_schedule
  else newSchedule (ra_Period cfg) (ra_Duration cfg) (ra_Anchor cfg) (ra_Time cfg)
         (ra_Timezone cfg) (ra_Weekday cfg).

Definition newWindowState (cfg : WindowConfig) : windowState :=
  let reset := if wc_Reset cfg == "" then "rolling" else wc_Reset cfg in
  mkWindowState (wc_Name cfg) (wc_Type cfg) reset (wc_Duration cfg)
    (newSchedule (wc_FixedPeriod cfg) (wc_Duration cfg) (wc_Anchor cfg) (wc_Time cfg)
       (wc_Timezone cfg) (wc_Weekday cfg))
    (wc_MaxRequests cfg) (wc_MaxTokens cfg) (wc_MaxCostMicroUSD cfg) [].
End tzdb.

(** ** Schedules *)

Definition floorDuration (delta interval : Duration) : Z :=
  let steps := Z.quot delta interval in
  if (delta <? 0) && negb (Z.rem delta interval =? 0) then i64 (steps - 1) else steps.

(** [time.Parse("15:04")] or, with two colons, [time.Parse("15:04:05")] *)
Fixpoint count_byte (c : ascii) (s : string) : nat :=
  match s with
  | EmptyString => O
  | String d s => if bool_decide (c = d) then S (count_byte c s) else count_byte c s
  end.
Definition parse_clock_opt (value : string) : option (Z * Z * Z) :=
  '(hour, s) ← getnum value;
  s ← expect ":" s;
  '(mi, s) ← take_digits 2 0 s;
  '(sec, s) ←
    (if (count_byte ":" value =? 2)%nat then
       s ← expect ":" s;
       '(sec, s) ← take_digits 2 0 s;
       Some (sec, (parse_frac s).2)
     else Some (0, s));
  if (hour <? 24) && (mi <? 60) && (sec <? 60) && (s == "") then Some (hour, mi, sec)
  else None.
Definition parseClock (value : string) : Z * Z * Z := default (0, 0, 0) (parse_clock_opt value).

Definition civilBounds (s : schedule) (now : Time) (days : Z) (weekly : bool) : Time * Time :=
  let loc := default UTC (sc_location s) in
  let local := civil_in loc now in
  let '(hour, minute, second) := parseClock (sc_clock s) in
  let date :=
    if weekly then
      let delta := Z.rem (c_weekday local - sc_weekday s + 7) 7 in
      civil_in loc (add_days_in loc now (- delta))
    else local in
  let start := date_in loc (c_year date) (c_month date) (c_day date) hour minute second 0 in
  let start := if Before now start then add_days_in loc start (- days) else start in
  (start, add_days_in loc start days).

Definition bounds (s : schedule) (now : Time) : Time * Time :=
  if sc_period s == "daily" then civilBounds s now 1 false
  else if sc_period s == "weekly" then civilBounds s now 7 true
  else if sc_duration s <=? 0 then (zero_time, zero_time)
  else
    let anchor := if IsZero (sc_anchor s) then unix_epoch else sc_anchor s in
    let delta := Sub now anchor in
    let steps := floorDuration delta (sc_duration s) in
    let start := Add anchor (i64 (steps * sc_duration s)) in
    (start, Add start (sc_duration s)).

Definition formatTime (value : Time) : string :=
  if IsZero value then "" else format_rfc3339nano value.

Definition weekday_string (d : Z) : string :=
  default "" (nth_error ["Sunday"; "Monday"; "Tuesday"; "Wednesday"; "Thursday"; "Friday";
                         "Saturday"] (Z.to_nat d)).

(** [strings.Join(_, "|")] *)
Definition key (s : schedule) : string :=
  if sc_period s == "" then "" else
  let zone := match sc_location s with Some l => loc_name l | None => "" end in
  String.concat "|" [sc_period s; duration_string (sc_duration s); formatTime (sc_anchor s);
                     sc_clock s; zone; weekday_string (sc_weekday s)].

(** ** Windows *)

Fixpoint drop_while (f : usageEvent -> bool) (l : list usageEvent) : list usageEvent :=
  match l with
  | [] => []
  | e :: l' => if f e then drop_while f l' else l
  end.

Definition discardBefore (w : windowState) (cutoff : Time) : windowState :=
  with_events w (drop_while (fun e => Before (ue_At e) cutoff) (ws_events w)).
Definition discardThrough (w : windowState) (cutoff : Time) : windowState :=
  with_events w (drop_while (fun e => negb (After (ue_At e) cutoff)) (ws_events w)).

Definition window_rollover (w : windowState) (now : Time) : windowState :=
  if ws_reset w == "fixed" then discardBefore w (bounds (ws_fixed w) now).1
  else discardThrough w (Add now (- ws_duration w)).

(** [(requests, tokens, costMicroUSD, unpriced)] *)
Definition add_event (u : Z * Z * Z * Z) (e : usageEvent) : Z * Z * Z * Z :=
  let '(r, t, c, n) := u in
  (i64 (r + ue_Requests e), i64 (t + ue_Tokens e), i64 (c + ue_CostMicroUSD e),
   i64 (n + ue_Unpriced e)).
Definition usage (w : windowState) : Z * Z * Z * Z :=
  foldl add_event (0, 0, 0, 0) (ws_events w).

(** The loop of [retryAfter]: the first event whose removal, with those before it,
    frees what is needed. *)
Fixpoint first_freeing (need removed : Z * Z * Z) (l : list usageEvent) : option usageEvent :=
  match l with
  | [] => None
  | e :: l =>
      let '(nr, nt, nc) := need in
      let '(r, t, c) := removed in
      let r := i64 (r + ue_Requests e) in
      let t := i64 (t + ue_Tokens e) in
      let c := i64 (c + ue_CostMicroUSD e) in
      if (nr <=? r) && (nt <=? t) && (nc <=? c) then Some e
      else first_freeing need (r, t, c) l
  end.

Definition limited_by (maximum used : Z) : bool := (0 <? maximum) && (maximum <=? used).

(** [w.events\[len(w.events)-1\]] is only reached with events in the window: see
    [retryAfter_nonempty]. *)
Definition retryAfter (w : windowState) (now : Time) : Time * bool :=
  let '(requests, tokens, costMicroUSD, _) := usage w in
  let requestLimited := limited_by (ws_maxRequests w) requests in
  let tokenLimited := limited_by (ws_maxTokens w) tokens in
  let costLimited := limited_by (ws_maxCostMicroUSD w) costMicroUSD in
  if negb requestLimited && negb tokenLimited && negb costLimited then (zero_time, false)
  else if ws_reset w == "fixed" then ((bounds (ws_fixed w) now).2, true)
  else
    let need (limited : bool) used maximum := if limited then i64 (i64 (used - maximum) + 1) else 0 in
    let needs := (need requestLimited requests (ws_maxRequests w),
                  need tokenLimited tokens (ws_maxTokens w),
                  need costLimited costMicroUSD (ws_maxCostMicroUSD w)) in
    match first_freeing needs (0, 0, 0) (ws_events w) with
    | Some e => (Add (ue_At e) (ws_duration w), true)
    | None =>
        match last (ws_events w) with
        | Some e => (Add (ue_At e) (ws_duration w), true)
        | None => (zero_time, true)
        end
    end.

Definition scheduleKey (w : windowState) : string :=
  if ws_reset w == "rolling" then duration_string (ws_duration w) else key (ws_fixed w).

Definition compatible (w other : windowState) : bool :=
  if (ws_typeName w != ws_typeName other) || (ws_reset w != ws_reset other) then false
  else if ws_reset w == "rolling" then ws_duration w =? ws_duration other
  else scheduleKey w == scheduleKey other.

(** ** Invariant

    Events are in order of time and carry non-negative amounts whose totals fit in
    64 bits. *)

Definition event_ok (e : usageEvent) : Prop :=
  0 <= ue_Requests e /\ 0 <= ue_Tokens e /\ 0 <= ue_CostMicroUSD e /\ 0 <= ue_Unpriced e.

Definition events_sorted : list usageEvent -> Prop :=
  StronglySorted (fun e f => ue_At e <= ue_At f).

Definition total (f : usageEvent -> Z) (l : list usageEvent) : Z :=
  foldr (fun e n => f e + n) 0 l.

Record events_ok (l : list usageEvent) : Prop := {
  eo_sorted : events_sorted l;
  eo_nonneg : Forall event_ok l;
  eo_requests : total ue_Requests l <= max_int64;
  eo_tokens : total ue_Tokens l <= max_int64;
  eo_cost : total ue_CostMicroUSD l <= max_int64;
  eo_unpriced : total ue_Unpriced l <= max_int64
}.

(** ** Reference definitions *)

(** The mathematical usage of a list of events, without wrap-around *)
Definition over_limit (w : windowState) (l : list usageEvent) : Prop :=
  (0 < ws_maxRequests w <= total ue_Requests l) \/
  (0 < ws_maxTokens w <= total ue_Tokens l) \/
  (0 < ws_maxCostMicroUSD w <= total ue_CostMicroUSD l).

(** The events a window still counts at [now] *)
Definition live_events (w : windowState) (now : Time) (l : list usageEvent) : list usageEvent :=
  if ws_reset w == "fixed" then filter (fun e => (bounds (ws_fixed w) now).1 <= ue_At e) l
  else filter (fun e => now - ws_duration w < ue_At e) l.

(** ** Lemmas on totals *)

Lemma total_cons f e l : total f (e :: l) = f e + total f l.
Proof. done. Qed.

Lemma total_app f l k : total f (l ++ k) = total f l + total f k.
Proof. unfold total. induction l as [|e l IH]; cbn; lia. Qed.

Lemma total_nonneg f l : Forall (fun e => 0 <= f e) l -> 0 <= total f l.
Proof. induction 1; rewrite ?total_cons; [done|lia]. Qed.

Lemma event_ok_all l : Forall event_ok l ->
  Forall (fun e => 0 <= ue_Requests e) l /\ Forall (fun e => 0 <= ue_Tokens e) l /\
  Forall (fun e => 0 <= ue_CostMicroUSD e) l /\ Forall (fun e => 0 <= ue_Unpriced e) l.
Proof. intros H. repeat split; (eapply Forall_impl; [exact H|]); intros e; unfold event_ok; tauto. Qed.

Lemma events_ok_app l k : events_ok (l ++ k) -> events_ok l /\ events_ok k.
Proof.
  intros [Hs Hn Hr Ht Hc Hu]. rewrite !total_app in *.
  apply Forall_app in Hn as [Hl Hk].
  pose proof (event_ok_all l Hl) as (?%total_nonneg & ?%total_nonneg & ?%total_nonneg & ?%total_nonneg).
  pose proof (event_ok_all k Hk) as (?%total_nonneg & ?%total_nonneg & ?%total_nonneg & ?%total_nonneg).
  unfold events_sorted in *.
  split; split; try done; try lia.
  - by eapply StronglySorted_app_1_l.
  - by eapply StronglySorted_app_1_r.
Qed.

(** Without overflow the wrapping sums are the totals. *)
Lemma foldl_add_event l r t c n :
  Forall event_ok l ->
  0 <= r -> 0 <= t -> 0 <= c -> 0 <= n ->
  r + total ue_Requests l <= max_int64 -> t + total ue_Tokens l <= max_int64 ->
  c + total ue_CostMicroUSD l <= max_int64 -> n + total ue_Unpriced l <= max_int64 ->
  foldl add_event (r, t, c, n) l =
  (r + total ue_Requests l, t + total ue_Tokens l, c + total ue_CostMicroUSD l,
   n + total ue_Unpriced l).
Proof.
  intros Hl. revert r t c n. induction Hl as [|e l He Hl IH]; intros r t c n Hr Ht Hc Hn Br Bt Bc Bn.
  - cbn. by rewrite !Z.add_0_r.
  - pose proof (event_ok_all l Hl) as (?%total_nonneg & ?%total_nonneg & ?%total_nonneg & ?%total_nonneg).
    destruct He as (?&?&?&?). cbn [foldl]. rewrite !total_cons in *.
    unfold add_event at 2. rewrite !i64_id by (unfold in_i64, min_int64, max_int64 in *; lia).
    rewrite IH by lia. f_equal; [f_equal; [f_equal|]|]; lia.
Qed.

Lemma usage_total w : events_ok (ws_events w) ->
  usage w = (total ue_Requests (ws_events w), total ue_Tokens (ws_events w),
             total ue_CostMicroUSD (ws_events w), total ue_Unpriced (ws_events w)).
Proof. intros [_ Hn Hr Ht Hc Hu]. unfold usage. by rewrite foldl_add_event. Qed.

Lemma limited_by_true m u : limited_by m u = true <-> 0 < m <= u.
Proof. unfold limited_by. rewrite andb_true_iff, Z.ltb_lt, Z.leb_le. tauto. Qed.

Lemma limited_by_false m u : limited_by m u = false <-> ~ (0 < m <= u).
Proof. rewrite <- limited_by_true. by destruct (limited_by m u). Qed.

Lemma retryAfter_limited w now : events_ok (ws_events w) ->
  (retryAfter w now).2 = true <-> over_limit w (ws_events w).
Proof.
  intros Hok. unfold retryAfter, over_limit. rewrite usage_total by done.
  rewrite <- !limited_by_true.
  destruct (limited_by (ws_maxRequests w) _), (limited_by (ws_maxTokens w) _),
    (limited_by (ws_maxCostMicroUSD w) _); cbn;
    repeat case_match; cbn; intuition congruence.
Qed.

(** A window without events is never limited, so [retryAfter] never indexes an empty
    slice. *)
Lemma retryAfter_nonempty w now : (retryAfter w now).2 = true -> ws_events w <> [].
Proof.
  intros H E. revert H. unfold retryAfter, usage. rewrite E. cbn.
  assert (forall m, limited_by m 0 = false) as Hl
    by (intros m; apply limited_by_false; lia).
  by rewrite !Hl.
Qed.

(** ** Lemmas on discarding *)

Lemma drop_while_split f l :
  exists d, l = d ++ drop_while f l /\ Forall (fun e => f e = true) d.
Proof.
  induction l as [|e l (d & Hl & Hd)]; [by exists []|]. cbn.
  destruct (f e) eqn:Hf; [|by exists []].
  exists (e :: d). cbn. rewrite <- Hl. auto.
Qed.

(** On events in order of time, discarding from the front is filtering. *)
Lemma drop_while_filter f (P : usageEvent -> Prop) `{!forall e, Decision (P e)} l :
  events_sorted l ->
  (forall e, f e = true <-> ~ P e) ->
  (forall e e', ue_At e <= ue_At e' -> P e -> P e') ->
  drop_while f l = filter P l.
Proof.
  intros Hs Hf Hmono. induction Hs as [|e l Hs IH Hall]; [done|]. cbn [drop_while].
  destruct (f e) eqn:He.
  - rewrite filter_cons_False by (by apply Hf). done.
  - assert (P e) as HP.
    { destruct (decide (P e)) as [|Hn]; [done|]. apply Hf in Hn. congruence. }
    rewrite filter_cons_True by done. f_equal. symmetry. clear IH Hs.
    induction Hall as [|e' l He' Hall IH]; [done|].
    rewrite filter_cons_True by eauto. by f_equal.
Qed.

Lemma events_sorted_filter (P : usageEvent -> Prop) `{!forall e, Decision (P e)} l :
  events_sorted l -> events_sorted (filter P l).
Proof.
  unfold events_sorted. induction 1 as [|e l Hs IH Hall]; [constructor|].
  destruct (decide (P e)).
  - rewrite filter_cons_True by done. constructor; [done|].
    rewrite Forall_forall in *. intros e' [_ ?]%list_elem_of_filter. auto.
  - by rewrite filter_cons_False.
Qed.

Lemma drop_while_ok f l : events_ok l -> events_ok (drop_while f l).
Proof.
  intros Hok. destruct (drop_while_split f l) as (d & Hl & _).
  rewrite Hl in Hok. by apply events_ok_app in Hok as [_ ?].
Qed.

Lemma window_rollover_ok w now :
  events_ok (ws_events w) -> events_ok (ws_events (window_rollover w now)).
Proof. unfold window_rollover. destruct (_ == _); apply drop_while_ok. Qed.

Lemma window_rollover_events w now :
  events_ok (ws_events w) ->
  ws_events (window_rollover w now) = live_events w now (ws_events w).
Proof.
  intros [Hs _ _ _ _ _]. unfold window_rollover, live_events.
  destruct (ws_reset w == "fixed"); cbn [with_events discardBefore discardThrough ws_events].
  - apply drop_while_filter; [done|..].
    + intros e. unfold Before. rewrite Z.ltb_lt. lia.
    + lia.
  - apply drop_while_filter; [done|..].
    + intros e. unfold After, Add. rewrite negb_true_iff, Z.ltb_ge. lia.
    + lia.
Qed.

(** Rolling over changes the events only. *)
Lemma window_rollover_with w now :
  window_rollover w now = with_events w (ws_events (window_rollover w now)).
Proof. unfold window_rollover. by destruct (_ == _). Qed.

Lemma with_events_id w : with_events w (ws_events w) = w.
Proof. by destruct w. Qed.

Lemma with_events_twice w l k : with_events (with_events w l) k = with_events w k.
Proof. done. Qed.

Lemma live_events_idem w now l : live_events w now (live_events w now l) = live_events w now l.
Proof.
  unfold live_events.
  destruct (_ == _); rewrite list_filter_filter; apply list_filter_iff; tauto.
Qed.

Lemma live_events_with w k now l : live_events (with_events w k) now l = live_events w now l.
Proof. done. Qed.

Lemma window_rollover_idem w now :
  events_ok (ws_events w) ->
  window_rollover (window_rollover w now) now = window_rollover w now.
Proof.
  intros Hok. rewrite window_rollover_with.
  rewrite window_rollover_events by (by apply window_rollover_ok).
  rewrite (window_rollover_with w now), live_events_with, window_rollover_events by done.
  cbn [ws_events with_events]. by rewrite live_events_idem.
Qed.

(** ** Lemmas on retry times *)

Definition meets (need u : Z * Z * Z) : Prop :=
  need.1.1 <= u.1.1 /\ need.1.2 <= u.1.2 /\ need.2 <= u.2.

Definition totals (l : list usageEvent) : Z * Z * Z :=
  (total ue_Requests l, total ue_Tokens l, total ue_CostMicroUSD l).

Lemma first_freeing_step need pre e l :
  events_ok (pre ++ e :: l) ->
  first_freeing need (totals pre) (e :: l) =
  if decide (meets need (totals (pre ++ [e]))) then Some e
  else first_freeing need (totals (pre ++ [e])) l.
Proof.
  intros Hok. pose proof Hok as [_ Hn _ _ _ _].
  rewrite cons_middle, app_assoc in Hok. apply events_ok_app in Hok as [[_ Hp Hr Ht Hc _] _].
  pose proof (event_ok_all _ Hp) as (?%total_nonneg & ?%total_nonneg & ?%total_nonneg & _).
  destruct need as [[nr nt] nc]. unfold totals in *. rewrite !total_app in *. cbn in *.
  rewrite !Z.add_0_r in *. rewrite !i64_id by (unfold in_i64, min_int64, max_int64 in *; lia).
  unfold meets. cbn.
  destruct (decide _) as [(?&?&?)|Hno].
  - by replace (_ && _ && _) with true by lia.
  - replace (_ && _ && _) with false; [done|]. symmetry. apply not_true_iff_false. lia.
Qed.

Lemma first_freeing_Some need pre l e :
  events_ok (pre ++ l) -> first_freeing need (totals pre) l = Some e ->
  exists l1 l2, l = l1 ++ e :: l2 /\ meets need (totals (pre ++ l1 ++ [e])) /\
    forall d k, l1 = d ++ k -> d <> [] -> ~ meets need (totals (pre ++ d)).
Proof.
  revert pre. induction l as [|f l IH]; intros pre Hok H; [done|].
  rewrite first_freeing_step in H by done. destruct (decide _) as [Hm|Hm].
  - simplify_eq. exists [], l. split; [done|]. split; [done|].
    intros d k Hdk Hd. by destruct d.
  - rewrite cons_middle, app_assoc in Hok.
    destruct (IH _ Hok H) as (l1 & l2 & -> & Hm' & Hmin).
    exists (f :: l1), l2. split; [done|]. rewrite <- app_assoc in Hm'. split; [done|].
    intros [|f' d] k Hdk Hd; [done|]. cbn in Hdk. simplify_eq.
    destruct d as [|g d]; [done|].
    rewrite cons_middle, app_assoc. by apply (Hmin _ k).
Qed.

Lemma first_freeing_None need pre l :
  events_ok (pre ++ l) -> l <> [] -> first_freeing need (totals pre) l = None ->
  ~ meets need (totals (pre ++ l)).
Proof.
  revert pre. induction l as [|f l IH]; intros pre Hok Hl H; [done|].
  rewrite first_freeing_step in H by done. destruct (decide _) as [Hm|Hm]; [done|].
  rewrite cons_middle, app_assoc in Hok |- *. destruct l as [|g l]; [by rewrite app_nil_r|].
  by apply IH.
Qed.

(** What must be removed for the window to be under its limits again *)
Definition needed (w : windowState) : Z * Z * Z :=
  let need m u := if limited_by m u then u - m + 1 else 0 in
  let '(r, t, c) := totals (ws_events w) in
  (need (ws_maxRequests w) r, need (ws_maxTokens w) t, need (ws_maxCostMicroUSD w) c).

(** Removing a prefix puts the window under its limits exactly when the prefix has
    what is needed. *)
Lemma meets_needed w d k :
  events_ok (ws_events w) -> ws_events w = d ++ k ->
  meets (needed w) (totals d) <-> ~ over_limit w k.
Proof.
  intros Hok He. unfold needed, meets, over_limit, totals. rewrite He in *. rewrite !total_app.
  apply events_ok_app in Hok as [[_ Hd _ _ _ _] _].
  pose proof (event_ok_all _ Hd) as (?%total_nonneg & ?%total_nonneg & ?%total_nonneg & _). cbn.
  unfold limited_by.
  repeat match goal with
  | |- context [(0 <? ?m) && (?m <=? ?u)] =>
      destruct (Z.ltb_spec 0 m); destruct (Z.leb_spec m u); cbn
  end; lia.
Qed.

Lemma need_no_wrap m u : u <= max_int64 ->
  (if limited_by m u then i64 (i64 (u - m) + 1) else 0) =
  (if limited_by m u then u - m + 1 else 0).
Proof.
  intros Hu. destruct (limited_by m u) eqn:E; [|done]. apply limited_by_true in E.
  rewrite (i64_id (u - m)), i64_id; unfold in_i64, min_int64, max_int64 in *; lia.
Qed.

(** The rolling branch of [retryAfter], in terms of totals *)
Lemma retryAfter_rolling w now :
  events_ok (ws_events w) -> ws_reset w <> "fixed" -> over_limit w (ws_events w) ->
  exists l1 e l2, ws_events w = l1 ++ e :: l2 /\
    retryAfter w now = (ue_At e + ws_duration w, true) /\
    meets (needed w) (totals (l1 ++ [e])) /\
    forall d k, l1 = d ++ k -> ~ meets (needed w) (totals d).
Proof.
  intros Hok Hr Hover.
  assert (~ meets (needed w) (totals [])) as Hnone
    by (rewrite (meets_needed w [] (ws_events w)) by done; tauto).
  assert (meets (needed w) (totals (ws_events w))) as Hall.
  { apply (meets_needed w (ws_events w) []); [done|by rewrite app_nil_r|].
    unfold over_limit, total. cbn. lia. }
  assert (ws_events w <> []) as Hne by (intros E; rewrite E in Hall; tauto).
  destruct (first_freeing (needed w) (totals []) (ws_events w)) as [e|] eqn:Hff.
  2: { by apply (first_freeing_None _ []) in Hff. }
  destruct (first_freeing_Some _ [] _ _ Hok Hff) as (l1 & l2 & Hl & Hm & Hmin).
  exists l1, e, l2. split; [done|]. split; [|split; [done|]].
  2: { intros [|f d] k Hdk; [done|]. by apply (Hmin _ k). }
  pose proof (proj2 (retryAfter_limited w now Hok) Hover) as Hlim. revert Hlim.
  unfold retryAfter. rewrite usage_total by done. apply String.eqb_neq in Hr. rewrite Hr.
  destruct (negb _ && _ && _); [done|]. intros _.
  unfold needed, totals in Hff. cbn [total foldr] in Hff.
  pose proof Hok as [_ Hn Br Bt Bc _].
  pose proof (event_ok_all _ Hn) as (?%total_nonneg & ?%total_nonneg & ?%total_nonneg & _).
  rewrite !need_no_wrap by done.
  by rewrite Hff.
Qed.

(** ** Lemmas on rolling windows *)

(** What a rollover discards and what it keeps *)
Lemma rollover_split w t :
  events_ok (ws_events w) -> ws_reset w = "rolling" ->
  exists d, ws_events w = d ++ ws_events (window_rollover w t) /\
    Forall (fun e => ue_At e + ws_duration w <= t) d /\
    Forall (fun e => t < ue_At e + ws_duration w) (ws_events (window_rollover w t)).
Proof.
  intros Hok Hr.
  assert (Forall (fun e => t < ue_At e + ws_duration w) (ws_events (window_rollover w t))) as Hrest.
  { rewrite window_rollover_events by done. unfold live_events. rewrite Hr.
    apply Forall_forall. intros e He. apply list_elem_of_filter in He as [? _]. lia. }
  destruct (drop_while_split (fun e => negb (After (ue_At e) (Add t (- ws_duration w)))) (ws_events w))
    as (d & Hd & Hall).
  exists d. split; [|split; [|done]].
  - unfold window_rollover. by rewrite Hr.
  - eapply Forall_impl; [exact Hall|]. cbn. intros e He. unfold After, Add in He. breflect. lia.
Qed.

(** Whether a window is exhausted after a rollover depends on what was discarded. *)
Lemma limited_after w t d :
  events_ok (ws_events w) -> ws_events w = d ++ ws_events (window_rollover w t) ->
  (retryAfter (window_rollover w t) t).2 = true <-> ~ meets (needed w) (totals d).
Proof.
  intros Hok Hd. rewrite retryAfter_limited by (by apply window_rollover_ok).
  rewrite (meets_needed w d _ Hok Hd), (window_rollover_with w t).
  unfold over_limit. cbn [ws_maxRequests ws_maxTokens ws_maxCostMicroUSD ws_events with_events].
  lia.
Qed.

Lemma meets_more need d k :
  events_ok (d ++ k) -> meets need (totals d) -> meets need (totals (d ++ k)).
Proof.
  intros [[_ Hk]%events_ok_app]%(fun H => conj H I) (?&?&?). destruct Hk as [_ Hk _ _ _ _].
  pose proof (event_ok_all _ Hk) as (?%total_nonneg & ?%total_nonneg & ?%total_nonneg & _).
  unfold meets, totals in *. rewrite !total_app. cbn in *. lia.
Qed.

(** A window that holds live events only *)
Definition all_live (w : windowState) (now : Time) : Prop :=
  Forall (fun e => now < ue_At e + ws_duration w) (ws_events w).

Lemma window_rollover_live w now :
  events_ok (ws_events w) -> ws_reset w = "rolling" -> all_live (window_rollover w now) now.
Proof.
  intros Hok Hr. destruct (rollover_split w now Hok Hr) as (_ & _ & _ & Hlive).
  unfold all_live. by rewrite (window_rollover_with w now) in Hlive |- *.
Qed.

(** When an exhausted rolling window is under its limits again *)
Lemma rolling_limited_until w now t t' :
  events_ok (ws_events w) -> ws_reset w = "rolling" -> all_live w now ->
  retryAfter w now = (t, true) -> now <= t' ->
  (retryAfter (window_rollover w t') t').2 = true <-> t' < t.
Proof.
  intros Hok Hr Hlive Hret Ht'.
  assert (Hover : over_limit w (ws_events w))
    by (apply (retryAfter_limited w now); [done|by rewrite Hret]).
  destruct (retryAfter_rolling w now) as (l1 & e & l2 & Hl & Hret' & Hm & Hmin);
    [done|by rewrite Hr|done|]. rewrite Hret in Hret'. simplify_eq.
  destruct (rollover_split w t' Hok Hr) as (d & Hd & Hold & Hnew).
  rewrite (limited_after w t' d Hok Hd). pose proof Hd as Hd'. rewrite Hl in Hd'.
  rewrite Forall_forall in Hold, Hnew.
  destruct (app_split_at _ _ _ _ _ Hd') as [(k & Hk & Hin)|(k & Hk & Hin)].
  - specialize (Hnew e Hin). split; [lia|]. intros _. by apply (Hmin d k).
  - specialize (Hold e Hin). split; [|lia]. intros Hn. destruct Hn.
    rewrite Hd in Hok. apply events_ok_app in Hok as [Hokd _].
    rewrite Hk, app_assoc in Hokd |- *. by apply meets_more.
Qed.

Lemma rolling_retry_later w now t :
  events_ok (ws_events w) -> ws_reset w = "rolling" -> all_live w now ->
  retryAfter w now = (t, true) -> now < t.
Proof.
  intros Hok Hr Hlive Hret.
  assert (Hover : over_limit w (ws_events w))
    by (apply (retryAfter_limited w now); [done|by rewrite Hret]).
  destruct (retryAfter_rolling w now) as (l1 & e & l2 & Hl & Hret' & _);
    [done|by rewrite Hr|done|]. rewrite Hret in Hret'. simplify_eq.
  unfold all_live in Hlive. rewrite Forall_forall in Hlive. apply Hlive. rewrite Hl. set_solver.
Qed.

Lemma window_rollover_suffix w t : exists d, ws_events w = d ++ ws_events (window_rollover w t).
Proof.
  unfold window_rollover.
  destruct (_ == _); unfold discardBefore, discardThrough; cbn [with_events ws_events];
    match goal with |- context [drop_while ?f ?l] => destruct (drop_while_split f l) as (d & Hd & _) end;
    by exists d.
Qed.

(** A window under its limits stays under them while nothing is recorded. *)
Lemma limited_mono w now t' :
  events_ok (ws_events w) ->
  (retryAfter w now).2 = false -> (retryAfter (window_rollover w t') t').2 = false.
Proof.
  intros Hok Hu. apply not_true_iff_false. rewrite <- not_true_iff_false in Hu.
  rewrite retryAfter_limited in Hu |- * by (by try apply window_rollover_ok).
  intros Ho. apply Hu. revert Ho. unfold over_limit.
  rewrite (window_rollover_with w t'). cbn [ws_maxRequests ws_maxTokens ws_maxCostMicroUSD ws_events with_events].
  destruct (window_rollover_suffix w t') as [d Hd].
  rewrite Hd in Hok |- *. rewrite !total_app. apply events_ok_app in Hok as [[_ Hn _ _ _ _] _].
  pose proof (event_ok_all _ Hn) as (?%total_nonneg & ?%total_nonneg & ?%total_nonneg & _). lia.
Qed.

(** ** Lemmas on schedules *)

Lemma floorDuration_div delta interval :
  0 < interval -> min_int64 + interval <= delta <= max_int64 ->
  floorDuration delta interval = delta / interval.
Proof.
  intros Hi Hd. unfold floorDuration.
  assert (in_i64 (Z.quot delta interval - 1)) as Hin.
  { unfold in_i64, min_int64, max_int64 in *. Z.to_euclidean_division_equations. nia. }
  rewrite (i64_id _ Hin). clear Hin.
  destruct (Z.ltb_spec delta 0); destruct (Z.eqb_spec (Z.rem delta interval) 0); cbn;
    Z.to_euclidean_division_equations; nia.
Qed.

Lemma getnum_nonneg s v r : getnum s = Some (v, r) -> 0 <= v.
Proof.
  unfold getnum. destruct (take_digits 2 0 s) as [[v' r']|] eqn:E.
  - intros [= <- <-]. by apply take_digits_nonneg in E.
  - intros H. by apply take_digits_nonneg in H.
Qed.

Lemma parseClock_range s :
  let '(h, mi, sec) := parseClock s in 0 <= h < 24 /\ 0 <= mi < 60 /\ 0 <= sec < 60.
Proof.
  unfold parseClock. destruct (parse_clock_opt s) as [[[h mi] sec]|] eqn:E; cbn; [|lia].
  unfold parse_clock_opt in E.
  apply bind_Some in E as ([h' s1] & Hh & E). apply bind_Some in E as (s2 & _ & E).
  apply bind_Some in E as ([mi' s3] & Hmi & E). apply bind_Some in E as ([sec' s4] & Hsec & E).
  case_match eqn:Hc; simplify_eq. breflect.
  apply getnum_nonneg in Hh. apply take_digits_nonneg in Hmi; [|lia].
  assert (0 <= sec); [|lia].
  destruct (count_byte ":" s =? 2)%nat; [|simplify_eq; lia].
  apply bind_Some in Hsec as (s5 & _ & Hsec). apply bind_Some in Hsec as ([v s6] & Hv & Hsec).
  simplify_eq. by apply take_digits_nonneg in Hv.
Qed.

(** Days from the current local day to the one on which a period starts *)
Definition start_offset (s : schedule) (weekly : bool) (day : Z) : Z :=
  if weekly then - ((weekday_of_day day - sc_weekday s) mod 7) else 0.

(** [civilBounds] in a zone without offset changes *)
Lemma civilBounds_fixed name off s now days weekly h mi sec :
  sc_location s = Some (fixed_zone name off) -> 0 <= sc_weekday s <= 6 ->
  parseClock (sc_clock s) = (h, mi, sec) ->
  let local := now + off * Second in
  let day := day_number local + start_offset s weekly (day_number local) in
  let first := (day * 86400 + h * 3600 + mi * 60 + sec) * Second in
  let start := if local <? first then first - days * 86400 * Second else first in
  civilBounds s now days weekly =
    (start - off * Second, start + days * 86400 * Second - off * Second).
Proof.
  intros Hloc Hwd Hclock. cbv zeta. unfold civilBounds. rewrite Hloc, Hclock.
  cbn [default from_option]. unfold id. rewrite !civil_in_fixed, !add_days_fixed, !date_in_fixed.
  destruct (civil_fields (now + off * Second)) as (_ & _ & _ & _ & Hw & _).
  set (local := now + off * Second) in *.
  assert (forall c, c = (if weekly then civil (now + - Z.rem (c_weekday (civil local) - sc_weekday s + 7) 7
             * 86400 * Second + off * Second) else civil local) ->
    date_utc (c_year c) (c_month c) (c_day c) h mi sec 0 =
    ((day_number local + start_offset s weekly (day_number local)) * 86400
      + h * 3600 + mi * 60 + sec) * Second) as Hdate.
  { intros c ->. rewrite Hw. rewrite <- (Z.add_0_r (c_day _)).
    unfold start_offset. destruct weekly; rewrite date_utc_same_day, !Z.add_0_r; [|done].
    do 4 f_equal. unfold day_number, local, weekday_of_day, Second.
    Z.to_euclidean_division_equations. lia. }
  rewrite (Hdate _ eq_refl). unfold Before. clear Hdate Hw.
  set (first := _ * Second).
  replace (now <? first - off * Second) with (local <? first) by (unfold local; lia).
  destruct (local <? first); f_equal; lia.
Qed.

Lemma start_offset_range s (weekly : bool) day : 0 <= sc_weekday s <= 6 ->
  - (if weekly then 6 else 0) <= start_offset s weekly day <= 0 /\
  (weekly = true -> weekday_of_day (day + start_offset s weekly day) = sc_weekday s).
Proof.
  intros Hwd. unfold start_offset, weekday_of_day.
  destruct weekly; split; [| |lia|done]; intros; Z.to_euclidean_division_equations; lia.
Qed.

(** ** Properties *)

(** The retry time of an exhausted rolling window is exact.  For a window just
    rolled over to [now] that is over one of its limits, the reported time is later
    than [now]; rolled over to any time from [now] on, the window is over a limit
    exactly when that time is before the reported one. *)
Theorem retryAfter_exact w0 now t :
  events_ok (ws_events w0) -> ws_reset w0 = "rolling" ->
  retryAfter (window_rollover w0 now) now = (t, true) ->
  now < t /\
  forall t', now <= t' ->
    (retryAfter (window_rollover (window_rollover w0 now) t') t').2 = true <-> t' < t.
Proof.
  intros Hok Hr Hret. pose proof (window_rollover_ok w0 now Hok).
  pose proof (window_rollover_live w0 now Hok Hr).
  assert (ws_reset (window_rollover w0 now) = "rolling") by (by rewrite window_rollover_with).
  split; [by eapply rolling_retry_later|]. intros t' Ht'. by eapply rolling_limited_until.
Qed.

(** An interval schedule's period contains the current time.  When the time
    since the anchor fits in a duration, the period returned starts at the anchor
    plus a multiple of the duration, lasts one duration, and contains [now]. *)
Theorem interval_bounds_contain s now :
  sc_period s <> "daily" -> sc_period s <> "weekly" -> 0 < sc_duration s ->
  let anchor := if IsZero (sc_anchor s) then unix_epoch else sc_anchor s in
  min_int64 + sc_duration s <= now - anchor <= max_int64 ->
  let '(start, stop) := bounds s now in
  start <= now < stop /\ stop = start + sc_duration s /\
  (start - anchor) mod sc_duration s = 0.
Proof.
  intros Hd Hw Hpos anchor Hr. apply String.eqb_neq in Hd, Hw. unfold bounds. rewrite Hd, Hw.
  destruct (Z.leb_spec (sc_duration s) 0); [lia|]. fold anchor. clearbody anchor.
  assert (Sub now anchor = now - anchor) as ->
    by (unfold Sub, min_int64, max_int64 in *; lia).
  rewrite floorDuration_div by done.
  pose proof (Z.div_mod (now - anchor) (sc_duration s)) as Hdm.
  pose proof (Z.mod_pos_bound (now - anchor) (sc_duration s) Hpos) as Hmp.
  rewrite i64_id by (unfold in_i64, min_int64, max_int64 in *; lia).
  unfold Add. split; [lia|]. split; [done|].
  replace (anchor + _ - anchor) with ((now - anchor) / sc_duration s * sc_duration s) by lia.
  apply Z.mod_mul. lia.
Qed.

(** C40: a daily or weekly schedule's period contains the current time.  In a zone
    without offset changes, the period [civilBounds] returns starts at the configured
    clock reading (for a weekly schedule, on the configured weekday), lasts one day or
    seven days, and contains [now]. *)
Theorem civilBounds_contain name off s now (weekly : bool) :
  sc_location s = Some (fixed_zone name off) -> 0 <= sc_weekday s <= 6 ->
  let days := if weekly then 7 else 1 in
  let '(start, stop) := civilBounds s now days weekly in
  let c := civil_in (fixed_zone name off) start in
  start <= now < stop /\ stop = start + days * 24 * Hour /\
  (c_hour c, c_min c, c_sec c) = parseClock (sc_clock s) /\ c_nsec c = 0 /\
  (weekly = true -> c_weekday c = sc_weekday s).
Proof.
  intros Hloc Hwd days.
  pose proof (parseClock_range (sc_clock s)) as Hclock.
  destruct (parseClock (sc_clock s)) as [[h mi] sec] eqn:Hp. destruct Hclock as (Hh & Hmi & Hsec).
  rewrite (civilBounds_fixed name off s now days weekly h mi sec) by done. cbv zeta.
  set (local := now + off * Second).
  destruct (start_offset_range s weekly (day_number local) Hwd) as [Hk Hk'].
  set (k := start_offset s weekly (day_number local)) in *.
  assert (Hlocal : 0 <= local - day_number local * 86400 * Second < 86400 * Second).
  { unfold day_number. clear. unfold Second. Z.to_euclidean_division_equations. lia. }
  rewrite civil_in_fixed, Z.sub_add.
  set (D := if local <? ((day_number local + k) * 86400 + h * 3600 + mi * 60 + sec) * Second
            then day_number local + k - days else day_number local + k).
  set (start := if _ <? _ then _ else _).
  assert (Hstart : start = (D * 86400 + h * 3600 + mi * 60 + sec) * Second)
    by (subst start D; destruct (_ <? _); lia).
  rewrite Hstart.
  destruct (civil_of_clock D h mi sec Hh Hmi Hsec) as (-> & -> & -> & -> & HD).
  destruct (civil_fields ((D * 86400 + h * 3600 + mi * 60 + sec) * Second)) as (_ & _ & _ & _ & -> & _).
  rewrite HD. clear HD Hstart start Hp. split; [|split; [|split; [done|split; [done|]]]].
  - subst D days. unfold Second in *.
    destruct (Z.ltb_spec local (((day_number local + k) * 86400 + h * 3600 + mi * 60 + sec) * 1000000000));
      destruct weekly; lia.
  - unfold Hour, Minute, Second. lia.
  - intros ->. rewrite <- Hk' by done. subst D days. unfold weekday_of_day.
    destruct (_ <? _); [|done]. Z.to_euclidean_division_equations. lia.
Qed.

(** ** Witnesses *)

Definition witness_window : windowState :=
  mkWindowState "burst" "burst" "rolling" (10 * Second) zero_schedule 3 0 0
    [mkUsageEvent (100 * Second) 1 0 0 0; mkUsageEvent (102 * Second) 2 0 0 0;
     mkUsageEvent (104 * Second) 1 0 0 0].

Lemma witness_window_ok : events_ok (ws_events witness_window).
Proof.
  split; [|repeat constructor; cbn; lia|cbn; unfold max_int64; lia..].
  repeat constructor; unfold Second; cbn; lia.
Qed.

Lemma retryAfter_exact_witness :
  let w := window_rollover witness_window (105 * Second) in
  retryAfter w (105 * Second) = (112 * Second, true) /\
  105 * Second < 112 * Second /\
  forall t', 105 * Second <= t' ->
    (retryAfter (window_rollover w t') t').2 = true <-> t' < 112 * Second.
Proof.
  split; [by vm_compute|].
  apply (retryAfter_exact witness_window); [apply witness_window_ok|done|by vm_compute].
Defined.

Definition witness_interval : schedule := mkSchedule "interval" (5 * Hour) zero_time "" (Some UTC) 0.

Lemma interval_bounds_contain_witness :
  let now := unix_epoch + 12 * Hour in
  bounds witness_interval now = (unix_epoch + 10 * Hour, unix_epoch + 15 * Hour) /\
  (unix_epoch + 10 * Hour <= now < unix_epoch + 15 * Hour) /\
  unix_epoch + 15 * Hour = unix_epoch + 10 * Hour + 5 * Hour /\
  (unix_epoch + 10 * Hour - unix_epoch) mod (5 * Hour) = 0.
Proof.
  split; [by vm_compute|].
  apply (interval_bounds_contain witness_interval (unix_epoch + 12 * Hour));
    [done|done|by vm_compute|by vm_compute].
Defined.

(** Mondays at 09:30 in a zone two hours ahead; 1970-01-01 was a Thursday. *)
Definition witness_weekly : schedule :=
  mkSchedule "weekly" 0 zero_time "09:30" (Some (fixed_zone "EET" 7200)) 1.

Lemma civilBounds_contain_witness :
  let '(start, stop) := civilBounds witness_weekly unix_epoch 7 true in
  format_rfc3339nano start = "1969-12-29T07:30:00Z" /\
  start <= unix_epoch < stop /\ stop = start + 7 * 24 * Hour /\
  (let c := civil_in (fixed_zone "EET" 7200) start in
   (c_hour c, c_min c, c_sec c) = parseClock "09:30" /\ c_nsec c = 0 /\
   (true = true -> c_weekday c = 1)).
Proof.
  split; [by vm_compute|].
  assert (0 <= sc_weekday witness_weekly <= 6) as Hwd by (cbn; lia).
  apply (civilBounds_contain "EET" 7200 witness_weekly unix_epoch true eq_refl Hwd).
Defined.
