(* ===== verification/QuotaTracker.v ===== *)
(** * Quota tracker

    Models [internal/quota/tracker.go]: the subjects (outbounds or clients) a tracker
    keeps, the guard before an attempt, the recording of usage and of upstream quota
    errors, snapshots, persistence and reconfiguration.

    A tracker is an [option Tracker] ([None] is the nil pointer).  Every method holds
    the tracker's mutex, so it is one atomic step; it takes the reading [now] of the
    tracker's clock and returns its result with the new tracker.  A Go map of
    subjects is a [gmap]: the code's loops over it treat each subject alone, and
    [snapshot] sorts what it collects. *)

From S2P Require Import Prelude GoStrings GoTime GoTimeFacts GoStrconv ConfigTypes Money QuotaWindow.

(** ** Data *)

Definition StateAvailable := "available".
Definition StateLimited := "limited".
Definition StateCooldown := "cooldown".

Record OutboundConfig := mkOutboundConfig {
  oc_Name : string;
  oc_Windows : list WindowConfig;
  oc_Cooldown : Duration;
  oc_ProbeInterval : Duration;
  oc_ResetAll : ResetAllConfig
}.

Record ClientConfig := mkClientConfig {
  cc_Name : string;
  cc_Inbound : string;
  cc_Windows : list WindowConfig
}.

(** The [any] of [BlockingWindow]: an [int] or the text of a [json.Number] *)
Inductive amount :=
| AInt (n : Z)
| ANumber (text : string).

Record BlockingWindow := mkBlockingWindow {
  bw_Window : string;
  bw_Type : string;
  bw_Limit : amount;
  bw_Used : amount;
  bw_Unit : string;
  bw_RetryAfter : string
}.

Record Decision := mkDecision {
  d_Allowed : bool;
  d_Reason : string;
  d_Probe : bool;
  d_RetryAfter : Time;
  d_BlockingWindows : list BlockingWindow
}.
Definition allowed : Decision := mkDecision true "" false zero_time [].

Record subjectState := mkSubjectState {
  sub_name : string;
  sub_inbound : string;
  sub_windows : list windowState;
  sub_cooldown : Duration;
  sub_probeInterval : Duration;
  sub_resetAll : schedule;
  sub_cooldownUntil : Time;
  sub_nextProbeAt : Time;
  sub_lastQuotaExceededAt : Time;
  sub_lastSuccessAt : Time;
  sub_probeInFlight : bool
}.

Record Tracker := mkTracker {
  tr_client : bool;
  tr_subjects : gmap string subjectState
}.

Record SnapshotWindow := mkSnapshotWindow {
  sw_Name : string; sw_Type : string; sw_Reset : string;
  sw_FixedPeriod : string; sw_Duration : string;
  sw_MaxRequests : Z; sw_UsedRequests : Z; sw_RemainingRequests : Z;
  sw_MaxTokens : Z; sw_UsedTokens : Z; sw_RemainingTokens : Z;
  sw_MaxCostUSD : string; sw_UsedCostUSD : string; sw_RemainingCostUSD : string;
  sw_UnpricedCount : Z; sw_Warning : string; sw_ResetAt : string;
  sw_Limit : Z; sw_Used : Z; sw_Remaining : Z
}.

Record SnapshotItem := mkSnapshotItem {
  si_Outbound : string; si_Client : string; si_Inbound : string;
  si_Enabled : bool; si_State : string;
  si_CooldownUntil : string; si_NextProbeAt : string;
  si_LastQuotaExceededAt : string; si_LastSuccessAt : string;
  si_Windows : list SnapshotWindow
}.

Record PersistedEvent := mkPersistedEvent {
  pe_At : string;
  pe_Requests : Z;
  pe_Tokens : Z;
  pe_CostMicroUSD : Z;
  pe_Unpriced : Z
}.

Record PersistedWindowState := mkPersistedWindowState {
  pw_Type : string;
  pw_Reset : string;
  pw_Duration : string;
  pw_FixedPeriod : string;
  pw_Schedule : string;
  pw_Events : list PersistedEvent;
  pw_legacy : bool
}.

Record PersistedSubject := mkPersistedSubject {
  ps_Name : string;
  ps_Inbound : string;
  ps_CooldownUntil : string;
  ps_NextProbeAt : string;
  ps_LastQuotaExceededAt : string;
  ps_LastSuccessAt : string;
  ps_ResetAll : string;
  ps_Windows : gmap string PersistedWindowState
}.

Record PersistedState := mkPersistedState {
  p_Version : Z;
  p_CapturedAt : string;
  p_Subjects : gmap string PersistedSubject
}.

(** ** Field updates *)

Definition set_windows (s : subjectState) (ws : list windowState) : subjectState :=
  mkSubjectState (sub_name s) (sub_inbound s) ws (sub_cooldown s) (sub_probeInterval s)
    (sub_resetAll s) (sub_cooldownUntil s) (sub_nextProbeAt s) (sub_lastQuotaExceededAt s)
    (sub_lastSuccessAt s) (sub_probeInFlight s).
Definition set_cooldown (s : subjectState) (cooldownUntil nextProbeAt : Time)
    (probeInFlight : bool) : subjectState :=
  mkSubjectState (sub_name s) (sub_inbound s) (sub_windows s) (sub_cooldown s)
    (sub_probeInterval s) (sub_resetAll s) cooldownUntil nextProbeAt
    (sub_lastQuotaExceededAt s) (sub_lastSuccessAt s) probeInFlight.
Definition set_lastSuccessAt (s : subjectState) (now : Time) : subjectState :=
  mkSubjectState (sub_name s) (sub_inbound s) (sub_windows s) (sub_cooldown s)
    (sub_probeInterval s) (sub_resetAll s) (sub_cooldownUntil s) (sub_nextProbeAt s)
    (sub_lastQuotaExceededAt s) now (sub_probeInFlight s).
Definition set_lastQuotaExceededAt (s : subjectState) (now : Time) : subjectState :=
  mkSubjectState (sub_name s) (sub_inbound s) (sub_windows s) (sub_cooldown s)
    (sub_probeInterval s) (sub_resetAll s) (sub_cooldownUntil s) (sub_nextProbeAt s)
    now (sub_lastSuccessAt s) (sub_probeInFlight s).
Definition set_probeInFlight (s : subjectState) (b : bool) : subjectState :=
  set_cooldown s (sub_cooldownUntil s) (sub_nextProbeAt s) b.

Definition append_event (e : usageEvent) (w : windowState) : windowState :=
  with_events w (ws_events w ++ [e]).

(** ** From the configuration *)

(** [strings.EqualFold(value, name)] for an ASCII [name]: letters fold to lower case,
    and the long s (U+017F) and the Kelvin sign (U+212A) fold to [s] and [k]. *)
Fixpoint fold_ascii (s : string) : string :=
  match s with
  | EmptyString => EmptyString
  | String c s1 =>
      match s1 with
      | String c2 s2 =>
          if bool_decide (c = byte 197) && bool_decide (c2 = byte 191) then
            String "s" (fold_ascii s2)
          else
            match s2 with
            | String c3 s3 =>
                if bool_decide (c = byte 226) && bool_decide (c2 = byte 132)
                     && bool_decide (c3 = byte 170) then String "k" (fold_ascii s3)
                else String (lower_ascii c) (fold_ascii s1)
            | EmptyString => String (lower_ascii c) (fold_ascii s1)
            end
      | EmptyString => String (lower_ascii c) EmptyString
      end
  end.
Definition EqualFold (value name : string) : bool := fold_ascii value == fold_ascii name.

Definition parseWeekday (value : string) : Z :=
  default 0 (find (fun day => EqualFold value (weekday_string day)) [0; 1; 2; 3; 4; 5; 6]).

Definition parseConfigTime (value : string) : Time := default zero_time (parse_rfc3339 value).

Definition resetAllFromConfig (value : QuotaResetAllConfig) : ResetAllConfig :=
  let s := qra_Schedule value in
  mkResetAllConfig (qra_Enabled value) (qrs_Period s) (DurationOf (qrs_Duration s))
    (parseConfigTime (qrs_Anchor s)) (qrs_Time s) (qrs_Timezone s) (parseWeekday (qrs_Weekday s)).

Definition clientWindowsFromConfig (windows : list QuotaWindowConfig) : list WindowConfig :=
  map (fun w => mkWindowConfig (qw_Name w) (qw_Type w) "rolling" (DurationOf (qw_Duration w))
         "" zero_time "" "" 0 (qw_MaxRequests w) (qw_MaxTokens w) (MaxCostMicroUSD w)) windows.

Definition outboundWindowsFromConfig (windows : list OutboundQuotaWindowConfig) : list WindowConfig :=
  map (fun w =>
    let reset := if oqw_Reset w == "" then "rolling" else oqw_Reset w in
    let f := oqw_Fixed w in
    mkWindowConfig (oqw_Name w) "" reset (DurationOf (oqw_Duration w)) (qf_Period f)
      (parseConfigTime (qf_Anchor f)) (qf_Time f) (qf_Timezone f) (parseWeekday (qf_Weekday f))
      (oqw_MaxRequests w) (oqw_MaxTokens w) 0) windows.

Definition outboundConfigs (outbounds : list OutboundSpec) : list OutboundConfig :=
  flat_map (fun o =>
    let q := ob_Quota o in
    if negb (oq_Enabled q) then []
    else [mkOutboundConfig (ob_Name o) (outboundWindowsFromConfig (oq_Windows q))
            (DurationOf (oq_Cooldown q)) (DurationOf (oq_ProbeInterval q))
            (resetAllFromConfig (oq_ResetAll q))]) outbounds.

Definition clientConfigs (clients : list ClientSpec) : list ClientConfig :=
  flat_map (fun c =>
    if cq_Enabled (cs_Quota c) then
      [mkClientConfig (cs_Name c) "" (clientWindowsFromConfig (cq_Windows (cs_Quota c)))]
    else []) clients.

Definition normalizeClientWindows (windows : list WindowConfig) : list WindowConfig :=
  map (fun w => if wc_Type w == "" then
    mkWindowConfig (wc_Name w) "requests" (wc_Reset w) (wc_Duration w) (wc_FixedPeriod w)
      (wc_Anchor w) (wc_Time w) (wc_Timezone w) (wc_Weekday w) (wc_MaxRequests w)
      (wc_MaxTokens w) (wc_MaxCostMicroUSD w)
    else w) windows.

(** ** Windows of a subject *)

Definition inCooldown (s : subjectState) (now : Time) : bool :=
  negb (IsZero (sub_cooldownUntil s)) && Before now (sub_cooldownUntil s).

Definition rollover (s : subjectState) (now : Time) : subjectState :=
  let windows :=
    if sc_period (sub_resetAll s) != "" then
      let start := (bounds (sub_resetAll s) now).1 in
      map (fun w => discardBefore w start) (sub_windows s)
    else sub_windows s in
  let s := set_windows s (map (fun w => window_rollover w now) windows) in
  if negb (IsZero (sub_cooldownUntil s)) && negb (Before now (sub_cooldownUntil s)) then
    set_cooldown s zero_time zero_time false
  else s.

Definition blocking_item (w : windowState) (resetAt : Time) : BlockingWindow :=
  let '(requests, tokens, costMicroUSD, _) := usage w in
  let typeName := if ws_typeName w == "" then "requests" else ws_typeName w in
  let '(limit, used, unit) :=
    if typeName == "tokens" then (AInt (ws_maxTokens w), AInt tokens, "tokens")
    else if typeName == "cost" then
      (ANumber (formatMicroUSD (ws_maxCostMicroUSD w)), ANumber (formatMicroUSD costMicroUSD), "USD")
    else (AInt (ws_maxRequests w), AInt requests, "requests") in
  mkBlockingWindow (ws_name w) typeName limit used unit (formatTime resetAt).

Definition blocking_step (now : Time) (acc : Time * list BlockingWindow) (w : windowState)
    : Time * list BlockingWindow :=
  let '(retry, blocking) := acc in
  let '(resetAt, hit) := retryAfter w now in
  if negb hit then acc
  else
    let retry := if IsZero retry || After resetAt retry then resetAt else retry in
    (retry, blocking ++ [blocking_item w resetAt]).

Definition blockingWindows (s : subjectState) (now : Time) : Time * list BlockingWindow :=
  foldl (blocking_step now) (zero_time, []) (sub_windows s).

Definition limitReached (s : subjectState) (now : Time) : Time * bool :=
  let '(retry, blocking) := blockingWindows s now in
  (retry, negb (match blocking with [] => true | _ => false end)).

(** ** The guard and the recording of usage *)

(** [if t == nil { return }; t.mu.Lock(); state := t.subjects\[name\]; if state == nil { return }] *)
Definition with_subject {A} (t : option Tracker) (name : string) (absent : A)
    (f : subjectState -> A * subjectState) : A * option Tracker :=
  match t with
  | None => (absent, None)
  | Some tr =>
      match tr_subjects tr !! name with
      | None => (absent, t)
      | Some state =>
          let '(a, state) := f state in
          (a, Some (mkTracker (tr_client tr) (<[name := state]> (tr_subjects tr))))
      end
  end.

Definition guard_subject (allowProbe : bool) (now : Time) (state : subjectState)
    : Decision * subjectState :=
  let state := rollover state now in
  if allowProbe && inCooldown state now then
    if negb (IsZero (sub_nextProbeAt state)) && negb (Before now (sub_nextProbeAt state))
         && negb (sub_probeInFlight state) then
      (mkDecision true "" true zero_time [], set_probeInFlight state true)
    else (mkDecision false StateCooldown false (sub_nextProbeAt state) [], state)
  else
    match blockingWindows state now with
    | (_, []) => (allowed, state)
    | (retry, blocking) => (mkDecision false StateLimited false retry blocking, state)
    end.

Definition beforeAttempt (t : option Tracker) (name : string) (allowProbe : bool) (now : Time)
    : Decision * option Tracker :=
  with_subject t name allowed (guard_subject allowProbe now).
Definition BeforeAttempt (t : option Tracker) (outbound : string) := beforeAttempt t outbound true.
Definition BeforeClientRequest (t : option Tracker) (client : string) := beforeAttempt t client false.

Definition record_subject (clearCooldown : bool) (tokens : Z) (now : Time) (state : subjectState)
    : subjectState :=
  let state := rollover state now in
  let state := set_windows state (map (append_event (mkUsageEvent now 1 tokens 0 0)) (sub_windows state)) in
  let state := if clearCooldown then set_cooldown state zero_time zero_time false else state in
  set_lastSuccessAt state now.
Definition recordSuccess (t : option Tracker) (name : string) (clearCooldown : bool) (tokens : Z)
    (now : Time) : option Tracker :=
  (with_subject t name tt (fun s => (tt, record_subject clearCooldown tokens now s))).2.
Definition RecordSuccess (t : option Tracker) (outbound : string) (tokens : list Z) (now : Time) :=
  recordSuccess t outbound true (foldl (fun n v => i64 (n + v)) 0 tokens) now.

(** The [switch window.typeName] of [recordClientUsage] *)
Definition counts_event (w : windowState) (e : usageEvent) : bool :=
  if ws_typeName w == "requests" then 0 <? ue_Requests e
  else if ws_typeName w == "tokens" then 0 <? ue_Tokens e
  else if ws_typeName w == "cost" then (0 <? ue_CostMicroUSD e) || (0 <? ue_Unpriced e)
  else true.
Definition record_client_subject (event : usageEvent) (now : Time) (state : subjectState)
    : subjectState :=
  let state := rollover state now in
  let event := mkUsageEvent now (ue_Requests event) (ue_Tokens event) (ue_CostMicroUSD event)
                 (ue_Unpriced event) in
  let state := set_windows state
    (map (fun w => if counts_event w event then append_event event w else w) (sub_windows state)) in
  set_lastSuccessAt state now.
Definition recordClientUsage (t : option Tracker) (name : string) (event : usageEvent) (now : Time)
    : option Tracker :=
  (with_subject t name tt (fun s => (tt, record_client_subject event now s))).2.
Definition RecordClientRequest (t : option Tracker) (client : string) (now : Time) :=
  recordClientUsage t client (mkUsageEvent zero_time 1 0 0 0) now.
Definition RecordClientTerminalUsage (t : option Tracker) (client : string) (tokens costMicroUSD : Z)
    (priced : bool) (now : Time) :=
  let event := if negb priced then mkUsageEvent zero_time 0 tokens 0 1
               else mkUsageEvent zero_time 0 tokens costMicroUSD 0 in
  recordClientUsage t client event now.

Definition exceeded_subject (now : Time) (state : subjectState) : subjectState :=
  let state := set_lastQuotaExceededAt (rollover state now) now in
  set_cooldown state (Add now (sub_cooldown state)) (Add now (sub_probeInterval state)) false.
Definition RecordQuotaExceeded (t : option Tracker) (outbound : string) (now : Time) : option Tracker :=
  (with_subject t outbound tt (fun s => (tt, exceeded_subject now s))).2.

(** ** Snapshots *)

Definition remaining (maximum used : Z) : Z :=
  if maximum =? 0 then 0
  else let value := i64 (maximum - used) in if value <? 0 then 0 else value.
Definition remaining64 := remaining.

Definition durationString (w : windowState) : string :=
  if ws_duration w <=? 0 then "" else duration_string (ws_duration w).

Definition snapshot_window (now : Time) (w : windowState) : SnapshotWindow :=
  let '(requests, tokens, costMicroUSD, unpriced) := usage w in
  let remainingRequests := remaining (ws_maxRequests w) requests in
  let resetAt :=
    if ws_reset w == "fixed" then (bounds (ws_fixed w) now).2
    else
      let '(limitedAt, limited) := retryAfter w now in
      if limited then limitedAt
      else match ws_events w with [] => zero_time | e :: _ => Add (ue_At e) (ws_duration w) end in
  mkSnapshotWindow (ws_name w) (ws_typeName w) (ws_reset w) (sc_period (ws_fixed w))
    (durationString w) (ws_maxRequests w) requests remainingRequests (ws_maxTokens w) tokens
    (remaining (ws_maxTokens w) tokens) (formatMicroUSD (ws_maxCostMicroUSD w))
    (formatMicroUSD costMicroUSD)
    (formatMicroUSD (remaining64 (ws_maxCostMicroUSD w) costMicroUSD)) unpriced
    (if 0 <? unpriced then "cost quota excludes unpriced terminal usage" else "")
    (formatTime resetAt) (ws_maxRequests w) requests remainingRequests.

Definition subject_snapshot (client : bool) (now : Time) (s : subjectState) : SnapshotItem :=
  let '(state, retry) :=
    if inCooldown s now then (StateCooldown, zero_time)
    else let '(resetAt, limited) := limitReached s now in
         if limited then (StateLimited, resetAt) else (StateAvailable, zero_time) in
  let nextProbeAt := formatTime (sub_nextProbeAt s) in
  let nextProbeAt :=
    if (state == StateLimited) && (nextProbeAt == "") then formatTime retry else nextProbeAt in
  mkSnapshotItem (if client then "" else sub_name s) (if client then sub_name s else "")
    (if client then sub_inbound s else "") true state (formatTime (sub_cooldownUntil s))
    nextProbeAt (formatTime (sub_lastQuotaExceededAt s)) (formatTime (sub_lastSuccessAt s))
    (map (snapshot_window now) (sub_windows s)).

Definition snapshot (t : option Tracker) (client : bool) (now : Time)
    : list SnapshotItem * option Tracker :=
  match t with
  | None => ([], None)
  | Some tr =>
      let subjects := (fun s => rollover s now) <$> tr_subjects tr in
      let items := map (fun p => subject_snapshot client now p.2) (map_to_list subjects) in
      (sort_by (fun a b => if client then String.ltb (si_Client a) (si_Client b)
                           else String.ltb (si_Outbound a) (si_Outbound b)) items,
       Some (mkTracker (tr_client tr) subjects))
  end.
Definition Snapshot (t : option Tracker) := snapshot t false.
Definition ClientSnapshot (t : option Tracker) := snapshot t true.

(** ** Persistence *)

Definition parsePersistedTime (value : string) : option Time :=
  if value == "" then None else parse_rfc3339 value.

Definition export_event (e : usageEvent) : PersistedEvent :=
  mkPersistedEvent (formatTime (ue_At e)) (ue_Requests e) (ue_Tokens e) (ue_CostMicroUSD e)
    (ue_Unpriced e).
Definition export_window (w : windowState) : PersistedWindowState :=
  mkPersistedWindowState (ws_typeName w) (ws_reset w) (duration_string (ws_duration w))
    (sc_period (ws_fixed w)) (scheduleKey w) (map export_event (ws_events w)) false.
Definition export_subject (s : subjectState) : PersistedSubject :=
  mkPersistedSubject (sub_name s) (sub_inbound s) (formatTime (sub_cooldownUntil s))
    (formatTime (sub_nextProbeAt s)) (formatTime (sub_lastQuotaExceededAt s))
    (formatTime (sub_lastSuccessAt s)) (key (sub_resetAll s))
    (foldl (fun m w => <[ws_name w := export_window w]> m) ∅ (sub_windows s)).

(** [wall] is the reading of the system clock a nil tracker reports. *)
Definition ExportState (t : option Tracker) (wall now : Time) : PersistedState * option Tracker :=
  match t with
  | None => (mkPersistedState 3 (formatTime wall) ∅, None)
  | Some tr =>
      let subjects := (fun s => rollover s now) <$> tr_subjects tr in
      (mkPersistedState 3 (formatTime now) (export_subject <$> subjects),
       Some (mkTracker (tr_client tr) subjects))
  end.

Definition persistedCompatible (w : windowState) (saved : PersistedWindowState) (version : Z)
    (client : bool) : bool :=
  if (version <? 2) || pw_legacy saved then
    if client && (ws_typeName w != "requests") then false
    else (ws_reset w == "rolling") &&
         ((pw_Duration saved == "") || (pw_Duration saved == duration_string (ws_duration w)))
  else if version <? 3 then
    if client && (ws_typeName w != "requests") then false
    else (pw_Reset saved == ws_reset w) && (pw_Schedule saved == scheduleKey w)
  else (pw_Type saved == ws_typeName w) && (pw_Reset saved == ws_reset w)
         && (pw_Schedule saved == scheduleKey w).

Definition import_event (e : PersistedEvent) : option usageEvent :=
  at_ ← parsePersistedTime (pe_At e);
  Some (mkUsageEvent at_ (pe_Requests e) (pe_Tokens e) (pe_CostMicroUSD e) (pe_Unpriced e)).

Definition event_before (e f : usageEvent) : bool := Before (ue_At e) (ue_At f).

Definition import_window (saved : PersistedSubject) (version : Z) (client : bool)
    (w : windowState) : windowState :=
  match ps_Windows saved !! ws_name w with
  | Some sw =>
      if persistedCompatible w sw version client then
        with_events w (sort_by event_before (omap import_event (pw_Events sw)))
      else w
  | None => w
  end.

Definition import_subject (version : Z) (client : bool) (now : Time) (saved : PersistedSubject)
    (s : subjectState) : subjectState :=
  let resetAllCompatible := (version <? 2) || (ps_ResetAll saved == key (sub_resetAll s)) in
  let s := mkSubjectState (sub_name s) (sub_inbound s)
    (if resetAllCompatible then map (import_window saved version client) (sub_windows s)
     else sub_windows s)
    (sub_cooldown s) (sub_probeInterval s) (sub_resetAll s)
    (default (sub_cooldownUntil s) (parsePersistedTime (ps_CooldownUntil saved)))
    (default (sub_nextProbeAt s) (parsePersistedTime (ps_NextProbeAt saved)))
    (default (sub_lastQuotaExceededAt s) (parsePersistedTime (ps_LastQuotaExceededAt saved)))
    (default (sub_lastSuccessAt s) (parsePersistedTime (ps_LastSuccessAt saved)))
    (sub_probeInFlight s) in
  rollover s now.

Definition ImportState (t : option Tracker) (persisted : PersistedState) (now : Time) : option Tracker :=
  match t with
  | None => None
  | Some tr =>
      Some (mkTracker (tr_client tr)
        (map_imap (fun name s => Some
           match p_Subjects persisted !! name with
           | Some saved => import_subject (p_Version persisted) (tr_client tr) now saved s
           | None => s
           end) (tr_subjects tr)))
  end.

(** ** Construction and reconfiguration *)

Section tzdb.
Context (tzdb : string -> option Location).

Definition newSubjectState (name inbound : string) (windows : list WindowConfig)
    (cooldown probeInterval : Duration) (resetAll : ResetAllConfig) : subjectState :=
  mkSubjectState name inbound (map (newWindowState tzdb) windows) cooldown probeInterval
    (newResetSchedule tzdb resetAll) zero_time zero_time zero_time zero_time false.

Definition outbound_subject (cfg : OutboundConfig) : subjectState :=
  newSubjectState (oc_Name cfg) "" (oc_Windows cfg) (oc_Cooldown cfg) (oc_ProbeInterval cfg)
    (oc_ResetAll cfg).
Definition client_subject (cfg : ClientConfig) : subjectState :=
  newSubjectState (cc_Name cfg) (cc_Inbound cfg) (normalizeClientWindows (cc_Windows cfg)) 0 0
    (mkResetAllConfig false "" 0 zero_time "" "" 0).

Definition newTrackerFromOutbounds (cfgs : list OutboundConfig) : Tracker :=
  mkTracker false (foldl (fun m cfg => <[oc_Name cfg := outbound_subject cfg]> m) ∅ cfgs).
Definition newTrackerFromClients (cfgs : list ClientConfig) : Tracker :=
  mkTracker true (foldl (fun m cfg => <[cc_Name cfg := client_subject cfg]> m) ∅ cfgs).

Definition NewTrackerFromOutbounds (outbounds : list OutboundSpec) : option Tracker :=
  match outboundConfigs outbounds with
  | [] => None
  | cfgs => Some (newTrackerFromOutbounds cfgs)
  end.
Definition NewClientTrackerFromClients (clients : list ClientSpec) : option Tracker :=
  match clientConfigs clients with
  | [] => None
  | cfgs => Some (newTrackerFromClients cfgs)
  end.

Definition hasUsage (s : subjectState) : bool :=
  existsb (fun w => match ws_events w with [] => false | _ => true end) (sub_windows s).

(** One turn of the loop over [fresh.windows]: the windows already merged, those of
    the old subject still by name, and whether usage was cleared *)
Definition merge_step (acc : list windowState * gmap string windowState * bool) (w : windowState)
    : list windowState * gmap string windowState * bool :=
  let '(merged, oldByName, cleared) := acc in
  match oldByName !! ws_name w with
  | None => (merged ++ [w], oldByName, cleared)
  | Some previous =>
      let oldByName := delete (ws_name w) oldByName in
      if compatible w previous then (merged ++ [with_events w (ws_events previous)], oldByName, cleared)
      else if (0 <? length (ws_events previous))%nat then (merged ++ [w], oldByName, true)
      else (merged ++ [w], oldByName, cleared)
  end.
Definition by_name (ws : list windowState) : gmap string windowState :=
  foldl (fun m w => <[ws_name w := w]> m) ∅ ws.
Definition mergeWindows (old fresh : subjectState) : bool * subjectState :=
  let '(merged, oldByName, cleared) :=
    foldl merge_step ([], by_name (sub_windows old), false) (sub_windows fresh) in
  (cleared || existsb (fun p => (0 <? length (ws_events p.2))%nat) (map_to_list oldByName),
   set_windows fresh merged).

(** [fresh] with the cooldown, probe and timestamps of [old] *)
Definition keep_cooldown (old fresh : subjectState) : subjectState :=
  mkSubjectState (sub_name fresh) (sub_inbound fresh) (sub_windows fresh) (sub_cooldown fresh)
    (sub_probeInterval fresh) (sub_resetAll fresh) (sub_cooldownUntil old) (sub_nextProbeAt old)
    (sub_lastQuotaExceededAt old) (sub_lastSuccessAt old) (sub_probeInFlight old).

Definition reconfigure_outbound_step (subjects : gmap string subjectState)
    (acc : bool * gmap string subjectState) (cfg : OutboundConfig) : bool * gmap string subjectState :=
  let '(changed, next) := acc in
  let fresh := outbound_subject cfg in
  let '(changed, fresh) :=
    match subjects !! oc_Name cfg with
    | None => (changed, fresh)
    | Some old =>
        let fresh := keep_cooldown old fresh in
        if key (sub_resetAll old) != key (sub_resetAll fresh) then (hasUsage old || changed, fresh)
        else let '(cleared, fresh) := mergeWindows old fresh in (cleared || changed, fresh)
    end in
  (changed, <[oc_Name cfg := fresh]> next).

Definition reconfigure_client_step (subjects : gmap string subjectState)
    (acc : bool * gmap string subjectState) (cfg : ClientConfig) : bool * gmap string subjectState :=
  let '(changed, next) := acc in
  let fresh := client_subject cfg in
  let '(changed, fresh) :=
    match subjects !! cc_Name cfg with
    | None => (changed, fresh)
    | Some old => let '(cleared, fresh) := mergeWindows old fresh in (cleared || changed, fresh)
    end in
  (changed, <[cc_Name cfg := fresh]> next).

(** The second loop: a subject that is no longer configured and had usage *)
Definition removed_usage (subjects next : gmap string subjectState) : bool :=
  existsb (fun p => match next !! p.1 with Some _ => false | None => hasUsage p.2 end)
    (map_to_list subjects).

Definition reconfigureOutbound (tr : Tracker) (cfgs : list OutboundConfig) : bool * Tracker :=
  let '(changed, next) := foldl (reconfigure_outbound_step (tr_subjects tr)) (false, ∅) cfgs in
  (removed_usage (tr_subjects tr) next || changed, mkTracker (tr_client tr) next).
Definition Reconfigure (t : option Tracker) (cfgs : list OutboundConfig) : bool * option Tracker :=
  match t with
  | None => (false, None)
  | Some tr => let '(changed, tr) := reconfigureOutbound tr cfgs in (changed, Some tr)
  end.
Definition ReconfigureOutbounds (t : option Tracker) (outbounds : list OutboundSpec) :=
  Reconfigure t (outboundConfigs outbounds).

Definition ReconfigureClients (t : option Tracker) (cfgs : list ClientConfig) : bool * option Tracker :=
  match t with
  | None => (false, None)
  | Some tr =>
      let '(changed, next) := foldl (reconfigure_client_step (tr_subjects tr)) (false, ∅) cfgs in
      (removed_usage (tr_subjects tr) next || changed, Some (mkTracker (tr_client tr) next))
  end.
Definition ReconfigureClientSpecs (t : option Tracker) (clients : list ClientSpec) :=
  ReconfigureClients t (clientConfigs clients).
End tzdb.

Example parseWeekday_1 : parseWeekday "mOnDaY" = 1 /\ parseWeekday "day" = 0.
Proof. vm_compute. done. Qed.

(** ** Invariant *)

Definition subject_ok (s : subjectState) : Prop :=
  Forall (fun w => events_ok (ws_events w)) (sub_windows s).
