(* ===== verification/QuotaTrackerFacts.v ===== *)
(** * Properties of the quota tracker

    Theorems about the definitions of [QuotaTracker]: exact retry times, the bound on
    what a client can send, probing during a cooldown, persistence and
    reconfiguration. *)

From S2P Require Import Prelude GoStrings GoTime GoTimeFacts GoStrconv ConfigTypes Money QuotaWindow QuotaTracker.

(** ** Lemmas on maps built by name *)

Lemma foldl_insert_notin {A B} (f : A -> string) (g : A -> B) (m : gmap string B) l k :
  k ∉ map f l -> foldl (fun m x => <[f x := g x]> m) m l !! k = m !! k.
Proof.
  revert m. induction l as [|x l IH]; intros m Hk; cbn in *; [done|].
  rewrite not_elem_of_cons in Hk. rewrite IH by tauto. apply lookup_insert_ne. intuition congruence.
Qed.

Lemma foldl_insert_in {A B} (f : A -> string) (g : A -> B) (m : gmap string B) l x :
  NoDup (map f l) -> x ∈ l -> foldl (fun m x => <[f x := g x]> m) m l !! f x = Some (g x).
Proof.
  revert m. induction l as [|y l IH]; intros m Hnd Hx; [by apply elem_of_nil in Hx|].
  cbn in *. apply NoDup_cons in Hnd as [Hy Hnd]. apply elem_of_cons in Hx as [->|Hx]; [|by apply IH].
  rewrite foldl_insert_notin by done. apply lookup_insert_eq.
Qed.

Lemma foldl_insert_inv {A B} (f : A -> string) (g : A -> B) l k b :
  foldl (fun m x => <[f x := g x]> m) (∅ : gmap string B) l !! k = Some b ->
  exists x, x ∈ l /\ f x = k /\ g x = b.
Proof.
  enough (forall m : gmap string B, foldl (fun m x => <[f x := g x]> m) m l !! k = Some b ->
    m !! k = Some b \/ exists x, x ∈ l /\ f x = k /\ g x = b) as H.
  { intros [E|?]%H; [by rewrite lookup_empty in E|done]. }
  induction l as [|x l IH]; intros m H; cbn in H; [by left|].
  destruct (IH _ H) as [Hm|(y & ? & ?)]; [|right; exists y; split; [by right|done]].
  destruct (decide (f x = k)) as [<-|Hne].
  - rewrite lookup_insert_eq in Hm. simplify_eq. right. exists x. split; [by left|done].
  - rewrite lookup_insert_ne in Hm by done. by left.
Qed.

Lemma by_name_inv ws k w : by_name ws !! k = Some w -> w ∈ ws /\ ws_name w = k.
Proof. intros (x & ? & ? & ->)%(foldl_insert_inv ws_name (fun w => w)). done. Qed.

(** ** Rollover of a subject *)

Lemma with_subject_Some {A} tr name s (absent : A) f :
  tr_subjects tr !! name = Some s ->
  with_subject (Some tr) name absent f =
    ((f s).1, Some (mkTracker (tr_client tr) (<[name := (f s).2]> (tr_subjects tr)))).
Proof. intros H. cbn. rewrite H. by destruct (f s). Qed.

Definition reset_windows (s : subjectState) (now : Time) : list windowState :=
  if sc_period (sub_resetAll s) != "" then
    map (fun w => discardBefore w (bounds (sub_resetAll s) now).1) (sub_windows s)
  else sub_windows s.

Lemma rollover_windows s now :
  sub_windows (rollover s now) = map (fun w => window_rollover w now) (reset_windows s now).
Proof. unfold rollover, reset_windows. by destruct (_ && _). Qed.

Lemma rollover_resetAll s now : sub_resetAll (rollover s now) = sub_resetAll s.
Proof. unfold rollover. by destruct (_ && _). Qed.

Lemma rollover_windows_plain s now :
  sc_period (sub_resetAll s) = "" ->
  sub_windows (rollover s now) = map (fun w => window_rollover w now) (sub_windows s).
Proof. intros H. rewrite rollover_windows. unfold reset_windows. by rewrite H. Qed.

Lemma reset_windows_ok s now : subject_ok s -> Forall (fun w => events_ok (ws_events w)) (reset_windows s now).
Proof.
  unfold subject_ok, reset_windows. intros H. destruct (_ != _); [|done].
  apply Forall_map. eapply Forall_impl; [exact H|]. intros w Hw. by apply drop_while_ok.
Qed.

Lemma rollover_ok s now : subject_ok s -> subject_ok (rollover s now).
Proof.
  intros H. unfold subject_ok. rewrite rollover_windows. apply Forall_map.
  eapply Forall_impl; [by apply reset_windows_ok|]. intros w. apply window_rollover_ok.
Qed.

(** ** Blocking windows *)

Definition is_limited (now : Time) (w : windowState) : bool := (retryAfter w now).2.

Lemma blocking_fold now ws r b :
  foldl (blocking_step now) (r, b) ws =
  (foldl (fun r w => if IsZero r || After (retryAfter w now).1 r then (retryAfter w now).1 else r) r
     (List.filter (is_limited now) ws),
   b ++ map (fun w => blocking_item w (retryAfter w now).1) (List.filter (is_limited now) ws)).
Proof.
  revert r b. induction ws as [|w ws IH]; intros r b; cbn [foldl List.filter];
    [by rewrite app_nil_r|].
  rewrite (surjective_pairing (blocking_step now (r, b) w)), IH.
  unfold blocking_step, is_limited. destruct (retryAfter w now) as [t [|]] eqn:E; cbn; [|done].
  by rewrite E, <- app_assoc.
Qed.

Lemma fold_retry_max (f : windowState -> Time) ws r t' :
  0 <= r -> Forall (fun w => 0 < f w) ws -> 0 <= t' ->
  t' < foldl (fun r w => if IsZero r || After (f w) r then f w else r) r ws <->
  t' < r \/ exists w, w ∈ ws /\ t' < f w.
Proof.
  intros Hr Hf Ht. revert r Hr. induction Hf as [|w ws Hw Hf IH]; intros r Hr; cbn.
  - split; [auto|]. intros [?|(w & Hin & _)]; [done|]. by apply elem_of_nil in Hin.
  - unfold IsZero, After. rewrite IH by (destruct (_ || _); lia).
    assert (t' < (if (r =? 0) || (r <? f w) then f w else r) <-> t' < r \/ t' < f w) as ->.
    { clear - Hw Hr Ht. destruct (Z.eqb_spec r 0), (Z.ltb_spec r (f w)); cbn; lia. }
    split.
    + intros [[?|?]|(w' & ? & ?)]; [by left|right; exists w; split; [by left|done]|].
      right. exists w'. split; [by right|done].
    + intros [?|(w' & [->|?]%elem_of_cons & ?)]; eauto.
Qed.

Lemma blockingWindows_none s now :
  (blockingWindows s now).2 = [] <-> Forall (fun w => is_limited now w = false) (sub_windows s).
Proof.
  unfold blockingWindows. rewrite blocking_fold. cbn.
  induction (sub_windows s) as [|w ws IH]; cbn; [done|].
  rewrite Forall_cons. destruct (is_limited now w); cbn; [by split; [|intros [? _]]|].
  rewrite IH. tauto.
Qed.

(** The guard on a subject that is not in cooldown *)
Lemma guard_subject_limits p now s :
  (p && inCooldown (rollover s now) now) = false ->
  guard_subject p now s =
    (let '(retry, blocking) := blockingWindows (rollover s now) now in
     match blocking with
     | [] => allowed
     | _ => mkDecision false StateLimited false retry blocking
     end, rollover s now).
Proof.
  intros H. unfold guard_subject. rewrite H.
  destruct (blockingWindows _ _) as [r [|]]; done.
Qed.

(** A decision with reason [StateLimited] comes from the windows. *)
Lemma guard_limited_inv p now s :
  d_Reason (guard_subject p now s).1 = StateLimited ->
  (p && inCooldown (rollover s now) now) = false.
Proof.
  unfold guard_subject. destruct (_ && _); [|done]. by destruct (_ && _).
Qed.

(** A cooldown that has ended does not come back. *)
Lemma inCooldown_later p s now t' :
  now <= t' -> (p && inCooldown (rollover s now) now) = false ->
  (p && inCooldown (rollover (rollover s now) t') t') = false.
Proof.
  intros Ht. destruct p; [cbn|done]. unfold rollover, inCooldown, IsZero, Before.
  destruct (Z.eqb_spec (sub_cooldownUntil s) 0), (Z.ltb_spec now (sub_cooldownUntil s)); cbn;
    repeat (case_match; cbn); breflect; try done; lia.
Qed.

(** ** Retry times *)

Section retry.
Context (s : subjectState) (now t' : Time).
Context (Hok : subject_ok s) (Hr : Forall (fun w => ws_reset w = "rolling") (sub_windows s)).
Context (Hp : sc_period (sub_resetAll s) = "").

Lemma rolled_windows w :
  w ∈ sub_windows (rollover s now) ->
  events_ok (ws_events w) /\ ws_reset w = "rolling" /\ all_live w now.
Proof.
  rewrite rollover_windows_plain by done. intros (w0 & -> & Hin)%list_elem_of_fmap.
  unfold subject_ok in Hok. rewrite Forall_forall in Hok, Hr.
  split; [by apply window_rollover_ok, Hok|]. split; [rewrite window_rollover_with; cbn; by apply Hr|].
  apply window_rollover_live; auto.
Qed.

(** Which windows of the subject are over a limit at a later time *)
Lemma rolled_limited w :
  now <= t' -> w ∈ sub_windows (rollover s now) ->
  is_limited t' (window_rollover w t') = true <->
  is_limited now w = true /\ t' < (retryAfter w now).1.
Proof.
  intros Ht Hin. destruct (rolled_windows w Hin) as (Hokw & Hrw & Hlw). unfold is_limited.
  destruct (retryAfter w now) as [t [|]] eqn:E; cbn.
  - rewrite (rolling_limited_until w now t t') by done. tauto.
  - rewrite (limited_mono w now t') by (by try rewrite E). intuition congruence.
Qed.

Lemma blocking_until :
  0 <= now -> now <= t' ->
  (blockingWindows (rollover s now) now).2 <> [] ->
  (blockingWindows (rollover (rollover s now) t') t').2 <> [] <->
  t' < (blockingWindows (rollover s now) now).1.
Proof.
  intros H0 Ht Hne. rewrite blockingWindows_none.
  rewrite (rollover_windows_plain (rollover s now)) by (by rewrite rollover_resetAll).
  rewrite Forall_map. unfold blockingWindows. rewrite blocking_fold. cbn [fst]. unfold zero_time.
  rewrite (fold_retry_max (fun w => (retryAfter w now).1)); [|lia| |lia].
  - rewrite not_Forall_false. split.
    + intros (w & Hin & Hw). apply rolled_limited in Hw as [Hl Hlt]; [|done|done].
      right. exists w. split; [|done]. apply list_elem_of_In, filter_In. by rewrite <- list_elem_of_In.
    + intros [?|(w & Hin & Hlt)]; [lia|]. apply list_elem_of_In, filter_In in Hin as [Hin Hl].
      apply list_elem_of_In in Hin. exists w. split; [done|].
      by apply rolled_limited.
  - apply Forall_forall. intros w [Hin Hl]%list_elem_of_In%filter_In. apply list_elem_of_In in Hin.
    destruct (rolled_windows w Hin) as (Hokw & Hrw & Hlw).
    unfold is_limited in Hl. destruct (retryAfter w now) as [t b] eqn:E. cbn in *. subst b.
    pose proof (rolling_retry_later w now t Hokw Hrw Hlw E). lia.
Qed.
End retry.

(** The same on a tracker: what [beforeAttempt] leaves for the next one *)
Lemma beforeAttempt_twice tr name s p now t' :
  tr_subjects tr !! name = Some s ->
  (beforeAttempt (beforeAttempt (Some tr) name p now).2 name p t').1 =
  (guard_subject p t' (guard_subject p now s).2).1 /\
  (beforeAttempt (Some tr) name p now).1 = (guard_subject p now s).1.
Proof.
  intros Hs. unfold beforeAttempt. rewrite (with_subject_Some _ _ s) by done. cbn [fst snd].
  erewrite with_subject_Some; [done|]. cbn [tr_subjects]. apply lookup_insert_eq.
Qed.

(** ** What a client can send

    A request of a client is admitted by [BeforeClientRequest] and recorded by
    [RecordClientRequest] a little later.  [client_step] is one step of a system in which
    at most [K] requests of the client [name] are between the two: the state is the
    tracker, the number of such requests and the clock, which does not go back (the
    readings of a running process are monotonic).  The steps are all calls that
    the program makes on the tracker of its clients; a reconfiguration is any whose
    windows named [wn] that count requests of this client allow from one to [L] requests,
    and an import, which is made before the program serves, is any that brings
    at most [L + (K - 1)] requests for that window, as the export of an earlier run does.
    Steps that leave the subject of the client alone are arbitrary. *)

(** The requests the windows of a subject count: one per event *)
Definition request_event (now : Time) (e : usageEvent) : Prop :=
  ue_At e <= now /\ ue_Requests e = 1 /\ ue_Tokens e = 0 /\ ue_CostMicroUSD e = 0 /\ ue_Unpriced e = 0.

Record client_state := mkClientState {
  cl_tracker : Tracker;
  cl_inflight : Z;
  cl_now : Time
}.

(** The subject after a method, if the tracker has it *)
Lemma with_subject_lookup {A} tr name (absent a : A) f tr' s' :
  with_subject (Some tr) name absent f = (a, Some tr') ->
  tr_subjects tr' !! name = Some s' ->
  exists s, tr_subjects tr !! name = Some s /\ f s = (a, s').
Proof.
  cbn. destruct (tr_subjects tr !! name) as [s|] eqn:Hs; [|intros; simplify_eq; congruence].
  destruct (f s) as [a' s1] eqn:Hf. intros. simplify_eq. cbn [tr_subjects] in *.
  rewrite lookup_insert_eq in *. simplify_eq. eauto.
Qed.

Lemma record_method_lookup tr name g tr' s' :
  (with_subject (Some tr) name tt (fun s => (tt, g s))).2 = Some tr' ->
  tr_subjects tr' !! name = Some s' ->
  exists s, tr_subjects tr !! name = Some s /\ s' = g s.
Proof.
  intros H Hs'. destruct (with_subject_lookup tr name tt tt (fun s => (tt, g s)) tr' s')
    as (s & Hs & Hg); [|done|].
  - rewrite <- H. by destruct (with_subject _ _ _ _) as [[] ?].
  - exists s. split; [done|]. congruence.
Qed.

#[local] Instance event_before_StrictWeak : StrictWeak event_before.
Proof.
  split.
  - intros e f. unfold event_before, Before. lia.
  - intros e f g. unfold event_before, Before. lia.
Qed.

Lemma sorted_events l : sorted_by event_before l -> events_sorted l.
Proof.
  unfold sorted_by, events_sorted. induction 1 as [|e l _ IH Hall]; constructor; [done|].
  eapply Forall_impl; [exact Hall|]. intros f. unfold event_before, Before. lia.
Qed.

Section client_system.
Context (tzdb : string -> option Location) (name wn : string) (L K : Z).

Definition limits_ok (cfgs : list ClientConfig) : Prop :=
  forall cfg, cfg ∈ cfgs -> cc_Name cfg = name ->
  Forall (fun wc => wc_Name wc = wn -> wc_Type wc = "requests" -> 0 < wc_MaxRequests wc <= L)
    (normalizeClientWindows (cc_Windows cfg)).
Definition import_ok (now : Time) (p : PersistedState) : Prop :=
  forall saved sw, p_Subjects p !! name = Some saved -> ps_Windows saved !! wn = Some sw ->
  let events := omap import_event (pw_Events sw) in
  Forall (request_event now) events /\ Z.of_nat (length events) <= L + (K - 1).

Inductive client_step : client_state -> client_state -> Prop :=
| step_accept tr n now now' d tr' :
    now <= now' -> n < K ->
    BeforeClientRequest (Some tr) name now' = (d, Some tr') -> d_Allowed d = true ->
    client_step (mkClientState tr n now) (mkClientState tr' (n + 1) now')
| step_refuse tr n now now' d tr' :
    now <= now' ->
    BeforeClientRequest (Some tr) name now' = (d, Some tr') -> d_Allowed d = false ->
    client_step (mkClientState tr n now) (mkClientState tr' n now')
| step_record tr n now now' tr' :
    now <= now' -> 0 < n ->
    RecordClientRequest (Some tr) name now' = Some tr' ->
    client_step (mkClientState tr n now) (mkClientState tr' (n - 1) now')
| step_terminal tr n now now' tokens cost priced tr' :
    now <= now' ->
    RecordClientTerminalUsage (Some tr) name tokens cost priced now' = Some tr' ->
    client_step (mkClientState tr n now) (mkClientState tr' n now')
| step_snapshot tr n now now' tr' :
    now <= now' -> (ClientSnapshot (Some tr) now').2 = Some tr' ->
    client_step (mkClientState tr n now) (mkClientState tr' n now')
| step_export tr n now now' wall tr' :
    now <= now' -> (ExportState (Some tr) wall now').2 = Some tr' ->
    client_step (mkClientState tr n now) (mkClientState tr' n now')
| step_reconfigure tr n now now' cfgs tr' :
    now <= now' -> limits_ok cfgs -> (ReconfigureClients tzdb (Some tr) cfgs).2 = Some tr' ->
    client_step (mkClientState tr n now) (mkClientState tr' n now')
| step_import tr now now' p tr' :
    now <= now' -> import_ok now' p -> ImportState (Some tr) p now' = Some tr' ->
    client_step (mkClientState tr 0 now) (mkClientState tr' 0 now')
| step_other tr n now now' tr' :
    now <= now' -> tr_subjects tr' !! name = tr_subjects tr !! name ->
    client_step (mkClientState tr n now) (mkClientState tr' n now').

(** The invariant of a request window with [n] requests in flight *)
Definition request_window_ok (n : Z) (now : Time) (w : windowState) : Prop :=
  ws_name w = wn -> ws_typeName w = "requests" ->
  0 < ws_maxRequests w <= L /\
  events_sorted (ws_events w) /\ Forall (request_event now) (ws_events w) /\
  Z.of_nat (length (ws_events w)) + n <= L + (K - 1).

Definition client_inv (st : client_state) : Prop :=
  0 <= cl_inflight st <= K /\
  forall s, tr_subjects (cl_tracker st) !! name = Some s ->
    Forall (request_window_ok (cl_inflight st) (cl_now st)) (sub_windows s).

Context (HK : 1 <= K) (HL : 0 < L <= max_int64 - K).

Lemma request_event_later now now' e : now <= now' -> request_event now e -> request_event now' e.
Proof. unfold request_event. intuition lia. Qed.

Lemma request_events_total now l :
  Forall (request_event now) l ->
  total ue_Requests l = Z.of_nat (length l) /\ total ue_Tokens l = 0 /\
  total ue_CostMicroUSD l = 0 /\ total ue_Unpriced l = 0 /\ Forall event_ok l.
Proof.
  induction 1 as [|e l (Ha & Hq & Ht & Hc & Hu) Hl IH]; [by repeat split|].
  rewrite !total_cons. destruct IH as (-> & -> & -> & -> & ?). rewrite Hq, Ht, Hc, Hu.
  cbn [length]. repeat split; try lia. constructor; [|done].
  unfold event_ok. rewrite Hq, Ht, Hc, Hu. lia.
Qed.

Lemma request_events_ok now l :
  events_sorted l -> Forall (request_event now) l -> Z.of_nat (length l) <= max_int64 -> events_ok l.
Proof.
  intros Hs Hl Hlen. destruct (request_events_total now l Hl) as (Hq & Ht & Hc & Hu & Hok).
  split; [done|done|rewrite ?Hq, ?Ht, ?Hc, ?Hu; unfold max_int64 in *; lia..].
Qed.

(** Dropping events and letting time pass keeps the invariant. *)
Lemma request_window_drop n now now' w f :
  now <= now' -> request_window_ok n now w ->
  request_window_ok n now' (with_events w (drop_while f (ws_events w))).
Proof.
  intros Hle Hw Hwn Hty. destruct (Hw Hwn Hty) as (Hmax & Hs & Hev & Hn).
  destruct (drop_while_split f (ws_events w)) as (d & Hd & _).
  cbn [ws_events with_events ws_maxRequests]. unfold events_sorted in *. rewrite Hd in Hs, Hev, Hn.
  apply Forall_app in Hev as [_ Hev]. rewrite length_app in Hn. split; [done|].
  split; [by eapply StronglySorted_app_1_r|]. split; [|lia].
  eapply Forall_impl; [exact Hev|]. intros e. by apply request_event_later.
Qed.

Lemma request_window_later n now now' w :
  now <= now' -> request_window_ok n now w -> request_window_ok n now' w.
Proof.
  intros Hle Hw Hwn Hty. destruct (Hw Hwn Hty) as (? & ? & Hev & ?). split_and!; try done; try lia.
  eapply Forall_impl; [exact Hev|]. intros e. by apply request_event_later.
Qed.

Lemma request_window_rollover n now now' s :
  now <= now' -> Forall (request_window_ok n now) (sub_windows s) ->
  Forall (request_window_ok n now') (sub_windows (rollover s now')).
Proof.
  intros Hle Hs. rewrite rollover_windows. apply Forall_map.
  assert (Forall (request_window_ok n now') (reset_windows s now')) as Hr.
  { assert (Forall (request_window_ok n now') (sub_windows s)) as Hs'.
    { eapply Forall_impl; [exact Hs|]. intros w. by apply request_window_later. }
    unfold reset_windows. destruct (_ != _); [|done]. apply Forall_map.
    eapply Forall_impl; [exact Hs'|]. intros w. by apply request_window_drop. }
  eapply Forall_impl; [exact Hr|]. intros w Hw. unfold window_rollover.
  destruct (_ == _); by apply (request_window_drop n now').
Qed.

Lemma request_window_events n now w :
  0 <= n -> ws_name w = wn -> ws_typeName w = "requests" -> request_window_ok n now w -> events_ok (ws_events w).
Proof.
  intros Hn Hwn Hty Hw. destruct (Hw Hwn Hty) as (? & ? & ? & ?). eapply request_events_ok; [done..|lia].
Qed.

(** A request window that is not limited counts fewer requests than it allows. *)
Lemma request_window_open n now w :
  0 <= n -> ws_name w = wn -> ws_typeName w = "requests" -> request_window_ok n now w -> is_limited now w = false ->
  Z.of_nat (length (ws_events w)) < ws_maxRequests w.
Proof.
  intros Hn Hwn Hty Hw Hl. pose proof (request_window_events n now w Hn Hwn Hty Hw) as Hok.
  destruct (Hw Hwn Hty) as (Hmax & _ & Hev & _). unfold is_limited in Hl. apply not_true_iff_false in Hl.
  rewrite retryAfter_limited in Hl by done. unfold over_limit in Hl.
  destruct (request_events_total now _ Hev) as (Hq & _). rewrite Hq in Hl. lia.
Qed.

(** It has room for one more. *)
Lemma request_window_room n now w :
  0 <= n <= K -> request_window_ok n now w -> is_limited now w = false ->
  n < K -> request_window_ok (n + 1) now w.
Proof.
  intros Hn Hw Hl HnK Hwn Hty. pose proof (request_window_open n now w ltac:(lia) Hwn Hty Hw Hl) as Hopen.
  destruct (Hw Hwn Hty) as (Hmax & Hs & Hev & Hlen). split_and!; try done; lia.
Qed.

Lemma request_window_record n now w e :
  0 < n -> request_event now e -> ue_At e = now -> request_window_ok n now w ->
  request_window_ok (n - 1) now (if counts_event w e then append_event e w else w).
Proof.
  intros Hn He Hat Hw Hwn Hty. destruct (counts_event w e) eqn:E.
  - destruct (Hw Hwn Hty) as (Hmax & Hs & Hev & Hlen). cbn [append_event with_events ws_events ws_maxRequests].
    unfold events_sorted in *. split; [done|]. split; [|split].
    + apply StronglySorted_app_2; [|done|by repeat constructor].
      intros x1 x2 H1 ->%list_elem_of_singleton. rewrite Forall_forall in Hev.
      destruct (Hev x1 H1). lia.
    + apply Forall_app. auto.
    + rewrite length_app. cbn. lia.
  - destruct (Hw Hwn Hty) as (Hmax & Hs & Hev & Hlen). split_and!; try done; lia.
Qed.

Lemma client_inv_accept tr n now now' d tr' :
  now <= now' -> n < K -> client_inv (mkClientState tr n now) ->
  BeforeClientRequest (Some tr) name now' = (d, Some tr') -> d_Allowed d = true ->
  client_inv (mkClientState tr' (n + 1) now').
Proof.
  intros Hle HnK [Hn Hinv] H Hd. cbn [cl_inflight cl_tracker cl_now] in *. split; cbn [cl_inflight cl_tracker cl_now]; [lia|]. intros s' Hs'.
  unfold BeforeClientRequest, beforeAttempt in H.
  destruct (with_subject_lookup _ _ _ _ _ _ _ H Hs') as (s & Hs & Hg).
  rewrite guard_subject_limits in Hg by done.
  pose proof (request_window_rollover n now now' s Hle (Hinv s Hs)) as Hroll.
  pose proof (proj1 (blockingWindows_none (rollover s now') now')) as Hnone.
  destruct (blockingWindows (rollover s now') now') as [r [|b bs]]; simplify_eq/=.
  specialize (Hnone eq_refl). rewrite Forall_forall in Hroll, Hnone |- *.
  intros w Hw. apply request_window_room; auto.
Qed.

Lemma client_inv_refuse tr n now now' d tr' :
  now <= now' -> client_inv (mkClientState tr n now) ->
  BeforeClientRequest (Some tr) name now' = (d, Some tr') ->
  client_inv (mkClientState tr' n now').
Proof.
  intros Hle [Hn Hinv] H. cbn [cl_inflight cl_tracker cl_now] in *. split; cbn [cl_inflight cl_tracker cl_now]; [lia|]. intros s' Hs'.
  unfold BeforeClientRequest, beforeAttempt in H.
  destruct (with_subject_lookup _ _ _ _ _ _ _ H Hs') as (s & Hs & Hg).
  rewrite guard_subject_limits in Hg by done.
  pose proof (request_window_rollover n now now' s Hle (Hinv s Hs)) as Hroll.
  destruct (blockingWindows _ _) as [r [|b bs]]; by simplify_eq.
Qed.

Lemma client_inv_record tr n now now' tr' :
  now <= now' -> 0 < n -> client_inv (mkClientState tr n now) ->
  RecordClientRequest (Some tr) name now' = Some tr' ->
  client_inv (mkClientState tr' (n - 1) now').
Proof.
  intros Hle Hn0 [Hn Hinv] H. cbn [cl_inflight cl_tracker cl_now] in *. split; cbn [cl_inflight cl_tracker cl_now]; [lia|]. intros s' Hs'.
  destruct (record_method_lookup _ _ _ _ _ H Hs') as (s & Hs & ->).
  pose proof (request_window_rollover n now now' s Hle (Hinv s Hs)) as Hroll.
  unfold record_client_subject. cbn [set_lastSuccessAt set_windows sub_windows].
  apply Forall_map. eapply Forall_impl; [exact Hroll|]. intros w Hw.
  apply request_window_record; [done| |done|done]. unfold request_event. cbn. lia.
Qed.

(** Usage recorded at the end of a request does not count in a request window. *)
Lemma client_inv_terminal tr n now now' tokens cost priced tr' :
  now <= now' -> client_inv (mkClientState tr n now) ->
  RecordClientTerminalUsage (Some tr) name tokens cost priced now' = Some tr' ->
  client_inv (mkClientState tr' n now').
Proof.
  intros Hle [Hn Hinv] H. cbn [cl_inflight cl_tracker cl_now] in *. split; cbn [cl_inflight cl_tracker cl_now]; [lia|]. intros s' Hs'.
  destruct (record_method_lookup _ _ _ _ _ H Hs') as (s & Hs & ->).
  pose proof (request_window_rollover n now now' s Hle (Hinv s Hs)) as Hroll.
  unfold record_client_subject. cbn [set_lastSuccessAt set_windows sub_windows].
  apply Forall_map. eapply Forall_impl; [exact Hroll|]. intros w Hw.
  destruct (counts_event _ _) eqn:E; [|done]. intros _ Hty. exfalso.
  unfold append_event in Hty. cbn in Hty. unfold counts_event in E. rewrite Hty in E.
  by destruct priced.
Qed.

(** Rolling all subjects over, as the snapshots and the export do *)
Lemma client_inv_rollover tr n now now' :
  now <= now' -> client_inv (mkClientState tr n now) ->
  client_inv (mkClientState (mkTracker (tr_client tr) ((fun s => rollover s now') <$> tr_subjects tr)) n now').
Proof.
  intros Hle [Hn Hinv]. split; [done|]. cbn. intros s'. rewrite lookup_fmap. intros (s & Hs & ->)%fmap_Some.
  by apply (request_window_rollover _ now); auto.
Qed.

(** A window of a merged subject is a new one, or a new one with the events of a
    compatible old one of its name. *)
Lemma merge_fold_elem ws merged old cleared w :
  w ∈ (foldl merge_step (merged, old, cleared) ws).1.1 ->
  w ∈ merged \/ exists v, v ∈ ws /\ (w = v \/ exists p,
    old !! ws_name v = Some p /\ compatible v p = true /\ w = with_events v (ws_events p)).
Proof.
  revert merged old cleared. induction ws as [|v ws IH]; intros merged old cleared; cbn [foldl]; [by left|].
  assert (forall x merged', w ∈ merged' ++ [x] -> w ∈ merged' \/ w = x) as Hsnoc by (intros; set_solver).
  unfold merge_step at 2. destruct (old !! ws_name v) as [p|] eqn:E.
  - assert (forall v' p', delete (ws_name v) old !! ws_name v' = Some p' -> old !! ws_name v' = Some p') as Hdel
      by (intros v' p' H; by apply lookup_delete_Some in H as [_ ?]).
    destruct (compatible v p) eqn:Ec; [|destruct (_ <? _)%nat];
      (intros [H|(v' & Hv' & [->|(p' & Hp' & ?)])]%IH;
       [apply Hsnoc in H as [H| ->]; [by left|right; exists v; split; [by left|]]
       |right; exists v'; split; [by right|by left]
       |right; exists v'; split; [by right|right; exists p'; split; [by apply Hdel|done]]]);
      [right; by exists p|by left|by left].
  - intros [H|(v' & Hv' & H)]%IH; [apply Hsnoc in H as [H| ->]; [by left|]|].
    + right. exists v. split; [by left|by left].
    + right. exists v'. split; [by right|done].
Qed.

Lemma compatible_type v p : compatible v p = true -> ws_typeName v = ws_typeName p.
Proof.
  unfold compatible. destruct (String.eqb_spec (ws_typeName v) (ws_typeName p)) as [->|]; [done|]. done.
Qed.

Lemma fresh_windows_ok n now cfg cfgs :
  0 <= n <= K -> limits_ok cfgs -> cfg ∈ cfgs -> cc_Name cfg = name ->
  Forall (fun w => ws_name w = wn -> ws_typeName w = "requests" -> 0 < ws_maxRequests w <= L)
    (sub_windows (client_subject tzdb cfg)) /\
  Forall (request_window_ok n now) (sub_windows (client_subject tzdb cfg)).
Proof.
  intros Hn Hl Hc Hname. specialize (Hl cfg Hc Hname).
  assert (Forall (fun w => ws_name w = wn -> ws_typeName w = "requests" -> 0 < ws_maxRequests w <= L)
    (sub_windows (client_subject tzdb cfg))) as Hw by (by apply Forall_map).
  split; [done|]. cbn. apply Forall_map. eapply Forall_impl; [exact Hl|]. cbn. intros wc Hwc Hwn Hty.
  split_and!; try constructor; try (by apply Hwc); cbn; lia.
Qed.

Lemma merged_windows_ok n now cfg cfgs old :
  0 <= n <= K -> limits_ok cfgs -> cfg ∈ cfgs -> cc_Name cfg = name ->
  Forall (request_window_ok n now) (sub_windows old) ->
  Forall (request_window_ok n now) (sub_windows (mergeWindows old (client_subject tzdb cfg)).2).
Proof.
  intros Hn Hl Hc Hname Hold. destruct (fresh_windows_ok n now cfg cfgs Hn Hl Hc Hname) as [Hlim Hfresh].
  rewrite Forall_forall in Hold, Hfresh, Hlim |- *. intros w Hw.
  assert (w ∈ (foldl merge_step ([], by_name (sub_windows old), false) (sub_windows (client_subject tzdb cfg))).1.1) as Hin.
  { revert Hw. unfold mergeWindows. by destruct (foldl _ _ _) as [[merged left] cleared]. }
  apply merge_fold_elem in Hin as [Hin|(v & Hv & [->|(p & Hp & Hcomp & ->)])]; [by apply elem_of_nil in Hin|by apply Hfresh|].
  apply by_name_inv in Hp as [Hp Hpn]. intros Hwn Hty. cbn in Hwn, Hty.
  destruct (Hold p Hp) as (_ & ? & ? & ?); [congruence|by rewrite <- (compatible_type v p Hcomp)|].
  by specialize (Hlim v Hv Hwn Hty).
Qed.

(** A subject of the client after a reconfiguration is one of the configuration, merged with
    the one before if there was one. *)
Lemma reconfigure_lookup subjects cfgs s :
  (foldl (reconfigure_client_step tzdb subjects) (false, ∅) cfgs).2 !! name = Some s ->
  exists cfg, cfg ∈ cfgs /\ cc_Name cfg = name /\
    s = match subjects !! name with Some old => (mergeWindows old (client_subject tzdb cfg)).2 | None => client_subject tzdb cfg end.
Proof.
  enough (forall acc, (foldl (reconfigure_client_step tzdb subjects) acc cfgs).2 !! name = Some s ->
    acc.2 !! name = Some s \/ exists cfg, cfg ∈ cfgs /\ cc_Name cfg = name /\
      s = match subjects !! name with Some old => (mergeWindows old (client_subject tzdb cfg)).2 | None => client_subject tzdb cfg end) as H.
  { intros [E|?]%H; [cbn [snd] in E; by rewrite lookup_empty in E|done]. }
  induction cfgs as [|cfg cs IH]; intros [changed next] H; cbn [foldl] in H; [by left|].
  destruct (IH _ H) as [Hm|(c & ? & ? & ?)]; [|right; exists c; split; [by right|done]].
  unfold reconfigure_client_step in Hm. destruct (decide (cc_Name cfg = name)) as [E|Hne].
  - right. exists cfg. split; [by left|]. split; [done|]. rewrite E in Hm. destruct (subjects !! name) as [old|].
    + destruct (mergeWindows _ _) as [cl m]. cbn in Hm. rewrite lookup_insert_eq in Hm. by simplify_eq.
    + cbn in Hm. rewrite lookup_insert_eq in Hm. by simplify_eq.
  - left. destruct (subjects !! cc_Name cfg) as [old|]; [destruct (mergeWindows _ _) as [cl m]|];
      cbn in Hm; by rewrite lookup_insert_ne in Hm.
Qed.

Lemma client_inv_reconfigure tr n now now' cfgs tr' :
  now <= now' -> limits_ok cfgs -> client_inv (mkClientState tr n now) ->
  (ReconfigureClients tzdb (Some tr) cfgs).2 = Some tr' -> client_inv (mkClientState tr' n now').
Proof.
  intros Hle Hl [Hn Hinv] H. cbn in Hn, Hinv. split; [done|]. cbn. intros s Hs. unfold ReconfigureClients in H.
  destruct (foldl _ _ _) as [changed next] eqn:E. injection H as <-. cbn in Hs.
  change next with (changed, next).2 in Hs. rewrite <- E in Hs.
  apply reconfigure_lookup in Hs as (cfg & Hc & Hname & ->). destruct (tr_subjects tr !! name) as [old|] eqn:Eo.
  - eapply merged_windows_ok; [done..|]. eapply Forall_impl; [by apply Hinv|]. intros w. by apply request_window_later.
  - by eapply fresh_windows_ok.
Qed.

Lemma imported_windows_ok now p saved v c s :
  import_ok now p -> p_Subjects p !! name = Some saved -> Forall (request_window_ok 0 now) (sub_windows s) ->
  Forall (request_window_ok 0 now) (sub_windows (import_subject v c now saved s)).
Proof.
  intros Hp Hsaved Hs. apply (request_window_rollover 0 now); [lia|]. cbn [sub_windows].
  destruct (_ || _); [|done]. apply Forall_map. eapply Forall_impl; [exact Hs|]. intros w Hw.
  unfold import_window. destruct (ps_Windows saved !! ws_name w) as [sw|] eqn:E; [|done].
  destruct (persistedCompatible _ _ _ _); [|done]. intros Hwn Hty. destruct (Hw Hwn Hty) as (Hmax & _).
  cbn in Hwn. rewrite Hwn in E. destruct (Hp saved sw Hsaved E) as [Hev Hlen]. cbn [with_events ws_events ws_maxRequests].
  split; [done|]. split; [|split].
  - apply sorted_events, sort_by_sorted, _.
  - by rewrite sort_by_Permutation.
  - rewrite sort_by_Permutation. lia.
Qed.

Lemma client_inv_import tr now now' p tr' :
  now <= now' -> import_ok now' p -> client_inv (mkClientState tr 0 now) ->
  ImportState (Some tr) p now' = Some tr' -> client_inv (mkClientState tr' 0 now').
Proof.
  intros Hle Hp [Hn Hinv] [= <-]. split; [done|]. cbn in *. intros s. rewrite map_lookup_imap.
  destruct (tr_subjects tr !! name) as [s0|] eqn:E; [|done]. cbn. intros [= <-].
  assert (Forall (request_window_ok 0 now') (sub_windows s0)) as Hs0.
  { eapply Forall_impl; [by apply Hinv|]. intros w. by apply request_window_later. }
  destruct (p_Subjects p !! name) as [saved|] eqn:Es; [|done]. by eapply imported_windows_ok.
Qed.

Lemma client_inv_step st st' : client_inv st -> client_step st st' -> client_inv st'.
Proof.
  intros Hinv Hstep.
  destruct Hstep as [| | | |tr n now now' tr' Hle Hsnap|tr n now now' wall tr' Hle Hexp| | |tr n now now' tr' Hle Hsame].
  - by eapply client_inv_accept.
  - by eapply client_inv_refuse.
  - by eapply client_inv_record.
  - by eapply client_inv_terminal.
  - injection Hsnap as <-. by eapply client_inv_rollover.
  - injection Hexp as <-. by eapply client_inv_rollover.
  - by eapply client_inv_reconfigure.
  - by eapply client_inv_import.
  - destruct Hinv as [Hn Hinv]. cbn in *. split; [done|]. cbn. intros s' Hs'.
    rewrite Hsame in Hs'. eapply Forall_impl; [by apply Hinv|]. intros w. by apply request_window_later.
Qed.

Lemma client_inv_new cfgs now :
  limits_ok cfgs -> client_inv (mkClientState (newTrackerFromClients tzdb cfgs) 0 now).
Proof.
  intros Hl. split; cbn [cl_inflight]; [lia|]. cbn [cl_tracker newTrackerFromClients tr_subjects].
  intros s (cfg & Hc & Hname & <-)%(foldl_insert_inv cc_Name (client_subject tzdb)).
  eapply fresh_windows_ok; [lia|done..].
Qed.

Lemma client_inv_reached cfgs now0 st :
  limits_ok cfgs -> rtc client_step (mkClientState (newTrackerFromClients tzdb cfgs) 0 now0) st -> client_inv st.
Proof.
  intros Hl Hrtc. pose proof (client_inv_new cfgs now0 Hl) as H0. revert H0.
  induction Hrtc as [|x y z Hstep _ IH]; intros H0; [done|]. apply IH. by eapply client_inv_step.
Qed.
End client_system.

(** ** Probing during a cooldown *)

(** The decisions of successive calls of [BeforeAttempt], one per clock reading *)
Fixpoint run_attempts (t : option Tracker) (name : string) (times : list Time) : list Decision :=
  match times with
  | [] => []
  | now :: times =>
      let '(d, t) := BeforeAttempt t name now in
      d :: run_attempts t name times
  end.

(** A subject in a cooldown until [until], with the next probe at [next] *)
Definition cooling (until next : Time) (inflight : bool) (s : subjectState) : Prop :=
  sub_cooldownUntil s = until /\ sub_nextProbeAt s = next /\ sub_probeInFlight s = inflight.

Definition cooldown_denial (next : Time) : Decision := mkDecision false StateCooldown false next [].
Definition probe : Decision := mkDecision true "" true zero_time [].

Lemma rollover_cooling until next b s now :
  now < until -> cooling until next b s -> cooling until next b (rollover s now).
Proof.
  intros Hu (Hc & Hn & Hb). unfold rollover, Before. cbn [set_windows sub_cooldownUntil].
  rewrite Hc. replace (now <? until) with true by lia. by rewrite andb_false_r.
Qed.

Lemma guard_cooling until next b s now :
  0 < now < until -> 0 < next -> cooling until next b s ->
  let go := (next <=? now) && negb b in
  (guard_subject true now s).1 = (if go then probe else cooldown_denial next) /\
  cooling until next (b || go) (guard_subject true now s).2.
Proof.
  intros Hnow Hnext Hc. pose proof (rollover_cooling until next b s now) as Hr.
  specialize (Hr ltac:(lia) Hc). unfold guard_subject.
  generalize dependent (rollover s now). intros s' (Hu & Hn & Hb).
  unfold inCooldown, IsZero, Before. rewrite Hu, Hn, Hb.
  replace (until =? 0) with false by lia. replace (next =? 0) with false by lia.
  replace (now <? until) with true by lia. cbn [negb andb]. rewrite <- Z.leb_antisym.
  destruct (next <=? now); cbn; [destruct b; cbn|]; rewrite ?orb_false_r; by repeat split.
Qed.

(** The attempts of a cooldown, by induction on their times *)
Lemma run_attempts_cooling until next tr name s b times :
  0 < next -> tr_subjects tr !! name = Some s -> cooling until next b s ->
  Forall (fun t => 0 < t < until) times ->
  forall i now, times !! i = Some now ->
  let go := negb b && (next <=? now) && forallb (fun u => u <? next) (take i times) in
  run_attempts (Some tr) name times !! i = Some (if go then probe else cooldown_denial next).
Proof.
  intros Hnext. revert tr s b. induction times as [|t times IH]; intros tr s b Hs Hc Hall i now Hi; [done|].
  inversion Hall as [|? ? Ht Hrest]; subst. cbn [run_attempts].
  unfold BeforeAttempt, beforeAttempt. rewrite (with_subject_Some _ _ s) by done.
  destruct (guard_cooling until next b s t Ht Hnext Hc) as [Hd Hc'].
  destruct i as [|i]; cbn in Hi |- *.
  - simplify_eq. rewrite Hd, andb_true_r. by rewrite andb_comm.
  - rewrite (IH _ (guard_subject true t s).2 _ (lookup_insert_eq _ _ _) Hc' Hrest i now Hi).
    do 2 f_equal. rewrite (Z.ltb_antisym next t).
    by destruct b, (next <=? t), (next <=? now), (forallb _ _).
Qed.

(** ** Properties *)

(** The retry time of a denied decision is exact.  A subject whose windows are
    all rolling and that is denied for its limits is denied by every later call
    before the reported time, and allowed by every call from that time on, as long as
    nothing is recorded in between. *)
Theorem decision_retry_exact tr name s p now t' :
  tr_subjects tr !! name = Some s -> subject_ok s ->
  Forall (fun w => ws_reset w = "rolling") (sub_windows s) -> sc_period (sub_resetAll s) = "" ->
  0 <= now <= t' ->
  let '(d, t1) := beforeAttempt (Some tr) name p now in
  d_Reason d = StateLimited ->
  d_Allowed (beforeAttempt t1 name p t').1 = true <-> d_RetryAfter d <= t'.
Proof.
  intros Hs Hok Hr Hp Ht. rewrite (surjective_pairing (beforeAttempt _ _ _ now)).
  destruct (beforeAttempt_twice tr name s p now t' Hs) as [-> ->]. intros Hd.
  pose proof (guard_limited_inv p now s Hd) as Hnc.
  pose proof (inCooldown_later p s now t' ltac:(lia) Hnc) as Hnc'.
  pose proof (blocking_until s now t' Hok Hr Hp ltac:(lia) ltac:(lia)) as Hb.
  revert Hd. rewrite !guard_subject_limits by done. cbn [snd].
  destruct (blockingWindows (rollover s now) now) as [r [|b bs]]; [done|]. intros _.
  specialize (Hb ltac:(done)). cbn [fst d_RetryAfter] in *.
  destruct (blockingWindows (rollover (rollover s now) t') t') as [r' [|b' bs']]; cbn in *.
  - split; [|done]. intros _. destruct (Z.le_gt_cases r t'); [done|].
    by destruct (proj2 Hb ltac:(lia)).
  - split; [done|]. intros Hle. pose proof (proj1 Hb ltac:(done)). lia.
Qed.

(** C3: a client cannot send more requests than its limit allows.  A new tracker is changed
    by its calls in any order (requests admitted and recorded, the usage of their ends,
    snapshots, exports, reconfigurations, and imports before anything is served) at times that
    do not go back; at most [K] requests are ever between admission and recording; every
    configuration gives the client's request window of a name at least one and at most [L]
    requests, and an import brings what an export can hold of it.  Then this window never
    counts more than [L + (K - 1)] requests, so never more than [L] with sequential requests
    ([K] = 1); and whatever it counts, a request is admitted only when the window counts fewer
    than it allows now, so a limit that a reload has lowered holds from the reload on. *)
Theorem client_quota_bound tzdb cfgs name wn L K now0 st :
  1 <= K -> 0 < L <= max_int64 - K -> limits_ok name wn L cfgs ->
  rtc (client_step tzdb name wn L K) (mkClientState (newTrackerFromClients tzdb cfgs) 0 now0) st ->
  (forall s w, tr_subjects (cl_tracker st) !! name = Some s -> w ∈ sub_windows s ->
     ws_name w = wn -> ws_typeName w = "requests" -> (usage w).1.1.1 <= L + (K - 1)) /\
  (forall now d tr, cl_now st <= now -> BeforeClientRequest (Some (cl_tracker st)) name now = (d, Some tr) ->
     d_Allowed d = true -> forall s w, tr_subjects tr !! name = Some s -> w ∈ sub_windows s ->
     ws_name w = wn -> ws_typeName w = "requests" -> (usage w).1.1.1 < ws_maxRequests w).
Proof.
  intros HK HL Hcfgs Hrtc. destruct (client_inv_reached tzdb name wn L K HK HL cfgs now0 st Hcfgs Hrtc) as [Hn Hinv].
  assert (forall n now w, 0 <= n -> ws_name w = wn -> ws_typeName w = "requests" -> request_window_ok wn L K n now w ->
    (usage w).1.1.1 = Z.of_nat (length (ws_events w))) as Husage.
  { intros n now w Hn0 Hwn Hty Hw. rewrite usage_total by (by eapply request_window_events). cbn.
    destruct (Hw Hwn Hty) as (_ & _ & Hev & _). by destruct (request_events_total _ _ Hev) as (-> & _). }
  split.
  - intros s w Hs Hw Hwn Hty. specialize (Hinv s Hs). rewrite Forall_forall in Hinv. specialize (Hinv w Hw).
    rewrite (Husage (cl_inflight st) (cl_now st) w) by (done || lia). destruct (Hinv Hwn Hty) as (_ & _ & _ & Hlen). lia.
  - intros now d tr Hle H Hd s' w Hs' Hw Hwn Hty. unfold BeforeClientRequest, beforeAttempt in H.
    destruct (with_subject_lookup _ _ _ _ _ _ _ H Hs') as (s & Hs & Hg). rewrite guard_subject_limits in Hg by done.
    assert (Forall (request_window_ok wn L K (cl_inflight st) now) (sub_windows (rollover s now))) as Hroll
      by (eapply request_window_rollover; [..|exact Hle|by apply Hinv]; done).
    pose proof (proj1 (blockingWindows_none (rollover s now) now)) as Hnone.
    destruct (blockingWindows (rollover s now) now) as [r [|b bs]]; simplify_eq/=.
    specialize (Hnone eq_refl). rewrite Forall_forall in Hroll, Hnone. specialize (Hroll w Hw). specialize (Hnone w Hw).
    rewrite (Husage (cl_inflight st) now w) by (done || lia).
    eapply request_window_open; [..|exact Hroll|exact Hnone]; (done || lia).
Qed.

(** C30: during a cooldown at most one probe is let through.  After an upstream quota
    error at [t0], among attempts during the cooldown the one allowed is exactly the
    first made at or after the probe time, and it is marked as a probe; every other
    one is denied with the probe time as its retry time. *)
Theorem cooldown_single_probe tr name s t0 times i now d :
  tr_subjects tr !! name = Some s -> 0 < t0 -> 0 <= sub_probeInterval s ->
  Forall (fun t => t0 <= t < t0 + sub_cooldown s) times ->
  times !! i = Some now ->
  run_attempts (RecordQuotaExceeded (Some tr) name t0) name times !! i = Some d ->
  let next := t0 + sub_probeInterval s in
  (d_Allowed d = true <-> next <= now /\ Forall (fun u => u < next) (take i times)) /\
  (d_Allowed d = true -> d_Probe d = true) /\
  (d_Allowed d = false -> d_Reason d = StateCooldown /\ d_RetryAfter d = next).
Proof.
  intros Hs Ht0 Hpi Htimes Hi Hrun next.
  unfold RecordQuotaExceeded in Hrun. rewrite (with_subject_Some _ _ s) in Hrun by done.
  assert (cooling (t0 + sub_cooldown s) next false (exceeded_subject t0 s)) as Hc.
  { unfold exceeded_subject, rollover. by destruct (_ && _). }
  cbn [fst snd] in Hrun.
  rewrite (run_attempts_cooling (t0 + sub_cooldown s) next _ name (exceeded_subject t0 s) false times)
    with (now := now) in Hrun; [|lia|apply lookup_insert_eq|done| |done].
  2: { eapply Forall_impl; [exact Htimes|]. cbn. lia. }
  cbn [negb andb] in Hrun. rewrite <- (forallb_ltb_true next (take i times)), <- Z.leb_le.
  destruct (next <=? now), (forallb _ _); simplify_eq/=; intuition congruence.
Qed.

(** ** Witnesses *)

Definition witness_subject (ws : list windowState) (lastSuccess : Time) : subjectState :=
  mkSubjectState "a" "" ws (10 * Minute) (2 * Minute) zero_schedule zero_time zero_time zero_time
    lastSuccess false.
Definition witness_tracker : Tracker :=
  mkTracker false {[ "a" := witness_subject [witness_window] zero_time ]}.

Lemma decision_retry_exact_witness :
  let '(d, t1) := beforeAttempt (Some witness_tracker) "a" true (105 * Second) in
  d_RetryAfter d = 112 * Second /\
  (d_Allowed (beforeAttempt t1 "a" true (113 * Second)).1 = true <-> d_RetryAfter d <= 113 * Second).
Proof.
  pose proof (decision_retry_exact witness_tracker "a" (witness_subject [witness_window] zero_time)
    true (105 * Second) (113 * Second)) as H.
  assert (subject_ok (witness_subject [witness_window] zero_time)) as Hok
    by (apply Forall_singleton, witness_window_ok).
  specialize (H eq_refl Hok ltac:(by repeat constructor) eq_refl ltac:(unfold Second; lia)).
  revert H. destruct (beforeAttempt _ _ _ _) as [d t1] eqn:E. vm_compute in E.
  injection E as <- <-. intros H. split; [by vm_compute|]. by apply H.
Defined.

Definition witness_client_window (events : list usageEvent) : windowState :=
  mkWindowState "hour" "requests" "rolling" Hour (mkSchedule "" Hour zero_time "" (Some UTC) 0) 2 0 0 events.
Definition witness_client (events : list usageEvent) (lastSuccess : Time) : Tracker :=
  mkTracker true {[ "c" := mkSubjectState "c" "" [witness_client_window events] 0 0 zero_schedule
    zero_time zero_time zero_time lastSuccess false ]}.
Definition witness_client_cfg : ClientConfig :=
  mkClientConfig "c" "" [mkWindowConfig "hour" "" "rolling" Hour "" zero_time "" "" 0 2 0 0].

(** A request is counted, then a reload lowers the limit from two to one: the window keeps
    what it has counted. *)
Definition witness_client_cfg' : ClientConfig :=
  mkClientConfig "c" "" [mkWindowConfig "hour" "" "rolling" Hour "" zero_time "" "" 0 1 0 0].
Lemma client_quota_bound_witness :
  let event := mkUsageEvent (11 * Second) 1 0 0 0 in
  let window := mkWindowState "hour" "requests" "rolling" Hour (mkSchedule "" Hour zero_time "" (Some UTC) 0) 1 0 0 [event] in
  (usage window).1.1.1 <= 2 + (1 - 1).
Proof.
  intros event window.
  pose (subject := mkSubjectState "c" "" [window] 0 0 zero_schedule zero_time zero_time zero_time zero_time false).
  apply (client_quota_bound (fun _ => None) [witness_client_cfg] "c" "hour" 2 1 0
    (mkClientState (mkTracker true {[ "c" := subject ]}) 0 (11 * Second))) with (s := subject).
  - lia.
  - by vm_compute.
  - intros cfg ->%list_elem_of_singleton _. apply Forall_singleton. cbn. lia.
  - eapply rtc_l.
    { apply (step_accept (fun _ => None) "c" "hour" 2 1 _ 0 0 (10 * Second) allowed (witness_client [] 0));
        [by vm_compute|lia|by vm_compute|done]. }
    eapply rtc_l.
    { apply (step_record (fun _ => None) "c" "hour" 2 1 _ 1 (10 * Second) (11 * Second) (witness_client [event] (11 * Second)));
        [by vm_compute|lia|by vm_compute]. }
    eapply rtc_l; [|apply rtc_refl].
    apply (step_reconfigure (fun _ => None) "c" "hour" 2 1 _ 0 _ (11 * Second) [witness_client_cfg']); [by vm_compute| |by vm_compute].
    intros cfg ->%list_elem_of_singleton _. apply Forall_singleton. cbn. lia.
  - by vm_compute.
  - by left.
  - done.
  - done.
Defined.

(** Attempts one, two, three and four minutes after the error: the second is the probe. *)
Lemma cooldown_single_probe_witness :
  let times := [160 * Second; 220 * Second; 280 * Second; 340 * Second] in
  let t := RecordQuotaExceeded (Some witness_tracker) "a" (100 * Second) in
  map d_Allowed (run_attempts t "a" times) = [false; true; false; false] /\
  (d_Allowed probe = true <->
    100 * Second + 2 * Minute <= 220 * Second /\
    Forall (fun u => u < 100 * Second + 2 * Minute) [160 * Second]).
Proof.
  intros times t. split; [by vm_compute|].
  assert (Forall (fun u => 100 * Second <= u < 100 * Second + 10 * Minute) times) as Ht
    by (repeat constructor; unfold Minute, Second; cbn; lia).
  assert (run_attempts t "a" times !! 1%nat = Some probe) as Hrun by (by vm_compute).
  exact (proj1 (cooldown_single_probe witness_tracker "a" (witness_subject [witness_window] zero_time)
    (100 * Second) times 1 (220 * Second) probe eq_refl eq_refl ltac:(easy) Ht eq_refl Hrun)).
Defined.
