(* ===== verification/QuotaReload.v ===== *)
(** * Quota trackers across restarts and reloads

    Theorems about [ExportState]/[ImportState], which carry a tracker over a restart,
    and about [Reconfigure], which carries it over a configuration reload. *)

From S2P Require Import Prelude GoStrings GoTime GoTimeFacts QuotaWindow QuotaTracker QuotaTrackerFacts.

(** ** Restart *)

(** The subject as the configuration describes it: no usage, no cooldown *)
Definition reset_subject (s : subjectState) : subjectState :=
  mkSubjectState (sub_name s) (sub_inbound s) (map (fun w => with_events w []) (sub_windows s))
    (sub_cooldown s) (sub_probeInterval s) (sub_resetAll s)
    zero_time zero_time zero_time zero_time false.

Definition time_ok (t : Time) : Prop := t = 0 \/ year_ok t.

(** What can be persisted: window names are distinct, and every time has a year of
    four digits. *)
Record persistable (s : subjectState) : Prop := {
  per_ok : subject_ok s;
  per_names : NoDup (map ws_name (sub_windows s));
  per_events : Forall (fun w => Forall (fun e => ue_At e <> 0 /\ year_ok (ue_At e)) (ws_events w))
                 (sub_windows s);
  per_cooldown : time_ok (sub_cooldownUntil s);
  per_probe : time_ok (sub_nextProbeAt s);
  per_exceeded : time_ok (sub_lastQuotaExceededAt s);
  per_success : time_ok (sub_lastSuccessAt s)
}.

Lemma parse_persisted t : t <> 0 -> year_ok t -> parsePersistedTime (formatTime t) = Some t.
Proof.
  intros Hne Hy. unfold formatTime, IsZero. replace (t =? 0) with false by lia.
  unfold parsePersistedTime. rewrite (proj2 (String.eqb_neq _ "")) by apply format_nonempty.
  by apply parse_format.
Qed.

Lemma parse_persisted_default t : time_ok t -> default 0 (parsePersistedTime (formatTime t)) = t.
Proof.
  intros Ht. destruct (decide (t = 0)) as [->|Hne]; [done|].
  destruct Ht as [|Hy]; [done|]. by rewrite parse_persisted.
Qed.

Lemma import_export_events l :
  Forall (fun e => ue_At e <> 0 /\ year_ok (ue_At e)) l -> events_sorted l ->
  sort_by event_before (omap import_event (map export_event l)) = l.
Proof.
  intros Ht Hs.
  assert (omap import_event (map export_event l) = l) as ->.
  { clear Hs. induction Ht as [|e l [Hne Hy] Ht IH]; [done|].
    cbn [map omap list_omap]. unfold import_event at 1. cbn [export_event pe_At].
    rewrite parse_persisted by done. cbn. rewrite IH. by destruct e. }
  apply sort_by_id. unfold sorted_by, events_sorted in *. induction Hs as [|e l Hs IH Hall]; [constructor|].
  apply Forall_cons in Ht as [_ Ht]. constructor; [by apply IH|]. eapply Forall_impl; [exact Hall|].
  cbn. intros e' He'. unfold event_before, Before. lia.
Qed.

(** A window restored from the state another window with the same settings exported *)
Lemma import_window_export s c w :
  persistable s -> w ∈ sub_windows s ->
  import_window (export_subject s) 3 c (with_events w []) = w.
Proof.
  intros Hp Hw. destruct Hp as [Hok Hnd Hev _ _ _ _].
  unfold subject_ok in Hok. rewrite Forall_forall in Hok, Hev.
  unfold import_window, export_subject. cbn [ps_Windows with_events ws_name].
  rewrite (foldl_insert_in ws_name export_window) by done.
  unfold persistedCompatible, export_window. cbn [pw_legacy pw_Type pw_Reset pw_Schedule orb Z.ltb].
  assert (forall v, v = 3 -> (v <? 2) = false /\ (v <? 3) = false) as Hv by (intros v ->; done).
  destruct (Hv 3 eq_refl) as [-> ->]. cbn [orb].
  change (scheduleKey (with_events w [])) with (scheduleKey w).
  rewrite !String.eqb_refl. cbn [andb].
  change (pw_Events _) with (map export_event (ws_events w)).
  rewrite import_export_events by (by apply Hev || by apply (Hok w)).
  by rewrite with_events_twice, with_events_id.
Qed.

Lemma import_windows_export s c :
  persistable s ->
  map (import_window (export_subject s) 3 c) (map (fun w => with_events w []) (sub_windows s)) =
  sub_windows s.
Proof.
  intros Hp. rewrite map_map. rewrite <- (map_id (sub_windows s)) at 2. apply map_ext_in.
  intros w Hw%list_elem_of_In. by apply import_window_export.
Qed.

Lemma rollover_probe s b now :
  set_probeInFlight (rollover (set_probeInFlight s b) now) false =
  set_probeInFlight (rollover s now) false.
Proof. unfold rollover, reset_windows. cbn. by destruct (_ && _). Qed.

Lemma rollover_no_probe s now :
  sub_probeInFlight s = false -> set_probeInFlight (rollover s now) false = rollover s now.
Proof. unfold rollover. destruct s. cbn. intros ->. by destruct (_ && _). Qed.

Lemma import_export_subject s c now :
  persistable s ->
  import_subject 3 c now (export_subject s) (reset_subject s) =
  set_probeInFlight (rollover s now) false.
Proof.
  intros Hp. unfold import_subject. cbn [ps_ResetAll export_subject reset_subject sub_resetAll].
  rewrite String.eqb_refl, orb_true_r. cbn [sub_windows]. rewrite import_windows_export by done.
  destruct Hp as [_ _ _ Hc Hn He Hs].
  cbn [export_subject reset_subject ps_CooldownUntil ps_NextProbeAt ps_LastQuotaExceededAt ps_LastSuccessAt sub_cooldownUntil
       sub_nextProbeAt sub_lastQuotaExceededAt sub_lastSuccessAt].
  unfold zero_time. rewrite !parse_persisted_default by done.
  change (mkSubjectState _ _ _ _ _ _ _ _ _ _ _) with (set_probeInFlight s false).
  by rewrite <- (rollover_no_probe (set_probeInFlight s false)), rollover_probe.
Qed.

(** Rolling over keeps what is needed to persist. *)
Lemma discard_sub (P : usageEvent -> Prop) w f :
  Forall P (ws_events w) -> Forall P (drop_while f (ws_events w)).
Proof.
  destruct (drop_while_split f (ws_events w)) as (d & Hd & _). intros H. rewrite Hd in H.
  by apply Forall_app in H as [_ H].
Qed.

Lemma reset_windows_names s now : map ws_name (reset_windows s now) = map ws_name (sub_windows s).
Proof. unfold reset_windows. destruct (_ != _); [|done]. by rewrite map_map. Qed.

Lemma rollover_windows_names s now :
  map ws_name (sub_windows (rollover s now)) = map ws_name (sub_windows s).
Proof.
  rewrite rollover_windows, map_map, <- (reset_windows_names s now). apply map_ext. intros w.
  by rewrite window_rollover_with.
Qed.

Lemma rollover_persistable s now : persistable s -> persistable (rollover s now).
Proof.
  intros [Hok Hnd Hev Hc Hn He Hs]. split.
  - by apply rollover_ok.
  - by rewrite rollover_windows_names.
  - rewrite rollover_windows. apply Forall_map.
    apply (Forall_impl (fun w => Forall (fun e => ue_At e <> 0 /\ year_ok (ue_At e)) (ws_events w))).
    + unfold reset_windows. destruct (_ != _); [|done]. apply Forall_map.
      eapply Forall_impl; [exact Hev|]. intros w. apply discard_sub.
    + intros w Hw. unfold window_rollover. destruct (_ == _); by apply discard_sub.
  - unfold rollover. destruct (_ && _); [by left|done].
  - unfold rollover. destruct (_ && _); [by left|done].
  - unfold rollover. by destruct (_ && _).
  - unfold rollover. by destruct (_ && _).
Qed.

Lemma rollover_reset s now : reset_subject (rollover s now) = reset_subject s.
Proof.
  unfold reset_subject. rewrite rollover_windows, map_map, rollover_resetAll.
  assert (map (fun w => with_events (window_rollover w now) []) (reset_windows s now) =
          map (fun w => with_events w []) (sub_windows s)) as ->.
  { unfold reset_windows.
    destruct (_ != _); rewrite ?map_map; apply map_ext; intros w; by rewrite window_rollover_with. }
  unfold rollover. by destruct (_ && _).
Qed.

(** ** Reload: merging the windows of one subject *)

(** What a window keeps of the old window of the same name, if there is one *)
Definition merge_window (old : gmap string windowState) (w : windowState) : windowState :=
  match old !! ws_name w with
  | Some previous => if compatible w previous then with_events w (ws_events previous) else w
  | None => w
  end.

(** The old window of the same name loses its events *)
Definition loses_window (old : gmap string windowState) (w : windowState) : bool :=
  match old !! ws_name w with
  | Some previous => negb (compatible w previous) && (0 <? length (ws_events previous))%nat
  | None => false
  end.

Lemma merge_window_delete n old w :
  n <> ws_name w -> merge_window (delete n old) w = merge_window old w /\
  loses_window (delete n old) w = loses_window old w.
Proof. intros Hn. unfold merge_window, loses_window. by rewrite lookup_delete_ne. Qed.

Lemma merge_fold ws merged old cleared :
  NoDup (map ws_name ws) ->
  foldl merge_step (merged, old, cleared) ws =
  (merged ++ map (merge_window old) ws,
   foldl (fun m w => delete (ws_name w) m) old ws,
   cleared || existsb (loses_window old) ws).
Proof.
  revert merged old cleared. induction ws as [|w ws IH]; intros merged old cleared Hnd;
    cbn [foldl map existsb]; [by rewrite app_nil_r, orb_false_r|].
  cbn in Hnd. apply NoDup_cons in Hnd as [Hw Hnd].
  assert (map (merge_window (delete (ws_name w) old)) ws = map (merge_window old) ws /\
          existsb (loses_window (delete (ws_name w) old)) ws = existsb (loses_window old) ws) as [Em Ee].
  { clear IH Hnd. induction ws as [|v ws IH]; [done|]. cbn in *. rewrite not_elem_of_cons in Hw.
    destruct (merge_window_delete (ws_name w) old v) as [-> ->]; [tauto|].
    destruct IH as [-> ->]; tauto. }
  assert (merge_step (merged, old, cleared) w =
    (merged ++ [merge_window old w], delete (ws_name w) old, cleared || loses_window old w)) as ->.
  { unfold merge_step, merge_window, loses_window. destruct (old !! ws_name w) as [p|] eqn:E.
    - destruct (compatible w p), (0 <? length _)%nat; cbn; by rewrite ?orb_false_r, ?orb_true_r.
    - by rewrite orb_false_r, delete_id. }
  rewrite IH, Em, Ee, <- app_assoc, <- orb_assoc by done. done.
Qed.

Lemma foldl_delete_lookup ws (old : gmap string windowState) k :
  foldl (fun m w => delete (ws_name w) m) old ws !! k =
  if decide (k ∈ map ws_name ws) then None else old !! k.
Proof.
  revert old. induction ws as [|w ws IH]; intros old; cbn; [done|]. rewrite IH.
  destruct (decide (k ∈ map ws_name ws)) as [Hin|Hin].
  - by rewrite decide_True by (by right).
  - destruct (decide (k = ws_name w)) as [->|Hne].
    + rewrite decide_True by (by left). apply lookup_delete_eq.
    + rewrite decide_False by (rewrite not_elem_of_cons; tauto). by apply lookup_delete_ne.
Qed.

Lemma by_name_lookup ws w : NoDup (map ws_name ws) -> w ∈ ws -> by_name ws !! ws_name w = Some w.
Proof. apply (foldl_insert_in ws_name (fun w => w)). Qed.

Lemma has_events w : (0 <? length (ws_events w))%nat = true <-> ws_events w <> [].
Proof. by destruct (ws_events w); cbn; split. Qed.

Lemma mergeWindows_windows old fresh :
  NoDup (map ws_name (sub_windows fresh)) ->
  (mergeWindows old fresh).2 =
  set_windows fresh (map (merge_window (by_name (sub_windows old))) (sub_windows fresh)).
Proof. intros Hnd. unfold mergeWindows. by rewrite merge_fold. Qed.

(** Merging reports exactly the loss of recorded usage. *)
Lemma mergeWindows_cleared old fresh :
  NoDup (map ws_name (sub_windows old)) -> NoDup (map ws_name (sub_windows fresh)) ->
  (mergeWindows old fresh).1 = true <->
  exists w, w ∈ sub_windows old /\ ws_events w <> [] /\
    ~ exists v, v ∈ sub_windows fresh /\ ws_name v = ws_name w /\ compatible v w = true.
Proof.
  intros Ho Hf. unfold mergeWindows. rewrite merge_fold by done. cbn [fst].
  rewrite orb_false_l, orb_true_iff, !existsb_exists. split.
  - intros [(v & Hv & Hl)|([k w] & Hin & He)].
    + unfold loses_window in Hl. destruct (by_name _ !! ws_name v) as [w|] eqn:E; [|done].
      apply by_name_inv in E as [Hw Hn]. breflect. exists w.
      split; [done|]. split; [by apply has_events|]. intros (v' & Hv' & Hn' & Hc).
      assert (v' = v) as ->; [|congruence]. apply list_elem_of_In in Hv.
      pose proof (by_name_lookup _ _ Hf Hv) as E1. pose proof (by_name_lookup _ _ Hf Hv') as E2.
      congruence.
    + apply list_elem_of_In, elem_of_map_to_list in Hin.
      rewrite foldl_delete_lookup in Hin. destruct (decide _) as [|Hk]; [done|].
      apply by_name_inv in Hin as [Hw <-]. exists w. split; [done|]. split; [by apply has_events|].
      intros (v & Hv & Hn & _). apply Hk. rewrite <- Hn. by apply list_elem_of_fmap_2.
  - intros (w & Hw & He & Hno). pose proof (by_name_lookup _ _ Ho Hw) as E.
    destruct (decide (ws_name w ∈ map ws_name (sub_windows fresh))) as [Hin|Hin].
    + left. apply list_elem_of_fmap in Hin as (v & Hn & Hv). exists v.
      split; [by apply list_elem_of_In|]. unfold loses_window. rewrite <- Hn, E.
      rewrite (proj2 (has_events w)), andb_true_r by done. apply negb_true_iff, not_true_iff_false.
      intros Hc. apply Hno. by exists v.
    + right. exists (ws_name w, w). split; [|by apply has_events].
      apply list_elem_of_In, elem_of_map_to_list. rewrite foldl_delete_lookup.
      by rewrite decide_False.
Qed.

(** ** Reload: all subjects *)

(** Usage recorded in [old] that is not in the subject of the same name afterwards *)
Definition loses_usage (old : subjectState) (fresh : option subjectState) : Prop :=
  exists w, w ∈ sub_windows old /\ ws_events w <> [] /\
    forall s v, fresh = Some s -> v ∈ sub_windows s -> ws_name v = ws_name w ->
      ws_events v <> ws_events w.

Lemma hasUsage_spec s : hasUsage s = true <-> exists w, w ∈ sub_windows s /\ ws_events w <> [].
Proof.
  unfold hasUsage. rewrite existsb_exists.
  split; intros (w & Hw & He); exists w; (split; [by apply list_elem_of_In|]); by destruct (ws_events w).
Qed.

(** Both kinds of tracker: [res cfg] is the new subject of [cfg] and whether the old
    one of that name loses usage. *)
Section reconfigure.
Context {C : Type} (nm : C -> string) (res : C -> bool * subjectState).
Context (subjects : gmap string subjectState) (cfgs : list C).
Context (step : bool * gmap string subjectState -> C -> bool * gmap string subjectState).
Context (Hstep : forall acc cfg,
  step acc cfg = ((res cfg).1 || acc.1, <[nm cfg := (res cfg).2]> acc.2)).
Context (Hnames : NoDup (map nm cfgs)).
Context (Hnew : forall cfg, cfg ∈ cfgs -> subjects !! nm cfg = None -> (res cfg).1 = false).
Context (Hold : forall cfg old, cfg ∈ cfgs -> subjects !! nm cfg = Some old ->
  (res cfg).1 = true <-> loses_usage old (Some (res cfg).2)).

Let next := (foldl step (false, ∅) cfgs).2.

Lemma reconfigure_fold acc :
  foldl step acc cfgs =
  (existsb (fun c => (res c).1) cfgs || acc.1, foldl (fun m c => <[nm c := (res c).2]> m) acc.2 cfgs).
Proof.
  clear Hnames Hnew Hold next. revert acc.
  induction cfgs as [|c cs IH]; intros acc; cbn [foldl existsb orb]; [by destruct acc|].
  rewrite IH, Hstep. cbn [fst snd]. by destruct (res c).1, (existsb _ cs), acc.1.
Qed.

Lemma reconfigure_next cfg : cfg ∈ cfgs -> next !! nm cfg = Some (res cfg).2.
Proof.
  intros Hc. subst next. rewrite reconfigure_fold. cbn [snd].
  by apply (foldl_insert_in nm (fun c => (res c).2)).
Qed.

Lemma removed_usage_spec :
  removed_usage subjects next = true <->
  exists name old, subjects !! name = Some old /\ next !! name = None /\ loses_usage old None.
Proof.
  unfold removed_usage. rewrite existsb_exists. split.
  - intros ([k old] & Hin & H). apply list_elem_of_In, elem_of_map_to_list in Hin. cbn in H.
    destruct (next !! k) eqn:E; [done|]. apply hasUsage_spec in H as (w & Hw & He).
    exists k, old. split; [done|]. split; [done|]. by exists w.
  - intros (k & old & Hk & Hn & w & Hw & He & _). exists (k, old).
    split; [by apply list_elem_of_In, elem_of_map_to_list|]. cbn. rewrite Hn.
    apply hasUsage_spec. eauto.
Qed.

Lemma reconfigure_reports :
  removed_usage subjects next || (foldl step (false, ∅) cfgs).1 = true <->
  exists name old, subjects !! name = Some old /\ loses_usage old (next !! name).
Proof.
  rewrite orb_true_iff, removed_usage_spec, reconfigure_fold. cbn [fst].
  rewrite orb_false_r, existsb_exists. split.
  - intros [(k & old & Hk & Hn & Hl)|(c & Hc%list_elem_of_In & Hl)].
    + exists k, old. by rewrite Hn.
    + destruct (subjects !! nm c) as [old|] eqn:E.
      * exists (nm c), old. split; [done|]. rewrite reconfigure_next by done. by apply (Hold c old).
      * by rewrite Hnew in Hl.
  - intros (k & old & Hk & Hl). destruct (next !! k) as [s|] eqn:E; [|left; eauto].
    right. pose proof E as E'. subst next. rewrite reconfigure_fold in E. cbn [snd] in E.
    apply (foldl_insert_inv nm (fun c => (res c).2)) in E as (c & Hc & <- & <-).
    exists c. split; [by apply list_elem_of_In|]. by apply (Hold c old).
Qed.
End reconfigure.

(** Merging into a subject without usage: what is reported is what is lost. *)
Lemma merge_loses old fresh :
  NoDup (map ws_name (sub_windows old)) -> NoDup (map ws_name (sub_windows fresh)) ->
  Forall (fun w => ws_events w = []) (sub_windows fresh) ->
  (mergeWindows old fresh).1 = true <-> loses_usage old (Some (mergeWindows old fresh).2).
Proof.
  intros Ho Hf Hempty. rewrite mergeWindows_cleared, mergeWindows_windows by done.
  rewrite Forall_forall in Hempty.
  split; intros (w & Hw & He & Hno); exists w; (split; [done|]); (split; [done|]).
  - intros s v [= <-] Hv Hn Hev. cbn [set_windows sub_windows] in Hv.
    apply list_elem_of_fmap in Hv as (u & -> & Hu). apply Hno. exists u. split; [done|].
    assert (ws_name u = ws_name w) as Hnu.
    { rewrite <- Hn. unfold merge_window. by repeat case_match. }
    split; [done|]. revert Hev. unfold merge_window. rewrite Hnu, by_name_lookup by done.
    destruct (compatible u w) eqn:E; [done|]. rewrite (Hempty u Hu). intros Hev. by rewrite Hev in He.
  - intros (v & Hv & Hn & Hc).
    apply (Hno _ (merge_window (by_name (sub_windows old)) v) eq_refl).
    + cbn [set_windows sub_windows]. by apply list_elem_of_fmap_2.
    + unfold merge_window. by repeat case_match.
    + unfold merge_window. by rewrite Hn, by_name_lookup, Hc.
Qed.

Definition no_usage (s : subjectState) : Prop := Forall (fun w => ws_events w = []) (sub_windows s).

Section reload.
Context (tzdb : string -> option Location).

Lemma new_no_usage name inbound windows cooldown interval resetAll :
  no_usage (newSubjectState tzdb name inbound windows cooldown interval resetAll).
Proof. unfold no_usage. cbn. apply Forall_map, Forall_true. done. Qed.

Lemma new_window_names name inbound windows cooldown interval resetAll :
  map ws_name (sub_windows (newSubjectState tzdb name inbound windows cooldown interval resetAll)) =
  map wc_Name windows.
Proof. cbn. rewrite map_map. by apply map_ext. Qed.

(** What one turn of the loop of [reconfigureOutbound] makes of a configured outbound *)
Definition outbound_result (subjects : gmap string subjectState) (cfg : OutboundConfig)
    : bool * subjectState :=
  let fresh := outbound_subject tzdb cfg in
  match subjects !! oc_Name cfg with
  | None => (false, fresh)
  | Some old =>
      let fresh := keep_cooldown old fresh in
      if key (sub_resetAll old) != key (sub_resetAll fresh) then (hasUsage old, fresh)
      else mergeWindows old fresh
  end.

Lemma outbound_step_result subjects acc cfg :
  reconfigure_outbound_step tzdb subjects acc cfg =
  ((outbound_result subjects cfg).1 || acc.1, <[oc_Name cfg := (outbound_result subjects cfg).2]> acc.2).
Proof.
  unfold reconfigure_outbound_step, outbound_result. destruct acc as [changed next].
  destruct (subjects !! oc_Name cfg) as [old|]; [|done].
  destruct (_ != _); [done|]. by destruct (mergeWindows _ _).
Qed.

Lemma outbound_result_loses subjects cfg old :
  NoDup (map wc_Name (oc_Windows cfg)) -> NoDup (map ws_name (sub_windows old)) ->
  subjects !! oc_Name cfg = Some old ->
  (outbound_result subjects cfg).1 = true <-> loses_usage old (Some (outbound_result subjects cfg).2).
Proof.
  intros Hc Ho Hs. unfold outbound_result. rewrite Hs.
  pose proof (new_no_usage (oc_Name cfg) "" (oc_Windows cfg) (oc_Cooldown cfg) (oc_ProbeInterval cfg)
    (oc_ResetAll cfg)) as Hempty.
  destruct (_ != _).
  - cbn [fst snd]. rewrite hasUsage_spec. split; intros (w & Hw & He); exists w; [|tauto].
    split; [done|]. split; [done|]. intros s v [= <-] Hv _. cbn [keep_cooldown sub_windows] in Hv.
    unfold no_usage in Hempty. rewrite Forall_forall in Hempty. rewrite (Hempty v Hv). congruence.
  - apply merge_loses; [done| |done]. cbn [keep_cooldown sub_windows].
    unfold outbound_subject. by rewrite new_window_names.
Qed.
End reload.

(** ** What a tracker is configured to be

    A tracker without what it has recorded: its subjects with their windows and schedules. *)
Abbreviation configured_window := (fun w => with_events w []).
Definition tracker_config (tr : Tracker) : Tracker := mkTracker (tr_client tr) (reset_subject <$> tr_subjects tr).

Lemma reset_import_subject version client now saved s :
  reset_subject (import_subject version client now saved s) = reset_subject s.
Proof.
  unfold import_subject. rewrite rollover_reset. unfold reset_subject. cbn. f_equal.
  destruct (_ || _); [|done]. rewrite map_map. apply map_ext. intros w. unfold import_window.
  destruct (_ !! _) as [sw|]; [|done]. by destruct (persistedCompatible _ _ _ _).
Qed.
Lemma import_config t p now : tracker_config <$> ImportState t p now = tracker_config <$> t.
Proof.
  destruct t as [tr|]; [|done]. cbn. unfold tracker_config. cbn. do 2 f_equal. apply map_eq. intros k.
  rewrite !lookup_fmap, map_lookup_imap. destruct (tr_subjects tr !! k) as [s|]; [|done]. cbn.
  destruct (p_Subjects p !! k) as [saved|]; [|done]. by rewrite reset_import_subject.
Qed.

Lemma merge_fold_config ws acc :
  map configured_window (foldl merge_step acc ws).1.1 = map configured_window acc.1.1 ++ map configured_window ws.
Proof.
  revert acc. induction ws as [|w ws IH]; intros [[merged old] cleared]; cbn [foldl]; [by rewrite app_nil_r|].
  rewrite IH. unfold merge_step.
  assert (forall v, configured_window v = configured_window w ->
    map configured_window (merged ++ [v]) ++ map configured_window ws = map configured_window merged ++ map configured_window (w :: ws)) as H.
  { intros v Hv. rewrite map_app, <- app_assoc. cbn. by rewrite Hv. }
  destruct (old !! ws_name w) as [p|]; [|by apply H]. destruct (compatible w p); [by apply H|]. destruct (_ <? _)%nat; by apply H.
Qed.
Lemma mergeWindows_config old fresh : reset_subject (mergeWindows old fresh).2 = reset_subject fresh.
Proof.
  unfold mergeWindows. pose proof (merge_fold_config (sub_windows fresh) ([], by_name (sub_windows old), false)) as H.
  destruct (foldl _ _ _) as [[merged left] cleared]. cbn in *. unfold reset_subject. cbn. by rewrite H.
Qed.

(** Steps that insert subjects of the same configuration build maps of the same configuration. *)
Lemma fold_config {C} (nm : C -> string) (fresh : C -> subjectState)
    (step : bool * gmap string subjectState -> C -> bool * gmap string subjectState) cfgs acc m :
  (forall acc cfg, exists s, (step acc cfg).2 = <[nm cfg := s]> acc.2 /\ reset_subject s = reset_subject (fresh cfg)) ->
  reset_subject <$> acc.2 = reset_subject <$> m ->
  reset_subject <$> (foldl step acc cfgs).2 = reset_subject <$> foldl (fun m cfg => <[nm cfg := fresh cfg]> m) m cfgs.
Proof.
  intros Hstep. revert acc m. induction cfgs as [|cfg cfgs IH]; intros acc m Hm; cbn [foldl]; [done|].
  apply IH. destruct (Hstep acc cfg) as (s & -> & Hs). by rewrite !fmap_insert, Hs, Hm.
Qed.

(** Whatever a tracker was, [Reconfigure] gives it the configuration of a new one. *)
Lemma reconfigure_outbounds_config tzdb tr outbounds : tr_client tr = false ->
  tracker_config <$> (ReconfigureOutbounds tzdb (Some tr) outbounds).2 =
  Some (tracker_config (newTrackerFromOutbounds tzdb (outboundConfigs outbounds))).
Proof.
  intros Hc. unfold ReconfigureOutbounds, Reconfigure, reconfigureOutbound.
  destruct (foldl _ _ _) as [changed next] eqn:E. cbn. unfold tracker_config. cbn. rewrite Hc. do 2 f_equal.
  change next with (changed, next).2. rewrite <- E. apply (fold_config oc_Name (outbound_subject tzdb)); [|done].
  intros [changed1 next1] cfg. unfold reconfigure_outbound_step.
  destruct (tr_subjects tr !! oc_Name cfg) as [old|]; [|by eexists].
  destruct (_ != _); [by eexists|]. destruct (mergeWindows _ _) as [cl s] eqn:Em. exists s. split; [done|].
  change s with (cl, s).2. by rewrite <- Em, mergeWindows_config.
Qed.
Lemma reconfigure_clients_config tzdb tr clients : tr_client tr = true ->
  tracker_config <$> (ReconfigureClientSpecs tzdb (Some tr) clients).2 =
  Some (tracker_config (newTrackerFromClients tzdb (clientConfigs clients))).
Proof.
  intros Hc. unfold ReconfigureClientSpecs, ReconfigureClients.
  destruct (foldl _ _ _) as [changed next] eqn:E. cbn. unfold tracker_config. cbn. rewrite Hc. do 2 f_equal.
  change next with (changed, next).2. rewrite <- E. apply (fold_config cc_Name (client_subject tzdb)); [|done].
  intros [changed1 next1] cfg. unfold reconfigure_client_step.
  destruct (tr_subjects tr !! cc_Name cfg) as [old|]; [|by eexists].
  destruct (mergeWindows _ _) as [cl s] eqn:Em. exists s. split; [done|].
  change s with (cl, s).2. by rewrite <- Em, mergeWindows_config.
Qed.

(** ** Properties *)

(** C11: a restart keeps the quota state.  Importing the state a tracker exported at
    [now] into a tracker without usage, of the same configuration, gives at any time
    [now'] the subjects the first tracker has then, except that no probe is in
    flight. *)
Theorem export_import_roundtrip tr wall now now' :
  (forall name s, tr_subjects tr !! name = Some s -> persistable s) ->
  let '(saved, t1) := ExportState (Some tr) wall now in
  ImportState (Some (mkTracker (tr_client tr) (reset_subject <$> tr_subjects tr))) saved now' =
  (fun t => mkTracker (tr_client t) ((fun s => set_probeInFlight (rollover s now') false) <$> tr_subjects t))
    <$> t1.
Proof.
  intros Hper. cbn. do 2 f_equal. apply map_eq. intros name.
  rewrite map_lookup_imap, !lookup_fmap.
  destruct (tr_subjects tr !! name) as [s|] eqn:E; cbn; [|done]. f_equal.
  rewrite <- (rollover_reset s now). apply import_export_subject.
  by eapply rollover_persistable, Hper.
Qed.

(** A reload reports a change exactly when it loses recorded usage.  When the
    outbounds and the windows of each have distinct names, [Reconfigure] returns true
    if and only if some window had events that the window of that name and subject
    does not have afterwards. *)
Theorem reconfigure_reports_loss tzdb tr cfgs :
  NoDup (map oc_Name cfgs) ->
  Forall (fun cfg => NoDup (map wc_Name (oc_Windows cfg))) cfgs ->
  map_Forall (fun _ s => NoDup (map ws_name (sub_windows s))) (tr_subjects tr) ->
  let '(changed, tr') := reconfigureOutbound tzdb tr cfgs in
  changed = true <->
  exists name old, tr_subjects tr !! name = Some old /\ loses_usage old (tr_subjects tr' !! name).
Proof.
  intros Hn Hw Hs. rewrite Forall_forall in Hw.
  pose proof (reconfigure_reports oc_Name (outbound_result tzdb (tr_subjects tr)) (tr_subjects tr) cfgs
    (reconfigure_outbound_step tzdb (tr_subjects tr)) (outbound_step_result tzdb (tr_subjects tr)) Hn) as H.
  unfold reconfigureOutbound. destruct (foldl _ _ _) as [changed next]. cbn [fst snd tr_subjects] in *.
  apply H.
  - intros cfg _ E. unfold outbound_result. by rewrite E.
  - intros cfg old Hc E. apply outbound_result_loses; [by apply Hw| |done]. by apply (Hs _ _ E).
Qed.

(** ** Witnesses *)

Lemma export_import_roundtrip_witness :
  let '(saved, t1) := ExportState (Some witness_tracker) (105 * Second) (105 * Second) in
  let fresh := mkTracker false (reset_subject <$> tr_subjects witness_tracker) in
  map (fun p => length (flat_map ws_events (sub_windows p.2))) (map_to_list (tr_subjects fresh)) = [0%nat] /\
  ImportState (Some fresh) saved (106 * Second) =
  (fun t => mkTracker (tr_client t)
     ((fun s => set_probeInFlight (rollover s (106 * Second)) false) <$> tr_subjects t)) <$> t1.
Proof.
  assert (forall name s, tr_subjects witness_tracker !! name = Some s -> persistable s) as Hper.
  { intros name s Hs. cbn [witness_tracker tr_subjects] in Hs.
    apply lookup_singleton_Some in Hs as [_ <-]. split.
    - apply Forall_singleton, witness_window_ok.
    - apply NoDup_singleton.
    - apply Forall_singleton. repeat constructor; vm_compute; congruence.
    - by left.
    - by left.
    - by left.
    - by left. }
  pose proof (export_import_roundtrip witness_tracker (105 * Second) (105 * Second) (106 * Second) Hper) as H.
  revert H. unfold ExportState. cbn [tr_client witness_tracker].
  intros H. split; [by vm_compute|exact H].
Defined.

(** Reloading with a shorter window of the same name loses its usage. *)
Lemma reconfigure_reports_loss_witness :
  let cfg := mkOutboundConfig "a" [mkWindowConfig "burst" "burst" "" (5 * Second) "" zero_time "" "" 0 3 0 0]
               0 0 (mkResetAllConfig false "" 0 zero_time "" "" 0) in
  let '(changed, tr') := reconfigureOutbound (fun _ => None) witness_tracker [cfg] in
  changed = true /\
  (changed = true <->
   exists name old, tr_subjects witness_tracker !! name = Some old /\
     loses_usage old (tr_subjects tr' !! name)).
Proof.
  intros cfg.
  pose proof (reconfigure_reports_loss (fun _ => None) witness_tracker [cfg]
    (NoDup_singleton _) ltac:(apply Forall_singleton, NoDup_singleton)
    ltac:(apply map_Forall_singleton, NoDup_singleton)) as H.
  assert ((reconfigureOutbound (fun _ => None) witness_tracker [cfg]).1 = true) as Hc by (by vm_compute).
  destruct (reconfigureOutbound _ _ _) as [changed tr']. split; [exact Hc|exact H].
Defined.
