(* ===== verification/Router.v ===== *)
(** * Router

    Models [internal/router/router.go]: compiling the routing rules, matching a
    request's tag and model against them, choosing and ordering the outbounds, and
    resolving the model each is asked for.

    A router's compiled rules never change; its only state is the round-robin
    counters, guarded by a mutex.  [Plan] takes them and returns the new ones. *)

From S2P Require Import Prelude GoStrings GoTime ProviderErrors RuntimeModel ConfigTypes.

(** ** Data *)

Record wildcardPattern := mkWildcardPattern {
  literals : list string;
  leadingStar : bool;
  trailingStar : bool
}.

(** [modelMap] is empty where the code's is nil: it is only read. *)
Record compiledRule := mkCompiledRule {
  cr_name : string;
  cr_fromTags : list string;
  cr_modelPatterns : list wildcardPattern;
  cr_hasModelMatch : bool;
  cr_toTags : list string;
  cr_strategy : RoutingStrategy;
  cr_modelMap : gmap string string;
  cr_resolvedSet : list string;
  cr_weightedResolved : list string
}.

(** [modelsByTarget] holds [None] for an outbound without a list of models. *)
Record Router := mkRouter {
  r_rules : list compiledRule;
  r_providers : gmap string Provider;
  r_outboundByTag : gmap string (list string);
  r_modelsByTarget : gmap string (option (gmap string string));
  r_roundRobin : gmap string Z
}.

(** The errors of [New], structured *)
Inductive routerError :=
| OutboundNotFound (name : string)
| UnknownOutboundTag (rule tag : string).

(** ** Model patterns *)

Definition star : ascii := "*".

Definition compilePattern (pattern : string) : wildcardPattern :=
  mkWildcardPattern (List.filter (fun part => part != "") (Split pattern star))
    (HasPrefix pattern "*") (HasSuffix pattern "*").

Definition compileModelPatterns (m : option RoutingRuleMatch) : list wildcardPattern :=
  match m with
  | None => []
  | Some m => map compilePattern (rm_Models m)
  end.

(** The loop of [matches] from a literal on; [first] is [i == 0]. *)
Fixpoint match_from (p : wildcardPattern) (value : string) (position : nat) (first : bool)
    (lits : list string) : bool :=
  match lits with
  | [] => trailingStar p || (position =? len value)%nat
  | literal :: lits =>
      let last := match lits with [] => true | _ => false end in
      if first && negb (leadingStar p) then
        if HasPrefix value literal then match_from p value (len literal) false lits else false
      else if last && negb (trailingStar p) then
        (Z.of_nat position <=? Z.of_nat (len value) - Z.of_nat (len literal)) && HasSuffix value literal
      else
        match Index (str_drop position value) literal with
        | None => false
        | Some index => match_from p value (position + index + len literal) false lits
        end
  end.

Definition pattern_matches (p : wildcardPattern) (value : string) : bool :=
  match literals p with
  | [] => true
  | lits => match_from p value 0 true lits
  end.

Definition matchesModel (r : compiledRule) (model : string) : bool :=
  if negb (cr_hasModelMatch r) then true
  else existsb (fun p => pattern_matches p model) (cr_modelPatterns r).

Definition matchTag (tags : list string) (activeTag : string) : bool :=
  existsb (fun tag => tag == activeTag) tags.

(** ** Compilation *)

Definition compileModelMap (rule : RoutingRule) : gmap string string :=
  if rr_TargetModel rule != "" then {[ "*" := rr_TargetModel rule ]} else rr_ModelMap rule.

Definition outbounds_of (outboundByTag : gmap string (list string)) (tag : string) : list string :=
  default [] (outboundByTag !! tag).

(** The loop [for i := 0; i < rule.Weights\[tag\]; i++]; a missing weight is 0. *)
Definition expandWeightedResolved (rule : RoutingRule) (outboundByTag : gmap string (list string))
    : list string :=
  flat_map (fun tag =>
    concat (repeat (outbounds_of outboundByTag tag) (Z.to_nat (default 0 (rr_Weights rule !! tag)))))
    (rr_ToTags rule).

Definition compileRule (outboundByTag : gmap string (list string)) (i : nat) (rule : RoutingRule)
    : compiledRule :=
  let name := if rr_Name rule == "" then "rule-" +:+ itoa (Z.of_nat i) else rr_Name rule in
  let resolved := flat_map (outbounds_of outboundByTag) (rr_ToTags rule) in
  let weightedResolved :=
    if rr_Strategy rule == RoutingStrategyWeightedRoundRobin then
      expandWeightedResolved rule outboundByTag
    else resolved in
  mkCompiledRule name (rr_FromTags rule) (compileModelPatterns (rr_Match rule))
    (match rr_Match rule with Some _ => true | None => false end) (rr_ToTags rule)
    (rr_Strategy rule) (compileModelMap rule) resolved weightedResolved.
Definition compileRules (rules : list RoutingRule) (outboundByTag : gmap string (list string))
    : list compiledRule := imap (compileRule outboundByTag) rules.

Definition compileOutboundModels (models : list OutboundModelSpec) : option (gmap string string) :=
  match models with
  | [] => None
  | _ =>
      Some (foldl (fun resolved model =>
        foldl (fun resolved alias => <[alias := om_Name model]> resolved)
          (<[om_Name model := om_Name model]> resolved) (om_Aliases model)) ∅ models)
  end.

(** The first loop of [New]: tags declared, outbounds by tag, models by outbound *)
Record routing_tables := mkTables {
  t_declaredTags : gset string;
  t_outboundByTag : gmap string (list string);
  t_modelsByTarget : gmap string (option (gmap string string))
}.
Definition index_outbound (providers : gmap string Provider) (t : routing_tables) (o : OutboundSpec)
    : result routerError routing_tables :=
  let declared := {[ ob_Tag o ]} ∪ t_declaredTags t in
  if negb (OutboundEnabled o) then Ok (mkTables declared (t_outboundByTag t) (t_modelsByTarget t))
  else
    match providers !! ob_Name o with
    | None => Err (OutboundNotFound (ob_Name o))
    | Some _ =>
        Ok (mkTables declared
              (<[ob_Tag o := outbounds_of (t_outboundByTag t) (ob_Tag o) ++ [ob_Name o]]> (t_outboundByTag t))
              (<[ob_Name o := compileOutboundModels (ob_Models o)]> (t_modelsByTarget t)))
    end.

Definition New (cfg : RoutingConfig) (providers : gmap string Provider) (outbounds : list OutboundSpec)
    : result routerError Router :=
  t ← fold_err (index_outbound providers) (mkTables ∅ ∅ ∅) outbounds;
  _ ← for_each (fun rule =>
        for_each (fun tag => require (bool_decide (tag ∈ t_declaredTags t))
                               (UnknownOutboundTag (rr_Name rule) tag)) (rr_ToTags rule)) (rt_Rules cfg);
  Ok (mkRouter (compileRules (rt_Rules cfg) (t_outboundByTag t)) providers (t_outboundByTag t)
        (t_modelsByTarget t) ∅).

(** ** Planning *)

Definition resolveModel (r : compiledRule) (requestedModel : string) : string :=
  let mapped := default "" (cr_modelMap r !! requestedModel) in
  if mapped != "" then mapped
  else
    let mapped := default "" (cr_modelMap r !! "*") in
    if mapped != "" then mapped else requestedModel.

Definition resolveOutboundModel (models : option (gmap string string)) (routedModel : string)
    : string * bool :=
  match models with
  | None => (routedModel, false)
  | Some models =>
      match models !! routedModel with
      | None => (routedModel, true)
      | Some model => (model, false)
      end
  end.

Fixpoint dedupe (seen : gset string) (values : list string) : list string :=
  match values with
  | [] => []
  | value :: values =>
      if bool_decide (value ∈ seen) then dedupe seen values
      else value :: dedupe ({[ value ]} ∪ seen) values
  end.
Definition dedupePreserveOrder (values : list string) : list string := dedupe ∅ values.

(** [values\[index:\]] and [values\[:index\]], the index reduced modulo the length *)
Definition rotate (values : list string) (index : Z) : list string :=
  match values with
  | [] => values
  | _ =>
      let index := Z.rem index (Z.of_nat (length values)) in
      if index =? 0 then values
      else drop (Z.to_nat index) values ++ take (Z.to_nat index) values
  end.

Definition nextRoundRobinIndex (counters : gmap string Z) (key : string) (size : nat)
    : Z * gmap string Z :=
  if (size =? 0)%nat then (0, counters)
  else
    let index := Z.rem (default 0 (counters !! key)) (Z.of_nat size) in
    (index, <[key := Z.rem (index + 1) (Z.of_nat size)]> counters).

(** The router's type switch; a nil provider is of no known type. *)
Definition providerProtocol (target : option Provider) : string :=
  match prov_type <$> target with
  | Some MockProvider => "mock"
  | Some OpenAICompatibleProvider => "openai"
  | Some AnthropicMessagesProvider => "anthropic_messages"
  | _ => "unknown"
  end.

(** The order in which a rule's outbounds are tried *)
Definition order_targets (rule : compiledRule) (mutate : bool) (counters : gmap string Z)
    : list string * gmap string Z :=
  let rotated (values : list string) :=
    if mutate then
      let '(index, counters) := nextRoundRobinIndex counters (cr_name rule) (length values) in
      (rotate values index, counters)
    else (values, counters) in
  if cr_strategy rule == RoutingStrategyRoundRobin then rotated (cr_resolvedSet rule)
  else if cr_strategy rule == RoutingStrategyWeightedRoundRobin then
    let '(weighted, counters) := rotated (cr_weightedResolved rule) in
    (dedupePreserveOrder weighted, counters)
  else (cr_resolvedSet rule, counters).

Definition plan_step (r : Router) (routedModel : string) (outboundName : string) : ExecutionStep :=
  let target := r_providers r !! outboundName in
  let '(model, unavailable) :=
    resolveOutboundModel (default None (r_modelsByTarget r !! outboundName)) routedModel in
  mkExecutionStep StepTypeOutbound outboundName (providerProtocol target) target model unavailable
    FallbackOnRetryable.

Definition with_counters (r : Router) (counters : gmap string Z) : Router :=
  mkRouter (r_rules r) (r_providers r) (r_outboundByTag r) (r_modelsByTarget r) counters.

Definition rule_matches (ctx : RouteContext) (rule : compiledRule) : bool :=
  matchTag (cr_fromTags rule) (rc_ActiveTag ctx) && matchesModel rule (req_Model (rc_Request ctx)).

Definition plan (r : Router) (ctx : RouteContext) (mutate : bool)
    : result goerror ExecutionPlan * Router :=
  match find (rule_matches ctx) (r_rules r) with
  | Some rule =>
      match cr_resolvedSet rule with
      | [] => (Err (NewRetryableError (ErrPlain ("routing rule " +:+ cr_name rule +:+
                 " has no enabled outbounds"))), r)
      | _ =>
          let '(ordered, counters) := order_targets rule mutate (r_roundRobin r) in
          let routedModel := resolveModel rule (req_Model (rc_Request ctx)) in
          (Ok (mkExecutionPlan (rc_ClientName ctx) (rc_InboundName ctx) (rc_InboundProtocol ctx)
                 (rc_ActiveTag ctx) (req_Model (rc_Request ctx)) (cr_name rule) (cr_strategy rule)
                 (cr_toTags rule) (map (plan_step r routedModel) ordered)),
           with_counters r counters)
      end
  | None => (Err (ErrPlain ("no routing rule matched active tag " +:+ rc_ActiveTag ctx)), r)
  end.
Definition Plan (r : Router) (ctx : RouteContext) := plan r ctx true.
Definition PlanDryRun (r : Router) (ctx : RouteContext) := plan r ctx false.

Example glob_1 : pattern_matches (compilePattern "gpt-*-mini") "gpt-4o-mini" = true.
Proof. vm_compute. reflexivity. Qed.
Example glob_2 : pattern_matches (compilePattern "a*a") "a" = false.
Proof. vm_compute. reflexivity. Qed.

(** ** Reference: glob patterns

    [glob pattern value]: the star stands for any bytes, every other byte for itself. *)
Inductive glob : string -> string -> Prop :=
| glob_empty : glob "" ""
| glob_star p skip rest : glob p rest -> glob (String star p) (skip +:+ rest)
| glob_byte c p v : c <> star -> glob p v -> glob (String c p) (String c v).

(** ** Lemmas on patterns *)

(** [tails ls trailing v]: the literals [ls] occur in [v] in order, without overlap,
    and the last ends [v] unless [trailing]. *)
Fixpoint tails (ls : list string) (trailing : bool) (v : string) : Prop :=
  match ls with
  | [] => trailing = true \/ v = ""
  | l :: ls => exists skip rest, v = skip +:+ (l +:+ rest) /\ tails ls trailing rest
  end.

(** The same for all parts between stars *)
Fixpoint parts_tail (ls : list string) (v : string) : Prop :=
  match ls with
  | [] => v = ""
  | l :: ls => exists skip rest, v = skip +:+ (l +:+ rest) /\ parts_tail ls rest
  end.

Lemma tails_skip ls trailing k v :
  (ls <> [] \/ trailing = true) -> tails ls trailing v -> tails ls trailing (k +:+ v).
Proof.
  destruct ls as [|l ls]; cbn; [tauto|]. intros _ (skip & rest & -> & H).
  exists (k +:+ skip), rest. by rewrite <- str_app_assoc.
Qed.

Lemma parts_tail_skip ls k v : ls <> [] -> parts_tail ls v -> parts_tail ls (k +:+ v).
Proof.
  destruct ls as [|l ls]; cbn; [done|]. intros _ (skip & rest & -> & H).
  exists (k +:+ skip), rest. by rewrite <- str_app_assoc.
Qed.

Definition nonempty (part : string) : bool := part != "".

(** Empty parts only matter at the end. *)
Lemma parts_tail_literals ls v :
  parts_tail ls v <-> tails (List.filter nonempty ls) (match last ls with Some "" => true | _ => false end) v.
Proof.
  revert v. induction ls as [|l ls IH]; intros v; [cbn; split; [by right|by intros [|]]|].
  destruct ls as [|l2 ls].
  - cbn. unfold nonempty. destruct (String.eqb_spec l "") as [->|Hl]; cbn.
    + split; [by left|]. intros _. exists v, "". by rewrite str_app_nil_r.
    + replace (match l with "" => true | _ => false end) with false by (by destruct l).
      split; intros (skip & rest & -> & H); exists skip, rest; (split; [done|]); [by right|by destruct H].
  - change (last (l :: l2 :: ls)) with (last (l2 :: ls)).
    cbn [List.filter]. unfold nonempty at 1. destruct (String.eqb_spec l "") as [->|Hl]; cbn [negb].
    + rewrite <- IH. split.
      * intros (skip & rest & -> & H). cbn [String.append]. by apply parts_tail_skip.
      * intros H. exists "", v. by split.
    + cbn [tails]. change (parts_tail (l :: l2 :: ls) v) with
        (exists skip rest, v = skip +:+ (l +:+ rest) /\ parts_tail (l2 :: ls) rest).
      split; intros (skip & rest & -> & H); exists skip, rest; split; by try apply IH.
Qed.

(** A glob is its parts between stars. *)
Definition parts_match (parts : list string) (v : string) : Prop :=
  match parts with
  | [] => False
  | x :: xs => exists rest, v = x +:+ rest /\ parts_tail xs rest
  end.

Lemma Split_cons c p :
  Split (String c p) star =
  if bool_decide (c = star) then "" :: Split p star
  else match Split p star with x :: xs => String c x :: xs | [] => [] end.
Proof. unfold Split. cbn. destruct (split_aux p star). by case_bool_decide. Qed.

Lemma Split_nonempty p : exists x xs, Split p star = x :: xs.
Proof. unfold Split. destruct (split_aux p star) as [x xs]. eauto. Qed.

Lemma glob_parts p v : glob p v <-> parts_match (Split p star) v.
Proof.
  revert v. induction p as [|c p IH]; intros v.
  - cbn. split; [intros H; inversion H; subst; by exists ""|]. intros (rest & -> & ->). apply glob_empty.
  - rewrite Split_cons. destruct (Split_nonempty p) as (x & xs & E). rewrite E in IH |- *.
    case_bool_decide as Hc.
    + subst c. cbn. split.
      * intros H. inversion H as [|? skip rest Hg|]; subst; [|done].
        apply IH in Hg as (r & -> & Hr). exists (skip +:+ (x +:+ r)). split; [done|]. by exists skip, r.
      * intros (rest & -> & skip & r & -> & Hr). apply (glob_star p skip).
        apply IH. by exists r.
    + cbn. split.
      * intros H. inversion H as [| |? ? v' _ Hg]; subst; [done|].
        apply IH in Hg as (r & -> & Hr). by exists r.
      * intros (rest & -> & Hr). constructor; [done|]. apply IH. by exists rest.
Qed.

(** What [strings.HasPrefix] and [strings.HasSuffix] say of a pattern *)
Lemma leading_star p x xs :
  p <> "" -> Split p star = x :: xs -> HasPrefix p "*" = match x with "" => true | _ => false end.
Proof.
  destruct p as [|c p]; [done|]. intros _. rewrite Split_cons.
  destruct (Split_nonempty p) as (y & ys & ->). cbn. unfold star.
  destruct (decide (c = "*"%char)) as [->|Hc].
  - rewrite !bool_decide_eq_true_2 by done. by intros [= <- _].
  - rewrite !bool_decide_eq_false_2 by congruence. by intros [= <- _].
Qed.

Lemma HasSuffix_cons c p : p <> "" -> HasSuffix (String c p) "*" = HasSuffix p "*".
Proof.
  intros Hp. unfold HasSuffix. destruct p as [|d p]; [done|]. cbn [String.length].
  replace (S (S (len p)) - 1)%nat with (S (len p)) by lia.
  replace (S (len p) - 1)%nat with (len p) by lia. done.
Qed.

Lemma Split_single p y : Split p star = [y] -> y = p.
Proof.
  revert y. induction p as [|c p IH]; intros y; [by intros [= <-]|]. rewrite Split_cons.
  destruct (Split_nonempty p) as (x & xs & E). rewrite E in IH |- *. case_bool_decide; [done|].
  intros [= <- ->]. f_equal. by apply IH.
Qed.

Lemma trailing_star p x xs :
  p <> "" -> Split p star = x :: xs ->
  HasSuffix p "*" = match last xs with Some "" => true | _ => false end.
Proof.
  revert x xs. induction p as [|c p IH]; intros x xs Hp; [done|]. rewrite Split_cons.
  destruct (Split_nonempty p) as (y & ys & E). rewrite E in IH |- *.
  destruct (decide (p = "")) as [->|Hne].
  - cbn in E. simplify_eq. unfold HasSuffix, star. cbn [len String.length Nat.sub str_drop Nat.leb andb].
    destruct (decide (c = "*"%char)) as [->|Hc].
    + rewrite bool_decide_eq_true_2 by done. by intros [= <- <-].
    + rewrite bool_decide_eq_false_2 by done. intros [= <- <-]. cbn.
      destruct (Ascii.eqb_spec c "*"); [done|done].
  - rewrite HasSuffix_cons, (IH y ys Hne eq_refl) by done.
    case_bool_decide; intros [= <- <-]; [|done]. destruct ys as [|z ys]; [|done].
    apply Split_single in E as ->. by destruct p.
Qed.

(** The loop of [matches] finds the literals greedily, which is enough. *)
Lemma HasSuffix_rest a v l :
  ((Z.of_nat (len a) <=? Z.of_nat (len (a +:+ v)) - Z.of_nat (len l)) && HasSuffix (a +:+ v) l) = true <->
  exists skip, v = skip +:+ l.
Proof.
  rewrite andb_true_iff, Z.leb_le, HasSuffix_spec, str_len_app. split.
  - intros [Hle (t & Ht)]. exists (str_drop (len a) t).
    pose proof (f_equal len Ht) as Hlen. rewrite !str_len_app in Hlen.
    apply (f_equal (str_drop (len a))) in Ht. rewrite str_drop_app in Ht. rewrite Ht.
    apply str_drop_app_le. lia.
  - intros (skip & ->). rewrite str_len_app. split; [lia|]. exists (a +:+ skip). apply str_app_assoc.
Qed.

Lemma match_from_tails p a v ls :
  match_from p (a +:+ v) (len a) false ls = true <-> tails ls (trailingStar p) v.
Proof.
  revert a v. induction ls as [|l ls IH]; intros a v.
  - cbn. rewrite orb_true_iff, Nat.eqb_eq, str_len_app. split.
    + intros [?|H]; [by left|]. right. apply str_len_nil. lia.
    + intros [?| ->]; [by left|]. right. cbn. lia.
  - cbn [match_from andb]. destruct (match ls with [] => true | _ => false end && negb (trailingStar p)) eqn:E.
    + destruct ls; [|done]. apply andb_true_iff in E as [_ E%negb_true_iff]. rewrite HasSuffix_rest, E.
      cbn. split; [intros (skip & ->)|intros (skip & rest & -> & [?| ->])]; [|done|].
      * exists skip, "". rewrite str_app_nil_r. auto.
      * exists skip. by rewrite str_app_nil_r.
    + rewrite str_drop_app. assert (Hmono : ls <> [] \/ trailingStar p = true).
      { destruct ls; [|by left]. cbn in E. apply negb_false_iff in E. by right. }
      destruct (Index v l) as [k|] eqn:Ei.
      * apply Index_Some in Ei as Hk. destruct Hk as (x & b & -> & <-).
        rewrite str_app_assoc, str_app_assoc, <- !str_len_app, IH. cbn. split.
        -- intros H. by exists x, b.
        -- intros (skip & rest & Hv & H).
           destruct (Index_first _ _ _ _ Hv) as (k' & Hk' & Hle).
           assert (k' = len x) as -> by congruence.
           destruct (str_app_split x (l +:+ b) skip (l +:+ rest)) as (m & -> & Hm); [done|done|].
           assert (exists n, b = n +:+ rest) as (n & ->); [|by apply tails_skip].
           exists (str_drop (len l) (m +:+ l)). apply (f_equal (str_drop (len l))) in Hm.
           rewrite str_drop_app, str_app_assoc in Hm. rewrite Hm. apply str_drop_app_le.
           rewrite str_len_app. lia.
      * split; [done|]. cbn. intros (skip & rest & Hv & _).
        destruct (Index_first _ _ _ _ Hv) as (k & Hk & _). congruence.
Qed.

Lemma literals_none x xs p :
  p <> "" -> Split p star = x :: xs -> List.filter nonempty (x :: xs) = [] -> HasSuffix p "*" = true.
Proof.
  intros Hp E Hf. rewrite (trailing_star p x xs) by done.
  assert (forall y, y ∈ x :: xs -> y = "") as Hall.
  { intros y Hy. destruct (String.eqb_spec y "") as [|Hne]; [done|].
    assert (y ∈ List.filter nonempty (x :: xs)) as Hin.
    { apply list_elem_of_In, filter_In. split; [by apply list_elem_of_In|].
      unfold nonempty. by apply negb_true_iff, String.eqb_neq. }
    rewrite Hf in Hin. by apply elem_of_nil in Hin. }
  destruct (last xs) as [y|] eqn:El.
  - rewrite (Hall y); [done|]. right. by apply last_Some_elem_of.
  - apply last_None in El as ->. apply Split_single in E. by rewrite <- E, (Hall x) in Hp by (by left).
Qed.

(** The loop from the start: the first literal is a prefix unless a star leads. *)
Lemma match_from_start p value l ls :
  leadingStar p = false -> match_from p value 0 true (l :: ls) = true <->
  exists rest, value = l +:+ rest /\ tails ls (trailingStar p) rest.
Proof.
  intros Hl. cbn [match_from andb]. rewrite Hl. cbn [negb].
  destruct (HasPrefix value l) eqn:E.
  - apply HasPrefix_spec in E as [t ->]. rewrite match_from_tails. split; [eauto|].
    intros (rest & H & Ht). apply (f_equal (str_drop (len l))) in H. rewrite !str_drop_app in H.
    by subst.
  - split; [done|]. intros (rest & -> & _). by rewrite HasPrefix_app in E.
Qed.

Lemma match_from_star p value ls :
  leadingStar p = true -> match_from p value 0 true ls = true <-> tails ls (trailingStar p) value.
Proof.
  intros Hl. rewrite <- (match_from_tails p "" value ls). destruct ls as [|l ls]; [done|].
  cbn [match_from andb String.append String.length]. by rewrite Hl.
Qed.

(** ** Lemmas on ordering *)

Lemma rotate_Permutation l i : rotate l i ≡ₚ l.
Proof.
  unfold rotate. destruct l as [|x l]; [done|]. destruct (_ =? 0); [done|].
  rewrite Permutation_app_comm. by rewrite take_drop.
Qed.

Lemma rotate_lookup l i j :
  0 <= i -> (j < length l)%nat ->
  rotate l i !! j = l !! Z.to_nat ((i + Z.of_nat j) mod Z.of_nat (length l)).
Proof.
  intros Hi Hj. unfold rotate. destruct l as [|x l]; [cbn in Hj; lia|].
  set (n := length (x :: l)) in *. rewrite Z.rem_mod_nonneg by lia.
  pose proof (Z.mod_pos_bound i (Z.of_nat n) ltac:(lia)) as Hb.
  rewrite <- (Z.add_mod_idemp_l i) by lia. set (k := i mod Z.of_nat n) in *. clearbody k. clear Hi i.
  destruct (Z.eqb_spec k 0) as [->|Hk]; [by rewrite Z.add_0_l, Z.mod_small, Nat2Z.id by lia|].
  destruct (decide (k + Z.of_nat j < Z.of_nat n)) as [Hlt|Hge].
  - rewrite Z.mod_small by lia. rewrite lookup_app_l by (rewrite length_drop; fold n; lia).
    rewrite lookup_drop. f_equal. lia.
  - replace ((k + Z.of_nat j) mod Z.of_nat n) with (k + Z.of_nat j - Z.of_nat n)
      by (apply (Z.mod_unique_pos _ _ 1); lia).
    rewrite lookup_app_r by (rewrite length_drop; fold n; lia).
    rewrite length_drop. fold n. rewrite lookup_take_lt by lia. f_equal. lia.
Qed.

Lemma elem_of_dedupe seen l x : x ∈ dedupe seen l <-> x ∈ l /\ x ∉ seen.
Proof.
  revert seen. induction l as [|y l IH]; intros seen; cbn [dedupe]; [set_solver|].
  case_bool_decide; rewrite ?elem_of_cons, IH; [set_solver|].
  destruct (decide (x = y)); set_solver.
Qed.

Lemma NoDup_dedupe seen l : NoDup (dedupe seen l).
Proof.
  revert seen. induction l as [|y l IH]; intros seen; cbn [dedupe]; [constructor|].
  case_bool_decide; [apply IH|]. constructor; [|apply IH]. rewrite elem_of_dedupe. set_solver.
Qed.

Lemma head_dedupe l : head (dedupePreserveOrder l) = head l.
Proof. destruct l as [|x l]; [done|]. unfold dedupePreserveOrder. cbn. by case_bool_decide; [set_solver|]. Qed.

(** The outbounds a rule rotates over: one entry per turn *)
Definition turns (rule : compiledRule) : list string :=
  if cr_strategy rule == RoutingStrategyRoundRobin then cr_resolvedSet rule
  else cr_weightedResolved rule.

Definition rotates (rule : compiledRule) : Prop :=
  cr_strategy rule = RoutingStrategyRoundRobin \/ cr_strategy rule = RoutingStrategyWeightedRoundRobin.

Definition counter (r : Router) (rule : compiledRule) : Z := default 0 (r_roundRobin r !! cr_name rule).

Definition first_target (p : result goerror ExecutionPlan) : option string :=
  match p with
  | Ok p => st_OutboundName <$> head (plan_Steps p)
  | Err _ => None
  end.

(** Successive plans of the same request *)
Fixpoint run_plans (r : Router) (ctx : RouteContext) (n : nat) : list (result goerror ExecutionPlan) :=
  match n with
  | O => []
  | S n => let '(p, r) := Plan r ctx in p :: run_plans r ctx n
  end.

Lemma plan_step_name r m o : st_OutboundName (plan_step r m o) = o.
Proof. unfold plan_step. by destruct (resolveOutboundModel _ _). Qed.

Lemma head_map {A B} (f : A -> B) l : head (map f l) = f <$> head l.
Proof. by destruct l. Qed.

Lemma head_lookup {A} (l : list A) : head l = l !! 0%nat.
Proof. by destruct l. Qed.

Lemma nextRoundRobinIndex_spec counters key n :
  n <> 0%nat -> 0 <= default 0 (counters !! key) ->
  let i := default 0 (counters !! key) mod Z.of_nat n in
  nextRoundRobinIndex counters key n = (i, <[key := (i + 1) mod Z.of_nat n]> counters).
Proof.
  intros Hn Hc i. unfold nextRoundRobinIndex. rewrite (proj2 (Nat.eqb_neq n 0)) by done.
  rewrite Z.rem_mod_nonneg by lia. fold i.
  pose proof (Z.mod_pos_bound (default 0 (counters !! key)) (Z.of_nat n) ltac:(lia)).
  by rewrite Z.rem_mod_nonneg by lia.
Qed.

Lemma order_targets_rotates rule counters :
  rotates rule -> turns rule <> [] -> 0 <= default 0 (counters !! cr_name rule) ->
  let n := Z.of_nat (length (turns rule)) in
  let i := default 0 (counters !! cr_name rule) mod n in
  exists ordered,
    order_targets rule true counters = (ordered, <[cr_name rule := (i + 1) mod n]> counters) /\
    head ordered = turns rule !! Z.to_nat i.
Proof.
  intros Hrot Ht Hc n i.
  assert (length (turns rule) <> 0%nat) as Hn by (by destruct (turns rule)).
  pose proof (Z.mod_pos_bound (default 0 (counters !! cr_name rule)) n ltac:(lia)) as Hb.
  pose proof (rotate_lookup (turns rule) i 0 ltac:(lia) ltac:(lia)) as Hr.
  fold n in Hr. rewrite Z.add_0_r, (Z.mod_small i) in Hr by done. rewrite <- Hr, <- head_lookup.
  pose proof (nextRoundRobinIndex_spec counters (cr_name rule) (length (turns rule)) Hn Hc) as Hx.
  cbv zeta in Hx. fold n in Hx. fold i in Hx. clear Hr Hb Hn.
  unfold order_targets. unfold turns in *. clearbody n i.
  destruct Hrot as [Hs|Hs]; rewrite Hs in Hx |- *;
    change (RoutingStrategyWeightedRoundRobin == RoutingStrategyRoundRobin) with false in *;
    rewrite ?String.eqb_refl in Hx |- *; rewrite Hx; eexists; (split; [done|]); [done|apply head_dedupe].
Qed.

Lemma Plan_first r ctx rule :
  find (rule_matches ctx) (r_rules r) = Some rule -> cr_resolvedSet rule <> [] ->
  rotates rule -> turns rule <> [] -> 0 <= counter r rule ->
  let '(p, r') := Plan r ctx in
  let n := Z.of_nat (length (turns rule)) in
  first_target p = turns rule !! Z.to_nat (counter r rule mod n) /\
  r_rules r' = r_rules r /\ counter r' rule = (counter r rule + 1) mod n.
Proof.
  intros Hf Hne Hrot Ht Hc. unfold Plan, plan. rewrite Hf.
  destruct (order_targets_rotates rule (r_roundRobin r) Hrot Ht Hc) as (ordered & -> & Hhead).
  destruct (cr_resolvedSet rule) as [|x xs]; [done|].
  cbn [first_target plan_Steps with_counters r_rules].
  rewrite head_map. unfold counter at 2. cbn [with_counters r_roundRobin]. rewrite lookup_insert_eq.
  assert (length (turns rule) <> 0%nat) as Hn by (by destruct (turns rule)).
  cbn [default from_option]. unfold id. fold (counter r rule). rewrite Z.add_mod_idemp_l by lia.
  split; [|done]. fold (counter r rule) in Hhead. rewrite <- Hhead.
  destruct (head ordered) as [o|]; cbn; [|done]. by rewrite plan_step_name.
Qed.

Lemma run_plans_first ctx rule m r :
  find (rule_matches ctx) (r_rules r) = Some rule -> cr_resolvedSet rule <> [] ->
  rotates rule -> turns rule <> [] -> 0 <= counter r rule ->
  forall j, (j < m)%nat -> first_target <$> run_plans r ctx m !! j =
    Some (turns rule !! Z.to_nat ((counter r rule + Z.of_nat j) mod Z.of_nat (length (turns rule)))).
Proof.
  intros Hf Hne Hrot Ht. revert r Hf. induction m as [|m IH]; intros r Hf Hc j Hj; [lia|].
  pose proof (Plan_first r ctx rule Hf Hne Hrot Ht Hc) as H.
  assert (length (turns rule) <> 0%nat) as Hn by (by destruct (turns rule)).
  cbn [run_plans]. destruct (Plan r ctx) as [p r']. destruct H as (Hp & Hr & Hc').
  destruct j as [|j]; cbn [lookup list_lookup fmap option_fmap option_map].
  - by rewrite Z.add_0_r, Hp.
  - fold (list_lookup (A:=result goerror ExecutionPlan)).
    pose proof (Z.mod_pos_bound (counter r rule + 1) (Z.of_nat (length (turns rule))) ltac:(lia)).
    specialize (IH r' ltac:(by rewrite Hr) ltac:(lia) j ltac:(lia)).
    etransitivity; [exact IH|]. rewrite Hc', Z.add_mod_idemp_l by lia. do 4 f_equal. lia.
Qed.

(** ** Lemmas on compilation *)

(** What the first loop of [New] has collected *)
Record tables_ok (providers : gmap string Provider) (done : list OutboundSpec) (t : routing_tables)
    : Prop := {
  to_declared : forall tag, tag ∈ t_declaredTags t <-> exists o, o ∈ done /\ ob_Tag o = tag;
  to_names : forall tag name, name ∈ outbounds_of (t_outboundByTag t) tag <->
    exists o, o ∈ done /\ OutboundEnabled o = true /\ ob_Tag o = tag /\ ob_Name o = name;
  to_providers : forall o, o ∈ done -> OutboundEnabled o = true -> is_Some (providers !! ob_Name o)
}.

Lemma outbounds_of_insert m tag l tag' :
  outbounds_of (<[tag := l]> m) tag' = if decide (tag = tag') then l else outbounds_of m tag'.
Proof.
  unfold outbounds_of. destruct (decide (tag = tag')) as [->|Hne].
  - by rewrite lookup_insert_eq.
  - by rewrite lookup_insert_ne.
Qed.

Lemma index_outbound_ok providers done t t' o :
  tables_ok providers done t -> index_outbound providers t o = Ok t' ->
  tables_ok providers (done ++ [o]) t'.
Proof.
  intros [Hd Hn Hp] H. unfold index_outbound in H.
  assert (Hsnoc : forall P : OutboundSpec -> Prop,
    (exists x, x ∈ done ++ [o] /\ P x) <-> (exists x, x ∈ done /\ P x) \/ P o).
  { intros P. split.
    - intros (x & [Hx| ->%list_elem_of_singleton]%elem_of_app & HP); eauto.
    - intros [(x & Hx & HP)|HP]; [exists x|exists o]; rewrite elem_of_app, list_elem_of_singleton; auto. }
  assert (Hdecl : forall tag, tag ∈ {[ ob_Tag o ]} ∪ t_declaredTags t <->
    exists x, x ∈ done ++ [o] /\ ob_Tag x = tag).
  { intros tag. rewrite elem_of_union, elem_of_singleton, Hd, Hsnoc. naive_solver. }
  destruct (OutboundEnabled o) eqn:En; cbn [negb] in H.
  - destruct (providers !! ob_Name o) as [p|] eqn:E; simplify_eq. split; [done|..]; cbn.
    + intros tag name. rewrite outbounds_of_insert, Hsnoc, <- Hn. case_decide as Ht.
      * subst tag. rewrite elem_of_app, list_elem_of_singleton. naive_solver.
      * naive_solver.
    + intros x [Hx| ->%list_elem_of_singleton]%elem_of_app Hx'; [by apply Hp|by eexists].
  - simplify_eq. split; [done|..]; cbn.
    + intros tag name. rewrite Hsnoc, Hn. split; [by left|]. intros [?|(? & _)]; congruence.
    + intros x [Hx| ->%list_elem_of_singleton]%elem_of_app Hx'; [by apply Hp|congruence].
Qed.

Lemma index_outbounds_ok providers outbounds t :
  fold_err (index_outbound providers) (mkTables ∅ ∅ ∅) outbounds = Ok t ->
  tables_ok providers outbounds t.
Proof.
  apply (fold_err_inv _ (tables_ok providers)); [|intros; by eapply index_outbound_ok].
  split; cbn.
  - intros tag. split; [set_solver|]. intros (o & Ho & _). by apply elem_of_nil in Ho.
  - intros tag name. unfold outbounds_of. rewrite lookup_empty. cbn. split.
    + intros H. by apply elem_of_nil in H.
    + intros (o & Ho & _). by apply elem_of_nil in Ho.
  - intros o Ho. by apply elem_of_nil in Ho.
Qed.

(** The first loop succeeds when every enabled outbound has a provider. *)
Lemma index_outbounds_total providers outbounds t0 :
  (forall o, o ∈ outbounds -> OutboundEnabled o = true -> is_Some (providers !! ob_Name o)) ->
  exists t, fold_err (index_outbound providers) t0 outbounds = Ok t.
Proof.
  revert t0. induction outbounds as [|o l IH]; intros t0 H; cbn [fold_err]; [eauto|].
  assert (exists t, index_outbound providers t0 o = Ok t) as [t ->].
  { unfold index_outbound. destruct (OutboundEnabled o) eqn:E; cbn [negb]; [|eauto].
    destruct (H o ltac:(by left) E) as [p ->]. eauto. }
  cbn. apply IH. intros x Hx. apply H. by right.
Qed.

(** The second loop of [New] *)
Lemma tags_declared (t : routing_tables) rules :
  for_each (fun rule =>
    for_each (fun tag => require (bool_decide (tag ∈ t_declaredTags t))
                           (UnknownOutboundTag (rr_Name rule) tag)) (rr_ToTags rule)) rules = Ok tt <->
  forall rule tag, rule ∈ rules -> tag ∈ rr_ToTags rule -> tag ∈ t_declaredTags t.
Proof.
  rewrite for_each_Ok, Forall_forall. setoid_rewrite for_each_Ok. setoid_rewrite Forall_forall.
  split.
  - intros H rule tag Hr Ht. specialize (H rule Hr tag Ht). by apply require_Ok, bool_decide_eq_true in H.
  - intros H rule Hr tag Ht. by rewrite bool_decide_eq_true_2 by (by eapply H).
Qed.

Lemma New_inv cfg providers outbounds r :
  New cfg providers outbounds = Ok r ->
  exists t, tables_ok providers outbounds t /\
    r = mkRouter (compileRules (rt_Rules cfg) (t_outboundByTag t)) providers (t_outboundByTag t)
          (t_modelsByTarget t) ∅.
Proof.
  unfold New. intros (t & Ht & H)%bind_Ok. apply bind_Ok in H as (u & _ & H).
  simplify_eq. exists t. split; [by apply index_outbounds_ok|done].
Qed.

(** [New] succeeds when the providers and the tags it needs are there. *)
Lemma New_total cfg providers outbounds :
  (forall o, o ∈ outbounds -> OutboundEnabled o = true -> is_Some (providers !! ob_Name o)) ->
  (forall rule tag, rule ∈ rt_Rules cfg -> tag ∈ rr_ToTags rule ->
     exists o, o ∈ outbounds /\ ob_Tag o = tag) ->
  exists r, New cfg providers outbounds = Ok r.
Proof.
  intros Hp Ht. destruct (index_outbounds_total providers outbounds (mkTables ∅ ∅ ∅) Hp) as [t E].
  unfold New. rewrite E. cbn [mbind result_bind]. pose proof (index_outbounds_ok _ _ _ E) as Hok.
  rewrite (proj2 (tags_declared t (rt_Rules cfg))); [by eexists|].
  intros rule tag Hr Htag. apply (to_declared _ _ _ Hok). by eapply Ht.
Qed.

(** Which outbounds a compiled rule resolves to *)
Definition weights_positive (rule : RoutingRule) : Prop :=
  rr_Strategy rule = RoutingStrategyWeightedRoundRobin ->
  Forall (fun tag => 0 < default 0 (rr_Weights rule !! tag)) (rr_ToTags rule).

Lemma elem_of_repeated (l : list string) n x : (0 < n)%nat -> x ∈ concat (repeat l n) <-> x ∈ l.
Proof.
  intros Hn. rewrite list_elem_of_In, in_concat. split.
  - intros (k & Hk & Hx). apply repeat_spec in Hk as ->. by apply list_elem_of_In.
  - intros Hx. exists l. split; [|by apply list_elem_of_In]. destruct n; [lia|]. by left.
Qed.

Lemma compileRule_targets byTag i rule mutate counters name :
  weights_positive rule ->
  let c := compileRule byTag i rule in
  name ∈ (order_targets c mutate counters).1 <->
  exists tag, tag ∈ rr_ToTags rule /\ name ∈ outbounds_of byTag tag.
Proof.
  intros Hw c.
  assert (Hres : name ∈ cr_resolvedSet c <-> exists tag, tag ∈ rr_ToTags rule /\ name ∈ outbounds_of byTag tag).
  { cbn. rewrite list_elem_of_In, in_flat_map. by setoid_rewrite list_elem_of_In. }
  assert (Hrot : forall l, name ∈ (if mutate then
      let '(index, counters) := nextRoundRobinIndex counters (cr_name c) (length l) in
      (rotate l index, counters) else (l, counters)).1 <-> name ∈ l).
  { intros l. destruct mutate; [|done]. destruct (nextRoundRobinIndex _ _ _). cbn.
    by rewrite rotate_Permutation. }
  rewrite <- Hres. unfold order_targets. change (cr_strategy c) with (rr_Strategy rule).
  destruct (String.eqb_spec (rr_Strategy rule) RoutingStrategyRoundRobin) as [_|_]; [apply Hrot|].
  destruct (String.eqb_spec (rr_Strategy rule) RoutingStrategyWeightedRoundRobin) as [Hs|_]; [|done].
  specialize (Hrot (cr_weightedResolved c)). rewrite (surjective_pairing (if mutate then _ else _)).
  cbn [fst]. unfold dedupePreserveOrder. rewrite elem_of_dedupe, Hrot, Hres.
  assert (name ∈ cr_weightedResolved c <-> exists tag, tag ∈ rr_ToTags rule /\ name ∈ outbounds_of byTag tag)
    as ->; [|set_solver].
  unfold c, compileRule. cbn [cr_weightedResolved]. rewrite Hs, String.eqb_refl.
  unfold expandWeightedResolved. rewrite list_elem_of_In, in_flat_map.
  setoid_rewrite <- list_elem_of_In. specialize (Hw Hs). rewrite Forall_forall in Hw.
  split; intros (tag & Ht & Hin); exists tag; (split; [done|]); specialize (Hw tag Ht).
  - apply elem_of_repeated in Hin; [done|lia].
  - apply elem_of_repeated; [lia|done].
Qed.

(** ** Properties *)

(** C25: a model pattern matches exactly the models of its glob: a non-empty pattern,
    compiled to its literals and matched greedily, accepts a model if and only if the
    model is the pattern with every star replaced by some bytes. *)
Theorem matches_glob pattern value :
  pattern <> "" -> pattern_matches (compilePattern pattern) value = true <-> glob pattern value.
Proof.
  intros Hp. rewrite glob_parts. destruct (Split_nonempty pattern) as (x & xs & E).
  pose proof (leading_star _ _ _ Hp E) as Hl. pose proof (trailing_star _ _ _ Hp E) as Ht.
  pose proof (literals_none x xs pattern Hp E) as Hnone.
  assert (Hparts : parts_match (x :: xs) value <->
    exists rest, value = x +:+ rest /\ tails (List.filter nonempty xs) (HasSuffix pattern "*") rest).
  { cbn. by setoid_rewrite parts_tail_literals; rewrite <- Ht. }
  rewrite E, Hparts. clear Hparts Ht. unfold pattern_matches, compilePattern. rewrite E.
  cbn [literals]. fold nonempty. destruct x as [|c x].
  - set (p := mkWildcardPattern _ _ _). change (List.filter nonempty ("" :: xs)) with
      (List.filter nonempty xs) in *.
    assert (tails (List.filter nonempty xs) (trailingStar p) value <-> exists rest, value = "" +:+ rest /\
      tails (List.filter nonempty xs) (HasSuffix pattern "*") rest) as <-
      by (split; [eauto|by intros (? & -> & ?)]).
    rewrite <- (match_from_star p) by done. destruct (List.filter nonempty xs); [|done].
    cbn. by rewrite Hnone.
  - change (List.filter nonempty (String c x :: xs)) with (String c x :: List.filter nonempty xs).
    by rewrite match_from_start.
Qed.

(** Rotation is fair.  Over as many consecutive plans as a round-robin rule has
    outbounds - or, for weighted round robin, as its weights add up to - every
    outbound is the first to be tried exactly as often as it has turns, wherever the
    rotation stands. *)
Theorem rotation_fair r ctx rule :
  find (rule_matches ctx) (r_rules r) = Some rule -> cr_resolvedSet rule <> [] ->
  rotates rule -> turns rule <> [] -> 0 <= counter r rule ->
  map first_target (run_plans r ctx (length (turns rule))) ≡ₚ map Some (turns rule).
Proof.
  intros Hf Hne Hrot Ht Hc. transitivity (map Some (rotate (turns rule) (counter r rule)));
    [|apply Permutation_map, rotate_Permutation].
  match goal with |- ?a ≡ₚ ?b => assert (a = b) as -> ; [|done] end. apply list_eq. intros j.
  assert (Hlen : forall r n, length (run_plans r ctx n) = n).
  { intros r0 n. revert r0. induction n as [|n IH]; intros r0; cbn; [done|].
    destruct (Plan r0 ctx). cbn. by rewrite IH. }
  destruct (decide (j < length (turns rule))%nat) as [Hj|Hj].
  - rewrite !list_lookup_fmap, (rotate_lookup (turns rule)) by done.
    rewrite (run_plans_first ctx rule) by done.
    destruct (turns rule !! _) eqn:E; [done|]. apply lookup_ge_None in E.
    pose proof (Z.mod_pos_bound (counter r rule + Z.of_nat j) (Z.of_nat (length (turns rule)))). lia.
  - rewrite !lookup_ge_None_2; [done|..]; rewrite length_map.
    + rewrite rotate_Permutation. lia.
    + rewrite Hlen. lia.
Qed.

(** [New] succeeds exactly on consistent input: every enabled outbound has a
    provider and every tag a rule routes to is the tag of some outbound. *)
Theorem New_succeeds_iff cfg providers outbounds :
  is_Ok (New cfg providers outbounds) = true <->
  (forall o, o ∈ outbounds -> OutboundEnabled o = true -> is_Some (providers !! ob_Name o)) /\
  (forall rule tag, rule ∈ rt_Rules cfg -> tag ∈ rr_ToTags rule ->
     exists o, o ∈ outbounds /\ ob_Tag o = tag).
Proof.
  split.
  - unfold New. destruct (fold_err _ _ _) as [t|e] eqn:E; [|done]. pose proof (index_outbounds_ok _ _ _ E) as Hok.
    cbn [mbind result_bind]. destruct (for_each _ _) as [[]|e] eqn:Ef; [|done]. intros _.
    split; [apply Hok|]. intros rule tag Hr Ht. apply (to_declared _ _ _ Hok).
    by eapply (proj1 (tags_declared t (rt_Rules cfg))).
  - intros [Hp Ht]. by destruct (New_total cfg providers outbounds Hp Ht) as [r ->].
Qed.

(** A plan tries exactly the outbounds its rule routes to.  For a router made by
    [New], whatever its counters, the outbounds of a plan's steps are the enabled
    outbounds whose tag the matched rule names, each with the provider registered for
    it; the weights of weighted rules must be positive. *)
Theorem plan_targets cfg providers outbounds r0 counters ctx mutate p r' :
  New cfg providers outbounds = Ok r0 ->
  Forall weights_positive (rt_Rules cfg) ->
  plan (with_counters r0 counters) ctx mutate = (Ok p, r') ->
  (forall name, name ∈ map st_OutboundName (plan_Steps p) <->
     exists o, o ∈ outbounds /\ OutboundEnabled o = true /\ ob_Name o = name /\
       ob_Tag o ∈ plan_ResolvedToTags p) /\
  Forall (fun s => st_OutboundTarget s = providers !! st_OutboundName s /\ is_Some (st_OutboundTarget s))
    (plan_Steps p).
Proof.
  intros HN Hw Hplan. apply New_inv in HN as (t & Hok & ->). unfold plan in Hplan.
  cbn [with_counters r_rules r_roundRobin] in Hplan.
  destruct (find _ _) as [c|] eqn:Hf; [|done]. apply find_some in Hf as [Hin _].
  apply list_elem_of_In, elem_of_lookup_imap in Hin as (i & rule & -> & Hrule).
  destruct (cr_resolvedSet _) as [|x xs]; [done|].
  pose proof (compileRule_targets (t_outboundByTag t) i rule mutate counters) as Ht.
  rewrite Forall_forall in Hw. specialize (fun name => Ht name (Hw rule (list_elem_of_lookup_2 _ _ _ Hrule))).
  cbv zeta in Ht. destruct (order_targets _ _ _) as [ordered counters']. injection Hplan as <- _.
  cbn [plan_Steps plan_ResolvedToTags fst] in *. change (cr_toTags _) with (rr_ToTags rule).
  assert (Hnames : forall name, name ∈ ordered <-> exists o, o ∈ outbounds /\ OutboundEnabled o = true /\
    ob_Name o = name /\ ob_Tag o ∈ rr_ToTags rule).
  { intros name. rewrite Ht. setoid_rewrite (to_names _ _ _ Hok). naive_solver. }
  rewrite map_map. split.
  - intros name. rewrite <- Hnames. rewrite (map_ext _ (fun o => o)); [by rewrite map_id|].
    intros o. apply plan_step_name.
  - apply Forall_map, Forall_forall. intros name Hn. rewrite plan_step_name. unfold plan_step.
    destruct (resolveOutboundModel _ _). cbn. split; [done|].
    apply Hnames in Hn as (o & Ho & He & <- & _). by apply (to_providers _ _ _ Hok).
Qed.

(** ** Witnesses *)

Lemma matches_glob_witness :
  pattern_matches (compilePattern "claude-*-4*") "claude-opus-4.1" = true /\
  glob "claude-*-4*" "claude-opus-4.1".
Proof. split; [by vm_compute|]. apply (matches_glob "claude-*-4*"); [done|by vm_compute]. Defined.

Definition witness_outbound (name tag : string) : OutboundSpec :=
  mkOutboundSpec name "mock" "" "" (mkOutboundAuthConfig "" "") tag None []
    (mkOutboundCapabilities None None None None false "")
    (mkOutboundQuotaConfig false [] "" "" (mkQuotaResetAllConfig false
       (mkQuotaResetScheduleConfig "" "" "" "" "" "")))
    (mkOutboundProxyConfig "").
Definition witness_rule : RoutingRule :=
  mkRoutingRule "r" ["t"] ["x"; "y"] RoutingStrategyWeightedRoundRobin
    {[ "x" := 2; "y" := 1 ]} "" ∅ None.
Definition witness_providers : gmap string Provider :=
  {[ "a" := mkProvider MockProvider "a"; "b" := mkProvider MockProvider "b" ]}.
Definition witness_outbounds : list OutboundSpec := [witness_outbound "a" "x"; witness_outbound "b" "y"].
Definition witness_ctx : RouteContext :=
  mkRouteContext (mkRequest "m" "" 0 [] [] "" false "" "" "" "" "") "c" "in" "openai_chat" "t".
Definition witness_compiled : compiledRule :=
  compileRule {[ "x" := ["a"]; "y" := ["b"] ]} 0 witness_rule.
Definition witness_router : Router :=
  mkRouter [witness_compiled] witness_providers {[ "x" := ["a"]; "y" := ["b"] ]}
    {[ "a" := None; "b" := None ]} ∅.

(** Twice [a] and once [b] first, from any counter *)
Lemma rotation_fair_witness :
  let r := with_counters witness_router {[ "r" := 2 ]} in
  map first_target (run_plans r witness_ctx 3) = [Some "b"; Some "a"; Some "a"] /\
  map first_target (run_plans r witness_ctx 3) ≡ₚ map Some ["a"; "a"; "b"].
Proof.
  split; [by vm_compute|].
  apply (rotation_fair (with_counters witness_router {[ "r" := 2 ]}) witness_ctx witness_compiled);
    [by vm_compute|done|by right|done|by vm_compute].
Defined.

Lemma plan_targets_witness :
  New (mkRoutingConfig [witness_rule]) witness_providers witness_outbounds = Ok witness_router /\
  exists p, (Plan witness_router witness_ctx).1 = Ok p /\
    map st_OutboundName (plan_Steps p) = ["a"; "b"] /\
    forall name, name ∈ map st_OutboundName (plan_Steps p) <->
      exists o, o ∈ witness_outbounds /\ OutboundEnabled o = true /\ ob_Name o = name /\
        ob_Tag o ∈ plan_ResolvedToTags p.
Proof.
  assert (New (mkRoutingConfig [witness_rule]) witness_providers witness_outbounds = Ok witness_router) as HN
    by (by vm_compute).
  split; [done|]. destruct (Plan witness_router witness_ctx) as [[p|e] r'] eqn:E; [|by vm_compute in E].
  assert (map st_OutboundName (plan_Steps p) = ["a"; "b"]) as Hs
    by (vm_compute in E; injection E as <- _; done).
  exists p. split; [done|]. split; [done|].
  apply (plan_targets (mkRoutingConfig [witness_rule]) witness_providers witness_outbounds witness_router
    ∅ witness_ctx true p r'); [done| |exact E].
  apply Forall_singleton. intros _. repeat constructor.
Defined.
