(* ===== verification/Accounting.v ===== *)
(** * Usage accounting

    Models [internal/accounting/types.go], [internal/accounting/pricing.go] and the
    in-memory store of [internal/accounting/memory.go]: prices, the aggregates kept
    by group and by time bucket, recent records and queries.

    The price list that the build embeds, [pricing_default.json], is
    [defaultPriceSnapshotJSON]; what [loadDefaultPriceSnapshot] makes of it is the argument
    [builtIn] of [NewPriceCalculator].  Every method of the store holds its
    mutex and is one atomic step.  The maps of tool units a query returns are the
    store's own; nothing in the program writes to them through a query's result. *)

From Stdlib Require Import SpecFloat.
From S2P Require GoJson.
From S2P Require Import Prelude GoStrings GoTime RuntimeModel ConfigTypes.

(** ** The built-in prices *)

Record defaultPriceSnapshot := mkDefaultPriceSnapshot {
  dps_Repository : string; dps_Revision : string; dps_Path : string; dps_UpdatedAt : string;
  dps_Items : list AccountingPriceConfig
}.
Definition as_float (j : GoJson.json) : option float64 :=
  match j with GoJson.JNum lit => GoJson.parse_float lit | GoJson.JNull => Some fzero | _ => None end.
Definition dec_price (j : GoJson.json) : option AccountingPriceConfig :=
  let rate := GoJson.field fzero as_float in
  ms ← GoJson.as_object j; provider ← GoJson.f_string "provider" ms; model ← GoJson.f_string "model" ms;
  input ← rate "input_per_million_usd" ms; output ← rate "output_per_million_usd" ms;
  create ← rate "cache_create_per_million_usd" ms; read ← rate "cache_read_per_million_usd" ms;
  Some (mkAccountingPriceConfig provider model input output create read).
Definition dec_source (j : GoJson.json) : option (string * string * string * string) :=
  ms ← GoJson.as_object j; repository ← GoJson.f_string "repository" ms; revision ← GoJson.f_string "revision" ms;
  path ← GoJson.f_string "path" ms; updated ← GoJson.f_string "updated_at" ms; Some (repository, revision, path, updated).
Definition dec_defaults (j : GoJson.json) : option defaultPriceSnapshot :=
  ms ← GoJson.as_object j; source ← GoJson.field ("", "", "", "") dec_source "source" ms;
  items ← GoJson.f_list dec_price "items" ms;
  let '(repository, revision, path, updated) := source in Some (mkDefaultPriceSnapshot repository revision path updated items).

(** The two panics of [loadDefaultPriceSnapshot] *)
Inductive pricesPanic := InvalidSnapshot | InvalidMetadata.
Definition loadDefaultPriceSnapshot (text : string) : result pricesPanic defaultPriceSnapshot :=
  match GoJson.Parse text ≫= dec_defaults with
  | None => Err InvalidSnapshot
  | Some snapshot =>
      if (dps_Repository snapshot == "") || (dps_Revision snapshot == "") || (length (dps_Items snapshot) =? 0)%nat
      then Err InvalidMetadata else Ok snapshot
  end.

(** ** Prices *)

Record PriceCalculator := mkPriceCalculator { pc_items : list AccountingPriceConfig }.

Definition NewPriceCalculator (builtIn items : list AccountingPriceConfig) : PriceCalculator :=
  mkPriceCalculator (builtIn ++ items).

(** The loop of [matchExact], on the items from the last to the first *)
Fixpoint match_items (provider model : string) (modelOnly : option AccountingPriceConfig)
    (items : list AccountingPriceConfig) : option AccountingPriceConfig :=
  match items with
  | [] => modelOnly
  | item :: items =>
      if ap_Model item != model then match_items provider model modelOnly items
      else if ap_Provider item == provider then Some item
      else
        let modelOnly :=
          if (ap_Provider item == "") && (match modelOnly with None => true | _ => false end)
          then Some item else modelOnly in
        match_items provider model modelOnly items
  end.
Definition matchExact (c : PriceCalculator) (provider model : string) : option AccountingPriceConfig :=
  match_items provider model None (rev (pc_items c)).

Definition slash : ascii := "/".
Definition price_match (c : PriceCalculator) (provider model : string) : option AccountingPriceConfig :=
  let provider := TrimSpace provider in
  let model := TrimSpace model in
  match matchExact c provider model with
  | Some price => Some price
  | None =>
      match LastIndexByte model slash with
      | Some separator => matchExact c "" (TrimSpace (str_drop (separator + 1) model))
      | None => None
      end
  end.

Definition million : float64 := float_of_int 1000000.
Definition perMillion (tokens : Z) (rate : float64) : float64 :=
  if (tokens <=? 0) || fleb0 rate then fzero
  else fdiv (fmul (float_of_int tokens) rate) million.

Definition CostUSDWithMatch (c : PriceCalculator) (provider model : string) (u : UsageBreakdown)
    : float64 * bool :=
  match price_match c provider model with
  | None => (fzero, false)
  | Some price =>
      (fadd (fadd (fadd (perMillion (ub_InputTokens u) (ap_InputPerMillionUSD price))
                        (perMillion (ub_OutputTokens u) (ap_OutputPerMillionUSD price)))
                  (perMillion (ub_CachedInputWriteTokens u) (ap_CacheCreatePerMillionUSD price)))
            (perMillion (ub_CachedInputReadTokens u) (ap_CacheReadPerMillionUSD price)), true)
  end.
Definition CostUSD (c : PriceCalculator) (provider model : string) (u : UsageBreakdown) : float64 :=
  (CostUSDWithMatch c provider model u).1.

(** ** Data of the store *)

Abbreviation Window := string.
Definition WindowTotal : Window := "total".
Definition WindowDay : Window := "day".
Definition WindowWeek : Window := "week".
Definition WindowMonth : Window := "month".

Record Query := mkQuery {
  q_GroupBy : string;
  q_Window : Window;
  q_Bucket : string;
  q_StartDate : string;
  q_EndDate : string;
  q_ClientName : string
}.

Record Coverage := mkCoverage {
  cov_TrackingStartedAt : string;
  cov_Known : bool;
  cov_Backend : string;
  cov_AggregatesPersisted : bool;
  cov_RawRetentionDays : Z
}.

Record RecentRecordsQuery := mkRecentRecordsQuery { rq_Since : Time; rq_Limit : Z }.

Record StatsItem := mkStatsItem {
  s_Value : string; s_Date : string; s_Agent : string; s_SessionID : string; s_Model : string;
  s_RequestCount : Z; s_SuccessCount : Z; s_ErrorCount : Z; s_FallbackCount : Z;
  s_InputTokens : Z; s_OutputTokens : Z;
  s_CachedInputReadTokens : Z; s_CachedInputWriteTokens : Z;
  s_CacheReadTokens : Z; s_CacheCreateTokens : Z; s_TotalTokens : Z;
  s_CostUSD : float64;
  s_ProviderUsageCount : Z; s_EstimatedUsageCount : Z;
  s_ToolUnits : gmap string float64;
  s_LastSeenAt : string
}.
Definition zero_item : StatsItem :=
  mkStatsItem "" "" "" "" "" 0 0 0 0 0 0 0 0 0 0 0 fzero 0 0 ∅ "".

Definition usageGroupBys : list string :=
  ["key"; "provider"; "model"; "inbound"; "source"; "outbound"; "error_kind"; "date"; "agent"; "session"].

Abbreviation group := (gmap string StatsItem).

Record MemoryStore := mkMemoryStore {
  ms_totals : gmap string group;
  ms_windows : gmap Window (gmap string group);
  ms_recent : list UsageRecord;
  ms_trackingStartedAt : Time;
  ms_coverageKnown : bool
}.

Definition defaultRecentRecordsLimit : nat := Z.to_nat 10000.

Definition newMemoryStore (trackingStartedAt : Time) (coverageKnown : bool) : MemoryStore :=
  mkMemoryStore ∅ {[ WindowDay := ∅; WindowWeek := ∅; WindowMonth := ∅ ]} [] trackingStartedAt
    coverageKnown.
Definition NewMemoryStore (now : Time) : MemoryStore := newMemoryStore now true.

(** ** Group values and buckets *)

Definition nonEmpty (value fallback : string) : string := if value != "" then value else fallback.

(** [fmt.Sprintf("%04d-W%02d")] of a year and an ISO week *)
Definition format_week (day : Z) : string :=
  let '(year, week) := iso_week day in
  (if 0 <=? year then format_year year else "-" +:+ fixed_digits 3 (- year))
    +:+ "-W" +:+ fixed_digits 2 week.

Definition record_timestamp (record : UsageRecord) : string :=
  if ur_FinishedAt record == "" then ur_StartedAt record else ur_FinishedAt record.

Definition recordTime (record : UsageRecord) : Time :=
  default zero_time (parse_rfc3339 (record_timestamp record)).

Definition timeBuckets (record : UsageRecord) : string * string * string :=
  match parse_rfc3339 (record_timestamp record) with
  | None => ("unknown", "unknown", "unknown")
  | Some parsed => (format_day parsed, format_week (parsed / Second / 86400), format_month parsed)
  end.

Definition usageGroupValue (record : UsageRecord) (groupBy : string) : string :=
  if groupBy == "key" then nonEmpty (ur_ClientName record) "unknown"
  else if groupBy == "provider" then
    nonEmpty (ur_ProviderName record) (nonEmpty (ur_OutboundName record) "unknown")
  else if groupBy == "model" then
    nonEmpty (ur_ExecutedModel record) (nonEmpty (ur_RequestedModel record) "unknown")
  else if groupBy == "inbound" then nonEmpty (ur_InboundName record) "unknown"
  else if groupBy == "source" then nonEmpty (ur_UsageSource record) "unknown"
  else if groupBy == "outbound" then nonEmpty (ur_OutboundName record) "unknown"
  else if groupBy == "error_kind" then nonEmpty (ur_ErrorKind record) "none"
  else if groupBy == "date" then (timeBuckets record).1.1
  else if groupBy == "agent" then nonEmpty (ur_Agent record) "unknown"
  else if groupBy == "session" then nonEmpty (ur_SessionID record) "unknown"
  else "unknown".

Definition bucketKey (window : Window) (bucket groupBy : string) : string :=
  window +:+ ":" +:+ bucket +:+ ":" +:+ groupBy.

(** ** Recording *)

Definition add_units (dst src : gmap string float64) : gmap string float64 :=
  merge (fun a b => match b with Some units => Some (fadd (default fzero a) units) | None => a end) dst src.

Definition record_count (record : UsageRecord) : Z :=
  let count := ub_RequestCount (ur_Breakdown record) in if count <=? 0 then 1 else count.

(** [applyToGroup] on the item it updates *)
Definition add_record (value : string) (item : StatsItem) (record : UsageRecord) : StatsItem :=
  let b := ur_Breakdown record in
  let count := record_count record in
  let cachedRead := i64 (s_CachedInputReadTokens item + ub_CachedInputReadTokens b) in
  let cachedWrite := i64 (s_CachedInputWriteTokens item + ub_CachedInputWriteTokens b) in
  let seenAt := record_timestamp record in
  mkStatsItem value
    (if s_Date item == "" then usageGroupValue record "date" else s_Date item)
    (if (s_Agent item == "") && (ur_Agent record != "") then ur_Agent record else s_Agent item)
    (if (s_SessionID item == "") && (ur_SessionID record != "") then ur_SessionID record
     else s_SessionID item)
    (if s_Model item == "" then usageGroupValue record "model" else s_Model item)
    (i64 (s_RequestCount item + count))
    (if bool_decide (ur_Status record = UsageStatusSuccess) then i64 (s_SuccessCount item + count)
     else s_SuccessCount item)
    (if bool_decide (ur_Status record = UsageStatusError) then i64 (s_ErrorCount item + count)
     else s_ErrorCount item)
    (i64 (s_FallbackCount item + ur_FallbackCount record))
    (i64 (s_InputTokens item + ub_InputTokens b)) (i64 (s_OutputTokens item + ub_OutputTokens b))
    cachedRead cachedWrite cachedRead cachedWrite
    (i64 (s_TotalTokens item + ub_TotalTokens b))
    (fadd (s_CostUSD item) (ur_CostUSD record))
    (if (ur_UsageSource record == UsageSourceProvider) || (ur_UsageSource record == UsageSourceProviderAPI)
     then i64 (s_ProviderUsageCount item + count) else s_ProviderUsageCount item)
    (if ur_UsageSource record == UsageSourceEstimated then i64 (s_EstimatedUsageCount item + count)
     else s_EstimatedUsageCount item)
    (add_units (s_ToolUnits item) (ub_ToolUnits b))
    (if String.ltb (s_LastSeenAt item) seenAt then seenAt else s_LastSeenAt item).

Definition applyToGroup (g : group) (value : string) (record : UsageRecord) : group :=
  <[value := add_record value (default zero_item (g !! value)) record]> g.

(** A group that is missing is created empty. *)
Definition apply_total (record : UsageRecord) (totals : gmap string group) (groupBy : string)
    : gmap string group :=
  <[groupBy := applyToGroup (default ∅ (totals !! groupBy)) (usageGroupValue record groupBy) record]> totals.

Definition apply_window (record : UsageRecord) (groupBy : string) (window : Window) (bucket : string)
    (windows : gmap Window (gmap string group)) : gmap Window (gmap string group) :=
  let groups := default ∅ (windows !! window) in
  let key := bucketKey window bucket groupBy in
  <[window := <[key := applyToGroup (default ∅ (groups !! key)) (usageGroupValue record groupBy) record]>
      groups]> windows.

Definition apply_windows (record : UsageRecord) (windows : gmap Window (gmap string group))
    (groupBy : string) : gmap Window (gmap string group) :=
  let '(day, week, month) := timeBuckets record in
  apply_window record groupBy WindowMonth month
    (apply_window record groupBy WindowWeek week
       (apply_window record groupBy WindowDay day windows)).

Definition applyRecord (s : MemoryStore) (record : UsageRecord) : MemoryStore :=
  mkMemoryStore (foldl (apply_total record) (ms_totals s) usageGroupBys)
    (foldl (apply_windows record) (ms_windows s) usageGroupBys)
    (ms_recent s) (ms_trackingStartedAt s) (ms_coverageKnown s).

Definition Record_ (s : MemoryStore) (record : UsageRecord) : MemoryStore :=
  let s := applyRecord s record in
  mkMemoryStore (ms_totals s) (ms_windows s)
    (keep_last defaultRecentRecordsLimit (ms_recent s ++ [record]))
    (ms_trackingStartedAt s) (ms_coverageKnown s).

(** ** Queries *)

(** The errors of [Query], structured *)
Inductive queryError :=
| ClientNameNeedsDateGroup
| ClientNameNeedsDateRange
| ClientNameWithWindow
| UnsupportedGroupBy (groupBy : string)
| UnsupportedWindow (window : string)
| DatesNotTogether
| InvalidDate (field : string)
| DatesNotOrdered
| DatesWithWindow
| BucketRequired (window : string).

Definition supportedGroupBy (groupBy : string) : bool :=
  existsb (fun supported => groupBy == supported) usageGroupBys.

Definition supportedWindow (window : Window) : bool :=
  bool_decide (window ∈ [WindowTotal; WindowDay; WindowWeek; WindowMonth]).

(** [time.ParseInLocation("2006-01-02", value, time.UTC)] *)
Definition parse_day (value : string) : option Time :=
  '(y, s) ← take_digits 4 0 value;
  s ← expect "-" s;
  '(m, s) ← take_digits 2 0 s;
  s ← expect "-" s;
  '(d, s) ← take_digits 2 0 s;
  if (1 <=? m) && (m <=? 12) && (1 <=? d) && (d <=? days_in m y) && (s == "")
  then Some (date_utc y m d 0 0 0 0) else None.

Definition parse_range_day (field value : string) : result queryError Time :=
  match parse_day value with
  | Some parsed => if format_day parsed == value then Ok parsed else Err (InvalidDate field)
  | None => Err (InvalidDate field)
  end.

Definition parseDateRange (startDate endDate : string) : result queryError (Time * Time) :=
  _ ← require (negb ((startDate == "") || (endDate == ""))) DatesNotTogether;
  start ← parse_range_day "start_date" startDate;
  stop ← parse_range_day "end_date" endDate;
  _ ← require (Before start stop) DatesNotOrdered;
  Ok (start, stop).

Definition mergeStatsItem (dst src : StatsItem) (value : string) : StatsItem :=
  let cachedRead := i64 (s_CachedInputReadTokens dst + s_CachedInputReadTokens src) in
  let cachedWrite := i64 (s_CachedInputWriteTokens dst + s_CachedInputWriteTokens src) in
  mkStatsItem value
    (if s_Date dst == "" then s_Date src else s_Date dst)
    (if s_Agent dst == "" then s_Agent src else s_Agent dst)
    (if s_SessionID dst == "" then s_SessionID src else s_SessionID dst)
    (if s_Model dst == "" then s_Model src else s_Model dst)
    (i64 (s_RequestCount dst + s_RequestCount src))
    (i64 (s_SuccessCount dst + s_SuccessCount src))
    (i64 (s_ErrorCount dst + s_ErrorCount src))
    (i64 (s_FallbackCount dst + s_FallbackCount src))
    (i64 (s_InputTokens dst + s_InputTokens src)) (i64 (s_OutputTokens dst + s_OutputTokens src))
    cachedRead cachedWrite cachedRead cachedWrite
    (i64 (s_TotalTokens dst + s_TotalTokens src))
    (fadd (s_CostUSD dst) (s_CostUSD src))
    (i64 (s_ProviderUsageCount dst + s_ProviderUsageCount src))
    (i64 (s_EstimatedUsageCount dst + s_EstimatedUsageCount src))
    (add_units (s_ToolUnits dst) (s_ToolUnits src))
    (if String.ltb (s_LastSeenAt dst) (s_LastSeenAt src) then s_LastSeenAt src else s_LastSeenAt dst).

Definition merge_into (merged : group) (key : string) (item : StatsItem) : group :=
  <[key := mergeStatsItem (default zero_item (merged !! key)) item key]> merged.

Definition by_value (items : group) : list StatsItem :=
  sort_by (fun a b => String.ltb (s_Value a) (s_Value b)) (map snd (map_to_list items)).

(** The days of [for day := start; day.Before(end); day = day.AddDate(0, 0, 1)] *)
Fixpoint days_fuel (fuel : nat) (day stop : Time) : list Time :=
  match fuel with
  | O => []
  | S fuel => if Before day stop then day :: days_fuel fuel (add_days_in UTC day 1) stop else []
  end.
Definition days_between (start stop : Time) : list Time :=
  days_fuel (Z.to_nat ((stop - start) / (24 * Hour) + 1)) start stop.

Definition day_group (s : MemoryStore) (bucket groupBy : string) : group :=
  default ∅ (default ∅ (ms_windows s !! WindowDay) !! bucketKey WindowDay bucket groupBy).

Definition merge_day (s : MemoryStore) (groupBy clientName : string) (merged : group) (day : Time) : group :=
  let bucket := format_day day in
  if clientName != "" then
    match day_group s bucket "key" !! clientName with
    | Some item => merge_into merged bucket item
    | None => merged
    end
  else
    foldl (fun merged '(value, item) =>
      merge_into merged (if groupBy == "date" then bucket else value) item)
      merged (map_to_list (day_group s bucket groupBy)).

Definition queryDateRange (s : MemoryStore) (groupBy clientName : string) (start stop : Time)
    : list StatsItem :=
  by_value (foldl (merge_day s groupBy clientName) ∅ (days_between start stop)).

Definition StoreQuery (s : MemoryStore) (query : Query) : result queryError (list StatsItem) :=
  let hasLegacy := (q_Window query != "") || (q_Bucket query != "") in
  let hasDateRange := (q_StartDate query != "") || (q_EndDate query != "") in
  let groupBy := if q_GroupBy query == "" then "key" else q_GroupBy query in
  let window := if q_Window query == "" then WindowTotal else q_Window query in
  _ ← (if q_ClientName query != "" then
         _ ← require (q_GroupBy query == "date") ClientNameNeedsDateGroup;
         _ ← require hasDateRange ClientNameNeedsDateRange;
         require (negb hasLegacy) ClientNameWithWindow
       else Ok tt);
  _ ← require (supportedGroupBy groupBy) (UnsupportedGroupBy groupBy);
  _ ← require (supportedWindow window) (UnsupportedWindow window);
  if hasDateRange then
    '(start, stop) ← parseDateRange (q_StartDate query) (q_EndDate query);
    _ ← require (negb ((window != WindowTotal) || (q_Bucket query != ""))) DatesWithWindow;
    Ok (queryDateRange s groupBy (q_ClientName query) start stop)
  else if window == WindowTotal then Ok (by_value (default ∅ (ms_totals s !! groupBy)))
  else
    _ ← require (q_Bucket query != "") (BucketRequired window);
    Ok (by_value (default ∅ (default ∅ (ms_windows s !! window) !!
                     bucketKey window (q_Bucket query) groupBy))).

Definition StoreCoverage (s : MemoryStore) : Coverage :=
  mkCoverage (if IsZero (ms_trackingStartedAt s) then "" else format_rfc3339nano (ms_trackingStartedAt s))
    (ms_coverageKnown s) "memory" false 0.

(** The loop from the newest record back, reversed at the end *)
Fixpoint recent_loop (since : Time) (limit : nat) (items : list UsageRecord) (newest : list UsageRecord)
    : list UsageRecord :=
  match newest with
  | [] => items
  | record :: newest =>
      if (length items <? limit)%nat then
        if negb (IsZero since) && Before (recordTime record) since then recent_loop since limit items newest
        else recent_loop since limit (items ++ [record]) newest
      else items
  end.
Definition RecentRecords (s : MemoryStore) (query : RecentRecordsQuery) : list UsageRecord :=
  let n := length (ms_recent s) in
  let limit := if (rq_Limit query <=? 0) || (Z.of_nat n <? rq_Limit query) then n
               else Z.to_nat (rq_Limit query) in
  rev (recent_loop (rq_Since query) limit [] (rev (ms_recent s))).

Example parse_day_1 : parse_day "2024-02-29" = Some (date_utc 2024 2 29 0 0 0 0) /\ parse_day "2023-02-29" = None.
Proof. vm_compute. done. Qed.

(** ** The embedded file *)

Definition defaultPriceSnapshotJSON : string := GoJson.js "{
  'source': {
    'repository': 'BerriAI/litellm',
    'revision': '49ca04d8c3ddea336237ce6f3082dbc26d19e944',
    'path': 'model_prices_and_context_window.json',
    'updated_at': '2026-06-11T04:31:08Z'
  },
  'items': [
    {
      'model': 'gpt-5.4',
      'input_per_million_usd': 2.5,
      'output_per_million_usd': 15.0,
      'cache_create_per_million_usd': 3.125,
      'cache_read_per_million_usd': 0.25
    },
    {
      'model': 'gpt-5.3-codex',
      'input_per_million_usd': 1.75,
      'output_per_million_usd': 14.0,
      'cache_create_per_million_usd': 2.1875,
      'cache_read_per_million_usd': 0.175
    },
    {
      'model': 'gpt-5.2-codex',
      'input_per_million_usd': 1.75,
      'output_per_million_usd': 14.0,
      'cache_create_per_million_usd': 2.1875,
      'cache_read_per_million_usd': 0.175
    },
    {
      'model': 'gpt-5.2',
      'input_per_million_usd': 1.75,
      'output_per_million_usd': 14.0,
      'cache_create_per_million_usd': 2.1875,
      'cache_read_per_million_usd': 0.175
    },
    {
      'model': 'gpt-5.1-codex',
      'input_per_million_usd': 1.25,
      'output_per_million_usd': 10.0,
      'cache_create_per_million_usd': 1.5625,
      'cache_read_per_million_usd': 0.125
    },
    {
      'model': 'gpt-5.1',
      'input_per_million_usd': 1.25,
      'output_per_million_usd': 10.0,
      'cache_create_per_million_usd': 1.5625,
      'cache_read_per_million_usd': 0.125
    },
    {
      'model': 'gpt-5',
      'input_per_million_usd': 1.25,
      'output_per_million_usd': 10.0,
      'cache_create_per_million_usd': 1.5625,
      'cache_read_per_million_usd': 0.125
    },
    {
      'model': 'gpt-5-mini',
      'input_per_million_usd': 0.25,
      'output_per_million_usd': 2.0,
      'cache_create_per_million_usd': 0.3125,
      'cache_read_per_million_usd': 0.025
    },
    {
      'model': 'gpt-5-nano',
      'input_per_million_usd': 0.05,
      'output_per_million_usd': 0.4,
      'cache_create_per_million_usd': 0.0625,
      'cache_read_per_million_usd': 0.005
    },
    {
      'model': 'gpt-4.1',
      'input_per_million_usd': 2.0,
      'output_per_million_usd': 8.0,
      'cache_create_per_million_usd': 2.5,
      'cache_read_per_million_usd': 0.5
    },
    {
      'model': 'gpt-4.1-mini',
      'input_per_million_usd': 0.4,
      'output_per_million_usd': 1.6,
      'cache_create_per_million_usd': 0.5,
      'cache_read_per_million_usd': 0.1
    },
    {
      'model': 'gpt-4.1-nano',
      'input_per_million_usd': 0.1,
      'output_per_million_usd': 0.4,
      'cache_create_per_million_usd': 0.125,
      'cache_read_per_million_usd': 0.025
    },
    {
      'model': 'gpt-4o',
      'input_per_million_usd': 2.5,
      'output_per_million_usd': 10.0,
      'cache_create_per_million_usd': 3.125,
      'cache_read_per_million_usd': 1.25
    },
    {
      'model': 'gpt-4o-mini',
      'input_per_million_usd': 0.15,
      'output_per_million_usd': 0.6,
      'cache_create_per_million_usd': 0.1875,
      'cache_read_per_million_usd': 0.075
    },
    {
      'model': 'o3',
      'input_per_million_usd': 2.0,
      'output_per_million_usd': 8.0,
      'cache_create_per_million_usd': 2.5,
      'cache_read_per_million_usd': 0.5
    },
    {
      'model': 'o4-mini',
      'input_per_million_usd': 1.1,
      'output_per_million_usd': 4.4,
      'cache_create_per_million_usd': 1.375,
      'cache_read_per_million_usd': 0.275
    },
    {
      'model': 'claude-opus-4-8',
      'input_per_million_usd': 5.0,
      'output_per_million_usd': 25.0,
      'cache_create_per_million_usd': 6.25,
      'cache_read_per_million_usd': 0.5
    },
    {
      'model': 'claude-opus-4-7',
      'input_per_million_usd': 5.0,
      'output_per_million_usd': 25.0,
      'cache_create_per_million_usd': 6.25,
      'cache_read_per_million_usd': 0.5
    },
    {
      'model': 'claude-opus-4-6',
      'input_per_million_usd': 5.0,
      'output_per_million_usd': 25.0,
      'cache_create_per_million_usd': 6.25,
      'cache_read_per_million_usd': 0.5
    },
    {
      'model': 'claude-opus-4-5',
      'input_per_million_usd': 5.0,
      'output_per_million_usd': 25.0,
      'cache_create_per_million_usd': 6.25,
      'cache_read_per_million_usd': 0.5
    },
    {
      'model': 'claude-sonnet-4-6',
      'input_per_million_usd': 3.0,
      'output_per_million_usd': 15.0,
      'cache_create_per_million_usd': 3.75,
      'cache_read_per_million_usd': 0.3
    },
    {
      'model': 'claude-sonnet-4-5',
      'input_per_million_usd': 3.0,
      'output_per_million_usd': 15.0,
      'cache_create_per_million_usd': 3.75,
      'cache_read_per_million_usd': 0.3
    },
    {
      'model': 'claude-haiku-4-5-20251001',
      'input_per_million_usd': 1.0,
      'output_per_million_usd': 5.0,
      'cache_create_per_million_usd': 1.25,
      'cache_read_per_million_usd': 0.1
    },
    {
      'model': 'claude-haiku-4-5',
      'input_per_million_usd': 1.0,
      'output_per_million_usd': 5.0,
      'cache_create_per_million_usd': 1.25,
      'cache_read_per_million_usd': 0.1
    }
  ]
}
".
