(* ===== verification/AccountingFacts.v ===== *)
(** * Properties of usage accounting

    Theorems about the definitions of [Accounting]: which price applies, that queries
    answer with the aggregates of the records they select, and the bound on recent
    records. *)

From S2P Require Import Prelude GoStrings GoTime GoTimeFacts RuntimeModel ConfigTypes Accounting.

#[local] Arguments String.append !_ _ /.

(** ** Bucket keys *)

Lemma LastIndexByte_last s c t : LastIndexByte t c = None -> LastIndexByte (s +:+ String c t) c = Some (len s).
Proof.
  intros Ht. induction s as [|d s IH]; cbn.
  - rewrite Ht. by case_bool_decide.
  - by rewrite IH.
Qed.

Definition no_colon (g : string) : Prop := LastIndexByte g ":" = None.

Lemma groupBys_no_colon g : g ∈ usageGroupBys -> no_colon g.
Proof.
  assert (Forall no_colon usageGroupBys) as H by (repeat constructor).
  rewrite Forall_forall in H. apply H.
Qed.

Lemma bucketKey_inj w b1 g1 b2 g2 :
  g1 ∈ usageGroupBys -> g2 ∈ usageGroupBys -> bucketKey w b1 g1 = bucketKey w b2 g2 -> b1 = b2 /\ g1 = g2.
Proof.
  intros H1%groupBys_no_colon H2%groupBys_no_colon H. unfold bucketKey in H.
  apply (f_equal (str_drop (len w))) in H. rewrite !str_drop_app in H. cbn [String.append] in H.
  injection H as H. pose proof (f_equal (fun s => LastIndexByte s ":") H) as Hi. cbn in Hi.
  rewrite !LastIndexByte_last in Hi by done. injection Hi as Hi.
  pose proof (f_equal (str_drop (len b1)) H) as Hd. rewrite str_drop_app, Hi, str_drop_app in Hd.
  injection Hd as ->. split; [|done]. by apply str_app_inj_r in H.
Qed.

(** ** Looking up aggregates *)

(** The aggregate of a list of records of one value *)
Definition aggregate (v : string) (rs : list UsageRecord) : StatsItem := foldl (add_record v) zero_item rs.

Definition bucket_of (w : Window) (r : UsageRecord) : string :=
  let '(day, week, month) := timeBuckets r in
  if w == WindowDay then day else if w == WindowWeek then week else month.

Definition windows_list : list Window := [WindowDay; WindowWeek; WindowMonth].

Definition total_group (s : MemoryStore) (g : string) : group := default ∅ (ms_totals s !! g).
Definition wgroup (ws : gmap Window (gmap string group)) (w : Window) (k : string) : group :=
  default ∅ (default ∅ (ws !! w) !! k).
Definition window_group (s : MemoryStore) (w : Window) (b g : string) : group :=
  wgroup (ms_windows s) w (bucketKey w b g).

Lemma total_fold r gs (m : gmap string group) g :
  NoDup gs ->
  default ∅ (foldl (apply_total r) m gs !! g) =
  if decide (g ∈ gs) then applyToGroup (default ∅ (m !! g)) (usageGroupValue r g) r
  else default ∅ (m !! g).
Proof.
  revert m. induction gs as [|h gs IH]; intros m Hnd; cbn [foldl]; [done|].
  apply NoDup_cons in Hnd as [Hh Hnd]. rewrite IH by done. unfold apply_total.
  destruct (decide (g = h)) as [->|Hne].
  - rewrite (decide_False (P := h ∈ gs)), decide_True by (done || by left). by rewrite lookup_insert_eq.
  - rewrite lookup_insert_ne by done. destruct (decide (g ∈ gs)).
    + by rewrite decide_True by (by right).
    + by rewrite decide_False by (rewrite not_elem_of_cons; tauto).
Qed.

Lemma apply_window_lookup r g w b ws w' k :
  wgroup (apply_window r g w b ws) w' k =
  if decide (w' = w /\ k = bucketKey w b g)
  then applyToGroup (wgroup ws w' k) (usageGroupValue r g) r else wgroup ws w' k.
Proof.
  unfold apply_window, wgroup. destruct (decide (w' = w)) as [->|Hw].
  - rewrite lookup_insert_eq. cbn [default from_option]. unfold id.
    destruct (decide (k = bucketKey w b g)) as [->|Hk].
    + rewrite lookup_insert_eq, decide_True by done. done.
    + rewrite lookup_insert_ne, decide_False by naive_solver. done.
  - rewrite lookup_insert_ne, decide_False by naive_solver. done.
Qed.

Lemma apply_windows_lookup r ws h w b g :
  w ∈ windows_list -> g ∈ usageGroupBys -> h ∈ usageGroupBys ->
  wgroup (apply_windows r ws h) w (bucketKey w b g) =
  if decide (g = h /\ bucket_of w r = b)
  then applyToGroup (wgroup ws w (bucketKey w b g)) (usageGroupValue r h) r
  else wgroup ws w (bucketKey w b g).
Proof.
  intros Hw Hg Hh. unfold apply_windows, bucket_of. destruct (timeBuckets r) as [[day week] month].
  rewrite !apply_window_lookup.
  assert (forall c, (w = w /\ bucketKey w b g = bucketKey w c h) <-> (g = h /\ c = b)) as Hkey.
  { intros c. split; [|by intros [-> ->]]. intros [_ H].
    apply bucketKey_inj in H as [-> ->]; done. }
  unfold windows_list in Hw. rewrite !elem_of_cons, elem_of_nil in Hw.
  destruct Hw as [->|[->|[->|[]]]];
    change (WindowDay == WindowDay) with true; change (WindowWeek == WindowDay) with false;
    change (WindowWeek == WindowWeek) with true; change (WindowMonth == WindowDay) with false;
    change (WindowMonth == WindowWeek) with false; cbv iota;
    repeat match goal with |- context [decide (?x = ?y /\ ?P)] =>
      rewrite (decide_False (P := x = y /\ P)) by (intros [Hx _]; discriminate Hx) end;
    apply decide_ext, Hkey.
Qed.

Lemma windows_fold r gs ws w b g :
  w ∈ windows_list -> g ∈ usageGroupBys -> gs ⊆ usageGroupBys -> NoDup gs ->
  wgroup (foldl (apply_windows r) ws gs) w (bucketKey w b g) =
  if decide (g ∈ gs /\ bucket_of w r = b)
  then applyToGroup (wgroup ws w (bucketKey w b g)) (usageGroupValue r g) r
  else wgroup ws w (bucketKey w b g).
Proof.
  intros Hw Hg. revert ws. induction gs as [|h gs IH]; intros ws Hsub Hnd; cbn [foldl].
  - rewrite decide_False; [done|]. intros [H _]. by apply elem_of_nil in H.
  - apply NoDup_cons in Hnd as [Hh Hnd].
    rewrite IH, apply_windows_lookup; [|done|done|by apply Hsub; left|set_solver|done].
    destruct (decide (g = h)) as [->|Hne].
    + rewrite (decide_False (P := h ∈ gs /\ _)) by tauto. apply decide_ext. set_solver.
    + rewrite (decide_False (P := g = h /\ _)) by tauto. apply decide_ext. set_solver.
Qed.

(** ** Aggregates of all records *)

Definition record_all (s : MemoryStore) (rs : list UsageRecord) : MemoryStore := foldl Record_ s rs.

(** A group is the aggregates of the records it selects. *)
Definition group_is (grp : group) (value : UsageRecord -> string) (rs : list UsageRecord) : Prop :=
  forall v, grp !! v =
    match filter (fun r => value r = v) rs with [] => None | sel => Some (aggregate v sel) end.

Lemma group_is_nil value : group_is ∅ value [].
Proof. done. Qed.

Lemma group_is_snoc grp value rs r :
  group_is grp value rs -> group_is (applyToGroup grp (value r) r) value (rs ++ [r]).
Proof.
  intros H v. unfold applyToGroup. rewrite filter_app. destruct (decide (v = value r)) as [->|Hne].
  - rewrite lookup_insert_eq, filter_cons_True, filter_nil, (H (value r)) by done.
    unfold aggregate. destruct (filter _ rs) as [|x l]; cbn [app]; [done|].
    by rewrite app_comm_cons, foldl_snoc.
  - rewrite lookup_insert_ne, filter_cons_False, filter_nil, app_nil_r, (H v) by done. done.
Qed.

Lemma group_is_same grp value rs r P `{!forall r, Decision (P r)} :
  ~ P r -> group_is grp value (filter P rs) -> group_is grp value (filter P (rs ++ [r])).
Proof. intros Hn Hg. by rewrite filter_app, filter_cons_False, filter_nil, app_nil_r. Qed.

Lemma NoDup_groupBys : NoDup usageGroupBys.
Proof. apply (bool_decide_unpack _). vm_compute. done. Qed.

Lemma total_group_is now rs g :
  g ∈ usageGroupBys ->
  group_is (total_group (record_all (NewMemoryStore now) rs) g) (fun r => usageGroupValue r g) rs.
Proof.
  intros Hg. induction rs as [|r rs IH] using rev_ind; [done|].
  unfold record_all. rewrite foldl_snoc. fold (record_all (NewMemoryStore now) rs).
  unfold total_group, Record_, applyRecord. cbn [ms_totals].
  rewrite total_fold, decide_True by (done || apply NoDup_groupBys).
  apply (group_is_snoc _ (fun r => usageGroupValue r g)), IH.
Qed.

Lemma window_group_is now rs w b g :
  w ∈ windows_list -> g ∈ usageGroupBys ->
  group_is (window_group (record_all (NewMemoryStore now) rs) w b g) (fun r => usageGroupValue r g)
    (filter (fun r => bucket_of w r = b) rs).
Proof.
  intros Hw Hg. induction rs as [|r rs IH] using rev_ind.
  - unfold window_group, wgroup. cbn [record_all foldl NewMemoryStore newMemoryStore ms_windows].
    assert (default ∅ ({[WindowDay := ∅; WindowWeek := ∅; WindowMonth := ∅]} !! w : option (gmap string group)) = ∅) as ->.
    { unfold windows_list in Hw. rewrite !elem_of_cons, elem_of_nil in Hw.
      destruct Hw as [->|[->|[->|[]]]]; done. }
    rewrite lookup_empty. apply group_is_nil.
  - unfold record_all. rewrite foldl_snoc. fold (record_all (NewMemoryStore now) rs).
    unfold window_group, Record_, applyRecord. cbn [ms_windows].
    rewrite windows_fold by (done || apply NoDup_groupBys). case_decide as Hd.
    + rewrite filter_app, filter_cons_True, filter_nil by tauto.
      apply (group_is_snoc _ (fun r => usageGroupValue r g)), IH.
    + apply (group_is_same _ _ _ _ (fun r => bucket_of w r = b)); [|apply IH]. tauto.
Qed.

(** ** Queries *)

Lemma aggregate_Value v sel : sel <> [] -> s_Value (aggregate v sel) = v.
Proof.
  destruct sel as [|r sel _] using rev_ind; [done|]. intros _. unfold aggregate. by rewrite foldl_snoc.
Qed.

Lemma elem_of_by_value grp item : item ∈ by_value grp <-> exists v, grp !! v = Some item.
Proof.
  unfold by_value. rewrite elem_of_sort_by, list_elem_of_In, in_map_iff. split.
  - intros ([v i] & <- & H). exists v. by apply elem_of_map_to_list, list_elem_of_In.
  - intros [v H]. exists (v, item). split; [done|]. by apply list_elem_of_In, elem_of_map_to_list.
Qed.

Lemma group_is_item grp value rs item :
  group_is grp value rs -> item ∈ by_value grp <->
  exists v, filter (fun r => value r = v) rs <> [] /\ item = aggregate v (filter (fun r => value r = v) rs).
Proof.
  intros H. rewrite elem_of_by_value. split; intros [v Hv]; exists v; rewrite (H v) in *.
  - destruct (filter _ rs) as [|x l]; [done|]. injection Hv as <-. done.
  - destruct Hv as [Hne ->]. by destruct (filter _ rs).
Qed.

Lemma by_value_NoDup grp value rs :
  group_is grp value rs -> NoDup (map s_Value (by_value grp)) /\
  sorted_by (fun a b => String.ltb (s_Value a) (s_Value b)) (by_value grp).
Proof.
  intros H. split; [|apply sort_by_sorted, string_by_StrictWeak].
  unfold by_value. rewrite sort_by_Permutation, map_map.
  rewrite (map_ext_in _ fst); [apply NoDup_fst_map_to_list|].
  intros [v i] Hin. cbn. apply list_elem_of_In, elem_of_map_to_list in Hin. rewrite (H v) in Hin.
  destruct (filter _ rs) as [|x l] eqn:E; [done|]. injection Hin as <-. by apply aggregate_Value.
Qed.

Definition in_bucket (w b : string) (r : UsageRecord) : Prop := w = WindowTotal \/ bucket_of w r = b.
#[export] Instance in_bucket_dec w b r : Decision (in_bucket w b r).
Proof. unfold in_bucket. apply _. Defined.

Lemma supportedGroupBy_spec g : supportedGroupBy g = true <-> g ∈ usageGroupBys.
Proof.
  unfold supportedGroupBy. rewrite existsb_exists. split.
  - intros (h & Hh & He). apply String.eqb_eq in He as ->. by apply list_elem_of_In.
  - intros H. exists g. split; [by apply list_elem_of_In|]. by apply String.eqb_refl.
Qed.

(** The group a query without dates reads *)
Lemma StoreQuery_group s g w b items :
  w <> "" -> g <> "" -> StoreQuery s (mkQuery g w b "" "" "") = Ok items ->
  g ∈ usageGroupBys /\
  (w = WindowTotal /\ items = by_value (total_group s g) \/
   w ∈ windows_list /\ items = by_value (window_group s w b g)).
Proof.
  intros Hw Hg. unfold StoreQuery. cbn [q_GroupBy q_Window q_Bucket q_StartDate q_EndDate q_ClientName].
  rewrite (proj2 (String.eqb_neq w "") Hw), (proj2 (String.eqb_neq g "") Hg). cbn [negb orb String.eqb mbind result_bind].
  intros H. apply bind_Ok in H as ([] & H1%require_Ok & H). apply supportedGroupBy_spec in H1.
  apply bind_Ok in H as ([] & H2%require_Ok & H). apply bool_decide_eq_true in H2. split; [done|].
  destruct (String.eqb_spec w WindowTotal) as [->|Hne]; [left; split; [done|]; by injection H as <-|].
  right. apply bind_Ok in H as ([] & _ & H). injection H as <-. split; [|done].
  apply elem_of_cons in H2 as [->|H2]; done.
Qed.

(** The records a price, total or bucket query is about *)
Lemma query_group_is now rs g w b items :
  w <> "" -> g <> "" ->
  StoreQuery (record_all (NewMemoryStore now) rs) (mkQuery g w b "" "" "") = Ok items ->
  exists grp, items = by_value grp /\
    group_is grp (fun r => usageGroupValue r g) (filter (in_bucket w b) rs).
Proof.
  intros Hw Hg H. apply StoreQuery_group in H as [Hin [[-> ->]|[Hwl ->]]]; [| |done|done].
  - eexists. split; [done|]. rewrite (list_filter_iff _ (fun _ => True)) by (intros; unfold in_bucket; tauto).
    rewrite filter_all; [by apply total_group_is|]. by apply Forall_true.
  - eexists. split; [done|]. rewrite (list_filter_iff _ (fun r => bucket_of w r = b)); [by apply window_group_is|].
    intros r. unfold in_bucket. split; [|by right]. intros [->|?]; [|done].
    exfalso. revert Hwl. apply (bool_decide_unpack _). vm_compute. done.
Qed.

(** ** Prices *)

(** The last item that satisfies a predicate *)
Definition last_such (P : AccountingPriceConfig -> bool) (items : list AccountingPriceConfig)
    : option AccountingPriceConfig := find P (rev items).
Definition price_of (provider model : string) (i : AccountingPriceConfig) : bool :=
  (ap_Model i == model) && (ap_Provider i == provider).

Lemma match_items_spec p m mo items :
  match_items p m mo items =
  match find (price_of p m) items with
  | Some i => Some i
  | None => match mo with Some x => Some x | None => find (price_of "" m) items end
  end.
Proof.
  revert mo. induction items as [|i items IH]; intros mo; cbn [match_items find]; [by destruct mo|].
  unfold price_of at 1 3. destruct (ap_Model i == m); cbn [negb andb]; [|apply IH].
  destruct (ap_Provider i == p); [done|]. rewrite IH. destruct (find (price_of p m) items); [done|].
  destruct (ap_Provider i == ""), mo; done.
Qed.

Lemma matchExact_spec c p m :
  matchExact c p m =
  match last_such (price_of p m) (pc_items c) with
  | Some i => Some i
  | None => last_such (price_of "" m) (pc_items c)
  end.
Proof. apply match_items_spec. Qed.

(** ** Dates *)

Lemma parse_format_day t : year_ok t -> parse_day (format_day t) = Some (day_number t * 86400 * Second).
Proof.
  intros Hy. pose proof (civil_spec t) as Hc. cbv zeta in Hc. unfold year_ok in Hy.
  pose proof (civil_fields t) as Hf. cbv zeta in Hf. destruct Hf as (_ & _ & _ & _ & _ & Hday).
  unfold parse_day, format_day, format_date.
  destruct (civil t) as [y m d h mi s ns wd]; cbn [c_year c_month c_day c_hour c_min c_sec c_nsec] in *.
  destruct Hc as (Hm & Hd & _).
  assert (d <= 31) by (unfold days_in in Hd; repeat case_match; lia).
  rewrite format_year_ok by done. cbn [String.append].
  repeat (rewrite take_digits_fixed by (cbn; lia);
          cbn [mbind option_bind]; rewrite expect_self; cbn [mbind option_bind]).
  rewrite <- (str_app_nil_r (fixed_digits 2 d)), take_digits_fixed by (cbn; lia).
  cbn [mbind option_bind]. rewrite !Z.mul_0_l, !Z.add_0_l.
  replace ((1 <=? m) && (m <=? 12) && (1 <=? d) && (d <=? days_in m y) && ("" == "")) with true
    by (cbn; lia).
  unfold date_utc. rewrite Hday. f_equal. lia.
Qed.

Lemma format_day_inj a b : year_ok a -> year_ok b -> format_day a = format_day b -> day_number a = day_number b.
Proof.
  intros Ha Hb H. apply (f_equal parse_day) in H. rewrite !parse_format_day in H by done.
  injection H. unfold Second. lia.
Qed.

(** The day a time is on, as the days of a range are numbered *)
Lemma day_number_midnight D : day_number (D * 86400 * Second) = D.
Proof. unfold day_number. rewrite Z.div_mul by done. by rewrite Z.div_mul. Qed.

Lemma civil_midnight t : format_day (day_number t * 86400 * Second) = format_day t.
Proof.
  unfold format_day, civil. rewrite Z.div_mul by done.
  fold (day_number t). rewrite Z.div_mul by done. unfold day_number. by destruct (civil_of_day _) as [[y m] d].
Qed.

Lemma days_fuel_spec fuel D D1 :
  (Z.to_nat (D1 - D) <= fuel)%nat ->
  days_fuel fuel (D * 86400 * Second) (D1 * 86400 * Second) =
  map (fun k => (D + Z.of_nat k) * 86400 * Second) (seq 0 (Z.to_nat (D1 - D))).
Proof.
  revert D. induction fuel as [|fuel IH]; intros D Hf; cbn [days_fuel].
  - by replace (Z.to_nat (D1 - D)) with 0%nat by lia.
  - unfold Before. destruct (Z.ltb_spec (D * 86400 * Second) (D1 * 86400 * Second)) as [Hlt|Hge].
    + unfold UTC. rewrite add_days_fixed. unfold Second in *.
      replace (D * 86400 * 1000000000 + 1 * 86400 * 1000000000) with ((D + 1) * 86400 * Second)
        by (unfold Second; lia).
      fold Second. rewrite IH by lia. replace (Z.to_nat (D1 - D)) with (S (Z.to_nat (D1 - (D + 1)))) by lia.
      cbn [seq map]. rewrite Z.add_0_r. f_equal. rewrite <- seq_shift, map_map. apply map_ext.
      intros k. unfold Second. lia.
    + unfold Second in Hge. by replace (Z.to_nat (D1 - D)) with 0%nat by lia.
Qed.

(** ** Recent records *)

Definition since_ok (since : Time) (r : UsageRecord) : bool :=
  negb (negb (IsZero since) && Before (recordTime r) since).

Lemma recent_loop_spec since limit items newest :
  recent_loop since limit items newest =
  items ++ take (limit - length items) (List.filter (since_ok since) newest).
Proof.
  revert items. induction newest as [|r newest IH]; intros items; cbn [recent_loop List.filter].
  - by rewrite take_nil, app_nil_r.
  - destruct (Nat.ltb_spec (length items) limit) as [Hlt|Hge].
    + unfold since_ok at 1. destruct (negb (IsZero since) && _); cbn [negb]; [apply IH|].
      rewrite IH, length_app. cbn [length]. rewrite <- app_assoc. f_equal.
      replace (limit - length items)%nat with (S (limit - (length items + 1))) by lia. done.
    + replace (limit - length items)%nat with 0%nat by lia. by rewrite app_nil_r.
Qed.

Lemma keep_last_rev {A} n (l : list A) : rev (take n (rev l)) = keep_last n l.
Proof. unfold keep_last. by rewrite firstn_rev, rev_involutive. Qed.

Lemma recent_all s rs :
  (length (ms_recent s) <= defaultRecentRecordsLimit)%nat ->
  ms_recent (record_all s rs) = keep_last defaultRecentRecordsLimit (ms_recent s ++ rs).
Proof.
  intros Hs. induction rs as [|r rs IH] using rev_ind; [by rewrite app_nil_r, keep_last_small|].
  unfold record_all. rewrite foldl_snoc. fold (record_all s rs). unfold Record_. cbn [ms_recent applyRecord].
  by rewrite IH, keep_last_snoc, app_assoc.
Qed.

(** ** Date ranges *)

(** An integer of an aggregate that adds up a measure of its records *)
Class Counted (f : StatsItem -> Z) (measure : UsageRecord -> Z) : Prop := {
  counted_zero : f zero_item = 0;
  counted_add v i r : f (add_record v i r) = i64 (f i + measure r);
  counted_merge a b k : f (mergeStatsItem a b k) = i64 (f a + f b)
}.

#[export] Instance counted_requests : Counted s_RequestCount record_count.
Proof. by split. Qed.
#[export] Instance counted_fallbacks : Counted s_FallbackCount ur_FallbackCount.
Proof. by split. Qed.
#[export] Instance counted_input : Counted s_InputTokens (fun r => ub_InputTokens (ur_Breakdown r)).
Proof. by split. Qed.
#[export] Instance counted_output : Counted s_OutputTokens (fun r => ub_OutputTokens (ur_Breakdown r)).
Proof. by split. Qed.
#[export] Instance counted_total : Counted s_TotalTokens (fun r => ub_TotalTokens (ur_Breakdown r)).
Proof. by split. Qed.

Definition sum (measure : UsageRecord -> Z) (rs : list UsageRecord) : Z :=
  foldr (fun r n => measure r + n) 0 rs.

Lemma sum_app m l k : sum m (l ++ k) = sum m l + sum m k.
Proof. unfold sum. induction l as [|r l IH]; cbn; lia. Qed.

#[export] Instance sum_Proper m : Proper ((≡ₚ) ==> eq) (sum m).
Proof. intros l k H. unfold sum. induction H; cbn in *; lia. Qed.

Lemma aggregate_counted f m `{!Counted f m} v rs : f (aggregate v rs) = i64 (sum m rs).
Proof.
  induction rs as [|r rs IH] using rev_ind.
  - unfold aggregate. cbn [foldl sum foldr]. rewrite counted_zero. by vm_compute.
  - unfold aggregate. rewrite foldl_snoc, counted_add. fold (aggregate v rs).
    rewrite IH, i64_add_l, sum_app. cbn. by rewrite Z.add_0_r.
Qed.

(** A group of merged days: what it holds of the records [rs] *)
Definition merged_is (f : StatsItem -> Z) (m : UsageRecord -> Z) (merged : group)
    (value : UsageRecord -> string) (rs : list UsageRecord) : Prop :=
  forall v, let sel := filter (fun r => value r = v) rs in
    match merged !! v with
    | None => sel = []
    | Some item => sel <> [] /\ s_Value item = v /\ f item = i64 (sum m sel)
    end.

Lemma merged_default f m `{!Counted f m} merged value rs v :
  merged_is f m merged value rs ->
  f (default zero_item (merged !! v)) = i64 (sum m (filter (fun r => value r = v) rs)).
Proof.
  intros H. specialize (H v). cbv zeta in H. destruct (merged !! v) as [item|]; [tauto|].
  rewrite H. cbn. by rewrite counted_zero.
Qed.

Lemma merged_is_perm f m merged value rs rs' :
  rs ≡ₚ rs' -> merged_is f m merged value rs -> merged_is f m merged value rs'.
Proof.
  intros Hp H v. specialize (H v). cbv zeta in *.
  assert (filter (fun r => value r = v) rs ≡ₚ filter (fun r => value r = v) rs') as Hf by (by rewrite Hp).
  destruct (merged !! v); [|by rewrite H in Hf; apply Permutation_nil_l in Hf].
  destruct H as (Hne & ? & Hs). split.
  - intros E. rewrite E in Hf. by apply Permutation_nil_r in Hf.
  - split; [done|]. by rewrite Hs, Hf.
Qed.

Lemma fold_merge_lookup l merged k :
  NoDup (map fst l) ->
  foldl (fun merged '(value, item) => merge_into merged value item) merged l !! k =
  match (list_to_map l : group) !! k with
  | Some item => Some (mergeStatsItem (default zero_item (merged !! k)) item k)
  | None => merged !! k
  end.
Proof.
  revert merged. induction l as [|[v i] l IH]; intros merged Hnd; [done|].
  cbn in Hnd. apply NoDup_cons in Hnd as [Hv Hnd]. cbn [foldl]. rewrite IH by done. cbn [list_to_map foldr].
  unfold merge_into. destruct (decide (k = v)) as [->|Hne].
  - rewrite !lookup_insert_eq. by rewrite (not_elem_of_list_to_map_1 l v Hv).
  - by rewrite !lookup_insert_ne by done.
Qed.

(** Merging the group of one day *)
Lemma merge_group f m `{!Counted f m} merged value rs grp day :
  merged_is f m merged value rs -> group_is grp value day ->
  merged_is f m (foldl (fun merged '(v, item) => merge_into merged v item) merged (map_to_list grp))
    value (rs ++ day).
Proof.
  intros Hm Hg v. cbv zeta. rewrite fold_merge_lookup by apply NoDup_fst_map_to_list.
  rewrite list_to_map_to_list, filter_app.
  pose proof (merged_default f m merged value rs v Hm) as Hd. specialize (Hm v). cbv zeta in Hm.
  rewrite (Hg v). destruct (filter _ day) as [|x l] eqn:E; [by rewrite app_nil_r|].
  split; [|split; [done|]].
  - intros Hnil. by apply app_eq_nil in Hnil as [_ ?].
  - rewrite counted_merge, Hd, (aggregate_counted f m), i64_add_l, i64_add_r, sum_app. done.
Qed.

Definition day_records (rs : list UsageRecord) (day : Time) : list UsageRecord :=
  filter (fun r => bucket_of WindowDay r = format_day day) rs.

Lemma bucket_date r : bucket_of WindowDay r = usageGroupValue r "date".
Proof. unfold bucket_of, usageGroupValue. cbn. by destruct (timeBuckets r) as [[d w] m]. Qed.

Lemma merge_day_is f m `{!Counted f m} now rs g merged sel day :
  g ∈ usageGroupBys ->
  merged_is f m merged (fun r => usageGroupValue r g) sel ->
  merged_is f m (merge_day (record_all (NewMemoryStore now) rs) g "" merged day)
    (fun r => usageGroupValue r g) (sel ++ day_records rs day).
Proof.
  intros Hg Hm. unfold merge_day. cbn [String.eqb negb].
  pose proof (window_group_is now rs WindowDay (format_day day) g ltac:(by left) Hg) as Hgrp.
  change (window_group _ _ _ _) with (day_group (record_all (NewMemoryStore now) rs) (format_day day) g) in Hgrp.
  match goal with |- merged_is _ _ (foldl ?h ?a ?l) _ _ =>
    assert (foldl h a l = foldl (fun merged '(v, item) => merge_into merged v item) a l) as -> end.
  2: { by apply merge_group. }
  apply foldl_ext_in. intros acc [v item] Hin. f_equal.
  destruct (String.eqb_spec g "date") as [->|]; [|done].
  apply elem_of_map_to_list in Hin. rewrite (Hgrp v) in Hin.
  destruct (filter (fun r => _ = v) _) as [|r l] eqn:E; [done|].
  assert (r ∈ filter (fun r => usageGroupValue r "date" = v) (day_records rs day)) as Hr
    by (unfold day_records; rewrite E; by left).
  apply list_elem_of_filter in Hr as [Hv Hr]. apply list_elem_of_filter in Hr as [Hb _].
  by rewrite <- Hv, <- bucket_date.
Qed.

Lemma merge_days_is f m `{!Counted f m} now rs g days merged sel :
  g ∈ usageGroupBys ->
  merged_is f m merged (fun r => usageGroupValue r g) sel ->
  merged_is f m (foldl (merge_day (record_all (NewMemoryStore now) rs) g "") merged days)
    (fun r => usageGroupValue r g) (sel ++ flat_map (day_records rs) days).
Proof.
  intros Hg. revert merged sel. induction days as [|d days IH]; intros merged sel Hm; cbn [foldl flat_map].
  - by rewrite app_nil_r.
  - rewrite app_assoc. by apply IH, merge_day_is.
Qed.

(** Distinct days select disjoint records. *)
Lemma flat_map_days rs days :
  NoDup (map format_day days) ->
  flat_map (day_records rs) days ≡ₚ filter (fun r => bucket_of WindowDay r ∈ map format_day days) rs.
Proof.
  induction days as [|d days IH]; intros Hnd; cbn [flat_map map].
  - rewrite filter_none; [done|]. apply Forall_true. intros r. apply not_elem_of_nil.
  - cbn in Hnd. apply NoDup_cons in Hnd as [Hd Hnd]. rewrite IH by done. clear IH.
    unfold day_records. induction rs as [|r rs IH]; [done|].
    destruct (decide (bucket_of WindowDay r = format_day d)) as [E|E].
    + rewrite (filter_cons_True (fun r => _ = format_day d)) by done.
      rewrite (filter_cons_False (fun r => _ ∈ map format_day days)) by (by rewrite E).
      rewrite filter_cons_True by (rewrite E; by left). cbn. by rewrite IH.
    + rewrite (filter_cons_False (fun r => _ = format_day d)) by done.
      destruct (decide (bucket_of WindowDay r ∈ map format_day days)).
      * rewrite !filter_cons_True by (done || by right). rewrite <- IH. by rewrite Permutation_middle.
      * rewrite !filter_cons_False by (rewrite ?not_elem_of_cons; done). exact IH.
Qed.

(** A record whose time is within a range of days *)
Definition in_range (start stop : Time) (r : UsageRecord) : Prop :=
  match parse_rfc3339 (record_timestamp r) with
  | Some t => start <= t < stop
  | None => False
  end.
#[export] Instance in_range_dec start stop r : Decision (in_range start stop r).
Proof. unfold in_range. case_match; apply _. Defined.

Definition timestamp_ok (r : UsageRecord) : Prop :=
  forall t, parse_rfc3339 (record_timestamp r) = Some t -> year_ok t.

(** A day the gateway accepts is a midnight of a year of four digits. *)
Lemma parse_day_inv value t :
  parse_day value = Some t -> exists D, t = D * 86400 * Second /\ year_ok t.
Proof.
  unfold parse_day. intros H.
  apply bind_Some in H as ([y s1] & Hy & H). apply bind_Some in H as (s2 & _ & H).
  apply bind_Some in H as ([m s3] & _ & H). apply bind_Some in H as (s4 & _ & H).
  apply bind_Some in H as ([d s5] & _ & H). destruct (_ && _) eqn:E; [|done]. injection H as <-.
  breflect. pose proof (take_digits_nonneg _ _ _ _ _ (Z.le_refl 0) Hy).
  pose proof (take_digits_bound _ _ _ _ _ (Z.le_refl 0) Hy) as Hb. cbn in Hb.
  assert (d <= 31) by (unfold days_in in *; repeat case_match; lia).
  unfold date_utc. exists (day_of_civil y m d). split; [lia|].
  replace ((day_of_civil y m d * 86400 + 0 * 3600 + 0 * 60 + 0) * Second + 0)
    with (day_of_civil y m d * 86400 * Second) by lia.
  apply year_ok_spec. rewrite day_number_midnight.
  destruct (day_of_civil_year y m d 0 ltac:(lia) ltac:(lia)).
  destruct (day_of_civil_year y m d 10000 ltac:(lia) ltac:(lia)). lia.
Qed.

Lemma parseDateRange_inv sd ed start stop :
  parseDateRange sd ed = Ok (start, stop) ->
  exists D0 D1, start = D0 * 86400 * Second /\ stop = D1 * 86400 * Second /\
    year_ok start /\ year_ok stop /\ start < stop.
Proof.
  unfold parseDateRange. intros H. apply bind_Ok in H as ([] & _ & H).
  apply bind_Ok in H as (t0 & H0 & H). apply bind_Ok in H as (t1 & H1 & H).
  apply bind_Ok in H as ([] & Hlt%require_Ok & H). injection H as <- <-.
  unfold Before in Hlt. breflect. unfold parse_range_day in H0, H1.
  destruct (parse_day sd) as [a|] eqn:Ea; [|done]. destruct (parse_day ed) as [b|] eqn:Eb; [|done].
  apply parse_day_inv in Ea as (D0 & Ea & ?). apply parse_day_inv in Eb as (D1 & Eb & ?).
  destruct (_ == sd); [|done]. destruct (_ == ed); [|done]. injection H0 as <-. injection H1 as <-.
  by exists D0, D1.
Qed.

(** The days of an accepted range *)
Section range.
Context (D0 D1 : Z).
Let start := D0 * 86400 * Second.
Let stop := D1 * 86400 * Second.
Context (H0 : year_ok start) (H1 : year_ok stop) (Hlt : start < stop).

Lemma days_between_spec :
  days_between start stop = map (fun k => (D0 + Z.of_nat k) * 86400 * Second) (seq 0 (Z.to_nat (D1 - D0))).
Proof.
  unfold days_between, start, stop. apply days_fuel_spec.
  replace ((D1 * 86400 * Second - D0 * 86400 * Second) / (24 * Hour)) with (D1 - D0); [lia|].
  apply (Z.div_unique_exact _ (24 * Hour)); unfold Hour, Minute, Second; lia.
Qed.

Lemma range_day_ok day : day ∈ days_between start stop ->
  exists D, day = D * 86400 * Second /\ D0 <= D < D1 /\ year_ok day.
Proof.
  rewrite days_between_spec. intros (k & -> & Hk)%list_elem_of_fmap.
  apply list_elem_of_In, in_seq in Hk. exists (D0 + Z.of_nat k). split; [done|]. split; [lia|].
  apply year_ok_spec. rewrite day_number_midnight.
  unfold start, stop in *. apply year_ok_spec in H0. apply year_ok_spec in H1.
  rewrite day_number_midnight in *. lia.
Qed.

Lemma range_days_NoDup : NoDup (map format_day (days_between start stop)).
Proof.
  apply (NoDup_fmap_2_strong format_day).
  - intros a b Ha Hb Hf. apply range_day_ok in Ha as (A & -> & _ & Ha). apply range_day_ok in Hb as (B & -> & _ & Hb).
    apply format_day_inj in Hf; [|done|done]. rewrite !day_number_midnight in Hf. by subst.
  - rewrite days_between_spec. apply (NoDup_fmap_2_strong _); [|apply NoDup_ListNoDup, seq_NoDup].
    intros a b _ _ Hab. unfold Second in Hab. lia.
Qed.

Lemma range_bucket r : timestamp_ok r ->
  bucket_of WindowDay r ∈ map format_day (days_between start stop) <-> in_range start stop r.
Proof.
  intros Hok. unfold in_range, bucket_of, timeBuckets, timestamp_ok in *. cbn [String.eqb].
  destruct (parse_rfc3339 (record_timestamp r)) as [t|].
  - specialize (Hok t eq_refl). rewrite String.eqb_refl. rewrite list_elem_of_fmap. split.
    + intros (day & Hf & Hday). apply range_day_ok in Hday as (D & -> & HD & Hy).
      apply format_day_inj in Hf; [|done|done]. rewrite day_number_midnight in Hf.
      unfold start, stop, day_number, Second in *. Z.to_euclidean_division_equations. lia.
    + intros Ht. exists (day_number t * 86400 * Second). split; [by rewrite civil_midnight|].
      rewrite days_between_spec. apply list_elem_of_fmap. exists (Z.to_nat (day_number t - D0)).
      assert (D0 <= day_number t < D1).
      { unfold start, stop, day_number, Second in *. Z.to_euclidean_division_equations. lia. }
      split; [by replace (D0 + Z.of_nat (Z.to_nat (day_number t - D0))) with (day_number t) by lia|].
      apply list_elem_of_In, in_seq. lia.
  - rewrite String.eqb_refl. split; [|done]. intros (day & Hf & Hday)%list_elem_of_fmap.
    apply range_day_ok in Hday as (D & -> & _ & Hy). apply (f_equal parse_day) in Hf.
    by rewrite parse_format_day in Hf.
Qed.
End range.

(** ** Properties *)

(** A query answers with exactly the aggregates of the records it selects.  After
    any records, a query by group over everything or over one day, week or month
    returns, in order of their values, one item for each value some selected record
    has, and that item is the aggregate of the selected records of that value in the
    order they were recorded. *)
Theorem query_aggregates now rs g w b items :
  w <> "" -> g <> "" ->
  StoreQuery (record_all (NewMemoryStore now) rs) (mkQuery g w b "" "" "") = Ok items ->
  sorted_by (fun x y => String.ltb (s_Value x) (s_Value y)) items /\ NoDup (map s_Value items) /\
  forall item, item ∈ items <->
    exists v, let sel := filter (fun r => usageGroupValue r g = v) (filter (in_bucket w b) rs) in
      sel <> [] /\ item = aggregate v sel.
Proof.
  intros Hw Hg H. apply query_group_is in H as (grp & -> & Hgrp); [|done|done].
  destruct (by_value_NoDup _ _ _ Hgrp) as [Hnd Hs]. split; [done|]. split; [done|].
  intros item. by rewrite (group_is_item grp (fun r => usageGroupValue r g)).
Qed.

(** A date range counts the records of its days, once each.  The answer to a
    query from [sd] to [ed] has an item for a value exactly when some record whose
    time is from the first midnight up to, not including, the second has that value,
    and every count and token sum of the item is the total over those records, modulo
    2^64; record times have years of four digits. *)
Theorem date_range_counts f m `{!Counted f m} now rs g sd ed items :
  supportedGroupBy g = true -> sd <> "" -> Forall timestamp_ok rs ->
  StoreQuery (record_all (NewMemoryStore now) rs) (mkQuery g "" "" sd ed "") = Ok items ->
  exists start stop, parseDateRange sd ed = Ok (start, stop) /\
  forall v, let sel := filter (fun r => usageGroupValue r g = v) (filter (in_range start stop) rs) in
    (sel <> [] <-> exists item, item ∈ items /\ s_Value item = v) /\
    forall item, item ∈ items -> s_Value item = v -> f item = i64 (sum m sel).
Proof.
  intros Hg Hsd Hts H. unfold StoreQuery in H.
  cbn [q_GroupBy q_Window q_Bucket q_StartDate q_EndDate q_ClientName] in H.
  rewrite (proj2 (String.eqb_neq sd "") Hsd) in H.
  assert ((g == "") = false) as Hne by (apply String.eqb_neq; by intros ->). rewrite Hne, Hg in H.
  cbn [negb orb String.eqb mbind result_bind require] in H.
  apply bind_Ok in H as ([] & _ & H). apply bind_Ok in H as ([start stop] & Hd & H).
  apply bind_Ok in H as ([] & _ & H). injection H as <-. exists start, stop. split; [done|].
  apply parseDateRange_inv in Hd as (D0 & D1 & -> & -> & H0 & H1 & Hlt).
  apply supportedGroupBy_spec in Hg. unfold queryDateRange.
  set (days := days_between _ _).
  assert (merged_is f m (foldl (merge_day (record_all (NewMemoryStore now) rs) g "") ∅ days)
    (fun r => usageGroupValue r g) (filter (in_range (D0 * 86400 * Second) (D1 * 86400 * Second)) rs)) as Hm.
  { eapply merged_is_perm; [|by apply (merge_days_is f m now rs g days ∅ [])].
    cbn [app]. subst days. rewrite flat_map_days by (by apply range_days_NoDup).
    rewrite (filter_iff_in _ (in_range (D0 * 86400 * Second) (D1 * 86400 * Second))); [done|].
    intros r Hr. rewrite Forall_forall in Hts. apply range_bucket; auto. }
  clear Hne Hts. intros v. cbv zeta. pose proof (Hm v) as Hv. cbv zeta in Hv. split.
  - split.
    + intros Hsel. destruct (_ !! v) as [item|] eqn:E; [|done]. exists item.
      split; [apply elem_of_by_value; eauto|tauto].
    + intros (item & Hin & Hval). apply elem_of_by_value in Hin as [k Hk].
      pose proof (Hm k) as Hmk. cbv zeta in Hmk. rewrite Hk in Hmk. destruct Hmk as (Hsel & Hk' & _).
      by rewrite <- Hval, Hk'.
  - intros item Hin Hval. apply elem_of_by_value in Hin as [k Hk].
    pose proof (Hm k) as Hmk. cbv zeta in Hmk. rewrite Hk in Hmk. destruct Hmk as (_ & Hk' & Hf).
    by rewrite <- Hval, Hk'.
Qed.

(** Recent records are the newest ones, bounded and in order.  After any records
    the store answers with the last records not older than [since], at most as many as
    asked for, oldest first, out of the last ten thousand. *)
Theorem recent_records now rs query :
  let kept := keep_last defaultRecentRecordsLimit rs in
  let limit := if (rq_Limit query <=? 0) || (Z.of_nat (length kept) <? rq_Limit query) then length kept
               else Z.to_nat (rq_Limit query) in
  RecentRecords (record_all (NewMemoryStore now) rs) query =
  keep_last limit (List.filter (since_ok (rq_Since query)) kept).
Proof.
  intros kept limit. unfold RecentRecords. rewrite recent_all by (cbn; lia). cbn [ms_recent NewMemoryStore newMemoryStore app].
  fold kept. fold limit. rewrite recent_loop_spec. cbn [app length]. rewrite Nat.sub_0_r, filter_rev.
  apply keep_last_rev.
Qed.

(** Which price applies to a model.  The last entry for the trimmed provider and
    model wins over the last entry for the model without provider; a model that
    neither has is looked up, without provider, by the part after its last slash; a
    request without a price costs nothing and is reported as unpriced. *)
Theorem price_precedence c provider model u :
  let items := pc_items c in
  let p := TrimSpace provider in
  let m := TrimSpace model in
  let found :=
    match last_such (price_of p m) items, last_such (price_of "" m) items with
    | Some i, _ => Some i
    | None, Some i => Some i
    | None, None =>
        match LastIndexByte m slash with
        | Some k => last_such (price_of "" (TrimSpace (str_drop (k + 1) m))) items
        | None => None
        end
    end in
  (CostUSDWithMatch c provider model u).2 = (match found with Some _ => true | None => false end) /\
  (found = None -> CostUSD c provider model u = fzero) /\
  price_match c provider model = found.
Proof.
  intros items p m found.
  assert (forall m, matchExact c "" m = last_such (price_of "" m) items) as Hm.
  { intros m'. rewrite matchExact_spec. fold items. by destruct (last_such (price_of "" m') items). }
  assert (price_match c provider model = found) as E.
  { unfold price_match, found. rewrite matchExact_spec. fold items p m.
    destruct (last_such (price_of p m) items); [done|].
    destruct (last_such (price_of "" m) items); [done|].
    destruct (LastIndexByte m slash); [apply Hm|done]. }
  unfold CostUSD, CostUSDWithMatch. rewrite E. clearbody found. by destruct found.
Qed.

(** ** Witnesses *)

Definition witness_record (client finished : string) (input : Z) : UsageRecord :=
  mkUsageRecord "" client "in" "openai_chat" "t" "r" "failover" "a" "mock" "a" "m" "m" "provider"
    UsageStatusSuccess "" "" "" fzero true (mkUsageBreakdown 1 input 0 0 0 input ∅) "" finished 0 0.
Definition witness_records : list UsageRecord :=
  [witness_record "x" "2024-02-28T23:59:59.5Z" 3; witness_record "y" "2024-02-29T00:00:00Z" 4;
   witness_record "x" "2024-02-29T12:00:00+02:00" 5; witness_record "x" "2024-03-01T00:00:00Z" 6].

Lemma query_aggregates_witness :
  exists items, StoreQuery (record_all (NewMemoryStore 0) witness_records) (mkQuery "key" "day" "2024-02-29" "" "" "")
    = Ok items /\ map s_Value items = ["x"; "y"] /\ NoDup (map s_Value items).
Proof.
  destruct (StoreQuery _ _) as [items|e] eqn:E; [|by vm_compute in E].
  exists items. split; [done|]. split; [vm_compute in E; by injection E as <-|].
  apply (query_aggregates 0 witness_records "key" "day" "2024-02-29" items); done.
Defined.

Lemma witness_timestamps : Forall timestamp_ok witness_records.
Proof.
  unfold witness_records.
  repeat (apply Forall_cons; split;
    [intros t Ht; vm_compute in Ht; injection Ht as <-; split; by vm_compute|]).
  by apply Forall_nil.
Qed.

Lemma date_range_counts_witness :
  exists items start stop,
    StoreQuery (record_all (NewMemoryStore 0) witness_records) (mkQuery "key" "" "" "2024-02-28" "2024-03-01" "")
      = Ok items /\
    parseDateRange "2024-02-28" "2024-03-01" = Ok (start, stop) /\
    forall item, item ∈ items -> s_Value item = "x" -> s_InputTokens item = 8.
Proof.
  destruct (StoreQuery (record_all (NewMemoryStore 0) witness_records)
    (mkQuery "key" "" "" "2024-02-28" "2024-03-01" "")) as [items|e] eqn:E; [|by vm_compute in E].
  destruct (date_range_counts s_InputTokens (fun r => ub_InputTokens (ur_Breakdown r)) 0 witness_records
    "key" "2024-02-28" "2024-03-01" items eq_refl ltac:(done) witness_timestamps E)
    as (start & stop & Hd & H).
  exists items, start, stop. split; [done|]. split; [done|]. intros item Hin Hv.
  rewrite (proj2 (H "x") item Hin Hv). vm_compute in Hd. injection Hd as <- <-. by vm_compute.
Defined.

(** ** The embedded prices *)

Definition builtInPriceSnapshot : result pricesPanic defaultPriceSnapshot := loadDefaultPriceSnapshot defaultPriceSnapshotJSON.
Definition builtInItems : list AccountingPriceConfig :=
  match builtInPriceSnapshot with Ok s => dps_Items s | Err _ => [] end.

(** The program starts with the prices it embeds: they are read without a panic, no model has
    two prices, no price names a provider, so each is found whatever the provider, and no
    rate is zero or negative, so no kind of token is free. *)
Theorem default_prices_load :
  (exists s, builtInPriceSnapshot = Ok s /\ dps_Items s = builtInItems) /\
  length builtInItems = 24%nat /\ NoDup (map ap_Model builtInItems) /\
  Forall (fun item => ap_Provider item = "" /\ TrimSpace (ap_Model item) = ap_Model item /\
    Forall (fun rate => fleb0 rate = false)
      [ap_InputPerMillionUSD item; ap_OutputPerMillionUSD item; ap_CacheCreatePerMillionUSD item; ap_CacheReadPerMillionUSD item])
    builtInItems.
Proof.
  split; [|split; [|split]].
  - destruct builtInPriceSnapshot as [s|e] eqn:E; [exists s|by vm_compute in E]. split; [done|]. unfold builtInItems. by rewrite E.
  - by vm_compute.
  - apply (bool_decide_unpack _). by vm_compute.
  - apply (bool_decide_unpack _). by vm_compute.
Qed.
