(* ===== verification/UsageFile.v ===== *)
(** * The usage file

    Models [internal/accounting/local_file.go]: the store that keeps the aggregates in
    memory, appends every record to a file of the day, and writes snapshots of the
    aggregates with a cursor that tells which lines they include.

    A line of a record file is the record it decodes to, or bad; a snapshot is the value
    it decodes to.  A record or a snapshot with an infinite cost cannot be encoded.  The
    writer is flushed at the end of every batch, so a line is in its file when it is
    appended.  Opening a file for appending may fail ([open_ok]); the other file
    operations succeed.  The goroutine and the callers take turns at the queue: the steps
    of [step], in any order.  [Dir] is a clean path. *)

From Stdlib Require Import SpecFloat.
From S2P Require Import Prelude GoStrings GoTime GoTimeFacts RuntimeModel ConfigTypes Accounting.

(** ** Files *)

Record snapshotCursor := mkSnapshotCursor { cu_RecordFile : string; cu_RecordLine : Z }.
Record snapshotState := mkSnapshotState {
  ss_Totals : gmap string group;
  ss_Windows : gmap string (gmap string group);
  ss_Cursor : snapshotCursor;
  ss_CapturedAt : string;
  ss_TrackingStartedAt : string
}.

(** A line that is not a record has its length. *)
Inductive line := LineRecord (r : UsageRecord) | LineBad (length : Z).
Record recordFile := mkRecordFile { rf_lines : list line; rf_modTime : Time }.

(** [dk_latest] is [None] when [latest.json] is missing or does not decode; of the other
    snapshots only their time matters. *)
Record Disk := mkDisk {
  dk_records : gmap string recordFile;
  dk_latest : option snapshotState;
  dk_snapshots : gmap string Time
}.

Definition is_finite (f : float64) : bool :=
  match f with S754_zero _ | S754_finite _ _ _ => true | _ => false end.
Definition units_finite (units : gmap string float64) : bool := forallb (fun kv => is_finite kv.2) (map_to_list units).
Definition record_finite (r : UsageRecord) : bool := is_finite (ur_CostUSD r) && units_finite (ub_ToolUnits (ur_Breakdown r)).
Definition item_finite (item : StatsItem) : bool := is_finite (s_CostUSD item) && units_finite (s_ToolUnits item).
Definition group_finite (g : group) : bool := forallb (fun kv => item_finite kv.2) (map_to_list g).
Definition groups_finite (groups : gmap string group) : bool := forallb (fun kv => group_finite kv.2) (map_to_list groups).
Definition state_finite (s : snapshotState) : bool :=
  groups_finite (ss_Totals s) && forallb (fun kv => groups_finite kv.2) (map_to_list (ss_Windows s)).

(** ** The store *)

(** [lf_file] is whether a file is open; [lf_closed] whether the queue is closed,
    [lf_running] whether the goroutine runs; [lf_batch] is its batch. *)
Record LocalFileStore := mkLocalFileStore {
  lf_memory : MemoryStore;
  lf_queue : list UsageRecord;
  lf_batch : list UsageRecord;
  lf_file : bool;
  lf_currentPath : string;
  lf_currentSize : Z;
  lf_currentLine : Z;
  lf_currentDay : string;
  lf_currentPart : Z;
  lf_dropped : Z;
  lf_lastRecordRef : snapshotCursor;
  lf_closed : bool;
  lf_running : bool
}.

Definition set_memory (m : MemoryStore) (s : LocalFileStore) : LocalFileStore :=
  mkLocalFileStore m (lf_queue s) (lf_batch s) (lf_file s) (lf_currentPath s) (lf_currentSize s) (lf_currentLine s)
    (lf_currentDay s) (lf_currentPart s) (lf_dropped s) (lf_lastRecordRef s) (lf_closed s) (lf_running s).
Definition set_queue (q : list UsageRecord) (s : LocalFileStore) : LocalFileStore :=
  mkLocalFileStore (lf_memory s) q (lf_batch s) (lf_file s) (lf_currentPath s) (lf_currentSize s) (lf_currentLine s)
    (lf_currentDay s) (lf_currentPart s) (lf_dropped s) (lf_lastRecordRef s) (lf_closed s) (lf_running s).
Definition set_batch (b : list UsageRecord) (s : LocalFileStore) : LocalFileStore :=
  mkLocalFileStore (lf_memory s) (lf_queue s) b (lf_file s) (lf_currentPath s) (lf_currentSize s) (lf_currentLine s)
    (lf_currentDay s) (lf_currentPart s) (lf_dropped s) (lf_lastRecordRef s) (lf_closed s) (lf_running s).
Definition set_part (n : Z) (s : LocalFileStore) : LocalFileStore :=
  mkLocalFileStore (lf_memory s) (lf_queue s) (lf_batch s) (lf_file s) (lf_currentPath s) (lf_currentSize s) (lf_currentLine s)
    (lf_currentDay s) n (lf_dropped s) (lf_lastRecordRef s) (lf_closed s) (lf_running s).
Definition set_dropped (n : Z) (s : LocalFileStore) : LocalFileStore :=
  mkLocalFileStore (lf_memory s) (lf_queue s) (lf_batch s) (lf_file s) (lf_currentPath s) (lf_currentSize s) (lf_currentLine s)
    (lf_currentDay s) (lf_currentPart s) n (lf_lastRecordRef s) (lf_closed s) (lf_running s).
Definition set_open (path : string) (size line : Z) (day : string) (s : LocalFileStore) : LocalFileStore :=
  mkLocalFileStore (lf_memory s) (lf_queue s) (lf_batch s) true path size line day (lf_currentPart s) (lf_dropped s)
    (lf_lastRecordRef s) (lf_closed s) (lf_running s).
Definition set_written (size line : Z) (ref : snapshotCursor) (s : LocalFileStore) : LocalFileStore :=
  mkLocalFileStore (lf_memory s) (lf_queue s) (lf_batch s) (lf_file s) (lf_currentPath s) size line (lf_currentDay s)
    (lf_currentPart s) (lf_dropped s) ref (lf_closed s) (lf_running s).
Definition set_closed (s : LocalFileStore) : LocalFileStore :=
  mkLocalFileStore (lf_memory s) (lf_queue s) (lf_batch s) (lf_file s) (lf_currentPath s) (lf_currentSize s) (lf_currentLine s)
    (lf_currentDay s) (lf_currentPart s) (lf_dropped s) (lf_lastRecordRef s) true (lf_running s).
Definition set_stopped (s : LocalFileStore) : LocalFileStore :=
  mkLocalFileStore (lf_memory s) (lf_queue s) (lf_batch s) (lf_file s) (lf_currentPath s) (lf_currentSize s) (lf_currentLine s)
    (lf_currentDay s) (lf_currentPart s) (lf_dropped s) (lf_lastRecordRef s) (lf_closed s) false.

Definition with_file (path : string) (f : recordFile) (d : Disk) : Disk :=
  mkDisk (<[path := f]> (dk_records d)) (dk_latest d) (dk_snapshots d).

Section store.
(** The length of a record's encoding, which [Priced] is not part of, and which files can be opened *)
Context (encoded_length : UsageRecord -> Z) (open_ok : string -> bool) (cfg : AccountingLocalFileConfig).

Definition line_length (l : line) : Z := match l with LineRecord r => encoded_length r | LineBad n => n end.
Definition file_size (lines : list line) : Z := foldr (fun l n => line_length l + 1 + n) 0 lines.

(** ** Appending *)

(** [%04d] *)
Definition format_part (part : Z) : string := if part <? 10000 then fixed_digits 4 part else itoa part.
(** [None] is the panic of a slice out of range. *)
Definition record_path (day : string) (part : Z) : option string :=
  if (len day <? 10)%nat then None else
  Some (alf_Dir cfg +:+ "/records/" +:+ str_take 4 day +:+ "/" +:+ str_take 2 (str_drop 5 day) +:+ "/" +:+
        str_take 2 (str_drop 8 day) +:+ "/" +:+ format_part part +:+ ".jsonl").

Definition closeWriter (s : LocalFileStore) : LocalFileStore :=
  mkLocalFileStore (lf_memory s) (lf_queue s) (lf_batch s) false (if lf_file s then "" else lf_currentPath s)
    (if lf_file s then 0 else lf_currentSize s) (lf_currentLine s) (lf_currentDay s) (lf_currentPart s) (lf_dropped s)
    (lf_lastRecordRef s) (lf_closed s) (lf_running s).

(** The results: [None] on a panic, else whether there was no error *)
Definition openWriter (now : Time) (day : string) (part : Z) (s : LocalFileStore) (d : Disk)
    : option (bool * LocalFileStore * Disk) :=
  let s := closeWriter s in
  path ← record_path day part;
  if negb (open_ok path) then Some (false, s, d) else
  let f := default (mkRecordFile [] now) (dk_records d !! path) in
  let size := file_size (rf_lines f) in
  Some (true, set_open path size (if size =? 0 then 0 else lf_currentLine s) day s, with_file path f d).

Definition rotateIfNeeded (now : Time) (record : UsageRecord) (s : LocalFileStore) (d : Disk)
    : option (bool * LocalFileStore * Disk) :=
  let day := (timeBuckets record).1.1 in
  if negb (lf_file s) || (lf_currentDay s != day) || (i64 (alf_RotateMaxSizeMB cfg * 1024 * 1024) <=? lf_currentSize s) then
    let part := (if lf_currentDay s != day then 0 else lf_currentPart s) + 1 in
    openWriter now day part (set_part part s) d
  else Some (true, s, d).

(** [Priced] is not written. *)
Definition stored (r : UsageRecord) : UsageRecord :=
  mkUsageRecord (ur_RequestID r) (ur_ClientName r) (ur_InboundName r) (ur_InboundProtocol r) (ur_ActiveTag r)
    (ur_MatchedRule r) (ur_Strategy r) (ur_OutboundName r) (ur_OutboundProtocol r) (ur_ProviderName r)
    (ur_RequestedModel r) (ur_ExecutedModel r) (ur_UsageSource r) (ur_Status r) (ur_ErrorKind r) (ur_SessionID r)
    (ur_Agent r) (ur_CostUSD r) false (ur_Breakdown r) (ur_StartedAt r) (ur_FinishedAt r) (ur_LatencyMs r)
    (ur_FallbackCount r).

(** What is written to a file that retention has removed is lost. *)
Definition appendRecord (now : Time) (record : UsageRecord) (s : LocalFileStore) (d : Disk)
    : option (bool * LocalFileStore * Disk) :=
  '(ok, s, d) ← rotateIfNeeded now record s d;
  if negb ok then Some (false, s, d)
  else if negb (record_finite record) then Some (false, s, d)
  else
    let path := lf_currentPath s in
    let line := lf_currentLine s + 1 in
    Some (true, set_written (lf_currentSize s + encoded_length record + 1) line (mkSnapshotCursor path line) s,
          match dk_records d !! path with
          | Some f => with_file path (mkRecordFile (rf_lines f ++ [LineRecord (stored record)]) now) d
          | None => d
          end).

(** The first error ends the batch: the rest of it is lost. *)
Fixpoint append_batch (now : Time) (batch : list UsageRecord) (s : LocalFileStore) (d : Disk)
    : option (LocalFileStore * Disk) :=
  match batch with
  | [] => Some (s, d)
  | record :: batch =>
      '(ok, s, d) ← appendRecord now record s d;
      if negb ok then Some (s, d) else append_batch now batch s d
  end.

(** ** Snapshots and retention *)

Definition expired (days : Z) (now modTime : Time) : bool := Before modTime (add_days_in UTC now (- days)).

Definition cleanupSnapshotExpired (now : Time) (d : Disk) : Disk :=
  if alf_SnapshotRetentionDays cfg <=? 0 then d else
  mkDisk (dk_records d) (dk_latest d)
    (filter (fun kv => expired (alf_SnapshotRetentionDays cfg) now kv.2 = false) (dk_snapshots d)).

(** [2006-01-02T15-04-05Z] *)
Definition format_stamp (t : Time) : string :=
  let c := civil t in
  format_date (c_year c) (c_month c) (c_day c) +:+ "T" +:+ fixed_digits 2 (c_hour c) +:+ "-" +:+
  fixed_digits 2 (c_min c) +:+ "-" +:+ fixed_digits 2 (c_sec c) +:+ "Z".

Definition capture (now : Time) (s : LocalFileStore) : snapshotState :=
  let m := lf_memory s in
  mkSnapshotState (ms_totals m) (ms_windows m) (lf_lastRecordRef s) (format_rfc3339nano now)
    (if ms_coverageKnown m && negb (IsZero (ms_trackingStartedAt m)) then format_rfc3339nano (ms_trackingStartedAt m) else "").
Definition writeSnapshot (now : Time) (s : LocalFileStore) (d : Disk) : Disk :=
  let state := capture now s in
  if negb (state_finite state) then d else
  cleanupSnapshotExpired now
    (mkDisk (dk_records d) (Some state) (<[format_stamp now +:+ ".json" := now]> (dk_snapshots d))).

Definition cleanupExpired (now : Time) (s : LocalFileStore) (d : Disk) : Disk :=
  if alf_RetentionDays cfg <=? 0 then d else
  mkDisk (filter (fun kv => expired (alf_RetentionDays cfg) now (rf_modTime kv.2) = false \/
                            kv.1 = cu_RecordFile (lf_lastRecordRef s)) (dk_records d))
    (dk_latest d) (dk_snapshots d).

Definition flush (forceSnapshot : bool) (now : Time) (s : LocalFileStore) (d : Disk) : option (LocalFileStore * Disk) :=
  '(s, d) ← append_batch now (lf_batch s) s d;
  let s := set_batch [] s in
  if forceSnapshot then Some (s, cleanupExpired now s (writeSnapshot now s d)) else Some (s, d).

(** ** The goroutine and its callers *)

Inductive step :=
| StepRecord (record : UsageRecord)
| StepReceive (now : Time)
| StepTick (now : Time)
| StepClose.

(** A send on the closed queue panics. *)
Definition Record_file (record : UsageRecord) (s : LocalFileStore) : option LocalFileStore :=
  let s := set_memory (Record_ (lf_memory s) record) s in
  if lf_closed s then None
  else if Z.of_nat (length (lf_queue s)) <? alf_QueueSize cfg then Some (set_queue (lf_queue s ++ [record]) s)
  else Some (set_dropped (i64 (lf_dropped s + 1)) s).

(** The first case of the [select]; nothing happens while the queue is empty and open. *)
Definition receive (now : Time) (s : LocalFileStore) (d : Disk) : option (LocalFileStore * Disk) :=
  match lf_queue s with
  | record :: queue =>
      let s := set_batch (lf_batch s ++ [record]) (set_queue queue s) in
      if alf_WriteBufferRecords cfg <=? Z.of_nat (length (lf_batch s)) then flush false now s d else Some (s, d)
  | [] =>
      if lf_closed s then '(s, d) ← flush true now s d; Some (set_stopped (closeWriter s), d) else Some (s, d)
  end.

Definition do_step (x : step) (s : LocalFileStore) (d : Disk) : option (LocalFileStore * Disk) :=
  match x with
  | StepRecord record => s ← Record_file record s; Some (s, d)
  | StepReceive now => if lf_running s then receive now s d else Some (s, d)
  | StepTick now => if lf_running s then flush true now s d else Some (s, d)
  | StepClose => Some (set_closed s, d)
  end.
Fixpoint do_steps (l : list step) (s : LocalFileStore) (d : Disk) : option (LocalFileStore * Disk) :=
  match l with
  | [] => Some (s, d)
  | x :: l => '(s, d) ← do_step x s d; do_steps l s d
  end.

(** ** Recovery *)

(** [bufio.Scanner] refuses a line that does not fit its buffer with its newline. *)
Definition too_long (l : line) : bool := 65536 <=? line_length l.

(** [None] is an error. *)
Fixpoint replay_lines (path : string) (n : Z) (lines : list line) (m : MemoryStore) (ref : snapshotCursor)
    : option (MemoryStore * snapshotCursor) :=
  match lines with
  | [] => Some (m, ref)
  | l :: lines =>
      if too_long l then None else
      let n := n + 1 in
      if (path == cu_RecordFile ref) && (n <=? cu_RecordLine ref) then replay_lines path n lines m ref else
      match l with
      | LineBad _ => replay_lines path n lines m ref
      | LineRecord r => replay_lines path n lines (Record_ m r) (mkSnapshotCursor path n)
      end
  end.
Definition replayFile (path : string) (f : recordFile) := replay_lines path 0 (rf_lines f).

Fixpoint replay_files (files : list (string * recordFile)) (m : MemoryStore) (ref : snapshotCursor)
    : option (MemoryStore * snapshotCursor) :=
  match files with
  | [] => Some (m, ref)
  | (path, f) :: files =>
      if (cu_RecordFile ref != "") && String.ltb path (cu_RecordFile ref) then replay_files files m ref
      else '(m, ref) ← replayFile path f m ref; replay_files files m ref
  end.
Definition sorted_files (d : Disk) : list (string * recordFile) :=
  sort_by (fun a b => String.ltb a.1 b.1) (map_to_list (dk_records d)).
Definition replayRecords (d : Disk) := replay_files (sorted_files d).

Definition cloneWindowGroupsFromStrings (src : gmap string (gmap string group)) : gmap Window (gmap string group) :=
  {[ WindowDay := default ∅ (src !! WindowDay); WindowWeek := default ∅ (src !! WindowWeek);
     WindowMonth := default ∅ (src !! WindowMonth) ]}.
Definition restore (state : snapshotState) (m : MemoryStore) : MemoryStore :=
  let started := parse_rfc3339 (ss_TrackingStartedAt state) in
  mkMemoryStore (ss_Totals state) (cloneWindowGroupsFromStrings (ss_Windows state)) (ms_recent m)
    (default zero_time started) (match started with Some _ => true | None => false end).
Definition recover (d : Disk) (m : MemoryStore) : option (MemoryStore * snapshotCursor) :=
  match dk_latest d with
  | Some state => replayRecords d (restore state m) (ss_Cursor state)
  | None => replayRecords d m (mkSnapshotCursor "" 0)
  end.

Definition NewLocalFileStore (now : Time) (d : Disk) : option LocalFileStore :=
  '(m, ref) ← recover d (NewMemoryStore now);
  Some (mkLocalFileStore m [] [] false "" 0 0 "" 0 0 ref false true).

Definition LocalFile_Query (s : LocalFileStore) (q : Query) := StoreQuery (lf_memory s) q.
Definition LocalFile_Coverage (s : LocalFileStore) : Coverage :=
  let c := StoreCoverage (lf_memory s) in
  mkCoverage (cov_TrackingStartedAt c) (cov_Known c) "local_file" true (alf_RetentionDays cfg).
Definition LocalFile_RecentRecords (s : LocalFileStore) (q : RecentRecordsQuery) := RecentRecords (lf_memory s) q.
End store.
