(* ===== verification/UsageFileFacts.v ===== *)
(** * Properties of the usage file

    A restart after a clean stop loses nothing and counts nothing twice, as long as the
    records of a run are of days later than those of the files there are.  On the same
    day it counts records twice: [restart_same_day]. *)

From Stdlib Require Import SpecFloat.
From S2P Require Import Prelude GoStrings GoTime GoTimeFacts RuntimeModel ConfigTypes Accounting AccountingFacts UsageFile.

#[local] Arguments String.append !_ _ /.

(** ** The order of digits and paths *)


(** ** Paths *)

(** The day of a record whose time can be read, in a year of four digits *)
Definition dated (r : UsageRecord) : Prop := exists t, parse_rfc3339 (record_timestamp r) = Some t /\ year_ok t.
Abbreviation day_of r := ((timeBuckets r).1.1).

Lemma dated_day r : dated r -> exists t, year_ok t /\ day_of r = format_day t.
Proof. intros (t & Ht & Hy). exists t. unfold timeBuckets. by rewrite Ht. Qed.

Lemma day_parts t : year_ok t -> exists y m d, len y = 4%nat /\ len m = 2%nat /\ len d = 2%nat /\
  format_day t = y +:+ "-" +:+ m +:+ "-" +:+ d.
Proof.
  intros Hy. unfold format_day, format_date. rewrite format_year_ok by done.
  do 3 eexists. repeat split; [..|reflexivity]; apply fixed_digits_len.
Qed.

Lemma record_path_parts cfg y m d part : len y = 4%nat -> len m = 2%nat -> len d = 2%nat ->
  record_path cfg (y +:+ "-" +:+ m +:+ "-" +:+ d) part =
  Some (alf_Dir cfg +:+ "/records/" +:+ y +:+ "/" +:+ m +:+ "/" +:+ d +:+ "/" +:+ format_part part +:+ ".jsonl").
Proof.
  intros Hy Hm Hd.
  destruct y as [|? [|? [|? [|? []]]]]; try discriminate Hy.
  destruct m as [|? [|? []]]; try discriminate Hm. by destruct d as [|? [|? []]]; try discriminate Hd.
Qed.



(** ** Recovery *)

Section store.
Context (encoded_length : UsageRecord -> Z) (open_ok : string -> bool) (cfg : AccountingLocalFileConfig).
#[local] Abbreviation too_long := (too_long encoded_length).
#[local] Abbreviation replay_lines := (replay_lines encoded_length).
#[local] Abbreviation replay_files := (replay_files encoded_length).











(** ** Writing *)




Section run.
(** The files there are at the start are of [day0] or before, the records of later days. *)
Context (day0 : string) (open_all : forall path, open_ok path = true).



Abbreviation writer s :=
  (lf_lastRecordRef s, lf_currentDay s, lf_currentPart s, lf_file s, lf_currentPath s, lf_currentLine s).



Abbreviation others s := (lf_memory s, lf_queue s, lf_batch s, lf_closed s, lf_running s).


Lemma record_path_some t i : year_ok t -> exists path, record_path cfg (format_day t) i = Some path /\ path <> "".
Proof.
  intros Ht. destruct (day_parts t Ht) as (y & m & d & Hy & Hm & Hd & ->). rewrite record_path_parts by done.
  eexists. split; [done|]. intros E. apply (f_equal len) in E. rewrite str_len_app in E. cbn in E. lia.
Qed.

(** A dated record panics neither the store, while it is open, nor its goroutine. *)
Lemma dated_recordable now r s d : dated r -> lf_closed s = false ->
  is_Some (Record_file cfg r s) /\ is_Some (appendRecord encoded_length open_ok cfg now r s d).
Proof.
  intros (t & Hy & Hd)%dated_day Hc. split.
  - unfold Record_file. cbn. rewrite Hc. case_match; eauto.
  - enough (exists ok s' d', rotateIfNeeded encoded_length open_ok cfg now r s d = Some (ok, s', d')) as (ok & s' & d' & E).
    { unfold appendRecord. rewrite E. cbn. do 2 (case_match; [eauto|]). eauto. }
    unfold rotateIfNeeded. rewrite Hd. case_match; [|eauto]. unfold openWriter.
    edestruct record_path_some as (path & -> & _); [exact Hy|]. cbn. case_match; eauto.
Qed.





(** ** The run of the store *)







End run.
End store.

(** ** A restart after a clean stop *)








(** ** Examples *)

Definition ex_cfg : AccountingLocalFileConfig := mkAccountingLocalFileConfig "data/usage" 64 90 "1h" 30 2 "1s" 16.
Definition ex_record (client started : string) : UsageRecord :=
  mkUsageRecord "" client "in" "openai_chat" "t" "r" "failover" "a" "mock" "a" "m" "m" "provider"
    UsageStatusSuccess "" "" "" fzero true (mkUsageBreakdown 1 3 0 0 0 3 ∅) "" started 0 0.
Definition ex_time (day : Z) : Time := date_utc 2024 3 day 12 0 0 0.
Definition ex_length (r : UsageRecord) : Z := 400.
Definition ex_open (path : string) : bool := true.
Definition ex_disk : Disk := mkDisk ∅ None ∅.

(** A run that records each of [rs], lets the goroutine take each, and stops *)
Definition ex_run (now : Time) (rs : list UsageRecord) : list step :=
  flat_map (fun r => [StepRecord r; StepReceive now]) rs ++ [StepTick now; StepClose; StepReceive now].

Definition ex_restart (now : Time) (rs : list UsageRecord) (d : Disk) : option (LocalFileStore * Disk) :=
  s ← NewLocalFileStore ex_length now d; do_steps ex_length ex_open ex_cfg (ex_run now rs) s d.
Definition ex_counts (s : LocalFileStore) : list (string * Z) :=
  match LocalFile_Query s (mkQuery "key" "" "" "" "" "") with
  | Ok items => map (fun i => (s_Value i, s_RequestCount i)) items
  | Err _ => []
  end.

Definition ex_same_day : option (list (string * Z) * list (string * Z)) :=
  '(_, d) ← ex_restart (ex_time 1) [ex_record "x" "2024-03-01T10:00:00Z"; ex_record "x" "2024-03-01T11:00:00Z"] ex_disk;
  '(s, d) ← ex_restart (ex_time 1) [ex_record "y" "2024-03-01T12:00:00Z"] d;
  s' ← NewLocalFileStore ex_length (ex_time 1) d;
  Some (ex_counts s, ex_counts s').

(** Three runs on one day: the records of the second are numbered from the start of the
    file, so the third counts two of them again. *)
Example restart_same_day : ex_same_day = Some ([("x", 2); ("y", 1)], [("x", 3); ("y", 2)]).
Proof. by vm_compute. Qed.




