(* ===== verification/LogBuffer.v ===== *)
(** * The buffer of recent log lines

    Models [internal/logging/recent.go]: the lines of the log kept in memory, bounded by
    age and by bytes, and the claim of [Snapshot] to cover a time range.  Each method
    holds the buffer's mutex and is one atomic step with its reading of the clock; a
    buffer is an [option] ([None] is the nil pointer).  The second half shows that the
    claim is honest for whole lines, and what happens to a line written in two parts. *)

From S2P Require Import Prelude GoStrings GoTime.

Record RecentLine := mkRecentLine { RL_Time : Time; RL_Content : string }.
Record RecentSnapshot := mkRecentSnapshot {
  RS_Lines : list RecentLine;
  RS_LineCount : Z;
  RS_Bytes : Z;
  RS_StartedAt : Time
}.
Record recentLine := mkrecentLine { rl_at : Time; rl_content : string; rl_size : Z }.
Record RecentBuffer := mkRecentBuffer {
  rb_maxAge : Duration;
  rb_maxBytes : Z;
  rb_startedAt : Time;
  rb_coverageFrom : Time;
  rb_lines : list recentLine;
  rb_bytes : Z;
  rb_partial : string;
  rb_dropping : bool
}.

Definition NewRecentBuffer (now : Time) (maxAge : Duration) (maxBytes : Z) : RecentBuffer :=
  mkRecentBuffer maxAge maxBytes now now [] 0 "" false.

Definition advanceCoverageLocked (value : Time) (b : RecentBuffer) : RecentBuffer :=
  mkRecentBuffer (rb_maxAge b) (rb_maxBytes b) (rb_startedAt b)
    (if After value (rb_coverageFrom b) then value else rb_coverageFrom b)
    (rb_lines b) (rb_bytes b) (rb_partial b) (rb_dropping b).
Definition set_partial (partial : string) (dropping : bool) (b : RecentBuffer) : RecentBuffer :=
  mkRecentBuffer (rb_maxAge b) (rb_maxBytes b) (rb_startedAt b) (rb_coverageFrom b) (rb_lines b) (rb_bytes b)
    partial dropping.
Definition set_lines (lines : list recentLine) (bytes : Z) (b : RecentBuffer) : RecentBuffer :=
  mkRecentBuffer (rb_maxAge b) (rb_maxBytes b) (rb_startedAt b) (rb_coverageFrom b) lines bytes
    (rb_partial b) (rb_dropping b).

Definition appendPartialLocked (p : string) (now : Time) (b : RecentBuffer) : RecentBuffer :=
  if (len p =? 0)%nat then b
  else if (rb_maxBytes b <=? 0) || (rb_maxBytes b <? Z.of_nat (len (rb_partial b)) + Z.of_nat (len p) + 1) then
    advanceCoverageLocked (Add now Nanosecond) (set_partial "" true b)
  else set_partial (rb_partial b +:+ p) (rb_dropping b) b.

(** The loop of [evictLocked] over the lines it is given *)
Fixpoint evict_lines (now : Time) (lines : list recentLine) (b : RecentBuffer) : RecentBuffer :=
  match lines with
  | [] => set_lines [] (rb_bytes b) b
  | removed :: rest =>
      if ((0 <? rb_maxAge b) && Before (rl_at removed) (Add now (- rb_maxAge b))) || (rb_maxBytes b <=? 0) ||
         (rb_maxBytes b <? rb_bytes b)
      then evict_lines now rest
             (advanceCoverageLocked (Add (rl_at removed) Nanosecond) (set_lines rest (rb_bytes b - rl_size removed) b))
      else set_lines lines (rb_bytes b) b
  end.
Definition evictLocked (now : Time) (b : RecentBuffer) : RecentBuffer := evict_lines now (rb_lines b) b.

Definition newline : ascii := byte 10.
(** [bytes.IndexByte] for a newline, as the parts before and after it *)
Fixpoint cut_line (p : string) : option (string * string) :=
  match p with
  | EmptyString => None
  | String c p =>
      if bool_decide (c = newline) then Some (EmptyString, p)
      else '(line, rest) ← cut_line p; Some (String c line, rest)
  end.

Definition complete_line (now : Time) (b : RecentBuffer) : RecentBuffer :=
  if rb_dropping b then set_partial "" false b
  else
    let content := rb_partial b in
    let size := Z.of_nat (len content) + 1 in
    evictLocked now
      (set_lines (rb_lines b ++ [mkrecentLine now content size]) (rb_bytes b + size) (set_partial "" (rb_dropping b) b)).

(** Every turn of the loop takes at least a newline: the length of [p] is fuel enough. *)
Fixpoint write_loop (fuel : nat) (now : Time) (p : string) (b : RecentBuffer) : RecentBuffer :=
  match fuel with
  | O => b
  | S fuel =>
      if (len p =? 0)%nat then b else
      match cut_line p with
      | None => if rb_dropping b then b else appendPartialLocked p now b
      | Some (line, rest) =>
          if rb_dropping b then write_loop fuel now rest (set_partial (rb_partial b) false b)
          else write_loop fuel now rest (complete_line now (appendPartialLocked line now b))
      end
  end.

Definition Recent_Write (now : Time) (p : string) (b : option RecentBuffer) : nat * option RecentBuffer :=
  (len p, b ← b; Some (if (len p =? 0)%nat then b else write_loop (len p) now p (evictLocked now b))).

Definition snapshot_wants (since until : Time) (t : Time) : bool :=
  negb ((negb (IsZero since) && Before t since) || (negb (IsZero until) && After t until)).

Definition Recent_Snapshot (now since until : Time) (b : option RecentBuffer)
    : RecentSnapshot * bool * option RecentBuffer :=
  match b with
  | None => (mkRecentSnapshot [] 0 0 0, false, None)
  | Some b =>
      let b := evictLocked now b in
      let ageBoundary := Add now (- rb_maxAge b) in
      let coverageFrom :=
        if (0 <? rb_maxAge b) && After ageBoundary (rb_coverageFrom b) then ageBoundary else rb_coverageFrom b in
      let covered := negb (IsZero since) && negb (Before since coverageFrom) in
      let lines := filter (fun l => snapshot_wants since until (rl_at l) = true) (rb_lines b) in
      (mkRecentSnapshot (map (fun l => mkRecentLine (rl_at l) (rl_content l)) lines) (Z.of_nat (length lines))
         (foldr (fun l n => rl_size l + n) 0 lines) (rb_startedAt b), covered, Some b)
  end.

(** ** What was written *)

Lemma cut_line_Some p line rest : cut_line p = Some (line, rest) -> p = line +:+ String newline rest.
Proof.
  revert line. induction p as [|c p IH]; intros line H; [done|]. cbn in H. case_bool_decide as Hc.
  - injection H as <- <-. by subst.
  - destruct (cut_line p) as [[l r]|]; [|done]. cbn in H. injection H as <- <-. by rewrite (IH l).
Qed.

(** The whole lines of a text; what follows the last newline is not one. *)
Fixpoint whole_lines (fuel : nat) (p : string) : list string :=
  match fuel with
  | O => []
  | S fuel => match cut_line p with Some (line, rest) => line :: whole_lines fuel rest | None => [] end
  end.
(** The text is empty or ends with a newline. *)
Fixpoint ends_line (fuel : nat) (p : string) : bool :=
  match fuel with
  | O => (len p =? 0)%nat
  | S fuel => match cut_line p with Some (_, rest) => ends_line fuel rest | None => (len p =? 0)%nat end
  end.
Definition written (ws : list (Time * string)) : list RecentLine :=
  flat_map (fun w => map (mkRecentLine w.1) (whole_lines (len w.2) w.2)) ws.
Definition write_chunks (ws : list (Time * string)) (b : RecentBuffer) : option RecentBuffer :=
  foldl (fun b w => (Recent_Write w.1 w.2 b).2) (Some b) ws.

Definition as_line (l : recentLine) : RecentLine := mkRecentLine (rl_at l) (rl_content l).
Definition from (since : Time) (l : RecentLine) : Prop := since <= RL_Time l.
#[local] Instance from_dec since l : Decision (from since l).
Proof. unfold from. apply _. Defined.

(** The buffer has the lines of [hist] from its coverage on, and counts its bytes. *)
Record holds (hist : list RecentLine) (b : RecentBuffer) : Prop := {
  holds_lines since : rb_coverageFrom b <= since -> filter (from since) hist = filter (from since) (map as_line (rb_lines b));
  holds_bytes : rb_bytes b = foldr (fun l n => rl_size l + n) 0 (rb_lines b);
  holds_sizes : Forall (fun l => rl_size l = Z.of_nat (len (rl_content l)) + 1) (rb_lines b)
}.

(** The bounds are kept after every eviction. *)
Definition bounded (b : RecentBuffer) : Prop := rb_lines b = [] \/ 0 < rb_maxBytes b /\ rb_bytes b <= rb_maxBytes b.

Lemma coverage_max value b : rb_coverageFrom (advanceCoverageLocked value b) = Z.max value (rb_coverageFrom b).
Proof. unfold advanceCoverageLocked, After. cbn. destruct (Z.ltb_spec (rb_coverageFrom b) value); lia. Qed.

Lemma evict_lines_holds now hist lines b : rb_lines b = lines -> holds hist b ->
  let b' := evict_lines now lines b in holds hist b' /\ bounded b' /\
  rb_partial b' = rb_partial b /\ rb_dropping b' = rb_dropping b /\ rb_maxBytes b' = rb_maxBytes b.
Proof.
  revert b. induction lines as [|r rest IH]; intros b E [Hl Hb Hs]; cbn [evict_lines].
  { rewrite E in *. cbn. split_and!; [split; cbn|by left|..]; done. }
  destruct (_ || _) eqn:Ec.
  - match goal with |- context [evict_lines now rest ?b1] => destruct (IH b1) as (H1 & H2 & H3 & H4 & H5) end; [done| |done].
    rewrite E in *. inversion Hs as [|? ? Hr Hrest]; subst. split; [|cbn in *; lia|done].
    intros since Hsince. rewrite coverage_max in Hsince. cbn in Hsince. rewrite Hl by lia. cbn [map rb_lines advanceCoverageLocked set_lines].
    rewrite filter_cons_False; [done|]. unfold from, Add, Nanosecond in *. cbn. lia.
  - apply orb_false_iff in Ec as [Ec Hmax]. apply orb_false_iff in Ec as [_ Hpos]. rewrite <- E.
    split_and!; [split; done| |done..]. right. breflect. cbn. lia.
Qed.

Lemma evict_holds now hist b : holds hist b ->
  let b' := evictLocked now b in holds hist b' /\ bounded b' /\
  rb_partial b' = rb_partial b /\ rb_dropping b' = rb_dropping b /\ rb_maxBytes b' = rb_maxBytes b.
Proof. by apply evict_lines_holds. Qed.

(** A whole line is kept, or the coverage starts after it. *)
Lemma line_holds now hist line b : rb_partial b = "" -> rb_dropping b = false -> holds hist b ->
  let b' := complete_line now (appendPartialLocked line now b) in
  holds (hist ++ [mkRecentLine now line]) b' /\ (bounded b -> bounded b') /\ rb_partial b' = "" /\ rb_dropping b' = false.
Proof.
  intros Hp Hd [Hl Hb Hs]. unfold appendPartialLocked, complete_line.
  assert (forall b0, rb_partial b0 = line -> rb_dropping b0 = false -> rb_lines b0 = rb_lines b -> rb_bytes b0 = rb_bytes b ->
    rb_coverageFrom b0 = rb_coverageFrom b ->
    let b' := evictLocked now (set_lines (rb_lines b0 ++ [mkrecentLine now (rb_partial b0) (Z.of_nat (len (rb_partial b0)) + 1)])
        (rb_bytes b0 + (Z.of_nat (len (rb_partial b0)) + 1)) (set_partial "" (rb_dropping b0) b0)) in
    holds (hist ++ [mkRecentLine now line]) b' /\ (bounded b -> bounded b') /\ rb_partial b' = "" /\ rb_dropping b' = false) as Hkeep.
  { intros b0 E1 E2 E3 E4 E5. match goal with |- context [evictLocked now ?x] => destruct (evict_holds now (hist ++ [mkRecentLine now line]) x) as (H1 & H2 & H3 & H4 & _) end.
    - split; cbn; rewrite ?E1, ?E3, ?E4, ?E5.
      + intros since Hsince. rewrite map_app, !filter_app, Hl by done. done.
      + rewrite foldr_app, Hb. cbn. clear. induction (rb_lines b) as [|x l IH]; cbn; lia.
      + apply Forall_app. by split; [|repeat constructor].
    - cbn in *. rewrite H3, H4. by split_and!. }
  destruct (Nat.eqb_spec (len line) 0) as [E|E].
  - apply str_len_nil in E as ->. pose proof (Hkeep b Hp Hd eq_refl eq_refl eq_refl) as K. by rewrite Hd in K |- *.
  - destruct (_ || _); cbn [rb_dropping set_partial advanceCoverageLocked].
    + split_and!; [|done..]. split; cbn; [|done..]. intros since Hsince.
      rewrite filter_app, (filter_cons_False _ _ []), app_nil_r; [|unfold from; cbn]; unfold After, Add, Nanosecond in *;
        destruct (Z.ltb_spec (rb_coverageFrom b) (now + 1)); try lia; by apply Hl; lia.
    + pose proof (Hkeep (set_partial (rb_partial b +:+ line) (rb_dropping b) b)) as K. cbn [rb_partial rb_dropping set_partial] in K.
      rewrite Hd in K |- *. apply K; [by rewrite Hp|done..].
Qed.

Lemma write_loop_holds fuel now p hist b :
  (len p <= fuel)%nat -> ends_line fuel p = true -> rb_partial b = "" -> rb_dropping b = false -> holds hist b -> bounded b ->
  let b' := write_loop fuel now p b in
  holds (hist ++ map (mkRecentLine now) (whole_lines fuel p)) b' /\ bounded b' /\ rb_partial b' = "" /\ rb_dropping b' = false.
Proof.
  revert p hist b. induction fuel as [|fuel IH]; intros p hist b Hf He Hp Hd H Hb; cbn in *; [by rewrite app_nil_r|].
  destruct (cut_line p) as [[line rest]|] eqn:Ec.
  - apply cut_line_Some in Ec. assert (len p = len line + S (len rest))%nat as El by (rewrite Ec, str_len_app; done).
    destruct (Nat.eqb_spec (len p) 0); [lia|]. rewrite Hd. cbn [map]. rewrite cons_middle, app_assoc.
    destruct (line_holds now hist line b Hp Hd H) as (H1 & H2 & H3 & H4). apply IH; [lia|done..|by apply H2].
  - rewrite He. by rewrite app_nil_r.
Qed.

(** Every whole line that was written is in the buffer, from its coverage on. *)
Lemma write_all_holds ws hist b b' :
  Forall (fun w => ends_line (len w.2) w.2 = true) ws -> rb_partial b = "" -> rb_dropping b = false -> holds hist b -> bounded b ->
  write_chunks ws b = Some b' -> holds (hist ++ written ws) b' /\ bounded b'.
Proof.
  intros Hw. revert hist b. induction Hw as [|[now p] ws Hp Hw IH]; intros hist b Hpar Hd H Hb E.
  { injection E as <-. by rewrite app_nil_r. }
  unfold write_chunks in E. cbn [foldl Recent_Write snd fst mbind option_bind] in E. cbn [written flat_map fst snd]. rewrite app_assoc.
  fold (write_chunks ws) in E. destruct (Nat.eqb_spec (len p) 0) as [E0|E0].
  - rewrite E0 in *. cbn. rewrite app_nil_r. by eapply IH.
  - destruct (evict_holds now hist b H) as (H1 & H2 & H3 & H4 & _). cbn in Hp.
    destruct (write_loop_holds (len p) now p hist (evictLocked now b)) as (W1 & W2 & W3 & W4); [done|done|congruence|congruence|done..|].
    by eapply IH.
Qed.

Lemma append_partial_max p now b : rb_maxBytes (appendPartialLocked p now b) = rb_maxBytes b.
Proof. unfold appendPartialLocked. by repeat case_match. Qed.
Lemma evict_max now lines b : rb_maxBytes (evict_lines now lines b) = rb_maxBytes b.
Proof. revert b. induction lines as [|l lines IH]; intros b; cbn; [done|]. case_match; [by rewrite IH|done]. Qed.
Lemma write_loop_max fuel now p b : rb_maxBytes (write_loop fuel now p b) = rb_maxBytes b.
Proof.
  revert p b. induction fuel as [|fuel IH]; intros p b; cbn; [done|]. unfold complete_line, evictLocked.
  repeat case_match; rewrite ?IH, ?evict_max; cbn; rewrite ?append_partial_max; done.
Qed.
Lemma write_all_max ws b b' : write_chunks ws b = Some b' -> rb_maxBytes b' = rb_maxBytes b.
Proof.
  revert b. induction ws as [|[now p] ws IH]; intros b E; [by injection E as <-|].
  unfold write_chunks in E. cbn [foldl Recent_Write snd fst mbind option_bind] in E. apply IH in E. rewrite E.
  case_match; [done|]. rewrite write_loop_max. apply evict_max.
Qed.

Lemma filter_wants since until lines : since <> 0 ->
  map as_line (filter (fun l => snapshot_wants since until (rl_at l) = true) lines) =
  filter (fun l => snapshot_wants since until (RL_Time l) = true) (filter (from since) (map as_line lines)).
Proof.
  intros Hs. assert (forall t, snapshot_wants since until t = true -> since <= t) as Hf.
  { intros t. unfold snapshot_wants, IsZero, Before. rewrite (proj2 (Z.eqb_neq _ _)) by done. cbn.
    destruct (Z.ltb_spec t since); cbn; [done|lia]. }
  induction lines as [|l lines IH]; [done|]. cbn [map]. rewrite !filter_cons.
  destruct (decide (snapshot_wants since until (rl_at l) = true)) as [E|E].
  - rewrite decide_True by (by apply Hf). rewrite filter_cons_True by done. cbn [map]. by rewrite IH.
  - destruct (decide _); [rewrite filter_cons_False by done|]; by rewrite IH.
Qed.
Lemma filter_from since until (hist : list RecentLine) : since <> 0 ->
  filter (fun l => snapshot_wants since until (RL_Time l) = true) hist =
  filter (fun l => snapshot_wants since until (RL_Time l) = true) (filter (from since) hist).
Proof.
  intros Hs. rewrite list_filter_filter. apply list_filter_iff. intros l. split; [|tauto]. intros H. split; [done|].
  unfold snapshot_wants, IsZero, Before in H. rewrite (proj2 (Z.eqb_neq _ _)) in H by done. cbn in H. unfold from.
  destruct (Z.ltb_spec (RL_Time l) since); [done|lia].
Qed.
Lemma sum_filter (P : recentLine -> Prop) `{!forall l, Decision (P l)} lines :
  Forall (fun l => rl_size l = Z.of_nat (len (rl_content l)) + 1) lines ->
  foldr (fun l n => rl_size l + n) 0 (filter P lines) <= foldr (fun l n => rl_size l + n) 0 lines /\
  foldr (fun l n => rl_size l + n) 0 (filter P lines) =
    foldr (fun l n => Z.of_nat (len (RL_Content l)) + 1 + n) 0 (map as_line (filter P lines)).
Proof.
  induction 1 as [|l lines Hl _ [IH1 IH2]]; [done|]. rewrite filter_cons. destruct (decide (P l)); cbn [foldr map as_line RL_Content]; lia.
Qed.

(** When a snapshot claims to cover the time since [since], it has every whole line written
    since then (and until [until]), in order, however many lines age and the bound on bytes
    have removed, lines longer than the bound among them; and its bytes are those of its
    lines and within the bound. *)
Theorem recent_covered now0 maxAge maxBytes ws b now since until snap b' :
  Forall (fun w => ends_line (len w.2) w.2 = true) ws -> 0 < maxBytes ->
  write_chunks ws (NewRecentBuffer now0 maxAge maxBytes) = Some b ->
  Recent_Snapshot now since until (Some b) = (snap, true, b') ->
  RS_Lines snap = filter (fun l => snapshot_wants since until (RL_Time l) = true) (written ws) /\
  RS_LineCount snap = Z.of_nat (length (RS_Lines snap)) /\
  RS_Bytes snap = foldr (fun l n => Z.of_nat (len (RL_Content l)) + 1 + n) 0 (RS_Lines snap) /\ RS_Bytes snap <= maxBytes.
Proof.
  intros Hw Hpos E Hsnap.
  assert (holds [] (NewRecentBuffer now0 maxAge maxBytes)) as H0 by (split; [done|done|constructor]).
  destruct (write_all_holds ws [] (NewRecentBuffer now0 maxAge maxBytes) b Hw eq_refl eq_refl H0 (or_introl eq_refl) E) as [H _]. cbn [app] in H.
  assert (rb_maxBytes b = maxBytes) as Hmax by (by apply write_all_max in E).
  destruct (evict_holds now _ b H) as (Hev & Hbound & _ & _ & Hm).
  cbn in Hsnap. injection Hsnap as <- Hcov _. set (b1 := evictLocked now b) in *.
  apply andb_true_iff in Hcov as [Hz Hc]. apply negb_true_iff in Hz, Hc. apply Z.eqb_neq in Hz. unfold Before, After in Hc.
  apply Z.ltb_ge in Hc. assert (rb_coverageFrom b1 <= since) as Hfrom.
  { destruct (0 <? rb_maxAge b1); cbn in Hc; [|lia]. destruct (Z.ltb_spec (rb_coverageFrom b1) (Add now (- rb_maxAge b1))); lia. }
  destruct Hev as [Hl Hb Hs]. cbn [RS_Lines RS_LineCount RS_Bytes]. destruct (sum_filter (fun l => snapshot_wants since until (rl_at l) = true) _ Hs) as [S1 S2].
  split_and!; [|by rewrite length_map|exact S2|].
  - change (map as_line (filter (fun l => snapshot_wants since until (rl_at l) = true) (rb_lines b1)) = filter (fun l => snapshot_wants since until (RL_Time l) = true) (written ws)).
    rewrite (filter_wants since until) by done. rewrite <- Hl by done. by rewrite <- filter_from.
  - destruct Hbound as [E0|[_ Hle]]; [rewrite E0; cbn; lia|]. lia.
Qed.

(** A line of 20 bytes written in two parts to a buffer of 16: it is counted as lost at the
    time of the first part, so a snapshot from just before it is complete claims to cover a
    range in which the line is missing. *)
Example split_line_uncovered :
  match write_chunks [(100, "0123456789abcdef"); (200, "0123" +:+ String newline "")] (NewRecentBuffer 50 1000 16) with
  | Some b => let '(snap, covered, _) := Recent_Snapshot 300 150 0 (Some b) in (RS_Lines snap, covered)
  | None => ([], false)
  end = ([], true).
Proof. reflexivity. Qed.

Definition ex_writes : list (Time * string) :=
  [(100, "first" +:+ String newline ""); (200, "a line that is far too long" +:+ String newline ("ok" +:+ String newline ""));
   (300, "third" +:+ String newline ("4" +:+ String newline ""))].
Lemma recent_covered_witness :
  exists b snap b', write_chunks ex_writes (NewRecentBuffer 50 1000 16) = Some b /\
    Recent_Snapshot 400 250 0 (Some b) = (snap, true, b') /\ RS_Lines snap = [mkRecentLine 300 "third"; mkRecentLine 300 "4"].
Proof.
  destruct (write_chunks ex_writes (NewRecentBuffer 50 1000 16)) as [b|] eqn:E; [|by vm_compute in E].
  destruct (Recent_Snapshot 400 250 0 (Some b)) as [[snap covered] b'] eqn:Es.
  assert (covered = true) as -> by (vm_compute in E; injection E as <-; vm_compute in Es; by injection Es).
  exists b, snap, b'. split; [done|]. split; [done|].
  assert (Forall (fun w => ends_line (len w.2) w.2 = true) ex_writes) as Hw by (by repeat constructor).
  by rewrite (proj1 (recent_covered 50 1000 16 ex_writes b 400 250 0 snap b' Hw eq_refl E Es)).
Defined.
