(* ===== verification/LogArchives.v ===== *)
(** * The rotating log file

    Models [internal/logging/rotate.go]: the log file that is renamed to an archive when it
    would grow too large or the day changes, the names of archives, their compression and
    their removal.

    The directory of the log is a map from names to files; nobody else changes it while a
    step runs.  [Path] is a clean path.  How each file operation of a step goes is an
    argument ([rotate_env], [gzip_result], [removable]).  gzip is a parameter.  The worker
    runs [processArchives] at any time between writes.  [time.Local] is [local]. *)

From S2P Require Import Prelude GoStrings GoTime GoTimeFacts GoStrconv.

#[local] Arguments String.append !_ _ /.

Record logFile := mkLogFile { f_content : string; f_modTime : Time; f_regular : bool }.
Abbreviation logDir := (gmap string logFile).
Definition f_size (f : logFile) : Z := Z.of_nat (len (f_content f)).

Record LogOptions := mkLogOptions {
  o_Path : string;
  o_MaxSizeBytes : Z;
  o_MaxFiles : Z;
  o_MaxAge : Duration;
  o_MaxTotalSize : Z;
  o_Compress : bool
}.
Record Archive := mkArchive {
  ar_Path : string;
  ar_Name : string;
  ar_Compressed : bool;
  ar_ModTime : Time;
  ar_Size : Z;
  ar_stamp : Time;
  ar_nanos : Z;
  ar_sequence : Z
}.
(** [rw_file] is whether the file is open. *)
Record RotatingWriter := mkRotatingWriter {
  rw_opts : LogOptions;
  rw_file : bool;
  rw_size : Z;
  rw_openDate : string;
  rw_sequence : Z;
  rw_wake : bool;
  rw_closed : bool
}.

(** ** Names *)

Definition slash : ascii := "/".
Definition Base (path : string) : string :=
  match LastIndexByte path slash with Some n => str_drop (S n) path | None => path end.
Definition Dir (path : string) : string :=
  match LastIndexByte path slash with Some O => "/" | Some n => str_take n path | None => "." end.
Definition Ext (name : string) : string :=
  match LastIndexByte name "." with Some n => str_drop n name | None => "" end.
Definition join (dir name : string) : string :=
  if dir == "." then name else if dir == "/" then "/" +:+ name else dir +:+ "/" +:+ name.
Definition TrimSuffix (s suffix : string) : string :=
  if HasSuffix s suffix then str_take (len s - len suffix) s else s.
Definition archiveParts (path : string) : string * string :=
  let name := Base path in (Dir path, TrimSuffix name (Ext name)).

Definition u64 (n : Z) : Z := n mod 2 ^ 64.
(** [%d] of a [uint64], which has at most 20 digits *)
Definition utoa (n : Z) : string := dec_fuel 20 n.

Section local.
Context (local : Location).

Definition localDate (t : Time) : string :=
  let c := civil_in local t in format_date (c_year c) (c_month c) (c_day c).
(** [20060102-150405] *)
Definition format_archive_stamp (t : Time) : string :=
  let c := civil_in local t in
  format_year (c_year c) +:+ fixed_digits 2 (c_month c) +:+ fixed_digits 2 (c_day c) +:+ "-" +:+
  fixed_digits 2 (c_hour c) +:+ fixed_digits 2 (c_min c) +:+ fixed_digits 2 (c_sec c).
Definition archive_name (prefix : string) (now : Time) (sequence : Z) : string :=
  prefix +:+ "." +:+ format_archive_stamp now +:+ "." +:+ fixed_digits 9 (c_nsec (civil_in local now)) +:+ "." +:+
  utoa sequence +:+ ".log".

(** The parts of a name the pattern of [DiscoverArchives] accepts: the digits of the
    stamp, the nanoseconds, the sequence, and whether [.gz] follows.  Every part ends where
    its digits end, so there is no backtracking. *)
Definition literal (l s : string) : option string := if HasPrefix s l then Some (str_drop (len l) s) else None.
Definition digits (k : nat) (s : string) : option (string * string) :=
  if all_digits (str_take k s) && (len (str_take k s) =? k)%nat then Some (str_take k s, str_drop k s) else None.
Definition match_archive (prefix name : string) : option (string * string * string * string * bool) :=
  s ← literal prefix name;
  s ← literal "." s;
  '(date, s) ← digits 8 s;
  s ← literal "-" s;
  '(clock, s) ← digits 6 s;
  s ← literal "." s;
  '(nanos, s) ← digits 9 s;
  s ← literal "." s;
  let '(sequence, s) := span_digits s in
  if sequence == "" then None else
  if s == ".log" then Some (date, clock, nanos, sequence, false)
  else if s == ".log.gz" then Some (date, clock, nanos, sequence, true) else None.

(** [time.ParseInLocation] of a text of that pattern *)
Definition parse_archive_stamp (date clock : string) : option Time :=
  let year := digits_value 0 (str_take 4 date) in
  let month := digits_value 0 (str_take 2 (str_drop 4 date)) in
  let day := digits_value 0 (str_drop 6 date) in
  let hour := digits_value 0 (str_take 2 clock) in
  let mi := digits_value 0 (str_take 2 (str_drop 2 clock)) in
  let sec := digits_value 0 (str_drop 4 clock) in
  if (1 <=? month) && (month <=? 12) && (1 <=? day) && (day <=? days_in month year)
     && (hour <? 24) && (mi <? 60) && (sec <? 60)
  then Some (date_in local year month day hour mi sec 0) else None.

Definition discover_entry (dir prefix name : string) (f : logFile) : option Archive :=
  '(date, clock, nanos, sequence, compressed) ← match_archive prefix name;
  stamp ← parse_archive_stamp date clock;
  let sequence := digits_value 0 sequence in
  if (2 ^ 64 <=? sequence) || (sequence =? 0) || negb (f_regular f) then None else
  Some (mkArchive (join dir name) name compressed (f_modTime f) (f_size f) stamp (digits_value 0 nanos) sequence).

Definition archive_less (a b : Archive) : bool :=
  if negb (ar_stamp a =? ar_stamp b) then After (ar_stamp a) (ar_stamp b)
  else if negb (ar_nanos a =? ar_nanos b) then ar_nanos b <? ar_nanos a
  else if negb (ar_sequence a =? ar_sequence b) then ar_sequence b <? ar_sequence a
  else ar_Compressed a && negb (ar_Compressed b).

(** The directory is read in the order of the names; archives that [archive_less] does not
    tell apart, which [sort.Slice] may put in any order, stay in it. *)
Definition read_dir (d : logDir) : list (string * logFile) := sort_by (fun a b => String.ltb a.1 b.1) (map_to_list d).
Definition DiscoverArchives (path : string) (d : logDir) : list Archive :=
  let '(dir, prefix) := archiveParts path in
  sort_by archive_less (omap (fun nf => discover_entry dir prefix nf.1 nf.2) (read_dir d)).

(** ** Rotation *)

(** The names are distinct, so one more than there are files is fuel enough. *)
Fixpoint next_name (fuel : nat) (prefix : string) (now : Time) (sequence : Z) (d : logDir) : option (string * Z) :=
  match fuel with
  | O => None
  | S fuel =>
      let sequence := u64 (sequence + 1) in
      let name := archive_name prefix now sequence in
      match d !! name with
      | None => Some (name, sequence)
      | Some _ => next_name fuel prefix now sequence d
      end
  end.
Definition nextArchiveName (path : string) (now : Time) (sequence : Z) (d : logDir) : option (string * Z) :=
  next_name (S (size d)) (archiveParts path).2 now sequence d.

(** How the operations of a rotation and of a write go; [re_written] is how many bytes a
    write that fails has written. *)
Record rotate_env := mkRotateEnv {
  re_close : bool; re_lstat : bool; re_rename : bool; re_open : bool; re_stat : bool; re_write : option nat
}.

Definition set_rw (file : bool) (size : Z) (openDate : string) (w : RotatingWriter) : RotatingWriter :=
  mkRotatingWriter (rw_opts w) file size openDate (rw_sequence w) (rw_wake w) (rw_closed w).
Definition set_sequence (n : Z) (w : RotatingWriter) : RotatingWriter :=
  mkRotatingWriter (rw_opts w) (rw_file w) (rw_size w) (rw_openDate w) n (rw_wake w) (rw_closed w).
Definition signalWorker (w : RotatingWriter) : RotatingWriter :=
  mkRotatingWriter (rw_opts w) (rw_file w) (rw_size w) (rw_openDate w) (rw_sequence w) true (rw_closed w).

Definition create (name : string) (now : Time) (d : logDir) : logDir :=
  match d !! name with Some _ => d | None => <[name := mkLogFile "" now true]> d end.
(** The booleans are whether there was no error. *)
Definition reopenCurrent (env : rotate_env) (now : Time) (w : RotatingWriter) (d : logDir) : bool * RotatingWriter * logDir :=
  let name := Base (o_Path (rw_opts w)) in
  if negb (re_open env) then (false, set_rw false (rw_size w) (rw_openDate w) w, d) else
  let d := create name now d in
  if negb (re_stat env) then (false, set_rw false (rw_size w) (rw_openDate w) w, d) else
  (true, set_rw true (match d !! name with Some f => f_size f | None => 0 end) (localDate now) w, d).

(** Closing a file that is not open is an error, and a file whose closing fails is not open
    any more. *)
Definition rotate_file (env : rotate_env) (now : Time) (w : RotatingWriter) (d : logDir) : bool * RotatingWriter * logDir :=
  if negb (rw_file w && re_close env) then (false, set_rw false (rw_size w) (rw_openDate w) w, d) else
  match (if re_lstat env then nextArchiveName (o_Path (rw_opts w)) now (rw_sequence w) d else None) with
  | None => let '(_, w, d) := reopenCurrent env now w d in (false, w, d)
  | Some (archive, sequence) =>
      let w := set_sequence sequence w in
      let name := Base (o_Path (rw_opts w)) in
      match (if re_rename env then d !! name else None) with
      | None => let '(_, w, d) := reopenCurrent env now w d in (false, w, d)
      | Some f => reopenCurrent env now w (<[archive := f]> (delete name d))
      end
  end.

Definition Log_Write (env : rotate_env) (now : Time) (p : string) (w : RotatingWriter) (d : logDir)
    : Z * bool * RotatingWriter * logDir :=
  if rw_closed w then (0, false, w, d) else
  let '(ok, w, d) :=
    if ((0 <? rw_size w) && (o_MaxSizeBytes (rw_opts w) <? rw_size w + Z.of_nat (len p))) || (localDate now != rw_openDate w)
    then let '(ok, w, d) := rotate_file env now w d in (ok, if ok then signalWorker w else w, d)
    else (true, w, d) in
  if negb ok then (0, false, w, d) else
  if negb (rw_file w) then (0, false, w, d) else
  let n := match re_write env with Some n => Nat.min n (len p) | None => len p end in
  let name := Base (o_Path (rw_opts w)) in
  let d := match d !! name with
           | Some f => <[name := mkLogFile (f_content f +:+ str_take n p) now (f_regular f)]> d
           | None => d
           end in
  (Z.of_nat n, match re_write env with Some _ => false | None => true end,
   set_rw true (rw_size w + Z.of_nat n) (rw_openDate w) w, d).

Definition Log_Close (w : RotatingWriter) : RotatingWriter :=
  mkRotatingWriter (rw_opts w) (rw_file w) (rw_size w) (rw_openDate w) (rw_sequence w) (rw_wake w) true.

Definition NewRotatingWriter (opts : LogOptions) (now : Time) (d : logDir) : option (RotatingWriter * logDir) :=
  if o_Path opts == "" then None else
  if o_MaxSizeBytes opts <=? 0 then None else
  let name := Base (o_Path opts) in
  let d := create name now d in
  Some (mkRotatingWriter opts true (match d !! name with Some f => f_size f | None => 0 end) (localDate now) 0 true false, d).

(** ** Compression and retention *)

Inductive gzip_result := GzipDone | GzipFailed | GzipNotRemoved.
Section archives.
Context (gzip : string -> string).

(** A compressed file that is already there is replaced, and removed with the new one when
    the archive itself cannot be removed. *)
Definition gzipArchive (result : gzip_result) (now : Time) (name : string) (d : logDir) : logDir :=
  match d !! name with
  | None => d
  | Some f =>
      match result with
      | GzipFailed => d
      | GzipNotRemoved => delete (name +:+ ".gz") d
      | GzipDone => delete name (<[name +:+ ".gz" := mkLogFile (gzip (f_content f)) now true]> d)
      end
  end.

Definition remove_archive (removable : string -> bool) (d : logDir) (a : Archive) : logDir :=
  if removable (ar_Name a) then delete (ar_Name a) d else d.
Definition too_old (opts : LogOptions) (now : Time) (a : Archive) : bool :=
  (0 <? o_MaxAge opts) && (o_MaxAge opts <? Sub now (ar_ModTime a)).
(** The loop over the archives from the oldest, given newest first in reverse *)
Fixpoint trim_total (removable : string -> bool) (limit total : Z) (oldest : list Archive) (d : logDir) : logDir :=
  match oldest with
  | [] => d
  | a :: oldest =>
      if total <=? limit then d
      else if removable (ar_Name a) then trim_total removable limit (total - ar_Size a) oldest (delete (ar_Name a) d)
      else trim_total removable limit total oldest d
  end.
Definition cleanup (removable : string -> bool) (opts : LogOptions) (now : Time) (d0 : logDir) : logDir :=
  let archives := DiscoverArchives (o_Path opts) d0 in
  let kept := filter (fun a => too_old opts now a = false) archives in
  let d := foldl (remove_archive removable) d0 (filter (fun a => too_old opts now a = true) archives) in
  let over := (0 <? o_MaxFiles opts) && (o_MaxFiles opts <? Z.of_nat (length kept)) in
  let n := Z.to_nat (o_MaxFiles opts) in
  let d := if over then foldl (remove_archive removable) d (drop n kept) else d in
  let kept := if over then take n kept else kept in
  if 0 <? o_MaxTotalSize opts then
    let current := match d !! Base (o_Path opts) with Some f => if f_regular f then f_size f else 0 | None => 0 end in
    trim_total removable (o_MaxTotalSize opts) (current + foldr (fun a n => ar_Size a + n) 0 kept) (rev kept) d
  else d.

Definition processArchives (results : string -> gzip_result) (removable : string -> bool) (opts : LogOptions)
    (now : Time) (d : logDir) : logDir :=
  let d :=
    if o_Compress opts then
      foldl (fun d a => if ar_Compressed a then d else gzipArchive (results (ar_Name a)) now (ar_Name a) d) d
        (DiscoverArchives (o_Path opts) d)
    else d in
  cleanup removable opts now d.
End archives.
End local.
