(* ===== verification/LogArchivesFacts.v ===== *)
(** * Properties of the rotating log file

    An archive's name is found and read back, so a rotated file is never forgotten; a write,
    whether it rotates or fails, neither loses nor reorders what was logged; retention
    removes archives only, the oldest first. *)

From S2P Require Import Prelude GoStrings GoTime GoTimeFacts GoStrconv LogArchives.

#[local] Arguments String.append !_ _ /.

(** ** Lists *)

Lemma filter_ext_in {A} (P Q : A -> Prop) `{!forall x, Decision (P x), !forall x, Decision (Q x)} (l : list A) :
  (forall x, x ∈ l -> P x <-> Q x) -> filter P l = filter Q l.
Proof.
  induction l as [|x l IH]; intros Hpq; [done|]. rewrite !filter_cons, IH by set_solver.
  specialize (Hpq x ltac:(set_solver)). repeat case_decide; tauto.
Qed.
Lemma names_inj {A B} (f : A -> B) (l : list A) x y : NoDup (map f l) -> x ∈ l -> y ∈ l -> f x = f y -> x = y.
Proof.
  induction l as [|z l IH]; intros Hnd Hx Hy E; [set_solver|]. cbn in Hnd. apply NoDup_cons in Hnd as [Hz Hnd].
  apply elem_of_cons in Hx as [->|Hx]; apply elem_of_cons in Hy as [->|Hy]; [done| | |by apply IH];
    destruct Hz; apply list_elem_of_fmap; eauto.
Qed.
Lemma NoDup_filter_map {A B} (f : A -> B) (P : A -> Prop) `{!forall x, Decision (P x)} (l : list A) : NoDup (map f l) -> NoDup (map f (filter P l)).
Proof.
  induction l as [|z l IH]; intros Hnd; [done|]. cbn in Hnd. apply NoDup_cons in Hnd as [Hz Hnd]. rewrite filter_cons.
  destruct (decide (P z)); [|by apply IH]. cbn. constructor; [|by apply IH]. intros Hin. apply Hz.
  apply list_elem_of_fmap in Hin as (x & -> & Hx). apply list_elem_of_filter in Hx as [_ Hx]. by apply list_elem_of_fmap_2.
Qed.

Lemma filter_keeps_all {A} (P : A -> Prop) `{!forall x, Decision (P x)} (l : list A) : Forall P l -> filter P l = l.
Proof. induction 1 as [|x l Hx _ IH]; [done|]. by rewrite filter_cons_True, IH. Qed.
Lemma filter_keeps_none {A} (P : A -> Prop) `{!forall x, Decision (P x)} (l : list A) : Forall (fun x => ~ P x) l -> filter P l = [].
Proof. induction 1 as [|x l Hx _ IH]; [done|]. by rewrite filter_cons_False, IH. Qed.

(** ** Names *)

Lemma literal_app l s : literal l (l +:+ s) = Some s.
Proof. unfold literal. by rewrite HasPrefix_app, str_drop_app. Qed.
Lemma digits_app k a s : len a = k -> all_digits a = true -> digits k (a +:+ s) = Some (a, s).
Proof. intros <- H. unfold digits. by rewrite str_take_app, str_drop_app, H, Nat.eqb_refl. Qed.

Lemma match_parts prefix date clock nanos seq :
  len date = 8%nat -> all_digits date = true -> len clock = 6%nat -> all_digits clock = true ->
  len nanos = 9%nat -> all_digits nanos = true -> seq <> "" -> all_digits seq = true ->
  match_archive prefix (prefix +:+ "." +:+ date +:+ "-" +:+ clock +:+ "." +:+ nanos +:+ "." +:+ seq +:+ ".log") =
  Some (date, clock, nanos, seq, false).
Proof.
  intros Hd Hd' Hc Hc' Hn Hn' Hs Hs'. unfold match_archive.
  rewrite literal_app. cbn [mbind option_bind]. rewrite literal_app. cbn [mbind option_bind].
  rewrite digits_app by done. cbn [mbind option_bind]. rewrite literal_app. cbn [mbind option_bind].
  rewrite digits_app by done. cbn [mbind option_bind]. rewrite literal_app. cbn [mbind option_bind].
  rewrite digits_app by done. cbn [mbind option_bind]. rewrite literal_app. cbn [mbind option_bind].
  change (seq +:+ ".log") with (seq +:+ String "." "log"). rewrite span_digits_app by done.
  by apply String.eqb_neq in Hs as ->.
Qed.

Section local.
Context (local : Location).
Abbreviation fields t := (civil_in local t).
Definition named_ok (t : Time) : Prop := 0 <= c_year (fields t) <= 9999.
(** The date and the clock of a stamp *)
Definition stamp_date (t : Time) : string :=
  format_year (c_year (fields t)) +:+ fixed_digits 2 (c_month (fields t)) +:+ fixed_digits 2 (c_day (fields t)).
Definition stamp_clock (t : Time) : string :=
  fixed_digits 2 (c_hour (fields t)) +:+ fixed_digits 2 (c_min (fields t)) +:+ fixed_digits 2 (c_sec (fields t)).
(** The second of the local clock that the stamp names *)
Definition stamp_of (t : Time) : Time :=
  let c := fields t in date_in local (c_year c) (c_month c) (c_day c) (c_hour c) (c_min c) (c_sec c) 0.

Lemma civil_in_spec t :
  1 <= c_month (fields t) <= 12 /\ 1 <= c_day (fields t) <= days_in (c_month (fields t)) (c_year (fields t)) /\
  0 <= c_hour (fields t) < 24 /\ 0 <= c_min (fields t) < 60 /\ 0 <= c_sec (fields t) < 60 /\ 0 <= c_nsec (fields t) < Second.
Proof. unfold civil_in. generalize (t + offset_at local t * Second) as u. intros u. destruct (civil_spec u) as (? & ? & ? & ? & ? & ? & _). repeat (split; [assumption|]). assumption. Qed.

Lemma match_archive_name prefix now n : named_ok now ->
  match_archive prefix (archive_name local prefix now n) =
  Some (stamp_date now, stamp_clock now, fixed_digits 9 (c_nsec (fields now)), utoa n, false).
Proof.
  intros Hy. unfold stamp_date, stamp_clock, archive_name, format_archive_stamp. rewrite format_year_ok by done.
  rewrite <- match_parts with (prefix := prefix); [f_equal; by rewrite <- !str_app_assoc|..];
    rewrite ?str_len_app, ?all_digits_app, ?fixed_digits_len, ?all_digits_fixed; try done;
    [by apply dec_fuel_nonempty|apply dec_fuel_digits].
Qed.

Lemma str_take_0 s : str_take (Z.to_nat 0) s = "".
Proof. by destruct s. Qed.
Lemma str_take_len k a b : len a = k -> str_take k (a +:+ b) = a.
Proof. intros <-. apply str_take_app. Qed.
Lemma str_drop_len_app k a b : len a = k -> str_drop k (a +:+ b) = b.
Proof. intros <-. apply str_drop_app. Qed.

Lemma stamp_parsed now : named_ok now -> parse_archive_stamp local (stamp_date now) (stamp_clock now) = Some (stamp_of now).
Proof.
  intros Hy. unfold parse_archive_stamp, stamp_date, stamp_clock. rewrite format_year_ok by done.
  destruct (civil_in_spec now) as (Hm & Hd & Hh & Hmi & Hs & _). assert (c_day (fields now) <= 31).
  { unfold days_in in Hd. repeat case_match; lia. }
  rewrite (str_take_len 4), (str_drop_len_app 4), (str_take_len 2 (fixed_digits 2 _)), (str_app_assoc (fixed_digits 4 _)), (str_drop_len_app 6);
    rewrite ?str_len_app, ?fixed_digits_len; try done.
  rewrite (str_take_len 2), (str_drop_len_app 2), (str_take_len 2), (str_app_assoc (fixed_digits 2 _)), (str_drop_len_app 4);
    rewrite ?str_len_app, ?fixed_digits_len; try done.
  rewrite !digits_value_fixed by (cbn; unfold named_ok in Hy; lia). rewrite !Z.mul_0_l, !Z.add_0_l.
  repeat match goal with |- context [(?a <=? ?b)] => rewrite (proj2 (Z.leb_le a b)) by lia end.
  by repeat match goal with |- context [(?a <? ?b)] => rewrite (proj2 (Z.ltb_lt a b)) by lia end.
Qed.

Definition archive_of (dir prefix : string) (now : Time) (n : Z) (f : logFile) : Archive :=
  let name := archive_name local prefix now n in
  mkArchive (join dir name) name false (f_modTime f) (f_size f) (stamp_of now) (c_nsec (fields now)) n.

Lemma discover_matched dir prefix name f date clock nanos seq compressed stamp n ns :
  match_archive prefix name = Some (date, clock, nanos, seq, compressed) ->
  parse_archive_stamp local date clock = Some stamp -> digits_value 0 seq = n -> digits_value 0 nanos = ns ->
  0 < n < 2 ^ 64 -> f_regular f = true ->
  discover_entry local dir prefix name f = Some (mkArchive (join dir name) name compressed (f_modTime f) (f_size f) stamp ns n).
Proof.
  intros Hm Hs Hn <- Hr Hf. unfold discover_entry. rewrite Hm. cbn [mbind option_bind]. rewrite Hs. cbn [mbind option_bind].
  by rewrite Hn, (proj2 (Z.leb_gt (2 ^ 64) n)), (proj2 (Z.eqb_neq n 0)), Hf by lia.
Qed.
Lemma utoa_value n : 0 <= n < 2 ^ 64 -> digits_value 0 (utoa n) = n.
Proof. intros Hn. unfold utoa. destruct (dec_fuel_value 20 n 0) as (k & _ & _ & ->); lia. Qed.

(** The name of an archive gives back the second, the nanoseconds and the sequence number
    it was made from. *)
Lemma archive_discovered dir prefix now n f : named_ok now -> 0 < n < 2 ^ 64 -> f_regular f = true ->
  discover_entry local dir prefix (archive_name local prefix now n) f = Some (archive_of dir prefix now n f).
Proof.
  intros Hy Hn Hf. unfold archive_of.
  apply (discover_matched _ _ _ _ _ _ _ _ _ _ _ _ (match_archive_name prefix now n Hy) (stamp_parsed now Hy)); [| |done..].
  - apply utoa_value. lia.
  - destruct (civil_in_spec now) as (_ & _ & _ & _ & _ & Hns). unfold Second in Hns. rewrite digits_value_fixed; [lia|cbn; lia].
Qed.

(** ** The names of archives are free *)

Lemma archive_name_inj prefix now m n : named_ok now -> 0 <= m < 2 ^ 64 -> 0 <= n < 2 ^ 64 ->
  archive_name local prefix now m = archive_name local prefix now n -> m = n.
Proof.
  intros Hy Hm Hn E. pose proof (match_archive_name prefix now m Hy) as H. rewrite E, match_archive_name in H by done.
  injection H as H. by rewrite <- (utoa_value m), <- (utoa_value n), H.
Qed.

Lemma next_name_spec fuel prefix now q d name n : 0 <= q -> q + Z.of_nat fuel < 2 ^ 64 ->
  next_name local fuel prefix now q d = Some (name, n) ->
  name = archive_name local prefix now n /\ d !! name = None /\ q < n <= q + Z.of_nat fuel.
Proof.
  revert q. induction fuel as [|fuel IH]; intros q Hq Hf H; [done|]. cbn [next_name] in H.
  unfold u64 in H. rewrite Z.mod_small in H by lia.
  destruct (d !! archive_name local prefix now (q + 1)) eqn:E.
  - apply IH in H as (? & ? & ?); [|lia..]. split_and!; [done|done|lia|lia].
  - injection H as <- <-. split_and!; [done|done|lia|lia].
Qed.

Lemma next_name_none fuel prefix now q d : 0 <= q -> q + Z.of_nat fuel < 2 ^ 64 ->
  next_name local fuel prefix now q d = None ->
  forall k, (k < fuel)%nat -> is_Some (d !! archive_name local prefix now (q + 1 + Z.of_nat k)).
Proof.
  revert q. induction fuel as [|fuel IH]; intros q Hq Hf H k Hk; [lia|]. cbn [next_name] in H.
  unfold u64 in H. rewrite Z.mod_small in H by lia.
  destruct (d !! archive_name local prefix now (q + 1)) eqn:E; [|done].
  destruct k as [|k]; [rewrite Z.add_0_r; by eexists|].
  destruct (IH (q + 1)) with (k := k) as [f Hf']; [lia|lia|done|lia|]. exists f. rewrite <- Hf'. do 2 f_equal. lia.
Qed.

(** The search for a free name ends within as many steps as there are files and one more. *)
Lemma nextArchiveName_total path now q d : named_ok now -> 0 <= q -> q + Z.of_nat (S (size d)) < 2 ^ 64 ->
  exists name n, nextArchiveName local path now q d = Some (name, n) /\ d !! name = None.
Proof.
  intros Hy Hq Hs. unfold nextArchiveName. set (prefix := (archiveParts path).2).
  destruct (next_name local (S (size d)) prefix now q d) as [[name n]|] eqn:E.
  { exists name, n. split; [done|]. by apply next_name_spec in E as (_ & ? & _). }
  exfalso. pose proof (next_name_none _ _ _ _ _ Hq Hs E) as Hall.
  set (names := map (fun k => archive_name local prefix now (q + 1 + Z.of_nat k)) (seq 0 (S (size d)))).
  assert (NoDup names) as Hnd.
  { unfold names. apply NoDup_fmap_2_strong; [|apply NoDup_seq]. intros i j Hi Hj Hij.
    apply elem_of_seq in Hi, Hj. apply archive_name_inj in Hij; lia || done. }
  assert (names ⊆ map fst (map_to_list d)) as Hsub.
  { intros x Hx. apply list_elem_of_fmap in Hx as (k & -> & Hk). apply elem_of_seq in Hk.
    destruct (Hall k) as [f Hf]; [lia|]. apply list_elem_of_fmap. exists (archive_name local prefix now (q + 1 + Z.of_nat k), f).
    split; [done|]. by apply elem_of_map_to_list. }
  apply NoDup_submseteq in Hsub; [|done]. apply submseteq_length in Hsub.
  unfold names in Hsub. rewrite !length_map, length_seq, length_map_to_list in Hsub. lia.
Qed.

(** ** The current file is no archive *)

Lemma LastIndexByte_drop s t c : LastIndexByte (s +:+ t) c = None -> LastIndexByte t c = None.
Proof.
  induction s as [|x s IH]; [done|]. cbn. intros H. apply IH. by destruct (LastIndexByte (s +:+ t) c).
Qed.
Lemma literal_Some l s t : literal l s = Some t -> s = l +:+ t.
Proof.
  unfold literal. destruct (HasPrefix s l) eqn:E; [|done]. intros [= <-].
  apply HasPrefix_spec in E as [r ->]. by rewrite str_drop_app.
Qed.
Lemma digits_Some k s a b : digits k s = Some (a, b) -> s = a +:+ b.
Proof. unfold digits. destruct (_ && _); [|done]. intros [= <- <-]. by rewrite str_take_drop. Qed.

Lemma match_archive_dot prefix name x : match_archive prefix name = Some x ->
  exists s, name = prefix +:+ "." +:+ s /\ LastIndexByte s "." <> None.
Proof.
  unfold match_archive. intros H. apply bind_Some in H as (s1 & H1 & H). apply literal_Some in H1.
  apply bind_Some in H as (s2 & H2 & H). apply literal_Some in H2. apply bind_Some in H as ([d1 s3] & H3 & H).
  apply digits_Some in H3. apply bind_Some in H as (s4 & H4 & H). apply literal_Some in H4.
  apply bind_Some in H as ([d2 s5] & H5 & H). apply digits_Some in H5. apply bind_Some in H as (s6 & H6 & _).
  apply literal_Some in H6. subst. exists (d1 +:+ "-" +:+ d2 +:+ "." +:+ s6). split; [done|].
  intros E. do 3 apply LastIndexByte_drop in E. cbn in E. by destruct (LastIndexByte s6 ".").
Qed.

Lemma LastIndexByte_Some s c n : LastIndexByte s c = Some n ->
  s = str_take n s +:+ String c (str_drop (S n) s) /\ LastIndexByte (str_drop (S n) s) c = None.
Proof.
  revert n. induction s as [|x s IH]; intros n H; [done|]. cbn in H. destruct (LastIndexByte s c) as [m|] eqn:E.
  - injection H as <-. destruct (IH m eq_refl) as [E1 E2]. cbn [str_drop str_take]. split; [|done]. cbn [String.append]. by f_equal.
  - case_bool_decide as Hx; [|done]. injection H as <-. subst. cbn [str_drop str_take]. by destruct s.
Qed.

Lemma current_not_archive dir path f : discover_entry local dir (archiveParts path).2 (Base path) f = None.
Proof.
  unfold discover_entry. destruct (match_archive _ _) as [x|] eqn:E; [|done]. exfalso.
  apply match_archive_dot in E as (s & E & Hdot). unfold archiveParts in E. cbn in E. set (name := Base path) in *.
  unfold Ext in E. destruct (LastIndexByte name ".") as [n|] eqn:En.
  - destruct (LastIndexByte_Some _ _ _ En) as [E1 E2].
    assert (str_drop n name = String "." (str_drop (S n) name)) as Ed.
    { apply (str_app_eq (str_take n name) (str_take n name)); [|done]. by rewrite str_take_drop. }
    unfold TrimSuffix in E. rewrite (proj2 (HasSuffix_spec name (str_drop n name))) in E by (exists (str_take n name); by rewrite str_take_drop).
    assert (str_take (len name - len (str_drop n name)) name = str_take n name) as Et.
    { assert (len name = len (str_take n name) + len (str_drop n name))%nat as El by (by rewrite <- str_len_app, str_take_drop).
      pose proof (str_take_len (len name - len (str_drop n name)) (str_take n name) (str_drop n name)) as H.
      rewrite str_take_drop in H. apply H. lia. }
    rewrite Et, E1 in E at 1. apply str_app_eq in E as [_ E]; [|done]. injection E as <-. done.
  - unfold TrimSuffix in E. rewrite (proj2 (HasSuffix_spec name "")) in E by (exists name; by rewrite str_app_nil_r).
    apply (f_equal len) in E. rewrite !str_len_app in E. cbn [len String.length] in E.
    rewrite str_take_all in E by lia. cbn in E. lia.
Qed.

(** ** What the directory's archives are after a step *)

Abbreviation discover path := (fun nf => discover_entry local (archiveParts path).1 (archiveParts path).2 nf.1 nf.2).
Abbreviation Discover := (DiscoverArchives local).

Lemma Discover_entries path d : Discover path d = sort_by archive_less (omap (discover path) (sorted_entries d)).
Proof. unfold DiscoverArchives. by destruct (archiveParts path). Qed.

Lemma elem_of_Discover path d a :
  a ∈ Discover path d <-> exists name f, d !! name = Some f /\ discover path (name, f) = Some a.
Proof.
  rewrite Discover_entries, elem_of_sort_by, list_elem_of_omap. split.
  - intros ([name f] & Hin & E). apply elem_of_sorted_entries in Hin. by exists name, f.
  - intros (name & f & Hf & E). exists (name, f). by rewrite elem_of_sorted_entries.
Qed.
Lemma discover_name path name f a : discover path (name, f) = Some a -> ar_Name a = name /\ ar_Size a = f_size f /\ ar_ModTime a = f_modTime f.
Proof.
  cbn. unfold discover_entry. intros H. apply bind_Some in H as ([[[[? ?] ?] ?] ?] & _ & H).
  apply bind_Some in H as (? & _ & H). destruct (_ || _); [done|]. by injection H as <-.
Qed.

Lemma omap_insert {A B} (f : A -> option B) l1 x l2 y : f x = Some y ->
  omap f (l1 ++ x :: l2) = omap f l1 ++ y :: omap f l2.
Proof. intros E. rewrite omap_app. cbn. by rewrite E. Qed.
Lemma omap_skip {A B} (f : A -> option B) l1 x l2 : f x = None -> omap f (l1 ++ x :: l2) = omap f (l1 ++ l2).
Proof. intros E. rewrite !omap_app. cbn. by rewrite E. Qed.

(** A file that is not an archive does not matter. *)
Lemma Discover_delete path d name : (forall f, discover path (name, f) = None) -> Discover path (delete name d) = Discover path d.
Proof.
  intros Hn. destruct (d !! name) as [f|] eqn:E; [|by rewrite delete_id].
  rewrite <- (insert_delete_id d name f E) at 2. rewrite !Discover_entries.
  destruct (sorted_entries_insert (delete name d) name f) as (l1 & l2 & -> & ->); [apply lookup_delete_eq|].
  by rewrite omap_skip.
Qed.
Lemma Discover_skip path d name f : (forall f, discover path (name, f) = None) -> Discover path (<[name := f]> d) = Discover path d.
Proof.
  intros Hn. rewrite <- (Discover_delete path (<[name := f]> d) name), delete_insert_eq by done. by apply Discover_delete.
Qed.
(** An archive newer than the others comes first. *)
Lemma Discover_newest path d name f a : d !! name = None -> discover path (name, f) = Some a ->
  (forall x, x ∈ Discover path d -> archive_less a x = true /\ archive_less x a = false) ->
  Discover path (<[name := f]> d) = a :: Discover path d.
Proof.
  intros Hn Ha Hless. rewrite !Discover_entries in *.
  destruct (sorted_entries_insert d name f Hn) as (l1 & l2 & E1 & ->). rewrite E1 in *.
  rewrite (omap_insert _ _ _ _ a) by done. rewrite omap_app. apply sort_by_least. intros x Hx. apply Hless.
  by rewrite elem_of_sort_by, omap_app.
Qed.

(** ** Nothing that is logged is lost *)

Context (gunzip : string -> string).
Definition archive_text (d : logDir) (a : Archive) : string :=
  match d !! ar_Name a with
  | Some f => if ar_Compressed a then gunzip (f_content f) else f_content f
  | None => ""
  end.
Definition current_text (path : string) (d : logDir) : string :=
  match d !! Base path with Some f => f_content f | None => "" end.
(** The archives from the oldest on, then the current file *)
Definition log_text (path : string) (d : logDir) : string :=
  String.concat "" (map (archive_text d) (rev (Discover path d))) +:+ current_text path d.

Lemma concat_snoc l x : String.concat "" (l ++ [x]) = String.concat "" l +:+ x.
Proof.
  induction l as [|y l IH]; [done|]. destruct l as [|z l]; [done|]. cbn in *. rewrite IH. by rewrite str_app_assoc.
Qed.

Lemma log_text_current path d f : log_text path (<[Base path := f]> d) =
  String.concat "" (map (archive_text d) (rev (Discover path d))) +:+ f_content f.
Proof.
  unfold log_text, current_text. rewrite lookup_insert_eq.
  rewrite Discover_skip by (intros g; apply current_not_archive). do 2 f_equal. apply map_ext_in. intros a Ha.
  apply in_rev, list_elem_of_In in Ha. apply elem_of_Discover in Ha as (name & g & Hg & Ha).
  destruct (discover_name _ _ _ _ Ha) as [<- _]. unfold archive_text. rewrite lookup_insert_ne; [done|].
  intros E. rewrite <- E in Ha. pose proof (current_not_archive (archiveParts path).1 path g) as Hn. cbn [fst snd] in Ha. congruence.
Qed.
Lemma log_text_create path now d : log_text path (create (Base path) now d) = log_text path d.
Proof.
  unfold create. destruct (d !! Base path) eqn:E; [done|]. rewrite log_text_current. unfold log_text, current_text. by rewrite E.
Qed.

Definition older (now : Time) (a : Archive) : Prop :=
  ar_stamp a < stamp_of now \/ ar_stamp a = stamp_of now /\ ar_nanos a < c_nsec (fields now).

Lemma log_text_rotate path now q d f name n : named_ok now -> 0 <= q -> q + Z.of_nat (S (size d)) < 2 ^ 64 ->
  nextArchiveName local path now q d = Some (name, n) -> d !! Base path = Some f -> f_regular f = true ->
  (forall a, a ∈ Discover path d -> older now a) ->
  log_text path (<[name := f]> (delete (Base path) d)) = log_text path d.
Proof.
  intros Hy Hq Hs Hname Hf Hr Hold. unfold nextArchiveName in Hname.
  apply next_name_spec in Hname as (Hname & Hfree & Hn); [|done..]. subst name. set (name := archive_name _ _ _ _) in *.
  assert (forall g, discover path (Base path, g) = None) as Hcur by (intros g; apply current_not_archive).
  assert (name <> Base path) as Hne by congruence.
  unfold log_text at 1. rewrite (Discover_newest _ _ _ _ (archive_of (archiveParts path).1 (archiveParts path).2 now n f)).
  - rewrite Discover_delete by done. cbn [rev]. rewrite map_app. cbn [map]. rewrite concat_snoc.
    unfold current_text. rewrite lookup_insert_ne, lookup_delete_eq, str_app_nil_r by done.
    unfold log_text, current_text. rewrite Hf. f_equal.
    + f_equal. apply map_ext_in. intros a Ha. apply in_rev, list_elem_of_In in Ha.
      apply elem_of_Discover in Ha as (k & g & Hg & Ha). destruct (discover_name _ _ _ _ Ha) as [E _]. unfold archive_text. rewrite E.
      rewrite lookup_insert_ne by congruence. rewrite lookup_delete_ne; [done|]. intros <-. by rewrite Hcur in Ha.
    + unfold archive_text, archive_of. cbn. fold name. by rewrite lookup_insert_eq.
  - by rewrite lookup_delete_ne.
  - apply archive_discovered; [done|lia|done].
  - intros x Hx. rewrite Discover_delete in Hx by done. destruct (Hold x Hx) as [Hlt|[E Hlt]]; unfold archive_less, After; cbn;
      repeat match goal with |- context [?a =? ?b] => destruct (Z.eqb_spec a b) end; cbn; try lia;
      repeat match goal with |- context [?a <? ?b] => destruct (Z.ltb_spec a b) end; cbn; try lia; done.
Qed.

(** The current file is there while it is open. *)
Definition open_ok (w : RotatingWriter) (d : logDir) : Prop :=
  rw_file w = true -> exists f, d !! Base (o_Path (rw_opts w)) = Some f /\ f_regular f = true.

Lemma create_current path now d : (forall f, d !! Base path = Some f -> f_regular f = true) ->
  exists f, create (Base path) now d !! Base path = Some f /\ f_regular f = true.
Proof.
  intros H. unfold create. destruct (d !! Base path) as [f|] eqn:E; [exists f; auto|].
  exists (mkLogFile "" now true). by rewrite lookup_insert_eq.
Qed.

Lemma reopen_text env now w d ok w' d' :
  (forall f, d !! Base (o_Path (rw_opts w)) = Some f -> f_regular f = true) ->
  reopenCurrent local env now w d = (ok, w', d') ->
  log_text (o_Path (rw_opts w)) d' = log_text (o_Path (rw_opts w)) d /\ open_ok w' d' /\
  rw_opts w' = rw_opts w /\ (ok = true -> rw_file w' = true).
Proof.
  intros Hr. unfold reopenCurrent. destruct (re_open env); cbn [negb]; [|by intros [= <- <- <-]; unfold open_ok].
  pose proof (create_current _ now d Hr) as Hc.
  destruct (re_stat env); cbn [negb]; intros [= <- <- <-]; (split; [apply log_text_create|]); by unfold open_ok.
Qed.

Lemma rotate_text env now w d ok w' d' : named_ok now -> 0 <= rw_sequence w -> rw_sequence w + Z.of_nat (S (size d)) < 2 ^ 64 ->
  open_ok w d -> (forall a, a ∈ Discover (o_Path (rw_opts w)) d -> older now a) ->
  rotate_file local env now w d = (ok, w', d') ->
  log_text (o_Path (rw_opts w)) d' = log_text (o_Path (rw_opts w)) d /\ open_ok w' d' /\
  rw_opts w' = rw_opts w /\ (ok = true -> rw_file w' = true).
Proof.
  intros Hy Hq Hs Hopen Hold. unfold rotate_file. destruct (rw_file w) eqn:Hfile; [|cbn; by intros [= <- <- <-]].
  destruct (re_close env); [|cbn; by intros [= <- <- <-]]. cbn [andb negb].
  destruct (Hopen Hfile) as (f & Hf & Hr).
  assert (forall g, d !! Base (o_Path (rw_opts w)) = Some g -> f_regular g = true) as Hreg by congruence.
  destruct (if re_lstat env then _ else _) as [[name n]|] eqn:Ename.
  2:{ destruct (reopenCurrent local env now w d) as [[b w1] d1] eqn:E. intros [= <- <- <-].
      by destruct (reopen_text _ _ _ _ _ _ _ Hreg E) as (? & ? & ? & _). }
  destruct (re_lstat env); [|done]. cbv zeta. cbn [rw_opts set_sequence]. rewrite Hf.
  destruct (re_rename env).
  - intros E. apply reopen_text in E as (E1 & E2 & E3 & E4).
    + cbn [rw_opts set_sequence] in *. rewrite E1. split_and!; try done. by eapply log_text_rotate.
    + cbn [rw_opts set_sequence]. intros g Hg. destruct (decide (name = Base (o_Path (rw_opts w)))) as [->|Hne].
      * rewrite lookup_insert_eq in Hg. congruence.
      * by rewrite lookup_insert_ne, lookup_delete_eq in Hg.
  - destruct (reopenCurrent local env now (set_sequence n w) d) as [[b w1] d1] eqn:E. intros [= <- <- <-].
    by apply reopen_text in E as (? & ? & ? & _).
Qed.

(** The end of a write to an open file *)
Lemma append_text env now p w d n ok w' d' : rw_file w = true -> open_ok w d ->
  (if negb (rw_file w) then (0, false, w, d) else
  let n := match re_write env with Some n => Nat.min n (len p) | None => len p end in
  let name := Base (o_Path (rw_opts w)) in
  let d := match d !! name with
           | Some f => <[name := mkLogFile (f_content f +:+ str_take n p) now (f_regular f)]> d
           | None => d
           end in
  (Z.of_nat n, match re_write env with Some _ => false | None => true end,
   set_rw true (rw_size w + Z.of_nat n) (rw_openDate w) w, d)) = (n, ok, w', d') ->
  log_text (o_Path (rw_opts w)) d' = log_text (o_Path (rw_opts w)) d +:+ str_take (Z.to_nat n) p /\
  (ok = true -> str_take (Z.to_nat n) p = p) /\ open_ok w' d'.
Proof.
  intros Hfile Hopen. rewrite Hfile. cbn [negb]. destruct (Hopen Hfile) as (f & Hf & Hr). rewrite Hf.
  intros [= <- <- <- <-]. rewrite Nat2Z.id. split_and!.
  - rewrite log_text_current. cbn [f_content]. rewrite str_app_assoc. unfold log_text, current_text. by rewrite Hf.
  - destruct (re_write env); [done|]. intros _. by apply str_take_all.
  - intros _. cbn. rewrite lookup_insert_eq. eexists. split; [done|]. done.
Qed.

(** Read from the oldest archive to the current file, the log after a write is the log before
    it with what the write says it has written added at its end, also when the file is
    rotated, and whichever of the operations of the rotation or of the write fail; a write
    without error has written everything. *)
Theorem write_keeps_text env now p w d n ok w' d' :
  Log_Write local env now p w d = (n, ok, w', d') ->
  named_ok now -> 0 <= rw_sequence w -> rw_sequence w + Z.of_nat (S (size d)) < 2 ^ 64 ->
  open_ok w d -> (forall a, a ∈ Discover (o_Path (rw_opts w)) d -> older now a) ->
  log_text (o_Path (rw_opts w)) d' = log_text (o_Path (rw_opts w)) d +:+ str_take (Z.to_nat n) p /\
  (ok = true -> str_take (Z.to_nat n) p = p) /\ open_ok w' d'.
Proof.
  intros E Hy Hq Hs Hopen Hold. unfold Log_Write in E.
  destruct (rw_closed w); [injection E as <- <- <- <-; by rewrite str_take_0, str_app_nil_r|].
  match type of E with context [if ?c then _ else _] => destruct c end.
  - destruct (rotate_file local env now w d) as [[ok1 w1] d1] eqn:E1.
    destruct (rotate_text _ _ _ _ _ _ _ Hy Hq Hs Hopen Hold E1) as (T & O & P & R).
    set (w2 := if ok1 then signalWorker w1 else w1) in *.
    assert (rw_opts w2 = rw_opts w /\ rw_file w2 = rw_file w1 /\ open_ok w2 d1) as (P2 & F2 & O2) by (subst w2; by destruct ok1).
    destruct ok1; cbn [negb] in E; [|injection E as <- <- <- <-; by rewrite str_take_0, str_app_nil_r].
    rewrite <- T. rewrite <- P2. eapply append_text; [by rewrite F2, R|exact O2|exact E].
  - cbn [negb] in E. destruct (rw_file w) eqn:Hf; cbn [negb] in E; [|injection E as <- <- <- <-; by rewrite str_take_0, str_app_nil_r].
    eapply append_text; [exact Hf|exact Hopen|rewrite Hf; exact E].
Qed.

(** ** Retention *)

#[export] Instance archive_StrictWeak : StrictWeak archive_less.
Proof.
  unfold archive_less, After. split; intros.
  - repeat match goal with H : context [?a =? ?b] |- _ => destruct (Z.eqb_spec a b); cbn in H end; cbn;
      repeat match goal with |- context [?a =? ?b] => destruct (Z.eqb_spec a b); cbn end; try lia;
      by destruct (ar_Compressed x), (ar_Compressed y).
  - repeat match goal with H : context [?a =? ?b] |- _ => destruct (Z.eqb_spec a b); cbn in H end; cbn;
      repeat match goal with |- context [?a =? ?b] => destruct (Z.eqb_spec a b); cbn end; try lia;
      by destruct (ar_Compressed x), (ar_Compressed y), (ar_Compressed z).
Qed.

(** The directory without the files of some names *)
Definition without (names : list string) (d : logDir) : logDir := filter (fun kv => kv.1 ∉ names) d.
Lemma without_lookup names d k : without names d !! k = if decide (k ∈ names) then None else d !! k.
Proof.
  unfold without. destruct (decide (k ∈ names)) as [Hk|Hk].
  - apply map_lookup_filter_None. right. intros f _ Hn. by apply Hn.
  - destruct (d !! k) as [f|] eqn:E; [by apply map_lookup_filter_Some|apply map_lookup_filter_None; by left].
Qed.
Lemma delete_without k names d : delete k (without names d) = without (k :: names) d.
Proof.
  apply map_eq. intros j. rewrite without_lookup. destruct (decide (j = k)) as [->|Hj].
  - rewrite lookup_delete_eq, decide_True by set_solver. done.
  - rewrite lookup_delete_ne, without_lookup by done. repeat case_decide; set_solver.
Qed.
Lemma without_nil d : without [] d = d.
Proof. apply map_eq. intros j. rewrite without_lookup. by rewrite decide_False by set_solver. Qed.
Lemma without_ext names names' d : (forall k, k ∈ names <-> k ∈ names') -> without names d = without names' d.
Proof. intros H. apply map_eq. intros j. rewrite !without_lookup. specialize (H j). repeat case_decide; tauto. Qed.

Lemma Discover_without path names d : Discover path (without names d) = filter (fun a => ar_Name a ∉ names) (Discover path d).
Proof.
  rewrite !Discover_entries. unfold without. pose proof (sorted_entries_filter (fun k => k ∉ names) d) as Es. cbv beta in Es. rewrite Es. clear Es.
  rewrite <- (sort_by_filter archive_less (fun a => ar_Name a ∉ names)). f_equal.
  induction (sorted_entries d) as [|[k f] l IH]; [done|]. rewrite filter_cons. cbn [omap list_omap].
  destruct (discover path (k, f)) as [a|] eqn:E.
  - rewrite filter_cons. destruct (discover_name _ _ _ _ E) as [-> _]. cbn [fst]. destruct (decide (k ∉ names)); cbn [omap list_omap]; [|exact IH].
    rewrite E. by f_equal.
  - destruct (decide _); cbn [omap list_omap]; [rewrite E|]; exact IH.
Qed.
Lemma Discover_NoDup path d : NoDup (map ar_Name (Discover path d)).
Proof.
  rewrite Discover_entries, sort_by_Permutation. pose proof (sorted_entries_NoDup d) as H.
  induction (sorted_entries d) as [|[k f] l IH]; [constructor|]. cbn [fmap list_fmap fst] in H. apply NoDup_cons in H as [Hk H].
  cbn [omap list_omap]. destruct (discover path (k, f)) as [a|] eqn:E; [|by apply IH]. cbn. constructor; [|by apply IH].
  destruct (discover_name _ _ _ _ E) as [-> _]. intros Hin. apply Hk. apply list_elem_of_fmap in Hin as (a' & -> & Ha').
  apply list_elem_of_omap in Ha' as ([k' f'] & Hin & E'). destruct (discover_name _ _ _ _ E') as [-> _].
  apply list_elem_of_fmap. by exists (k', f').
Qed.

Definition sizes (l : list Archive) : Z := foldr (fun a n => ar_Size a + n) 0 l.
Lemma sizes_app l k : sizes (l ++ k) = sizes l + sizes k.
Proof. unfold sizes. rewrite foldr_app. induction l as [|a l IH]; cbn in *; lia. Qed.

Lemma removals names d l : foldl (remove_archive (fun _ => true)) (without names d) l = without (map ar_Name l ++ names) d.
Proof.
  revert names. induction l as [|a l IH]; intros names; [done|]. cbn [foldl remove_archive]. rewrite delete_without, IH.
  apply without_ext. set_solver.
Qed.

(** The oldest are removed until the rest fits. *)
Lemma trim_total_spec limit total names d l : 
  exists k, (k <= length l)%nat /\
    trim_total (fun _ => true) limit total (rev l) (without names d) = without (map ar_Name (drop k l) ++ names) d /\
    (k = 0%nat \/ total - sizes (drop k l) <= limit) /\
    (k = length l \/ limit < total - sizes (drop (S k) l)).
Proof.
  revert total names. induction l as [|a l IH] using rev_ind; intros total names.
  { exists 0%nat. cbn. split_and!; [lia|done|by left|by left]. }
  rewrite rev_unit. cbn [trim_total]. rewrite length_app. cbn [length]. destruct (Z.leb_spec total limit).
  - exists (length l + 1)%nat. rewrite drop_ge by (rewrite length_app; cbn; lia). cbn. split_and!; [lia|done|right; lia|by left].
  - rewrite delete_without. destruct (IH (total - ar_Size a) (ar_Name a :: names)) as (k & Hk & E & H1 & H2).
    exists k. rewrite E. rewrite !drop_app_le, sizes_app by lia. split_and!; [lia| | |].
    + apply without_ext. rewrite map_app. set_solver.
    + destruct H1 as [?|H1]; [by left|right]. cbn. lia.
    + right. destruct H2 as [->|H2].
      * rewrite drop_ge by (rewrite length_app; cbn; lia). cbn. lia.
      * destruct (decide (k = length l)) as [->|Hk']; [rewrite drop_ge by (rewrite length_app; cbn; lia); cbn; lia|].
        rewrite drop_app_le, sizes_app by lia. cbn. lia.
Qed.

Lemma filter_old_names (P : Archive -> bool) l : NoDup (map ar_Name l) ->
  filter (fun a => ar_Name a ∉ map ar_Name (filter (fun a => P a = true) l)) l = filter (fun a => P a = false) l.
Proof.
  intros Hnd. apply filter_ext_in. intros a Ha. destruct (P a) eqn:E.
  - split; [|done]. intros Hn. destruct Hn. apply list_elem_of_fmap. exists a. split; [done|]. by apply list_elem_of_filter.
  - split; [done|]. intros _ Hin. apply list_elem_of_fmap in Hin as (b & Hab & Hb). apply list_elem_of_filter in Hb as [Hb Hb'].
    assert (a = b) as ->; [|congruence]. by apply (names_inj ar_Name l).
Qed.
Lemma filter_dropped k l : NoDup (map ar_Name l) -> filter (fun a => ar_Name a ∉ map ar_Name (drop k l)) l = take k l.
Proof.
  intros Hnd. trans (filter (fun a => ar_Name a ∉ map ar_Name (drop k l)) (take k l ++ drop k l)); [by rewrite take_drop|].
  rewrite filter_app. rewrite <- (take_drop k l), map_app in Hnd.
  apply NoDup_app in Hnd as (_ & Hdis & _).
  rewrite (filter_keeps_all _ (take k l)), (filter_keeps_none _ (drop k l)); [apply app_nil_r|..].
  - apply Forall_forall. intros a Ha Hn. apply Hn. by apply list_elem_of_fmap_2.
  - apply Forall_forall. intros a Ha. apply Hdis. by apply list_elem_of_fmap_2.
Qed.
Lemma discovered_only path d names : (forall x, x ∈ names -> x ∈ map ar_Name (Discover path d)) ->
  forall name f, d !! name = Some f -> discover path (name, f) = None -> without names d !! name = Some f.
Proof.
  intros Hn name f Hf Hnone. rewrite without_lookup, decide_False; [done|]. intros Hin. apply Hn in Hin.
  apply list_elem_of_fmap in Hin as (a & -> & Ha). apply elem_of_Discover in Ha as (k & g & Hg & Ha).
  destruct (discover_name _ _ _ _ Ha) as [E _]. rewrite E in Hf. congruence.
Qed.

Lemma sizes_split m l : sizes l = sizes (take m l) + sizes (drop m l).
Proof. by rewrite <- sizes_app, take_drop. Qed.
Lemma drop_names k m l : (k <= m)%nat -> forall x, x ∈ map ar_Name (drop k (take m l)) ++ map ar_Name (drop m l) <-> x ∈ map ar_Name (drop k l).
Proof.
  intros Hk x. rewrite <- map_app. replace (drop k (take m l) ++ drop m l) with (drop k l); [done|].
  rewrite <- (take_drop m l) at 1. destruct (decide (m <= length l)%nat).
  - by rewrite drop_app_le by (rewrite length_take; lia).
  - by rewrite (drop_ge l m), !app_nil_r by lia.
Qed.

(** What retention removes is the old archives and the oldest of the others. *)
Lemma cleanup_removes opts now d :
  let young := filter (fun a => too_old opts now a = false) (Discover (o_Path opts) d) in
  let old := filter (fun a => too_old opts now a = true) (Discover (o_Path opts) d) in
  let current := match d !! Base (o_Path opts) with Some f => if f_regular f then f_size f else 0 | None => 0 end in
  exists k, (k <= length young)%nat /\
    cleanup local (fun _ => true) opts now d = without (map ar_Name (drop k young) ++ map ar_Name old) d /\
    (0 < o_MaxFiles opts -> Z.of_nat k <= o_MaxFiles opts) /\
    (0 < o_MaxTotalSize opts -> k = 0%nat \/ current + sizes (take k young) <= o_MaxTotalSize opts) /\
    (k = length young \/ 0 < o_MaxFiles opts /\ Z.of_nat k = o_MaxFiles opts \/
     0 < o_MaxTotalSize opts < current + sizes (take (S k) young)).
Proof.
  intros young old current. unfold cleanup. fold young. fold old.
  assert (foldl (remove_archive (fun _ => true)) d old = without (map ar_Name old) d) as ->.
  { pose proof (removals [] d old) as H. by rewrite without_nil, app_nil_r in H. }
  set (m := if (0 <? o_MaxFiles opts) && (o_MaxFiles opts <? Z.of_nat (length young)) then Z.to_nat (o_MaxFiles opts) else length young).
  assert ((m <= length young)%nat /\ (0 < o_MaxFiles opts -> Z.of_nat m <= o_MaxFiles opts) /\
    (m = length young \/ 0 < o_MaxFiles opts /\ Z.of_nat m = o_MaxFiles opts)) as (Hm & Hmax & Hmex).
  { subst m. generalize (length young) as n. intros n.
    destruct (Z.ltb_spec 0 (o_MaxFiles opts)), (Z.ltb_spec (o_MaxFiles opts) (Z.of_nat n)); cbn [andb]; split_and!; lia. }
  assert ((if (0 <? o_MaxFiles opts) && (o_MaxFiles opts <? Z.of_nat (length young))
     then foldl (remove_archive (fun _ => true)) (without (map ar_Name old) d) (drop (Z.to_nat (o_MaxFiles opts)) young)
     else without (map ar_Name old) d) = without (map ar_Name (drop m young) ++ map ar_Name old) d) as ->.
  { subst m. destruct (_ && _); [apply removals|]. by rewrite drop_all. }
  assert ((if (0 <? o_MaxFiles opts) && (o_MaxFiles opts <? Z.of_nat (length young)) then take (Z.to_nat (o_MaxFiles opts)) young else young)
    = take m young) as -> by (subst m; destruct (_ && _); [done|by rewrite firstn_all]).
  clearbody m. destruct (Z.ltb_spec 0 (o_MaxTotalSize opts)) as [Ht|Ht].
  2:{ exists m. split_and!; [done|done|done|lia|]. destruct Hmex; auto. }
  assert (without (map ar_Name (drop m young) ++ map ar_Name old) d !! Base (o_Path opts) = d !! Base (o_Path opts)) as ->.
  { rewrite without_lookup. case_decide as Hin; [|done]. exfalso. rewrite <- map_app in Hin. apply list_elem_of_fmap in Hin as (a & E & Ha).
    assert (a ∈ Discover (o_Path opts) d) as Ha'.
    { apply elem_of_app in Ha as [Ha|Ha]; [apply (elem_of_sublist _ young) in Ha; [|apply sublist_drop]|]; by apply list_elem_of_filter in Ha as [_ Ha]. }
    apply elem_of_Discover in Ha' as (k & g & _ & Ha'). destruct (discover_name _ _ _ _ Ha') as [E' _]. rewrite E' in E. subst k.
    pose proof (current_not_archive (archiveParts (o_Path opts)).1 (o_Path opts) g) as Hn. cbn [fst snd] in Ha'. congruence. }
  fold current. fold (sizes (take m young)).
  destruct (trim_total_spec (o_MaxTotalSize opts) (current + sizes (take m young)) (map ar_Name (drop m young) ++ map ar_Name old) d (take m young))
    as (k & Hk & E & H1 & H2). rewrite length_take in Hk, H2.
  assert (forall j, (j <= m)%nat -> sizes (take m young) - sizes (drop j (take m young)) = sizes (take j young)) as Hsz.
  { intros j Hj. rewrite (sizes_split j (take m young)), take_take, Nat.min_l by lia. lia. }
  exists k. split_and!; [lia| |lia| |].
  - rewrite E. apply without_ext. intros x. rewrite app_assoc, !(elem_of_app _ (map ar_Name old)). by rewrite drop_names by lia.
  - intros _. destruct H1 as [?|H1]; [by left|right]. rewrite <- Hsz by lia. lia.
  - destruct (decide (k = m)) as [->|Hkm]; [destruct Hmex; auto|]. right; right. destruct H2 as [->|H2]; [lia|].
    rewrite <- Hsz by lia. lia.
Qed.

(** With every file removable, retention keeps the newest archives among those that are not
    too old: at most [MaxFiles] of them, as many as fit [MaxTotalSize] together with the
    current file, and not one fewer; no file that is not an archive is touched. *)
Theorem cleanup_newest opts now d :
  let d' := cleanup local (fun _ => true) opts now d in
  let young := filter (fun a => too_old opts now a = false) (Discover (o_Path opts) d) in
  let current := match d !! Base (o_Path opts) with Some f => if f_regular f then f_size f else 0 | None => 0 end in
  exists k, (k <= length young)%nat /\ Discover (o_Path opts) d' = take k young /\
    (0 < o_MaxFiles opts -> Z.of_nat k <= o_MaxFiles opts) /\
    (0 < o_MaxTotalSize opts -> k = 0%nat \/ current + sizes (take k young) <= o_MaxTotalSize opts) /\
    (k = length young \/ 0 < o_MaxFiles opts /\ Z.of_nat k = o_MaxFiles opts \/
     0 < o_MaxTotalSize opts < current + sizes (take (S k) young)) /\
    (forall name f, d !! name = Some f -> discover (o_Path opts) (name, f) = None -> d' !! name = Some f).
Proof.
  intros d' young current. destruct (cleanup_removes opts now d) as (k & Hk & E & H1 & H2 & H3). fold young current in Hk, E, H1, H2, H3.
  exists k. subst d'. rewrite E. split_and!; try done.
  - rewrite Discover_without. pose proof (Discover_NoDup (o_Path opts) d) as Hnd.
    pose proof (filter_old_names (too_old opts now) _ Hnd) as Eold. fold young in Eold.
    rewrite <- filter_dropped by (by apply NoDup_filter_map). set (late := drop k young). rewrite <- Eold, list_filter_filter.
    apply filter_ext_in. intros a _. rewrite elem_of_app. tauto.
  - apply discovered_only. intros x. rewrite <- map_app. intros Hx. apply list_elem_of_fmap in Hx as (a & -> & Ha).
    apply list_elem_of_fmap_2. apply elem_of_app in Ha as [Ha|Ha]; [apply (elem_of_sublist _ young) in Ha; [|apply sublist_drop]|];
      by apply list_elem_of_filter in Ha as [_ Ha].
Qed.
End local.

(** ** Examples *)

Definition ex_opts : LogOptions := mkLogOptions "logs/syrogo.log" 10 3 0 0 false.
Definition ex_log_dir : logDir :=
  {[ "syrogo.log" := mkLogFile "12345678" (date_utc 2024 3 1 11 0 0 0) true;
     "syrogo.20240301-100000.000000007.1.log" := mkLogFile "abc" (date_utc 2024 3 1 10 0 0 0) true;
     "other.txt" := mkLogFile "x" 0 true ]}.
Definition ex_writer : RotatingWriter := mkRotatingWriter ex_opts true 8 "2024-03-01" 1 false false.
Definition ex_fine : rotate_env := mkRotateEnv true true true true true None.
Definition ex_now : Time := date_utc 2024 3 1 12 30 0 5.

Example rotated_names :
  map ar_Name (DiscoverArchives UTC "logs/syrogo.log" (Log_Write UTC ex_fine ex_now "90abc" ex_writer ex_log_dir).2) =
  ["syrogo.20240301-123000.000000005.2.log"; "syrogo.20240301-100000.000000007.1.log"].
Proof. by vm_compute. Qed.

Lemma ex_archives_old a : a ∈ DiscoverArchives UTC "logs/syrogo.log" ex_log_dir -> older UTC ex_now a.
Proof.
  assert (map (fun a => (ar_stamp a, ar_nanos a)) (DiscoverArchives UTC "logs/syrogo.log" ex_log_dir) = [(date_utc 2024 3 1 10 0 0 0, 7)]) as H
    by by vm_compute.
  intros Ha. apply (list_elem_of_fmap_2 (fun a => (ar_stamp a, ar_nanos a))) in Ha. unfold fmap in Ha. 
  assert ((ar_stamp a, ar_nanos a) = (date_utc 2024 3 1 10 0 0 0, 7)) as [= E1 E2].
  { apply list_elem_of_singleton. rewrite <- H. exact Ha. }
  left. rewrite E1. by vm_compute.
Qed.

Lemma ex_named : named_ok UTC ex_now /\ rw_sequence ex_writer + Z.of_nat (S (size ex_log_dir)) < 2 ^ 64 /\
  open_ok ex_writer ex_log_dir /\ log_text UTC (fun s => s) "logs/syrogo.log" ex_log_dir +:+ "90abc" = "abc1234567890abc".
Proof. split_and!; [by vm_compute..| |by vm_compute]. intros _. by eexists. Qed.

Lemma write_keeps_text_witness :
  exists w d, Log_Write UTC ex_fine ex_now "90abc" ex_writer ex_log_dir = (5, true, w, d) /\
    log_text UTC (fun s => s) "logs/syrogo.log" d = "abc1234567890abc".
Proof.
  destruct ex_named as (Hn & Hs & Ho & Ht).
  assert ((Log_Write UTC ex_fine ex_now "90abc" ex_writer ex_log_dir).1.1 = (5, true)) as H by by vm_compute.
  destruct (Log_Write UTC ex_fine ex_now "90abc" ex_writer ex_log_dir) as [[[n ok] w] d] eqn:E. cbn in H. injection H as -> ->.
  exists w, d. split; [reflexivity|]. rewrite <- Ht.
  apply (write_keeps_text UTC (fun s => s) ex_fine ex_now "90abc" ex_writer ex_log_dir 5 true w d E Hn); [discriminate|exact Hs|exact Ho|exact ex_archives_old].
Defined.
