(* ===== verification/LogLines.v ===== *)
(** * Log lines as the administrator sees them

    Models the parts of [internal/gateway/admin_logs.go] that read one line: the fields of
    a [log/slog] text line, the item made of them, the query and what it matches; and
    [redactLogContent] of [admin_ui.go].

    The case mapping of Unicode ([toLower], [toUpper]) is a parameter.  Where the code
    ranges over the map of an item's fields, the order is that of [map_to_list]. *)

From S2P Require Import Prelude GoStrings GoTime GoTimeFacts GoStrconv GoJson.

#[local] Arguments String.append !_ _ /.

(** ** Redaction

    [sensitiveLogPattern] is a choice of two sequences; every repetition in them stops
    where the next element starts, so the greedy match is the only one. *)

(** A letter without regard to case is one of these texts: Unicode folds the Kelvin sign to
    [k] and the long s to [s]. *)
Definition letter (c : ascii) : list string :=
  [String c ""; String (byte (N_of_ascii c - 32)) ""] ++
  (if bool_decide (c = "k"%char) then [bytes [226; 132; 170]%N] else []) ++
  (if bool_decide (c = "s"%char) then [bytes [197; 191]%N] else []).
(** [\s] *)
Definition is_white (c : ascii) : bool := existsb (fun n => (N_of_ascii c =? n)%N) [9; 10; 12; 13; 32]%N.
#[global] Arguments is_white : simpl never.

Inductive pattern :=
| PText (alternatives : list string)
| POptional (alternatives : list string)
| PWhites
| PSomeWhites.

Fixpoint first_prefix (alternatives : list string) (s : string) : option string :=
  match alternatives with
  | [] => None
  | a :: rest => if HasPrefix s a then Some (str_drop (len a) s) else first_prefix rest s
  end.
Fixpoint skip_whites (s : string) : string :=
  match s with String c s' => if is_white c then skip_whites s' else s | EmptyString => EmptyString end.
(** What follows the pattern *)
Fixpoint match_patterns (ps : list pattern) (s : string) : option string :=
  match ps with
  | [] => Some s
  | PText l :: ps => s ← first_prefix l s; match_patterns ps s
  | POptional l :: ps => match_patterns ps (default s (first_prefix l s))
  | PWhites :: ps => match_patterns ps (skip_whites s)
  | PSomeWhites :: ps =>
      match s with
      | String c s' => if is_white c then match_patterns ps (skip_whites s') else None
      | EmptyString => None
      end
  end.

Fixpoint word (s : string) : list pattern :=
  match s with String c s => PText (letter c) :: word s | EmptyString => [] end.
Definition bearer_pattern : list pattern :=
  word "authorization" ++ [PWhites; PText [":"]; PWhites] ++ word "bearer" ++ [PSomeWhites].
(** [token|api[_-]?key|auth[_-]?token|secret] *)
Definition key_patterns : list (list pattern) :=
  [word "token"; word "api" ++ [POptional ["_"; "-"]] ++ word "key"; word "auth" ++ [POptional ["_"; "-"]] ++ word "token";
   word "secret"].
(** [=|:|\s+] *)
Definition separators : list (list pattern) := [[PText ["="]]; [PText [":"]]; [PSomeWhites]].
Definition sensitive : list (list pattern) := bearer_pattern :: (k ← key_patterns; s ← separators; [k ++ s]).

Definition starts_black (s : string) : bool := match s with String c _ => negb (is_white c) | EmptyString => false end.
(** The text of a credential, [\S+], and what follows *)
Fixpoint skip_blacks (s : string) : string :=
  match s with String c s' => if is_white c then s else skip_blacks s' | EmptyString => EmptyString end.
(** The first sequence that matches at the head of the text and is followed by a
    credential: what starts with the credential *)
Fixpoint match_sensitive (l : list (list pattern)) (s : string) : option string :=
  match l with
  | [] => None
  | ps :: l =>
      match match_patterns ps s with
      | Some rest => if starts_black rest then Some rest else match_sensitive l s
      | None => match_sensitive l s
      end
  end.

Definition redacted_mark : string := "<redacted>".
Fixpoint redact_fuel (fuel : nat) (s : string) : string :=
  match fuel with
  | O => s
  | S fuel =>
      match s with
      | EmptyString => EmptyString
      | String c s' =>
          match match_sensitive sensitive s with
          | Some rest => str_take (len s - len rest) s +:+ redacted_mark +:+ redact_fuel fuel (skip_blacks rest)
          | None => String c (redact_fuel fuel s')
          end
      end
  end.
Definition redactLogContent (content : string) : string := redact_fuel (len content) content.

Example redact_1 : redactLogContent "x token=abc api_key:k1 y" = "x token=<redacted> api_key:<redacted> y".
Proof. by vm_compute. Qed.
Example redact_2 : redactLogContent "Authorization: Bearer sk-1 done" = "Authorization: Bearer <redacted> done".
Proof. by vm_compute. Qed.
(** A space after the colon, or a quote after the key, hides the credential from the
    pattern. *)
Example redact_missed : redactLogContent "token: abc" = "token: abc" /\
  redactLogContent ("{" +:+ dquote +:+ "token" +:+ dquote +:+ ":1}") = "{" +:+ dquote +:+ "token" +:+ dquote +:+ ":1}".
Proof. by vm_compute. Qed.

(** ** strconv.Unquote of a text in double quotes *)

(** [UnquoteChar] after a backslash: what it stands for and what follows *)
Fixpoint hex_digits (n : nat) (acc : N) (s : string) : option (N * string) :=
  match n with
  | O => Some (acc, s)
  | S n => match s with String c s => v ← hex_val c; hex_digits n (acc * 16 + v)%N s | EmptyString => None end
  end.
Definition valid_rune (r : N) : bool := ((r <? 55296) || ((57344 <=? r) && (r <? 1114112)))%N.
Definition octal (c : ascii) : option N :=
  let n := N_of_ascii c in if ((48 <=? n) && (n <=? 55))%N then Some (n - 48)%N else None.
Definition unquote_escape (s : string) : option (string * string) :=
  match s with
  | EmptyString => None
  | String c s =>
      match c with
      | "a" => Some (bytes [7%N], s) | "b" => Some (bytes [8%N], s) | "f" => Some (bytes [12%N], s)
      | "n" => Some (bytes [10%N], s) | "r" => Some (bytes [13%N], s) | "t" => Some (bytes [9%N], s)
      | "v" => Some (bytes [11%N], s) | "\" => Some ((String "\" "")%string, s) | "034" => Some (dquote, s)
      | "x" => '(v, s) ← hex_digits 2 0 s; Some (bytes [v], s)
      | "u" => '(v, s) ← hex_digits 4 0 s; if valid_rune v then Some (encode_rune v, s) else None
      | "U" => '(v, s) ← hex_digits 8 0 s; if valid_rune v then Some (encode_rune v, s) else None
      | _ =>
          a ← octal c;
          match s with
          | String d (String e s) =>
              b ← octal d; o ← octal e;
              let v := ((a * 8 + b) * 8 + o)%N in if (v <=? 255)%N then Some (bytes [v], s) else None
          | _ => None
          end
      end%char
  end.
(** The text between the quotes; every step takes a byte at least. *)
Fixpoint unquote_body (fuel : nat) (s : string) : option string :=
  match fuel with
  | O => if s == "" then Some "" else None
  | S fuel =>
      match s with
      | EmptyString => Some ""
      | String c s' =>
          if bool_decide (c = byte 10) || bool_decide (c = "034"%char) then None
          else if bool_decide (c = "\"%char) then
            '(x, s) ← unquote_escape s'; r ← unquote_body fuel s; Some (x +:+ r)
          else if (N_of_ascii c <? 128)%N then r ← unquote_body fuel s'; Some (String c r)
          else
            match utf8_size s with
            | O => r ← unquote_body fuel s'; Some (replacement +:+ r)
            | n => r ← unquote_body fuel (str_drop n s); Some (str_take n s +:+ r)
            end
      end
  end.
Definition unquote (body : string) : option string := unquote_body (len body) body.

(** ** The fields of a line *)

(** The body of a quoted token and what follows its closing quote: the first quote that is
    not behind a backslash *)
Fixpoint quoted_token (s : string) : option (string * string) :=
  match s with
  | EmptyString => None
  | String "\" (String c s) => '(body, rest) ← quoted_token s; Some (String "\" (String c body), rest)
  | String c s =>
      if bool_decide (c = "\"%char) then None
      else if bool_decide (c = "034"%char) then Some (EmptyString, s)
      else '(body, rest) ← quoted_token s; Some (String c body, rest)
  end.
Fixpoint plain_token (delimiter : ascii) (s : string) : string * string :=
  match s with
  | EmptyString => (EmptyString, EmptyString)
  | String c s' =>
      if bool_decide (c = delimiter) then (EmptyString, s)
      else let '(value, rest) := plain_token delimiter s' in (String c value, rest)
  end.
(** [parseSlogToken]: the value and what follows, [None] when not ok *)
Definition parseSlogToken (line : string) (delimiter : ascii) : option (string * string) :=
  match line with
  | EmptyString => Some ("", "")
  | String "034" body => '(body, rest) ← quoted_token body; value ← unquote body; Some (value, rest)
  | _ => Some (plain_token delimiter line)
  end.

Fixpoint skip_spaces (s : string) : string :=
  match s with String " " s => skip_spaces s | _ => s end.
Abbreviation slogFields := (gmap string (list string)).
(** Every field takes a byte at least: the length of the line is fuel enough. *)
Fixpoint slog_loop (fuel : nat) (line : string) (fields : slogFields) : option slogFields :=
  match fuel with
  | O => Some fields
  | S fuel =>
      match skip_spaces line with
      | EmptyString => Some fields
      | line =>
          '(key, rest) ← parseSlogToken line "=";
          match rest with
          | String "=" rest =>
              '(value, rest) ← parseSlogToken rest " ";
              slog_loop fuel rest (<[key := default [] (fields !! key) ++ [value]]> fields)
          | _ => None
          end
      end
  end.
(** [None] when the line is not made of fields, in which case the code ignores them. *)
Definition parseSlogTextFields (line : string) : option slogFields :=
  fields ← slog_loop (S (len line)) line ∅;
  if decide (fields = ∅) then None else Some fields.

Definition lastField (fields : slogFields) (key : string) : string := default "" (last (default [] (fields !! key))).
Fixpoint firstNonEmptyField (fields : slogFields) (keys : list string) : string :=
  match keys with
  | [] => ""
  | key :: keys => let value := lastField fields key in if value != "" then value else firstNonEmptyField fields keys
  end.

(** ** Items *)

Record adminLogItem := mkAdminLogItem {
  li_Time : string;
  li_Level : string;
  li_Message : string;
  li_Status : option Z;
  li_Client : string;
  li_Inbound : string;
  li_Outbound : list string;
  li_ErrorKind : string;
  li_Duration : string;
  li_Fields : gmap string string;
  li_Content : string;
  li_Parsed : bool
}.

Definition formatAdminLogTime (t : Time) : string := if IsZero t then "" else format_rfc3339nano t.

Section unicode.
Context (toLower toUpper : string -> string).

Definition outbound_values (fields : slogFields) : list string :=
  flat_map (fun key => flat_map (fun value => filter (fun o => o <> "") (map TrimSpace (Split value ",")))
    (default [] (fields !! key))) ["outbound"; "outbound_name"; "resolved_to"].
Definition other_fields (fields : slogFields) : gmap string string :=
  String.concat ", " <$> delete "time" (delete "level" (delete "msg" fields)).

Definition parseAdminLogItem (content : string) : adminLogItem :=
  match parseSlogTextFields content with
  | None => mkAdminLogItem "" "" "" None "" "" [] "" "" ∅ content false
  | Some fields =>
      mkAdminLogItem
        (match parse_rfc3339 (lastField fields "time") with
         | Some t => if lastField fields "time" != "" then formatAdminLogTime t else ""
         | None => ""
         end)
        (toUpper (lastField fields "level")) (lastField fields "msg")
        (if lastField fields "status" != "" then ParseInt (lastField fields "status") else None)
        (firstNonEmptyField fields ["client_name"; "client"]) (firstNonEmptyField fields ["inbound"; "inbound_name"])
        (outbound_values fields) (lastField fields "error_kind") (firstNonEmptyField fields ["duration"; "duration_ms"])
        (other_fields fields) content true
  end.

(** ** Queries *)

Record adminLogQuery := mkAdminLogQuery {
  lq_Since : Time;
  lq_Until : Time;
  lq_Limit : Z;
  lq_MaxBytes : Z;
  lq_Cursor : string;
  lq_Text : list string;
  lq_Levels : list string;
  lq_Statuses : list string;
  lq_Clients : list string;
  lq_Inbounds : list string;
  lq_Outbounds : list string;
  lq_ErrorKinds : list string
}.

Definition defaultAdminLogLines : Z := 200.
Definition hardAdminLogLines : Z := 1000.
Definition maxAdminLogFilterValue : nat := 256.

Fixpoint slicesCompact (values : list string) : list string :=
  match values with
  | [] => []
  | v :: rest => match slicesCompact rest with
                 | w :: _ as l => if v == w then l else v :: l
                 | [] => [v]
                 end
  end.
Definition normalize_part (upper : bool) (part : string) : result string (option string) :=
  let part := TrimSpace part in
  if part == "" then Ok None
  else if (maxAdminLogFilterValue <? len part)%nat then Err "log filter value is too long"
  else Ok (Some (if upper then toUpper part else toLower part)).
Fixpoint normalize_parts (upper : bool) (parts : list string) : result string (list string) :=
  match parts with
  | [] => Ok []
  | part :: parts =>
      v ← normalize_part upper part;
      l ← normalize_parts upper parts;
      Ok (match v with Some v => v :: l | None => l end)
  end.
Definition normalizeAdminLogValues (values : list string) (upper : bool) : result string (list string) :=
  l ← normalize_parts upper (flat_map (fun v => Split v ",") values);
  Ok (slicesCompact (sort_by String.ltb l)).

(** [5xx] *)
Definition status_family (value : string) : option Z :=
  match value with
  | String c "xx" => v ← digit_val c; if (1 <=? v) && (v <=? 5) then Some v else None
  | _ => None
  end.
Definition normalizeAdminLogStatuses (values : list string) : result string (list string) :=
  statuses ← normalizeAdminLogValues values false;
  _ ← for_each (fun value =>
        match status_family value with
        | Some _ => Ok tt
        | None => require (match ParseInt value with Some n => (100 <=? n) && (n <=? 599) | None => false end)
                    "status must be an HTTP status or status family such as 5xx"
        end) statuses;
  Ok statuses.

Abbreviation urlValues := (gmap string (list string)).
Definition firstQueryValue (values : urlValues) (key : string) : string := default "" (head (default [] (values !! key))).
Definition query_values (values : urlValues) (key : string) : list string := default [] (values !! key).
Definition page_query_keys : list string :=
  ["since"; "until"; "limit"; "cursor"; "q"; "level"; "status"; "client"; "inbound"; "outbound"; "error_kind"].
Definition hasAdminLogPageQuery (values : urlValues) : bool := existsb (fun key => bool_decide (is_Some (values !! key))) page_query_keys.

Definition parse_limit (values : urlValues) : result string Z :=
  let raw := TrimSpace (firstQueryValue values "limit") in
  if raw != "" then
    match ParseInt raw with
    | Some n => if (n <? 1) || (hardAdminLogLines <? n) then Err "limit must be between 1 and 1000" else Ok n
    | None => Err "limit must be between 1 and 1000"
    end
  else
    let raw := TrimSpace (firstQueryValue values "lines") in
    if raw != "" then
      match ParseInt raw with
      | Some n => if n <? 1 then Err "lines must be a positive integer" else Ok (Z.min n hardAdminLogLines)
      | None => Err "lines must be a positive integer"
      end
    else Ok defaultAdminLogLines.
Definition parse_query_time (raw : string) (missing : Time) (error : string) : result string Time :=
  if raw == "" then Ok missing else match parse_rfc3339 raw with Some t => Ok t | None => Err error end.

Definition parseAdminLogQuery (values : urlValues) (maxBytes : Z) (now : Time) : result string adminLogQuery :=
  limit ← parse_limit values;
  since ← parse_query_time (TrimSpace (firstQueryValue values "since")) zero_time "since must be RFC3339";
  until ← parse_query_time (TrimSpace (firstQueryValue values "until")) now "until must be RFC3339";
  _ ← require (negb (negb (IsZero since) && After since until)) "since must not be after until";
  text ← normalizeAdminLogValues (query_values values "q") false;
  levels ← normalizeAdminLogValues (query_values values "level") true;
  statuses ← normalizeAdminLogStatuses (query_values values "status");
  clients ← normalizeAdminLogValues (query_values values "client") false;
  inbounds ← normalizeAdminLogValues (query_values values "inbound") false;
  outbounds ← normalizeAdminLogValues (query_values values "outbound") false;
  errorKinds ← normalizeAdminLogValues (query_values values "error_kind") false;
  Ok (mkAdminLogQuery since until limit maxBytes (TrimSpace (firstQueryValue values "cursor")) text levels statuses
        clients inbounds outbounds errorKinds).

(** ** What a query matches *)

Definition matchStringValues (value : string) (filters : list string) (upper : bool) : bool :=
  match filters with
  | [] => true
  | _ => existsb (fun f => (if upper then toUpper value else toLower value) == f) filters
  end.
Definition matchAnyStringValues (values filters : list string) : bool :=
  match filters with [] => true | _ => existsb (fun v => matchStringValues v filters false) values end.
(** [strconv.Atoi] gives 0 for a family; a query has no number that is out of range. *)
Definition matchStatus (status : option Z) (filters : list string) : bool :=
  match filters with
  | [] => true
  | _ =>
      match status with
      | None => false
      | Some status =>
          existsb (fun f => match f with
                            | String c "xx" => Z.quot status 100 =? Z.of_N (N_of_ascii c) - 48
                            | _ => false
                            end || (default 0 (ParseInt f) =? status)) filters
      end
  end.
Definition searchable (item : adminLogItem) : string :=
  foldl (fun s kv => s +:+ " " +:+ toLower kv.2) (toLower (li_Content item +:+ " " +:+ li_Message item))
    (map_to_list (li_Fields item)).
Definition matchAdminLogItem (item : adminLogItem) (query : adminLogQuery) : bool :=
  matchStringValues (li_Level item) (lq_Levels query) true && matchStatus (li_Status item) (lq_Statuses query) &&
  matchStringValues (li_Client item) (lq_Clients query) false && matchStringValues (li_Inbound item) (lq_Inbounds query) false &&
  matchStringValues (li_ErrorKind item) (lq_ErrorKinds query) false && matchAnyStringValues (li_Outbound item) (lq_Outbounds query) &&
  forallb (Contains (searchable item)) (lq_Text query).

Record adminLogLine := mkAdminLogLine { ll_Start : Z; ll_Item : adminLogItem; ll_EffectiveTime : option Time }.
Definition adminLogLineMatches (line : adminLogLine) (query : adminLogQuery) : bool :=
  match ll_EffectiveTime line with
  | Some t => negb (negb (IsZero (lq_Since query)) && Before t (lq_Since query)) &&
              negb (negb (IsZero (lq_Until query)) && After t (lq_Until query))
  | None => true
  end && matchAdminLogItem (ll_Item line) query.
Definition filterAdminLogLines (lines : list adminLogLine) (query : adminLogQuery) : list adminLogLine :=
  filter (fun l => adminLogLineMatches l query = true) lines.
End unicode.
