(* ===== verification/LogLinesFacts.v ===== *)
(** * Redaction of log lines

    [redactLogContent] hides every credential its pattern finds: what the pattern finds in
    its result is the mark. *)

From S2P Require Import Prelude GoStrings GoTime GoTimeFacts GoStrconv GoJson LogLines.

#[local] Arguments String.append !_ _ /.

(** ** Patterns *)

Definition first_char (s : string) : option ascii := match s with String c _ => Some c | EmptyString => None end.
(** At most one alternative can match at a given head, and none has a [<]. *)
Definition good_alternatives (l : list string) : bool :=
  forallb (fun a => negb (a == "") && negb (Contains a "<")) l && bool_decide (NoDup (map first_char l)).
Fixpoint consumes (ps : list pattern) : bool :=
  match ps with [] => false | PText _ :: _ | PSomeWhites :: _ => true | _ :: ps => consumes ps end.
Fixpoint good_patterns (ps : list pattern) : bool :=
  match ps with
  | [] => true
  | PText l :: ps => good_alternatives l && good_patterns ps
  | POptional l :: ps => good_alternatives l && forallb (fun a => len a =? 1)%nat l && consumes ps && good_patterns ps
  | _ :: ps => good_patterns ps
  end.
Lemma sensitive_good : forallb (fun ps => consumes ps && good_patterns ps) sensitive = true.
Proof. by vm_compute. Qed.

Lemma good_alternatives_spec l : good_alternatives l = true ->
  (forall a, a ∈ l -> a <> "" /\ Contains a "<" = false) /\
  (forall a b, a ∈ l -> b ∈ l -> first_char a = first_char b -> a = b).
Proof.
  intros H. apply andb_true_iff in H as [Hl Hnd]. apply bool_decide_eq_true in Hnd. split.
  - intros a Ha. rewrite forallb_forall in Hl. specialize (Hl a (proj1 (list_elem_of_In _ _) Ha)). by breflect.
  - clear Hl. induction l as [|z l IH]; intros a b Ha Hb E; [set_solver|]. cbn in Hnd. apply NoDup_cons in Hnd as [Hz Hnd].
    apply elem_of_cons in Ha as [->|Ha]; apply elem_of_cons in Hb as [->|Hb]; [done| | |by apply IH];
      destruct Hz; apply list_elem_of_fmap; eauto.
Qed.

Lemma first_prefix_spec l s t : good_alternatives l = true -> first_prefix l s = Some t <-> exists a, a ∈ l /\ s = a +:+ t.
Proof.
  intros Hg. destruct (good_alternatives_spec l Hg) as [Hne Hinj]. clear Hg. split.
  - clear. induction l as [|a l IH]; cbn; [done|]. destruct (HasPrefix s a) eqn:E.
    + intros [= <-]. apply HasPrefix_spec in E as [r ->]. exists a. rewrite str_drop_app. split; [set_solver|done].
    + intros H. destruct (IH H) as (b & Hb & ->). exists b. split; [set_solver|done].
  - intros (a & Ha & ->). assert (forall k, k ⊆ l -> a ∈ k -> first_prefix k (a +:+ t) = Some t) as Hk; [|by apply Hk].
    induction k as [|b k IH]; intros Hk Hak; [set_solver|]. cbn. destruct (HasPrefix (a +:+ t) b) eqn:E.
    + apply HasPrefix_spec in E as [r E]. assert (a = b) as ->; [|by rewrite str_drop_app].
      apply Hinj; [done|set_solver|]. destruct (Hne a Ha) as [Hane _]. destruct (Hne b) as [Hbne _]; [set_solver|].
      destruct a as [|x a]; [done|]. destruct b as [|y b]; [done|]. cbn in E. injection E as -> _. done.
    + apply IH; [set_solver|]. apply elem_of_cons in Hak as [->|]; [by rewrite HasPrefix_app in E|done].
Qed.
Lemma first_prefix_none l s : good_alternatives l = true -> first_prefix l s = None <-> forall a t, a ∈ l -> s <> a +:+ t.
Proof.
  intros Hg. split.
  - intros E a t Ha Es. rewrite (proj2 (first_prefix_spec l s t Hg)) in E; [done|by exists a].
  - intros H. destruct (first_prefix l s) as [t|] eqn:E; [|done]. apply first_prefix_spec in E as (a & Ha & Es); [|done].
    by destruct (H a t).
Qed.

Section marked.
(** A text [x] whose first character is not white, and one that starts with [<] *)
Context (x y' : string) (x_black : starts_black x = true).
Abbreviation y := (String "<" y').

Lemma skip_whites_app g z : starts_black z = true -> skip_whites (g +:+ z) = skip_whites g +:+ z.
Proof.
  intros Hz. induction g as [|c g IH]; cbn; [|destruct (is_white c); [exact IH|done]].
  destruct z as [|c z]; [done|]. cbn in *. by destruct (is_white c).
Qed.
Lemma marked_black : starts_black y = true.
Proof. done. Qed.

(** An alternative that matches before the mark lies before it. *)
Lemma first_prefix_marked l g t : good_alternatives l = true -> first_prefix l (g +:+ y) = Some t ->
  exists a g2, a ∈ l /\ g = a +:+ g2 /\ t = g2 +:+ y.
Proof.
  intros Hg E. apply first_prefix_spec in E as (a & Ha & E); [|done]. destruct (decide (len a <= len g)%nat) as [Hle|Hgt].
  - symmetry in E. apply str_app_split in E as (m & -> & ->); [|done]. by exists a, m.
  - apply str_app_split in E as (m & -> & E); [|lia]. destruct m as [|c m]; [rewrite str_app_nil_r in Hgt; lia|].
    injection E as <- E. destruct (good_alternatives_spec l Hg) as [Hne _]. destruct (Hne _ Ha) as [_ Hc].
    assert (Contains (g +:+ String "<" m) "<" = true) as H; [|congruence]. apply Contains_spec. by exists g, m.
Qed.

Lemma match_marked_none ps : consumes ps = true -> good_patterns ps = true -> match_patterns ps y = None.
Proof.
  induction ps as [|p ps IH]; [done|]. destruct p as [l|l| |]; cbn; intros Hc Hg; breflect.
  - destruct (first_prefix l y) as [t|] eqn:E; [|done]. apply (first_prefix_marked l "") in E as (a & g2 & Ha & Eg & _); [|done].
    destruct a; [|done]. by destruct (proj1 (good_alternatives_spec l H) _ Ha).
  - destruct (first_prefix l y) as [t|] eqn:E; [|by apply IH].
    apply (first_prefix_marked l "") in E as (a & g2 & Ha & Eg & _); [|done].
    destruct a; [|done]. by destruct (proj1 (good_alternatives_spec l H) _ Ha).
  - by apply IH.
  - done.
Qed.

(** What matches before the mark matches before the credential. *)
Lemma match_marked ps g t : good_patterns ps = true -> match_patterns ps (g +:+ y) = Some t ->
  exists g2, t = g2 +:+ y /\ match_patterns ps (g +:+ x) = Some (g2 +:+ x).
Proof.
  revert g. induction ps as [|p ps IH]; intros g Hg H; [injection H as <-; by exists g|].
  destruct p as [l|l| |]; cbn in Hg |- *; cbn [match_patterns] in H; breflect.
  - destruct (first_prefix l (g +:+ y)) as [s|] eqn:E; [cbn in H|done].
    apply first_prefix_marked in E as (a & g2 & Ha & -> & ->); [|done].
    rewrite (proj2 (first_prefix_spec l _ (g2 +:+ x) H0)); [by apply IH|]. exists a. by rewrite str_app_assoc.
  - destruct (first_prefix l (g +:+ y)) as [s|] eqn:E; cbn in H.
    + apply first_prefix_marked in E as (a & g2 & Ha & -> & ->); [|done].
      rewrite (proj2 (first_prefix_spec l _ (g2 +:+ x) H0)); [by apply IH|]. exists a. by rewrite str_app_assoc.
    + destruct g as [|c g]; [cbn in H; by rewrite match_marked_none in H|].
      assert (first_prefix l (String c g +:+ x) = None) as ->; [|by apply IH].
      apply first_prefix_none; [done|]. intros a s Ha Es.
      assert (len a = 1%nat) as Hlen.
      { match goal with F : forallb _ l = true |- _ => rewrite forallb_forall in F; apply list_elem_of_In, F, Nat.eqb_eq in Ha end. done. }
      destruct a as [|c' [|? ?]]; try discriminate Hlen. cbn in Es. injection Es as <- Es.
      assert (good_alternatives l = true) as Hl by assumption.
      by apply (proj1 (first_prefix_none l (String c g +:+ y) Hl) E (String c "") (g +:+ y) Ha).
  - rewrite skip_whites_app in H by done. rewrite skip_whites_app by done. by apply IH.
  - destruct g as [|c g]; [done|]. cbn in H |- *. destruct (is_white c); [|done].
    rewrite skip_whites_app in H by done. rewrite skip_whites_app by done. by apply IH.
Qed.

(** What matches up to the credential matches up to the mark. *)
Lemma match_patterns_shrinks ps s t : good_patterns ps = true -> match_patterns ps s = Some t -> (len t <= len s)%nat.
Proof.
  assert (forall s, (len (skip_whites s) <= len s)%nat) as Hw.
  { clear. induction s as [|c s IH]; cbn; [done|]. destruct (is_white c); cbn; lia. }
  revert s. induction ps as [|p ps IH]; intros s Hg H; [by injection H as <-|].
  destruct p as [l|l| |]; cbn in Hg; cbn [match_patterns] in H; breflect.
  - destruct (first_prefix l s) as [u|] eqn:E; [cbn in H|done]. apply first_prefix_spec in E as (a & _ & ->); [|done].
    rewrite str_len_app. apply IH in H; [lia|done].
  - destruct (first_prefix l s) as [u|] eqn:E; cbn in H; apply IH in H; try done.
    apply first_prefix_spec in E as (a & _ & ->); [|done]. rewrite str_len_app. lia.
  - apply IH in H; [|done]. pose proof (Hw s). lia.
  - destruct s as [|c s]; [done|]. destruct (is_white c); [|done]. apply IH in H; [|done]. pose proof (Hw s). cbn. lia.
Qed.

Lemma first_prefix_before l g s : good_alternatives l = true -> first_prefix l (g +:+ x) = Some s -> (len x <= len s)%nat ->
  exists g2, s = g2 +:+ x /\ first_prefix l (g +:+ y) = Some (g2 +:+ y).
Proof.
  intros Hg E Hle. apply first_prefix_spec in E as (a & Ha & E); [|done].
  assert (len a <= len g)%nat as Hag.
  { apply (f_equal len) in E. rewrite !str_len_app in E. lia. }
  symmetry in E. apply str_app_split in E as (m & -> & ->); [|done]. exists m. split; [done|].
  apply first_prefix_spec; [done|]. exists a. by rewrite str_app_assoc.
Qed.

Lemma match_before ps g : good_patterns ps = true -> match_patterns ps (g +:+ x) = Some x -> match_patterns ps (g +:+ y) = Some y.
Proof.
  revert g. induction ps as [|p ps IH]; intros g Hg H.
  { cbn in *. injection H as H. by apply (str_app_inj_r g "" x) in H as ->. }
  destruct p as [l|l| |]; cbn in Hg |- *; cbn [match_patterns] in H; breflect.
  - destruct (first_prefix l (g +:+ x)) as [s|] eqn:E; [cbn in H|done].
    apply first_prefix_before in E as (g2 & -> & E); [|done|by eapply match_patterns_shrinks]. rewrite E. by apply IH.
  - destruct (first_prefix l (g +:+ x)) as [s|] eqn:E; cbn in H.
    + apply first_prefix_before in E as (g2 & -> & E); [|done|by eapply match_patterns_shrinks]. rewrite E. by apply IH.
    + destruct (first_prefix l (g +:+ y)) as [s|] eqn:E'; [|by apply IH].
      apply first_prefix_marked in E' as (a & g2 & Ha & -> & _); [|done].
      rewrite (proj2 (first_prefix_spec l _ (g2 +:+ x) ltac:(assumption))) in E; [done|]. exists a. by rewrite str_app_assoc.
  - rewrite skip_whites_app in H by done. rewrite skip_whites_app by done. by apply IH.
  - destruct g as [|c g].
    + destruct x as [|c x']; [done|]. cbn in H, x_black. apply negb_true_iff in x_black. by rewrite x_black in H.
    + cbn in H |- *. destruct (is_white c); [|done]. rewrite skip_whites_app in H by done. rewrite skip_whites_app by done. by apply IH.
Qed.

Definition good_list (l : list (list pattern)) : bool := forallb good_patterns l.
Lemma match_sensitive_marked l g t : good_list l = true -> match_sensitive l (g +:+ y) = Some t ->
  match_sensitive l (g +:+ x) <> None.
Proof.
  induction l as [|ps l IH]; cbn; [done|]. intros Hg. apply andb_true_iff in Hg as [Hg Hl].
  destruct (match_patterns ps (g +:+ y)) as [r|] eqn:E.
  - apply match_marked in E as (g2 & -> & E); [|done]. rewrite E. destruct (starts_black (g2 +:+ x)) eqn:Eb; [done|].
    intros H. apply IH; [done|]. destruct (starts_black (g2 +:+ y)) eqn:Eb'; [|done].
    destruct g2 as [|c g2]; cbn in *; congruence.
  - intros H. destruct (match_patterns ps (g +:+ x)) as [r|]; [|by apply IH]. destruct (starts_black r); [done|by apply IH].
Qed.
Lemma match_sensitive_before l g : good_list l = true -> match_sensitive l (g +:+ x) = Some x ->
  match_sensitive l (g +:+ y) = Some y.
Proof.
  induction l as [|ps l IH]; cbn; [done|]. intros Hg. apply andb_true_iff in Hg as [Hg Hl].
  destruct (match_patterns ps (g +:+ x)) as [r|] eqn:E.
  - destruct (starts_black r) eqn:Eb.
    + intros [= ->]. by rewrite match_before.
    + intros H. destruct (match_patterns ps (g +:+ y)) as [r'|] eqn:E'; [|by apply IH].
      apply match_marked in E' as (g2 & -> & E'); [|done]. rewrite E' in E. injection E as <-.
      destruct (starts_black (g2 +:+ y)) eqn:Eb'; [|by apply IH]. destruct g2; cbn in *; congruence.
  - intros H. destruct (match_patterns ps (g +:+ y)) as [r'|] eqn:E'; [|by apply IH].
    apply match_marked in E' as (g2 & -> & E'); [|done]. congruence.
Qed.
End marked.

Lemma sensitive_list : good_list sensitive = true.
Proof. by vm_compute. Qed.

Lemma match_patterns_suffix ps s t : match_patterns ps s = Some t -> exists g, s = g +:+ t.
Proof.
  assert (forall s, exists g, s = g +:+ skip_whites s) as Hw.
  { clear. induction s as [|c s [g IH]]; cbn; [by exists ""|]. destruct (is_white c); [|by exists ""]. exists (String c g). cbn. by rewrite <- IH. }
  assert (forall l s u, first_prefix l s = Some u -> exists g, s = g +:+ u) as Hf.
  { clear. induction l as [|a l IH]; cbn; [done|]. intros s u. destruct (HasPrefix s a) eqn:E; [|apply IH].
    intros [= <-]. apply HasPrefix_spec in E as [r ->]. exists a. by rewrite str_drop_app. }
  revert s. induction ps as [|p ps IH]; intros s H; [injection H as <-; by exists ""|].
  assert (forall u, match_patterns ps u = Some t -> (exists g, s = g +:+ u) -> exists g, s = g +:+ t) as Hu.
  { intros u Hm [g ->]. destruct (IH u Hm) as [g2 ->]. exists (g +:+ g2). by rewrite str_app_assoc. }
  destruct p as [l|l| |]; cbn [match_patterns] in H.
  - destruct (first_prefix l s) as [u|] eqn:E; [cbn in H|done]. eauto.
  - destruct (first_prefix l s) as [u|] eqn:E; cbn in H; [eauto|]. by apply IH.
  - eauto.
  - destruct s as [|c s]; [done|]. destruct (is_white c); [|done]. apply (Hu _ H). destruct (Hw s) as [g Hg].
    exists (String c g). cbn. by rewrite <- Hg.
Qed.
Lemma match_sensitive_Some l s t : match_sensitive l s = Some t -> starts_black t = true /\ exists g, s = g +:+ t.
Proof.
  induction l as [|ps l IH]; cbn; [done|]. destruct (match_patterns ps s) as [r|] eqn:E; [|done].
  destruct (starts_black r) eqn:Eb; [|done]. intros [= <-]. split; [done|]. by apply match_patterns_suffix in E.
Qed.

Lemma skip_blacks_spec s : (len (skip_blacks s) <= len s)%nat /\
  (skip_blacks s = "" \/ exists c t, skip_blacks s = String c t /\ is_white c = true).
Proof.
  induction s as [|c s [IH1 IH2]]; cbn; [auto|]. destruct (is_white c) eqn:E; [split; [done|right; eauto]|]. split; [lia|done].
Qed.
Lemma skip_blacks_shorter t : starts_black t = true -> (len (skip_blacks t) < len t)%nat.
Proof.
  destruct t as [|c t]; [done|]. cbn. destruct (is_white c); [done|]. intros _. destruct (skip_blacks_spec t). lia.
Qed.

Lemma redact_fuel_enough n m s : (len s <= n)%nat -> (len s <= m)%nat -> redact_fuel n s = redact_fuel m s.
Proof.
  revert m s. induction n as [|n IH]; intros m s Hn Hm.
  { destruct s; [|cbn in Hn; lia]. by destruct m. }
  destruct s as [|c s]; [by destruct m|]. destruct m as [|m]; [cbn in Hm; lia|]. cbn [redact_fuel].
  destruct (match_sensitive sensitive (String c s)) as [t|] eqn:E.
  - apply match_sensitive_Some in E as [Hb [g Hg]]. pose proof (skip_blacks_shorter t Hb) as Hlt.
    apply (f_equal len) in Hg. rewrite str_len_app in Hg. do 2 f_equal. apply IH; cbn in *; lia.
  - clear E. f_equal. cbn in Hn, Hm. apply IH; lia.
Qed.

(** Redaction at the head of a text *)
Lemma redact_none c s : match_sensitive sensitive (String c s) = None ->
  redactLogContent (String c s) = String c (redactLogContent s).
Proof. intros E. unfold redactLogContent. cbn [len String.length redact_fuel]. by rewrite E. Qed.
Lemma redact_match g t : match_sensitive sensitive (g +:+ t) = Some t ->
  redactLogContent (g +:+ t) = g +:+ redacted_mark +:+ redactLogContent (skip_blacks t).
Proof.
  intros E. pose proof (match_sensitive_Some _ _ _ E) as [Hb _]. pose proof (skip_blacks_shorter t Hb) as Hlt.
  unfold redactLogContent. destruct (g +:+ t) as [|c s] eqn:Es.
  { apply (f_equal len) in Es. rewrite str_len_app in Es. cbn in Es. lia. }
  change (redact_fuel (len (String c s)) (String c s)) with (redact_fuel (S (len s)) (String c s)).
  cbn [redact_fuel]. rewrite E. rewrite <- Es, str_len_app.
  replace (len g + len t - len t)%nat with (len g) by lia.
  assert (str_take (len g) (g +:+ t) = g) as ->. { clear. induction g as [|c g IH]; cbn; [by destruct t|]. by rewrite IH. }
  do 2 f_equal. apply redact_fuel_enough; [|done]. apply (f_equal len) in Es. rewrite str_len_app in Es. cbn in Es. lia.
Qed.

Lemma redact_shape n s : (len s <= n)%nat -> redactLogContent s = s \/
  exists g x t, s = g +:+ x /\ starts_black x = true /\ redactLogContent s = g +:+ redacted_mark +:+ t.
Proof.
  revert s. induction n as [|n IH]; intros s Hn; [destruct s; [by left|cbn in Hn; lia]|].
  destruct s as [|c s]; [by left|]. destruct (match_sensitive sensitive (String c s)) as [t|] eqn:E.
  - right. destruct (match_sensitive_Some _ _ _ E) as [Hb [g Hg]]. rewrite Hg in E |- *. rewrite redact_match by done.
    by exists g, t, (redactLogContent (skip_blacks t)).
  - rewrite redact_none by done. destruct (IH s) as [->|(g & x & t & -> & Hx & ->)]; [cbn in Hn; lia|by left|right].
    by exists (String c g), x, t.
Qed.

Lemma sensitive_not_white c s : is_white c = true -> match_sensitive sensitive (String c s) = None.
Proof.
  intros Hc. assert (forallb (fun ps => match ps with
      | PText l :: _ => forallb (fun a => match a with String c _ => negb (is_white c) | EmptyString => false end) l
      | _ => false end) sensitive = true) as H by by vm_compute.
  induction sensitive as [|ps l IH]; [done|]. cbn in H |- *. apply andb_true_iff in H as [Hps Hl].
  destruct ps as [|[al| | |] ps]; try done. cbn. assert (first_prefix al (String c s) = None) as ->; [|by apply IH].
  clear -Hps Hc. induction al as [|a al IH]; [done|]. cbn in Hps |- *. apply andb_true_iff in Hps as [Ha Hal].
  destruct a as [|c' a]; [done|]. destruct (HasPrefix (String c s) (String c' a)) eqn:E; [|by apply IH].
  apply HasPrefix_spec in E as [r E]. injection E as -> _. by rewrite Hc in Ha.
Qed.

(** What the pattern finds in a redacted text is redacted already: redacting again changes
    nothing. *)
Theorem redaction_complete s : redactLogContent (redactLogContent s) = redactLogContent s.
Proof.
  remember (len s) as n eqn:Hn. assert (len s <= n)%nat as Hle by lia. clear Hn. revert s Hle.
  induction n as [|n IH]; intros s Hle; [destruct s; [done|cbn in Hle; lia]|].
  destruct s as [|c s]; [done|]. destruct (match_sensitive sensitive (String c s)) as [t|] eqn:E.
  - destruct (match_sensitive_Some _ _ _ E) as [Hb [g Hg]]. rewrite Hg in E, Hle |- *. rewrite redact_match by done.
    pose proof (skip_blacks_shorter t Hb) as Hlt. rewrite str_len_app in Hle.
    set (r := redactLogContent (skip_blacks t)).
    pose proof (match_sensitive_before t ("redacted>" +:+ r) Hb sensitive g sensitive_list E) as E'.
    change (String "<" ("redacted>" +:+ r)) with (redacted_mark +:+ r) in E'. rewrite redact_match by done.
    assert (skip_blacks (redacted_mark +:+ r) = r) as ->; [|subst r; rewrite IH; [done|lia]].
    assert (skip_blacks r = r) as Hr; [|by cbn].
    subst r. destruct (skip_blacks_spec t) as [_ [->|(w & u & Hw & Hwhite)]]; [done|]. rewrite Hw, redact_none by (by apply sensitive_not_white).
    cbn. by rewrite Hwhite.
  - rewrite redact_none by done. rewrite redact_none; [f_equal; apply IH; cbn in Hle; lia|].
    destruct (redact_shape (len s) s) as [->|(g & x & t & Es & Hx & ->)]; [done|done|].
    destruct (match_sensitive sensitive (String c (g +:+ redacted_mark +:+ t))) as [r|] eqn:E'; [|done].
    destruct (match_sensitive_marked x ("redacted>" +:+ t) Hx sensitive (String c g) r sensitive_list E'). by rewrite Es in E.
Qed.
