(* ===== verification/LogView.v ===== *)
(** * Pages of the log

    Models the rest of [internal/gateway/admin_logs.go] and the log functions of
    [admin_ui.go]: a query answered from the buffer of recent lines, or page by page from
    the log file and its archives with a cursor that the client hands back.

    The files are those of [LogArchives] with the identity (device and inode) of each; they
    do not change while one page is read, and a file that is there can be read.  A path in
    the log's directory is its name.  The cursor's text (JSON in base64) is a pair of
    parameters, as are gzip, SHA-256 and the texts of errors of the operating system. *)

From S2P Require Import Prelude GoStrings GoTime GoTimeFacts GoStrconv GoJson ConfigTypes LogBuffer LogArchives LogLines.

Record logFiles := mkLogFiles { lv_dir : logDir; lv_ident : string -> Z * Z }.

Inductive logError := LogCursorStale | LogError (text : string).
Definition log_error_text (e : logError) : string :=
  match e with LogCursorStale => "log cursor is stale; refresh the log query" | LogError text => text end.

Record adminLogSnapshotFile := mkAdminLogSnapshotFile {
  sf_Name : string;
  sf_Compressed : bool;
  sf_Device : Z;
  sf_Inode : Z;
  sf_Size : Z;
  sf_ModTime : Z
}.
Record adminLogCursor := mkAdminLogCursor {
  lc_Version : Z;
  lc_Files : list adminLogSnapshotFile;
  lc_FileIndex : Z;
  lc_NextEnd : Z;
  lc_Since : string;
  lc_Until : string;
  lc_Limit : Z;
  lc_MaxBytes : Z;
  lc_FilterHash : string
}.
Definition adminLogCursorVersion : Z := 3.
Record adminLogPage := mkAdminLogPage {
  lp_Source : string;
  lp_Content : string;
  lp_Items : list adminLogItem;
  lp_Since : string;
  lp_Until : string;
  lp_Limit : Z;
  lp_LineCount : Z;
  lp_ScannedLineCount : Z;
  lp_ScannedFileCount : Z;
  lp_IncludesArchives : bool;
  lp_BytesRead : Z;
  lp_HasMore : bool;
  lp_NextCursor : string;
  lp_ScanTruncated : bool
}.

(** [time.Time.UnixNano] *)
Definition UnixNano (t : Time) : Z := i64 (t - unix_epoch).

(** ** Lines of a chunk *)

Section unicode.
Context (toLower toUpper : string -> string).
Abbreviation parseItem := (parseAdminLogItem toUpper).

(** The parts of a text at newlines, without an empty one at the end *)
Definition split_lines (text : string) : list string :=
  let parts := Split text newline in
  if default "" (last parts) == "" then removelast parts else parts.
Definition trim_return (s : string) : string := TrimSuffix s (bytes [13%N]).
Definition line_item (raw : string) : adminLogItem := parseItem (redactLogContent (trim_return raw)).
Definition item_time (item : adminLogItem) : option Time :=
  if li_Time item != "" then parse_rfc3339 (li_Time item) else None.

(** A line without a time has that of the line before it. *)
Fixpoint number_lines (offset : Z) (effective : option Time) (parts : list string) : list adminLogLine :=
  match parts with
  | [] => []
  | raw :: parts =>
      let item := line_item raw in
      let effective := match item_time item with Some t => Some t | None => effective end in
      mkAdminLogLine offset item effective :: number_lines (offset + Z.of_nat (len raw) + 1) effective parts
  end.
Definition splitAdminLogLines (buffer : string) (start stop : Z) (discardPartial : bool) : list adminLogLine * Z :=
  if discardPartial then
    match cut_line buffer with
    | Some (partial, text) =>
        let aligned := start + Z.of_nat (len partial) + 1 in
        (number_lines aligned None (split_lines text), aligned)
    | None => ([], stop)
    end
  else (number_lines start None (split_lines buffer), start).

(** ** From the buffer of recent lines *)

Definition join_lines (items : list adminLogItem) : string := String.concat (bytes [10%N]) (map li_Content items).

Definition recent_line (recent : RecentLine) : adminLogLine :=
  let item := line_item (RL_Content recent) in
  mkAdminLogLine 0 item (Some (default (RL_Time recent) (item_time item))).
Definition adminLogPageFromRecent (snapshot : RecentSnapshot) (query : adminLogQuery) : option adminLogPage :=
  let lines := map recent_line (RS_Lines snapshot) in
  let matched := filterAdminLogLines toLower toUpper lines query in
  if lq_Limit query <? Z.of_nat (length matched) then None else
  let items := map ll_Item (rev matched) in
  Some (mkAdminLogPage "memory" (join_lines items) items (formatAdminLogTime (lq_Since query))
          (formatAdminLogTime (lq_Until query)) (lq_Limit query) (Z.of_nat (length items)) (Z.of_nat (length lines)) 0
          false (RS_Bytes snapshot) false "" false).

(** ** The snapshot of the files *)

Section files.
Context (local : Location) (gunzip : string -> result string string) (os_error : string -> string).

Definition plainAdminLogSnapshot (v : logFiles) (name : string) (f : logFile) : adminLogSnapshotFile :=
  let '(device, inode) := lv_ident v name in
  mkAdminLogSnapshotFile name false device inode (f_size f) (UnixNano (f_modTime f)).
Definition archive_snapshot (v : logFiles) (a : Archive) : adminLogSnapshotFile :=
  match ar_Compressed a, lv_dir v !! ar_Name a with
  | false, Some f => plainAdminLogSnapshot v (ar_Name a) f
  | _, _ => mkAdminLogSnapshotFile (ar_Name a) (ar_Compressed a) 0 0 (ar_Size a) (UnixNano (ar_ModTime a))
  end.
Definition snapshotAdminLogFiles (path : string) (v : logFiles) : result logError (list adminLogSnapshotFile * list string) :=
  match lv_dir v !! Base path with
  | None => Err (LogError (os_error path))
  | Some f =>
      if negb (f_regular f) then Err (LogError "log path is not a regular file") else
      let archives := DiscoverArchives local path (lv_dir v) in
      Ok (plainAdminLogSnapshot v (Base path) f :: map (archive_snapshot v) archives, Base path :: map ar_Name archives)
  end.

Record candidate := mkCandidate { cd_name : string; cd_compressed : bool; cd_file : logFile }.
Definition log_candidates (path : string) (v : logFiles) : list candidate :=
  match lv_dir v !! Base path with
  | Some f => if f_regular f then [mkCandidate (Base path) false f] else []
  | None => []
  end ++
  omap (fun a => f ← lv_dir v !! ar_Name a;
                 if f_regular f then Some (mkCandidate (ar_Name a) (ar_Compressed a) f) else None)
    (DiscoverArchives local path (lv_dir v)).
Definition same_file (entry : adminLogSnapshotFile) (c : candidate) : bool :=
  (cd_name c == sf_Name entry) && (f_size (cd_file c) =? sf_Size entry) &&
  (UnixNano (f_modTime (cd_file c)) =? sf_ModTime entry).
Definition candidate_matches (v : logFiles) (first : bool) (entry : adminLogSnapshotFile) (c : candidate) : bool :=
  bool_decide (cd_compressed c = sf_Compressed entry) &&
  if sf_Compressed entry then same_file entry c
  else
    let '(device, inode) := lv_ident v (cd_name c) in
    (device =? sf_Device entry) && (inode =? sf_Inode entry) &&
    if first then sf_Size entry <=? f_size (cd_file c) else same_file entry c.

(** The first candidate that is not used; [candidates] is without the used ones. *)
Fixpoint find_candidate (p : candidate -> bool) (candidates : list candidate) : option (candidate * list candidate) :=
  match candidates with
  | [] => None
  | c :: candidates =>
      if p c then Some (c, candidates) else '(x, rest) ← find_candidate p candidates; Some (x, c :: rest)
  end.
(** [filepath.Base] of a name is itself when it has no slash and is not empty. *)
Definition plain_name (name : string) : bool :=
  negb (name == "") && negb (Contains name "/") && (name != ".") && (name != "..").
Fixpoint resolve_entries (v : logFiles) (first : bool) (candidates : list candidate) (files : list adminLogSnapshotFile)
    : result logError (list string) :=
  match files with
  | [] => Ok []
  | entry :: files =>
      if negb (plain_name (sf_Name entry)) then Err (LogError "invalid log cursor snapshot") else
      match find_candidate (candidate_matches v first entry) candidates with
      | None => Err LogCursorStale
      | Some (c, candidates) => names ← resolve_entries v false candidates files; Ok (cd_name c :: names)
      end
  end.
Definition resolveAdminLogSnapshot (path : string) (v : logFiles) (files : list adminLogSnapshotFile)
    : result logError (list string) :=
  match files with
  | entry :: _ =>
      if sf_Compressed entry || (sf_Name entry != Base path) then Err (LogError "invalid log cursor snapshot")
      else resolve_entries v true (log_candidates path v) files
  | [] => Err (LogError "invalid log cursor snapshot")
  end.

(** ** Reading *)

Definition hardAdminLogDecompressedMax : Z := 512 * 1024 * 1024.
Definition decompressed_limit (maxSizeMB : Z) : Z :=
  let maxSize := i64 (i64 (maxSizeMB * 1024) * 1024) in
  if (maxSize <=? 0) || (hardAdminLogDecompressedMax <? maxSize) then hardAdminLogDecompressedMax else maxSize.

(** Content past the end of the file is read as zeros. *)
Fixpoint zero_bytes (n : nat) : string := match n with O => EmptyString | S n => String (byte 0) (zero_bytes n) end.
Definition read_at (content : string) (start n : nat) : string :=
  let s := str_take n (str_drop start content) in s +:+ zero_bytes (n - len s).

Section contents.
Context (v : logFiles) (maxSizeMB : Z).
Definition read_archive (name : string) (entry : adminLogSnapshotFile) : result logError string :=
  match lv_dir v !! name with
  | None => Err (LogError (os_error name))
  | Some f =>
      match gunzip (f_content f) with
      | Err e => Err (LogError ("read gzip log archive " +:+ sf_Name entry +:+ ": " +:+ e))
      | Ok content =>
          if decompressed_limit maxSizeMB <? Z.of_nat (len content)
          then Err (LogError ("read gzip log archive " +:+ sf_Name entry +:+ ": decompressed size exceeds limit"))
          else Ok content
      end
  end.
Definition adminLogSnapshotContentSize (name : string) (entry : adminLogSnapshotFile) : result logError Z :=
  if negb (sf_Compressed entry) then Ok (sf_Size entry)
  else content ← read_archive name entry; Ok (Z.of_nat (len content)).
Definition readAdminLogSnapshotRange (name : string) (entry : adminLogSnapshotFile) (start stop : Z) : result logError string :=
  if (start <? 0) || (stop <? start) then Err (LogError "invalid log cursor offset") else
  if sf_Compressed entry then
    content ← read_archive name entry;
    if Z.of_nat (len content) <? stop then Err LogCursorStale
    else Ok (str_take (Z.to_nat (stop - start)) (str_drop (Z.to_nat start) content))
  else if sf_Size entry <? stop then Err LogCursorStale
  else
    match lv_dir v !! name with
    | None => Err (LogError (os_error name))
    | Some f => Ok (read_at (f_content f) (Z.to_nat start) (Z.to_nat (stop - start)))
    end.
Definition readAdminLogSnapshotContent (name : string) (entry : adminLogSnapshotFile) : result logError string :=
  if sf_Compressed entry then read_archive name entry else readAdminLogSnapshotRange name entry 0 (sf_Size entry).

(** ** A page *)

Record pageState := mkPageState {
  ps_FileIndex : Z;
  ps_NextEnd : Z;
  ps_remaining : Z;
  ps_Items : list adminLogItem;
  ps_ScannedLines : Z;
  ps_ScannedFiles : Z;
  ps_BytesRead : Z
}.
Definition ps_LineCount (st : pageState) : Z := Z.of_nat (length (ps_Items st)).
Definition file_at (files : list adminLogSnapshotFile) (i : Z) : option adminLogSnapshotFile :=
  if i <? 0 then None else files !! Z.to_nat i.

(** The loop over the lines of a chunk, from the last: the items that match in the order of
    the file, and where the page ends when it is full *)
Fixpoint take_matching (query : adminLogQuery) (room : Z) (lines : list adminLogLine) (acc : list adminLogItem) (nextEnd : Z)
    : list adminLogItem * Z :=
  match lines with
  | [] => (acc, nextEnd)
  | line :: lines =>
      if negb (adminLogLineMatches toLower toUpper line query) then take_matching query room lines acc nextEnd
      else
        let acc := ll_Item line :: acc in
        if Z.of_nat (length acc) =? room then (acc, ll_Start line) else take_matching query room lines acc nextEnd
  end.

Definition next_file (files : list adminLogSnapshotFile) (resolved : list string) (st : pageState) : result logError pageState :=
  let i := ps_FileIndex st + 1 in
  let set nextEnd := mkPageState i nextEnd (ps_remaining st) (ps_Items st) (ps_ScannedLines st) (ps_ScannedFiles st) (ps_BytesRead st) in
  match file_at files i, resolved !! Z.to_nat i with
  | Some entry, Some name => n ← adminLogSnapshotContentSize name entry; Ok (set n)
  | _, _ => Ok (set (ps_NextEnd st))
  end.
Definition scan_chunk (query : adminLogQuery) (name : string) (entry : adminLogSnapshotFile) (st : pageState)
    : result logError pageState :=
  let oldEnd := ps_NextEnd st in
  let start := Z.max 0 (oldEnd - ps_remaining st) in
  buffer ← readAdminLogSnapshotRange name entry start oldEnd;
  let '(lines, aligned) := splitAdminLogLines buffer start oldEnd (0 <? start) in
  let '(items, nextEnd) := take_matching query (lq_Limit query - ps_LineCount st) (rev lines) [] aligned in
  let nextEnd := if oldEnd - nextEnd <=? 0 then start else nextEnd in
  Ok (mkPageState (ps_FileIndex st) nextEnd (ps_remaining st - (oldEnd - start)) (ps_Items st ++ items)
        (ps_ScannedLines st + Z.of_nat (length lines)) (ps_ScannedFiles st + 1) (ps_BytesRead st + (oldEnd - start))).
(** A chunk that does not end the page ends the file: one more step than there are files is
    fuel enough. *)
Fixpoint page_loop (fuel : nat) (query : adminLogQuery) (files : list adminLogSnapshotFile) (resolved : list string)
    (st : pageState) : option (result logError pageState) :=
  match file_at files (ps_FileIndex st), resolved !! Z.to_nat (ps_FileIndex st) with
  | Some entry, Some name =>
      if (ps_remaining st <=? 0) || (lq_Limit query <=? ps_LineCount st) then Some (Ok st) else
      match fuel with
      | O => None
      | S fuel =>
          if ps_NextEnd st <? 0 then Some (Err (LogError "invalid log cursor offset")) else
          match (if ps_NextEnd st =? 0 then next_file files resolved st
                 else st ← scan_chunk query name entry st; if ps_NextEnd st =? 0 then next_file files resolved st else Ok st) with
          | Err e => Some (Err e)
          | Ok st => page_loop fuel query files resolved st
          end
      end
  | _, _ => Some (Ok st)
  end.
End contents.

Section pages.
Context (checksumHex : string -> string) (encodeCursor : adminLogCursor -> string) (unmarshalCursor : string -> option adminLogCursor).

(** JSON of a list that is [nil] when it is empty *)
Definition json_strings (l : list string) : string :=
  match l with [] => "null" | _ => "[" +:+ concat_comma (map quote l) +:+ "]" end.
Definition filter_payload (query : adminLogQuery) : string :=
  "{" +:+ concat_comma (map (fun kl => quote kl.1 +:+ ":" +:+ json_strings kl.2)
    [("Text", lq_Text query); ("Levels", lq_Levels query); ("Statuses", lq_Statuses query); ("Clients", lq_Clients query);
     ("Inbounds", lq_Inbounds query); ("Outbounds", lq_Outbounds query); ("ErrorKinds", lq_ErrorKinds query)]) +:+ "}".
Definition adminLogFilterHash (query : adminLogQuery) : string := checksumHex (filter_payload query).

Definition decodeAdminLogCursor (value : string) : result logError adminLogCursor :=
  match unmarshalCursor value with
  | Some cursor => if lc_Version cursor =? adminLogCursorVersion then Ok cursor else Err (LogError "invalid log cursor")
  | None => Err (LogError "invalid log cursor")
  end.

Definition cursor_matches (cursor : adminLogCursor) (query : adminLogQuery) : bool :=
  (lc_Since cursor == formatAdminLogTime (lq_Since query)) && (lc_Until cursor == formatAdminLogTime (lq_Until query)) &&
  (lc_Limit cursor =? lq_Limit query) && (lc_MaxBytes cursor =? lq_MaxBytes query) &&
  (lc_FilterHash cursor == adminLogFilterHash query).

Definition defaultAdminLogPath : string := "tmp/dev.log".
Definition log_path (logs : AdminLogsConfig) : string := if al_Path logs == "" then defaultAdminLogPath else al_Path logs.

(** The cursor to begin with and the files it names *)
Definition open_cursor (logs : AdminLogsConfig) (query : adminLogQuery) (v : logFiles)
    : result logError (adminLogCursor * list string) :=
  let path := log_path logs in
  if lq_Cursor query == "" then
    '(files, resolved) ← snapshotAdminLogFiles path v;
    nextEnd ← match files, resolved with
              | entry :: _, name :: _ => adminLogSnapshotContentSize v (alr_MaxSizeMB (al_Rotation logs)) name entry
              | _, _ => Ok 0
              end;
    Ok (mkAdminLogCursor adminLogCursorVersion files 0 nextEnd (formatAdminLogTime (lq_Since query))
          (formatAdminLogTime (lq_Until query)) (lq_Limit query) (lq_MaxBytes query) (adminLogFilterHash query), resolved)
  else
    cursor ← decodeAdminLogCursor (lq_Cursor query);
    _ ← require (cursor_matches cursor query) (LogError "cursor does not match the log query");
    resolved ← resolveAdminLogSnapshot path v (lc_Files cursor);
    Ok (cursor, resolved).

Definition advance_cursor (cursor : adminLogCursor) (fileIndex nextEnd : Z) : adminLogCursor :=
  mkAdminLogCursor (lc_Version cursor) (lc_Files cursor) fileIndex nextEnd (lc_Since cursor) (lc_Until cursor)
    (lc_Limit cursor) (lc_MaxBytes cursor) (lc_FilterHash cursor).

(** [None] is a loop without end. *)
Definition readAdminLogPage (logs : AdminLogsConfig) (query : adminLogQuery) (v : logFiles)
    : option (result logError adminLogPage) :=
  match open_cursor logs query v with
  | Err e => Some (Err e)
  | Ok (cursor, resolved) =>
      let files := lc_Files cursor in
      if (lc_FileIndex cursor <? 0) || (Z.of_nat (length files) <? lc_FileIndex cursor)
      then Some (Err (LogError "invalid log cursor file index")) else
      r ← page_loop v (alr_MaxSizeMB (al_Rotation logs)) (S (length files)) query files resolved
            (mkPageState (lc_FileIndex cursor) (lc_NextEnd cursor) (lq_MaxBytes query) [] 0 0 0);
      Some (st ← r;
        let hasMore := ps_FileIndex st <? Z.of_nat (length files) in
        Ok (mkAdminLogPage "file" (join_lines (ps_Items st)) (ps_Items st) (lc_Since cursor) (lc_Until cursor)
              (lq_Limit query) (ps_LineCount st) (ps_ScannedLines st) (ps_ScannedFiles st) (1 <? Z.of_nat (length files))
              (ps_BytesRead st) hasMore
              (if hasMore then encodeCursor (advance_cursor cursor (ps_FileIndex st) (ps_NextEnd st)) else "")
              (hasMore && (ps_remaining st <=? 0))))
  end.
End pages.
End files.
End unicode.

(** ** The tail of the log *)

Definition defaultAdminLogMaxBytes : Z := 64 * 1024.
Definition hardAdminLogMaxBytes : Z := 512 * 1024.
Definition parsePositiveInt (value : string) : Z :=
  match ParseInt (TrimSpace value) with Some n => if n <=? 0 then 0 else n | None => 0 end.
Definition boundedAdminLogBytes (configured : Z) (requested : string) : Z :=
  let limit := if configured <=? 0 then defaultAdminLogMaxBytes else configured in
  let n := parsePositiveInt requested in
  let limit := if (0 <? n) && (n <? limit) then n else limit in
  if hardAdminLogMaxBytes <? limit then hardAdminLogMaxBytes else limit.
(** The end of the file, and whether something is cut off *)
Definition readTail (content : string) (maxBytes : Z) : string * bool :=
  let size := Z.of_nat (len content) in
  if size <=? 0 then ("", false) else
  let truncated := maxBytes <? size in
  (if truncated then str_drop (Z.to_nat (size - maxBytes)) content else content, truncated).
Definition tailLines (content : string) (lines : Z) : string :=
  let parts := split_lines content in
  String.concat (bytes [10%N])
    (if Z.of_nat (length parts) <=? lines then parts else drop (length parts - Z.to_nat lines) parts).

(** The tail is cut before it is redacted: a credential whose name is cut off is shown. *)
Example tail_leaks : redactLogContent "x token=k12345 y" = "x token=<redacted> y" /\
  redactLogContent (readTail "x token=k12345 y" 12).1 = "ken=k12345 y".
Proof. by vm_compute. Qed.
