(* ===== verification/LogViewFacts.v ===== *)
(** * Following the cursors of a log query

    Shows that the pages of a query give every matching line of the log file, once each,
    and that they come to an end, while the file grows and is rotated. *)

From S2P Require Import Prelude GoStrings GoTime GoTimeFacts GoStrconv GoJson ConfigTypes LogBuffer LogArchives LogLines LogView.

#[local] Arguments String.append !_ _ /.
#[local] Arguments newline : simpl never.

(** ** Texts and their lines *)

(** [s] ends where a line ends. *)
Definition whole (s : string) : Prop := s = "" \/ exists t, s = t +:+ String newline "".

Lemma cut_line_None_app a b : cut_line a = None -> cut_line b = None -> cut_line (a +:+ b) = None.
Proof.
  induction a as [|c a IH]; intros Ha Hb; [done|]. cbn in *. case_bool_decide; [done|].
  destruct (cut_line a) as [[l r]|]; [done|]. by rewrite IH.
Qed.
Lemma cut_line_app a b l r : cut_line a = Some (l, r) -> cut_line (a +:+ b) = Some (l, r +:+ b).
Proof.
  revert l. induction a as [|c a IH]; intros l H; [done|]. cbn in *. case_bool_decide; [by injection H as <- <-|].
  destruct (cut_line a) as [[l' r']|]; [|done]. cbn in H. injection H as <- <-. by rewrite (IH l').
Qed.
Lemma cut_line_newline a : cut_line a = None -> cut_line (a +:+ String newline "") = Some (a, "").
Proof.
  induction a as [|c a IH]; intros H; [done|]. cbn in *. case_bool_decide; [done|].
  destruct (cut_line a) as [[l r]|]; [done|]. by rewrite IH.
Qed.
Lemma cut_line_len s l r : cut_line s = Some (l, r) -> len s = (len l + S (len r))%nat.
Proof. intros H. apply cut_line_Some in H as ->. by rewrite str_len_app. Qed.

Lemma split_cut s : match cut_line s with
  | Some (l, r) => Split s newline = l :: Split r newline
  | None => Split s newline = [s]
  end.
Proof.
  unfold Split. induction s as [|c s IH]; [done|]. cbn. destruct (split_aux s newline) as [x xs] eqn:E.
  case_bool_decide; [by rewrite E|]. destruct (cut_line s) as [[l r]|]; cbn.
  - injection IH as -> ->. by destruct (split_aux r newline).
  - by injection IH as -> ->.
Qed.
Lemma split_lines_cut s : split_lines s =
  match cut_line s with Some (l, r) => l :: split_lines r | None => if s == "" then [] else [s] end.
Proof.
  unfold split_lines. pose proof (split_cut s) as H. destruct (cut_line s) as [[l r]|].
  - rewrite H. destruct (Split r newline) as [|x xs] eqn:E; [unfold Split in E; by destruct (split_aux r newline)|].
    change (last (l :: x :: xs)) with (last (x :: xs)). by case_match.
  - rewrite H. cbn. by destruct (s == "").
Qed.
Lemma split_lines_nil : split_lines "" = [].
Proof. done. Qed.
Lemma whole_cut p l r : whole p -> cut_line p = Some (l, r) -> whole r.
Proof.
  intros [->|[t ->]] H; [done|]. destruct (cut_line t) as [[l' r']|] eqn:E.
  - rewrite (cut_line_app _ _ _ _ E) in H. injection H as -> <-. right. by exists r'.
  - rewrite (cut_line_newline _ E) in H. injection H as <- <-. by left.
Qed.
Lemma whole_uncut p : whole p -> cut_line p = None -> p = "".
Proof.
  intros [->|[t ->]] H; [done|]. destruct (cut_line t) as [[l r]|] eqn:E.
  - by rewrite (cut_line_app _ _ _ _ E) in H.
  - by rewrite (cut_line_newline _ E) in H.
Qed.
Lemma whole_app a b : whole a -> whole b -> whole (a +:+ b).
Proof. intros Ha [->|[t ->]]; [by rewrite str_app_nil_r|]. right. exists (a +:+ t). by rewrite str_app_assoc. Qed.

Lemma split_lines_app p s : whole p -> split_lines (p +:+ s) = split_lines p ++ split_lines s.
Proof.
  remember (len p) as n eqn:Hn. revert p Hn. induction n as [n IH] using lt_wf_ind. intros p -> Hw.
  rewrite (split_lines_cut p). destruct (cut_line p) as [[l r]|] eqn:E.
  - rewrite split_lines_cut, (cut_line_app _ _ _ _ E). pose proof (cut_line_len _ _ _ E).
    rewrite (IH (len r)); [done|lia|done|by eapply whole_cut].
  - by rewrite (whole_uncut p Hw E).
Qed.
Lemma split_lines_len s : split_lines s = [] -> s = "".
Proof.
  rewrite split_lines_cut. destruct (cut_line s) as [[l r]|]; [done|]. destruct (s == "") eqn:E; [|done]. by breflect.
Qed.

(** A text without newline at the end of [T] is part of its last line. *)
Lemma last_line a b e : cut_line b = None -> e = "" /\ b <> "" \/ e = String newline "" ->
  exists raw, raw ∈ split_lines (a +:+ b +:+ e) /\ (len b <= len raw)%nat.
Proof.
  intros Hb He. remember (len a) as n eqn:Hn. revert a Hn. induction n as [n IH] using lt_wf_ind. intros a ->.
  rewrite split_lines_cut. destruct (cut_line a) as [[l r]|] eqn:E.
  - rewrite (cut_line_app _ _ _ _ E). pose proof (cut_line_len _ _ _ E) as Hl.
    destruct (IH (len r)) with (a := r) as (raw & Hin & Hle); [lia|done|]. exists raw. split; [by right|done].
  - exists (a +:+ b). rewrite str_len_app. split; [|lia]. destruct He as [[-> He]| ->].
    + rewrite str_app_nil_r. rewrite cut_line_None_app by done. destruct (a +:+ b == "") eqn:Ee; [|by left].
      breflect. apply (f_equal len) in Ee. rewrite str_len_app in Ee. destruct b; [done|cbn in Ee; lia].
    + rewrite str_app_assoc, cut_line_newline by (by apply cut_line_None_app). by left.
Qed.

Section lines.
Context (toLower toUpper : string -> string) (query : adminLogQuery).
Abbreviation number := (number_lines toUpper).
Abbreviation item_of := (line_item toUpper).
Abbreviation matches l := (adminLogLineMatches toLower toUpper l query).

(** The line carries its own time. *)
Definition timed (raw : string) : Prop := is_Some (item_time (item_of raw)).
Definition wanted (raw : string) : bool := matches (mkAdminLogLine 0 (item_of raw) (item_time (item_of raw))).
Definition wanted_items (text : string) : list adminLogItem :=
  map item_of (filter (fun raw => wanted raw = true) (split_lines text)).

Lemma wanted_app p s : whole p -> wanted_items (p +:+ s) = wanted_items p ++ wanted_items s.
Proof. intros Hp. unfold wanted_items. by rewrite split_lines_app, filter_app, map_app. Qed.

Lemma number_wanted off eff parts : Forall timed parts ->
  map ll_Item (filterAdminLogLines toLower toUpper (number off eff parts) query) =
  map item_of (filter (fun raw => wanted raw = true) parts).
Proof.
  unfold filterAdminLogLines. intros H. revert off eff. induction H as [|raw parts [t Ht] _ IH]; intros off eff; [done|].
  cbn [number_lines]. rewrite Ht. specialize (IH (off + Z.of_nat (len raw) + 1) (Some t)).
  assert (matches (mkAdminLogLine off (item_of raw) (Some t)) = wanted raw) as E.
  { unfold wanted, adminLogLineMatches. cbn. by rewrite Ht. }
  rewrite !filter_cons. destruct (decide (wanted raw = true)) as [Hw|Hw]; rewrite <- E in Hw.
  - rewrite decide_True by done. cbn. by f_equal.
  - by rewrite decide_False.
Qed.

(** Cutting the numbered lines cuts the text. *)
Lemma number_cut off eff text l1 line l2 : number off eff (split_lines text) = l1 ++ line :: l2 ->
  exists p s eff', text = p +:+ s /\ whole p /\ s <> "" /\ ll_Start line = off + Z.of_nat (len p) /\
    line :: l2 = number (ll_Start line) eff' (split_lines s).
Proof.
  revert off eff text. induction l1 as [|x l1 IH]; intros off eff text H.
  - exists "", text, eff. rewrite Z.add_0_r. repeat split; [by left|by intros ->|..].
    + destruct (split_lines text) as [|raw parts]; [done|]. injection H as <- _. done.
    + cbn in H |- *. rewrite <- H. destruct (split_lines text) as [|raw parts]; [done|]. by injection H as <- _.
  - rewrite split_lines_cut in H. destruct (cut_line text) as [[l r]|] eqn:E.
    + injection H as _ H. destruct (IH _ _ _ H) as (p & s & eff' & -> & Hw & Hs & Hst & Hl).
      exists (l +:+ String newline p), s, eff'. apply cut_line_Some in E as ->. repeat split; try done.
      * by rewrite <- str_app_assoc.
      * destruct Hw as [->|[t ->]]; right; [by exists l|]. exists (l +:+ String newline t). by rewrite <- str_app_assoc.
      * rewrite Hst, str_len_app. cbn. lia.
    + destruct (text == ""); [done|]. injection H as _ H. by destruct l1.
Qed.

Lemma filter_snoc_line (l : list adminLogLine) x :
  filterAdminLogLines toLower toUpper (l ++ [x]) query =
  filterAdminLogLines toLower toUpper l query ++ if matches x then [x] else [].
Proof.
  unfold filterAdminLogLines. rewrite filter_app, filter_cons, filter_nil. destruct (matches x) eqn:E.
  - by rewrite decide_True.
  - rewrite decide_False; [done|congruence].
Qed.

(** What the loop over a chunk takes: all that match, or as many as there is room for from
    the end. *)
Lemma take_matching_spec room lines acc next items n : Z.of_nat (length acc) < room ->
  take_matching toLower toUpper query room (rev lines) acc next = (items, n) ->
  items = map ll_Item (filterAdminLogLines toLower toUpper lines query) ++ acc /\ n = next \/
  Z.of_nat (length items) = room /\ exists l1 line l2, lines = l1 ++ line :: l2 /\ n = ll_Start line /\
    items = map ll_Item (filterAdminLogLines toLower toUpper (line :: l2) query) ++ acc.
Proof.
  revert acc. induction lines as [|x lines IH] using rev_ind; intros acc Hroom H.
  { injection H as <- <-. by left. }
  rewrite rev_app_distr in H. cbn in H. rewrite filter_snoc_line, map_app.
  destruct (matches x) eqn:E; cbn in H.
  - destruct (_ =? room) eqn:Er.
    + injection H as <- <-. right. split; [by breflect|]. exists lines, x, []. split; [done|]. split; [done|].
      unfold filterAdminLogLines. rewrite filter_cons_True by done. by rewrite filter_nil.
    + apply IH in H as [[-> ->]|(Hn & l1 & line & l2 & -> & -> & ->)].
      * left. by rewrite <- app_assoc.
      * right. split; [done|]. exists l1, line, (l2 ++ [x]). rewrite <- app_assoc. split; [done|]. split; [done|].
        rewrite app_comm_cons, filter_snoc_line, E, map_app, <- app_assoc. done.
      * breflect. cbn [length]. lia.
  - apply IH in H as [[-> ->]|(Hn & l1 & line & l2 & -> & -> & ->)]; [| |done].
    + left. by rewrite app_nil_r.
    + right. split; [done|]. exists l1, line, (l2 ++ [x]). rewrite <- app_assoc. split; [done|]. split; [done|].
      by rewrite app_comm_cons, filter_snoc_line, E, app_nil_r.
Qed.

(** The lines of a chunk that holds whole lines up to its end *)
Lemma split_chunk pre0 b start m lines aligned :
  pre0 +:+ b <> "" -> start = Z.of_nat (len pre0) -> (start = 0 \/ Z.of_nat (len b) = m) ->
  Forall (fun raw => Z.of_nat (len raw) + 2 <= m) (split_lines (pre0 +:+ b)) ->
  splitAdminLogLines toUpper b start (Z.of_nat (len (pre0 +:+ b))) (0 <? start) = (lines, aligned) ->
  exists pre suf, pre0 +:+ b = pre +:+ suf /\ whole pre /\ suf <> "" /\ aligned = Z.of_nat (len pre) /\
    lines = number aligned None (split_lines suf) /\ (pre = "" \/ start <> 0).
Proof.
  intros Hne -> Hm Hall H. unfold splitAdminLogLines in H. case_match eqn:Es.
  - destruct Hm as [Hm|Hm]; [breflect; lia|]. rewrite Forall_forall in Hall.
    destruct (cut_line b) as [[partial text]|] eqn:E.
    + injection H as <- <-. exists (pre0 +:+ partial +:+ String newline ""), text.
      pose proof (cut_line_Some _ _ _ E) as ->. split_and!.
      * by rewrite !str_app_assoc, <- (str_app_assoc _ (String newline "")).
      * right. exists (pre0 +:+ partial). by rewrite str_app_assoc.
      * intros ->. destruct (last_line pre0 partial (String newline "")) as (raw & Hin & Hle); [|by right|].
        { clear -E. induction partial as [|c p IH]; [done|]. cbn in *. case_bool_decide; [done|].
          destruct (cut_line (p +:+ _)) as [[l r]|]; [|done]. cbn in E. injection E as -> ->. by rewrite IH. }
        specialize (Hall _ Hin). rewrite str_len_app in Hm. cbn in Hm. lia.
      * rewrite !str_len_app. cbn. lia.
      * done.
      * right. breflect. lia.
    + destruct (last_line pre0 b "") as (raw & Hin & Hle); [done| |].
      { left. split; [done|]. intros ->. cbn in Hm. rewrite str_app_nil_r in Hall, Hne.
        destruct (split_lines pre0) as [|raw parts] eqn:Ep; [by apply split_lines_len in Ep|].
        specialize (Hall raw ltac:(by left)). lia. }
      rewrite str_app_nil_r in Hin. specialize (Hall _ Hin). lia.
  - injection H as <- <-. breflect. destruct pre0; [|cbn in *; lia]. exists "", b. split_and!; [done|by left|done|done|done|by left].
Qed.

(** ** One page of one file *)

Lemma read_at_inside a b c : read_at (a +:+ b +:+ c) (len a) (len b) = b.
Proof. unfold read_at. by rewrite str_drop_app, str_take_app, Nat.sub_diag, str_app_nil_r. Qed.
Lemma str_cut n s : (n <= len s)%nat -> exists a b, s = a +:+ b /\ len a = n.
Proof.
  intros H. exists (str_take n s), (str_drop n s). split; [by rewrite str_take_drop|].
  pose proof (f_equal len (str_take_drop n s)) as E. rewrite str_len_app, str_drop_len in E. lia.
Qed.

Section page.
Context (gunzip : string -> result string string) (os_error : string -> string) (maxSizeMB : Z).
Context (v : logFiles) (name : string) (entry : adminLogSnapshotFile) (f : logFile).
Context (Hf : lv_dir v !! name = Some f) (Hplain : sf_Compressed entry = false).
Context (Hlimit : 1 <= lq_Limit query).

Lemma scan_chunk_spec t more st : f_content f = t +:+ more -> t <> "" -> Z.of_nat (len t) <= sf_Size entry ->
  ps_NextEnd st = Z.of_nat (len t) -> ps_Items st = [] -> 0 < ps_remaining st ->
  Forall timed (split_lines t) -> Forall (fun raw => Z.of_nat (len raw) + 2 <= ps_remaining st) (split_lines t) ->
  exists st' pre suf, scan_chunk toLower toUpper gunzip os_error v maxSizeMB query name entry st = Ok st' /\
    t = pre +:+ suf /\ whole pre /\ suf <> "" /\ ps_Items st' = wanted_items suf /\
    ps_NextEnd st' = Z.of_nat (len pre) /\ ps_FileIndex st' = ps_FileIndex st /\
    (pre = "" \/ ps_remaining st' <= 0 \/ lq_Limit query <= ps_LineCount st').
Proof.
  intros Hc Hne Hsize Hend Hitems Hrem Htimed Hlong. unfold scan_chunk. rewrite Hend.
  set (m := ps_remaining st) in *. set (start := Z.max 0 (Z.of_nat (len t) - m)).
  destruct (str_cut (Z.to_nat start) t) as (pre0 & b & Et & Hpre0); [lia|].
  assert (len t = (len pre0 + len b)%nat) as Hlen by by rewrite Et, str_len_app.
  assert (start = Z.of_nat (len pre0) /\ (start = 0 \/ Z.of_nat (len b) = m)) as [Estart Elen] by (subst start; lia).
  clearbody start m. unfold readAdminLogSnapshotRange. rewrite Hplain, Hf, Hc.
  replace ((start <? 0) || (Z.of_nat (len t) <? start)) with false by (symmetry; apply orb_false_iff; split; lia).
  replace (sf_Size entry <? Z.of_nat (len t)) with false by (symmetry; lia).
  replace (Z.to_nat (Z.of_nat (len t) - start)) with (len b) by lia. rewrite Et, <- str_app_assoc, <- Hpre0, read_at_inside. cbn [mbind result_bind].
  rewrite Et in Hne, Hlong, Htimed.
  destruct (splitAdminLogLines toUpper b start (Z.of_nat (len (pre0 +:+ b))) (0 <? start)) as [lines aligned] eqn:Es.
  apply (split_chunk pre0 b start m) in Es as (pre & suf & Ecut & Hw & Hsuf & -> & -> & Hstart); [|done..].
  destruct (take_matching _ _ _ _ _ _ _) as [items n] eqn:Em. unfold ps_LineCount in Em. rewrite Hitems in Em.
  assert (len pre0 + len b = len pre + len suf)%nat as Etotal by (by rewrite <- !str_len_app, Ecut).
  apply take_matching_spec in Em; [|cbn; lia]. rewrite Ecut in Htimed |- *. rewrite split_lines_app, Forall_app in Htimed by done.
  destruct Htimed as [_ Htimed]. rewrite str_len_app. assert (0 < len suf)%nat by (destruct suf; [done|cbn; lia]).
  destruct Em as [[-> ->]|(Hfull & l1 & line & l2 & Hl & -> & ->)].
  - eexists _, pre, suf. split; [done|]. cbn. rewrite app_nil_r, number_wanted, Hitems by done. cbn.
    split_and!; try done; [case_match; breflect; lia|]. destruct Hstart as [->|Hstart]; [by left|]. right. left. lia.
  - apply number_cut in Hl as (p & s & eff' & -> & Hp & Hs & Hst & Hl).
    rewrite split_lines_app, Forall_app in Htimed by done. destruct Htimed as [_ Htimed].
    assert (0 < len s)%nat by (destruct s; [done|cbn; lia]). rewrite str_len_app in *.
    rewrite app_nil_r, Hl, number_wanted in Hfull by done. rewrite app_nil_r, Hl, number_wanted, Hitems by done.
    eexists _, (pre +:+ p), s. split; [done|]. cbn [ps_Items ps_NextEnd ps_FileIndex ps_remaining app].
    split_and!; try done; [by rewrite str_app_assoc|by apply whole_app| |].
    + rewrite str_len_app. case_match; breflect; lia.
    + right. right. unfold ps_LineCount. cbn [ps_Items app]. rewrite Hfull. cbn. lia.
Qed.

Lemma page_single t more scanned files read : f_content f = t +:+ more -> Z.of_nat (len t) <= sf_Size entry -> 1 <= lq_MaxBytes query ->
  Forall timed (split_lines t) -> Forall (fun raw => Z.of_nat (len raw) + 2 <= lq_MaxBytes query) (split_lines t) ->
  exists st' pre suf, page_loop toLower toUpper gunzip os_error v maxSizeMB 2 query [entry] [name]
      (mkPageState 0 (Z.of_nat (len t)) (lq_MaxBytes query) [] scanned files read) = Some (Ok st') /\
    t = pre +:+ suf /\ whole pre /\ ps_Items st' = wanted_items suf /\
    (pre = "" /\ ps_FileIndex st' = 1 \/ pre <> "" /\ suf <> "" /\ ps_FileIndex st' = 0 /\ ps_NextEnd st' = Z.of_nat (len pre)).
Proof.
  intros Hc Hsize Hmax Htimed Hlong. set (st := mkPageState _ _ _ _ _ _ _).
  assert ((ps_remaining st <=? 0) || (lq_Limit query <=? ps_LineCount st) = false) as Hgo.
  { unfold st, ps_LineCount. cbn [ps_remaining ps_Items length]. apply orb_false_iff. split; apply Z.leb_gt; lia. }
  destruct (decide (t = "")) as [->|Hne].
  { exists (mkPageState 1 0 (lq_MaxBytes query) [] scanned files read), "", "". split; [|split_and!; [done|by left|done|by left]].
    cbn [page_loop]. rewrite Hgo. cbn. by destruct (_ || _). }
  destruct (scan_chunk_spec t more st) as (st' & pre & suf & Hscan & -> & Hw & Hs & Hi & Hn & Hx & Hstop); try done; [cbn; lia|].
  assert (0 < len (pre +:+ suf))%nat as Hpos by (destruct (pre +:+ suf); [done|cbn; lia]).
  exists (if Z.of_nat (len pre) =? 0 then mkPageState 1 (ps_NextEnd st') (ps_remaining st') (ps_Items st') (ps_ScannedLines st') (ps_ScannedFiles st') (ps_BytesRead st') else st'), pre, suf.
  split; [|split_and!; [done|done|by case_match|]].
  - change 2%nat with (S 1). cbn [page_loop]. change (file_at [entry] (ps_FileIndex st)) with (Some entry).
    change ([name] !! Z.to_nat (ps_FileIndex st)) with (Some name). cbv iota.
    rewrite Hgo.
    change (ps_NextEnd st) with (Z.of_nat (len (pre +:+ suf))).
    replace (Z.of_nat (len (pre +:+ suf)) <? 0) with false by (symmetry; lia).
    replace (Z.of_nat (len (pre +:+ suf)) =? 0) with false by (symmetry; lia).
    rewrite Hscan. cbn [mbind result_bind]. rewrite Hn. destruct (Z.of_nat (len pre) =? 0) eqn:E.
    + assert (next_file gunzip os_error v maxSizeMB [entry] [name] st' = Ok (mkPageState 1 (Z.of_nat (len pre)) (ps_remaining st')
          (ps_Items st') (ps_ScannedLines st') (ps_ScannedFiles st') (ps_BytesRead st'))) as ->; [unfold next_file; by rewrite Hx, <- Hn|].
      reflexivity.
    + rewrite Hx. change (file_at [entry] (ps_FileIndex st)) with (Some entry).
      change ([name] !! Z.to_nat (ps_FileIndex st)) with (Some name). cbv iota.
      replace ((ps_remaining st' <=? 0) || _) with true; [done|]. symmetry. apply orb_true_iff.
      destruct Hstop as [->|[H|H]]; [done|left; lia|right; lia].
  - destruct (Z.of_nat (len pre) =? 0) eqn:E; [left|right].
    + split; [|done]. apply str_len_nil. breflect. lia.
    + split_and!; [|done|done|done]. intros ->. done.
Qed.
End page.
End lines.

(** ** Finding the file again *)

Lemma find_candidate_named p (l : list candidate) c : c ∈ l -> p c = true ->
  (forall c', c' ∈ l -> p c' = true -> cd_name c' = cd_name c) ->
  exists c' rest, find_candidate p l = Some (c', rest) /\ cd_name c' = cd_name c.
Proof.
  intros Hin Hp Hall. induction l as [|x l IH]; [by apply elem_of_nil in Hin|]. cbn.
  destruct (p x) eqn:E; [exists x, l; split; [done|]; by apply Hall; [left|]|].
  apply elem_of_cons in Hin as [->|Hin]; [congruence|].
  destruct IH as (c' & rest & -> & H); [done|intros; apply Hall; [by right|done]|]. by exists c', (x :: rest).
Qed.

Lemma find_candidate_Some p (l rest : list candidate) c : find_candidate p l = Some (c, rest) -> c ∈ l /\ p c = true.
Proof.
  revert rest. induction l as [|x l IH]; intros rest; cbn; [done|].
  destruct (p x) eqn:E; [intros [= <- <-]; split; [by left|done]|].
  destruct (find_candidate p l) as [[y rest']|] eqn:Ef; [|done]. cbn. intros [= <- <-].
  destruct (IH _ eq_refl) as [Hin Hp]. split; [by right|done].
Qed.

Section follow.
Context (toLower toUpper : string -> string) (query : adminLogQuery).
Context (local : Location) (gunzip : string -> result string string) (os_error checksumHex : string -> string).
Context (encodeCursor : adminLogCursor -> string) (unmarshalCursor : string -> option adminLogCursor).
Context (logs : AdminLogsConfig) (views : nat -> logFiles).
Abbreviation path := (log_path logs).
Abbreviation readPage q v := (readAdminLogPage toLower toUpper local gunzip os_error checksumHex encodeCursor unmarshalCursor logs q v).

Definition with_cursor (cursor : string) : adminLogQuery :=
  mkAdminLogQuery (lq_Since query) (lq_Until query) (lq_Limit query) (lq_MaxBytes query) cursor (lq_Text query) (lq_Levels query)
    (lq_Statuses query) (lq_Clients query) (lq_Inbounds query) (lq_Outbounds query) (lq_ErrorKinds query).
(** A client that asks for the next page while there is more; request [k] finds the files
    [views k].  It stops when it is told that its cursor is stale ([false]); any other error
    is [None]. *)
Fixpoint follow_pages (fuel k : nat) (cursor : string) : option (list adminLogPage * bool) :=
  match fuel with
  | O => None
  | S fuel =>
      match readPage (with_cursor cursor) (views k) with
      | Some (Ok page) =>
          if lp_HasMore page
          then '(pages, complete) ← follow_pages fuel (S k) (lp_NextCursor page); Some (page :: pages, complete)
          else Some ([page], true)
      | Some (Err LogCursorStale) => Some ([], false)
      | _ => None
      end
  end.

(** The file with the identity [id] has grown, perhaps, and is still the log file or an
    archive that is not compressed; no other file has its identity. *)
Definition still_there (id : Z * Z) (content : string) (v : logFiles) : Prop :=
  exists p f, lv_dir v !! p = Some f /\ f_regular f = true /\ lv_ident v p = id /\
    (exists more, f_content f = content +:+ more) /\
    (p = Base path \/ exists a, a ∈ DiscoverArchives local path (lv_dir v) /\ ar_Name a = p /\ ar_Compressed a = false) /\
    (forall q, is_Some (lv_dir v !! q) -> lv_ident v q = id -> q = p).
(** No file that is not compressed has the identity any more: it was compressed, or removed. *)
Definition gone (id : Z * Z) (v : logFiles) : Prop :=
  (forall f, lv_dir v !! Base path = Some f -> lv_ident v (Base path) <> id) /\
  (forall a, a ∈ DiscoverArchives local path (lv_dir v) -> ar_Compressed a = false -> lv_ident v (ar_Name a) <> id).

Context (Hlimit : 1 <= lq_Limit query) (Hmax : 1 <= lq_MaxBytes query).
Context (f0 : logFile) (Hf0 : lv_dir (views 0) !! Base path = Some f0) (Hregular : f_regular f0 = true).
Context (Halone : DiscoverArchives local path (lv_dir (views 0)) = []) (Hplain : plain_name (Base path) = true).
Context (Hlines : Forall (fun raw => timed toUpper raw /\ Z.of_nat (len raw) + 2 <= lq_MaxBytes query) (split_lines (f_content f0))).
Definition still (k : nat) : Prop := still_there (lv_ident (views 0) (Base path)) (f_content f0) (views (S k)).
Context (Hfate : forall k, still k \/ gone (lv_ident (views 0) (Base path)) (views (S k))).
Context (Hcursor : forall c, unmarshalCursor (encodeCursor c) = Some c) (Hempty : unmarshalCursor "" = None).

Definition first_entry : adminLogSnapshotFile := plainAdminLogSnapshot (views 0) (Base path) f0.
Definition cursor_at (n : Z) : adminLogCursor :=
  mkAdminLogCursor adminLogCursorVersion [first_entry] 0 n (formatAdminLogTime (lq_Since query)) (formatAdminLogTime (lq_Until query))
    (lq_Limit query) (lq_MaxBytes query) (adminLogFilterHash checksumHex query).
(** Request [k] with [cursor] reads on from the end of [t]. *)
Definition reads_on (k : nat) (cursor t : string) : Prop :=
  exists p f more, open_cursor local gunzip os_error checksumHex unmarshalCursor logs (with_cursor cursor) (views k) =
      Ok (cursor_at (Z.of_nat (len t)), [p]) /\
    lv_dir (views k) !! p = Some f /\ f_content f = t +:+ more.

Lemma first_entry_fields : sf_Compressed first_entry = false /\ sf_Name first_entry = Base path /\ sf_Size first_entry = f_size f0 /\
  lv_ident (views 0) (Base path) = (sf_Device first_entry, sf_Inode first_entry).
Proof. unfold first_entry, plainAdminLogSnapshot. by destruct (lv_ident (views 0) (Base path)). Qed.

Lemma reads_first : reads_on 0 "" (f_content f0).
Proof.
  exists (Base path), f0, "". split; [|by rewrite str_app_nil_r]. unfold open_cursor, snapshotAdminLogFiles. cbn [lq_Cursor with_cursor].
  change ("" == "") with true. cbv iota. rewrite Hf0, Hregular, Halone. cbn -[Base log_path plainAdminLogSnapshot].
  fold first_entry. unfold adminLogSnapshotContentSize. destruct first_entry_fields as (-> & _ & -> & _). done.
Qed.

(** A cursor of an earlier page opens what its file is found to be now. *)
Lemma cursor_opens k n :
  let cursor := encodeCursor (cursor_at n) in
  open_cursor local gunzip os_error checksumHex unmarshalCursor logs (with_cursor cursor) (views k) =
  names ← resolve_entries (views k) true (log_candidates local path (views k)) [first_entry]; Ok (cursor_at n, names).
Proof.
  destruct first_entry_fields as (Hcompressed & Hname & _).
  cbv zeta. unfold open_cursor. cbn [lq_Cursor with_cursor]. destruct (_ == "") eqn:E.
  { breflect. specialize (Hcursor (cursor_at n)). rewrite E in Hcursor. congruence. }
  unfold decodeAdminLogCursor. rewrite Hcursor. cbn [lc_Version cursor_at]. rewrite Z.eqb_refl. cbn [mbind result_bind].
  assert (cursor_matches checksumHex (cursor_at n) (with_cursor (encodeCursor (cursor_at n))) = true) as ->.
  { unfold cursor_matches. cbn. by rewrite !String.eqb_refl, !Z.eqb_refl. }
  cbn [mbind result_bind require]. unfold resolveAdminLogSnapshot. cbn [lc_Files cursor_at].
  by rewrite Hcompressed, Hname, String.eqb_refl.
Qed.

Lemma stale_again k n : gone (lv_ident (views 0) (Base path)) (views (S k)) ->
  readPage (with_cursor (encodeCursor (cursor_at n))) (views (S k)) = Some (Err LogCursorStale).
Proof.
  intros [Hlog Harchives]. destruct first_entry_fields as (Hcompressed & Hname & _ & Hident).
  unfold readAdminLogPage. rewrite cursor_opens. cbn [resolve_entries]. rewrite Hname, Hplain. cbn [negb].
  destruct (find_candidate _ _) as [[c rest]|] eqn:E; [|done]. exfalso. apply find_candidate_Some in E as [Hin Hm].
  unfold candidate_matches in Hm. rewrite Hcompressed in Hm. apply andb_true_iff in Hm as [Hplain_c%bool_decide_eq_true Hm].
  assert (lv_ident (views (S k)) (cd_name c) = lv_ident (views 0) (Base path)) as Hid.
  { rewrite Hident. destruct (lv_ident (views (S k)) (cd_name c)) as [dev ino]. f_equal; breflect; lia. }
  unfold log_candidates in Hin. apply elem_of_app in Hin as [Hin|Hin].
  - destruct (lv_dir (views (S k)) !! Base path) as [g|] eqn:Eg; [|by apply elem_of_nil in Hin].
    destruct (f_regular g); [|by apply elem_of_nil in Hin]. apply list_elem_of_singleton in Hin as ->. by apply (Hlog g).
  - apply list_elem_of_omap in Hin as (a & Ha & Ea). destruct (lv_dir (views (S k)) !! ar_Name a) as [g|] eqn:Eg; [|done].
    cbn in Ea. destruct (f_regular g); [|done]. injection Ea as <-. by apply (Harchives a).
Qed.

Lemma reads_again k t more : still k -> f_content f0 = t +:+ more -> reads_on (S k) (encodeCursor (cursor_at (Z.of_nat (len t)))) t.
Proof.
  intros Hstill Et. destruct Hstill as (p & f & Hf & Hreg & Hid & [more' Hc] & Hwhere & Honly).
  exists p, f, (more +:+ more'). rewrite Hc, Et, <- str_app_assoc. split; [|done].
  destruct first_entry_fields as (Hcompressed & Hname & Hsize & Hident).
  rewrite cursor_opens. cbn [resolve_entries].
  rewrite Hname, Hplain. cbn [negb].
  destruct (find_candidate_named (candidate_matches (views (S k)) true first_entry) (log_candidates local path (views (S k)))
    (mkCandidate p false f)) as (c & rest & -> & Hcd).
  - unfold log_candidates. destruct Hwhere as [->|(a & Ha & <- & Hac)]; [rewrite Hf, Hreg; by left|].
    apply elem_of_app. right. apply list_elem_of_omap. exists a. split; [done|]. rewrite Hf. cbn. by rewrite Hreg, Hac.
  - unfold candidate_matches. cbn [cd_compressed cd_name cd_file]. rewrite Hcompressed, Hid, Hident, Hsize.
    rewrite !Z.eqb_refl. cbn. unfold f_size. rewrite Hc, str_len_app. apply Z.leb_le. lia.
  - intros c Hc' Hm. unfold candidate_matches in Hm. rewrite Hcompressed in Hm. apply Honly.
    + unfold log_candidates in Hc'. apply elem_of_app in Hc' as [Hin|Hin].
      * destruct (lv_dir (views (S k)) !! Base path) as [g|] eqn:Eg; [|by apply elem_of_nil in Hin].
        destruct (f_regular g); [|by apply elem_of_nil in Hin]. apply list_elem_of_singleton in Hin as ->. by exists g.
      * apply list_elem_of_omap in Hin as (a & _ & Ea). destruct (lv_dir (views (S k)) !! ar_Name a) as [g|] eqn:Eg; [|done].
        cbn in Ea. destruct (f_regular g); [|done]. injection Ea as <-. by exists g.
    + destruct (lv_ident (views (S k)) (cd_name c)) as [dev ino]. apply andb_true_iff in Hm as [_ Hm].
      rewrite Hident. f_equal; breflect; lia.
  - cbn. by rewrite Hcd.
Qed.

Lemma still_not_gone k : still k -> gone (lv_ident (views 0) (Base path)) (views (S k)) -> False.
Proof.
  intros (p & f & Hf & _ & Hid & _ & [->|(a & Ha & <- & Hac)] & _) [Hlog Harchives]; [by apply (Hlog f)|by apply (Harchives a)].
Qed.

(** Request [k] gives the matching lines at the end of [t], and the cursor for those before. *)
Lemma page_step k cursor t more : f_content f0 = t +:+ more -> (t = f_content f0 \/ whole t) -> reads_on k cursor t ->
  exists page pre suf, readPage (with_cursor cursor) (views k) = Some (Ok page) /\
    t = pre +:+ suf /\ whole pre /\ lp_Items page = wanted_items toLower toUpper query suf /\
    (pre = "" /\ lp_HasMore page = false \/
     (len pre < len t)%nat /\ lp_HasMore page = true /\ lp_NextCursor page = encodeCursor (cursor_at (Z.of_nat (len pre)))).
Proof.
  intros Et Hend (p & f & more' & Hopen & Hf & Hc). destruct first_entry_fields as (Hcompressed & _ & Hsize & _).
  assert (Forall (fun raw => timed toUpper raw /\ Z.of_nat (len raw) + 2 <= lq_MaxBytes query) (split_lines t)) as H.
  { destruct Hend as [->|Hw]; [done|]. rewrite Et, split_lines_app, Forall_app in Hlines by done. apply Hlines. }
  apply Forall_and in H as [Htimed Hlong].
  destruct (page_single toLower toUpper (with_cursor cursor) gunzip os_error (alr_MaxSizeMB (al_Rotation logs)) (views k) p first_entry f
    Hf Hcompressed Hlimit t more' 0 0 0) as (st & pre & suf & Hloop & Ecut & Hw & Hi & Hnext); try done.
  { rewrite Hsize. unfold f_size. rewrite Et, str_len_app. lia. }
  unfold readAdminLogPage. rewrite Hopen. cbn [lc_Files lc_FileIndex lc_NextEnd cursor_at]. cbn [length]. rewrite Hloop.
  eexists _, pre, suf. split; [reflexivity|]. cbn [lp_Items lp_HasMore lp_NextCursor]. split_and!; [done..|].
  destruct Hnext as [[-> ->]|(Hpre & Hsuf & -> & ->)]; [by left|right]. split_and!; [|done|done].
  rewrite Ecut, str_len_app. destruct suf; [done|cbn; lia].
Qed.

(** The pages hold the lines at the end of [t]; all of them unless the cursor went stale. *)
Lemma follow_all fuel k cursor t more : f_content f0 = t +:+ more -> (t = f_content f0 \/ whole t) -> reads_on k cursor t ->
  (len t < fuel)%nat ->
  exists pages complete older, follow_pages fuel k cursor = Some (pages, complete) /\
    wanted_items toLower toUpper query t = older ++ concat (map lp_Items (rev pages)) /\
    (complete = true -> older = []) /\ ((forall k, still k) -> complete = true).
Proof.
  revert k cursor t more. induction fuel as [|fuel IH]; intros k cursor t more Et Hend Hreads Hfuel; [lia|].
  destruct (page_step k cursor t more Et Hend Hreads) as (page & pre & suf & Hp & -> & Hw & Hi & [[-> Hmore]|(Hlt & Hmore & Hnext)]).
  - exists [page], true, []. cbn [follow_pages]. rewrite Hp, Hmore. split; [done|]. cbn. by rewrite app_nil_r, Hi.
  - cbn [follow_pages]. rewrite Hp, Hmore, Hnext, wanted_app by done. destruct (Hfate k) as [Hstill|Hgone].
    + destruct (IH (S k) (lp_NextCursor page) pre (suf +:+ more)) as (pages & complete & older & Hf & Hitems & Hall & Hend');
        [by rewrite str_app_assoc|by right| |lia|].
      { rewrite Hnext. apply (reads_again k pre (suf +:+ more) Hstill). by rewrite str_app_assoc. }
      rewrite Hnext in Hf. exists (page :: pages), complete, older. rewrite Hf. split_and!; try done.
      cbn [rev]. rewrite map_app, concat_app, Hitems. cbn. by rewrite Hi, app_nil_r, app_assoc.
    + exists [page], false, (wanted_items toLower toUpper query pre). destruct fuel as [|fuel]; [lia|]. cbn [follow_pages].
      rewrite (stale_again k _ Hgone). split_and!; [done| |done|].
      * cbn. by rewrite app_nil_r, Hi.
      * intros H. exfalso. by eapply still_not_gone.
Qed.

(** C15: the pages of a log.  The log file is the only one of its logs at the first request
    (with archives a line may be cut at the border of two files: [boundary_line_cut]); every
    line has a time of its own and fits a page with the newline before and after it; from
    then on the file may grow, be renamed by a rotation, be compressed or be removed, but no
    other file gets its identity.  Then a client that follows the cursors comes to an end,
    and from the last page to the first it holds matching lines that the file had at the
    first request, in its order, each once: all of them, or the newest ones and the answer
    that the cursor is stale.  As long as the file is still there and not compressed, under
    whatever name, they are all. *)
Theorem pages_exact : exists pages complete older,
  follow_pages (S (len (f_content f0))) 0 "" = Some (pages, complete) /\
  map ll_Item (filterAdminLogLines toLower toUpper (number_lines toUpper 0 None (split_lines (f_content f0))) query) =
    older ++ concat (map lp_Items (rev pages)) /\
  (complete = true -> older = []) /\ ((forall k, still k) -> complete = true).
Proof.
  pose proof Hlines as H. apply Forall_and in H as [Htimed _]. rewrite number_wanted by done.
  apply (follow_all _ _ _ _ ""); [by rewrite str_app_nil_r|by left|apply reads_first|lia].
Qed.
End follow.

(** ** An example *)

#[local] Instance snapshotFile_eq : EqDecision adminLogSnapshotFile.
Proof. solve_decision. Defined.
#[local] Instance snapshotFile_countable : Countable adminLogSnapshotFile.
Proof.
  refine (inj_countable' (fun e => (sf_Name e, sf_Compressed e, sf_Device e, sf_Inode e, sf_Size e, sf_ModTime e))
    (fun x => let '(a, b, c, d, e, f) := x in mkAdminLogSnapshotFile a b c d e f) _). by intros [].
Defined.
#[local] Instance cursor_eq : EqDecision adminLogCursor.
Proof. solve_decision. Defined.
#[local] Instance cursor_countable : Countable adminLogCursor.
Proof.
  refine (inj_countable' (fun c => (lc_Version c, lc_Files c, lc_FileIndex c, lc_NextEnd c, lc_Since c, lc_Until c, lc_Limit c,
      lc_MaxBytes c, lc_FilterHash c))
    (fun x => let '(a, b, c, d, e, f, g, h, i) := x in mkAdminLogCursor a b c d e f g h i) _). by intros [].
Defined.
Definition ex_encode : adminLogCursor -> string := text_of.
Definition ex_unmarshal : string -> option adminLogCursor := of_text.
Definition ex_line (n msg : string) : string := "time=2024-03-01T10:00:0" +:+ n +:+ "Z level=INFO msg=" +:+ msg +:+ bytes [10%N].
Definition ex_content : string := ex_line "1" "one" +:+ ex_line "2" "two" +:+ ex_line "3" "three".
Definition ex_log (content : string) : logFile := mkLogFile content (date_utc 2024 3 1 10 0 9 0) true.
(** The first request, the file grown, and the file rotated *)
Definition ex_views (k : nat) : logFiles :=
  match k with
  | O => mkLogFiles {["syrogo.log" := ex_log ex_content]} (fun _ => (1, 7))
  | 1%nat => mkLogFiles {["syrogo.log" := ex_log (ex_content +:+ ex_line "4" "four")]} (fun _ => (1, 7))
  | _ => mkLogFiles {["syrogo.20240301-100009.000000000.1.log" := ex_log (ex_content +:+ ex_line "4" "four")]} (fun _ => (1, 7))
  end.
Definition ex_logs : AdminLogsConfig := mkAdminLogsConfig true "logs/syrogo.log" 0 (mkAdminLogsRotationConfig 0 0 0 0 None).
Definition ex_query (limit : Z) : adminLogQuery := mkAdminLogQuery 0 (date_utc 2024 3 1 11 0 0 0) limit 60 "" [] [] [] [] [] [] [].

Lemma ex_still k : still_there UTC ex_logs (1, 7) ex_content (ex_views (S k)).
Proof.
  assert (forall more, exists m, f_content (ex_log (ex_content +:+ more)) = ex_content +:+ m) as Hmore by by eexists.
  destruct k as [|k]; eexists _, (ex_log (ex_content +:+ ex_line "4" "four")); (split; [apply lookup_singleton_Some; split; reflexivity|]);
    (split; [done|]; split; [done|]; split; [apply Hmore|]; split; [|intros q [g Hg] _; cbn [ex_views lv_dir] in Hg; by apply lookup_singleton_Some in Hg as [-> _]]).
  - by left.
  - right. assert (map (fun a => (ar_Name a, ar_Compressed a)) (DiscoverArchives UTC "logs/syrogo.log" (lv_dir (ex_views 2))) =
      [("syrogo.20240301-100009.000000000.1.log", false)]) as H by by vm_compute.
    change (log_path ex_logs) with "logs/syrogo.log". change (lv_dir (ex_views (S (S k)))) with (lv_dir (ex_views 2)).
    destruct (DiscoverArchives UTC "logs/syrogo.log" (lv_dir (ex_views 2))) as [|a [|b l]]; try done.
    injection H as H1 H2. exists a. split; [by left|done].
Qed.

Lemma ex_lines : Forall (fun raw => timed id raw /\ Z.of_nat (len raw) + 2 <= 60) (split_lines ex_content).
Proof.
  assert (forallb (fun raw => match item_time (line_item id raw) with Some _ => true | None => false end &&
    (Z.of_nat (len raw) + 2 <=? 60)) (split_lines ex_content) = true) as H by by vm_compute.
  rewrite forallb_forall in H. apply Forall_forall. intros raw Hin. specialize (H raw (proj1 (list_elem_of_In _ _) Hin)).
  apply andb_true_iff in H as [H Hn]. split; [|by apply Z.leb_le]. unfold timed. by destruct (item_time _).
Qed.

Lemma pages_exact_witness : exists pages,
  follow_pages ToLower id (ex_query 2) UTC (fun _ => Err "") id id ex_encode ex_unmarshal ex_logs ex_views (S (len ex_content)) 0 "" = Some (pages, true) /\
  map ll_Item (filterAdminLogLines ToLower id (number_lines id 0 None (split_lines ex_content)) (ex_query 2)) =
  concat (map lp_Items (rev pages)).
Proof.
  destruct (pages_exact ToLower id (ex_query 2) UTC (fun _ => Err "") id id ex_encode ex_unmarshal ex_logs ex_views) with (f0 := ex_log ex_content)
    as (pages & complete & older & Hf & Hi & Hall & Hend).
  - done.
  - done.
  - by vm_compute.
  - done.
  - by vm_compute.
  - by vm_compute.
  - exact ex_lines.
  - intros k. left. apply ex_still.
  - intros c. apply of_text_of.
  - done.
  - exists pages. rewrite (Hend ex_still) in Hf, Hall. rewrite Hall in Hi by done. by split.
Defined.

(** With the compression of a rotation, as it is by default, a client that is not done is
    told to start again. *)
Definition ex_compressed (k : nat) : logFiles :=
  match k with
  | O => ex_views 0
  | _ => mkLogFiles {["syrogo.20240301-100009.000000000.1.log.gz" := ex_log "gzip"]} (fun _ => (1, 8))
  end.
Lemma ex_gone k : gone UTC ex_logs (1, 7) (ex_compressed (S k)).
Proof. split; [intros f _|intros a _ _]; discriminate. Qed.
Example compressed_is_stale :
  ('(pages, complete) ← follow_pages ToLower id (ex_query 2) UTC (fun _ => Err "") id id ex_encode ex_unmarshal ex_logs ex_compressed 9 0 "";
   Some (map (fun p => map li_Content (lp_Items p)) pages, complete)) =
  Some ([["time=2024-03-01T10:00:03Z level=INFO msg=three"]], false).
Proof. by vm_compute. Qed.

(** A line that fits a page is not shown when what the file before it left of the page is too
    small for it: only its beginning is, as a line of its own. *)
Definition ex_two_files : logFiles :=
  mkLogFiles (<["syrogo.log" := ex_log (ex_line "5" "new")]>
    {["syrogo.20240301-100009.000000000.1.log" := ex_log (ex_line "1" "a-longer-message")]})
    (fun name => (1, Z.of_nat (len name))).
Example boundary_line_cut :
  ('(pages, _) ← follow_pages ToLower id (ex_query 5) UTC (fun _ => Err "") id id ex_encode ex_unmarshal ex_logs (fun _ => ex_two_files) 9 0 "";
   Some (map (fun p => map li_Content (lp_Items p)) pages)) =
  Some [["time=2024-03-01T10:00:05Z level=INFO msg=new"]; ["time=2024-03-01T10:00:01Z level=INFO msg=a-"]].
Proof. by vm_compute. Qed.
