(* ===== verification/QuotaEvents.v ===== *)
(** * Quota events

    Models [internal/quota/events.go]: the bounded log of governance events.  A
    recorder is an [option EventRecorder] ([None] is the nil pointer of a disabled
    log); each method holds its mutex. *)

From S2P Require Import Prelude GoStrings GoTime ConfigTypes QuotaWindow.

(** ** Definitions *)

Definition EventClientLimited := "client_limited".
Definition EventOutboundLimited := "outbound_limited".
Definition EventOutboundQuotaExceeded := "outbound_quota_exceeded".
Definition EventOutboundProbeSucceeded := "outbound_probe_succeeded".
Definition EventProviderHealthLimited := "provider_health_limited".
Definition EventProviderProbeSucceeded := "provider_probe_succeeded".

Record Event := mkEvent {
  e_Time : string;
  e_Type : string;
  e_Client : string;
  e_Inbound : string;
  e_Outbound : string;
  e_Reason : string;
  e_RetryAfter : string
}.

Record EventRecorder := mkEventRecorder { er_maxEntries : nat; er_events : list Event }.

Definition newEventRecorder (maxEntries : Z) : option EventRecorder :=
  if maxEntries <=? 0 then None else Some (mkEventRecorder (Z.to_nat maxEntries) []).
Definition NewEventRecorder (cfg : GovernanceQuotaEventsConfig) : option EventRecorder :=
  if negb (gqe_Enabled cfg) then None else newEventRecorder (gqe_MaxEntries cfg).

Definition stamp (e : Event) (now : Time) : Event :=
  mkEvent (if e_Time e == "" then formatTime now else e_Time e) (e_Type e) (e_Client e) (e_Inbound e)
    (e_Outbound e) (e_Reason e) (e_RetryAfter e).

(** A full log shifts by one and overwrites its last entry. *)
Definition RecordEvent (r : option EventRecorder) (e : Event) (now : Time) : option EventRecorder :=
  match r with
  | None => None
  | Some r =>
      let e := stamp e now in
      if (length (er_events r) =? er_maxEntries r)%nat then
        Some (mkEventRecorder (er_maxEntries r)
          (take (length (er_events r) - 1) (drop 1 (er_events r)) ++ [e]))
      else Some (mkEventRecorder (er_maxEntries r) (er_events r ++ [e]))
  end.

Definition EventsSnapshot (r : option EventRecorder) : list Event :=
  match r with None => [] | Some r => er_events r end.

(** ** Properties *)

Definition record_events (r : option EventRecorder) (l : list (Event * Time)) : option EventRecorder :=
  foldl (fun r '(e, now) => RecordEvent r e now) r l.

Lemma RecordEvent_keep_last n l e now :
  n <> 0%nat -> (length l <= n)%nat ->
  RecordEvent (Some (mkEventRecorder n l)) e now =
  Some (mkEventRecorder n (keep_last n (l ++ [stamp e now]))).
Proof.
  intros Hn Hl. unfold RecordEvent. cbn [er_events er_maxEntries]. f_equal.
  destruct (Nat.eqb_spec (length l) n) as [E|E]; f_equal; unfold keep_last; rewrite length_app; cbn [length].
  - replace (length l + 1 - n)%nat with 1%nat by lia. rewrite drop_app_le by lia.
    rewrite take_ge; [done|]. rewrite length_drop. lia.
  - by replace (length l + 1 - n)%nat with 0%nat by lia.
Qed.

(** The event log keeps the newest events.  After any events, a log for [n]
    entries holds the last [n] of them in order, each with a time, and a disabled log
    holds none. *)
Theorem event_log_newest n l :
  EventsSnapshot (record_events (newEventRecorder n) l) =
  if n <=? 0 then [] else keep_last (Z.to_nat n) (map (fun '(e, now) => stamp e now) l).
Proof.
  unfold newEventRecorder. destruct (Z.leb_spec n 0) as [Hn|Hn].
  - enough (record_events None l = None) as -> by done. by induction l as [|[e now] l IH].
  - set (k := Z.to_nat n). assert (k <> 0%nat) as Hk by lia. clearbody k. clear Hn n.
    enough (record_events (Some (mkEventRecorder k [])) l =
      Some (mkEventRecorder k (keep_last k (map (fun '(e, now) => stamp e now) l)))) as -> by done.
    induction l as [|[e now] l IH] using rev_ind; [done|]. unfold record_events.
    rewrite foldl_snoc. fold (record_events (Some (mkEventRecorder k [])) l). rewrite IH, map_app.
    rewrite RecordEvent_keep_last by (done || rewrite keep_last_length; lia).
    by rewrite keep_last_snoc.
Qed.
