(* ===== verification/Latency.v ===== *)
(** * Latency traces

    Models [internal/latency/latency.go]: the recorder that builds the trace of one
    request, the store of active and finished traces, and the summary of durations.

    A recorder and a store are [option]s ([None] is the nil pointer); a recorder's
    [store] field is the store it is used with here.  A recorder's method changes the
    trace under the recorder's mutex, then copies it to the store's active traces;
    a method is modelled as both in order.  Copies of traces ([cloneTrace]) are
    values. *)

From S2P Require Import Prelude GoStrings GoTime GoTimeFacts RuntimeModel.

(** ** Data *)

Definition StreamStateRouting := "routing".
Definition StreamStateDispatching := "dispatching".
Definition StreamStateWaitingFirstToken := "waiting_first_token".
Definition StreamStateStreaming := "streaming".
Definition StreamStateCompleted := "completed".
Definition StreamStateError := "error".

Record PlanStep := mkPlanStep {
  ps_OutboundName : string; ps_OutboundProtocol : string; ps_Model : string; ps_OnError : string
}.

Record Span := mkSpan {
  span_Name : string; span_StartedAt : string; span_DurationMs : Z; span_Attrs : gmap string string
}.

Record Trace := mkTrace {
  tr_RequestID : string; tr_Method : string; tr_Path : string; tr_Inbound : string;
  tr_InboundProtocol : string; tr_ClientName : string; tr_ActiveTag : string; tr_MatchedRule : string;
  tr_Strategy : string; tr_ResolvedToTags : list string; tr_PlannedSteps : list PlanStep;
  tr_FallbackCount : Z; tr_Status : Z; tr_ErrorKind : string; tr_StartedAt : string;
  tr_FinishedAt : string; tr_DurationMs : Z; tr_Spans : list Span; tr_Streaming : bool;
  tr_StreamState : string; tr_OutboundName : string; tr_OutboundProtocol : string;
  tr_ProviderSelectedAt : string; tr_FirstTokenAt : string; tr_TTFTMs : Z;
  tr_LastStreamEventAt : string; tr_StreamEventCount : Z
}.

Record Recorder := mkRecorder { rec_trace : Trace; rec_startedAt : Time }.

Record TraceStore := mkTraceStore {
  lat_limit : Z;
  lat_traces : list Trace;
  lat_active : gmap string Trace
}.

Record SummaryItem := mkSummaryItem {
  sum_Count : Z; sum_AvgMs : Z; sum_P50Ms : Z; sum_P95Ms : Z; sum_P99Ms : Z; sum_MaxMs : Z
}.
Record Summary := mkSummary {
  summary_Count : Z; summary_Total : SummaryItem; summary_Spans : gmap string SummaryItem
}.

(** ** The store *)

Definition NewTraceStore (limit : Z) : TraceStore :=
  mkTraceStore (if limit <=? 0 then 200 else limit) [] ∅.

Definition recordLocked (s : TraceStore) (trace : Trace) : TraceStore :=
  mkTraceStore (lat_limit s) (keep_last (Z.to_nat (lat_limit s)) (lat_traces s ++ [trace])) (lat_active s).
Definition RecordTrace (s : option TraceStore) (trace : Trace) : option TraceStore :=
  (fun s => recordLocked s trace) <$> s.

Definition updateActive (s : option TraceStore) (trace : Trace) : option TraceStore :=
  match s with
  | None => None
  | Some st =>
      if tr_RequestID trace == "" then s
      else Some (mkTraceStore (lat_limit st) (lat_traces st) (<[tr_RequestID trace := trace]> (lat_active st)))
  end.

Definition finish (s : option TraceStore) (trace : Trace) : option TraceStore :=
  (fun st => recordLocked (mkTraceStore (lat_limit st) (lat_traces st)
                             (delete (tr_RequestID trace) (lat_active st))) trace) <$> s.

Definition ActiveTraces (s : option TraceStore) : list Trace :=
  match s with
  | None => []
  | Some s => sort_by (fun a b => String.ltb (tr_StartedAt a) (tr_StartedAt b)) (map snd (map_to_list (lat_active s)))
  end.
Definition TracesSnapshot (s : option TraceStore) : list Trace :=
  match s with None => [] | Some s => lat_traces s end.

(** ** The recorder *)

Abbreviation lat := (option Recorder * option TraceStore)%type.

Definition syncActive (r : option Recorder) (s : option TraceStore) : option TraceStore :=
  match r with None => s | Some r => updateActive s (rec_trace r) end.

(** The methods that change the trace and copy it to the active ones *)
Definition mutate (f : Recorder -> Trace) (l : lat) : lat :=
  match l with
  | (None, s) => (None, s)
  | (Some r, s) =>
      let r := Some (mkRecorder (f r) (rec_startedAt r)) in
      (r, syncActive r s)
  end.

Definition Start (s : option TraceStore) (requestID method path : string) (startedAt now : Time) : lat :=
  let startedAt := if IsZero startedAt then now else startedAt in
  let trace := mkTrace requestID method path "" "" "" "" "" "" [] [] 0 0 ""
    (format_rfc3339nano startedAt) "" 0 [] false "" "" "" "" "" 0 "" 0 in
  let r := Some (mkRecorder trace startedAt) in
  (r, syncActive r s).

Definition set_route (t : Trace) (inbound protocol clientName activeTag : string) : Trace :=
  mkTrace (tr_RequestID t) (tr_Method t) (tr_Path t) inbound protocol clientName activeTag
    (tr_MatchedRule t) (tr_Strategy t) (tr_ResolvedToTags t) (tr_PlannedSteps t) (tr_FallbackCount t)
    (tr_Status t) (tr_ErrorKind t) (tr_StartedAt t) (tr_FinishedAt t) (tr_DurationMs t) (tr_Spans t)
    (tr_Streaming t) (tr_StreamState t) (tr_OutboundName t) (tr_OutboundProtocol t)
    (tr_ProviderSelectedAt t) (tr_FirstTokenAt t) (tr_TTFTMs t) (tr_LastStreamEventAt t)
    (tr_StreamEventCount t).
Definition set_plan (t : Trace) (matchedRule strategy : string) (tags : list string)
    (steps : list PlanStep) : Trace :=
  mkTrace (tr_RequestID t) (tr_Method t) (tr_Path t) (tr_Inbound t) (tr_InboundProtocol t)
    (tr_ClientName t) (tr_ActiveTag t) matchedRule strategy tags steps (tr_FallbackCount t)
    (tr_Status t) (tr_ErrorKind t) (tr_StartedAt t) (tr_FinishedAt t) (tr_DurationMs t) (tr_Spans t)
    (tr_Streaming t) (tr_StreamState t) (tr_OutboundName t) (tr_OutboundProtocol t)
    (tr_ProviderSelectedAt t) (tr_FirstTokenAt t) (tr_TTFTMs t) (tr_LastStreamEventAt t)
    (tr_StreamEventCount t).
Definition set_outcome (t : Trace) (fallbackCount status : Z) (errorKind finishedAt : string)
    (durationMs : Z) (spans : list Span) : Trace :=
  mkTrace (tr_RequestID t) (tr_Method t) (tr_Path t) (tr_Inbound t) (tr_InboundProtocol t)
    (tr_ClientName t) (tr_ActiveTag t) (tr_MatchedRule t) (tr_Strategy t) (tr_ResolvedToTags t)
    (tr_PlannedSteps t) fallbackCount status errorKind (tr_StartedAt t) finishedAt durationMs spans
    (tr_Streaming t) (tr_StreamState t) (tr_OutboundName t) (tr_OutboundProtocol t)
    (tr_ProviderSelectedAt t) (tr_FirstTokenAt t) (tr_TTFTMs t) (tr_LastStreamEventAt t)
    (tr_StreamEventCount t).
Definition set_stream (t : Trace) (streaming : bool) (state outbound protocol selectedAt firstTokenAt : string)
    (ttft : Z) (lastEventAt : string) (count : Z) : Trace :=
  mkTrace (tr_RequestID t) (tr_Method t) (tr_Path t) (tr_Inbound t) (tr_InboundProtocol t)
    (tr_ClientName t) (tr_ActiveTag t) (tr_MatchedRule t) (tr_Strategy t) (tr_ResolvedToTags t)
    (tr_PlannedSteps t) (tr_FallbackCount t) (tr_Status t) (tr_ErrorKind t) (tr_StartedAt t)
    (tr_FinishedAt t) (tr_DurationMs t) (tr_Spans t) streaming state outbound protocol selectedAt
    firstTokenAt ttft lastEventAt count.
Definition set_spans (t : Trace) (spans : list Span) : Trace :=
  set_outcome t (tr_FallbackCount t) (tr_Status t) (tr_ErrorKind t) (tr_FinishedAt t) (tr_DurationMs t) spans.

Definition SetRoute (inbound protocol clientName activeTag : string) : lat -> lat :=
  mutate (fun r => set_route (rec_trace r) inbound protocol clientName activeTag).

Definition SetPlan (plan : ExecutionPlan) : lat -> lat :=
  mutate (fun r => set_plan (rec_trace r) (plan_MatchedRule plan) (plan_Strategy plan)
    (plan_ResolvedToTags plan)
    (map (fun s => mkPlanStep (st_OutboundName s) (st_OutboundProtocol s) (st_Model s) (st_OnError s))
       (plan_Steps plan))).

Definition SetFallbackCount (count : Z) (l : lat) : lat :=
  if count <=? 0 then l
  else mutate (fun r => let t := rec_trace r in
    set_outcome t count (tr_Status t) (tr_ErrorKind t) (tr_FinishedAt t) (tr_DurationMs t) (tr_Spans t)) l.

Definition SetErrorKind (errorKind : string) (l : lat) : lat :=
  if errorKind == "" then l
  else mutate (fun r => let t := rec_trace r in
    set_outcome t (tr_FallbackCount t) (tr_Status t) errorKind (tr_FinishedAt t) (tr_DurationMs t) (tr_Spans t)) l.

(** Attributes without a value are left out. *)
Definition AddSpan (name : string) (startedAt : Time) (attrs : gmap string string) (now : Time) (l : lat) : lat :=
  if (name == "") || IsZero startedAt then l
  else
    let span := mkSpan name (format_rfc3339nano startedAt) (Milliseconds (Sub now startedAt))
                  (filter (fun p => p.2 <> "") attrs) in
    mutate (fun r => set_spans (rec_trace r) (tr_Spans (rec_trace r) ++ [span])) l.

Definition SetStreamState (state : string) (l : lat) : lat :=
  if state == "" then l
  else mutate (fun r => let t := rec_trace r in
    set_stream t true state (tr_OutboundName t) (tr_OutboundProtocol t) (tr_ProviderSelectedAt t)
      (tr_FirstTokenAt t) (tr_TTFTMs t) (tr_LastStreamEventAt t) (tr_StreamEventCount t)) l.

Definition SetProvider (outbound protocol : string) (selectedAt now : Time) : lat -> lat :=
  let selectedAt := if IsZero selectedAt then now else selectedAt in
  mutate (fun r => let t := rec_trace r in
    set_stream t true (tr_StreamState t) outbound protocol (format_rfc3339nano selectedAt)
      (tr_FirstTokenAt t) (tr_TTFTMs t) (tr_LastStreamEventAt t) (tr_StreamEventCount t)).

Definition MarkStreamEvent (at_ now : Time) : lat -> lat :=
  let at_ := if IsZero at_ then now else at_ in
  mutate (fun r => let t := rec_trace r in
    set_stream t (tr_Streaming t) (tr_StreamState t) (tr_OutboundName t) (tr_OutboundProtocol t)
      (tr_ProviderSelectedAt t) (tr_FirstTokenAt t) (tr_TTFTMs t) (format_rfc3339nano at_)
      (i64 (tr_StreamEventCount t + 1))).

Definition first_token_trace (at_ : Time) (r : Recorder) : Trace :=
  let t := rec_trace r in
  let ttft := Milliseconds (Sub at_ (rec_startedAt r)) in
  let span := mkSpan "time_to_first_token" (format_rfc3339nano (rec_startedAt r)) ttft
    {[ "outbound" := tr_OutboundName t; "protocol" := tr_OutboundProtocol t ]} in
  set_spans
    (set_stream t (tr_Streaming t) StreamStateStreaming (tr_OutboundName t) (tr_OutboundProtocol t)
       (tr_ProviderSelectedAt t) (format_rfc3339nano at_) ttft (tr_LastStreamEventAt t)
       (tr_StreamEventCount t))
    (tr_Spans t ++ [span]).
Definition MarkFirstToken (at_ now : Time) (l : lat) : lat :=
  match l with
  | (Some r, s) =>
      if tr_FirstTokenAt (rec_trace r) != "" then l
      else mutate (first_token_trace (if IsZero at_ then now else at_)) l
  | _ => l
  end.

Definition Finish (status : Z) (finishedAt now : Time) (l : lat) : lat :=
  match l with
  | (None, s) => (None, s)
  | (Some r, s) =>
      let finishedAt := if IsZero finishedAt then now else finishedAt in
      let t := rec_trace r in
      let t := set_outcome t (tr_FallbackCount t) status (tr_ErrorKind t) (format_rfc3339nano finishedAt)
                 (Milliseconds (Sub finishedAt (rec_startedAt r))) (tr_Spans t) in
      (Some (mkRecorder t (rec_startedAt r)), finish s t)
  end.

(** ** Summary *)

(** [sorted\[index-1\]] for [1 <= index <= len(sorted)] *)
Definition percentile (sorted : list Z) (p : Z) : Z :=
  let n := Z.of_nat (length sorted) in
  if n =? 0 then 0
  else
    let index := Z.quot (i64 (i64 (n * p) + 99)) 100 in
    let index := if index <? 1 then 1 else index in
    let index := if n <? index then n else index in
    nth (Z.to_nat (index - 1)) sorted 0.

Definition summarizeDurations (durations : list Z) : SummaryItem :=
  match durations with
  | [] => mkSummaryItem 0 0 0 0 0 0
  | _ =>
      let values := sort_by Z.ltb durations in
      let n := Z.of_nat (length values) in
      let sum := foldl (fun sum value => i64 (sum + value)) 0 values in
      mkSummaryItem n (Z.quot sum n) (percentile values 50) (percentile values 95) (percentile values 99)
        (nth (length values - 1) values 0)
  end.

Definition add_span_duration (m : gmap string (list Z)) (span : Span) : gmap string (list Z) :=
  <[span_Name span := default [] (m !! span_Name span) ++ [span_DurationMs span]]> m.

Definition StoreSummary (s : option TraceStore) : Summary :=
  let items := TracesSnapshot s in
  let spanDurations := foldl (fun m trace => foldl add_span_duration m (tr_Spans trace)) ∅ items in
  mkSummary (Z.of_nat (length items)) (summarizeDurations (map tr_DurationMs items))
    (summarizeDurations <$> spanDurations).

Example percentile_1 : percentile [1; 2; 3; 4] 50 = 2 /\ percentile [1; 2; 3; 4] 95 = 4.
Proof. vm_compute. done. Qed.

(** ** Methods as data *)

Inductive method :=
| MSetRoute (inbound protocol clientName activeTag : string)
| MSetPlan (plan : ExecutionPlan)
| MSetFallbackCount (count : Z)
| MSetErrorKind (errorKind : string)
| MAddSpan (name : string) (startedAt : Time) (attrs : gmap string string) (now : Time)
| MSetStreamState (state : string)
| MSetProvider (outbound protocol : string) (selectedAt now : Time)
| MMarkStreamEvent (at_ now : Time)
| MMarkFirstToken (at_ now : Time).

Definition run_method (l : lat) (m : method) : lat :=
  match m with
  | MSetRoute a b c d => SetRoute a b c d l
  | MSetPlan plan => SetPlan plan l
  | MSetFallbackCount count => SetFallbackCount count l
  | MSetErrorKind kind => SetErrorKind kind l
  | MAddSpan name startedAt attrs now => AddSpan name startedAt attrs now l
  | MSetStreamState state => SetStreamState state l
  | MSetProvider o p at_ now => SetProvider o p at_ now l
  | MMarkStreamEvent at_ now => MarkStreamEvent at_ now l
  | MMarkFirstToken at_ now => MarkFirstToken at_ now l
  end.
Definition run_methods (l : lat) (ms : list method) : lat := foldl run_method l ms.

(** ** Lemmas *)

(** Every method leaves the pair as it is or is one [mutate] that keeps the request,
    the start and, unless it is the first token, the first-token fields. *)
Lemma run_method_shape l m :
  run_method l m = l \/
  exists f, run_method l m = mutate f l /\ forall r,
    tr_RequestID (f r) = tr_RequestID (rec_trace r) /\
    tr_FirstTokenAt (f r) = match m with
      | MMarkFirstToken at_ now => format_rfc3339nano (if IsZero at_ then now else at_)
      | _ => tr_FirstTokenAt (rec_trace r) end /\
    tr_TTFTMs (f r) = match m with
      | MMarkFirstToken at_ now => Milliseconds (Sub (if IsZero at_ then now else at_) (rec_startedAt r))
      | _ => tr_TTFTMs (rec_trace r) end.
Proof.
  destruct m; cbn [run_method]; unfold SetRoute, SetPlan, SetFallbackCount, SetErrorKind, AddSpan,
    SetStreamState, SetProvider, MarkStreamEvent, MarkFirstToken;
    try (destruct l as [[r|] s]; [|by left]); repeat (case_match; [by left|]);
    right; eexists; (split; [reflexivity|]); done.
Qed.

(** The state of a request that has started and not finished *)
Record running (id : string) (startedAt : Time) (st0 : TraceStore) (l : lat) : Prop := {
  run_recorder : exists r st, l = (Some r, Some st) /\ tr_RequestID (rec_trace r) = id /\
    rec_startedAt r = startedAt /\ lat_active st = <[id := rec_trace r]> (lat_active st0) /\
    lat_traces st = lat_traces st0 /\ lat_limit st = lat_limit st0
}.

Lemma running_start st id method path startedAt now :
  id <> "" -> running id (if IsZero startedAt then now else startedAt) st
    (Start (Some st) id method path startedAt now).
Proof.
  intros Hid. split. unfold Start, syncActive, updateActive. cbn [rec_trace tr_RequestID].
  apply String.eqb_neq in Hid. rewrite Hid. do 2 eexists. split; [done|]. by repeat split.
Qed.

Lemma running_mutate id startedAt st0 l f :
  id <> "" -> (forall r, tr_RequestID (f r) = tr_RequestID (rec_trace r)) ->
  running id startedAt st0 l -> running id startedAt st0 (mutate f l).
Proof.
  intros Hid Hf [(r & st & -> & Hr & Hs & Ha & Ht & Hl)]. split. unfold mutate, syncActive, updateActive.
  cbn [rec_trace]. rewrite Hf, Hr. apply String.eqb_neq in Hid. rewrite Hid.
  do 2 eexists. split; [done|]. cbn [rec_trace rec_startedAt lat_active lat_traces lat_limit].
  rewrite Hf, Ha, insert_insert_eq. by repeat split.
Qed.

Lemma running_methods id startedAt st0 l ms :
  id <> "" -> running id startedAt st0 l -> running id startedAt st0 (run_methods l ms).
Proof.
  intros Hid. unfold run_methods. revert l. induction ms as [|m ms IH]; intros l Hl; [done|].
  cbn [foldl]. apply IH. destruct (run_method_shape l m) as [->|(f & -> & Hf)]; [done|].
  apply running_mutate; [done| |done]. intros r. apply Hf.
Qed.

(** The time of the first mark *)
Fixpoint first_mark (ms : list method) : option Time :=
  match ms with
  | [] => None
  | MMarkFirstToken at_ now :: _ => Some (if IsZero at_ then now else at_)
  | _ :: ms => first_mark ms
  end.

Definition token_fields (r : Recorder) : string * Z :=
  (tr_FirstTokenAt (rec_trace r), tr_TTFTMs (rec_trace r)).

(** One method, on the first-token fields *)
Lemma run_method_token r s m :
  exists r' s', run_method (Some r, s) m = (Some r', s') /\ rec_startedAt r' = rec_startedAt r /\
  token_fields r' =
    match m with
    | MMarkFirstToken at_ now =>
        if tr_FirstTokenAt (rec_trace r) == "" then
          let t := if IsZero at_ then now else at_ in
          (format_rfc3339nano t, Milliseconds (Sub t (rec_startedAt r)))
        else token_fields r
    | _ => token_fields r
    end.
Proof.
  destruct m; cbn [run_method]; unfold SetRoute, SetPlan, SetFallbackCount, SetErrorKind, AddSpan,
    SetStreamState, SetProvider, MarkStreamEvent, MarkFirstToken;
    repeat match goal with |- context [if ?b then (Some r, s) else _] => destruct b eqn:? end;
    try (do 2 eexists; split; [reflexivity|]; by split).
  - breflect. do 2 eexists. split; [reflexivity|]. split; [done|].
    by rewrite (proj2 (String.eqb_neq _ "")).
  - apply negb_false_iff in Heqb. rewrite Heqb. do 2 eexists. split; [reflexivity|]. by split.
Qed.

Lemma run_methods_token ms r s :
  exists r' s', run_methods (Some r, s) ms = (Some r', s') /\
  token_fields r' =
    match first_mark ms with
    | Some t => if tr_FirstTokenAt (rec_trace r) == "" then
                  (format_rfc3339nano t, Milliseconds (Sub t (rec_startedAt r)))
                else token_fields r
    | None => token_fields r
    end.
Proof.
  revert r s. induction ms as [|m ms IH]; intros r s; [by do 2 eexists|].
  unfold run_methods. cbn [foldl]. fold (run_methods (run_method (Some r, s) m) ms).
  destruct (run_method_token r s m) as (r1 & s1 & -> & Hst & Ht).
  destruct (IH r1 s1) as (r2 & s2 & -> & Ht2). exists r2, s2. split; [done|]. rewrite Ht2, Hst.
  assert (tr_FirstTokenAt (rec_trace r1) = (token_fields r1).1) as -> by done.
  destruct m; cbn [first_mark]; rewrite Ht; try done. cbn [token_fields fst].
  destruct (tr_FirstTokenAt (rec_trace r) == "") eqn:E; cbn [token_fields fst].
  - rewrite (proj2 (String.eqb_neq _ "") (format_nonempty _)). by destruct (first_mark ms).
  - rewrite E. by destruct (first_mark ms).
Qed.

(** ** Percentiles *)

Definition count_le (v : Z) (l : list Z) : Z := Z.of_nat (length (List.filter (fun x => x <=? v) l)).
Definition count_lt (v : Z) (l : list Z) : Z := Z.of_nat (length (List.filter (fun x => x <? v) l)).

Lemma sorted_counts l k v :
  StronglySorted Z.le l -> l !! k = Some v -> Z.of_nat k + 1 <= count_le v l /\ count_lt v l <= Z.of_nat k.
Proof.
  unfold count_le, count_lt. revert k. induction l as [|x l IH]; intros k Hs Hk; [done|].
  apply StronglySorted_inv in Hs as [Hs Hall]. destruct k as [|k]; cbn in Hk.
  - simplify_eq. cbn [List.filter]. rewrite Z.leb_refl, Z.ltb_irrefl. cbn [length]. split; [lia|].
    replace (List.filter (fun x => x <? v) l) with (@nil Z); [done|]. symmetry. clear IH Hs.
    induction Hall as [|y l Hy Hall IH]; [done|]. cbn. replace (y <? v) with false by lia. done.
  - specialize (IH k Hs Hk). apply list_elem_of_lookup_2 in Hk. rewrite Forall_forall in Hall.
    specialize (Hall v Hk). cbn [List.filter]. replace (x <=? v) with true by lia.
    destruct (x <? v); cbn [length]; lia.
Qed.

(** ** Properties *)

(** Percentiles are nearest-rank percentiles.  Of at least one duration in
    ascending order, the value reported as the [p]-th percentile is one of them; at
    least [p] percent are no greater, and fewer than [p] percent are smaller. *)
Theorem percentile_nearest_rank sorted p :
  StronglySorted Z.le sorted -> sorted <> [] -> 1 <= p <= 100 ->
  Z.of_nat (length sorted) * 100 + 99 <= max_int64 ->
  let n := Z.of_nat (length sorted) in
  let v := percentile sorted p in
  v ∈ sorted /\ p * n <= 100 * count_le v sorted /\ 100 * count_lt v sorted < p * n.
Proof.
  intros Hs Hne Hp Hn n v.
  assert (0 < n) as Hpos by (destruct sorted; [done|cbn in n; subst n; cbn; lia]).
  assert (exists k, (k < length sorted)%nat /\ v = nth k sorted 0 /\
    p * n <= 100 * (Z.of_nat k + 1) /\ 100 * Z.of_nat k < p * n) as (k & Hk & Hv & Hlo & Hhi).
  { unfold v, percentile. fold n. replace (n =? 0) with false by lia.
    rewrite (i64_id (n * p)), i64_id by (unfold in_i64, min_int64; fold n in Hn; nia).
    rewrite Z.quot_div_nonneg by nia. set (i := (n * p + 99) / 100).
    assert (100 * i - 100 < n * p <= 100 * i) as Hi by (unfold i; Z.to_euclidean_division_equations; lia).
    clearbody i. assert (1 <= i <= n) by nia.
    replace (i <? 1) with false by lia. replace (n <? i) with false by lia.
    exists (Z.to_nat (i - 1)). split; [lia|]. split; [done|]. lia. }
  clearbody v. assert (sorted !! k = Some v) as E.
  { rewrite Hv. destruct (lookup_lt_is_Some_2 sorted k Hk) as [x Hx]. rewrite Hx.
    f_equal. symmetry. apply nth_lookup_Some. done. }
  destruct (sorted_counts sorted k v Hs E). split; [by eapply list_elem_of_lookup_2|]. lia.
Qed.

(** A finished request is no longer active.  Whatever its recorder's methods did,
    a started request is among the active traces with its current trace until
    [Finish], which removes it, keeps every other active request, and makes its final
    trace the newest of the finished ones, of which at most [limit] are kept. *)
Theorem trace_lifecycle st id method path startedAt now ms status finishedAt now' :
  id <> "" -> 0 < lat_limit st ->
  let l := run_methods (Start (Some st) id method path startedAt now) ms in
  exists r s r' s', l = (Some r, Some s) /\ Finish status finishedAt now' l = (Some r', Some s') /\
    lat_active s !! id = Some (rec_trace r) /\
    lat_active s' = delete id (lat_active st) /\
    last (lat_traces s') = Some (rec_trace r') /\
    lat_traces s' = keep_last (Z.to_nat (lat_limit st)) (lat_traces st ++ [rec_trace r']).
Proof.
  intros Hid Hlim l. pose proof (running_start st id method path startedAt now Hid) as H0.
  pose proof (running_methods _ _ _ _ ms Hid H0) as [(r & s & E & Hr & Hs & Ha & Ht & Hl)].
  fold l in E. rewrite E. do 4 eexists. split; [done|]. split; [done|].
  split; [by rewrite Ha, lookup_insert_eq|]. cbn [rec_trace lat_active lat_traces lat_limit recordLocked].
  cbn [set_outcome tr_RequestID]. rewrite Hr, Ha, delete_insert_eq, Ht, Hl.
  split; [done|]. split; [|done]. apply keep_last_last. lia.
Qed.

(** Time to first token is measured once.  Over the life of a request the
    reported first token is the first one marked, and the time to it is measured from
    the start of the request; later marks change nothing. *)
Theorem first_token_once s id method path startedAt now ms :
  let start := if IsZero startedAt then now else startedAt in
  exists r s', run_methods (Start s id method path startedAt now) ms = (Some r, s') /\
  match first_mark ms with
  | Some t =>
      tr_FirstTokenAt (rec_trace r) = format_rfc3339nano t /\
      tr_TTFTMs (rec_trace r) = Milliseconds (Sub t start)
  | None => tr_FirstTokenAt (rec_trace r) = "" /\ tr_TTFTMs (rec_trace r) = 0
  end.
Proof.
  intros start. unfold Start. fold start. set (r0 := mkRecorder _ start).
  destruct (run_methods_token ms r0 (syncActive (Some r0) s)) as (r & s' & E & Ht).
  exists r, s'. split; [done|]. cbn [r0 rec_trace tr_FirstTokenAt rec_startedAt String.eqb] in Ht.
  unfold token_fields in Ht. by destruct (first_mark ms); injection Ht as -> ->.
Qed.

(** A method called after [Finish] puts the request back among the active
    traces, where nothing removes it: setting the state of a stream whose request has
    already been finished makes it active again. *)
Theorem late_method_reactivates r st status finishedAt now state :
  tr_RequestID (rec_trace r) <> "" -> state <> "" ->
  exists r' s', SetStreamState state (Finish status finishedAt now (Some r, Some st)) = (Some r', Some s') /\
    lat_active s' !! tr_RequestID (rec_trace r) = Some (rec_trace r').
Proof.
  intros Hid Hs. unfold Finish, SetStreamState. apply String.eqb_neq in Hs, Hid. rewrite Hs.
  unfold mutate, syncActive, finish, updateActive. cbn -[String.eqb keep_last].
  rewrite Hid. do 2 eexists. split; [done|]. cbn. by rewrite lookup_insert_eq.
Qed.

(** ** Witnesses *)

Lemma percentile_nearest_rank_witness :
  let l := [10; 20; 20; 30; 1000] in
  percentile l 95 = 1000 /\
  (percentile l 95 ∈ l /\ 95 * 5 <= 100 * count_le (percentile l 95) l /\
   100 * count_lt (percentile l 95) l < 95 * 5).
Proof.
  split; [by vm_compute|].
  apply (percentile_nearest_rank [10; 20; 20; 30; 1000] 95).
  - repeat constructor; lia.
  - done.
  - lia.
  - by vm_compute.
Defined.

Lemma trace_lifecycle_witness :
  let l := run_methods (Start (Some (NewTraceStore 2)) "r1" "POST" "/v1" (5 * Second) 0)
             [MSetStreamState StreamStateDispatching; MMarkFirstToken (6 * Second) 0] in
  exists r s r' s', l = (Some r, Some s) /\ Finish 200 (7 * Second) 0 l = (Some r', Some s') /\
    lat_active s !! "r1" = Some (rec_trace r) /\ lat_active s' = delete "r1" ∅ /\
    last (lat_traces s') = Some (rec_trace r') /\ lat_traces s' = keep_last 2 ([] ++ [rec_trace r']).
Proof.
  apply (trace_lifecycle (NewTraceStore 2) "r1" "POST" "/v1" (5 * Second) 0
    [MSetStreamState StreamStateDispatching; MMarkFirstToken (6 * Second) 0] 200 (7 * Second) 0); done.
Defined.

Lemma late_method_reactivates_witness :
  exists r' s',
    SetStreamState StreamStateError (Finish 200 (7 * Second) 0
      (Start (Some (NewTraceStore 2)) "r1" "POST" "/v1" (5 * Second) 0)) = (Some r', Some s') /\
    lat_active s' !! "r1" = Some (rec_trace r').
Proof.
  destruct (Start (Some (NewTraceStore 2)) "r1" "POST" "/v1" (5 * Second) 0) as [[r|] [st|]] eqn:E;
    try discriminate E.
  assert (tr_RequestID (rec_trace r) = "r1") as Hid by (injection E as <- _; done).
  rewrite <- Hid. apply (late_method_reactivates r st 200 (7 * Second) 0 StreamStateError); [by rewrite Hid|done].
Defined.
