(* ===== verification/Health.v ===== *)
(** * Provider health

    Models [internal/provider/health.go]: the per-outbound circuit breaker.  An
    outbound with [DefaultHealthFailureThreshold] consecutive recoverable failures is
    blocked until its next probe time, when one attempt is let through as a probe.

    Every exported method holds the tracker's mutex from start to end, so calls from
    any number of goroutines are a sequence of the operations below; each takes the
    clock reading it makes as an argument.  A nil [*HealthTracker] is [None]. *)

From S2P Require Import Prelude GoStrings GoTime ProviderErrors.

(** ** State *)

Definition DefaultHealthFailureThreshold : Z := 3.
Definition DefaultHealthProbeInterval : Duration := Minute.

Inductive HealthReason := HealthAvailable | HealthDegraded | HealthProbing.
#[export] Instance HealthReason_eq_dec : EqDecision HealthReason.
Proof. solve_decision. Defined.
Definition reason_string (r : option HealthReason) : string :=
  match r with
  | None => ""
  | Some HealthAvailable => "available"
  | Some HealthDegraded => "degraded"
  | Some HealthProbing => "probing"
  end.

Record HealthDecision := mkHealthDecision {
  hd_Allowed : bool;
  hd_Reason : option HealthReason;
  hd_Probe : bool;
  hd_NextProbeAt : Time;
  hd_RetryAfter : Time;
  hd_FailureCount : Z
}.

(** [HealthDecision{Allowed: true}] *)
Definition health_allowed : HealthDecision :=
  mkHealthDecision true None false zero_time zero_time 0.

Record healthState := mkHealthState {
  hs_name : string;
  hs_lastSuccessAt : Time;
  hs_lastFailureAt : Time;
  hs_lastErrorKind : option ErrorKind;
  hs_consecutiveFailures : Z;
  hs_nextProbeAt : Time;
  hs_probeInFlight : bool
}.

Record HealthTracker := mkHealthTracker {
  ht_probeInterval : Duration;
  ht_outbounds : gmap string healthState
}.

Record HealthSnapshotItem := mkHealthSnapshotItem {
  hsi_Outbound : string;
  hsi_State : HealthReason;
  hsi_LastSuccessAt : string;
  hsi_LastFailureAt : string;
  hsi_LastErrorKind : string;
  hsi_ConsecutiveFailures : Z;
  hsi_NextProbeAt : string
}.

Definition with_outbounds (t : HealthTracker) (m : gmap string healthState) : HealthTracker :=
  mkHealthTracker (ht_probeInterval t) m.

(** ** Operations *)

Definition new_healthState (name : string) : healthState :=
  mkHealthState name zero_time zero_time None 0 zero_time false.

Definition newHealthTracker (outboundNames : list string) (probeInterval : Duration)
    : option HealthTracker :=
  match outboundNames with
  | [] => None
  | _ =>
      let probeInterval :=
        if probeInterval <=? 0 then DefaultHealthProbeInterval else probeInterval in
      Some (mkHealthTracker probeInterval
        (foldl (fun m name => <[name := new_healthState name]> m) ∅ outboundNames))
  end.

Definition NewHealthTracker (outboundNames : list string) : option HealthTracker :=
  newHealthTracker outboundNames DefaultHealthProbeInterval.

Definition blockDecision (s : healthState) : HealthDecision :=
  mkHealthDecision false (Some HealthDegraded) false (hs_nextProbeAt s) (hs_nextProbeAt s)
    (hs_consecutiveFailures s).

Definition set_probeInFlight (s : healthState) (b : bool) : healthState :=
  mkHealthState (hs_name s) (hs_lastSuccessAt s) (hs_lastFailureAt s) (hs_lastErrorKind s)
    (hs_consecutiveFailures s) (hs_nextProbeAt s) b.

Definition BeforeAttempt (t : HealthTracker) (outbound : string) (now : Time)
    : HealthDecision * HealthTracker :=
  match ht_outbounds t !! outbound with
  | None => (health_allowed, t)
  | Some state =>
      if hs_consecutiveFailures state <? DefaultHealthFailureThreshold then
        (health_allowed, t)
      else if hs_probeInFlight state then (blockDecision state, t)
      else if IsZero (hs_nextProbeAt state) || negb (Before now (hs_nextProbeAt state)) then
        (mkHealthDecision true (Some HealthProbing) true (hs_nextProbeAt state) zero_time
           (hs_consecutiveFailures state),
         with_outbounds t (<[outbound := set_probeInFlight state true]> (ht_outbounds t)))
      else (blockDecision state, t)
  end.

Definition RecordSuccess (t : HealthTracker) (outbound : string) (now : Time) : HealthTracker :=
  match ht_outbounds t !! outbound with
  | None => t
  | Some state =>
      with_outbounds t (<[outbound :=
        mkHealthState (hs_name state) now (hs_lastFailureAt state) None 0 zero_time false]>
        (ht_outbounds t))
  end.

(** [failures] is an [int]: it is kept without its wrap-around, which takes 2^63 failures
    in a row. *)
Definition RecordFailure (t : HealthTracker) (outbound : string) (kind : ErrorKind) (now : Time)
    : HealthTracker :=
  if negb (isRecoverable kind) then t else
  match ht_outbounds t !! outbound with
  | None => t
  | Some state =>
      let failures := hs_consecutiveFailures state + 1 in
      let nextProbeAt :=
        if DefaultHealthFailureThreshold <=? failures
        then Add now (ht_probeInterval t) else hs_nextProbeAt state in
      with_outbounds t (<[outbound :=
        mkHealthState (hs_name state) (hs_lastSuccessAt state) now (Some kind) failures
          nextProbeAt false]>
        (ht_outbounds t))
  end.

Definition formatHealthTime (value : Time) : string :=
  if IsZero value then "" else format_rfc3339nano value.

Definition health_state_at (s : healthState) (now : Time) : HealthReason :=
  if DefaultHealthFailureThreshold <=? hs_consecutiveFailures s then
    if hs_probeInFlight s || IsZero (hs_nextProbeAt s) || negb (Before now (hs_nextProbeAt s))
    then HealthProbing else HealthDegraded
  else if 0 <? hs_consecutiveFailures s then HealthDegraded
  else HealthAvailable.

Definition healthState_snapshot (s : healthState) (now : Time) : HealthSnapshotItem :=
  mkHealthSnapshotItem (hs_name s) (health_state_at s now)
    (formatHealthTime (hs_lastSuccessAt s)) (formatHealthTime (hs_lastFailureAt s))
    (from_option kind_string "" (hs_lastErrorKind s))
    (hs_consecutiveFailures s) (formatHealthTime (hs_nextProbeAt s)).

(** [now name] is the clock reading made when the iteration visits [name]. *)
Definition HealthTracker_Snapshot (t : option HealthTracker) (now : string -> Time)
    : list HealthSnapshotItem :=
  match t with
  | None => []
  | Some t =>
      sort_by (fun a b => String.ltb (hsi_Outbound a) (hsi_Outbound b))
        (map (fun '(name, s) => healthState_snapshot s (now name)) (map_to_list (ht_outbounds t)))
  end.

(** ** Runs

    The calls any number of goroutines make on one tracker, in the order in which
    they take its mutex. *)
Inductive health_op :=
| HBefore (outbound : string) (now : Time)
| HSuccess (outbound : string) (now : Time)
| HFailure (outbound : string) (kind : ErrorKind) (now : Time).

(** One call, with the decision it returns *)
Definition health_step (t : HealthTracker) (op : health_op)
    : option HealthDecision * HealthTracker :=
  match op with
  | HBefore o now => let '(d, t) := BeforeAttempt t o now in (Some d, t)
  | HSuccess o now => (None, RecordSuccess t o now)
  | HFailure o k now => (None, RecordFailure t o k now)
  end.

Definition health_run (t : HealthTracker) (ops : list health_op) : HealthTracker :=
  foldl (fun t op => (health_step t op).2) t ops.

(** An operation that ends a probe of [o]: a success, or a recoverable failure *)
Definition resolves (o : string) (op : health_op) : bool :=
  match op with
  | HSuccess o' _ => o == o'
  | HFailure o' k _ => (o == o') && isRecoverable k
  | HBefore _ _ => false
  end.

(** ** Abstract specification: a circuit breaker

    [Closed n]: fewer than the threshold of failures in a row; [Open n at]: blocked
    until [at]; [HalfOpen n at]: one probe is out, everything else is blocked. *)
Inductive breaker :=
| Closed (n : Z)
| Open (n : Z) (probe_at : Time)
| HalfOpen (n : Z) (probe_at : Time).

Inductive verdict := Pass | PassProbe | Block (retry_at : Time).

Definition breaker_try (b : breaker) (now : Time) : verdict * breaker :=
  match b with
  | Closed n => (Pass, b)
  | Open n at_ => if at_ <=? now then (PassProbe, HalfOpen n at_) else (Block at_, b)
  | HalfOpen n at_ => (Block at_, b)
  end.

Definition breaker_failures (b : breaker) : Z :=
  match b with Closed n | Open n _ | HalfOpen n _ => n end.

Definition breaker_fail (interval : Duration) (b : breaker) (now : Time) : breaker :=
  let n := breaker_failures b + 1 in
  if n <? DefaultHealthFailureThreshold then Closed n else Open n (now + interval).

Definition breaker_succeed : breaker := Closed 0.

(** The breaker a state implements *)
Definition breaker_of (s : healthState) : breaker :=
  if hs_consecutiveFailures s <? DefaultHealthFailureThreshold
  then Closed (hs_consecutiveFailures s)
  else if hs_probeInFlight s then HalfOpen (hs_consecutiveFailures s) (hs_nextProbeAt s)
  else Open (hs_consecutiveFailures s) (hs_nextProbeAt s).

Definition verdict_of (d : HealthDecision) : verdict :=
  if hd_Allowed d then if hd_Probe d then PassProbe else Pass
  else Block (hd_RetryAfter d).

(** What one call means for the breaker of [o], and what the two sides answer to a
    sequence of calls. *)
Definition breaker_step (interval : Duration) (o : string) (b : breaker) (op : health_op)
    : list verdict * breaker :=
  match op with
  | HBefore o' now =>
      if o == o' then let '(v, b') := breaker_try b now in ([v], b') else ([], b)
  | HSuccess o' _ => ([], if o == o' then breaker_succeed else b)
  | HFailure o' k now =>
      ([], if (o == o') && isRecoverable k then breaker_fail interval b now else b)
  end.

Fixpoint breaker_trace (interval : Duration) (o : string) (b : breaker) (ops : list health_op)
    : list verdict :=
  match ops with
  | [] => []
  | op :: ops =>
      let '(v, b') := breaker_step interval o b op in v ++ breaker_trace interval o b' ops
  end.

Definition answers (o : string) (op : health_op) (d : option HealthDecision) : list verdict :=
  match op, d with
  | HBefore o' _, Some d => if o == o' then [verdict_of d] else []
  | _, _ => []
  end.

Fixpoint health_trace (o : string) (t : HealthTracker) (ops : list health_op) : list verdict :=
  match ops with
  | [] => []
  | op :: ops =>
      let '(d, t') := health_step t op in answers o op d ++ health_trace o t' ops
  end.

(** ** Invariant *)

Record state_ok (s : healthState) : Prop := {
  ok_failures : 0 <= hs_consecutiveFailures s;
  ok_probe : hs_probeInFlight s = true ->
    DefaultHealthFailureThreshold <= hs_consecutiveFailures s;
  ok_next : DefaultHealthFailureThreshold <= hs_consecutiveFailures s ->
    0 < hs_nextProbeAt s
}.

(** Every state is filed under its own name and is well formed. *)
Definition tracker_ok (t : HealthTracker) : Prop :=
  0 < ht_probeInterval t /\
  map_Forall (fun name s => hs_name s = name /\ state_ok s) (ht_outbounds t).

(** The readings of the clock are after Go's zero time. *)
Definition op_time_ok (op : health_op) : Prop :=
  match op with HBefore _ now | HSuccess _ now | HFailure _ _ now => 0 <= now end.

(** ** Lemmas *)

Lemma BeforeAttempt_lookup t o now :
  let '(d, t') := BeforeAttempt t o now in
  ht_probeInterval t' = ht_probeInterval t /\
  forall o', o' <> o -> ht_outbounds t' !! o' = ht_outbounds t !! o'.
Proof.
  unfold BeforeAttempt. repeat case_match; simplify_eq/=; split; try done.
  intros o' Hne. by rewrite lookup_insert_ne.
Qed.

Lemma health_step_other t op o :
  (match op with HBefore o' _ | HSuccess o' _ | HFailure o' _ _ => o <> o' end) ->
  ht_outbounds (health_step t op).2 !! o = ht_outbounds t !! o.
Proof.
  destruct op as [o' now|o' now|o' k now]; cbn; intros Hne.
  - pose proof (BeforeAttempt_lookup t o' now) as H.
    destruct (BeforeAttempt t o' now) as [d t']. cbn. by apply H.
  - unfold RecordSuccess. case_match; cbn; [by rewrite lookup_insert_ne|done].
  - unfold RecordFailure. repeat case_match; cbn; try done; by rewrite lookup_insert_ne.
Qed.

Lemma health_run_app t l k : health_run t (l ++ k) = health_run (health_run t l) k.
Proof. apply foldl_app. Qed.

Lemma health_step_interval t op :
  ht_probeInterval (health_step t op).2 = ht_probeInterval t.
Proof.
  destruct op as [o now|o now|o k now]; cbn.
  - unfold BeforeAttempt. by repeat case_match; simplify_eq/=.
  - unfold RecordSuccess. by case_match.
  - unfold RecordFailure. by repeat case_match.
Qed.

Lemma tracker_ok_insert t o s :
  tracker_ok t -> hs_name s = o -> state_ok s ->
  tracker_ok (with_outbounds t (<[o := s]> (ht_outbounds t))).
Proof. intros [Hi Hm] Hn Hs. split; cbn; [done|]. by apply map_Forall_insert_2. Qed.

Lemma tracker_ok_step t op :
  tracker_ok t -> op_time_ok op -> tracker_ok (health_step t op).2.
Proof.
  intros Ht Hop. pose proof Ht as [Hi Hm].
  destruct op as [o now|o now|o k now]; cbn in *.
  - unfold BeforeAttempt. destruct (ht_outbounds t !! o) as [s|] eqn:Ho; [|done].
    destruct (Hm o s Ho) as [Hn [Hf Hp Hnx]].
    destruct (Z.ltb_spec (hs_consecutiveFailures s) DefaultHealthFailureThreshold); [done|].
    repeat case_match; simplify_eq/=; try done.
    apply (tracker_ok_insert t); [done|done|split; cbn; lia || done].
  - unfold RecordSuccess. destruct (ht_outbounds t !! o) as [s|] eqn:Ho; [|done].
    destruct (Hm o s Ho) as [Hn _].
    apply tracker_ok_insert; [done|done|]. split; cbn; unfold DefaultHealthFailureThreshold; lia || done.
  - unfold RecordFailure. destruct (isRecoverable k); cbn; [|done].
    destruct (ht_outbounds t !! o) as [s|] eqn:Ho; [|done].
    destruct (Hm o s Ho) as [Hn [Hf Hp Hnx]].
    apply tracker_ok_insert; [done|done|]. split; cbn; [lia|done|].
    intros Hth. apply Z.leb_le in Hth. rewrite Hth. unfold Add. lia.
Qed.

Lemma tracker_ok_run t ops :
  tracker_ok t -> Forall op_time_ok ops -> tracker_ok (health_run t ops).
Proof.
  intros Ht Hops. revert t Ht. induction Hops as [|op ops Hop Hops IH]; intros t Ht; cbn; [done|].
  by apply IH, tracker_ok_step.
Qed.

Lemma newHealthTracker_ok names interval t :
  newHealthTracker names interval = Some t -> tracker_ok t.
Proof.
  unfold newHealthTracker. intros H.
  destruct names as [|n names]; [done|]. revert H. generalize (n :: names) as l. intros l [= <-].
  split; cbn.
  - unfold DefaultHealthProbeInterval, Minute, Second. destruct (Z.leb_spec interval 0); lia.
  - assert (forall m : gmap string healthState, map_Forall (fun name s => hs_name s = name /\ state_ok s) m ->
      map_Forall (fun name s => hs_name s = name /\ state_ok s)
        (foldl (fun m name => <[name:=new_healthState name]> m) m l)) as Hall.
    { induction l as [|x l IH]; intros m Hm; cbn; [done|]. apply IH.
      apply map_Forall_insert_2; [|done]. split; [done|].
      split; cbn; unfold DefaultHealthFailureThreshold; lia || done. }
    apply Hall, map_Forall_empty.
Qed.

#[export] Hint Resolve tracker_ok_step tracker_ok_run newHealthTracker_ok : go.

(** While a probe is out, nothing that does not resolve it changes the state. *)
Lemma probe_stays t o s op :
  ht_outbounds t !! o = Some s -> hs_probeInFlight s = true ->
  DefaultHealthFailureThreshold <= hs_consecutiveFailures s ->
  resolves o op = false ->
  ht_outbounds (health_step t op).2 !! o = Some s.
Proof.
  intros Ho Hp Hf Hr. apply Z.ltb_ge in Hf.
  assert ((exists now, op = HBefore o now) \/ (exists k now, op = HFailure o k now /\ isRecoverable k = false)
    \/ (match op with HBefore o' _ | HSuccess o' _ | HFailure o' _ _ => o <> o' end)) as Hc.
  { destruct op as [o' now|o' now|o' k now]; cbn in Hr.
    - destruct (decide (o = o')) as [->|]; eauto.
    - breflect. auto.
    - destruct (decide (o = o')) as [->|]; [|auto]. rewrite String.eqb_refl in Hr. cbn in Hr. eauto 10. }
  destruct Hc as [[now ->]|[(k & now & -> & Hk)|Hne]].
  - cbn. unfold BeforeAttempt. by rewrite Ho, Hf, Hp.
  - cbn. unfold RecordFailure. by rewrite Hk.
  - by rewrite health_step_other.
Qed.

Lemma probe_stays_run t o s ops :
  ht_outbounds t !! o = Some s -> hs_probeInFlight s = true ->
  DefaultHealthFailureThreshold <= hs_consecutiveFailures s ->
  Forall (fun op => resolves o op = false) ops ->
  ht_outbounds (health_run t ops) !! o = Some s.
Proof.
  intros Ho Hp Hf Hops. revert t Ho.
  induction Hops as [|op ops Hop Hops IH]; intros t Ho; cbn; [done|].
  by apply IH, probe_stays.
Qed.

Lemma probe_granted t o now d t' :
  BeforeAttempt t o now = (d, t') -> hd_Probe d = true ->
  exists s, ht_outbounds t' !! o = Some s /\ hs_probeInFlight s = true /\
    DefaultHealthFailureThreshold <= hs_consecutiveFailures s.
Proof.
  unfold BeforeAttempt. intros H Hd.
  repeat case_match; simplify_eq/=. breflect.
  rewrite lookup_insert_eq. by eexists.
Qed.

Lemma probe_blocks t o s now :
  ht_outbounds t !! o = Some s -> hs_probeInFlight s = true ->
  DefaultHealthFailureThreshold <= hs_consecutiveFailures s ->
  BeforeAttempt t o now = (blockDecision s, t).
Proof.
  intros Ho Hp Hf. unfold BeforeAttempt. apply Z.ltb_ge in Hf. by rewrite Ho, Hf, Hp.
Qed.

(** One call: the tracker answers and moves as the breaker does. *)
Lemma breaker_step_sim t o s op :
  tracker_ok t -> op_time_ok op -> ht_outbounds t !! o = Some s ->
  exists s', ht_outbounds (health_step t op).2 !! o = Some s' /\
    (answers o op (health_step t op).1, breaker_of s') =
    breaker_step (ht_probeInterval t) o (breaker_of s) op.
Proof.
  intros [Hi Hm] Hop Ho. destruct (Hm o s Ho) as [Hn [Hf Hp Hnx]].
  assert ((match op with HBefore o' _ | HSuccess o' _ | HFailure o' _ _ => o <> o' end)
    \/ (match op with HBefore o' _ | HSuccess o' _ | HFailure o' _ _ => o = o' end)) as [Hne|He]
    by (destruct op as [o' ?|o' ?|o' ? ?]; destruct (decide (o = o')); auto).
  { exists s. rewrite health_step_other by done. split; [done|].
    destruct op as [o' now|o' now|o' k now]; cbn in *;
      try destruct (BeforeAttempt t o' now); cbn; by apply String.eqb_neq in Hne as ->. }
  destruct op as [o' now|o' now|o' k now]; cbn in *; subst o'; rewrite String.eqb_refl.
  - unfold BeforeAttempt, breaker_of at 2. rewrite Ho.
    destruct (hs_consecutiveFailures s <? DefaultHealthFailureThreshold) eqn:Hth.
    { exists s. cbn. unfold breaker_of. by rewrite Hth. }
    destruct (hs_probeInFlight s) eqn:Hpr.
    { exists s. cbn. unfold breaker_of. by rewrite Hth, Hpr. }
    breflect. specialize (Hnx Hth). unfold IsZero, Before.
    destruct (Z.eqb_spec (hs_nextProbeAt s) 0); [lia|]. cbn.
    rewrite Z.leb_antisym. destruct (now <? hs_nextProbeAt s) eqn:Ht; cbn.
    + exists s. cbn. unfold breaker_of. apply Z.ltb_ge in Hth. by rewrite Hth, Hpr.
    + rewrite lookup_insert_eq. eexists. split; [done|].
      unfold breaker_of. cbn. apply Z.ltb_ge in Hth. by rewrite Hth.
  - unfold RecordSuccess. rewrite Ho. cbn. rewrite lookup_insert_eq. by eexists.
  - unfold RecordFailure. destruct (isRecoverable k) eqn:Hk; cbn; [|by exists s].
    rewrite Ho. cbn. rewrite lookup_insert_eq. eexists. split; [done|].
    assert (breaker_failures (breaker_of s) = hs_consecutiveFailures s) as Hbf
      by (unfold breaker_of; by repeat case_match).
    unfold breaker_of at 1, breaker_fail. cbn. rewrite Hbf, Z.leb_antisym.
    by destruct (_ <? DefaultHealthFailureThreshold).
Qed.

(** ** Properties *)

(** C7: the health tracker implements a circuit breaker.  Whatever calls the
    gateway makes, in whatever order they take the lock, the answers
    [BeforeAttempt] gives for an outbound are those of the abstract breaker that
    starts in the outbound's state: closed below three consecutive recoverable
    failures, open until the probe interval has passed after the last of them,
    half open (one probe out, everything else refused) once a probe is granted,
    and closed again by a success. *)
Theorem health_refines_breaker t ops o s :
  tracker_ok t -> Forall op_time_ok ops -> ht_outbounds t !! o = Some s ->
  health_trace o t ops = breaker_trace (ht_probeInterval t) o (breaker_of s) ops.
Proof.
  intros Ht Hops. revert t s Ht.
  induction Hops as [|op ops Hop Hops IH]; intros t s Ht Ho; cbn; [done|].
  destruct (breaker_step_sim t o s op Ht Hop Ho) as (s' & Ho' & Hsim).
  pose proof (tracker_ok_step t op Ht Hop) as Ht'.
  pose proof (health_step_interval t op) as Hi.
  destruct (health_step t op) as [d t']. cbn in *.
  rewrite <- Hsim, <- Hi. f_equal. by apply IH.
Qed.

(** At most one probe of an outbound is out at a time.  After a probe is
    granted, whatever other calls run before it is resolved by a success or a
    recoverable failure of that outbound, every attempt is refused, at any time. *)
Theorem health_probe_exclusive t o now d t1 ops now' :
  BeforeAttempt t o now = (d, t1) -> hd_Probe d = true ->
  Forall (fun op => resolves o op = false) ops ->
  hd_Allowed (BeforeAttempt (health_run t1 ops) o now').1 = false.
Proof.
  intros Hb Hd Hops. destruct (probe_granted t o now d t1 Hb Hd) as (s & Ho & Hp & Hf).
  pose proof (probe_stays_run t1 o s ops Ho Hp Hf Hops) as Ho'.
  by rewrite (probe_blocks _ o s now' Ho' Hp Hf).
Qed.

(** ** Witnesses *)

Definition demo_health : HealthTracker :=
  mkHealthTracker Minute {[ "a" := new_healthState "a"; "b" := new_healthState "b" ]}.
Definition demo_failures : list health_op :=
  [HFailure "a" ErrorKindTimeout 10; HFailure "a" ErrorKindRetryable 20;
   HFailure "b" ErrorKindTimeout 25; HFailure "a" ErrorKindUpstreamServerError 30].
Definition demo_health_open : HealthTracker := health_run demo_health demo_failures.

Lemma demo_health_ok : tracker_ok demo_health.
Proof.
  split; [done|]. intros name s Hs. cbn in Hs. apply lookup_insert_Some in Hs as [[<- <-]|[_ Hs]].
  - by repeat split.
  - apply lookup_singleton_Some in Hs as [<- <-]. by repeat split.
Qed.

Lemma health_refines_breaker_witness :
  health_trace "a" demo_health (demo_failures ++
    [HBefore "a" 40; HBefore "a" (Minute + 30); HBefore "a" (Minute + 31);
     HSuccess "a" (Minute + 32); HBefore "a" (Minute + 33)]) =
  [Block (Minute + 30); PassProbe; Block (Minute + 30); Pass].
Proof.
  rewrite (health_refines_breaker demo_health _ "a" (new_healthState "a")).
  - vm_compute. reflexivity.
  - exact demo_health_ok.
  - repeat constructor; vm_compute; discriminate.
  - vm_compute. reflexivity.
Defined.

Lemma health_probe_exclusive_witness :
  hd_Allowed (BeforeAttempt (health_run (BeforeAttempt demo_health_open "a" (Minute + 30)).2
    [HBefore "a" (2 * Minute); HFailure "a" ErrorKindAuthFailed (3 * Minute); HSuccess "b" 0])
    "a" (1000 * Hour)).1 = false.
Proof.
  apply (health_probe_exclusive demo_health_open "a" (Minute + 30)
    (BeforeAttempt demo_health_open "a" (Minute + 30)).1).
  - vm_compute. reflexivity.
  - vm_compute. reflexivity.
  - repeat constructor; vm_compute; reflexivity.
Defined.
