(* ===== verification/Program.v ===== *)
(** * Programs that make calls

    A program of the free monad over the calls [C] of a component: what a method does
    with the objects it shares with others.  [runs p tr a] says that [p] can end with
    [a] having made the calls [tr], whatever each call answered; a theorem on [runs]
    holds under every interleaving.  [exec] runs a program against a machine that
    answers its calls. *)

From S2P Require Import Prelude.

Inductive prog (C : Type -> Type) (A : Type) : Type :=
| Ret (a : A)
| Do {B : Type} (c : C B) (k : B -> prog C A).
Arguments Ret {C A} a.
Arguments Do {C A B} c k.

Fixpoint prog_bind' {C A B} (f : A -> prog C B) (p : prog C A) : prog C B :=
  match p with
  | Ret a => f a
  | Do c k => Do c (fun b => prog_bind' f (k b))
  end.
#[export] Instance prog_ret C : MRet (prog C) := fun A => Ret.
#[export] Instance prog_bind C : MBind (prog C) := @prog_bind' C.
Definition perform {C B} (c : C B) : prog C B := Do c Ret.
Definition when {C} (b : bool) (p : prog C unit) : prog C unit := if b then p else Ret tt.

Section runs.
Context {C : Type -> Type} {E : Type} (observe : forall B, C B -> B -> E).

Fixpoint runs {A} (p : prog C A) (tr : list E) (a : A) : Prop :=
  match p with
  | Ret x => tr = [] /\ a = x
  | Do c k => exists b tr', tr = observe _ c b :: tr' /\ runs (k b) tr' a
  end.

Lemma runs_bind {A B} (p : prog C A) (f : A -> prog C B) tr b :
  runs (p ≫= f) tr b <-> exists tr1 a tr2, tr = tr1 ++ tr2 /\ runs p tr1 a /\ runs (f a) tr2 b.
Proof.
  revert tr. induction p as [a|X c k IH]; intros tr; cbn.
  - split; [intros H; by exists [], a, tr|]. by intros (tr1 & a' & tr2 & -> & [-> ->] & H).
  - split.
    + intros (x & tr' & -> & H). apply IH in H as (tr1 & a & tr2 & -> & H1 & H2).
      exists (observe X c x :: tr1), a, tr2. split; [done|]. split; [|done]. by exists x, tr1.
    + intros (tr1 & a & tr2 & -> & (x & tr' & -> & H1) & H2). exists x, (tr' ++ tr2). split; [done|].
      apply IH. by exists tr', a, tr2.
Qed.
Lemma runs_ret {A} (a b : A) tr : runs (mret a) tr b <-> tr = [] /\ b = a.
Proof. done. Qed.
Lemma runs_perform {B} (c : C B) tr b : runs (perform c) tr b <-> tr = [observe B c b].
Proof. cbn. split; [by intros (x & tr' & -> & -> & ->)|intros ->; by exists b, []]. Qed.
Lemma runs_when b (p : prog C unit) tr u : runs (when b p) tr u <-> if b then runs p tr u else tr = [].
Proof. destruct b; [done|]. cbn. split; [by intros [-> _]|intros ->; by destruct u]. Qed.

(** Every program runs, whatever the answers. *)
Context {St : Type} (answer : forall B, C B -> St -> St * B).
Fixpoint exec {A} (p : prog C A) (s : St) : St * list E * A :=
  match p with
  | Ret a => (s, [], a)
  | Do c k =>
      let '(s, b) := answer _ c s in
      let '(s, tr, a) := exec (k b) s in (s, observe _ c b :: tr, a)
  end.
Lemma exec_runs {A} (p : prog C A) s : runs p (exec p s).1.2 (exec p s).2.
Proof.
  revert s. induction p as [a|X c k IH]; intros s; cbn; [done|].
  destruct (answer X c s) as [s' b]. specialize (IH b s'). destruct (exec (k b) s') as [[s2 tr] a].
  cbn in *. by exists b, tr.
Qed.
End runs.

(** ** Predicates on the calls of a program *)

Fixpoint all_calls {C : Type -> Type} {A} (P : forall B, C B -> Prop) (p : prog C A) : Prop :=
  match p with
  | Ret _ => True
  | Do c k => P _ c /\ forall b, all_calls P (k b)
  end.

Section all_calls.
Context {C : Type -> Type} {E : Type} (observe : forall B, C B -> B -> E) (P : forall B, C B -> Prop).
Lemma all_bind {A B} (p : prog C A) (f : A -> prog C B) :
  all_calls P p -> (forall a, all_calls P (f a)) -> all_calls P (p ≫= f).
Proof.
  intros Hp Hf. induction p as [a|X c k IH]; cbn in *; [apply Hf|]. destruct Hp as [Hc Hk].
  split; [done|]. intros b. by apply IH.
Qed.
Lemma all_perform {B} (c : C B) : P B c -> all_calls P (perform c).
Proof. by split. Qed.
Lemma all_when b (p : prog C unit) : all_calls P p -> all_calls P (when b p).
Proof. by destruct b. Qed.
Lemma all_runs {A} (p : prog C A) (Q : E -> Prop) tr a :
  (forall B (c : C B) b, P B c -> Q (observe B c b)) -> all_calls P p -> runs observe p tr a -> Forall Q tr.
Proof.
  intros HPQ. revert tr. induction p as [x|X c k IH]; intros tr; cbn.
  - by intros _ [-> _].
  - intros [Hc Hk] (b & tr' & -> & H). constructor; [by apply HPQ|]. by eapply IH.
Qed.
End all_calls.

(** ** What a program gives for what it is given

    [given A P p]: as long as the answers [p] gets are such that [A] holds of the calls
    with their answers, [P] holds of them too. *)
Section given.
Context {C : Type -> Type} {E : Type} (observe : forall B, C B -> B -> E) (A P : E -> Prop).
Fixpoint given {X} (p : prog C X) : Prop :=
  match p with
  | Ret _ => True
  | Do c k => forall b, A (observe _ c b) -> P (observe _ c b) /\ given (k b)
  end.

Lemma given_bind {X Y} (p : prog C X) (f : X -> prog C Y) : given p -> (forall x, given (f x)) -> given (p ≫= f).
Proof.
  intros Hp Hf. induction p as [x|B c k IH]; cbn in *; [apply Hf|]. intros b Hb.
  destruct (Hp b Hb) as [Hc Hk]. split; [done|]. by apply IH.
Qed.
(** The continuation of a call may rely on its answer. *)
Lemma given_call {B Y} (c : C B) (f : B -> prog C Y) :
  (forall b, A (observe _ c b) -> P (observe _ c b) /\ given (f b)) -> given (perform c ≫= f).
Proof. intros H. exact H. Qed.
Lemma given_perform {B} (c : C B) : (forall b, P (observe _ c b)) -> given (perform c).
Proof. intros H b _. by split. Qed.
Lemma given_when b (p : prog C unit) : given p -> given (when b p).
Proof. by destruct b. Qed.
Lemma given_runs {X} (p : prog C X) tr x : given p -> runs observe p tr x -> Forall A tr -> Forall P tr.
Proof.
  revert tr. induction p as [y|B c k IH]; intros tr; cbn; [by intros _ [-> _]|].
  intros H (b & tr' & -> & Hr) [Hb Htr]%Forall_cons. destruct (H b Hb) as [Hc Hk]. constructor; [done|]. by eapply IH.
Qed.
End given.

(** ** How many calls a program makes *)

(** [within n p]: [p] ends after at most [n] calls, whatever they answer. *)
Fixpoint within {C : Type -> Type} {A} (n : nat) (p : prog C A) {struct p} : Prop :=
  match p with
  | Ret _ => True
  | Do c k => match n with 0%nat => False | S n => forall b, within n (k b) end
  end.
Section within.
Context {C : Type -> Type} {E : Type} (observe : forall B, C B -> B -> E).
Lemma within_mono {A} n m (p : prog C A) : (n <= m)%nat -> within n p -> within m p.
Proof.
  revert n m. induction p as [a|B c k IH]; intros n m Hle H; [exact I|].
  destruct n as [|n]; [destruct H|]. destruct m as [|m]; [lia|]. intros b. eapply IH; [|apply H]. lia.
Qed.
Lemma within_bind {A B} n m (p : prog C A) (f : A -> prog C B) :
  within n p -> (forall a, within m (f a)) -> within (n + m) (p ≫= f).
Proof.
  revert n. induction p as [a|X c k IH]; intros n Hp Hf; [eapply within_mono; [|apply Hf]; lia|].
  destruct n as [|n]; [destruct Hp|]. intros b. apply IH; [apply Hp|done].
Qed.
Lemma within_call {A B} n (c : C B) (f : B -> prog C A) : (forall b, within n (f b)) -> within (S n) (perform c ≫= f).
Proof. intros H. exact H. Qed.
Lemma within_perform {B} n (c : C B) : within (S n) (perform c).
Proof. intros b. exact I. Qed.
Lemma within_runs {A} n (p : prog C A) tr a : within n p -> runs observe p tr a -> (length tr <= n)%nat.
Proof.
  revert n tr. induction p as [x|B c k IH]; intros n tr; cbn [runs]; [intros _ [-> _]; cbn; lia|].
  destruct n as [|n]; [intros []|]. intros Hk (b & tr' & -> & Hr). apply (IH b n) in Hr; [cbn; lia|apply Hk].
Qed.
End within.

(** Goes through the binds, tests and calls of a program. *)
Ltac all_steps :=
  repeat first
    [ apply all_bind | apply all_when | apply all_perform | intros | exact I | split
    | progress cbn beta iota | case_match ].

(** ** A state followed along a run

    [post p s Q]: from the state [s], whatever the calls answer, the state is [safe] after
    each call and [Q] holds of the result and of the state at the end. *)
Section post.
Context {C : Type -> Type} {E : Type} (observe : forall B, C B -> B -> E) {S : Type} (next : E -> S -> S) (safe : S -> Prop).
Fixpoint post {A} (p : prog C A) (s : S) (Q : A -> S -> Prop) : Prop :=
  match p with
  | Ret a => Q a s
  | Do c k => forall b, safe (next (observe _ c b) s) /\ post (k b) (next (observe _ c b) s) Q
  end.
Definition after (s : S) (tr : list E) : S := foldl (fun s e => next e s) s tr.

Lemma post_mono {A} (p : prog C A) s (Q Q' : A -> S -> Prop) : (forall a s, Q a s -> Q' a s) -> post p s Q -> post p s Q'.
Proof.
  intros HQ. revert s. induction p as [a|X c k IH]; intros s; cbn; [by apply HQ|].
  intros H b. destruct (H b) as [Hs Hk]. split; [done|]. by apply IH.
Qed.
Lemma post_bind {A B} (p : prog C A) (f : A -> prog C B) s Q :
  post p s (fun a s => post (f a) s Q) -> post (p ≫= f) s Q.
Proof.
  revert s. induction p as [a|X c k IH]; intros s; cbn; [done|].
  intros H b. destruct (H b) as [Hs Hk]. split; [done|]. by apply IH.
Qed.
Lemma post_then {A B} (p : prog C A) (f : A -> prog C B) s Q Q' :
  post p s Q -> (forall a s, Q a s -> post (f a) s Q') -> post (p ≫= f) s Q'.
Proof. intros Hp Hf. apply post_bind. by eapply post_mono. Qed.
Lemma post_runs {A} (p : prog C A) s Q tr a :
  safe s -> post p s Q -> runs observe p tr a ->
  Q a (after s tr) /\ forall tr', tr' `prefix_of` tr -> safe (after s tr').
Proof.
  revert s tr. induction p as [x|X c k IH]; intros s tr Hs; cbn.
  - intros HQ [-> ->]. split; [done|]. by intros tr' ->%prefix_nil_inv.
  - intros H (b & tr' & -> & Hr). destruct (H b) as [Hb Hk]. destruct (IH b _ _ Hb Hk Hr) as [HQ Hall].
    split; [done|]. intros [|e tr''] Hp; [done|].
    apply prefix_cons_inv_1 in Hp as He. apply prefix_cons_inv_2 in Hp. subst e. by apply Hall.
Qed.
End post.

(** Takes a run of a program apart. *)
Ltac run_inv :=
  repeat match goal with
  | H : runs _ (mbind _ _) _ _ |- _ =>
      let H1 := fresh "H" in let t1 := fresh "t" in let t2 := fresh "t" in let x := fresh "x" in
      apply runs_bind in H as (t1 & x & t2 & -> & H1 & H)
  | H : runs _ (perform _) _ _ |- _ => apply runs_perform in H as ->
  | H : runs _ (mret _) _ _ |- _ => apply runs_ret in H as [-> ->]
  | H : runs _ (Ret _) _ _ |- _ => apply runs_ret in H as [-> ->]
  end.
