(* ===== verification/Dispatcher.v ===== *)
(** * The dispatcher

    Models [internal/execution/dispatcher.go]: the failover loop that tries the steps
    of a plan in order, and the goroutine that relays a stream.

    The dispatcher only talks to shared objects: the clock, the quota and health
    trackers, the providers, the event log, the usage store, the latency recorder.  Its
    methods are programs over those calls ([Program]).  A theorem on [runs] holds under
    every interleaving with other requests; [exec] runs a program alone against the
    models of the other components. *)

From Stdlib Require Import SpecFloat.
From S2P Require Import Prelude Program GoStrings GoTime ProviderErrors RuntimeModel ConfigTypes.
From S2P Require Import QuotaWindow QuotaTracker Accounting QuotaEvents Latency Health.

(** ** Calls and programs *)

(** A call returns.  [StoreRecord] panics on a usage file that is closed and on a record
    without a day: [Record_file] and [record_path] of [UsageFile] have those cases, and
    [GatewayFacts.request_answered] excludes the second. *)

Inductive call : Type -> Type :=
| Now : call Time
| QuotaBeforeAttempt (outbound : string) : call Decision
| HealthBeforeAttempt (outbound : string) : call HealthDecision
| ChatCompletion (target : Provider) (req : Request) : call (result goerror Response)
| StreamCompletion (target : Provider) (req : Request) : call (result goerror unit)
| QuotaRecordSuccess (outbound : string) (tokens : Z) : call unit
| QuotaRecordExceeded (outbound : string) : call unit
| HealthRecordSuccess (outbound : string) : call unit
| HealthRecordFailure (outbound : string) (kind : ErrorKind) : call unit
| RecordGovernance (e : Event) : call unit
| StoreRecord (r : UsageRecord) : call unit
| ClientRecordUsage (client : string) (tokens costMicroUSD : Z) (priced : bool) : call unit
| LatencyMethod (m : method) : call unit
| Send (e : StreamEvent) : call unit.

(** A call with its answer *)
Inductive event :=
| ENow (t : Time)
| EQuotaBefore (outbound : string) (d : Decision)
| EHealthBefore (outbound : string) (d : HealthDecision)
| EChat (target : Provider) (req : Request) (r : result goerror Response)
| EStream (target : Provider) (req : Request) (r : result goerror unit)
| EQuotaSuccess (outbound : string) (tokens : Z)
| EQuotaExceeded (outbound : string)
| EHealthSuccess (outbound : string)
| EHealthFailure (outbound : string) (kind : ErrorKind)
| EGovernance (e : Event)
| ERecord (r : UsageRecord)
| EClientUsage (client : string) (tokens costMicroUSD : Z) (priced : bool)
| ELatency (m : method)
| ESend (e : StreamEvent).

Definition observe (B : Type) (c : call B) : B -> event :=
  match c in call B return B -> event with
  | Now => ENow
  | QuotaBeforeAttempt o => EQuotaBefore o
  | HealthBeforeAttempt o => EHealthBefore o
  | ChatCompletion p req => EChat p req
  | StreamCompletion p req => EStream p req
  | QuotaRecordSuccess o n => fun _ => EQuotaSuccess o n
  | QuotaRecordExceeded o => fun _ => EQuotaExceeded o
  | HealthRecordSuccess o => fun _ => EHealthSuccess o
  | HealthRecordFailure o k => fun _ => EHealthFailure o k
  | RecordGovernance e => fun _ => EGovernance e
  | StoreRecord r => fun _ => ERecord r
  | ClientRecordUsage c n cost priced => fun _ => EClientUsage c n cost priced
  | LatencyMethod m => fun _ => ELatency m
  | Send e => fun _ => ESend e
  end.

Abbreviation prog := (Program.prog call).
Abbreviation runs := (Program.runs observe).

(** ** State *)

(** The fields tell which trackers are not nil. *)
Record Dispatcher := mkDispatcher {
  d_quotaTracker : bool;
  d_clientQuotaTracker : bool;
  d_healthTracker : bool;
  d_priceCalculator : PriceCalculator
}.

(** The values a request's context carries *)
Record Context_ := mkContext { ctx_RequestID : string; ctx_SessionID : string; ctx_Agent : string }.

(** What a Go function returns, with its panic on an unknown fallback condition.
    [Failed] carries the error, [None] for nil. *)
Inductive outcome (R : Type) :=
| Returned (r : R)
| Failed (err : option goerror)
| Panicked.
Arguments Returned {R} r.
Arguments Failed {R} err.
Arguments Panicked {R}.

(** ** Errors *)

Definition modelUnavailableError (plan : ExecutionPlan) (req : Request) : goerror :=
  let model := if plan_RequestedModel plan == "" then req_Model req else plan_RequestedModel plan in
  if model == "" then NewModelUnavailableError (ErrPlain "requested model is unavailable")
  else NewModelUnavailableError (ErrFormat "model %q is unavailable" [model]).

Definition preferredErrorPriority (err : goerror) : Z :=
  let kind := NormalizeError (Some err) in
  let hasHTTPMetadata :=
    match AsProviderError err with
    | Some (_, status, requestID, retryAfter) =>
        negb (status =? 0) || (requestID != "") || (retryAfter != "")
    | None => false
    end in
  match kind with
  | ErrorKindQuotaExceeded | ErrorKindAuthFailed => if hasHTTPMetadata then 5 else 4
  | ErrorKindFatal | ErrorKindCapabilityUnsupported => 3
  | ErrorKindTimeout | ErrorKindUpstreamServerError | ErrorKindRetryable => 2
  | _ => 1
  end.

Definition selectPreferredError (current candidate : option goerror) : option goerror :=
  match current, candidate with
  | None, _ => candidate
  | _, None => current
  | Some current', Some candidate' =>
      if preferredErrorPriority current' <? preferredErrorPriority candidate' then candidate else current
  end.

(** ** Usage *)

Definition normalizedUsageTokens (usage : option Usage) : Z :=
  match usage with
  | None => 0
  | Some u => if negb (u_TotalTokens u =? 0) then u_TotalTokens u
              else i64 (u_InputTokens u + u_OutputTokens u)
  end.

Definition providerName (step : ExecutionStep) : string :=
  match st_OutboundTarget step with
  | None => st_OutboundName step
  | Some target => prov_name target
  end.

Definition usage_breakdown (usage : option Usage) : UsageBreakdown :=
  match usage with
  | None => mkUsageBreakdown 1 0 0 0 0 0 ∅
  | Some u => mkUsageBreakdown 1 (u_InputTokens u) (u_OutputTokens u) (u_CachedInputReadTokens u)
                (u_CachedInputWriteTokens u) (normalizedUsageTokens usage) ∅
  end.

Definition finalizeUsageRecord (d : Dispatcher) (ctx : Context_) (plan : ExecutionPlan) (step : ExecutionStep)
    (requestedModel executedModel : string) (usage : option Usage) (status : UsageStatus)
    (errorKind : string) (startedAt finishedAt : Time) (fallbackCount : Z) : UsageRecord :=
  let breakdown := usage_breakdown usage in
  let usageSource := match usage with None => "" | Some u => u_Source u end in
  let executedModel := if executedModel == "" then requestedModel else executedModel in
  let '(costUSD, priced) := CostUSDWithMatch (d_priceCalculator d) (providerName step) executedModel breakdown in
  mkUsageRecord (ctx_RequestID ctx) (plan_ClientName plan) (plan_InboundName plan)
    (plan_InboundProtocol plan) (plan_ActiveTag plan) (plan_MatchedRule plan) (plan_Strategy plan)
    (st_OutboundName step) (st_OutboundProtocol step) (providerName step) requestedModel executedModel
    usageSource status errorKind (ctx_SessionID ctx) (ctx_Agent ctx) costUSD priced breakdown
    (format_rfc3339nano startedAt) (format_rfc3339nano finishedAt)
    (Milliseconds (Sub finishedAt startedAt)) fallbackCount.

Definition formatRetryAfter (value : Time) : string :=
  if IsZero value then "" else format_rfc3339nano value.

Definition costMicroUSD (record : UsageRecord) : Z :=
  round_to_int64 (fmul (ur_CostUSD record) (float_of_int 1000000)).

(** ** Feedback to the trackers *)

Definition beforeAttempt (d : Dispatcher) (outbound : string) : prog Decision :=
  if d_quotaTracker d then perform (QuotaBeforeAttempt outbound) else mret allowed.
Definition beforeHealthAttempt (d : Dispatcher) (outbound : string) : prog HealthDecision :=
  if d_healthTracker d then perform (HealthBeforeAttempt outbound) else mret health_allowed.

Definition governance (typ outbound reason retryAfter : string) : prog unit :=
  perform (RecordGovernance (mkEvent "" typ "" "" outbound reason retryAfter)).

Definition recordSuccess (d : Dispatcher) (outbound : string) (tokens : Z) (quotaProbe healthProbe : bool)
    : prog unit :=
  _ ← when (d_quotaTracker d) (perform (QuotaRecordSuccess outbound tokens));
  _ ← when (d_healthTracker d) (perform (HealthRecordSuccess outbound));
  _ ← when quotaProbe (governance EventOutboundProbeSucceeded outbound "" "");
  when healthProbe (governance EventProviderProbeSucceeded outbound "" "").

Definition recordProviderError (d : Dispatcher) (outbound : string) (kind : ErrorKind) : prog unit :=
  _ ← when (d_healthTracker d) (perform (HealthRecordFailure outbound kind));
  when (d_quotaTracker d && bool_decide (kind = ErrorKindQuotaExceeded))
    (_ ← perform (QuotaRecordExceeded outbound);
     governance EventOutboundQuotaExceeded outbound (kind_string kind) "").

Definition recordOutboundLimited (outbound : string) (decision : Decision) : prog unit :=
  governance EventOutboundLimited outbound (d_Reason decision) (formatRetryAfter (d_RetryAfter decision)).
Definition recordProviderHealthLimited (outbound : string) (decision : HealthDecision) : prog unit :=
  governance EventProviderHealthLimited outbound (reason_string (hd_Reason decision))
    (formatRetryAfter (hd_RetryAfter decision)).

Definition recordClientTerminalSuccess (d : Dispatcher) (record : UsageRecord) : prog unit :=
  if negb (d_clientQuotaTracker d) || negb (bool_decide (ur_Status record = UsageStatusSuccess)) then mret tt
  else perform (ClientRecordUsage (ur_ClientName record) (ub_TotalTokens (ur_Breakdown record))
                  (costMicroUSD record) (ur_Priced record)).

(** ** Dispatch *)

(** The body of the loops of [Dispatch] and [DispatchStream] ends the loop or goes on
    with the last error. *)
Inductive step_result (R : Type) :=
| Stop (o : outcome R)
| Next (lastErr : option goerror).
Arguments Stop {R} o.
Arguments Next {R} lastErr.

Section loop.
Context {R : Type} (d : Dispatcher) (ctx : Context_) (req : Request) (plan : ExecutionPlan) (startedAt : Time).
(** The request of a step before its model is set, the call of the provider, and what
    a call that succeeds does *)
Context (stepReq0 : Request).
Context (attempt : ExecutionStep -> Provider -> Request -> Decision -> HealthDecision -> Z -> prog (result goerror R)).

Definition isLast (i : Z) : bool := i =? Z.of_nat (length (plan_Steps plan)) - 1.

Definition try_step (i : Z) (step : ExecutionStep) (lastErr : option goerror) : prog (step_result R) :=
  if st_Type step != StepTypeOutbound then
    mret (Stop (Failed (Some (ErrFormat "unsupported execution step type %q" [st_Type step]))))
  else if st_ModelUnavailable step then
    mret (Next (selectPreferredError lastErr (Some (modelUnavailableError plan req))))
  else
    match st_OutboundTarget step with
    | None => mret (Stop (Failed (Some (ErrPlain "outbound target is required"))))
    | Some target =>
        let stepReq := if st_Model step != "" then with_Model stepReq0 (st_Model step) else stepReq0 in
        let name := st_OutboundName step in
        decision ← beforeAttempt d name;
        if negb (d_Allowed decision) then
          _ ← recordOutboundLimited name decision;
          mret (Next (selectPreferredError lastErr (Some (NewQuotaExceededError
            (ErrFormat "outbound %q quota %s" [name; d_Reason decision])))))
        else
          healthDecision ← beforeHealthAttempt d name;
          if negb (hd_Allowed healthDecision) then
            _ ← recordProviderHealthLimited name healthDecision;
            mret (Next (selectPreferredError lastErr (Some (NewRetryableError
              (ErrFormat "outbound %q health %s" [name; reason_string (hd_Reason healthDecision)])))))
          else
            answer ← attempt step target stepReq decision healthDecision i;
            match answer with
            | Ok r => mret (Stop (Returned r))
            | Err err =>
                let lastErr := selectPreferredError lastErr (Some err) in
                let errorKind := NormalizeError (Some err) in
                _ ← recordProviderError d name errorKind;
                match FallbackAllowed (st_OnError step) errorKind (isLast i) with
                | None => mret (Stop Panicked)
                | Some true => mret (Next lastErr)
                | Some false =>
                    finishedAt ← perform Now;
                    _ ← perform (StoreRecord (finalizeUsageRecord d ctx plan step (req_Model stepReq)
                      (req_Model stepReq) None UsageStatusError (kind_string (NormalizeError lastErr))
                      startedAt finishedAt i));
                    mret (Stop (Failed lastErr))
                end
            end
    end.

Fixpoint try_steps (i : Z) (steps : list ExecutionStep) (lastErr : option goerror) : prog (outcome R) :=
  match steps with
  | [] =>
      _ ← (match last (plan_Steps plan) with
           | None => mret tt
           | Some step =>
               finishedAt ← perform Now;
               perform (StoreRecord (finalizeUsageRecord d ctx plan step (req_Model req) (req_Model req) None
                 UsageStatusError (kind_string (NormalizeError lastErr)) startedAt finishedAt
                 (Z.of_nat (length (plan_Steps plan)) - 1)))
           end);
      mret (Failed lastErr)
  | step :: steps =>
      r ← try_step i step lastErr;
      match r with
      | Stop o => mret o
      | Next lastErr => try_steps (i + 1) steps lastErr
      end
  end.
End loop.

Definition recordSpan (name : string) (startedAt : Time) (attrs : gmap string string) : prog unit :=
  now ← perform Now;
  perform (LatencyMethod (MAddSpan name startedAt attrs now)).

Definition chat_attempt (d : Dispatcher) (ctx : Context_) (plan : ExecutionPlan) (startedAt : Time)
    (step : ExecutionStep) (target : Provider) (stepReq : Request) (decision : Decision)
    (healthDecision : HealthDecision) (i : Z) : prog (result goerror Response) :=
  attemptStartedAt ← perform Now;
  answer ← perform (ChatCompletion target stepReq);
  _ ← recordSpan "provider_dispatch" attemptStartedAt
        {[ "outbound" := st_OutboundName step; "protocol" := st_OutboundProtocol step ]};
  match answer with
  | Err err => mret (Err err)
  | Ok resp =>
      _ ← perform (LatencyMethod (MSetFallbackCount i));
      _ ← recordSuccess d (st_OutboundName step) (normalizedUsageTokens (resp_Usage resp))
            (d_Probe decision) (hd_Probe healthDecision);
      finishedAt ← perform Now;
      let record := finalizeUsageRecord d ctx plan step (req_Model stepReq) (resp_Model resp) (resp_Usage resp)
                      UsageStatusSuccess "" startedAt finishedAt i in
      _ ← perform (StoreRecord record);
      _ ← recordClientTerminalSuccess d record;
      mret (Ok resp)
  end.

Definition Dispatch (d : Dispatcher) (ctx : Context_) (req : Request) (plan : ExecutionPlan)
    : prog (outcome Response) :=
  match plan_Steps plan with
  | [] => mret (Failed (Some (ErrPlain "execution plan has no steps")))
  | steps =>
      startedAt ← perform Now;
      try_steps d ctx req plan startedAt req (chat_attempt d ctx plan startedAt) 0 steps None
  end.

(** The arguments of [wrapStream]: a stream that has been opened *)
Record Stream := mkStream {
  stream_step : ExecutionStep;
  stream_requestedModel : string;
  stream_fallbackCount : Z;
  stream_startedAt : Time;
  stream_quotaProbe : bool;
  stream_healthProbe : bool
}.

Definition stream_attempt (startedAt : Time) (step : ExecutionStep) (target : Provider) (stepReq : Request)
    (decision : Decision) (healthDecision : HealthDecision) (i : Z) : prog (result goerror Stream) :=
  attemptStartedAt ← perform Now;
  _ ← perform (LatencyMethod (MSetStreamState StreamStateDispatching));
  answer ← perform (StreamCompletion target stepReq);
  _ ← recordSpan "provider_dispatch" attemptStartedAt
        {[ "outbound" := st_OutboundName step; "protocol" := st_OutboundProtocol step; "stream" := "true" ]};
  match answer with
  | Err err => mret (Err err)
  | Ok _ =>
      _ ← perform (LatencyMethod (MSetFallbackCount i));
      now ← perform Now;
      _ ← perform (LatencyMethod (MSetProvider (st_OutboundName step) (st_OutboundProtocol step) now now));
      _ ← perform (LatencyMethod (MSetStreamState StreamStateWaitingFirstToken));
      mret (Ok (mkStream step (req_Model stepReq) i startedAt (d_Probe decision) (hd_Probe healthDecision)))
  end.

Definition DispatchStream (d : Dispatcher) (ctx : Context_) (req : Request) (plan : ExecutionPlan)
    : prog (outcome Stream) :=
  match plan_Steps plan with
  | [] => mret (Failed (Some (ErrPlain "execution plan has no steps")))
  | steps =>
      startedAt ← perform Now;
      try_steps d ctx req plan startedAt (with_Stream req true) (stream_attempt startedAt) 0 steps None
  end.

(** ** The stream *)

Definition isFirstContentDelta (e : StreamEvent) : bool :=
  match ev_Type e with
  | StreamEventContentDelta =>
      (match ev_Delta e with
       | Some p => (cp_Text p != "") || (0 <? len (cp_Data p))%nat
       | None => false
       end) ||
      (match ev_ToolCall e with
       | Some t => (tc_ID t != "") || (tc_Name t != "") || (tc_Arguments t != "") || (tc_Input t != "")
       | None => false
       end)
  | _ => false
  end.

(** What one iteration of the relaying goroutine meets: the context's [Done] branch, the
    closed channel (with whether the context is cancelled by then), or an event, with
    whether it was delivered before the context was cancelled. *)
Inductive input :=
| InDone
| InClosed (cancelled : bool)
| InEvent (e : StreamEvent) (delivered : bool).

Record relay := mkRelay { rl_usage : option Usage; rl_executedModel : string; rl_recorded : bool }.

(** The error of an event that ends the accounting of a stream *)
Definition event_error (e : StreamEvent) : option goerror :=
  match ev_Type e with StreamEventError => ev_Err e | _ => None end.

Definition relay_event (s : relay) (e : StreamEvent) : relay :=
  mkRelay (match ev_Usage e with Some u => Some u | None => rl_usage s end)
    (if ev_Model e != "" then ev_Model e else rl_executedModel s) (rl_recorded s).
Definition recorded (s : relay) : relay := mkRelay (rl_usage s) (rl_executedModel s) true.

Section wrapStream.
Context (d : Dispatcher) (ctx : Context_) (plan : ExecutionPlan) (w : Stream).

Definition stream_success (s : relay) : prog unit :=
  let step := stream_step w in
  _ ← perform (LatencyMethod (MSetStreamState StreamStateCompleted));
  _ ← recordSuccess d (st_OutboundName step) (normalizedUsageTokens (rl_usage s)) (stream_quotaProbe w)
        (stream_healthProbe w);
  finishedAt ← perform Now;
  let record := finalizeUsageRecord d ctx plan step (stream_requestedModel w) (rl_executedModel s) (rl_usage s)
                  UsageStatusSuccess "" (stream_startedAt w) finishedAt (stream_fallbackCount w) in
  _ ← perform (StoreRecord record);
  recordClientTerminalSuccess d record.

Definition stream_error (s : relay) (err : goerror) : prog unit :=
  let step := stream_step w in
  _ ← perform (LatencyMethod (MSetStreamState StreamStateError));
  let errorKind := NormalizeError (Some err) in
  _ ← recordProviderError d (st_OutboundName step) errorKind;
  finishedAt ← perform Now;
  perform (StoreRecord (finalizeUsageRecord d ctx plan step (stream_requestedModel w) (rl_executedModel s)
    (rl_usage s) UsageStatusError (kind_string errorKind) (stream_startedAt w) finishedAt
    (stream_fallbackCount w))).

Definition handle_event (s : relay) (e : StreamEvent) : prog relay :=
  now ← perform Now;
  _ ← perform (LatencyMethod (MMarkStreamEvent now now));
  _ ← when (isFirstContentDelta e) (now ← perform Now; perform (LatencyMethod (MMarkFirstToken now now)));
  let s := relay_event s e in
  match event_error e with
  | Some err => if rl_recorded s then mret s else _ ← stream_error s err; mret (recorded s)
  | None => mret s
  end.

(** The loop, on the inputs it meets; [true] when the goroutine has returned *)
Fixpoint relay_loop (s : relay) (inputs : list input) : prog bool :=
  match inputs with
  | [] => mret false
  | InDone :: _ =>
      _ ← perform (LatencyMethod (MSetStreamState StreamStateError)); mret true
  | InClosed cancelled :: _ =>
      if cancelled then _ ← perform (LatencyMethod (MSetStreamState StreamStateError)); mret true
      else _ ← when (negb (rl_recorded s)) (stream_success s); mret true
  | InEvent e delivered :: inputs =>
      s ← handle_event s e;
      if delivered then _ ← perform (Send e); relay_loop s inputs
      else _ ← perform (LatencyMethod (MSetStreamState StreamStateError)); mret true
  end.
Definition wrapStream : list input -> prog bool :=
  relay_loop (mkRelay None (stream_requestedModel w) false).
End wrapStream.

(** ** Running against the other components *)

Record World := mkWorld {
  w_now : Time;
  w_quota : option Tracker;
  w_clients : option Tracker;
  w_health : option HealthTracker;
  w_events : option EventRecorder;
  w_latency : lat;
  w_store : MemoryStore
}.
Definition with_quota (w : World) q := mkWorld (w_now w) q (w_clients w) (w_health w) (w_events w) (w_latency w) (w_store w).
Definition with_clients (w : World) c := mkWorld (w_now w) (w_quota w) c (w_health w) (w_events w) (w_latency w) (w_store w).
Definition with_health (w : World) h := mkWorld (w_now w) (w_quota w) (w_clients w) h (w_events w) (w_latency w) (w_store w).
Definition with_events (w : World) e := mkWorld (w_now w) (w_quota w) (w_clients w) (w_health w) e (w_latency w) (w_store w).
Definition with_latency (w : World) l := mkWorld (w_now w) (w_quota w) (w_clients w) (w_health w) (w_events w) l (w_store w).
Definition with_store (w : World) s := mkWorld (w_now w) (w_quota w) (w_clients w) (w_health w) (w_events w) (w_latency w) s.
Definition tick (w : World) := mkWorld (w_now w + Millisecond) (w_quota w) (w_clients w) (w_health w) (w_events w) (w_latency w) (w_store w).

(** *** Queries *)

Definition QueryUsageBy (w : World) (query : Query) : result queryError (list StatsItem) :=
  StoreQuery (w_store w) query.
Definition QueryUsage (w : World) (groupBy : string) : result queryError (list StatsItem) :=
  QueryUsageBy w (mkQuery groupBy WindowTotal "" "" "" "").
Definition QueryRecentUsage (w : World) (query : RecentRecordsQuery) : list UsageRecord :=
  RecentRecords (w_store w) query.
Definition QueryUsageCoverage (w : World) : Coverage := StoreCoverage (w_store w).
Definition QueryQuotaEvents (w : World) : list Event := EventsSnapshot (w_events w).
Definition QueryProviderHealth (w : World) : list HealthSnapshotItem :=
  HealthTracker_Snapshot (w_health w) (fun _ => w_now w).
Definition QueryQuota (w : World) : list SnapshotItem * World :=
  let '(items, q) := Snapshot (w_quota w) (w_now w) in (items, with_quota w q).
Definition QueryLatency (w : World) : list Trace := TracesSnapshot (w_latency w).2.
Definition QueryActiveLatency (w : World) : list Trace := ActiveTraces (w_latency w).2.
Definition QueryLatencySummary (w : World) : Summary := StoreSummary (w_latency w).2.

(** The providers are functions of the request; the clock advances by a millisecond
    with each reading. *)
Section exec.
Context (chat : Provider -> Request -> result goerror Response).
Context (open : Provider -> Request -> result goerror unit).

Definition answer (B : Type) (c : call B) (w : World) : World * B :=
  let now := w_now w in
  match c in call B return World * B with
  | Now => (tick w, now)
  | QuotaBeforeAttempt o => let '(r, q) := QuotaTracker.BeforeAttempt (w_quota w) o now in (with_quota w q, r)
  | HealthBeforeAttempt o =>
      match w_health w with
      | None => (w, health_allowed)
      | Some h => let '(r, h) := Health.BeforeAttempt h o now in (with_health w (Some h), r)
      end
  | ChatCompletion p req => (w, chat p req)
  | StreamCompletion p req => (w, open p req)
  | QuotaRecordSuccess o n => (with_quota w (QuotaTracker.RecordSuccess (w_quota w) o [n] now), tt)
  | QuotaRecordExceeded o => (with_quota w (RecordQuotaExceeded (w_quota w) o now), tt)
  | HealthRecordSuccess o => (with_health w ((fun h => Health.RecordSuccess h o now) <$> w_health w), tt)
  | HealthRecordFailure o k => (with_health w ((fun h => Health.RecordFailure h o k now) <$> w_health w), tt)
  | RecordGovernance e => (with_events w (RecordEvent (w_events w) e now), tt)
  | StoreRecord r => (with_store w (Record_ (w_store w) r), tt)
  | ClientRecordUsage c n cost priced =>
      (with_clients w (RecordClientTerminalUsage (w_clients w) c n cost priced now), tt)
  | LatencyMethod m => (with_latency w (run_method (w_latency w) m), tt)
  | Send e => (w, tt)
  end.

End exec.
Abbreviation exec chat open := (Program.exec observe (answer chat open)).
