(* ===== verification/DispatcherFacts.v ===== *)
(** * Properties of the dispatcher

    The failover loop refines an abstract failover: the steps of a plan are walked in
    order, the ones that fail leave an error each, and the walk ends with the first
    success or with an error that stops it.  What follows from it: one usage record per
    request, the order of the provider calls, the error that is returned, the feedback
    to the trackers.  The relay of a stream: what is accounted, and what a cancellation
    leaves undone. *)

From Stdlib Require Import SpecFloat.
From S2P Require Import Prelude Program GoStrings GoTime ProviderErrors RuntimeModel ConfigTypes.
From S2P Require Import QuotaWindow QuotaTracker Accounting QuotaEvents Latency Health Dispatcher.

(** ** Runs *)

(** The calls that matter to accounting and to the trackers: the guards, the provider
    calls, the feedback, the usage record. *)
Definition relevant (e : event) : bool :=
  match e with ENow _ | EGovernance _ | ELatency _ | ESend _ => false | _ => true end.
Definition effects (tr : list event) : list event := filter (fun e => relevant e = true) tr.
Lemma effects_app tr1 tr2 : effects (tr1 ++ tr2) = effects tr1 ++ effects tr2.
Proof. apply filter_app. Qed.
Lemma effects_cons e tr : effects (e :: tr) = if relevant e then e :: effects tr else effects tr.
Proof. unfold effects. rewrite filter_cons. by destruct (relevant e). Qed.
Lemma effects_nil : effects [] = [].
Proof. done. Qed.

Definition opt_event (b : bool) (e : event) : list event := if b then [e] else [].

Lemma when_effects b e (c : call unit) tr u :
  (forall x, observe _ c x = e) -> runs (when b (perform c)) tr u -> effects tr = effects (opt_event b e).
Proof. intros He. destruct b; cbn [when]; intros H; run_inv; cbn; by rewrite ?He. Qed.

(** ** Feedback *)

Definition success_feedback (d : Dispatcher) (outbound : string) (tokens : Z) : list event :=
  opt_event (d_quotaTracker d) (EQuotaSuccess outbound tokens) ++
  opt_event (d_healthTracker d) (EHealthSuccess outbound).
Definition failure_feedback (d : Dispatcher) (outbound : string) (kind : ErrorKind) : list event :=
  opt_event (d_healthTracker d) (EHealthFailure outbound kind) ++
  opt_event (d_quotaTracker d && bool_decide (kind = ErrorKindQuotaExceeded)) (EQuotaExceeded outbound).
Definition client_feedback (d : Dispatcher) (r : UsageRecord) : list event :=
  opt_event (d_clientQuotaTracker d && bool_decide (ur_Status r = UsageStatusSuccess))
    (EClientUsage (ur_ClientName r) (ub_TotalTokens (ur_Breakdown r)) (costMicroUSD r) (ur_Priced r)).

Lemma effects_recordSuccess d o n qp hp tr u :
  runs (recordSuccess d o n qp hp) tr u -> effects tr = success_feedback d o n.
Proof.
  unfold recordSuccess, governance. intros H. run_inv. rewrite !effects_app.
  apply (when_effects _ (EQuotaSuccess o n)) in H0 as ->; [|done].
  apply (when_effects _ (EHealthSuccess o)) in H1 as ->; [|done].
  destruct qp, hp; cbn [when] in *; run_inv; cbn; rewrite ?app_nil_r; unfold success_feedback;
    by destruct (d_quotaTracker d), (d_healthTracker d).
Qed.

Lemma effects_recordProviderError d o k tr u :
  runs (recordProviderError d o k) tr u -> effects tr = failure_feedback d o k.
Proof.
  unfold recordProviderError, governance, failure_feedback. intros H. run_inv. rewrite !effects_app.
  apply (when_effects _ (EHealthFailure o k)) in H0 as ->; [|done].
  destruct (d_quotaTracker d && _); cbn [when] in *; run_inv; by destruct (d_healthTracker d).
Qed.

Lemma effects_recordClient d r tr u :
  runs (recordClientTerminalSuccess d r) tr u -> effects tr = client_feedback d r.
Proof.
  unfold recordClientTerminalSuccess, client_feedback.
  destruct (d_clientQuotaTracker d), (bool_decide _); cbn [negb orb andb]; intros H; run_inv; done.
Qed.

(** ** The failover loop *)

(** Why a step of the walk gave no response *)
Inductive failure :=
| FUnavailable
| FQuota (decision : Decision)
| FHealth (decision : Decision) (healthDecision : HealthDecision)
| FCall (decision : Decision) (healthDecision : HealthDecision) (err : goerror).

Definition failure_error (plan : ExecutionPlan) (req : Request) (sf : ExecutionStep * failure) : goerror :=
  let name := st_OutboundName sf.1 in
  match sf.2 with
  | FUnavailable => modelUnavailableError plan req
  | FQuota dec => NewQuotaExceededError (ErrFormat "outbound %q quota %s" [name; d_Reason dec])
  | FHealth _ hd => NewRetryableError (ErrFormat "outbound %q health %s" [name; reason_string (hd_Reason hd)])
  | FCall _ _ err => err
  end.

Definition guards (d : Dispatcher) (name : string) (qd : Decision) (hd : HealthDecision) : list event :=
  opt_event (d_quotaTracker d) (EQuotaBefore name qd) ++ opt_event (d_healthTracker d) (EHealthBefore name hd).

(** The request a step is sent *)
Definition step_request (stepReq0 : Request) (step : ExecutionStep) : Request :=
  if st_Model step != "" then with_Model stepReq0 (st_Model step) else stepReq0.

(** A failure is one its step can have: a guard that denied, a call the guards let through. *)
Definition failure_ok (d : Dispatcher) (sf : ExecutionStep * failure) : Prop :=
  match sf.2 with
  | FUnavailable => st_ModelUnavailable sf.1 = true
  | FQuota dec => st_ModelUnavailable sf.1 = false /\ d_quotaTracker d = true /\ d_Allowed dec = false
  | FHealth dec hd => st_ModelUnavailable sf.1 = false /\ d_Allowed dec = true /\ d_healthTracker d = true /\
      hd_Allowed hd = false
  | FCall dec hd _ => st_ModelUnavailable sf.1 = false /\ d_Allowed dec = true /\ hd_Allowed hd = true
  end.

Definition known_condition (c : FallbackCondition) : bool :=
  bool_decide (c ∈ [""; FallbackAlways; FallbackOnRetryable; FallbackOnQuotaExceeded]).
(** The plans the router makes: outbound steps with a target or without a model, and a
    fallback condition the dispatcher knows *)
Definition step_wf (s : ExecutionStep) : bool :=
  (st_Type s == StepTypeOutbound) &&
  (st_ModelUnavailable s || match st_OutboundTarget s with Some _ => true | None => false end) &&
  known_condition (st_OnError s).

Lemma FallbackAllowed_known c k b : known_condition c = true -> is_Some (FallbackAllowed c k b).
Proof.
  intros H%bool_decide_eq_true. unfold FallbackAllowed. destruct b; [done|].
  set_unfold in H. destruct H as [->|[->|[->|[->|[]]]]]; done.
Qed.

Section failover.
Context {R : Type} (d : Dispatcher) (ctx : Context_) (req : Request) (plan : ExecutionPlan) (startedAt : Time).
Context (stepReq0 : Request).
Context (attempt : ExecutionStep -> Provider -> Request -> Decision -> HealthDecision -> Z -> prog (result goerror R)).
(** What a provider call is, when it fails, and what an attempt that succeeds does *)
Context (call_event : Provider -> Request -> goerror -> event).
Context (success : ExecutionStep -> Provider -> Request -> Decision -> HealthDecision -> Z -> R -> list event -> Prop).
Hypothesis attempt_spec : forall step target sreq qd hd i tr a,
  runs (attempt step target sreq qd hd i) tr a ->
  match a with
  | Ok r => success step target sreq qd hd i r (effects tr)
  | Err err => effects tr = [call_event target sreq err]
  end.

Definition failure_effects (sf : ExecutionStep * failure) : list event :=
  let name := st_OutboundName sf.1 in
  match sf.2 with
  | FUnavailable => []
  | FQuota dec => [EQuotaBefore name dec]
  | FHealth qd hd => guards d name qd hd
  | FCall qd hd err =>
      guards d name qd hd ++
      match st_OutboundTarget sf.1 with
      | Some target => [call_event target (step_request stepReq0 sf.1) err]
      | None => []
      end ++ failure_feedback d name (NormalizeError (Some err))
  end.

(** A failure after which the loop goes on, at index [i] *)
Definition continues (i : Z) (sf : ExecutionStep * failure) : Prop :=
  match sf.2 with
  | FCall _ _ err =>
      FallbackAllowed (st_OnError sf.1) (NormalizeError (Some err)) (isLast plan i) = Some true
  | _ => True
  end.
Definition stops (i : Z) (sf : ExecutionStep * failure) : Prop :=
  match sf.2 with
  | FCall _ _ err =>
      FallbackAllowed (st_OnError sf.1) (NormalizeError (Some err)) (isLast plan i) = Some false
  | _ => False
  end.

Definition error_record (step : ExecutionStep) (model : string) (err : option goerror) (at_ : Time) (i : Z)
    : UsageRecord :=
  finalizeUsageRecord d ctx plan step model model None UsageStatusError (kind_string (NormalizeError err))
    startedAt at_ i.

(** What an attempt that succeeds at [step] needs and does *)
Definition step_success (i : Z) (step : ExecutionStep) (r : R) (es : list event) : Prop :=
  exists target qd hd es', st_ModelUnavailable step = false /\ st_OutboundTarget step = Some target /\
    d_Allowed qd = true /\ hd_Allowed hd = true /\
    success step target (step_request stepReq0 step) qd hd i r es' /\
    es = guards d (st_OutboundName step) qd hd ++ es'.

Lemma runs_beforeAttempt name tr dec :
  runs (beforeAttempt d name) tr dec ->
  effects tr = opt_event (d_quotaTracker d) (EQuotaBefore name dec) /\
  (d_Allowed dec = false -> d_quotaTracker d = true).
Proof. unfold beforeAttempt. destruct (d_quotaTracker d); intros H; run_inv; done. Qed.
Lemma runs_beforeHealthAttempt name tr hd :
  runs (beforeHealthAttempt d name) tr hd ->
  effects tr = opt_event (d_healthTracker d) (EHealthBefore name hd) /\
  (hd_Allowed hd = false -> d_healthTracker d = true).
Proof. unfold beforeHealthAttempt. destruct (d_healthTracker d); intros H; run_inv; done. Qed.

Lemma try_step_cases i step lastErr tr r :
  step_wf step = true ->
  runs (try_step d ctx req plan startedAt stepReq0 attempt i step lastErr) tr r ->
  (exists f, failure_ok d (step, f) /\
     let err := selectPreferredError lastErr (Some (failure_error plan req (step, f))) in
     (r = Next err /\ continues i (step, f) /\ effects tr = failure_effects (step, f)) \/
     (r = Stop (Failed err) /\ stops i (step, f) /\ exists at_, effects tr = failure_effects (step, f) ++
        [ERecord (error_record step (req_Model (step_request stepReq0 step)) err at_ i)])) \/
  (exists a, r = Stop (Returned a) /\ step_success i step a (effects tr)).
Proof.
  intros Hwf. unfold step_wf in Hwf. apply andb_true_iff in Hwf as [[Ht Hu]%andb_true_iff Hc].
  unfold try_step. rewrite Ht. cbn [negb].
  destruct (st_ModelUnavailable step) eqn:Hun.
  { intros H. run_inv. left. exists FUnavailable. split; [done|]. by left. }
  cbn [orb] in Hu. destruct (st_OutboundTarget step) as [target|] eqn:Htg; [|done].
  fold (step_request stepReq0 step). intros H. run_inv. rename x into qd.
  apply runs_beforeAttempt in H0 as [E1 Hq].
  destruct (d_Allowed qd) eqn:Hqd; cbn [negb] in H.
  2: { left. exists (FQuota qd). split; [cbn; auto|]. left. unfold recordOutboundLimited, governance in H. run_inv.
       split; [done|]. split; [done|]. by rewrite effects_app, E1, Hq. }
  run_inv. rename x into hd. apply runs_beforeHealthAttempt in H0 as [E2 Hh].
  destruct (hd_Allowed hd) eqn:Hhd; cbn [negb] in H.
  2: { left. exists (FHealth qd hd). split; [cbn; auto|]. left.
       unfold recordProviderHealthLimited, governance in H. run_inv.
       split; [done|]. split; [done|]. by rewrite !effects_app, E1, E2, app_nil_r. }
  run_inv. rename x into a. apply attempt_spec in H0. destruct a as [a|err].
  { right. exists a. run_inv. split; [done|]. exists target, qd, hd, (effects t0).
    split_and!; try done. rewrite !effects_app, E1, E2, app_nil_r. unfold guards. by rewrite <-app_assoc. }
  left. exists (FCall qd hd err). split; [done|]. run_inv. apply effects_recordProviderError in H1.
  assert (effects t ++ effects t1 ++ effects t0 ++ effects t2 = failure_effects (step, FCall qd hd err)) as HE.
  { unfold failure_effects. cbn [fst snd]. rewrite E1, E2, H0, H1, Htg. unfold guards. by rewrite <-!app_assoc. }
  destruct (FallbackAllowed_known (st_OnError step) (NormalizeError (Some err)) (isLast plan i) Hc) as [b Hb].
  rewrite Hb in H. destruct b.
  - left. run_inv. split; [done|]. split; [done|]. by rewrite !effects_app, <-HE, app_nil_r.
  - right. run_inv. split; [done|]. split; [done|]. eexists.
    rewrite <-HE, !effects_app, <-!(assoc (++)). done.
Qed.

Definition all_continue (i : Z) (fails : list (ExecutionStep * failure)) : Prop :=
  forall k sf, fails !! k = Some sf -> continues (i + Z.of_nat k) sf.
Definition failures_effects (fails : list (ExecutionStep * failure)) : list event :=
  concat (map failure_effects fails).
(** The error kept after these failures *)
Definition kept_error (lastErr : option goerror) (fails : list (ExecutionStep * failure)) : option goerror :=
  foldl selectPreferredError lastErr (map (fun sf => Some (failure_error plan req sf)) fails).

(** The abstract failover from index [i] of the plan *)
Inductive failover (i : Z) (steps : list ExecutionStep) (lastErr : option goerror)
    : list event -> outcome R -> Prop :=
| failover_success fails step rest a es :
    steps = fails.*1 ++ step :: rest -> Forall (failure_ok d) fails -> all_continue i fails ->
    step_success (i + Z.of_nat (length fails)) step a es ->
    failover i steps lastErr (failures_effects fails ++ es) (Returned a)
| failover_stopped fails sf rest at_ err :
    steps = fails.*1 ++ sf.1 :: rest -> Forall (failure_ok d) (fails ++ [sf]) -> all_continue i fails ->
    stops (i + Z.of_nat (length fails)) sf -> err = kept_error lastErr (fails ++ [sf]) ->
    failover i steps lastErr
      (failures_effects (fails ++ [sf]) ++
       [ERecord (error_record sf.1 (req_Model (step_request stepReq0 sf.1)) err at_
                   (i + Z.of_nat (length fails)))])
      (Failed err)
| failover_exhausted fails step at_ err :
    steps = fails.*1 -> Forall (failure_ok d) fails -> all_continue i fails ->
    last (plan_Steps plan) = Some step -> err = kept_error lastErr fails ->
    failover i steps lastErr
      (failures_effects fails ++
       [ERecord (error_record step (req_Model req) err at_ (Z.of_nat (length (plan_Steps plan)) - 1))])
      (Failed err).

Lemma all_continue_cons i sf fails :
  continues i sf -> all_continue (i + 1) fails -> all_continue i (sf :: fails).
Proof.
  intros H Hs [|k] sf' E; cbn in E; [simplify_eq; by rewrite Z.add_0_r|].
  specialize (Hs k sf' E). by replace (i + Z.of_nat (S k)) with (i + 1 + Z.of_nat k) by lia.
Qed.
Lemma index_cons i {A} (x : A) l : i + 1 + Z.of_nat (length l) = i + Z.of_nat (length (x :: l)).
Proof. cbn [length]. lia. Qed.

Lemma failover_cons i step steps f lastErr es o :
  failure_ok d (step, f) -> continues i (step, f) ->
  failover (i + 1) steps (selectPreferredError lastErr (Some (failure_error plan req (step, f)))) es o ->
  failover i (step :: steps) lastErr (failure_effects (step, f) ++ es) o.
Proof.
  intros Hok Hc H. destruct H as [fails st rest a es -> Hf Ha Hs|fails sf rest at_ err -> Hf Ha Hs He|
    fails st at_ err -> Hf Ha Hs He]; rewrite (assoc (++)).
  - rewrite (index_cons i (step, f)) in Hs.
    by apply (failover_success _ _ _ ((step, f) :: fails) st rest a es);
      [|constructor|apply all_continue_cons|].
  - rewrite (index_cons i (step, f)) in *.
    by apply (failover_stopped _ _ _ ((step, f) :: fails) sf rest at_ err);
      [|constructor|apply all_continue_cons| |].
  - by apply (failover_exhausted _ _ _ ((step, f) :: fails) st at_ err);
      [|constructor|apply all_continue_cons| |].
Qed.

Lemma try_steps_failover i steps lastErr tr o :
  plan_Steps plan <> [] -> Forall (fun s => step_wf s = true) steps ->
  runs (try_steps d ctx req plan startedAt stepReq0 attempt i steps lastErr) tr o ->
  failover i steps lastErr (effects tr) o.
Proof.
  intros Hne Hwf. revert i lastErr tr. induction steps as [|step steps IH]; intros i lastErr tr;
    cbn [try_steps].
  - destruct (last (plan_Steps plan)) as [step|] eqn:El; [|by apply last_None in El].
    intros H. run_inv. rewrite !effects_app. cbn.
    by apply (failover_exhausted i [] lastErr [] step).
  - apply Forall_cons in Hwf as [Hw Hws]. intros H. run_inv.
    apply try_step_cases in H0 as [(f & Hok & [(-> & Hc & E)|(-> & Hst & at_ & E)])|(a & -> & Hs)]; [| | |done].
    + rewrite effects_app, E. eapply failover_cons; eauto.
    + run_inv. rewrite effects_app, E, app_nil_r.
      rewrite <-(Z.add_0_r i) in Hst |- * at 2.
      rewrite <-(app_nil_r (failure_effects _)).
      apply (failover_stopped i _ lastErr [] (step, f) steps); try done.
      by constructor.
    + run_inv. rewrite effects_app, app_nil_r.
      apply (failover_success i _ lastErr [] step steps); try done. by rewrite Z.add_0_r.
Qed.
End failover.

(** ** The error that is kept *)

(** The order in which errors are worth returning, the best first, on its own terms: a
    refusal (a quota that is used up, credentials that do not pass) that carries what an
    upstream's HTTP answer says of it (its status, request id or Retry-After), a refusal
    that does not, which is one of the gateway's own, an error that no retry can help,
    one that a retry can, and any other, a missing model among them. *)
Inductive error_class := UpstreamRefusal | OwnRefusal | FinalError | PassingError | OtherError.
#[export] Instance error_class_eq_dec : EqDecision error_class.
Proof. solve_decision. Defined.

Definition error_preference : list error_class :=
  [UpstreamRefusal; OwnRefusal; FinalError; PassingError; OtherError].

Definition http_answer (err : goerror) : Prop :=
  exists kind status requestID retryAfter, AsProviderError err = Some (kind, status, requestID, retryAfter) /\
    (status <> 0 \/ requestID <> "" \/ retryAfter <> "").

Definition in_class (err : goerror) (c : error_class) : Prop :=
  let kind := NormalizeError (Some err) in
  match c with
  | UpstreamRefusal => kind ∈ [ErrorKindQuotaExceeded; ErrorKindAuthFailed] /\ http_answer err
  | OwnRefusal => kind ∈ [ErrorKindQuotaExceeded; ErrorKindAuthFailed] /\ ~ http_answer err
  | FinalError => kind ∈ [ErrorKindFatal; ErrorKindCapabilityUnsupported]
  | PassingError => kind ∈ [ErrorKindTimeout; ErrorKindUpstreamServerError; ErrorKindRetryable]
  | OtherError => kind ∈ [ErrorKindUnknown; ErrorKindModelUnavailable]
  end.

(** [c] comes strictly before [c'] in the order of preference. *)
Definition better_class (c c' : error_class) : Prop :=
  exists before between after, error_preference = before ++ c :: between ++ c' :: after.
(** [e] is worth more than [e'], or as much. *)
Definition better (e e' : goerror) : Prop :=
  exists c c', in_class e c /\ in_class e' c' /\ better_class c c'.
Definition as_good (e e' : goerror) : Prop := better e e' \/ exists c, in_class e c /\ in_class e' c.

(** [e] is the first of the most preferred errors in [l]. *)
Definition first_preferred (l : list goerror) (e : goerror) : Prop :=
  exists pre post, l = pre ++ e :: post /\
    Forall (fun e' => better e e') pre /\ Forall (fun e' => as_good e e') post.

(** The code's priorities are the order of preference, counted from the end. *)
Definition class_priority (c : error_class) : Z :=
  match c with UpstreamRefusal => 5 | OwnRefusal => 4 | FinalError => 3 | PassingError => 2 | OtherError => 1 end.

Lemma http_answer_iff err :
  http_answer err <-> match AsProviderError err with
    | Some (_, status, requestID, retryAfter) =>
        negb (status =? 0) || (requestID != "") || (retryAfter != "") = true
    | None => False
    end.
Proof.
  unfold http_answer. destruct (AsProviderError err) as [[[[k st] id] ra]|]; [|naive_solver].
  rewrite !orb_true_iff, !negb_true_iff, Z.eqb_neq, !String.eqb_neq. naive_solver.
Qed.

Lemma class_exists err : exists c, in_class err c /\ preferredErrorPriority err = class_priority c.
Proof.
  pose proof (http_answer_iff err) as Hh. unfold preferredErrorPriority.
  destruct (NormalizeError (Some err)) eqn:Ek;
    try (by exists OtherError; unfold in_class; rewrite Ek; split; [set_solver|]);
    try (by exists PassingError; unfold in_class; rewrite Ek; split; [set_solver|]);
    try (by exists FinalError; unfold in_class; rewrite Ek; split; [set_solver|]).
  all: destruct (AsProviderError err) as [[[[k st] id] ra]|];
    [destruct (_ || _) eqn:Em|];
    [exists UpstreamRefusal|exists OwnRefusal|exists OwnRefusal];
    unfold in_class; rewrite Ek; (split; [split; [set_solver|naive_solver]|done]).
Qed.

Lemma better_priority c c' : class_priority c' < class_priority c -> better_class c c'.
Proof.
  unfold better_class, error_preference.
  destruct c, c'; cbn; try lia; intros _;
  first [by exists [], []; eexists | by exists [], [OwnRefusal]; eexists
    | by exists [], [OwnRefusal; FinalError]; eexists | by exists [], [OwnRefusal; FinalError; PassingError]; eexists
    | by exists [UpstreamRefusal], []; eexists | by exists [UpstreamRefusal], [FinalError]; eexists
    | by exists [UpstreamRefusal], [FinalError; PassingError]; eexists
    | by exists [UpstreamRefusal; OwnRefusal], []; eexists | by exists [UpstreamRefusal; OwnRefusal], [PassingError]; eexists
    | by exists [UpstreamRefusal; OwnRefusal; FinalError], []; eexists].
Qed.

Lemma priority_better e e' : preferredErrorPriority e' < preferredErrorPriority e -> better e e'.
Proof.
  destruct (class_exists e) as (c & Hc & ->), (class_exists e') as (c' & Hc' & ->).
  intros H%better_priority. by exists c, c'.
Qed.
Lemma priority_as_good e e' : preferredErrorPriority e' <= preferredErrorPriority e -> as_good e e'.
Proof.
  intros H. destruct (decide (preferredErrorPriority e' < preferredErrorPriority e)); [by left; apply priority_better|].
  assert (preferredErrorPriority e' = preferredErrorPriority e) as E by lia. right.
  destruct (class_exists e) as (c & Hc & Ec), (class_exists e') as (c' & Hc' & Ec').
  exists c. split; [done|]. by replace c with c'; [|rewrite Ec, Ec' in E; by destruct c, c'].
Qed.

Definition first_of_priority (l : list goerror) (e : goerror) : Prop :=
  exists pre post, l = pre ++ e :: post /\
    Forall (fun e' => preferredErrorPriority e' < preferredErrorPriority e) pre /\
    Forall (fun e' => preferredErrorPriority e' <= preferredErrorPriority e) post.
Lemma first_of_priority_preferred l e : first_of_priority l e -> first_preferred l e.
Proof.
  intros (pre & post & -> & Hpre & Hpost). exists pre, post. split; [done|].
  split; [eapply Forall_impl; [exact Hpre|]; intros; by apply priority_better
    |eapply Forall_impl; [exact Hpost|]; intros; by apply priority_as_good].
Qed.

Lemma select_first c l :
  exists e, foldl selectPreferredError (Some c) (map Some l) = Some e /\ first_of_priority (c :: l) e.
Proof.
  revert c. induction l as [|x l IH]; intros c; cbn [map foldl].
  { exists c. split; [done|]. by exists [], []. }
  cbn [selectPreferredError].
  destruct (Z.ltb_spec (preferredErrorPriority c) (preferredErrorPriority x)) as [Hlt|Hge].
  - destruct (IH x) as (e & E & [|y pre] & post & Hl & Hpre & Hpost).
    + exists e. split; [done|]. simplify_list_eq. exists [c], post. by split_and!; [|constructor|].
    + exists e. split; [done|]. simplify_list_eq. exists (c :: y :: pre), post. split_and!; [done| |done].
      constructor; [|done]. apply Forall_cons in Hpre as [Hy _]. lia.
  - destruct (IH c) as (e & E & [|y pre] & post & Hl & Hpre & Hpost).
    + exists e. split; [done|]. simplify_list_eq. exists [], (x :: post). split_and!; [done|done|].
      by constructor.
    + exists e. split; [done|]. simplify_list_eq. exists (y :: x :: pre), post. split_and!; [done| |done].
      apply Forall_cons in Hpre as [Hy Hp]. constructor; [done|]. constructor; [lia|done].
Qed.

Lemma kept_error_first req plan fails :
  fails <> [] -> exists e, kept_error req plan None fails = Some e /\
    first_preferred (map (failure_error plan req) fails) e.
Proof.
  destruct fails as [|sf fails]; [done|]. intros _. unfold kept_error. cbn [map foldl selectPreferredError].
  rewrite <-(map_map (failure_error plan req) Some).
  edestruct select_first as (e & He & Hf). exists e. split; [exact He|]. by apply first_of_priority_preferred.
Qed.

(** ** Both dispatch functions are failovers *)

Definition success_record (d : Dispatcher) (ctx : Context_) (plan : ExecutionPlan) (startedAt : Time)
    (step : ExecutionStep) (model : string) (resp : Response) (at_ : Time) (i : Z) : UsageRecord :=
  finalizeUsageRecord d ctx plan step model (resp_Model resp) (resp_Usage resp) UsageStatusSuccess ""
    startedAt at_ i.

Definition chat_success (d : Dispatcher) (ctx : Context_) (plan : ExecutionPlan) (startedAt : Time)
    (step : ExecutionStep) (target : Provider) (sreq : Request) (qd : Decision) (hd : HealthDecision)
    (i : Z) (resp : Response) (es : list event) : Prop :=
  exists at_, let r := success_record d ctx plan startedAt step (req_Model sreq) resp at_ i in
    es = EChat target sreq (Ok resp) ::
         success_feedback d (st_OutboundName step) (normalizedUsageTokens (resp_Usage resp)) ++
         [ERecord r] ++ client_feedback d r.
Definition chat_event (target : Provider) (req : Request) (err : goerror) : event :=
  EChat target req (Err err).

Lemma chat_attempt_spec d ctx plan startedAt step target sreq qd hd i tr a :
  runs (chat_attempt d ctx plan startedAt step target sreq qd hd i) tr a ->
  match a with
  | Ok r => chat_success d ctx plan startedAt step target sreq qd hd i r (effects tr)
  | Err err => effects tr = [chat_event target sreq err]
  end.
Proof.
  unfold chat_attempt, recordSpan. intros H. run_inv. destruct x0 as [resp|err]; run_inv; [|done].
  repeat match goal with
  | H : runs (recordSuccess _ _ _ _ _) _ _ |- _ => apply effects_recordSuccess in H
  | H : runs (recordClientTerminalSuccess _ _) _ _ |- _ => apply effects_recordClient in H
  end.
  eexists. rewrite !effects_app.
  repeat match goal with H : effects _ = _ |- _ => rewrite H; clear H end.
  rewrite !effects_cons, !effects_nil. cbn. by rewrite app_nil_r.
Qed.

Definition open_success (startedAt : Time) (step : ExecutionStep) (target : Provider) (sreq : Request)
    (qd : Decision) (hd : HealthDecision) (i : Z) (w : Stream) (es : list event) : Prop :=
  es = [EStream target sreq (Ok tt)] /\
  w = mkStream step (req_Model sreq) i startedAt (d_Probe qd) (hd_Probe hd).
Definition open_event (target : Provider) (req : Request) (err : goerror) : event :=
  EStream target req (Err err).

Lemma stream_attempt_spec startedAt step target sreq qd hd i tr a :
  runs (stream_attempt startedAt step target sreq qd hd i) tr a ->
  match a with
  | Ok r => open_success startedAt step target sreq qd hd i r (effects tr)
  | Err err => effects tr = [open_event target sreq err]
  end.
Proof.
  unfold stream_attempt, recordSpan. intros H. run_inv.
  match goal with u : result goerror () |- _ => destruct u as [[]|err] end; run_inv; by cbn.
Qed.

(** A plan the router makes *)
Definition plan_wf (plan : ExecutionPlan) : Prop :=
  plan_Steps plan <> [] /\ Forall (fun s => step_wf s = true) (plan_Steps plan).

Lemma Dispatch_failover d ctx req plan tr o :
  plan_wf plan -> runs (Dispatch d ctx req plan) tr o ->
  exists startedAt, failover d ctx req plan startedAt req chat_event (chat_success d ctx plan startedAt)
    0 (plan_Steps plan) None (effects tr) o.
Proof.
  intros [Hne Hwf]. unfold Dispatch. destruct (plan_Steps plan) as [|st sts] eqn:E; [done|].
  rewrite <-E in *. intros H. run_inv. rewrite effects_app. exists x.
  eapply try_steps_failover; [apply chat_attempt_spec|done..].
Qed.
Lemma DispatchStream_failover d ctx req plan tr o :
  plan_wf plan -> runs (DispatchStream d ctx req plan) tr o ->
  exists startedAt, failover d ctx req plan startedAt (with_Stream req true) open_event
    (open_success startedAt) 0 (plan_Steps plan) None (effects tr) o.
Proof.
  intros [Hne Hwf]. unfold DispatchStream. destruct (plan_Steps plan) as [|st sts] eqn:E; [done|].
  rewrite <-E in *. intros H. run_inv. rewrite effects_app. exists x.
  eapply try_steps_failover; [apply stream_attempt_spec|done..].
Qed.

(** ** What a trace shows *)

Definition records (tr : list event) : list UsageRecord :=
  omap (fun e => match e with ERecord r => Some r | _ => None end) tr.
Definition calls (tr : list event) : list (Provider * Request * result goerror Response) :=
  omap (fun e => match e with EChat p req r => Some (p, req, r) | _ => None end) tr.
(** What the trackers and the client's quota are told *)
Definition is_feedback (e : event) : bool :=
  match e with
  | EQuotaSuccess _ _ | EQuotaExceeded _ | EHealthSuccess _ | EHealthFailure _ _ | EClientUsage _ _ _ _ => true
  | _ => false
  end.
Definition feedback (tr : list event) : list event :=
  omap (fun e => if is_feedback e then Some e else None) tr.

(** A projection of the events of a trace that only looks at relevant ones *)
Lemma omap_effects {A} (f : event -> option A) tr :
  (forall e, relevant e = false -> f e = None) -> omap f (effects tr) = omap f tr.
Proof.
  intros Hf. induction tr as [|e tr IH]; [done|]. rewrite effects_cons.
  destruct (relevant e) eqn:E; cbn; [by rewrite IH|]. by rewrite (Hf e E).
Qed.
Lemma records_effects tr : records (effects tr) = records tr.
Proof. apply omap_effects. by intros []. Qed.
Lemma calls_effects tr : calls (effects tr) = calls tr.
Proof. apply omap_effects. by intros []. Qed.
Lemma feedback_effects tr : feedback (effects tr) = feedback tr.
Proof. apply omap_effects. by intros []. Qed.
Lemma records_app a b : records (a ++ b) = records a ++ records b.
Proof. apply omap_app. Qed.
Lemma calls_app a b : calls (a ++ b) = calls a ++ calls b.
Proof. apply omap_app. Qed.
Lemma feedback_app a b : feedback (a ++ b) = feedback a ++ feedback b.
Proof. apply omap_app. Qed.

(** The call a failure made, and the feedback it gave *)
Definition failed_calls (stepReq0 : Request) (fails : list (ExecutionStep * failure))
    : list (Provider * Request * result goerror Response) :=
  omap (fun sf => match sf.2, st_OutboundTarget sf.1 with
                  | FCall _ _ err, Some target => Some (target, step_request stepReq0 sf.1, Err err)
                  | _, _ => None
                  end) fails.
Definition failed_feedback (d : Dispatcher) (fails : list (ExecutionStep * failure)) : list event :=
  concat (map (fun sf => match sf.2 with
                         | FCall _ _ err => failure_feedback d (st_OutboundName sf.1) (NormalizeError (Some err))
                         | _ => []
                         end) fails).

Ltac split_flags d := destruct (d_quotaTracker d), (d_healthTracker d), (d_clientQuotaTracker d).

Lemma guards_silent d name qd hd :
  records (guards d name qd hd) = [] /\ calls (guards d name qd hd) = [] /\ feedback (guards d name qd hd) = [].
Proof. unfold guards. by split_flags d. Qed.
Lemma failure_feedback_only d o k :
  records (failure_feedback d o k) = [] /\ calls (failure_feedback d o k) = [] /\
  feedback (failure_feedback d o k) = failure_feedback d o k.
Proof. unfold failure_feedback. destruct (bool_decide _); by split_flags d. Qed.
Lemma success_feedback_only d o n :
  records (success_feedback d o n) = [] /\ calls (success_feedback d o n) = [] /\
  feedback (success_feedback d o n) = success_feedback d o n.
Proof. unfold success_feedback. by split_flags d. Qed.
Lemma client_feedback_only d r :
  records (client_feedback d r) = [] /\ calls (client_feedback d r) = [] /\
  feedback (client_feedback d r) = client_feedback d r.
Proof. unfold client_feedback. destruct (bool_decide _); by split_flags d. Qed.

Lemma failure_shows d req sf :
  let es := failure_effects d req chat_event sf in
  records es = [] /\ calls es = failed_calls req [sf] /\ feedback es = failed_feedback d [sf].
Proof.
  destruct sf as [step f]. unfold failure_effects, failed_calls, failed_feedback. cbn [fst snd map concat].
  rewrite app_nil_r. destruct f as [|dec|qd hd|qd hd err]; [done|done|apply guards_silent|].
  rewrite !records_app, !calls_app, !feedback_app.
  destruct (guards_silent d (st_OutboundName step) qd hd) as (-> & -> & ->).
  destruct (failure_feedback_only d (st_OutboundName step) (NormalizeError (Some err))) as (-> & -> & ->).
  destruct (st_OutboundTarget step) eqn:E; cbn; by rewrite E.
Qed.
Lemma failures_show d req fails :
  let es := failures_effects d req chat_event fails in
  records es = [] /\ calls es = failed_calls req fails /\ feedback es = failed_feedback d fails.
Proof.
  induction fails as [|sf fails IH]; [done|]. destruct IH as (IH1 & IH2 & IH3).
  unfold failures_effects in *. cbn [map concat]. cbn zeta.
  rewrite records_app, calls_app, feedback_app.
  destruct (failure_shows d req sf) as (-> & -> & ->). rewrite IH1, IH2, IH3. split; [done|].
  unfold failed_calls, failed_feedback. cbn [map concat]. rewrite app_nil_r. split; [|done].
  symmetry. apply (omap_app _ [sf]).
Qed.

(** A usage record written by [finalizeUsageRecord] *)
Lemma finalize_fields d ctx plan step rm em usage status kind st at_ i :
  let r := finalizeUsageRecord d ctx plan step rm em usage status kind st at_ i in
  ur_Status r = status /\ ur_ErrorKind r = kind /\ ur_Breakdown r = usage_breakdown usage /\
  ur_OutboundName r = st_OutboundName step /\ ur_FallbackCount r = i /\
  ur_ClientName r = plan_ClientName plan /\ ur_ExecutedModel r = (if em == "" then rm else em).
Proof. unfold finalizeUsageRecord. by destruct (CostUSDWithMatch _ _ _ _). Qed.

(** What a failover of [Dispatch] shows, in one lemma *)
Lemma Dispatch_shows d ctx req plan tr o :
  plan_wf plan -> runs (Dispatch d ctx req plan) tr o ->
  exists fails, Forall (failure_ok d) fails /\ fails.*1 `prefix_of` plan_Steps plan /\
  ((exists resp step rest target startedAt at_, o = Returned resp /\ all_continue plan 0 fails /\
      plan_Steps plan = fails.*1 ++ step :: rest /\ st_OutboundTarget step = Some target /\
      st_ModelUnavailable step = false /\
      let r := success_record d ctx plan startedAt step (req_Model (step_request req step)) resp at_
                 (Z.of_nat (length fails)) in
      records tr = [r] /\ calls tr = failed_calls req fails ++ [(target, step_request req step, Ok resp)] /\
      feedback tr = failed_feedback d fails ++
        success_feedback d (st_OutboundName step) (normalizedUsageTokens (resp_Usage resp)) ++
        client_feedback d r) \/
   (exists startedAt step model at_ i, let err := kept_error req plan None fails in
      o = Failed err /\ fails <> [] /\
      (fails.*1 = plan_Steps plan \/ exists fails0 sf, fails = fails0 ++ [sf] /\
         all_continue plan 0 fails0 /\ stops plan (Z.of_nat (length fails0)) sf) /\
      records tr = [error_record d ctx plan startedAt step model err at_ i] /\
      calls tr = failed_calls req fails /\ feedback tr = failed_feedback d fails)).
Proof.
  intros Hwf Hr. destruct (Dispatch_failover _ _ _ _ _ _ Hwf Hr) as [startedAt H]. destruct Hwf as [Hne _].
  rewrite <-records_effects, <-calls_effects, <-feedback_effects.
  destruct H as [fails step rest resp es Hst Hf Ha Hs|fails sf rest at_ err Hst Hf Ha Hs He|
    fails step at_ err Hst Hf Ha Hs He]; rewrite records_app, calls_app, feedback_app.
  - exists fails. destruct (failures_show d req fails) as (-> & -> & ->).
    destruct Hs as (target & qd & hd & es' & Hu & Ht & _ & _ & (at_ & ->) & ->).
    split; [done|]. split; [rewrite Hst; by apply prefix_app_r|].
    left. exists resp, step, rest, target, startedAt, at_. split_and!; [done..|].
    rewrite Z.add_0_l. set (r := success_record _ _ _ _ _ _ _ _ _). cbn zeta.
    change (EChat target ?q ?a :: ?l) with ([EChat target q a] ++ l).
    rewrite !records_app, !calls_app, !feedback_app.
    destruct (guards_silent d (st_OutboundName step) qd hd) as (-> & -> & ->).
    destruct (success_feedback_only d (st_OutboundName step) (normalizedUsageTokens (resp_Usage resp)))
      as (-> & -> & ->).
    by destruct (client_feedback_only d r) as (-> & -> & ->).
  - exists (fails ++ [sf]). destruct (failures_show d req (fails ++ [sf])) as (-> & -> & ->).
    split; [done|]. split; [rewrite Hst, fmap_app; exists rest; by rewrite <-app_assoc|].
    right. do 5 eexists. cbn zeta. rewrite He. split_and!; try done; [by destruct fails| |by rewrite app_nil_r..].
    right. by exists fails, sf.
  - exists fails. destruct (failures_show d req fails) as (-> & -> & ->).
    split; [done|]. split; [by rewrite Hst|].
    right. do 5 eexists. cbn zeta. rewrite He. split_and!; try done; [|by left|by rewrite app_nil_r..].
    intros ->. by rewrite Hst in Hne.
Qed.

(** The charges to clients' quotas: client, tokens, cost, whether priced *)
Definition charges (tr : list event) : list (string * Z * Z * bool) :=
  omap (fun e => match e with EClientUsage c n cost p => Some (c, n, cost, p) | _ => None end) tr.
Lemma charges_feedback tr : charges (feedback tr) = charges tr.
Proof. unfold charges, feedback. induction tr as [|[] tr IH]; cbn; try rewrite IH; done. Qed.
Lemma charges_app a b : charges (a ++ b) = charges a ++ charges b.
Proof. apply omap_app. Qed.
Lemma charges_failed d fails : charges (failed_feedback d fails) = [].
Proof.
  induction fails as [|[step []] fails IH]; try done. unfold failed_feedback. cbn [map concat snd].
  rewrite charges_app. fold (failed_feedback d fails). rewrite IH, app_nil_r.
  unfold failure_feedback. destruct (bool_decide _); by split_flags d.
Qed.
Lemma charges_success d o n : charges (success_feedback d o n) = [].
Proof. unfold success_feedback. by split_flags d. Qed.

(** ** Properties of [Dispatch] *)

(** C21: one usage record per dispatched request.  On a plan the router makes, a dispatch
    never panics and writes exactly one usage record, whatever the trackers and the
    providers answer.  When it returns a response the record is a success with that
    response's usage, and the client's quota is charged once with its tokens and its
    rounded cost; when it fails the error is not nil, the record is an error of that
    error's kind without usage, and the client is not charged. *)
Theorem dispatch_one_record d ctx req plan tr o :
  plan_wf plan -> runs (Dispatch d ctx req plan) tr o ->
  exists r, records tr = [r] /\ ur_ClientName r = plan_ClientName plan /\
  match o with
  | Returned resp =>
      ur_Status r = UsageStatusSuccess /\ ur_ErrorKind r = "" /\
      ur_Breakdown r = usage_breakdown (resp_Usage resp) /\
      charges tr = (if d_clientQuotaTracker d
        then [(plan_ClientName plan, normalizedUsageTokens (resp_Usage resp), costMicroUSD r, ur_Priced r)]
        else [])
  | Failed err =>
      is_Some err /\ ur_Status r = UsageStatusError /\ ur_ErrorKind r = kind_string (NormalizeError err) /\
      ur_Breakdown r = usage_breakdown None /\ charges tr = []
  | Panicked => False
  end.
Proof.
  intros Hwf Hr. destruct (Dispatch_shows _ _ _ _ _ _ Hwf Hr) as (fails & _ & _ &
    [(resp & step & rest & target & startedAt & at_ & -> & _ & _ & _ & _ & Hrec & _ & Hfb)|
     (startedAt & step & model & at_ & i & -> & Hne & _ & Hrec & _ & Hfb)]);
    rewrite <-charges_feedback, Hfb, ?charges_app, charges_failed, ?charges_success; eexists; (split; [exact Hrec|]).
  - destruct (finalize_fields d ctx plan step (req_Model (step_request req step)) (resp_Model resp)
      (resp_Usage resp) UsageStatusSuccess "" startedAt at_ (Z.of_nat (length fails)))
      as (Hs & Hk & Hb & _ & _ & Hc & _). unfold success_record.
    set (r := finalizeUsageRecord _ _ _ _ _ _ _ _ _ _ _ _) in *. clearbody r.
    split_and!; [done..|]. unfold client_feedback. rewrite bool_decide_true, andb_true_r by done.
    destruct (d_clientQuotaTracker d); [|done]. cbn. rewrite Hc, Hb. by destruct (resp_Usage resp).
  - destruct (finalize_fields d ctx plan step model model None UsageStatusError
      (kind_string (NormalizeError (kept_error req plan None fails))) startedAt at_ i)
      as (Hs & Hk & Hb & _ & _ & Hc & _). fold (error_record d ctx plan startedAt step model
        (kept_error req plan None fails) at_ i) in *.
    destruct (kept_error_first req plan fails Hne) as (e & He & _). by rewrite He in *.
Qed.

(** C4: failover order.  When a dispatch returns a response, some step of the plan gave
    it: every earlier step had no model, was denied by a guard or made a call that
    failed with a recoverable kind; the provider was called for those failed calls and
    then for this step, in plan order, each with the model of its step, and nothing was
    called after the success.  The trackers were told of each failed call, then of this
    outbound's success with the response's tokens. *)
Theorem dispatch_first_success d ctx req plan tr resp :
  plan_wf plan -> runs (Dispatch d ctx req plan) tr (Returned resp) ->
  exists fails step rest target,
    plan_Steps plan = fails.*1 ++ step :: rest /\
    st_OutboundTarget step = Some target /\ st_ModelUnavailable step = false /\
    Forall (failure_ok d) fails /\
    Forall (fun sf => forall qd hd err, sf.2 = FCall qd hd err -> isRecoverable (NormalizeError (Some err)) = true)
      fails /\
    calls tr = failed_calls req fails ++ [(target, step_request req step, Ok resp)] /\
    exists r, records tr = [r] /\ ur_OutboundName r = st_OutboundName step /\
      ur_FallbackCount r = Z.of_nat (length fails) /\
      feedback tr = failed_feedback d fails ++
        success_feedback d (st_OutboundName step) (normalizedUsageTokens (resp_Usage resp)) ++
        client_feedback d r.
Proof.
  intros Hwf Hr. destruct (Dispatch_shows _ _ _ _ _ _ Hwf Hr) as (fails & Hok & _ &
    [(resp' & step & rest & target & startedAt & at_ & [= <-] & Hc & Hst & Ht & Hu & Hrec & Hcalls & Hfb)|
     (startedAt & step & model & at_ & i & ? & _)]); [|done].
  exists fails, step, rest, target. split_and!; [done..| |done|].
  - apply Forall_lookup. intros k sf Hk qd hd err E.
    specialize (Hc k sf Hk). unfold continues in Hc. rewrite E in Hc.
    by apply FallbackAllowed_recoverable in Hc as [_ ?].
  - eexists. split; [exact Hrec|].
    destruct (finalize_fields d ctx plan step (req_Model (step_request req step)) (resp_Model resp)
      (resp_Usage resp) UsageStatusSuccess "" startedAt at_ (Z.of_nat (length fails)))
      as (_ & _ & _ & Ho & Hi & _). by split_and!.
Qed.

(** C26: the error of a failed dispatch.  A dispatch that fails walked the steps of the
    plan in order up to the last one, or up to a call whose error does not allow the
    next step; its error is, of the errors of those steps, the first of the most
    preferred class ([error_preference]): a quota or authentication error with an
    upstream's HTTP answer, over one without, over a fatal error or a missing
    capability, over a timeout, server or retryable error, over any other, a missing
    model among them. *)
Theorem dispatch_preferred_error d ctx req plan tr err :
  plan_wf plan -> runs (Dispatch d ctx req plan) tr (Failed err) ->
  exists fails e, err = Some e /\ Forall (failure_ok d) fails /\ fails.*1 `prefix_of` plan_Steps plan /\
    calls tr = failed_calls req fails /\ feedback tr = failed_feedback d fails /\
    (fails.*1 = plan_Steps plan \/
     exists step qd hd err', last fails = Some (step, FCall qd hd err') /\
       FallbackAllowed (st_OnError step) (NormalizeError (Some err')) false <> Some true) /\
    first_preferred (map (failure_error plan req) fails) e.
Proof.
  intros Hwf Hr. destruct (Dispatch_shows _ _ _ _ _ _ Hwf Hr) as (fails & Hok & Hpre &
    [(resp & step & rest & target & startedAt & at_ & ? & _)|
     (startedAt & step & model & at_ & i & [= ->] & Hne & Hend & _ & Hcalls & Hfb)]); [done|].
  destruct (kept_error_first req plan fails Hne) as (e & He & Hfirst).
  exists fails, e. split_and!; try done. destruct Hend as [Hall|(fails0 & sf & -> & _ & Hs)]; [by left|].
  destruct sf as [st f]. unfold stops in Hs. destruct f as [| | |qd hd err']; try done. cbn [fst snd] in Hs.
  unfold isLast in Hs. destruct (Z.eqb_spec (Z.of_nat (length fails0)) (Z.of_nat (length (plan_Steps plan)) - 1))
    as [El|El].
  - left. destruct Hpre as [rest Hp]. rewrite Hp in El |- *.
    rewrite length_app, length_fmap, length_app in El. cbn [length] in El.
    destruct rest; [by rewrite app_nil_r|cbn [length] in El; lia].
  - right. exists st, qd, hd, err'. rewrite last_snoc. split; [done|]. by rewrite Hs.
Qed.

(** ** A concrete request

    Three steps: the first has no model, the second's provider answers with a quota
    error, the third's answers. *)

Definition ex_request : Request := mkRequest "m" "" 0 [] [] "" false "" "" "" "" "".
Definition ex_step (name : string) (unavailable : bool) : ExecutionStep :=
  mkExecutionStep StepTypeOutbound name "openai_chat" (Some (mkProvider OtherProvider name)) "" unavailable
    FallbackOnRetryable.
Definition ex_plan (names : list string) : ExecutionPlan :=
  mkExecutionPlan "client" "in" "openai_chat" "tag" "m" "rule" RoutingStrategyFailover ["tag"]
    (ex_step "a" true :: map (fun n => ex_step n false) names).
Definition ex_chat (p : Provider) (req : Request) : result goerror Response :=
  if prov_name p == "b" then Err (NewQuotaExceededError (ErrPlain "429"))
  else Ok (mkResponse "id" "" "m" (mkMessage MessageRoleAssistant [] [] "" "" false) FinishReasonStop
             (Some (mkUsage 10 5 0 0 0 UsageSourceProvider))).
Definition ex_open (p : Provider) (req : Request) : result goerror unit :=
  if prov_name p == "b" then Err (NewQuotaExceededError (ErrPlain "429")) else Ok tt.
Definition ex_now : Time := 63900000000 * Second.
Definition ex_world : World :=
  mkWorld ex_now None None (NewHealthTracker ["b"; "c"]) (newEventRecorder 10) (None, None) (NewMemoryStore ex_now).
Definition ex_dispatcher : Dispatcher := mkDispatcher true true true (mkPriceCalculator []).
Definition ex_context : Context_ := mkContext "req-1" "" "".
Definition ex_run (names : list string) : World * list event * outcome Response :=
  exec ex_chat ex_open (Dispatch ex_dispatcher ex_context ex_request (ex_plan names)) ex_world.

Lemma ex_plan_wf names : plan_wf (ex_plan names).
Proof. split; [done|]. constructor; [done|]. by induction names; constructor. Defined.
Lemma ex_run_runs names o :
  (ex_run names).2 = o ->
  runs (Dispatch ex_dispatcher ex_context ex_request (ex_plan names)) (ex_run names).1.2 o.
Proof. intros <-. apply exec_runs. Defined.

Definition returned {R} (o : outcome R) : bool := match o with Returned _ => true | _ => false end.

Example ex_trace : map (fun c : Provider * Request * result goerror Response => prov_name c.1.1) (calls (ex_run ["b"; "c"]).1.2) = ["b"; "c"] /\
  returned (ex_run ["b"; "c"]).2 = true /\ returned (ex_run ["b"]).2 = false.
Proof. vm_compute. done. Qed.

Lemma dispatch_one_record_witness :
  returned (ex_run ["b"; "c"]).2 = true /\ exists r : UsageRecord, records (ex_run ["b"; "c"]).1.2 = [r].
Proof.
  split; [by vm_compute|].
  destruct (dispatch_one_record ex_dispatcher ex_context ex_request (ex_plan ["b"; "c"]) _ _
    (ex_plan_wf _) (ex_run_runs ["b"; "c"] _ eq_refl)) as (r & H & _). by exists r.
Defined.

Definition ex_response : Response :=
  mkResponse "id" "" "m" (mkMessage MessageRoleAssistant [] [] "" "" false) FinishReasonStop
    (Some (mkUsage 10 5 0 0 0 UsageSourceProvider)).
Lemma dispatch_first_success_witness :
  exists (fails : list (ExecutionStep * failure)) step, plan_Steps (ex_plan ["b"; "c"]) = fails.*1 ++ [step] /\ length fails = 2%nat.
Proof.
  destruct (dispatch_first_success ex_dispatcher ex_context ex_request (ex_plan ["b"; "c"]) _ ex_response
    (ex_plan_wf _) (ex_run_runs ["b"; "c"] _ ltac:(vm_compute; reflexivity)))
    as (fails & step & rest & target & Hst & Ht & Hu & Hok & Hrec & Hc & r & Hr & Ho & Hi & Hf).
  exists fails, step. vm_compute in Hr. injection Hr as <-. cbn in Hi.
  assert (length fails = 2%nat) as El by lia. split; [|done].
  rewrite Hst. f_equal. f_equal. destruct rest; [done|]. apply (f_equal length) in Hst.
  rewrite length_app, length_fmap, El in Hst. done.
Defined.

Lemma dispatch_preferred_error_witness :
  exists fails e, (ex_run ["b"]).2 = Failed (Some e) /\
    first_preferred (map (failure_error (ex_plan ["b"]) ex_request) fails) e.
Proof.
  destruct (dispatch_preferred_error ex_dispatcher ex_context ex_request (ex_plan ["b"]) _
    (Some (NewQuotaExceededError (ErrPlain "429"))) (ex_plan_wf _)
    (ex_run_runs ["b"] _ ltac:(vm_compute; reflexivity))) as (fails & e & He & _ & _ & _ & _ & _ & Hf).
  exists fails, e. injection He as <-. split; [by vm_compute|done].
Defined.
