(* ===== verification/StreamFacts.v ===== *)
(** * Properties of streaming requests

    [DispatchStream] opens a stream by the same failover as [Dispatch]; the goroutine
    of [wrapStream] relays its events and accounts for it when it ends.  The inputs the
    goroutine meets are a list, chosen by the provider and by the request's context. *)

From Stdlib Require Import SpecFloat.
From S2P Require Import Prelude Program GoStrings GoTime ProviderErrors RuntimeModel ConfigTypes.
From S2P Require Import QuotaWindow QuotaTracker Accounting QuotaEvents Latency Health Dispatcher DispatcherFacts.

Definition sends (tr : list event) : list StreamEvent :=
  omap (fun e => match e with ESend e => Some e | _ => None end) tr.
Lemma sends_app a b : sends (a ++ b) = sends a ++ sends b.
Proof. apply omap_app. Qed.

(** ** What the events of a stream say *)

(** The usage of a stream is its last one, its model the last that is named. *)
Definition stream_usage (evs : list StreamEvent) : option Usage := last (omap ev_Usage evs).
Definition stream_model (requested : string) (evs : list StreamEvent) : string :=
  default requested (last (filter (fun m => m <> "") (map ev_Model evs))).

Definition relayed (w : Stream) (evs : list StreamEvent) : relay :=
  mkRelay (stream_usage evs) (stream_model (stream_requestedModel w) evs) false.

Lemma relayed_snoc w evs e : relay_event (relayed w evs) e = relayed w (evs ++ [e]).
Proof.
  unfold relay_event, relayed, stream_usage, stream_model. cbn [rl_usage rl_executedModel rl_recorded].
  f_equal.
  - rewrite omap_app. cbn. destruct (ev_Usage e); [by rewrite last_snoc|by rewrite app_nil_r].
  - rewrite map_app, filter_app. cbn [map]. destruct (String.eqb_spec (ev_Model e) "") as [E|E]; cbn [negb].
    + rewrite filter_cons_False, filter_nil, app_nil_r by (rewrite E; auto). done.
    + rewrite filter_cons_True, filter_nil by done. by rewrite last_snoc.
Qed.

(** ** The goroutine *)

Section relay.
Context (d : Dispatcher) (ctx : Context_) (plan : ExecutionPlan) (w : Stream).

Definition quiet_event (e : StreamEvent) : Prop := event_error e = None.

(** The record of the stream, as the goroutine's state makes it *)
Definition stream_record (s : relay) (status : UsageStatus) (kind : string) (at_ : Time) : UsageRecord :=
  finalizeUsageRecord d ctx plan (stream_step w) (stream_requestedModel w) (rl_executedModel s) (rl_usage s)
    status kind (stream_startedAt w) at_ (stream_fallbackCount w).

(** Effects without deliveries, and the deliveries *)
Definition shows (tr : list event) (rs : list UsageRecord) (fb : list event) (out : list StreamEvent) : Prop :=
  records tr = rs /\ feedback tr = fb /\ sends tr = out.
Lemma shows_app tr1 tr2 rs1 rs2 fb1 fb2 out1 out2 :
  shows tr1 rs1 fb1 out1 -> shows tr2 rs2 fb2 out2 ->
  shows (tr1 ++ tr2) (rs1 ++ rs2) (fb1 ++ fb2) (out1 ++ out2).
Proof.
  intros (<- & <- & <-) (<- & <- & <-). unfold shows. by rewrite records_app, feedback_app, sends_app.
Qed.
Lemma shows_effects tr rs fb out :
  records (effects tr) = rs -> feedback (effects tr) = fb -> sends tr = out -> shows tr rs fb out.
Proof. rewrite records_effects, feedback_effects. done. Qed.

Lemma shows_eq tr rs rs' fb fb' out out' :
  shows tr rs' fb' out' -> rs' = rs -> fb' = fb -> out' = out -> shows tr rs fb out.
Proof. by intros H -> -> ->. Qed.
Lemma shows_silent e : match e with ERecord _ | ESend _ => false | _ => negb (is_feedback e) end = true ->
  shows [e] [] [] [].
Proof. by destruct e. Qed.
Lemma shows_record r : shows [ERecord r] [r] [] [].
Proof. done. Qed.
Lemma shows_send e : shows [ESend e] [] [] [e].
Proof. done. Qed.
Lemma shows_nil : shows [] [] [] [].
Proof. done. Qed.
Lemma shows_only tr fb : records fb = [] -> feedback fb = fb -> effects tr = fb -> sends tr = [] -> shows tr [] fb [].
Proof. intros Hr Hf <- Hs. split_and!; [by rewrite <-records_effects|by rewrite <-feedback_effects|done]. Qed.

Lemma shows_recordSuccess o n qp hp tr u :
  runs (recordSuccess d o n qp hp) tr u -> shows tr [] (success_feedback d o n) [].
Proof.
  intros H. destruct (success_feedback_only d o n) as (Hr & _ & Hf).
  apply shows_only; [done..|by eapply effects_recordSuccess|]. unfold recordSuccess, governance in H.
  destruct (d_quotaTracker d), (d_healthTracker d), qp, hp; cbn [when] in H; by run_inv.
Qed.
Lemma shows_recordProviderError o k tr u :
  runs (recordProviderError d o k) tr u -> shows tr [] (failure_feedback d o k) [].
Proof.
  intros H. destruct (failure_feedback_only d o k) as (Hr & _ & Hf).
  apply shows_only; [done..|by eapply effects_recordProviderError|]. unfold recordProviderError, governance in H.
  destruct (d_quotaTracker d), (d_healthTracker d), (bool_decide _); cbn [when andb] in H; by run_inv.
Qed.
Lemma shows_recordClient r tr u :
  runs (recordClientTerminalSuccess d r) tr u -> shows tr [] (client_feedback d r) [].
Proof.
  intros H. destruct (client_feedback_only d r) as (Hr & _ & Hf).
  apply shows_only; [done..|by eapply effects_recordClient|]. unfold recordClientTerminalSuccess in H.
  by destruct (_ || _); run_inv.
Qed.

Ltac show :=
  eapply shows_eq; [repeat first [eapply shows_app | eapply shows_recordSuccess; eassumption
    | eapply shows_recordProviderError; eassumption | eapply shows_recordClient; eassumption
    | eapply shows_record | eapply shows_send | eapply shows_nil | by eapply shows_silent | eassumption]|..].

Lemma stream_success_shows s tr u :
  runs (stream_success d ctx plan w s) tr u ->
  exists at_, let r := stream_record s UsageStatusSuccess "" at_ in
    shows tr [r] (success_feedback d (st_OutboundName (stream_step w)) (normalizedUsageTokens (rl_usage s)) ++
                  client_feedback d r) [].
Proof. unfold stream_success. intros H. run_inv. eexists. cbn zeta. show; done. Qed.

Lemma stream_error_shows s err tr u :
  runs (stream_error d ctx plan w s err) tr u ->
  exists at_, let kind := NormalizeError (Some err) in
    shows tr [stream_record s UsageStatusError (kind_string kind) at_]
      (failure_feedback d (st_OutboundName (stream_step w)) kind) [].
Proof.
  unfold stream_error. intros H. run_inv. eexists. cbn zeta. show; [done| |done]. cbn. by rewrite app_nil_r.
Qed.

(** One event: only the first error of a stream is accounted. *)
Lemma handle_event_shows s e tr s' :
  runs (handle_event d ctx plan w s e) tr s' ->
  match event_error e with
  | Some err =>
      if rl_recorded s then s' = relay_event s e /\ shows tr [] [] []
      else s' = recorded (relay_event s e) /\ exists at_, let kind := NormalizeError (Some err) in
        shows tr [stream_record (relay_event s e) UsageStatusError (kind_string kind) at_]
          (failure_feedback d (st_OutboundName (stream_step w)) kind) []
  | None => s' = relay_event s e /\ shows tr [] [] []
  end.
Proof.
  unfold handle_event. intros H. run_inv.
  match goal with H : runs (when _ _) ?t _ |- _ => assert (shows t [] [] []) by
    (destruct (isFirstContentDelta e); cbn [when] in H; run_inv; show; done) end.
  destruct (event_error e) as [err|]; [cbn [rl_recorded relay_event] in *; destruct (rl_recorded s)|]; run_inv.
  - split; [done|]. show; done.
  - match goal with H : runs (stream_error _ _ _ _ _ _) _ _ |- _ => apply stream_error_shows in H as [at_ H] end.
    split; [done|]. exists at_. cbn zeta in *. show; [done| |done]. cbn. by rewrite ?app_nil_r.
  - split; [done|]. show; done.
Qed.

Definition deliveries (evs : list StreamEvent) : list input := map (fun e => InEvent e true) evs.
(** The ways a stream ends early: the request is cancelled while the goroutine waits, before
    it looks at the closed channel, or before an event is delivered *)
Definition cancellation (i : input) : bool :=
  match i with InDone | InClosed true | InEvent _ false => true | _ => false end.

Abbreviation loop := (relay_loop d ctx plan w).

Lemma loop_event s e dl rest tr b :
  runs (loop s (InEvent e dl :: rest)) tr b ->
  exists tr1 s' tr2, runs (handle_event d ctx plan w s e) tr1 s' /\ tr = tr1 ++ tr2 /\
    if dl then exists tr3, tr2 = ESend e :: tr3 /\ runs (loop s' rest) tr3 b
    else b = true /\ shows tr2 [] [] [].
Proof.
  cbn [relay_loop]. intros H. run_inv. do 3 eexists. split; [eassumption|]. split; [reflexivity|].
  destruct dl; run_inv; [by eexists|]. split; [done|]. show; done.
Qed.

Lemma loop_quiet s evs rest tr b :
  rl_recorded s = true \/ Forall quiet_event evs ->
  runs (loop s (deliveries evs ++ rest)) tr b ->
  exists tr1 tr2, tr = tr1 ++ tr2 /\ shows tr1 [] [] evs /\ runs (loop (foldl relay_event s evs) rest) tr2 b.
Proof.
  revert s tr. induction evs as [|e evs IH]; intros s tr Hq H; [by exists [], tr|].
  apply loop_event in H as (tr1 & s' & tr2 & Hh & -> & tr3 & -> & H).
  apply handle_event_shows in Hh.
  assert (s' = relay_event s e /\ shows tr1 [] [] []) as [-> Hs].
  { destruct Hq as [Hq|Hq]; [rewrite Hq in Hh; by destruct (event_error e)|].
    apply Forall_cons in Hq as [Hq _]. unfold quiet_event in Hq. by rewrite Hq in Hh. }
  destruct (IH (relay_event s e) tr3) as (tr4 & tr5 & -> & Hs' & Hr); [|done|].
  { destruct Hq as [Hq|Hq]; [by left|right]. by apply Forall_cons in Hq as [_ ?]. }
  exists (tr1 ++ [ESend e] ++ tr4), tr5. split; [by rewrite <-!app_assoc|]. split; [|done].
  show; done.
Qed.

Lemma relayed_fold pre evs : foldl relay_event (relayed w pre) evs = relayed w (pre ++ evs).
Proof.
  revert pre. induction evs as [|e evs IH]; intros pre; cbn [foldl]; [by rewrite app_nil_r|].
  by rewrite relayed_snoc, IH, <-app_assoc.
Qed.
Lemma fold_recorded s evs : rl_recorded s = true -> rl_recorded (foldl relay_event s evs) = true.
Proof. revert s. induction evs as [|e evs IH]; intros s H; [done|]. by apply IH. Qed.

Lemma loop_end s c rest tr b :
  cancellation c = true -> (rl_recorded s = true \/ forall e dl, c = InEvent e dl -> quiet_event e) ->
  runs (loop s (c :: rest)) tr b -> b = true /\ shows tr [] [] [].
Proof.
  intros Hc Hq H. destruct c as [|[]|e []]; try done; cbn [cancellation] in Hc.
  - cbn [relay_loop] in H. run_inv. split; [done|]. show; done.
  - cbn [relay_loop] in H. run_inv. split; [done|]. show; done.
  - apply loop_event in H as (tr1 & s' & tr2 & Hh & -> & -> & Hs). split; [done|].
    apply handle_event_shows in Hh.
    assert (shows tr1 [] [] []) as Hs1.
    { destruct (event_error e) as [err|] eqn:E; [|by destruct Hh].
      destruct Hq as [Hq|Hq]; [rewrite Hq in Hh; by destruct Hh|].
      specialize (Hq e false eq_refl). unfold quiet_event in Hq. congruence. }
    show; done.
Qed.

Lemma wrapStream_relayed inputs : wrapStream d ctx plan w inputs = loop (relayed w []) inputs.
Proof. done. Qed.

Lemma loop_closed_quiet evs tr b :
  Forall quiet_event evs -> runs (wrapStream d ctx plan w (deliveries evs ++ [InClosed false])) tr b ->
  b = true /\ exists at_, let r := stream_record (relayed w evs) UsageStatusSuccess "" at_ in
    shows tr [r] (success_feedback d (st_OutboundName (stream_step w)) (normalizedUsageTokens (stream_usage evs)) ++
                  client_feedback d r) evs.
Proof.
  rewrite wrapStream_relayed. intros Hq H. apply loop_quiet in H as (tr1 & tr2 & -> & Hs & H); [|by right].
  rewrite (relayed_fold [] evs) in H. cbn [app relay_loop relayed rl_recorded negb when] in H. run_inv.
  match goal with H : runs (stream_success _ _ _ _ _) _ _ |- _ => apply stream_success_shows in H as [at_ H] end.
  split; [done|]. exists at_. cbn zeta in *. show; [done| |cbn; by rewrite app_nil_r]. cbn. by rewrite ?app_nil_r.
Qed.

Lemma loop_closed_error pre e post err tr b :
  Forall quiet_event pre -> event_error e = Some err ->
  runs (wrapStream d ctx plan w (deliveries (pre ++ e :: post) ++ [InClosed false])) tr b ->
  b = true /\ exists at_, let kind := NormalizeError (Some err) in
    shows tr [stream_record (relayed w (pre ++ [e])) UsageStatusError (kind_string kind) at_]
      (failure_feedback d (st_OutboundName (stream_step w)) kind) (pre ++ e :: post).
Proof.
  rewrite wrapStream_relayed. intros Hq He H. unfold deliveries in H. rewrite map_app, <-app_assoc in H. cbn [map app] in H.
  apply (loop_quiet _ pre) in H as (tr1 & tr2 & -> & Hs & H); [|by right]. rewrite (relayed_fold [] pre) in H.
  apply loop_event in H as (tr3 & s' & tr4 & Hh & -> & tr5 & -> & H). apply handle_event_shows in Hh.
  rewrite He in Hh. cbn [rl_recorded relayed app] in Hh. destruct Hh as (-> & at_ & Hs').
  rewrite relayed_snoc in H, Hs'.
  apply (loop_quiet _ post) in H as (tr6 & tr7 & -> & Hs'' & H); [|by left].
  cbn [relay_loop] in H. rewrite fold_recorded in H by done. cbn [negb when] in H. run_inv.
  split; [done|]. exists at_. cbn zeta in *.
  change (ESend e :: ?l) with ([ESend e] ++ l). show; [done| |].
  - cbn. by rewrite ?app_nil_r.
  - cbn. by rewrite app_nil_r.
Qed.

Lemma first_error evs :
  Forall quiet_event evs \/
  exists pre e post err, evs = pre ++ e :: post /\ Forall quiet_event pre /\ event_error e = Some err.
Proof.
  induction evs as [|e evs [IH|(pre & e' & post & err & -> & Hq & He)]]; [by left| |].
  - destruct (event_error e) as [err|] eqn:E; [right; by exists [], e, evs, err|left; by constructor].
  - right. destruct (event_error e) as [err'|] eqn:E.
    + by exists [], e, (pre ++ e' :: post), err'.
    + exists (e :: pre), e', post, err. split_and!; [done|by constructor|done].
Qed.
End relay.

(** ** Properties of a relayed stream *)

(** C22: a stream that ends is accounted once.  When every event is delivered and the
    channel then closes before the request is cancelled, the events are relayed in order
    and the goroutine returns.  Without an error event one success record is written, with
    the last usage and the last model the events named, and the quota, the health tracker
    and the client are told once; otherwise one error record is written, of the first error
    event, with the usage known by then, and the trackers are told of that failure alone. *)
Theorem stream_accounted d ctx plan w evs tr b :
  runs (wrapStream d ctx plan w (deliveries evs ++ [InClosed false])) tr b ->
  b = true /\ sends tr = evs /\
  let name := st_OutboundName (stream_step w) in
  (Forall quiet_event evs -> exists at_,
     let r := stream_record d ctx plan w (relayed w evs) UsageStatusSuccess "" at_ in
     records tr = [r] /\
     feedback tr = success_feedback d name (normalizedUsageTokens (stream_usage evs)) ++ client_feedback d r) /\
  (forall pre e post err, evs = pre ++ e :: post -> Forall quiet_event pre -> event_error e = Some err ->
   exists at_, let kind := NormalizeError (Some err) in
     records tr = [stream_record d ctx plan w (relayed w (pre ++ [e])) UsageStatusError (kind_string kind) at_] /\
     feedback tr = failure_feedback d name kind).
Proof.
  intros H.
  assert (b = true /\ sends tr = evs) as [-> Hs].
  { destruct (first_error evs) as [Hq|(pre & e & post & err & -> & Hq & He)].
    - apply loop_closed_quiet in H as (-> & at_ & _ & _ & ->); done.
    - eapply loop_closed_error in H as (-> & at_ & _ & _ & ->); done. }
  split; [done|]. split; [done|]. split; [intros Hq|intros pre e post err -> Hq He].
  - apply loop_closed_quiet in H as (_ & at_ & Hr & Hf & _); [|done]. by exists at_.
  - eapply loop_closed_error in H as (_ & at_ & Hr & Hf & _); [|done..]. by exists at_.
Qed.

(** What a cancelled stream leaves.  When the request is cancelled before an error
    event has been relayed, the goroutine returns having written no usage record and told
    the quota tracker, the health tracker and the client's quota nothing at all: the tokens
    used are lost, and a probe the trackers granted for this stream is never answered. *)
Theorem stream_cancelled d ctx plan w evs c rest tr b :
  cancellation c = true -> Forall quiet_event evs ->
  (forall e dl, c = InEvent e dl -> quiet_event e) ->
  runs (wrapStream d ctx plan w (deliveries evs ++ c :: rest)) tr b ->
  b = true /\ sends tr = evs /\ records tr = [] /\ feedback tr = [].
Proof.
  rewrite wrapStream_relayed. intros Hc Hq Hce H. apply loop_quiet in H as (tr1 & tr2 & -> & Hs & H); [|by right].
  apply loop_end in H as [-> Hs']; [|done|by right].
  destruct (shows_app _ _ _ _ _ _ _ _ Hs Hs') as (-> & -> & ->). by rewrite app_nil_r.
Qed.

(** ** Opening a stream *)

Lemma failures_silent_stream d req fails :
  let es := failures_effects d (with_Stream req true) open_event fails in
  records es = [] /\ feedback es = failed_feedback d fails.
Proof.
  induction fails as [|[step f] fails [IH1 IH2]]; [done|].
  unfold failures_effects in *. cbn [map concat]. cbn zeta. rewrite records_app, feedback_app, IH1, IH2.
  unfold failed_feedback. cbn [map concat snd]. unfold failure_effects. cbn [fst snd].
  destruct f as [|dec|qd hd|qd hd err]; [done|done| |].
  - by destruct (guards_silent d (st_OutboundName step) qd hd) as (-> & _ & ->).
  - rewrite !records_app, !feedback_app.
    destruct (guards_silent d (st_OutboundName step) qd hd) as (-> & _ & ->).
    destruct (failure_feedback_only d (st_OutboundName step) (NormalizeError (Some err))) as (-> & _ & ->).
    by destruct (st_OutboundTarget step).
Qed.

(** A streaming request is accounted once.  Opening a stream succeeds at a step of the
    plan and writes no record, or fails with an error that is not nil and writes one error
    record of its kind; and a stream that was opened, ends without being cancelled and
    relays all its events adds exactly one record. *)
Theorem stream_one_record d ctx req plan tr o :
  plan_wf plan -> runs (DispatchStream d ctx req plan) tr o ->
  match o with
  | Returned w =>
      records tr = [] /\ charges tr = [] /\
      (exists fails rest, plan_Steps plan = fails.*1 ++ stream_step w :: rest /\
         feedback tr = failed_feedback d fails /\ stream_fallbackCount w = Z.of_nat (length fails)) /\
      forall evs tr' b, runs (wrapStream d ctx plan w (deliveries evs ++ [InClosed false])) tr' b ->
        exists r, records (tr ++ tr') = [r] /\ ur_OutboundName r = st_OutboundName (stream_step w)
  | Failed err =>
      is_Some err /\ charges tr = [] /\ exists r, records tr = [r] /\ ur_Status r = UsageStatusError /\
        ur_ErrorKind r = kind_string (NormalizeError err)
  | Panicked => False
  end.
Proof.
  intros Hwf Hr. destruct (DispatchStream_failover _ _ _ _ _ _ Hwf Hr) as [startedAt H]. destruct Hwf as [Hne _].
  pose proof (eq_sym (records_effects tr)) as Er. pose proof (eq_sym (feedback_effects tr)) as Ef.
  rewrite <-charges_feedback.
  destruct H as [fails step rest w es Hst Hf Ha Hs|fails sf rest at_ err Hst Hf Ha Hs He|
    fails step at_ err Hst Hf Ha Hs He]; rewrite records_app in Er; rewrite feedback_app in Ef;
    match type of Er with context [failures_effects d _ open_event ?l] =>
      destruct (failures_silent_stream d req l) as (H1 & H2); rewrite H1 in Er; rewrite H2 in Ef end.
  - destruct Hs as (target & qd & hd & es' & Hu & Ht & _ & _ & [-> ->] & ->). cbn [stream_step stream_fallbackCount].
    rewrite records_app in Er. rewrite feedback_app in Ef.
    destruct (guards_silent d (st_OutboundName step) qd hd) as (Hg1 & _ & Hg2). rewrite Hg1 in Er. rewrite Hg2 in Ef.
    cbn in Er, Ef. rewrite app_nil_r in Ef. rewrite Ef, charges_failed.
    split; [done|]. split; [done|]. split; [by exists fails, rest|].
    intros evs tr' b H. rewrite records_app, Er. destruct (first_error evs) as [Hq|(pre & e & post & err & -> & Hq & He)].
    + apply loop_closed_quiet in H as (_ & at_ & Hr' & _); [|done]. eexists. split; [cbn; exact Hr'|].
      apply finalize_fields.
    + eapply loop_closed_error in H as (_ & at_ & Hr' & _); [|done..]. eexists. split; [cbn; exact Hr'|].
      apply finalize_fields.
  - destruct (kept_error_first req plan (fails ++ [sf])) as (e & Hk & _); [by destruct fails|].
    cbn in Ef. rewrite app_nil_r in Ef. rewrite He, Hk, Ef, charges_failed in *.
    split; [done|]. split; [done|]. eexists. split; [exact Er|]. split; apply finalize_fields.
  - destruct (kept_error_first req plan fails) as (e & Hk & _); [intros ->; by rewrite Hst in Hne|].
    cbn in Ef. rewrite app_nil_r in Ef. rewrite He, Hk, Ef, charges_failed in *.
    split; [done|]. split; [done|]. eexists. split; [exact Er|]. split; apply finalize_fields.
Qed.

(** ** A concrete stream *)

Definition ex_stream : Stream := mkStream (ex_step "c" false) "m" 2 ex_now true true.
Definition ex_delta (text : string) (usage : option Usage) : StreamEvent :=
  mkStreamEvent StreamEventContentDelta "id" "m-1" MessageRoleAssistant
    (Some (mkContentPart ContentPartTypeText text "")) None 0 FinishReasonEmpty usage None.
Definition ex_events : list StreamEvent :=
  [ex_delta "hel" None; ex_delta "lo" (Some (mkUsage 10 5 0 0 0 UsageSourceProvider))].
Definition ex_relay (inputs : list input) : World * list event * bool :=
  exec ex_chat ex_open (wrapStream ex_dispatcher ex_context (ex_plan ["c"]) ex_stream inputs) ex_world.

Lemma stream_accounted_witness :
  let tr := (ex_relay (deliveries ex_events ++ [InClosed false])).1.2 in
  sends tr = ex_events /\ exists r, records tr = [r] /\ ur_ExecutedModel r = "m-1".
Proof.
  destruct (stream_accounted ex_dispatcher ex_context (ex_plan ["c"]) ex_stream ex_events _ _
    (exec_runs observe (answer ex_chat ex_open) _ ex_world)) as (_ & Hs & Hq & _).
  split; [exact Hs|]. destruct Hq as (at_ & Hr & _).
  - unfold ex_events. repeat constructor.
  - eexists. split; [exact Hr|]. by vm_compute.
Defined.

Lemma stream_cancelled_witness :
  let tr := (ex_relay (deliveries ex_events ++ [InDone])).1.2 in records tr = [] /\ feedback tr = [].
Proof.
  destruct (stream_cancelled ex_dispatcher ex_context (ex_plan ["c"]) ex_stream ex_events InDone [] _ _
    eq_refl ltac:(unfold ex_events; repeat constructor) ltac:(intros e dl [=])
    (exec_runs observe (answer ex_chat ex_open) _ ex_world)) as (_ & _ & Hr & Hf).
  split; [exact Hr|exact Hf].
Defined.

Definition ex_open_run : World * list event * outcome Stream :=
  exec ex_chat ex_open (DispatchStream ex_dispatcher ex_context ex_request (ex_plan ["b"; "c"])) ex_world.
Lemma stream_one_record_witness :
  exists w, ex_open_run.2 = Returned w /\ stream_step w = ex_step "c" false /\ records ex_open_run.1.2 = [].
Proof.
  pose proof (stream_one_record ex_dispatcher ex_context ex_request (ex_plan ["b"; "c"]) _ _
    (ex_plan_wf _) (exec_runs observe (answer ex_chat ex_open) _ ex_world)) as H. fold ex_open_run in H.
  destruct ex_open_run.2 as [w| |] eqn:E; [|exfalso; vm_compute in E; done|done].
  exists w. destruct H as (Hr & _). split; [done|]. split; [|done].
  vm_compute in E. by injection E as <-.
Defined.
