(* ===== verification/Attribution.v ===== *)
(** * To whom the dispatcher charges

    The dispatcher as its client, the gateway, relies on it.  [DispatcherContract] states
    what a dispatcher promises: whatever the other components answer, it writes usage
    records and charges quotas in the name of the plan's client only, a record ends at a
    reading of the clock, the calls it makes are bounded by the plan's steps and by the
    events of the provider's stream, and on a plan whose fallback conditions it knows it never panics
    and never fails without an error.  The
    dispatcher of [Dispatcher] keeps the contract. *)

From S2P Require Import Prelude Program GoStrings GoTime ProviderErrors RuntimeModel ConfigTypes QuotaWindow QuotaTracker Accounting QuotaEvents Latency Health Dispatcher DispatcherFacts StreamFacts.

(** ** Attribution *)

(** A record in the name of the plan's client, for the request of the context *)
Definition attributed (ctx : Context_) (plan : ExecutionPlan) (r : UsageRecord) : Prop :=
  ur_RequestID r = ctx_RequestID ctx /\ ur_SessionID r = ctx_SessionID ctx /\ ur_Agent r = ctx_Agent ctx /\
  ur_ClientName r = plan_ClientName plan /\ ur_InboundName r = plan_InboundName plan /\
  ur_ActiveTag r = plan_ActiveTag plan.

Lemma finalize_attributed d ctx plan step rm em usage status kind st at_ i :
  attributed ctx plan (finalizeUsageRecord d ctx plan step rm em usage status kind st at_ i).
Proof. unfold finalizeUsageRecord. by destruct (CostUSDWithMatch _ _ _ _). Qed.

Definition own_event (ctx : Context_) (plan : ExecutionPlan) (e : event) : Prop :=
  match e with
  | ERecord r => attributed ctx plan r
  | EClientUsage client _ _ _ => client = plan_ClientName plan
  | _ => True
  end.

(** Readings of the clock of which [K] holds, and records that end at such a reading *)
Definition reading (K : Time -> Prop) (e : event) : Prop := match e with ENow t => K t | _ => True end.
Definition timed (K : Time -> Prop) (e : event) : Prop :=
  match e with ERecord r => exists t, K t /\ ur_FinishedAt r = format_rfc3339nano t | _ => True end.

Lemma finalize_timed K d ctx plan step rm em usage status kind st at_ i :
  K at_ -> timed K (ERecord (finalizeUsageRecord d ctx plan step rm em usage status kind st at_ i)).
Proof. intros H. exists at_. split; [done|]. unfold finalizeUsageRecord. by destruct (CostUSDWithMatch _ _ _ _). Qed.

Section own.
Context (K : Time -> Prop) (d : Dispatcher) (ctx : Context_) (plan : ExecutionPlan).
Abbreviation own := (given observe (reading K) (fun e => own_event ctx plan e /\ timed K e)).

(** A call that writes no record and charges nobody *)
Definition neutral (B : Type) (c : call B) : Prop :=
  match c with StoreRecord _ | ClientRecordUsage _ _ _ _ => False | _ => True end.
Lemma own_neutral {B A} (c : call B) (f : B -> prog A) :
  neutral B c -> (forall b, own (f b)) -> own (perform c ≫= f).
Proof. intros Hc Hf. apply given_call. intros b _. split; [by destruct c|apply Hf]. Qed.
Lemma own_alone {B} (c : call B) : neutral B c -> own (perform c).
Proof. intros Hc. apply given_perform. by destruct c. Qed.
Lemma own_now {A} (f : Time -> prog A) : (forall t, K t -> own (f t)) -> own (perform Now ≫= f).
Proof. intros Hf. apply given_call. intros t Ht. split; [done|by apply Hf]. Qed.
Lemma own_store step rm em usage status kind st at_ i :
  K at_ -> own (perform (StoreRecord (finalizeUsageRecord d ctx plan step rm em usage status kind st at_ i))).
Proof. intros Ht. apply given_perform. intros ?. split; [apply finalize_attributed|by apply finalize_timed]. Qed.

(** Goes through the neutral calls, binds and tests of a program. *)
Ltac own_steps :=
  repeat first
    [ apply own_now; intros ? ? | apply own_neutral; [exact I|intros ?] | apply own_alone; exact I | by apply own_store
    | apply given_when | exact I | apply given_bind; [|intros ?] | progress cbn beta iota | case_match ].

Lemma own_recordSuccess o n qp hp : own (recordSuccess d o n qp hp).
Proof. unfold recordSuccess, governance. by own_steps. Qed.
Lemma own_recordProviderError o k : own (recordProviderError d o k).
Proof. unfold recordProviderError, governance. by own_steps. Qed.
Lemma own_recordClient r : attributed ctx plan r -> own (recordClientTerminalSuccess d r).
Proof. intros (_ & _ & _ & H & _). unfold recordClientTerminalSuccess. case_match; [exact I|]. by apply given_perform. Qed.
Lemma own_recordSpan name st attrs : own (recordSpan name st attrs).
Proof. unfold recordSpan. by own_steps. Qed.

Lemma own_try_step {R} (attempt : ExecutionStep -> Provider -> Request -> Decision -> HealthDecision -> Z -> prog (result goerror R))
    req st sreq i step err :
  (forall step target sreq qd hd i, own (attempt step target sreq qd hd i)) ->
  own (try_step d ctx req plan st sreq attempt i step err).
Proof.
  intros Ha. unfold try_step. do 2 (case_match; [exact I|]). case_match; [|exact I].
  apply given_bind; [unfold beforeAttempt; by own_steps|]. intros qd.
  case_match; [unfold recordOutboundLimited; by own_steps|].
  apply given_bind; [unfold beforeHealthAttempt; by own_steps|]. intros hd.
  case_match; [unfold recordProviderHealthLimited; by own_steps|].
  apply given_bind; [apply Ha|]. intros [r|e]; [exact I|].
  apply given_bind; [apply own_recordProviderError|]. intros _. by own_steps.
Qed.

Lemma own_try_steps {R} (attempt : ExecutionStep -> Provider -> Request -> Decision -> HealthDecision -> Z -> prog (result goerror R))
    req st sreq i steps err :
  (forall step target sreq qd hd i, own (attempt step target sreq qd hd i)) ->
  own (try_steps d ctx req plan st sreq attempt i steps err).
Proof.
  intros Ha. revert i err. induction steps as [|step steps IH]; intros i err; cbn [try_steps]; [by own_steps|].
  apply given_bind; [by apply own_try_step|]. by intros [o|e].
Qed.

Lemma own_Dispatch req : own (Dispatch d ctx req plan).
Proof.
  unfold Dispatch. case_match; [exact I|]. apply own_now. intros st _. apply own_try_steps.
  intros step target sreq qd hd i. unfold chat_attempt. apply own_now. intros t _. apply own_neutral; [exact I|]. intros a.
  apply given_bind; [apply own_recordSpan|]. intros _. destruct a as [resp|]; [|exact I].
  apply own_neutral; [exact I|]. intros _. apply given_bind; [apply own_recordSuccess|]. intros _.
  apply own_now. intros t' Ht'. cbn zeta. apply given_bind; [by apply own_store|]. intros _.
  apply given_bind; [apply own_recordClient, finalize_attributed|done].
Qed.
Lemma own_DispatchStream req : own (DispatchStream d ctx req plan).
Proof.
  unfold DispatchStream. case_match; [exact I|]. apply own_now. intros st _. apply own_try_steps.
  intros step target sreq qd hd i. unfold stream_attempt. apply own_now. intros t _.
  do 2 (apply own_neutral; [exact I|intros ?]). apply given_bind; [apply own_recordSpan|]. intros _. by own_steps.
Qed.

Lemma own_stream_success w s : own (stream_success d ctx plan w s).
Proof.
  unfold stream_success. cbn zeta. apply own_neutral; [exact I|]. intros _.
  apply given_bind; [apply own_recordSuccess|]. intros _. apply own_now. intros t Ht.
  apply given_bind; [by apply own_store|]. intros _. apply own_recordClient, finalize_attributed.
Qed.
Lemma own_handle_event w s e : own (handle_event d ctx plan w s e).
Proof.
  unfold handle_event. apply own_now. intros t _. apply own_neutral; [exact I|]. intros _.
  apply given_bind; [by own_steps|]. intros _. cbn zeta. case_match; [|exact I]. case_match; [exact I|].
  apply given_bind; [|done]. unfold stream_error. apply own_neutral; [exact I|]. intros _. cbn zeta.
  apply given_bind; [apply own_recordProviderError|]. intros _. by own_steps.
Qed.
Lemma own_wrapStream w inputs : own (wrapStream d ctx plan w inputs).
Proof.
  unfold wrapStream. generalize (mkRelay None (stream_requestedModel w) false) as s.
  induction inputs as [|i inputs IH]; intros s; cbn [relay_loop]; [exact I|]. destruct i as [|c|e dl]; [by own_steps|..].
  - case_match; [by own_steps|]. apply given_bind; [|done]. apply given_when, own_stream_success.
  - apply given_bind; [apply own_handle_event|]. intros s'. case_match; [|by own_steps].
    apply own_neutral; [exact I|]. intros _. apply IH.
Qed.

Lemma own_timed {A} (p : prog A) tr a : own p -> runs p tr a -> Forall (reading K) tr -> Forall (timed K) tr.
Proof. intros Hp Hr Hk. eapply given_runs in Hr; [|done..]. eapply Forall_impl; [exact Hr|]. by intros e []. Qed.
End own.

Lemma own_runs {A} ctx plan (p : prog A) tr a :
  given observe (reading (fun _ => True)) (fun e => own_event ctx plan e /\ timed (fun _ => True) e) p -> runs p tr a ->
  Forall (own_event ctx plan) tr.
Proof.
  intros Hp Hr. eapply given_runs in Hr; [|done|].
  - eapply Forall_impl; [exact Hr|]. by intros e [].
  - apply Forall_forall. by intros [] _.
Qed.

(** ** Outcomes *)

Fixpoint all_results {A} (Q : A -> Prop) (p : prog A) : Prop :=
  match p with
  | Ret a => Q a
  | Do c k => forall b, all_results Q (k b)
  end.
Lemma results_bind {A B} (R : A -> Prop) (Q : B -> Prop) (p : prog A) (f : A -> prog B) :
  all_results R p -> (forall a, R a -> all_results Q (f a)) -> all_results Q (p ≫= f).
Proof. intros Hp Hf. induction p as [a|C c k IH]; cbn in *; [by apply Hf|]. intros b. by apply IH. Qed.
Lemma results_True {A} (p : prog A) : all_results (fun _ => True) p.
Proof. by induction p. Qed.
Lemma results_then {A B} (Q : B -> Prop) (p : prog A) (f : A -> prog B) :
  (forall a, all_results Q (f a)) -> all_results Q (p ≫= f).
Proof. intros H. by apply (results_bind _ _ _ _ (results_True p)). Qed.
Lemma results_runs {A} (Q : A -> Prop) (p : prog A) tr a : all_results Q p -> runs p tr a -> Q a.
Proof.
  revert tr. induction p as [x|C c k IH]; intros tr; cbn; [by intros ? [_ ->]|].
  intros H (b & tr' & _ & Hr). by eapply IH.
Qed.

(** An outcome that is an answer: a result or an error that is not nil *)
Definition answers {R} (o : outcome R) : Prop :=
  match o with Returned _ => True | Failed err => is_Some err | Panicked => False end.
Definition known_steps (steps : list ExecutionStep) : Prop :=
  Forall (fun s => known_condition (st_OnError s) = true) steps.

Lemma select_is_Some err e : is_Some (selectPreferredError err (Some e)).
Proof. destruct err; cbn; [case_match|]; eauto. Qed.

Section answers.
Context {R : Type} (d : Dispatcher) (ctx : Context_) (req : Request) (plan : ExecutionPlan) (st : Time) (sreq : Request).
Context (attempt : ExecutionStep -> Provider -> Request -> Decision -> HealthDecision -> Z -> prog (result goerror R)).

Lemma try_step_answers i step err :
  known_condition (st_OnError step) = true ->
  all_results (fun r => match r with Stop o => answers o | Next e => is_Some e end)
    (try_step d ctx req plan st sreq attempt i step err).
Proof.
  intros Hk. unfold try_step. case_match; [cbn; eauto|]. case_match; [apply select_is_Some|].
  case_match; [|cbn; eauto]. apply results_then. intros qd. case_match; [apply results_then; intros _; apply select_is_Some|].
  apply results_then. intros hd. case_match; [apply results_then; intros _; apply select_is_Some|].
  apply results_then. intros [r|e]; [exact I|]. apply results_then. intros _.
  destruct (FallbackAllowed_known _ (NormalizeError (Some e)) (isLast plan i) Hk) as [[] ->].
  - apply select_is_Some.
  - apply results_then. intros t. apply results_then. intros _. apply select_is_Some.
Qed.

Lemma try_steps_answers steps i err :
  known_steps steps -> steps <> [] \/ is_Some err ->
  all_results answers (try_steps d ctx req plan st sreq attempt i steps err).
Proof.
  revert i err. induction steps as [|step steps IH]; intros i err Hk Hor; cbn [try_steps].
  - destruct Hor as [?|Herr]; [done|]. by apply results_then.
  - inversion Hk as [|? ? Hs Hk']; subst. eapply results_bind; [by apply try_step_answers|].
    intros [o|e] He; [exact He|]. apply IH; auto.
Qed.
End answers.

Lemma Dispatch_answers d ctx req plan :
  known_steps (plan_Steps plan) -> all_results answers (Dispatch d ctx req plan).
Proof.
  intros Hk. unfold Dispatch. destruct (plan_Steps plan) as [|s ss]; [cbn; eauto|]. apply results_then. intros st.
  apply try_steps_answers; [exact Hk|by left].
Qed.
Lemma DispatchStream_answers d ctx req plan :
  known_steps (plan_Steps plan) -> all_results answers (DispatchStream d ctx req plan).
Proof.
  intros Hk. unfold DispatchStream. destruct (plan_Steps plan) as [|s ss]; [cbn; eauto|]. apply results_then. intros st.
  apply try_steps_answers; [exact Hk|by left].
Qed.

(** ** How many calls a dispatch makes *)

(** A bound for any plan, whatever the calls answer *)
Definition dispatch_calls (plan : ExecutionPlan) : nat := (3 + 24 * length (plan_Steps plan))%nat.
(** ... and for a stream that gives the events: its goroutine waits for the provider only. *)
Definition relay_calls (events : list StreamEvent) : nat := (12 * S (length events))%nat.

(** Counts the calls of a short program. *)
Ltac count_calls := repeat first [exact I | intro | progress cbn | case_match].

Section bounded.
Context (d : Dispatcher) (ctx : Context_) (plan : ExecutionPlan).
Lemma within_recordSuccess o n qp hp : within 4 (recordSuccess d o n qp hp).
Proof. unfold recordSuccess, governance, when. count_calls. Qed.
Lemma within_recordProviderError o k : within 3 (recordProviderError d o k).
Proof. unfold recordProviderError, governance, when. count_calls. Qed.
Lemma within_recordClient r : within 1 (recordClientTerminalSuccess d r).
Proof. unfold recordClientTerminalSuccess. count_calls. Qed.

Lemma within_try_step {R} (attempt : ExecutionStep -> Provider -> Request -> Decision -> HealthDecision -> Z -> prog (result goerror R))
    req st sreq i step err :
  (forall step target sreq qd hd i, within 14 (attempt step target sreq qd hd i)) ->
  within 24 (try_step d ctx req plan st sreq attempt i step err).
Proof.
  intros Ha. unfold try_step. do 2 (case_match; [exact I|]). case_match; [|exact I].
  apply (within_bind 1 23); [unfold beforeAttempt; count_calls|]. intros qd.
  case_match; [unfold recordOutboundLimited, governance; count_calls|].
  apply (within_bind 1 22); [unfold beforeHealthAttempt; count_calls|]. intros hd.
  case_match; [unfold recordProviderHealthLimited, governance; count_calls|].
  apply (within_bind 14 8); [apply Ha|]. intros [r|e]; [exact I|].
  apply (within_bind 3 5); [apply within_recordProviderError|]. intros _. count_calls.
Qed.
Lemma within_try_steps {R} (attempt : ExecutionStep -> Provider -> Request -> Decision -> HealthDecision -> Z -> prog (result goerror R))
    req st sreq i steps err :
  (forall step target sreq qd hd i, within 14 (attempt step target sreq qd hd i)) ->
  within (2 + 24 * length steps) (try_steps d ctx req plan st sreq attempt i steps err).
Proof.
  intros Ha. revert i err. induction steps as [|step steps IH]; intros i err; cbn [try_steps length]; [count_calls|].
  replace (2 + 24 * S (length steps))%nat with (24 + (2 + 24 * length steps))%nat by lia.
  apply within_bind; [by apply within_try_step|]. intros [o|e]; [exact I|apply IH].
Qed.

Lemma within_Dispatch req : within (dispatch_calls plan) (Dispatch d ctx req plan).
Proof.
  unfold Dispatch, dispatch_calls. destruct (plan_Steps plan) as [|s ss]; [exact I|].
  apply (within_call (2 + 24 * length (s :: ss))). intros st. apply within_try_steps.
  intros step target sreq qd hd i. unfold chat_attempt, recordSpan.
  apply (within_call 13). intros t. apply (within_call 12). intros a. apply (within_bind 2 10); [count_calls|]. intros _.
  destruct a as [resp|]; [|exact I]. apply (within_call 9). intros _.
  apply (within_bind 4 5); [apply within_recordSuccess|]. intros _. apply (within_call 4). intros t'. cbn zeta.
  apply (within_call 3). intros _. apply (within_bind 1 2); [apply within_recordClient|]. intros _. exact I.
Qed.
Lemma within_DispatchStream req : within (dispatch_calls plan) (DispatchStream d ctx req plan).
Proof.
  unfold DispatchStream, dispatch_calls. destruct (plan_Steps plan) as [|s ss]; [exact I|].
  apply (within_call (2 + 24 * length (s :: ss))). intros st. apply within_try_steps.
  intros step target sreq qd hd i. unfold stream_attempt, recordSpan. count_calls.
Qed.

Lemma within_handle_event w s e : within 10 (handle_event d ctx plan w s e).
Proof.
  unfold handle_event. apply (within_call 9). intros t. apply (within_call 8). intros _.
  apply (within_bind 2 6); [by destruct (isFirstContentDelta e); count_calls|]. intros _. cbn zeta. case_match; [|exact I]. case_match; [exact I|].
  apply (within_bind 6 0); [|intros _; exact I]. unfold stream_error. apply (within_call 5). intros _. cbn zeta.
  apply (within_bind 3 2); [apply within_recordProviderError|]. intros _. count_calls.
Qed.
Lemma within_stream_success w s : within 8 (stream_success d ctx plan w s).
Proof.
  unfold stream_success. cbn zeta. apply (within_call 7). intros _.
  apply (within_bind 4 3); [apply within_recordSuccess|]. intros _. do 2 (apply within_call; intros ?). apply within_recordClient.
Qed.
Lemma wrapStream_calls w inputs tr : runs (wrapStream d ctx plan w inputs) tr true -> (length tr <= relay_calls (sends tr))%nat.
Proof.
  unfold wrapStream, relay_calls. generalize (mkRelay None (stream_requestedModel w) false) as s. revert tr.
  induction inputs as [|i inputs IH]; intros tr s; cbn [relay_loop]; [by intros [_ H]|].
  assert (forall n (p : prog bool), within n p -> (n <= 12)%nat -> runs p tr true -> (length tr <= 12 * S (length (sends tr)))%nat) as Hn.
  { intros n p Hp Hle Hr. eapply within_runs in Hp; [|exact Hr]. lia. }
  destruct i as [|c|e dl]; [by apply (Hn 1%nat); [count_calls|lia]|..].
  - apply (Hn 9%nat); [|lia]. destruct c; [count_calls|]. apply (within_bind 8 1); [|intros _; exact I].
    destruct (negb _); [apply within_stream_success|exact I].
  - intros H. run_inv. eapply within_runs in H0; [|apply within_handle_event]. destruct dl; run_inv.
    + apply IH in H. rewrite !sends_app, !length_app. cbn [sends omap list_omap observe length app]. lia.
    + apply runs_ret in H as [-> _]. rewrite !length_app. cbn [length]. lia.
Qed.
End bounded.

(** ** The contract *)

(** What a caller of [Dispatch] sees: its trace and its outcome *)
Abbreviation dispatching R := (Dispatcher -> Context_ -> Request -> ExecutionPlan -> list event -> outcome R -> Prop).

Class DispatcherContract (chat : dispatching Response) (stream : dispatching (list StreamEvent)) := {
  chat_own d ctx req plan tr o : chat d ctx req plan tr o -> Forall (own_event ctx plan) tr;
  stream_own d ctx req plan tr o : stream d ctx req plan tr o -> Forall (own_event ctx plan) tr;
  chat_timed K d ctx req plan tr o : chat d ctx req plan tr o -> Forall (reading K) tr -> Forall (timed K) tr;
  stream_timed K d ctx req plan tr o : stream d ctx req plan tr o -> Forall (reading K) tr -> Forall (timed K) tr;
  chat_bounded d ctx req plan tr o : chat d ctx req plan tr o -> (length tr <= dispatch_calls plan)%nat;
  stream_bounded d ctx req plan tr o : stream d ctx req plan tr o ->
    (length tr <= dispatch_calls plan + match o with Returned events => relay_calls events | _ => 0 end)%nat;
  chat_answers d ctx req plan tr o : known_steps (plan_Steps plan) -> chat d ctx req plan tr o -> answers o;
  stream_answers d ctx req plan tr o : known_steps (plan_Steps plan) -> stream d ctx req plan tr o -> answers o
}.

Definition dispatches : dispatching Response := fun d ctx req plan tr o => runs (Dispatch d ctx req plan) tr o.

(** A stream is opened, and its channel then gives what the relaying goroutine sends. *)
Definition streams : dispatching (list StreamEvent) := fun d ctx req plan tr o =>
  exists tr1 opened, runs (DispatchStream d ctx req plan) tr1 opened /\
    match opened with
    | Returned w => exists inputs tr2, runs (wrapStream d ctx plan w inputs) tr2 true /\
        tr = tr1 ++ tr2 /\ o = Returned (sends tr2)
    | Failed err => tr = tr1 /\ o = Failed err
    | Panicked => tr = tr1 /\ o = Panicked
    end.

#[export] Instance dispatcher_contract : DispatcherContract dispatches streams.
Proof.
  split; unfold dispatches, streams.
  - intros d ctx req plan tr o H. eapply own_runs; [apply own_Dispatch|exact H].
  - intros d ctx req plan tr o (tr1 & opened & H1 & H2).
    assert (Forall (own_event ctx plan) tr1) as F1 by (eapply own_runs; [apply own_DispatchStream|exact H1]).
    destruct opened as [w|err|]; [|by destruct H2 as [-> _]..]. destruct H2 as (inputs & tr2 & H2 & -> & _).
    apply Forall_app. split; [done|]. eapply own_runs; [apply own_wrapStream|exact H2].
  - intros K d ctx req plan tr o H. eapply own_timed; [apply own_Dispatch|exact H].
  - intros K d ctx req plan tr o (tr1 & opened & H1 & H2) Hk.
    assert (Forall (reading K) tr1 -> Forall (timed K) tr1) as F1 by (eapply own_timed; [apply own_DispatchStream|exact H1]).
    destruct opened as [w|err|]; [|by destruct H2 as [-> _]; apply F1..]. destruct H2 as (inputs & tr2 & H2 & -> & _).
    apply Forall_app in Hk as [K1 K2]. apply Forall_app. split; [by apply F1|].
    eapply own_timed; [apply own_wrapStream|exact H2|exact K2].
  - intros d ctx req plan tr o H. eapply within_runs; [apply within_Dispatch|exact H].
  - intros d ctx req plan tr o (tr1 & opened & H1 & H2). eapply within_runs in H1; [|apply within_DispatchStream].
    destruct opened as [w|err|]; [|destruct H2 as [-> ->]; lia..]. destruct H2 as (inputs & tr2 & H2 & -> & ->).
    apply wrapStream_calls in H2. rewrite length_app. lia.
  - intros d ctx req plan tr o Hk H. eapply results_runs; [by apply Dispatch_answers|exact H].
  - intros d ctx req plan tr o Hk (tr1 & opened & H1 & H2).
    apply (results_runs answers) in H1; [|by apply DispatchStream_answers].
    destruct opened as [w|err|]; [|by destruct H2 as [_ ->]|done]. by destruct H2 as (inputs & tr2 & _ & _ & ->).
Qed.
