(* ===== verification/EventStream.v ===== *)
(** * Event streams

    Models [internal/eventstream]: the block events of the Anthropic wire format that a
    response or a stream of the runtime is turned into, and the snapshot rebuilt from
    such events ([model.go], [adapter.go], [stream.go]).

    The goroutine of [EventStreamFromRuntime] is a fold over the events it receives.
    [cloneBlock] copies the memory a block points to; blocks are values here, so the
    copy is the block itself. *)

From Stdlib Require Import SpecFloat.
From S2P Require Import Prelude GoStrings ProviderErrors RuntimeModel.

(** ** Data *)

Inductive EventType :=
| EventTypeMessageStart | EventTypeContentBlockStart | EventTypeContentBlockDelta | EventTypeContentBlockStop
| EventTypeMessageDelta | EventTypeMessageStop | EventTypeUsage | EventTypeError.
Inductive BlockType := BlockTypeText | BlockTypeToolUse | BlockTypeToolResult | BlockTypeJSON | BlockTypeThinking.
(** [StopReasonEmpty] is the empty string. *)
Inductive StopReason :=
| StopReasonEndTurn | StopReasonToolUse | StopReasonMaxToken | StopReasonError
| StopReasonEmpty | StopReasonOther (s : string).
#[export] Instance StopReason_eq_dec : EqDecision StopReason.
Proof. solve_decision. Defined.

Record ToolCallSnapshot := mkToolCallSnapshot { tcs_ID : string; tcs_Name : string; tcs_Arguments : string }.

Inductive ContentBlock :=
| mkContentBlock (Type_ : BlockType) (Text Data : string) (ToolCall_ : option ToolCallSnapshot)
    (ToolResult : option ToolResultSnapshot)
with ToolResultSnapshot :=
| mkToolResultSnapshot (ToolCallID : string) (Blocks : list ContentBlock) (IsError : bool).

Record Event := mkEvent {
  se_Type : EventType;
  se_MessageID : string;
  se_Model : string;
  se_Role : MessageRole;
  se_BlockIndex : Z;
  se_Block : option ContentBlock;
  se_TextDelta : string;
  se_ToolCall : option ToolCallSnapshot;
  se_Usage : option Usage;
  se_FinishReason : StopReason;
  se_Err : option goerror
}.

Record ResponseSnapshot := mkResponseSnapshot {
  rs_ID : string;
  rs_Model : string;
  rs_Role : MessageRole;
  rs_Blocks : list ContentBlock;
  rs_FinishReason : StopReason;
  rs_Usage : option Usage
}.

Definition StopReasonFromRuntime (reason : FinishReason) : StopReason :=
  match reason with
  | FinishReasonToolUse => StopReasonToolUse
  | FinishReasonLength => StopReasonMaxToken
  | FinishReasonError => StopReasonError
  | _ => StopReasonEndTurn
  end.
Definition StopReasonToRuntime (reason : StopReason) : FinishReason :=
  match reason with
  | StopReasonToolUse => FinishReasonToolUse
  | StopReasonMaxToken => FinishReasonLength
  | StopReasonError => FinishReasonError
  | _ => FinishReasonEndTurn
  end.

(** ** Responses as events *)

(** An event of a message, with the fields an event sets and the others empty *)
Definition message_event (id model role : string) (typ : EventType) : Event :=
  mkEvent typ id model role 0 None "" None None StopReasonEmpty None.
Definition block_event (id model role : string) (typ : EventType) (index : Z) (block : option ContentBlock)
    (text : string) (call : option ToolCallSnapshot) : Event :=
  mkEvent typ id model role index block text call None StopReasonEmpty None.
Definition end_events (id model role : string) (finishReason : StopReason) (usage : option Usage) : list Event :=
  [mkEvent EventTypeMessageDelta id model role 0 None "" None usage finishReason None;
   mkEvent EventTypeMessageStop id model role 0 None "" None None finishReason None].
Definition usage_event (id model role : string) (usage : option Usage) : Event :=
  mkEvent EventTypeUsage id model role 0 None "" None usage StopReasonEmpty None.

Definition part_block (part : ContentPart) : ContentBlock :=
  match cp_Type part with
  | ContentPartTypeJSON => mkContentBlock BlockTypeJSON "" (cp_Data part) None None
  | _ => mkContentBlock BlockTypeText (cp_Text part) "" None None
  end.
Definition part_delta (part : ContentPart) : string :=
  match cp_Type part with ContentPartTypeJSON => "" | _ => cp_Text part end.
Definition call_snapshot (call : ToolCall) : ToolCallSnapshot :=
  mkToolCallSnapshot (tc_ID call) (tc_Name call) (tc_Arguments call).
Definition call_block (call : ToolCall) : ContentBlock :=
  mkContentBlock BlockTypeToolUse "" "" (Some (call_snapshot call)) None.

Section response.
Context (id model role : string).
Definition block_events (index : Z) (block : ContentBlock) (text : string) (call : option ToolCallSnapshot)
    : list Event :=
  [block_event id model role EventTypeContentBlockStart index (Some block) "" None;
   block_event id model role EventTypeContentBlockDelta index (Some block) text call;
   block_event id model role EventTypeContentBlockStop index None "" None].
(** The index of a part or a call is below the length of a slice. *)
Fixpoint parts_events (blockIndex : Z) (parts : list ContentPart) : list Event :=
  match parts with
  | [] => []
  | part :: parts =>
      block_events blockIndex (part_block part) (part_delta part) None ++ parts_events (blockIndex + 1) parts
  end.
Fixpoint calls_events (blockIndex : Z) (calls : list ToolCall) : list Event :=
  match calls with
  | [] => []
  | call :: calls =>
      block_events blockIndex (call_block call) "" (Some (call_snapshot call)) ++
      calls_events (blockIndex + 1) calls
  end.
End response.

Definition EventsFromRuntimeResponse (resp : Response) : list Event :=
  let msg := resp_Message resp in
  let id := resp_ID resp in let model := resp_Model resp in let role := msg_Role msg in
  [message_event id model role EventTypeMessageStart] ++
  parts_events id model role 0 (msg_Parts msg) ++
  calls_events id model role (Z.of_nat (length (msg_Parts msg))) (msg_ToolCalls msg) ++
  (match resp_Usage resp with
   | Some usage => [usage_event id model role (Some usage)]
   | None => []
   end) ++
  end_events id model role (StopReasonFromRuntime (resp_FinishReason resp)) (resp_Usage resp).

(** ** Snapshots of events *)

Definition first_nonempty (current candidate : string) : string :=
  if (current == "") && (candidate != "") then candidate else current.

(** The snapshot being built, its blocks by index and the order the indices came in *)
Definition snapshot_state : Type := (ResponseSnapshot * gmap Z ContentBlock * list Z).

Definition snapshot_event (s : snapshot_state) (e : Event) : snapshot_state :=
  let '(snap, blocks, order) := s in
  let '(blocks, order) :=
    match se_Block e with
    | None => (blocks, order)
    | Some block =>
        (<[se_BlockIndex e := block]> blocks,
         if bool_decide (se_BlockIndex e ∈ order) then order else order ++ [se_BlockIndex e])
    end in
  let ending := match se_Type e with EventTypeMessageDelta | EventTypeMessageStop => true | _ => false end in
  let usage_seen := match se_Type e with EventTypeUsage => true | _ => ending end in
  let usage := if usage_seen then match se_Usage e with Some u => Some u | None => rs_Usage snap end
               else rs_Usage snap in
  let finish := if ending && negb (bool_decide (se_FinishReason e = StopReasonEmpty)) then se_FinishReason e
                else rs_FinishReason snap in
  (mkResponseSnapshot (first_nonempty (rs_ID snap) (se_MessageID e)) (first_nonempty (rs_Model snap) (se_Model e))
     (first_nonempty (rs_Role snap) (se_Role e)) [] finish usage, blocks, order).

Definition empty_snapshot : ResponseSnapshot := mkResponseSnapshot "" "" "" [] StopReasonEmpty None.

Definition SnapshotFromEvents (events : list Event) : ResponseSnapshot :=
  let '(snap, blocks, order) := foldl snapshot_event (empty_snapshot, ∅, []) events in
  mkResponseSnapshot (rs_ID snap) (rs_Model snap) (rs_Role snap)
    (omap (fun idx => blocks !! idx) order) (rs_FinishReason snap) (rs_Usage snap).

(** ** Streams as events *)

Record streamState := mkStreamState {
  ss_textBlockIndex : Z;
  ss_nextBlockIndex : Z;
  ss_toolBlockIndexes : gmap Z Z
}.

Section stream.
(** The order in which [range] visits a map, unspecified in Go *)
Context (range : gmap Z Z -> list (Z * Z)).

Definition stop_block (e : StreamEvent) (index : Z) : Event :=
  block_event (ev_ResponseID e) (ev_Model e) (ev_MessageRole e) EventTypeContentBlockStop index None "" None.
Definition start_block (e : StreamEvent) (index : Z) (block : ContentBlock) : Event :=
  block_event (ev_ResponseID e) (ev_Model e) (ev_MessageRole e) EventTypeContentBlockStart index (Some block) "" None.
Definition delta_block (e : StreamEvent) (index : Z) (block : ContentBlock) (text : string)
    (call : option ToolCallSnapshot) : Event :=
  block_event (ev_ResponseID e) (ev_Model e) (ev_MessageRole e) EventTypeContentBlockDelta index (Some block)
    text call.

(** [if textBlockIndex != -1 { ...stop...; textBlockIndex = -1 }] *)
Definition close_text (e : StreamEvent) (s : streamState) : list Event * streamState :=
  if ss_textBlockIndex s =? -1 then ([], s)
  else ([stop_block e (ss_textBlockIndex s)],
        mkStreamState (-1) (ss_nextBlockIndex s) (ss_toolBlockIndexes s)).

Definition delta_step (e : StreamEvent) (delta : ContentPart) (s : streamState) : list Event * streamState :=
  match cp_Type delta with
  | ContentPartTypeJSON =>
      let '(out, s) := close_text e s in
      let blockIndex := ss_nextBlockIndex s in
      let block := mkContentBlock BlockTypeJSON "" (cp_Data delta) None None in
      (out ++ [start_block e blockIndex block; delta_block e blockIndex block "" None; stop_block e blockIndex],
       mkStreamState (ss_textBlockIndex s) (i64 (blockIndex + 1)) (ss_toolBlockIndexes s))
  | _ =>
      let '(out, s) :=
        if ss_textBlockIndex s =? -1 then
          let index := ss_nextBlockIndex s in
          ([start_block e index (mkContentBlock BlockTypeText "" "" None None)],
           mkStreamState index (i64 (index + 1)) (ss_toolBlockIndexes s))
        else ([], s) in
      (out ++ [delta_block e (ss_textBlockIndex s) (mkContentBlock BlockTypeText (cp_Text delta) "" None None)
                 (cp_Text delta) None], s)
  end.

Definition tool_step (e : StreamEvent) (call : ToolCall) (s : streamState) : list Event * streamState :=
  let '(out, s) := close_text e s in
  let '(out, toolIndex, s) :=
    match ss_toolBlockIndexes s !! ev_ToolCallIndex e with
    | Some toolIndex => (out, toolIndex, s)
    | None =>
        let toolIndex := ss_nextBlockIndex s in
        (out ++ [start_block e toolIndex (mkContentBlock BlockTypeToolUse "" ""
                   (Some (mkToolCallSnapshot (tc_ID call) (tc_Name call) "")) None)],
         toolIndex,
         mkStreamState (ss_textBlockIndex s) (i64 (toolIndex + 1))
           (<[ev_ToolCallIndex e := toolIndex]> (ss_toolBlockIndexes s)))
    end in
  (out ++ [delta_block e toolIndex (call_block call) "" (Some (call_snapshot call))], s).

Definition content_step (e : StreamEvent) (s : streamState) : list Event * streamState :=
  let '(out1, s) := match ev_Delta e with Some delta => delta_step e delta s | None => ([], s) end in
  let '(out2, s) := match ev_ToolCall e with Some call => tool_step e call s | None => ([], s) end in
  (out1 ++ out2, s).

Definition end_step (e : StreamEvent) (s : streamState) : list Event * streamState :=
  let '(out, s) := close_text e s in
  let stops := map (fun p => stop_block e p.2) (range (ss_toolBlockIndexes s)) in
  (out ++ stops ++ end_events (ev_ResponseID e) (ev_Model e) (ev_MessageRole e)
     (StopReasonFromRuntime (ev_FinishReason e)) (ev_Usage e),
   mkStreamState (ss_textBlockIndex s) (ss_nextBlockIndex s) ∅).

Definition stream_step (s : streamState) (e : StreamEvent) : list Event * streamState :=
  let id := ev_ResponseID e in let model := ev_Model e in let role := ev_MessageRole e in
  match ev_Type e with
  | StreamEventMessageStart => ([message_event id model role EventTypeMessageStart], s)
  | StreamEventContentDelta => content_step e s
  | StreamEventUsage => ([usage_event id model role (ev_Usage e)], s)
  | StreamEventMessageEnd => end_step e s
  | StreamEventError =>
      ([mkEvent EventTypeError id model role 0 None "" None None StopReasonEmpty (ev_Err e)], s)
  | StreamEventOther _ => ([], s)
  end.

Fixpoint stream_loop (s : streamState) (events : list StreamEvent) : list Event :=
  match events with
  | [] => []
  | e :: events => let '(out, s) := stream_step s e in out ++ stream_loop s events
  end.
Definition EventStreamFromRuntime : list StreamEvent -> list Event :=
  stream_loop (mkStreamState (-1) 0 ∅).
End stream.
