(* ===== verification/EventStreamFacts.v ===== *)
(** * Properties of event streams

    The events of a response rebuild it; the events of a stream follow the block
    protocol of the wire format and lose none of its contents. *)

From Stdlib Require Import SpecFloat.
From S2P Require Import Prelude GoStrings ProviderErrors RuntimeModel EventStream.

(** ** Responses *)

Definition response_blocks (resp : Response) : list ContentBlock :=
  map part_block (msg_Parts (resp_Message resp)) ++ map call_block (msg_ToolCalls (resp_Message resp)).

Section roundtrip.
Context (id model role : string).

(** The state of [SnapshotFromEvents] after the blocks [bs] of a message *)
Record built (bs : list ContentBlock) (s : snapshot_state) : Prop := {
  built_snap : s.1.1 = mkResponseSnapshot id model role [] StopReasonEmpty None;
  built_order : s.2 = map Z.of_nat (seq 0 (length bs));
  built_blocks : forall k, s.1.2 !! Z.of_nat k = bs !! k
}.

Lemma first_nonempty_same s : first_nonempty s s = s.
Proof. unfold first_nonempty. by destruct (s == ""). Qed.

Lemma built_block bs s b text call :
  built bs s ->
  built (bs ++ [b]) (foldl snapshot_event s (block_events id model role (Z.of_nat (length bs)) b text call)).
Proof.
  intros [Hs Ho Hb]. destruct s as [[snap blocks] order]. cbn [fst snd] in *. subst snap order.
  unfold block_events, block_event. cbn [foldl snapshot_event se_Block se_BlockIndex se_Type].
  assert (Z.of_nat (length bs) ∉ map Z.of_nat (seq 0 (length bs))) as Hn.
  { intros (k & Ek & Hk%elem_of_seq)%list_elem_of_fmap. lia. }
  cbn [rs_ID rs_Model rs_Role rs_FinishReason rs_Usage se_MessageID se_Model se_Role negb andb bool_decide].
  rewrite (bool_decide_false _ Hn), bool_decide_true by set_solver. rewrite !first_nonempty_same, insert_insert_eq.
  split; cbn [fst snd]; [done| |].
  - by rewrite length_app, seq_app, map_app.
  - intros k. destruct (decide (k = length bs)) as [->|Hk].
    + by rewrite lookup_insert_eq, lookup_app_r, Nat.sub_diag by lia.
    + rewrite lookup_insert_ne by lia. rewrite Hb.
      destruct (decide (k < length bs)%nat); [by rewrite lookup_app_l|].
      rewrite lookup_ge_None_2 by lia. symmetry. apply lookup_ge_None_2. rewrite length_app. cbn. lia.
Qed.

Lemma built_parts bs s parts :
  built bs s ->
  built (bs ++ map part_block parts)
    (foldl snapshot_event s (parts_events id model role (Z.of_nat (length bs)) parts)).
Proof.
  revert bs s. induction parts as [|p parts IH]; intros bs s H; cbn [parts_events map foldl].
  { by rewrite app_nil_r. }
  rewrite foldl_app, cons_middle, (assoc (++)).
  replace (Z.of_nat (length bs) + 1) with (Z.of_nat (length (bs ++ [part_block p])))
    by (rewrite length_app; cbn; lia).
  by apply IH, built_block.
Qed.
Lemma built_calls bs s calls :
  built bs s ->
  built (bs ++ map call_block calls)
    (foldl snapshot_event s (calls_events id model role (Z.of_nat (length bs)) calls)).
Proof.
  revert bs s. induction calls as [|c calls IH]; intros bs s H; cbn [calls_events map foldl].
  { by rewrite app_nil_r. }
  rewrite foldl_app, cons_middle, (assoc (++)).
  replace (Z.of_nat (length bs) + 1) with (Z.of_nat (length (bs ++ [call_block c])))
    by (rewrite length_app; cbn; lia).
  by apply IH, built_block.
Qed.

Lemma omap_seq {A} (f : Z -> option A) (l : list A) :
  (forall k, (k < length l)%nat -> f (Z.of_nat k) = l !! k) -> omap f (map Z.of_nat (seq 0 (length l))) = l.
Proof.
  induction l as [|x l IH] using rev_ind; intros Hf; [done|].
  rewrite length_app in Hf |- *. cbn [length] in Hf |- *. rewrite seq_app, map_app, omap_app, IH.
  - f_equal. cbn. rewrite Hf by lia. by rewrite lookup_app_r, Nat.sub_diag by lia.
  - intros k Hk. rewrite Hf by lia. by apply lookup_app_l.
Qed.
End roundtrip.

(** A response survives its events.  The snapshot of the events of any response has
    the response's identifier, model, role, finish reason and usage, and one block for
    each of its parts and tool calls, in order. *)
Theorem response_roundtrip resp :
  SnapshotFromEvents (EventsFromRuntimeResponse resp) =
  mkResponseSnapshot (resp_ID resp) (resp_Model resp) (msg_Role (resp_Message resp)) (response_blocks resp)
    (StopReasonFromRuntime (resp_FinishReason resp)) (resp_Usage resp).
Proof.
  destruct resp as [id obj model [role parts calls tid ttype iserr] fr usage].
  unfold SnapshotFromEvents, EventsFromRuntimeResponse, response_blocks.
  cbn [resp_Message resp_ID resp_Model resp_Usage resp_FinishReason msg_Role msg_Parts msg_ToolCalls].
  rewrite !foldl_app. cbn [foldl].
  assert (built id model role [] (snapshot_event (empty_snapshot, ∅, [])
    (message_event id model role EventTypeMessageStart))) as H.
  { split; [|done|]; cbn [fst snd snapshot_event message_event se_Block se_Type].
    - cbn. unfold first_nonempty. cbn. by destruct id, model, role.
    - intros k. by rewrite lookup_empty. }
  apply (built_parts _ _ _ _ _ parts) in H. apply (built_calls _ _ _ _ _ calls) in H.
  rewrite app_nil_l, length_map in H. cbn [length] in H.
  set (s := foldl snapshot_event _ (calls_events _ _ _ _ _)) in *. clearbody s.
  destruct s as [[snap blocks] order]. destruct H as [Hs Ho Hb]. cbn [fst snd] in *. subst snap order.
  destruct usage as [u|], fr; cbn [foldl snapshot_event usage_event end_events se_Block se_Type se_Usage
    se_FinishReason StopReasonFromRuntime]; cbn; rewrite !first_nonempty_same; f_equal;
    by apply (omap_seq (fun idx => blocks !! idx)).
Qed.

(** ** The block protocol

    A reader of the stream knows the next block index and the open blocks with their
    types: a block starts with the next index, a delta is for an open block of its type,
    a stop is for an open block, and no block is open when the message stops. *)

Definition block_type (b : ContentBlock) : BlockType := match b with mkContentBlock t _ _ _ _ => t end.
#[export] Instance BlockType_eq_dec : EqDecision BlockType.
Proof. solve_decision. Defined.

Record reader := mkReader { rd_next : Z; rd_open : gmap Z BlockType }.

Definition read (r : reader) (e : Event) : option reader :=
  match se_Type e with
  | EventTypeContentBlockStart =>
      match se_Block e with
      | Some b =>
          if se_BlockIndex e =? rd_next r
          then Some (mkReader (rd_next r + 1) (<[se_BlockIndex e := block_type b]> (rd_open r)))
          else None
      | None => None
      end
  | EventTypeContentBlockDelta =>
      match se_Block e with
      | Some b => if bool_decide (rd_open r !! se_BlockIndex e = Some (block_type b)) then Some r else None
      | None => None
      end
  | EventTypeContentBlockStop =>
      match rd_open r !! se_BlockIndex e with
      | Some _ => Some (mkReader (rd_next r) (delete (se_BlockIndex e) (rd_open r)))
      | None => None
      end
  | EventTypeMessageStop => if bool_decide (rd_open r = ∅) then Some r else None
  | _ => Some r
  end.
Fixpoint read_all (r : reader) (events : list Event) : option reader :=
  match events with
  | [] => Some r
  | e :: events => match read r e with Some r => read_all r events | None => None end
  end.
Lemma read_all_app r l1 l2 :
  read_all r (l1 ++ l2) = match read_all r l1 with Some r => read_all r l2 | None => None end.
Proof. revert r. induction l1 as [|e l1 IH]; intros r; cbn; [done|]. by destruct (read r e). Qed.

Lemma read_start r e i b :
  i = rd_next r ->
  read_all r [start_block e i b] = Some (mkReader (rd_next r + 1) (<[i := block_type b]> (rd_open r))).
Proof. intros ->. cbn. by rewrite Z.eqb_refl. Qed.
Lemma read_delta r e i b text call :
  rd_open r !! i = Some (block_type b) -> read_all r [delta_block e i b text call] = Some r.
Proof. intros H. cbn. by rewrite bool_decide_true. Qed.
Lemma read_stop r e i t :
  rd_open r !! i = Some t -> read_all r [stop_block e i] = Some (mkReader (rd_next r) (delete i (rd_open r))).
Proof. intros H. cbn. by rewrite H. Qed.

(** What ties the goroutine's state to the reader's *)
Record in_step (s : streamState) (r : reader) : Prop := {
  is_next : ss_nextBlockIndex s = rd_next r;
  is_nonneg : 0 <= rd_next r;
  is_open : forall i t, rd_open r !! i = Some t <->
    (t = BlockTypeText /\ i = ss_textBlockIndex s /\ ss_textBlockIndex s <> -1) \/
    (t = BlockTypeToolUse /\ exists k, ss_toolBlockIndexes s !! k = Some i);
  is_inj : forall k k' i, ss_toolBlockIndexes s !! k = Some i -> ss_toolBlockIndexes s !! k' = Some i -> k = k';
  is_text : ss_textBlockIndex s = -1 \/ 0 <= ss_textBlockIndex s < rd_next r;
  is_text_tool : forall k, ss_toolBlockIndexes s !! k <> Some (ss_textBlockIndex s);
  is_tool : forall k i, ss_toolBlockIndexes s !! k = Some i -> 0 <= i < rd_next r
}.

Lemma in_step_start : in_step (mkStreamState (-1) 0 ∅) (mkReader 0 ∅).
Proof.
  split; cbn; try done; try lia; [|by left..].
  intros i t. rewrite lookup_empty. split; [done|]. intros [(_ & _ & ?)|(_ & k & Hk)]; [done|].
  by rewrite lookup_empty in Hk.
Qed.

(** An output that the reader accepts, ending in step again, with [n] blocks started *)
Definition accepted (n : Z) (r : reader) (out : list Event * streamState) : Prop :=
  exists r', read_all r out.1 = Some r' /\ in_step out.2 r' /\ rd_next r <= rd_next r' <= rd_next r + n.

Lemma accepted_app n m r out1 s1 out2 s2 :
  accepted n r (out1, s1) -> (forall r', in_step s1 r' -> rd_next r' <= rd_next r + n -> accepted m r' (out2, s2)) ->
  accepted (n + m) r (out1 ++ out2, s2).
Proof.
  intros (r1 & H1 & Hs1 & Hn1) H2. destruct (H2 r1 Hs1 ltac:(lia)) as (r2 & H2' & Hs2 & Hn2).
  exists r2. cbn [fst snd] in *. rewrite read_all_app, H1. split_and!; [done..|lia|lia].
Qed.
Lemma accepted_none r s : in_step s r -> accepted 0 r ([], s).
Proof. intros H. exists r. split_and!; [done..|lia|lia]. Qed.

Lemma close_text_accepted e s r :
  in_step s r -> accepted 0 r (close_text e s) /\ ss_textBlockIndex (close_text e s).2 = -1.
Proof.
  intros H. unfold close_text. destruct (Z.eqb_spec (ss_textBlockIndex s) (-1)) as [E|E].
  { split; [by apply accepted_none|done]. }
  split; [|done]. destruct H as [Hn H0 Ho Hi Ht Htt Hb].
  exists (mkReader (rd_next r) (delete (ss_textBlockIndex s) (rd_open r))). cbn [fst snd].
  rewrite (read_stop _ _ _ BlockTypeText) by (apply Ho; by left). split; [done|].
  split; [split; cbn; try done; [|by left|]|cbn; lia].
  - intros i t. rewrite lookup_delete_Some, Ho. split.
    + intros (Hne & [(-> & -> & _)|?]); [done|by right].
    + intros [(_ & _ & ?)|(-> & k & Hk)]; [done|]. split; [|right; eauto]. intros <-. by eapply Htt.
  - intros k Hk. apply Hb in Hk. lia.
Qed.

Lemma accepted_delta e r s i b text call :
  in_step s r -> rd_open r !! i = Some (block_type b) -> accepted 0 r ([delta_block e i b text call], s).
Proof. intros H Ho. exists r. cbn [fst snd]. rewrite read_delta by done. split_and!; [done..|lia|lia]. Qed.

Lemma next_fresh s r i : in_step s r -> rd_next r <= i -> rd_open r !! i = None.
Proof.
  intros [Hn H0 Ho Hi Ht Htt Hb] Hle. destruct (rd_open r !! i) as [t|] eqn:E; [|done].
  apply Ho in E as [(_ & -> & ?)|(_ & k & Hk)]; [lia|]. apply Hb in Hk. lia.
Qed.

Lemma i64_next n : 0 <= n < max_int64 -> i64 (n + 1) = n + 1.
Proof. intros H. apply i64_id. unfold in_i64, min_int64, max_int64 in *. lia. Qed.

Lemma delta_step_accepted e delta s r :
  in_step s r -> rd_next r < max_int64 -> accepted 1 r (delta_step e delta s).
Proof.
  intros H Hmax. unfold delta_step. pose proof (is_nonneg _ _ H) as H0.
  assert (forall b text, block_type b = BlockTypeText ->
    accepted 1 r (let '(out, s) :=
        if ss_textBlockIndex s =? -1 then
          let index := ss_nextBlockIndex s in
          ([start_block e index (mkContentBlock BlockTypeText "" "" None None)],
           mkStreamState index (i64 (index + 1)) (ss_toolBlockIndexes s))
        else ([], s) in
      (out ++ [delta_block e (ss_textBlockIndex s) b text None], s))) as Htext.
  { intros b text Hb. destruct (Z.eqb_spec (ss_textBlockIndex s) (-1)) as [E|E].
    - destruct H as [Hn _ Ho Hi Ht Htt Hbd]. cbv zeta. rewrite Hn, i64_next by lia.
      exists (mkReader (rd_next r + 1) (<[rd_next r := BlockTypeText]> (rd_open r))). cbn [fst snd].
      rewrite read_all_app, read_start by done. cbn [ss_textBlockIndex rd_open block_type].
      rewrite read_delta by (cbn; by rewrite lookup_insert_eq, Hb). split; [done|].
      split; [split; cbn; try done; try lia|cbn; lia].
      + intros i t. destruct (decide (i = rd_next r)) as [->|Hne].
        * rewrite lookup_insert_eq. split; [intros [= <-]; left; split_and!; [done|done|lia]|].
          intros [(-> & _)|(-> & k & Hk)]; [done|]. apply Hbd in Hk. lia.
        * rewrite lookup_insert_ne by done. rewrite Ho, E.
          split; [intros [(_ & _ & ?)|?]; [done|by right]|intros [(_ & ? & _)|?]; [done|by right]].
      + intros k Hk. apply Hbd in Hk. lia.
      + intros k i Hk. apply Hbd in Hk. lia.
    - cbv zeta. destruct (accepted_delta e r s (ss_textBlockIndex s) b text None) as (r' & H1 & H2 & H3).
      + done.
      + rewrite Hb. apply (is_open _ _ H). by left.
      + exists r'. split_and!; [done..|lia|lia]. }
  destruct (cp_Type delta); [by apply Htext| |by apply Htext].
  destruct (close_text_accepted e s r H) as [Hc Hm]. destruct (close_text e s) as [out s'] eqn:Ec.
  cbn [snd] in Hm. apply (accepted_app 0 1 _ _ _ _ _ Hc). intros r' [Hn Hn0 Ho Hi Ht Htt Hbd] Hle.
  rewrite Hn, i64_next by lia. set (b := mkContentBlock BlockTypeJSON "" (cp_Data delta) None None).
  assert (rd_open r' !! rd_next r' = None) as Hfresh by (eapply next_fresh; [by split|lia]).
  exists (mkReader (rd_next r' + 1) (rd_open r')). cbn [fst snd].
  change [?x; ?y; ?z] with ([x] ++ [y] ++ [z]). rewrite read_all_app, read_start by done. cbv beta iota.
  rewrite read_all_app, read_delta by apply lookup_insert_eq. cbn [rd_next rd_open].
  rewrite (read_stop _ _ _ BlockTypeJSON) by apply lookup_insert_eq. cbn [rd_next rd_open].
  rewrite delete_insert_id by done. split; [done|].
  split; [split; cbn; try done; try lia|cbn; lia]. intros k i Hk. apply Hbd in Hk. lia.
Qed.

Lemma tool_step_accepted e call s r :
  in_step s r -> rd_next r < max_int64 -> accepted 1 r (tool_step e call s).
Proof.
  intros H Hmax. unfold tool_step. pose proof (is_nonneg _ _ H) as H0.
  destruct (close_text_accepted e s r H) as [Hc Hm]. destruct (close_text e s) as [out s'] eqn:Ec.
  cbn [snd] in Hm.
  destruct (ss_toolBlockIndexes s' !! ev_ToolCallIndex e) as [i|] eqn:Ei.
  - apply (accepted_app 0 1 _ _ _ _ _ Hc). intros r' Hr' Hle.
    destruct (accepted_delta e r' s' i (call_block call) "" (Some (call_snapshot call))) as (r2 & H1 & H2 & H3).
    + done.
    + apply (is_open _ _ Hr'). right. split; [done|]. eauto.
    + exists r2. split_and!; [done..|lia|lia].
  - rewrite <-app_assoc. apply (accepted_app 0 1 _ _ _ _ _ Hc). intros r' Hr' Hle.
    pose proof Hr' as [Hn Hn0 Ho Hi Ht Htt Hbd]. rewrite Hn, i64_next by lia.
    exists (mkReader (rd_next r' + 1) (<[rd_next r' := BlockTypeToolUse]> (rd_open r'))). cbn [fst snd].
    rewrite read_all_app, read_start by done. cbn [block_type].
    rewrite read_delta by apply lookup_insert_eq. split; [done|].
    split; [split; cbn; try done; try lia|cbn; lia].
    + intros i t. destruct (decide (i = rd_next r')) as [->|Hne].
      * rewrite lookup_insert_eq. split.
        -- intros [= <-]. right. split; [done|]. exists (ev_ToolCallIndex e). apply lookup_insert_eq.
        -- intros [(_ & ? & ?)|(-> & _)]; [lia|done].
      * rewrite lookup_insert_ne by done. rewrite Ho. split; (intros [?|(-> & k & Hk)]; [by left|right]); (split; [done|]).
        -- exists k. rewrite lookup_insert_ne; [done|]. intros <-. congruence.
        -- exists k. apply lookup_insert_Some in Hk as [(_ & ?)|(_ & ?)]; [congruence|done].
    + intros k k' i [(<- & <-)|(Hk1 & Hk2)]%lookup_insert_Some [(<- & E)|(Hk3 & Hk4)]%lookup_insert_Some; try done.
      * apply Hbd in Hk4. lia.
      * apply Hbd in Hk2. lia.
      * eauto.
    + intros k [(_ & E)|(_ & E)]%lookup_insert_Some; [lia|by apply Htt in E].
    + intros k i [(_ & <-)|(_ & E)]%lookup_insert_Some; [lia|]. apply Hbd in E. lia.
Qed.

Lemma content_step_accepted e s r :
  in_step s r -> rd_next r + 1 < max_int64 -> accepted 2 r (content_step e s).
Proof.
  intros H Hmax. unfold content_step.
  assert (accepted 1 r (match ev_Delta e with Some delta => delta_step e delta s | None => ([], s) end)) as H1.
  { destruct (ev_Delta e); [apply delta_step_accepted; [done|lia]|].
    destruct (accepted_none r s H) as (r' & ? & ? & ?). exists r'. split_and!; [done..|lia|lia]. }
  destruct (match ev_Delta e with Some _ => _ | None => _ end) as [out1 s1].
  assert (forall r', in_step s1 r' -> rd_next r' <= rd_next r + 1 ->
    accepted 1 r' (match ev_ToolCall e with Some call => tool_step e call s1 | None => ([], s1) end)) as H2.
  { intros r' Hr' Hle. destruct (ev_ToolCall e); [apply tool_step_accepted; [done|lia]|].
    destruct (accepted_none r' s1 Hr') as (r2 & ? & ? & ?). exists r2. split_and!; [done..|lia|lia]. }
  destruct (match ev_ToolCall e with Some _ => _ | None => _ end) as [out2 s2].
  by eapply (accepted_app 1 1).
Qed.

(** Stopping the tool blocks, in any order, leaves no block open. *)
Lemma read_stops e l r :
  NoDup l -> (forall i, is_Some (rd_open r !! i) <-> i ∈ l) ->
  read_all r (map (stop_block e) l) = Some (mkReader (rd_next r) ∅).
Proof.
  revert r. induction l as [|i l IH]; intros r Hnd Ho; cbn [map].
  - cbn. f_equal. destruct r as [n o]. f_equal. apply map_empty. intros i. apply eq_None_not_Some.
    rewrite Ho. by apply not_elem_of_nil.
  - apply NoDup_cons in Hnd as [Hni Hnd]. destruct (proj2 (Ho i)) as [t Ht]; [by left|].
    change (stop_block e i :: ?l) with ([stop_block e i] ++ l).
    rewrite read_all_app, (read_stop _ _ _ t) by done. rewrite IH; [done|done|]. intros j. cbn [rd_open].
    rewrite lookup_delete_is_Some, Ho, elem_of_cons. split; [intros (? & [?|?]); congruence|].
    intros Hj. split; [by intros ->|by right].
Qed.

Section stream.
Context (range : gmap Z Z -> list (Z * Z)).
Hypothesis range_spec : forall m, range m ≡ₚ map_to_list m.

Lemma end_step_accepted e s r : in_step s r -> accepted 0 r (end_step range e s).
Proof.
  intros H. unfold end_step. destruct (close_text_accepted e s r H) as [Hc Hm].
  destruct (close_text e s) as [out s'] eqn:Ec. cbn [snd] in Hm.
  apply (accepted_app 0 0 _ _ _ _ _ Hc). intros r' Hr' Hle. destruct Hr' as [Hn Hn0 Ho Hi Ht Htt Hbd].
  exists (mkReader (rd_next r') ∅). cbn [fst snd]. rewrite read_all_app.
  rewrite <-(map_map snd (stop_block e)), read_stops.
  - split; [done|]. split; [|cbn; lia]. rewrite Hm. destruct (in_step_start) as [_ _ Ho' _ _ _ _].
    split; cbn; try done; by left.
  - rewrite range_spec. apply NoDup_fmap_2_strong, NoDup_map_to_list.
    intros [k1 i1] [k2 i2] H1%elem_of_map_to_list H2%elem_of_map_to_list. cbn. intros <-.
    by rewrite (Hi k1 k2 i1).
  - intros i. rewrite range_spec. split.
    + intros [t [(_ & _ & ?)|(_ & k & Hk)]%Ho]; [done|]. apply list_elem_of_fmap. exists (k, i).
      split; [done|]. by apply elem_of_map_to_list.
    + intros ([k i'] & -> & Hk%elem_of_map_to_list)%list_elem_of_fmap. exists BlockTypeToolUse. apply Ho.
      right. eauto.
Qed.

Lemma stream_step_accepted e s r :
  in_step s r -> rd_next r + 1 < max_int64 -> accepted 2 r (stream_step range s e).
Proof.
  intros H Hmax. unfold stream_step.
  assert (forall x, (forall r', read r' x = Some r') -> accepted 2 r ([x], s)) as Hone.
  { intros x Hx. exists r. cbn. rewrite Hx. split_and!; [done..|lia|lia]. }
  destruct (ev_Type e).
  - by apply Hone.
  - by apply content_step_accepted.
  - destruct (end_step_accepted e s r H) as (r' & ? & ? & ?). exists r'. split_and!; [done..|lia|lia].
  - by apply Hone.
  - by apply Hone.
  - destruct (accepted_none r s H) as (r' & ? & ? & ?). exists r'. split_and!; [done..|lia|lia].
Qed.

Lemma stream_loop_accepted events s r :
  in_step s r -> rd_next r + 2 * Z.of_nat (length events) < max_int64 ->
  exists r', read_all r (stream_loop range s events) = Some r'.
Proof.
  revert s r. induction events as [|e events IH]; intros s r H Hmax; cbn [stream_loop length] in *; [by exists r|].
  destruct (stream_step_accepted e s r H) as (r1 & H1 & H2 & H3); [lia|].
  destruct (stream_step range s e) as [out s1]. cbn [fst snd] in *.
  destruct (IH s1 r1 H2) as (r2 & Hr2); [lia|]. exists r2. by rewrite read_all_app, H1.
Qed.
End stream.

(** C35: the block protocol of streams.  Whatever events a provider sends (fewer than
    2^61 of them) and in whatever order Go visits the map of tool blocks, the events a
    client is sent follow the block protocol: every block starts with the next free
    index, every delta is for a block that is open and of its type, every stop is for an
    open block, and no block is open when a message stops. *)
Theorem stream_protocol range events :
  (forall m, range m ≡ₚ map_to_list m) -> Z.of_nat (length events) < 2 ^ 61 ->
  is_Some (read_all (mkReader 0 ∅) (EventStreamFromRuntime range events)).
Proof.
  intros Hr Hlen. destruct (stream_loop_accepted range Hr events _ _ in_step_start) as [r H].
  - cbn. unfold max_int64. lia.
  - by exists r.
Qed.

(** ** Contents *)

(** An event without its block index, [None] for the start or the stop of a block *)
Definition content_of (e : Event) : option Event :=
  match se_Type e with
  | EventTypeContentBlockStart | EventTypeContentBlockStop => None
  | _ => Some (mkEvent (se_Type e) (se_MessageID e) (se_Model e) (se_Role e) 0 (se_Block e) (se_TextDelta e)
                 (se_ToolCall e) (se_Usage e) (se_FinishReason e) (se_Err e))
  end.

(** What one event of a provider says *)
Definition says (e : StreamEvent) : list Event :=
  let id := ev_ResponseID e in let model := ev_Model e in let role := ev_MessageRole e in
  match ev_Type e with
  | StreamEventMessageStart => [message_event id model role EventTypeMessageStart]
  | StreamEventContentDelta =>
      match ev_Delta e with
      | Some delta => [delta_block e 0 (part_block delta) (part_delta delta) None]
      | None => []
      end ++
      match ev_ToolCall e with
      | Some call => [delta_block e 0 (call_block call) "" (Some (call_snapshot call))]
      | None => []
      end
  | StreamEventUsage => [usage_event id model role (ev_Usage e)]
  | StreamEventMessageEnd =>
      end_events id model role (StopReasonFromRuntime (ev_FinishReason e)) (ev_Usage e)
  | StreamEventError => [mkEvent EventTypeError id model role 0 None "" None None StopReasonEmpty (ev_Err e)]
  | StreamEventOther _ => []
  end.

Lemma close_text_content e s : omap content_of (close_text e s).1 = [].
Proof. unfold close_text. by destruct (_ =? _). Qed.
Lemma delta_step_content e delta s :
  omap content_of (delta_step e delta s).1 = [delta_block e 0 (part_block delta) (part_delta delta) None].
Proof.
  unfold delta_step, part_block, part_delta. destruct (cp_Type delta).
  - by destruct (_ =? _).
  - pose proof (close_text_content e s) as H. destruct (close_text e s) as [out s']. cbn [fst] in *.
    by rewrite omap_app, H.
  - by destruct (_ =? _).
Qed.
Lemma tool_step_content e call s :
  omap content_of (tool_step e call s).1 = [delta_block e 0 (call_block call) "" (Some (call_snapshot call))].
Proof.
  unfold tool_step. pose proof (close_text_content e s) as H. destruct (close_text e s) as [out s']. cbn [fst] in *.
  destruct (_ !! _); cbn [fst]; by rewrite !omap_app, H.
Qed.
Lemma stops_content e l : omap content_of (map (stop_block e) l) = [].
Proof. by induction l. Qed.

Lemma stream_step_content range s e : omap content_of (stream_step range s e).1 = says e.
Proof.
  unfold stream_step, says. destruct (ev_Type e); try done.
  - unfold content_step. pose proof (delta_step_content e) as Hd. pose proof (tool_step_content e) as Ht.
    destruct (ev_Delta e) as [delta|].
    + specialize (Hd delta s). destruct (delta_step e delta s) as [out1 s1]. cbn [fst] in Hd.
      destruct (ev_ToolCall e) as [call|]; [|cbn [fst]; by rewrite omap_app, Hd].
      specialize (Ht call s1). destruct (tool_step e call s1) as [out2 s2]. cbn [fst] in *.
      by rewrite omap_app, Hd, Ht.
    + destruct (ev_ToolCall e) as [call|]; [|done].
      specialize (Ht call s). destruct (tool_step e call s) as [out2 s2]. cbn [fst] in *. done.
  - unfold end_step. pose proof (close_text_content e s) as H. destruct (close_text e s) as [out s'].
    cbn [fst] in *. by rewrite !omap_app, H, <-(map_map snd (stop_block e)), stops_content.
Qed.

(** A stream loses nothing.  Apart from the starts and stops of blocks, the events a
    client is sent are what the provider's events say, in their order: each text, JSON or
    tool delta with its contents, each usage, error, start and end of a message. *)
Theorem stream_contents range events :
  omap content_of (EventStreamFromRuntime range events) = concat (map says events).
Proof.
  unfold EventStreamFromRuntime. generalize (mkStreamState (-1) 0 ∅) as s.
  induction events as [|e events IH]; intros s; [done|]. cbn [stream_loop map concat].
  pose proof (stream_step_content range s e) as H. destruct (stream_step range s e) as [out s1]. cbn [fst] in H.
  by rewrite omap_app, H, IH.
Qed.

(** ** A concrete stream: text, a tool call in two pieces, text again *)

Definition ex_content (delta : option ContentPart) (call : option ToolCall) : StreamEvent :=
  mkStreamEvent StreamEventContentDelta "id" "m" MessageRoleAssistant delta call 0 FinishReasonEmpty None None.
Definition ex_text (text : string) : StreamEvent := ex_content (Some (mkContentPart ContentPartTypeText text "")) None.
Definition ex_call (args : string) : StreamEvent := ex_content None (Some (mkToolCall "c1" "function" "f" args "")).
Definition ex_end : StreamEvent :=
  mkStreamEvent StreamEventMessageEnd "id" "m" MessageRoleAssistant None None 0 FinishReasonToolUse None None.
Definition ex_provider_events : list StreamEvent := [ex_text "a"; ex_call "{"; ex_text "b"; ex_call "}"; ex_end].

Example ex_indices :
  map (fun e => (se_Type e, se_BlockIndex e)) (EventStreamFromRuntime map_to_list ex_provider_events) =
  [(EventTypeContentBlockStart, 0); (EventTypeContentBlockDelta, 0); (EventTypeContentBlockStop, 0);
   (EventTypeContentBlockStart, 1); (EventTypeContentBlockDelta, 1);
   (EventTypeContentBlockStart, 2); (EventTypeContentBlockDelta, 2); (EventTypeContentBlockStop, 2);
   (EventTypeContentBlockDelta, 1); (EventTypeContentBlockStop, 1);
   (EventTypeMessageDelta, 0); (EventTypeMessageStop, 0)].
Proof. vm_compute. done. Qed.

Lemma stream_protocol_witness :
  is_Some (read_all (mkReader 0 ∅) (EventStreamFromRuntime map_to_list ex_provider_events)).
Proof. apply stream_protocol; [done|]. cbn. lia. Defined.
