(* ===== verification/Sessions.v ===== *)
(** * Agent sessions

    Models [internal/sessions]: the state machine that hook events drive ([state.go]),
    the store of sessions with their owners, leases and retention ([store.go]), the sweep
    of the reaper ([reaper.go]) and the snapshots that survive a restart
    ([snapshot_store.go]): how the file is replaced, call by call, and how the goroutine
    of the snapshot store, the last save that [Close] starts and the operations of the
    store interleave.

    Each method of the store holds its mutex and is one atomic step; it takes the clock
    readings it makes.  [cloneSession] copies what pointers point to; sessions are values
    here.  A time is its instant: two readings of one instant in different locations are
    equal here and deep-unequal in Go, which only makes the store count a change more. *)

From S2P Require Import Prelude GoStrings GoTime Program.

#[local] Set Warnings "-register-all".

(** ** Data *)

Inductive Status :=
| StatusUnknown | StatusRunning | StatusToolRunning | StatusWaitingPermission | StatusIdle
| StatusCompacting | StatusStopped | StatusEmpty | StatusOther (s : string).
#[export] Instance Status_eq_dec : EqDecision Status.
Proof. solve_decision. Defined.

Definition HeartbeatCapabilityV1 : string := "heartbeat_v1".

Record TmuxInfo := mkTmuxInfo {
  tmux_Present : bool; tmux_Session : string; tmux_WindowIndex : string; tmux_WindowName : string;
  tmux_PaneIndex : string; tmux_PaneID : string
}.
#[export] Instance TmuxInfo_eq_dec : EqDecision TmuxInfo.
Proof. solve_decision. Defined.

(** What a session says of itself, and what the store keeps of its state *)
Record Identity := mkIdentity {
  id_ID : string; id_ClientName : string; id_InboundName : string; id_Tag : string; id_Host : string;
  id_PID : Z; id_CWD : string; id_GitBranch : string; id_Command : list string; id_Tmux : TmuxInfo;
  id_Mode : string
}.
#[export] Instance Identity_eq_dec : EqDecision Identity.
Proof. solve_decision. Defined.

Record Session := mkSession {
  sn_identity : Identity;
  sn_Status : Status;
  sn_LastEvent : string;
  sn_StartedAt : Time;
  sn_LastSeenAt : Time;
  sn_HeartbeatCapability : string;
  sn_LastHeartbeatAt : option Time;
  sn_LeaseExpiresAt : option Time;
  sn_RecoveryPending : bool;
  sn_RecoveredAt : option Time;
  sn_StoppedAt : option Time;
  sn_ExitCode : option Z;
  sn_statusObservedAt : Time
}.
#[export] Instance Session_eq_dec : EqDecision Session.
Proof. solve_decision. Defined.

(** A JSON value of a hook's payload, as far as the store looks at it; an object is its
    entries in the order [range] visits them. *)
Inductive payload_value :=
| PString (s : string)
| PBool (b : bool)
| PMap (entries : list (string * payload_value))
| POther.
Abbreviation payload := (list (string * payload_value)).

Record HookEvent := mkHookEvent {
  he_SessionID : string; he_EventName : string; he_Payload : payload; he_ReceivedAt : Time
}.
Record ListFilter := mkListFilter { lf_Client : string; lf_Status : Status; lf_Host : string; lf_CWD : string }.

(** ** The state machine of a session *)

Definition currentOrUnknown (current : Status) : Status :=
  match current with StatusEmpty => StatusUnknown | _ => current end.

Fixpoint join_value (v : payload_value) : string :=
  match v with
  | PString s => s +:+ " "
  | PMap entries =>
      (fix join (l : payload) : string :=
         match l with [] => "" | (_, v) :: l => join_value v +:+ join l end) entries
  | _ => ""
  end.
Definition joinStringPayloadValues (p : payload) : string := join_value (PMap p).

Definition stringValueContains (p : payload) (needle : string) : bool :=
  Contains (ToLower (joinStringPayloadValues p)) needle.

(** [payload[key].(bool)], true *)
Definition payload_true (p : payload) (key : string) : bool :=
  match find (fun e => e.1 == key) p with Some (_, PBool true) => true | _ => false end.
Definition hookPayloadNeedsPermission (p : payload) : bool :=
  existsb (payload_true p) ["permission_required"; "requires_permission"; "permissionRequired"] ||
  (stringValueContains p "permission" && stringValueContains p "request").

Definition statusForNotification (p : payload) (current : Status) : Status :=
  if stringValueContains p "permission" || stringValueContains p "approval" || stringValueContains p "approve"
  then StatusWaitingPermission
  else if stringValueContains p "waiting" || stringValueContains p "idle" then StatusIdle
  else currentOrUnknown current.

Definition StatusForHookEvent (event : HookEvent) (current : Status) : Status :=
  if bool_decide (current = StatusStopped) then StatusStopped
  else
    let name := he_EventName event in
    if name == "SessionStart" then StatusIdle
    else if name == "UserPromptSubmit" then StatusRunning
    else if name == "PreToolUse" then
      if hookPayloadNeedsPermission (he_Payload event) then StatusWaitingPermission else StatusToolRunning
    else if name == "PostToolUse" then StatusRunning
    else if name == "Notification" then statusForNotification (he_Payload event) current
    else if name == "Stop" then StatusIdle
    else if name == "SubagentStop" then currentOrUnknown current
    else if name == "PreCompact" then StatusCompacting
    else if name == "SessionEnd" then StatusStopped
    else currentOrUnknown current.

(** ** The store *)

Definition DefaultStoppedRetention : Duration := 3600 * Second.
Definition DefaultLeaseTTL : Duration := 45 * Second.
Definition DefaultTransientTTL : Duration := 15 * Minute.

Inductive sessionError := ErrSessionOwnerMismatch | ErrHeartbeatCapabilityUnsupported.

Record SweepResult := mkSweepResult { sw_LeaseExpired : Z; sw_TransientDegraded : Z; sw_StoppedPruned : Z }.

(** [generation] is a [uint64]. *)
Record Store := mkStore { st_sessions : gmap string Session; st_generation : Z }.
Definition NewStore : Store := mkStore ∅ 0.
Definition u64_next (g : Z) : Z := (g + 1) mod 2 ^ 64.

Definition setSessionLocked (st : Store) (id : string) (s : Session) : Store :=
  if bool_decide (st_sessions st !! id = Some s) then st
  else mkStore (<[id := s]> (st_sessions st)) (u64_next (st_generation st)).

Definition owned (s : Session) (clientName inboundName : string) : bool :=
  (id_ClientName (sn_identity s) == clientName) && (id_InboundName (sn_identity s) == inboundName).
Definition stopped (s : Session) : bool := bool_decide (sn_Status s = StatusStopped).

(** The session [Register] stores when [existing] is the one it finds *)
Definition registered (existing : option Session) (session : Session) (now : Time) : Session :=
  let '(status, lastEvent, startedAt, lastSeenAt, stoppedAt, exitCode, recovery, recoveredAt, observed, cap) :=
    match existing with
    | Some e => (sn_Status e, sn_LastEvent e, sn_StartedAt e, sn_LastSeenAt e, sn_StoppedAt e, sn_ExitCode e,
        sn_RecoveryPending e, sn_RecoveredAt e, sn_statusObservedAt e,
        if (sn_HeartbeatCapability e != "") && (sn_HeartbeatCapability session == "")
        then sn_HeartbeatCapability e else sn_HeartbeatCapability session)
    | None => (sn_Status session, sn_LastEvent session, sn_StartedAt session, sn_LastSeenAt session,
        sn_StoppedAt session, sn_ExitCode session, sn_RecoveryPending session, sn_RecoveredAt session,
        sn_statusObservedAt session, sn_HeartbeatCapability session)
    end in
  let v1 := cap == HeartbeatCapabilityV1 in
  mkSession (sn_identity session) (currentOrUnknown status) lastEvent
    (if IsZero startedAt then now else startedAt) (if IsZero lastSeenAt then now else lastSeenAt) cap
    (if v1 then Some now else None) (if v1 then Some (Add now DefaultLeaseTTL) else None)
    (if v1 then false else recovery) recoveredAt stoppedAt exitCode
    (if IsZero observed then now else observed).

Definition Register (st : Store) (session : Session) (now : Time) : result sessionError Session * Store :=
  let id := id_ID (sn_identity session) in
  match st_sessions st !! id with
  | Some existing =>
      if negb (owned existing (id_ClientName (sn_identity session)) (id_InboundName (sn_identity session)))
      then (Err ErrSessionOwnerMismatch, st)
      else if stopped existing then (Ok existing, st)
      else
        let s := registered (Some existing) session now in (Ok s, setSessionLocked st id s)
  | None => let s := registered None session now in (Ok s, setSessionLocked st id s)
  end.

Definition GetOwned (st : Store) (sessionID clientName inboundName : string) : option Session :=
  s ← st_sessions st !! sessionID;
  if owned s clientName inboundName then Some s else None.

(** The session after a hook event received at [receivedAt], handled at [now] *)
Definition hooked (event : HookEvent) (receivedAt now : Time) (s : Session) : Session :=
  let status := StatusForHookEvent event (sn_Status s) in
  mkSession (sn_identity s) status (he_EventName event) (sn_StartedAt s) receivedAt (sn_HeartbeatCapability s)
    (sn_LastHeartbeatAt s) (sn_LeaseExpiresAt s) (sn_RecoveryPending s) (sn_RecoveredAt s)
    (match sn_StoppedAt s with
     | None => if bool_decide (status = StatusStopped) then Some receivedAt else None
     | Some t => Some t
     end)
    (sn_ExitCode s) now.

(** [received] is the first of the two clock readings, made for an event without a time. *)
Definition ApplyHookEvent (st : Store) (clientName inboundName : string) (event : HookEvent)
    (received now : Time) : option Session * Store :=
  match GetOwned st (he_SessionID event) clientName inboundName with
  | None => (None, st)
  | Some s =>
      if stopped s then (Some s, st)
      else
        let receivedAt := if IsZero (he_ReceivedAt event) then received else he_ReceivedAt event in
        let s := hooked event receivedAt now s in
        (Some s, setSessionLocked st (he_SessionID event) s)
  end.

Definition stop_session (now : Time) (exitCode : option Z) (s : Session) : Session :=
  mkSession (sn_identity s) StatusStopped (sn_LastEvent s) (sn_StartedAt s) now (sn_HeartbeatCapability s)
    (sn_LastHeartbeatAt s) (sn_LeaseExpiresAt s) (sn_RecoveryPending s) (sn_RecoveredAt s) (Some now)
    exitCode now.

Definition MarkStopped (st : Store) (clientName inboundName sessionID : string) (exitCode : Z) (now : Time)
    : option Session * Store :=
  match GetOwned st sessionID clientName inboundName with
  | None => (None, st)
  | Some s =>
      if stopped s then (Some s, st)
      else let s := stop_session now (Some exitCode) s in (Some s, setSessionLocked st sessionID s)
  end.

Definition beaten (now : Time) (s : Session) : Session :=
  mkSession (sn_identity s) (if sn_RecoveryPending s then StatusUnknown else sn_Status s) (sn_LastEvent s)
    (sn_StartedAt s) (sn_LastSeenAt s) (sn_HeartbeatCapability s) (Some now) (Some (Add now DefaultLeaseTTL))
    false (sn_RecoveredAt s) (sn_StoppedAt s) (sn_ExitCode s) (sn_statusObservedAt s).

(** [None] is the answer that no such session is there. *)
Definition Heartbeat (st : Store) (clientName inboundName sessionID : string) (now : Time)
    : option (result sessionError Session) * Store :=
  match GetOwned st sessionID clientName inboundName with
  | None => (None, st)
  | Some s =>
      if stopped s then (Some (Ok s), st)
      else if sn_HeartbeatCapability s != HeartbeatCapabilityV1
      then (Some (Err ErrHeartbeatCapabilityUnsupported), st)
      else let s := beaten now s in (Some (Ok s), setSessionLocked st sessionID s)
  end.

(** ** Queries *)

Definition statusPriority (status : Status) : Z :=
  if bool_decide (status = StatusWaitingPermission) then 0 else 1.

Definition matchesFilter (s : Session) (filter : ListFilter) : bool :=
  ((lf_Client filter == "") || (id_ClientName (sn_identity s) == lf_Client filter)) &&
  (bool_decide (lf_Status filter = StatusEmpty) || bool_decide (sn_Status s = lf_Status filter)) &&
  ((lf_Host filter == "") || Contains (id_Host (sn_identity s)) (lf_Host filter)) &&
  ((lf_CWD filter == "") || Contains (id_CWD (sn_identity s)) (lf_CWD filter)).

Definition list_less (a b : Session) : bool :=
  if negb (statusPriority (sn_Status a) =? statusPriority (sn_Status b))
  then statusPriority (sn_Status a) <? statusPriority (sn_Status b)
  else After (sn_LastSeenAt a) (sn_LastSeenAt b).
Definition List_ (st : Store) (f : ListFilter) : list Session :=
  sort_by list_less (filter (fun s => matchesFilter s f = true) (map snd (map_to_list (st_sessions st)))).

Definition latest_step (clientName inboundName : string) (latest : option Session) (s : Session) : option Session :=
  if negb (owned s clientName inboundName) || stopped s || sn_RecoveryPending s then latest
  else match latest with
       | None => Some s
       | Some l => if After (sn_LastSeenAt s) (sn_LastSeenAt l) then Some s else latest
       end.
Definition LatestActive (st : Store) (clientName inboundName : string) : option Session :=
  foldl (latest_step clientName inboundName) None (map snd (map_to_list (st_sessions st))).

(** ** The sweep *)

Inductive swept := SweepKeep | SweepPrune | SweepExpire (s : Session) | SweepDegrade (s : Session).

Definition sweep_session (stoppedRetention transientTTL : Duration) (now : Time) (s : Session) : swept :=
  if stopped s then
    if (0 <? stoppedRetention) && Before (sn_LastSeenAt s) (Add now (- stoppedRetention)) then SweepPrune
    else SweepKeep
  else if (sn_HeartbeatCapability s == HeartbeatCapabilityV1) &&
          match sn_LeaseExpiresAt s with Some lease => negb (Before now lease) | None => false end
  then SweepExpire (stop_session now None s)
  else if (0 <? transientTTL) &&
          (bool_decide (sn_Status s = StatusToolRunning) || bool_decide (sn_Status s = StatusCompacting)) &&
          negb (IsZero (sn_statusObservedAt s)) && negb (Before now (Add (sn_statusObservedAt s) transientTTL))
  then SweepDegrade (mkSession (sn_identity s) StatusUnknown (sn_LastEvent s) (sn_StartedAt s)
    (sn_LastSeenAt s) (sn_HeartbeatCapability s) (sn_LastHeartbeatAt s) (sn_LeaseExpiresAt s)
    (sn_RecoveryPending s) (sn_RecoveredAt s) (sn_StoppedAt s) (sn_ExitCode s) now)
  else SweepKeep.

Definition sweep_step (stoppedRetention transientTTL : Duration) (now : Time)
    (acc : Store * SweepResult) (entry : string * Session) : Store * SweepResult :=
  let '(st, r) := acc in
  match sweep_session stoppedRetention transientTTL now entry.2 with
  | SweepKeep => acc
  | SweepPrune =>
      (mkStore (delete entry.1 (st_sessions st)) (u64_next (st_generation st)),
       mkSweepResult (sw_LeaseExpired r) (sw_TransientDegraded r) (sw_StoppedPruned r + 1))
  | SweepExpire s =>
      (setSessionLocked st entry.1 s,
       mkSweepResult (sw_LeaseExpired r + 1) (sw_TransientDegraded r) (sw_StoppedPruned r))
  | SweepDegrade s =>
      (setSessionLocked st entry.1 s,
       mkSweepResult (sw_LeaseExpired r) (sw_TransientDegraded r + 1) (sw_StoppedPruned r))
  end.
Definition Sweep (st : Store) (stoppedRetention transientTTL : Duration) (now : Time) : SweepResult * Store :=
  let '(st, r) := foldl (sweep_step stoppedRetention transientTTL now) (st, mkSweepResult 0 0 0)
                    (map_to_list (st_sessions st)) in (r, st).
Definition PruneStopped (st : Store) (maxAge : Duration) (now : Time) : Z * Store :=
  let '(r, st) := Sweep st maxAge 0 now in (sw_StoppedPruned r, st).
(** A tick of the reaper *)
Definition reaper_tick (st : Store) (now : Time) : Store :=
  (Sweep st DefaultStoppedRetention DefaultTransientTTL now).2.

(** ** Snapshots *)

Record sessionSnapshot := mkSessionSnapshot { snap_Generation : Z; snap_Sessions : list Session }.

Definition exportSnapshot (st : Store) : sessionSnapshot :=
  mkSessionSnapshot (st_generation st) (map snd (map_to_list (st_sessions st))).

(** What a persisted session becomes, with whether it changed; [None] if it is dropped *)
Definition import_session (now : Time) (s : Session) : option Session * bool :=
  if stopped s then
    if Before (sn_LastSeenAt s) (Add now (- DefaultStoppedRetention)) then (None, true) else (Some s, false)
  else if sn_HeartbeatCapability s == HeartbeatCapabilityV1 then
    (Some (mkSession (sn_identity s) StatusUnknown (sn_LastEvent s) (sn_StartedAt s) (sn_LastSeenAt s)
       (sn_HeartbeatCapability s) None (Some (Add now DefaultLeaseTTL)) true (Some now) (sn_StoppedAt s)
       (sn_ExitCode s) now), true)
  else
    (Some (mkSession (sn_identity s) StatusStopped (sn_LastEvent s) (sn_StartedAt s) now
       (sn_HeartbeatCapability s) (sn_LastHeartbeatAt s) (sn_LeaseExpiresAt s) false None (Some now) None now),
     true).

Definition import_step (now : Time) (acc : gmap string Session * bool) (s : Session) : gmap string Session * bool :=
  let '(imported, normalized) := acc in
  let '(s', changed) := import_session now s in
  (match s' with Some s' => <[id_ID (sn_identity s') := s']> imported | None => imported end,
   normalized || changed).
Definition importSnapshot (persisted : list Session) (generation : Z) (now : Time) : Store :=
  let '(imported, normalized) := foldl (import_step now) (∅, false) persisted in
  mkStore imported (if normalized then u64_next generation else generation).

(** The snapshot store: the generation it has persisted and the snapshot on disk *)
Record SnapshotStore := mkSnapshotStore { sps_persisted : Z; sps_disk : option sessionSnapshot }.

(** How [writeSnapshotAtomic] ends: with an error before the complete file is renamed into
    place, with an error after it, or well. *)
Inductive write_result := WriteFailed | WriteUnsynced | WriteOk.

Definition Load (sp : SnapshotStore) (st : Store) (now : Time) : SnapshotStore * Store :=
  match sps_disk sp with
  | None => (sp, st)
  | Some snap =>
      (mkSnapshotStore (snap_Generation snap) (sps_disk sp),
       importSnapshot (snap_Sessions snap) (snap_Generation snap) now)
  end.
(** [save] up to the write: the snapshot to write, unless nothing has changed *)
Definition save_begin (sp : SnapshotStore) (st : Store) (force : bool) : option sessionSnapshot :=
  let snap := exportSnapshot st in
  if negb force && (snap_Generation snap =? sps_persisted sp) then None else Some snap.
(** [save] from the write on *)
Definition save_end (sp : SnapshotStore) (snap : sessionSnapshot) (written : write_result) : SnapshotStore :=
  match written with
  | WriteFailed => sp
  | WriteUnsynced => mkSnapshotStore (sps_persisted sp) (Some snap)
  | WriteOk => mkSnapshotStore (snap_Generation snap) (Some snap)
  end.
Definition save (sp : SnapshotStore) (st : Store) (force : bool) (written : write_result) : SnapshotStore :=
  match save_begin sp st force with None => sp | Some snap => save_end sp snap written end.

(** *** The file *)

(** The calls [writeSnapshotAtomic] makes.  [os.CreateTemp] puts a string of its choice for
    the [*] of the pattern; writing can fail after some bytes. *)
Inductive snapshotCall : Type -> Type :=
| CreateTemp (pattern_prefix pattern_suffix : string) : snapshotCall (option string)
| Chmod (name : string) : snapshotCall bool
| Encode (name content : string) : snapshotCall (option nat)
| Sync (name : string) : snapshotCall bool
| CloseFile (name : string) : snapshotCall bool
| Rename (from to : string) : snapshotCall bool
| Remove (name : string) : snapshotCall bool
| OpenDir : snapshotCall bool
| SyncDir : snapshotCall bool
| CloseDir : snapshotCall bool.

Inductive snapshotWriteError :=
| CreateTempFailed | SecureFailed | EncodeFailed | SyncFailed | CloseFailed | ReplaceFailed
| OpenDirFailed | SyncDirFailed.

Definition temp_prefix : string := ".latest.json-".
Definition temp_suffix : string := ".tmp".
Definition temp_name (unique : string) : string := temp_prefix +:+ unique +:+ temp_suffix.
Definition latest_json : string := "latest.json".

(** An early return after the file was made: the deferred removal of the file, whose own
    error is dropped *)
Definition discard (name : string) (e : snapshotWriteError) : prog snapshotCall (result snapshotWriteError unit) :=
  _ ← perform (Remove name); mret (Err e).
Definition close_discard (name : string) (e : snapshotWriteError) : prog snapshotCall (result snapshotWriteError unit) :=
  _ ← perform (CloseFile name); discard name e.

Definition writeSnapshotAtomic (content : string) : prog snapshotCall (result snapshotWriteError unit) :=
  created ← perform (CreateTemp temp_prefix temp_suffix);
  match created with
  | None => mret (Err CreateTempFailed)
  | Some unique =>
      let tmpName := temp_name unique in
      secured ← perform (Chmod tmpName);
      if negb secured then close_discard tmpName SecureFailed else
      short ← perform (Encode tmpName content);
      if match short with Some _ => true | None => false end then close_discard tmpName EncodeFailed else
      synced ← perform (Sync tmpName);
      if negb synced then close_discard tmpName SyncFailed else
      closed ← perform (CloseFile tmpName);
      if negb closed then discard tmpName CloseFailed else
      renamed ← perform (Rename tmpName latest_json);
      if negb renamed then discard tmpName ReplaceFailed else
      opened ← perform OpenDir;
      if negb opened then mret (Err OpenDirFailed) else
      dirSynced ← perform SyncDir;
      _ ← perform CloseDir;
      if negb dirSynced then mret (Err SyncDirFailed) else mret (Ok tt)
  end.

(** What [save] makes of the result: an error after the rename has replaced the file. *)
Definition written_as (r : result snapshotWriteError unit) : write_result :=
  match r with
  | Ok _ => WriteOk
  | Err OpenDirFailed | Err SyncDirFailed => WriteUnsynced
  | Err _ => WriteFailed
  end.

(** *** The goroutines *)

(** Where [run] is: in the select, in a save whose snapshot is exported, or returned *)
Inductive loopState := LoopSelect | LoopSaving (snap : sessionSnapshot) | LoopReturned.
(** Where the closing is: not begun; the ticker stopped; [done] closed and the goroutine of
    [Close] waiting for [run]; its save under way; [closed] closed, with [closeErr] *)
Inductive closeState := NotClosing | Stopping | WaitingLoop | LastSaving (snap : sessionSnapshot) | Closed (closeErr : bool).

(** The store of sessions and its snapshot store; [sv_tick] is a tick that waits in the
    channel of the ticker, which holds one *)
Record saver := mkSaver {
  sv_store : Store;
  sv_snap : SnapshotStore;
  sv_tick : bool;
  sv_loop : loopState;
  sv_close : closeState
}.
Definition newSaver (st : Store) (sp : SnapshotStore) : saver := mkSaver st sp false LoopSelect NotClosing.

(** ** Operations as data *)

Inductive op :=
| OpRegister (session : Session) (now : Time)
| OpHook (clientName inboundName : string) (event : HookEvent) (received now : Time)
| OpMarkStopped (clientName inboundName sessionID : string) (exitCode : Z) (now : Time)
| OpHeartbeat (clientName inboundName sessionID : string) (now : Time)
| OpSweep (stoppedRetention transientTTL : Duration) (now : Time).

Definition apply_op (st : Store) (o : op) : Store :=
  match o with
  | OpRegister s now => (Register st s now).2
  | OpHook c i e received now => (ApplyHookEvent st c i e received now).2
  | OpMarkStopped c i id code now => (MarkStopped st c i id code now).2
  | OpHeartbeat c i id now => (Heartbeat st c i id now).2
  | OpSweep ret ttl now => (Sweep st ret ttl now).2
  end.
Definition apply_ops (st : Store) (l : list op) : Store := foldl apply_op st l.

(** ** The snapshot store as a machine

    A step is one of: an operation of the store; a tick; [run] taking a tick and exporting
    the snapshot to save, the end of that save's write, [run] returning; [Close] stopping
    the ticker, closing [done], and its goroutine passing [wg.Wait] and exporting, and the
    end of the last write.  [None]: the step cannot be made.  The two saves never meet,
    so [saveMu] is always free when it is taken. *)
Inductive saverEvent :=
| EvOp (o : op)
| EvTick
| EvLoopSave
| EvLoopWritten (w : write_result)
| EvLoopReturn
| EvClose
| EvDone
| EvWaited
| EvLastWritten (w : write_result).

Definition set_loop (s : saver) (tick : bool) (l : loopState) : saver :=
  mkSaver (sv_store s) (sv_snap s) tick l (sv_close s).
Definition set_close (s : saver) (c : closeState) : saver :=
  mkSaver (sv_store s) (sv_snap s) (sv_tick s) (sv_loop s) c.
Definition set_snap (s : saver) (sp : SnapshotStore) : saver :=
  mkSaver (sv_store s) sp (sv_tick s) (sv_loop s) (sv_close s).

(** [done] is closed. *)
Definition done_closed (s : saver) : bool :=
  match sv_close s with NotClosing | Stopping => false | _ => true end.

(** Whether a write ended with an error *)
Definition write_err (w : write_result) : bool := match w with WriteOk => false | _ => true end.

(** [run] *)
Definition loop_step (s : saver) (e : saverEvent) : option saver :=
  match e, sv_loop s with
  | EvLoopSave, LoopSelect =>
      if sv_tick s then
        Some (set_loop s false match save_begin (sv_snap s) (sv_store s) false with
                               | Some snap => LoopSaving snap
                               | None => LoopSelect
                               end)
      else None
  | EvLoopWritten w, LoopSaving snap => Some (set_loop (set_snap s (save_end (sv_snap s) snap w)) (sv_tick s) LoopSelect)
  | EvLoopReturn, LoopSelect => if done_closed s then Some (set_loop s (sv_tick s) LoopReturned) else None
  | _, _ => None
  end.

(** The function [Close] runs once and the goroutine it starts *)
Definition close_step (s : saver) (e : saverEvent) : option saver :=
  match e, sv_close s with
  | EvClose, NotClosing => Some (set_close s Stopping)
  | EvDone, Stopping => Some (set_close s WaitingLoop)
  | EvWaited, WaitingLoop =>
      match sv_loop s with
      | LoopReturned =>
          Some (set_close s match save_begin (sv_snap s) (sv_store s) true with
                            | Some snap => LastSaving snap
                            | None => Closed false
                            end)
      | _ => None
      end
  | EvLastWritten w, LastSaving snap => Some (set_close (set_snap s (save_end (sv_snap s) snap w)) (Closed (write_err w)))
  | _, _ => None
  end.

Definition saver_step (s : saver) (e : saverEvent) : option saver :=
  match e with
  | EvOp o => Some (mkSaver (apply_op (sv_store s) o) (sv_snap s) (sv_tick s) (sv_loop s) (sv_close s))
  | EvTick => match sv_close s with NotClosing => Some (set_loop s true (sv_loop s)) | _ => None end
  | EvLoopSave | EvLoopWritten _ | EvLoopReturn => loop_step s e
  | EvClose | EvDone | EvWaited | EvLastWritten _ => close_step s e
  end.
Fixpoint saver_run (s : saver) (l : list saverEvent) : option saver :=
  match l with
  | [] => Some s
  | e :: l => s ← saver_step s e; saver_run s l
  end.

(** What a call of [Close] can return: [closeErr] once closed, the error of its context
    once that is over; with both, either.  No result: it waits. *)
Inductive closeResult := CloseNil | CloseSaveErr | CloseContextErr.
Definition close_returns (s : saver) (ctx_over : bool) : list closeResult :=
  match sv_close s with Closed err => [if err then CloseSaveErr else CloseNil] | _ => [] end ++
  (if ctx_over then [CloseContextErr] else []).
