(* ===== verification/SessionsFacts.v ===== *)
(** * Properties of agent sessions

    A stopped session is final, an owner's session is out of reach of others, a heartbeat
    keeps a session alive for the length of its lease, a snapshot that is skipped loses
    nothing, and a restart recovers the sessions it must. *)

From S2P Require Import Prelude GoStrings GoTime Program Sessions.

(** ** Lookups after each operation *)

Lemma set_sessions st id s : st_sessions (setSessionLocked st id s) = <[id := s]> (st_sessions st).
Proof.
  unfold setSessionLocked. case_bool_decide as H; [|done]. by rewrite insert_id.
Qed.

(** What a session becomes in a sweep *)
Definition swept_session (ret ttl : Duration) (now : Time) (s : Session) : option Session :=
  match sweep_session ret ttl now s with
  | SweepKeep => Some s
  | SweepPrune => None
  | SweepExpire s' | SweepDegrade s' => Some s'
  end.

Lemma sweep_step_sessions ret ttl now st r id s :
  st_sessions st !! id = Some s ->
  st_sessions (sweep_step ret ttl now (st, r) (id, s)).1 =
  match swept_session ret ttl now s with Some s' => <[id := s']> | None => delete id end (st_sessions st).
Proof.
  intros H. unfold sweep_step, swept_session. cbn [fst snd].
  destruct (sweep_session ret ttl now s); cbn [fst]; rewrite ?set_sessions; [by rewrite insert_id|done..].
Qed.

Lemma sweep_fold ret ttl now l acc :
  NoDup l.*1 -> (forall id s, (id, s) ∈ l -> st_sessions acc.1 !! id = Some s) ->
  forall id, st_sessions (foldl (sweep_step ret ttl now) acc l).1 !! id =
    (if decide (id ∈ l.*1) then st_sessions acc.1 !! id ≫= swept_session ret ttl now
     else st_sessions acc.1 !! id).
Proof.
  revert acc. induction l as [|[i s] l IH]; intros [st r] Hnd Hl id; cbn [foldl].
  { by rewrite decide_False by (cbn; apply not_elem_of_nil). }
  cbn [fmap list_fmap] in Hnd. apply NoDup_cons in Hnd as [Hi Hnd]. cbn [fst] in Hi.
  pose proof (Hl i s ltac:(by left)) as Hs. cbn [fst] in Hs.
  pose proof (sweep_step_sessions ret ttl now st r i s Hs) as E.
  destruct (sweep_step ret ttl now (st, r) (i, s)) as [st' r'] eqn:Estep. cbn [fst] in E.
  assert (forall j, j <> i -> st_sessions st' !! j = st_sessions st !! j) as Hother.
  { intros j Hj. rewrite E. destruct (swept_session _ _ _ _); [by rewrite lookup_insert_ne|by rewrite lookup_delete_ne]. }
  rewrite IH; [|done|].
  - cbn [fst fmap list_fmap]. destruct (decide (id = i)) as [->|Hne].
    + rewrite decide_False by done. rewrite decide_True by (by left). rewrite Hs, E. cbn.
      destruct (swept_session _ _ _ _); [by rewrite lookup_insert_eq|by rewrite lookup_delete_eq].
    + rewrite Hother by done. destruct (decide (id ∈ l.*1)) as [Hin|Hin].
      * by rewrite decide_True by (by right).
      * rewrite decide_False; [done|]. intros [?|?]%elem_of_cons; done.
  - intros j t Hj. cbn [fst]. rewrite Hother; [by apply Hl; right|].
    intros ->. apply Hi, list_elem_of_fmap. by exists (i, t).
Qed.

Lemma Sweep_lookup st ret ttl now id :
  st_sessions (Sweep st ret ttl now).2 !! id = st_sessions st !! id ≫= swept_session ret ttl now.
Proof.
  unfold Sweep. pose proof (sweep_fold ret ttl now (map_to_list (st_sessions st)) (st, mkSweepResult 0 0 0)
    (NoDup_fst_map_to_list _)) as H. cbn [fst] in H.
  destruct (foldl _ _ _) as [st' r]. cbn [fst snd] in *. rewrite H.
  - destruct (decide _) as [Hin|Hin]; [done|].
    destruct (st_sessions st !! id) as [s|] eqn:E; [|done]. exfalso. apply Hin, list_elem_of_fmap.
    exists (id, s). split; [done|]. by apply elem_of_map_to_list.
  - intros j s Hj. by apply elem_of_map_to_list.
Qed.

(** What an operation that is not a sweep writes, if it writes *)
Definition written (st : Store) (o : op) : option (string * Session) :=
  match o with
  | OpRegister s now =>
      let id := id_ID (sn_identity s) in
      match st_sessions st !! id with
      | Some e => if owned e (id_ClientName (sn_identity s)) (id_InboundName (sn_identity s)) && negb (stopped e)
                  then Some (id, registered (Some e) s now) else None
      | None => Some (id, registered None s now)
      end
  | OpHook c i e received now =>
      s ← GetOwned st (he_SessionID e) c i;
      if stopped s then None
      else Some (he_SessionID e, hooked e (if IsZero (he_ReceivedAt e) then received else he_ReceivedAt e) now s)
  | OpMarkStopped c i id code now =>
      s ← GetOwned st id c i;
      if stopped s then None else Some (id, stop_session now (Some code) s)
  | OpHeartbeat c i id now =>
      s ← GetOwned st id c i;
      if stopped s || (sn_HeartbeatCapability s != HeartbeatCapabilityV1) then None
      else Some (id, beaten now s)
  | OpSweep _ _ _ => None
  end.

Lemma apply_op_written st o :
  match o with OpSweep _ _ _ => True | _ =>
    apply_op st o = match written st o with Some (id, s) => setSessionLocked st id s | None => st end
  end.
Proof.
  destruct o as [s now|c i e rc now|c i id code now|c i id now|]; [..|done]; cbn [apply_op written].
  - unfold Register. destruct (st_sessions st !! _) as [e|]; [|done].
    destruct (owned e _ _), (stopped e); done.
  - unfold ApplyHookEvent. destruct (GetOwned _ _ _ _) as [s|]; cbn; [|done]. by destruct (stopped s).
  - unfold MarkStopped. destruct (GetOwned _ _ _ _) as [s|]; cbn; [|done]. by destruct (stopped s).
  - unfold Heartbeat. destruct (GetOwned _ _ _ _) as [s|]; cbn; [|done]. destruct (stopped s); [done|].
    cbn. by destruct (_ != _).
Qed.

Lemma GetOwned_Some st id c i s :
  GetOwned st id c i = Some s <-> st_sessions st !! id = Some s /\ owned s c i = true.
Proof.
  unfold GetOwned. destruct (st_sessions st !! id) as [t|]; cbn; [|by split; [|intros []]].
  destruct (owned t c i) eqn:E.
  - split; [by intros [= <-]|by intros [[= <-] _]].
  - split; [done|]. intros [[= <-] ?]. congruence.
Qed.

(** An operation never writes over a stopped session. *)
Lemma written_live st o id s e :
  written st o = Some (id, s) -> st_sessions st !! id = Some e -> stopped e = false.
Proof.
  destruct o as [t now|c i ev rc now|c i id' code now|c i id' now|]; cbn [written]; intros H He; [..|done].
  - destruct (st_sessions st !! id_ID _) as [e'|] eqn:E; [|simplify_eq].
    destruct (owned e' _ _ && _) eqn:B; simplify_eq. by apply andb_true_iff in B as [_ ?%negb_true_iff].
  - destruct (GetOwned _ _ _ _) as [t|] eqn:E; cbn in H; [|done]. apply GetOwned_Some in E as [E _].
    destruct (stopped t) eqn:B; by simplify_eq.
  - destruct (GetOwned _ _ _ _) as [t|] eqn:E; cbn in H; [|done]. apply GetOwned_Some in E as [E _].
    destruct (stopped t) eqn:B; by simplify_eq.
  - destruct (GetOwned _ _ _ _) as [t|] eqn:E; cbn in H; [|done]. apply GetOwned_Some in E as [E _].
    destruct (stopped t) eqn:B; cbn in H; [done|]. destruct (_ != _); [done|]. by simplify_eq.
Qed.

Lemma apply_op_lookup st o id :
  st_sessions (apply_op st o) !! id =
  match o with
  | OpSweep ret ttl now => st_sessions st !! id ≫= swept_session ret ttl now
  | _ => match written st o with
         | Some (id', s) => if decide (id' = id) then Some s else st_sessions st !! id
         | None => st_sessions st !! id
         end
  end.
Proof.
  pose proof (apply_op_written st o) as E. destruct o; [..|apply Sweep_lookup].
  all: rewrite E; destruct (written st _) as [[id' s]|]; [|done]; rewrite set_sessions;
    destruct (decide (id' = id)) as [->|]; [by rewrite lookup_insert_eq|by rewrite lookup_insert_ne].
Qed.

(** Writing never changes the owner of a session. *)
Definition owner (s : Session) : string * string := (id_ClientName (sn_identity s), id_InboundName (sn_identity s)).
Lemma owned_owner s c i : owned s c i = true <-> owner s = (c, i).
Proof.
  unfold owned, owner. rewrite andb_true_iff, !String.eqb_eq. split; [by intros [-> ->]|by intros [= -> ->]].
Qed.

Lemma registered_identity e s now : sn_identity (registered e s now) = sn_identity s.
Proof. by destruct e. Qed.

Lemma written_owner st o id s e :
  written st o = Some (id, s) -> st_sessions st !! id = Some e -> owner s = owner e.
Proof.
  destruct o as [t now|c i ev rc now|c i id' code now|c i id' now|]; cbn [written]; intros H He; [..|done].
  - destruct (st_sessions st !! id_ID _) as [e'|] eqn:E; [|simplify_eq].
    destruct (owned e' _ _ && _) eqn:B; [|done]. injection H as <- <-. apply andb_true_iff in B as [B%owned_owner _].
    simplify_eq. rewrite B. unfold owner. by rewrite registered_identity.
  - destruct (GetOwned _ _ _ _) as [t|] eqn:E; cbn in H; [|done]. apply GetOwned_Some in E as [E _].
    destruct (stopped t) eqn:B; by simplify_eq.
  - destruct (GetOwned _ _ _ _) as [t|] eqn:E; cbn in H; [|done]. apply GetOwned_Some in E as [E _].
    destruct (stopped t) eqn:B; by simplify_eq.
  - destruct (GetOwned _ _ _ _) as [t|] eqn:E; cbn in H; [|done]. apply GetOwned_Some in E as [E _].
    destruct (stopped t) eqn:B; cbn in H; [done|]. destruct (_ != _); [done|]. by simplify_eq.
Qed.

(** The outcome of a sweep for a stopped session and for a live one *)
Lemma swept_stopped ret ttl now s :
  stopped s = true ->
  swept_session ret ttl now s =
  (if (0 <? ret) && Before (sn_LastSeenAt s) (Add now (- ret)) then None else Some s).
Proof. intros H. unfold swept_session, sweep_session. rewrite H. by destruct (_ && _). Qed.

Lemma swept_owner ret ttl now s s' : swept_session ret ttl now s = Some s' -> owner s' = owner s.
Proof. unfold swept_session, sweep_session. intros H. repeat case_match; by simplify_eq. Qed.

(** ** Properties *)

(** A sweep that may not prune [s] *)
Definition keeps (s : Session) (o : op) : Prop :=
  match o with OpSweep ret _ now => ret <= 0 \/ Add now (- ret) <= sn_LastSeenAt s | _ => True end.

(** A stopped session is final.  Once a session is stopped no sequence of
    registrations, hook events, stops, heartbeats and sweeps changes anything of it: it
    stays as it is until a sweep finds it last seen longer ago than the retention, and
    the sweep then drops it. *)
Theorem stopped_final st id s ops :
  st_sessions st !! id = Some s -> stopped s = true ->
  (Forall (keeps s) ops -> st_sessions (apply_ops st ops) !! id = Some s) /\
  (forall ret ttl now, 0 < ret -> sn_LastSeenAt s < Add now (- ret) ->
     st_sessions (apply_op st (OpSweep ret ttl now)) !! id = None).
Proof.
  intros Hs Hstop. split.
  - intros Hops. revert st Hs. induction Hops as [|o ops Ho Hops IH]; intros st Hs; [done|].
    cbn [apply_ops foldl]. apply IH. rewrite apply_op_lookup.
    assert (match written st o with
      | Some (id', s') => if decide (id' = id) then Some s' else st_sessions st !! id
      | None => st_sessions st !! id end = Some s) as Hw.
    { destruct (written st o) as [[id' s']|] eqn:E; [|done]. destruct (decide (id' = id)) as [->|]; [|done].
      pose proof (written_live _ _ _ _ _ E Hs). congruence. }
    destruct o as [| | | |ret ttl now]; try exact Hw. rewrite Hs. cbn. rewrite swept_stopped by done.
    cbn [keeps] in Ho. unfold Before. destruct (Z.ltb_spec 0 ret), (Z.ltb_spec (sn_LastSeenAt s) (Add now (- ret)));
      cbn [andb]; [lia|done..].
  - intros ret ttl now Hret Hold. rewrite apply_op_lookup, Hs. cbn. rewrite swept_stopped by done.
    unfold Before. by rewrite (proj2 (Z.ltb_lt 0 ret)), (proj2 (Z.ltb_lt _ _)) by done.
Qed.

(** Sessions belong to their owner.  A client and inbound that do not own a session
    read nothing of it, cannot stop it, keep it alive or feed it events, and cannot register
    over it; and no operation of anyone changes the owner of a session that is there. *)
Theorem session_owner st id s c i :
  st_sessions st !! id = Some s -> owner s <> (c, i) ->
  GetOwned st id c i = None /\
  (forall code now, MarkStopped st c i id code now = (None, st)) /\
  (forall now, Heartbeat st c i id now = (None, st)) /\
  (forall event received now, he_SessionID event = id -> ApplyHookEvent st c i event received now = (None, st)) /\
  (forall s' now, id_ID (sn_identity s') = id -> owner s' = (c, i) ->
     Register st s' now = (Err ErrSessionOwnerMismatch, st)) /\
  (forall o s', st_sessions (apply_op st o) !! id = Some s' -> owner s' = owner s).
Proof.
  intros Hs Hne.
  assert (owned s c i = false) as Ho by (apply not_true_is_false; by rewrite owned_owner).
  assert (GetOwned st id c i = None) as Hg by (unfold GetOwned; rewrite Hs; cbn; by rewrite Ho).
  split_and!; [done|..].
  - intros code now. unfold MarkStopped. by rewrite Hg.
  - intros now. unfold Heartbeat. by rewrite Hg.
  - intros event received now <-. unfold ApplyHookEvent. by rewrite Hg.
  - intros s' now <- [= Hc Hi]. unfold Register. rewrite Hs, Hc, Hi, Ho. done.
  - intros o s'. rewrite apply_op_lookup, Hs. intros H.
    assert (match written st o with
      | Some (id', s'') => if decide (id' = id) then Some s'' else Some s
      | None => Some s end = Some s' -> owner s' = owner s) as Hw.
    { destruct (written st o) as [[id' s'']|] eqn:E; [|by intros [= <-]].
      destruct (decide (id' = id)) as [->|]; [|by intros [= <-]]. intros [= <-]. by eapply written_owner. }
    destruct o; try by apply Hw. cbn in H. by eapply swept_owner.
Qed.

(** ** Leases *)

Definition op_clock (o : op) : Time :=
  match o with
  | OpRegister _ now | OpHook _ _ _ _ now | OpMarkStopped _ _ _ _ now | OpHeartbeat _ _ _ now | OpSweep _ _ now => now
  end.
(** An operation after [t] that does not end session [id]: a sweep before the lease of a
    heartbeat at [t], no stop, no end of the session, no other capability *)
Definition gentle (id : string) (t : Time) (o : op) : Prop :=
  t <= op_clock o /\
  match o with
  | OpSweep _ _ now => now < t + DefaultLeaseTTL
  | OpMarkStopped _ _ id' _ _ => id' <> id
  | OpHook _ _ e _ _ => he_SessionID e = id -> he_EventName e <> "SessionEnd"
  | OpRegister s _ => id_ID (sn_identity s) = id ->
      sn_HeartbeatCapability s = "" \/ sn_HeartbeatCapability s = HeartbeatCapabilityV1
  | OpHeartbeat _ _ _ _ => True
  end.

(** A live session with a lease at least until [t + 45s] *)
Definition alive (t : Time) (s : Session) : Prop :=
  stopped s = false /\ sn_HeartbeatCapability s = HeartbeatCapabilityV1 /\
  exists lease, sn_LeaseExpiresAt s = Some lease /\ t + DefaultLeaseTTL <= lease.

Lemma hook_not_stopped e st :
  he_EventName e <> "SessionEnd" -> st <> StatusStopped -> StatusForHookEvent e st <> StatusStopped.
Proof.
  intros He Hst. unfold StatusForHookEvent, statusForNotification, currentOrUnknown.
  rewrite bool_decide_false by done. apply String.eqb_neq in He. rewrite He.
  repeat case_match; try done; by subst.
Qed.

Lemma stopped_false s : stopped s = false <-> sn_Status s <> StatusStopped.
Proof. unfold stopped. by rewrite bool_decide_eq_false. Qed.

Lemma written_alive st o id t s e :
  gentle id t o -> written st o = Some (id, s) -> st_sessions st !! id = Some e -> alive t e -> alive t s.
Proof.
  intros [Ht Hg] H He (Hst & Hcap & lease & Hl & Hle).
  destruct o as [r now|c i ev rc now|c i id' code now|c i id' now|]; cbn [written op_clock] in *; [..|done].
  - destruct (st_sessions st !! id_ID _) as [e'|] eqn:E; [|simplify_eq].
    destruct (owned e' _ _ && _) eqn:B; [|done]. injection H as <- <-. simplify_eq.
    specialize (Hg eq_refl). unfold alive, registered. rewrite Hcap.
    assert ((if (HeartbeatCapabilityV1 != "") && (sn_HeartbeatCapability r == "") then HeartbeatCapabilityV1
             else sn_HeartbeatCapability r) = HeartbeatCapabilityV1) as -> by (destruct Hg as [-> | ->]; done).
    cbn [sn_HeartbeatCapability sn_LeaseExpiresAt]. rewrite String.eqb_refl. split_and!; [|done|].
    + apply stopped_false. cbn. apply stopped_false in Hst. by destruct (sn_Status e').
    + exists (Add now DefaultLeaseTTL). split; [done|]. unfold Add. lia.
  - destruct (GetOwned _ _ _ _) as [u|] eqn:E; cbn in H; [|done]. apply GetOwned_Some in E as [E _].
    destruct (stopped u) eqn:B; [done|]. injection H as H1 <-. subst id. simplify_eq.
    split_and!; [|done|by exists lease]. apply stopped_false. cbn. apply stopped_false in Hst.
    by apply hook_not_stopped; [apply Hg|].
  - destruct (GetOwned _ _ _ _) as [u|] eqn:E; cbn in H; [|done].
    destruct (stopped u); simplify_eq.
  - destruct (GetOwned _ _ _ _) as [u|] eqn:E; cbn in H; [|done]. apply GetOwned_Some in E as [E _].
    destruct (stopped u) eqn:B; cbn in H; [done|]. destruct (_ != _); [done|]. simplify_eq.
    split_and!; [|done|exists (Add now DefaultLeaseTTL); split; [done|unfold Add; lia]].
    apply stopped_false. cbn. apply stopped_false in Hst. by destruct (sn_RecoveryPending _).
Qed.

Lemma swept_alive ret ttl now t s :
  now < t + DefaultLeaseTTL -> alive t s -> exists s', swept_session ret ttl now s = Some s' /\ alive t s'.
Proof.
  intros Hnow (Hst & Hcap & lease & Hl & Hle). unfold swept_session, sweep_session, Before.
  rewrite Hst, Hcap, Hl, (proj2 (Z.ltb_lt now lease)) by lia. rewrite andb_false_r.
  destruct (_ && _); (eexists; split; [done|]); (split_and!; [done|done|by exists lease]).
Qed.

Lemma gentle_alive st o id t e :
  gentle id t o -> st_sessions st !! id = Some e -> alive t e ->
  exists s, st_sessions (apply_op st o) !! id = Some s /\ alive t s.
Proof.
  intros Hg He Ha. rewrite apply_op_lookup.
  assert (exists s, match written st o with
    | Some (id', s) => if decide (id' = id) then Some s else st_sessions st !! id
    | None => st_sessions st !! id end = Some s /\ alive t s) as Hw.
  { destruct (written st o) as [[id' s]|] eqn:E; [|by exists e].
    destruct (decide (id' = id)) as [->|]; [|by exists e].
    exists s. split; [done|]. by eapply written_alive. }
  destruct o as [| | | |ret ttl now]; try exact Hw. rewrite He. cbn.
  destruct Hg as [_ Hg]. by apply swept_alive.
Qed.

(** Leases.  A heartbeat the store accepts at [t] keeps its session alive: whatever
    operations follow, as long as none of them ends the session and every sweep comes
    before [t] plus the length of a lease, the session is there, is not stopped and its
    lease still runs to that time.  And a sweep that finds the lease of a live session over
    stops the session at that moment, without an exit code. *)
Theorem heartbeat_keeps_alive st c i id t s st' :
  Heartbeat st c i id t = (Some (Ok s), st') -> stopped s = false ->
  (forall ops, Forall (gentle id t) ops ->
     exists s', st_sessions (apply_ops st' ops) !! id = Some s' /\ alive t s') /\
  (forall ret ttl now, t + DefaultLeaseTTL <= now -> exists s',
     st_sessions (apply_op st' (OpSweep ret ttl now)) !! id = Some s' /\ sn_Status s' = StatusStopped /\
     sn_StoppedAt s' = Some now /\ sn_ExitCode s' = None).
Proof.
  intros H Hst.
  assert (st_sessions st' !! id = Some s /\ alive t s /\ sn_LeaseExpiresAt s = Some (t + DefaultLeaseTTL))
    as (Hs & Ha & Hl).
  { unfold Heartbeat in H. destruct (GetOwned _ _ _ _) as [e|] eqn:E; [|done]. apply GetOwned_Some in E as [E _].
    destruct (stopped e) eqn:B; [injection H as ? ?; congruence|].
    destruct (String.eqb_spec (sn_HeartbeatCapability e) HeartbeatCapabilityV1) as [Hc|Hc]; [|done].
    cbn [negb] in H. injection H as <- <-. rewrite set_sessions, lookup_insert_eq. split_and!; [done| |done].
    split_and!; [done|done|]. eexists. split; [done|]. unfold Add. lia. }
  split.
  - intros ops Hops. clear H Hst Hl. revert st' s Hs Ha. induction Hops as [|o ops Ho Hops IH]; intros st1 s Hs Ha.
    { by exists s. }
    destruct (gentle_alive _ _ _ _ _ Ho Hs Ha) as (s1 & Hs1 & Ha1). by eapply IH.
  - intros ret ttl now Hnow. rewrite apply_op_lookup, Hs. cbn. destruct Ha as (_ & Hcap & _).
    unfold swept_session, sweep_session, Before. rewrite Hst, Hcap, Hl, String.eqb_refl.
    rewrite (proj2 (Z.ltb_ge now _)) by lia. cbn. by eexists.
Qed.

(** ** Generations *)

#[export] Instance swept_eq_dec : EqDecision swept.
Proof. solve_decision. Defined.
(** The changes of an operation: the sessions it writes anew and the ones it drops *)
Definition changes (st : Store) (o : op) : nat :=
  match o with
  | OpSweep ret ttl now =>
      length (filter (fun e : string * Session => sweep_session ret ttl now e.2 <> SweepKeep)
                (map_to_list (st_sessions st)))
  | _ => if decide (st_sessions (apply_op st o) = st_sessions st) then 0 else 1
  end.

Definition in_u64 (g : Z) : Prop := 0 <= g < 2 ^ 64.
Lemma u64_next_range g : in_u64 (u64_next g).
Proof. unfold in_u64, u64_next. pose proof (Z.mod_pos_bound (g + 1) (2 ^ 64)). lia. Qed.
Lemma u64_next_add g k : u64_next ((g + k) mod 2 ^ 64) = (g + (k + 1)) mod 2 ^ 64.
Proof. unfold u64_next. rewrite Z.add_mod_idemp_l by lia. f_equal. lia. Qed.

Lemma set_generation st id s e :
  st_sessions st !! id = e -> e <> Some s -> st_generation (setSessionLocked st id s) = u64_next (st_generation st).
Proof. intros He Hne. unfold setSessionLocked. rewrite bool_decide_false by congruence. done. Qed.

Lemma sweep_changed ret ttl now s s' :
  sweep_session ret ttl now s = SweepExpire s' \/ sweep_session ret ttl now s = SweepDegrade s' -> s' <> s.
Proof.
  unfold sweep_session. destruct (stopped s) eqn:Hst.
  { destruct (_ && _); intros [?|?]; done. }
  apply stopped_false in Hst. destruct (_ && _); [intros [[= <-]|?]; [|done]; intros E; by rewrite <-E in Hst|].
  destruct (_ && _) eqn:B; [|intros [?|?]; done]. intros [?|[= <-]]; [done|]. intros E.
  apply andb_true_iff in B as [[[_ B]%andb_true_iff _]%andb_true_iff _].
  apply orb_true_iff in B as [B|B]; apply bool_decide_eq_true in B; rewrite <-E in B; done.
Qed.

Lemma sweep_generation ret ttl now l acc :
  NoDup l.*1 -> (forall id s, (id, s) ∈ l -> st_sessions acc.1 !! id = Some s) -> in_u64 (st_generation acc.1) ->
  st_generation (foldl (sweep_step ret ttl now) acc l).1 =
  (st_generation acc.1 +
   Z.of_nat (length (filter (fun e : string * Session => sweep_session ret ttl now e.2 <> SweepKeep) l))) mod 2 ^ 64.
Proof.
  revert acc. induction l as [|[i s] l IH]; intros [st r] Hnd Hl Hg; cbn [foldl].
  { cbn. rewrite Z.add_0_r, Z.mod_small; done. }
  cbn [fmap list_fmap] in Hnd. apply NoDup_cons in Hnd as [Hi Hnd]. cbn [fst] in Hi, Hg.
  pose proof (Hl i s ltac:(by left)) as Hs. cbn [fst] in Hs.
  pose proof (sweep_step_sessions ret ttl now st r i s Hs) as E.
  assert (st_generation (sweep_step ret ttl now (st, r) (i, s)).1 =
    (if decide (sweep_session ret ttl now s <> SweepKeep) then u64_next (st_generation st) else st_generation st)) as Eg.
  { unfold sweep_step. cbn [fst snd]. destruct (sweep_session ret ttl now s) as [| |s'|s'] eqn:Esw; cbn [fst].
    - by rewrite decide_False by auto.
    - by rewrite decide_True by done.
    - rewrite decide_True by done. eapply set_generation; [exact Hs|]. intros [= ?].
      eapply (sweep_changed ret ttl now s s'); [by left|done].
    - rewrite decide_True by done. eapply set_generation; [exact Hs|]. intros [= ?].
      eapply (sweep_changed ret ttl now s s'); [by right|done]. }
  destruct (sweep_step ret ttl now (st, r) (i, s)) as [st' r'] eqn:Estep. cbn [fst] in E, Eg.
  rewrite IH; [|done| |]; cbn [fst].
  - rewrite Eg, filter_cons. cbn [snd]. destruct (decide _); [|done]. cbn [length]. unfold u64_next.
    rewrite Z.add_mod_idemp_l by lia. f_equal. lia.
  - intros j t Hj. rewrite E. assert (j <> i) as Hji.
    { intros ->. apply Hi, list_elem_of_fmap. by exists (i, t). }
    destruct (swept_session _ _ _ _); [rewrite lookup_insert_ne by done|rewrite lookup_delete_ne by done];
      by apply Hl; right.
  - rewrite Eg. destruct (decide _); [apply u64_next_range|done].
Qed.

Lemma op_generation st o :
  in_u64 (st_generation st) ->
  st_generation (apply_op st o) = (st_generation st + Z.of_nat (changes st o)) mod 2 ^ 64 /\
  (changes st o = 0%nat -> st_sessions (apply_op st o) = st_sessions st).
Proof.
  intros Hg. pose proof (apply_op_written st o) as Hw.
  assert (match o with OpSweep _ _ _ => False | _ => True end ->
    apply_op st o = match written st o with Some (id, s) => setSessionLocked st id s | None => st end ->
    st_generation (apply_op st o) = (st_generation st +
      Z.of_nat (if decide (st_sessions (apply_op st o) = st_sessions st) then 0%nat else 1%nat)) mod 2 ^ 64) as Hn.
  { intros _ ->. assert (st_generation st = (st_generation st + Z.of_nat 0) mod 2 ^ 64) as H0
      by (by rewrite Z.add_0_r, Z.mod_small).
    destruct (written st o) as [[id s]|]; [|by rewrite decide_True].
    rewrite set_sessions. destruct (decide _) as [E|E].
    - unfold setSessionLocked. rewrite bool_decide_true; [done|]. rewrite <-E. apply lookup_insert_eq.
    - erewrite set_generation; [done..|]. intros E'. apply E. by rewrite insert_id. }
  destruct o as [s now|c i e rc now|c i id code now|c i id now|ret ttl now]; cbn [changes];
    try (split; [by apply Hn|by destruct (decide _)]).
  split.
  - cbn [apply_op]. unfold Sweep. rewrite <-(sweep_generation ret ttl now _ (st, mkSweepResult 0 0 0)).
    + by destruct (foldl _ _ _).
    + apply NoDup_fst_map_to_list.
    + intros id s. by rewrite elem_of_map_to_list.
    + done.
  - intros H0%nil_length_inv. apply map_eq. intros id. rewrite apply_op_lookup.
    destruct (st_sessions st !! id) as [s|] eqn:E; [|done]. cbn. unfold swept_session.
    destruct (decide (sweep_session ret ttl now s = SweepKeep)) as [->|Hne]; [done|].
    assert ((id, s) ∈ filter (fun e : string * Session => sweep_session ret ttl now e.2 <> SweepKeep)
      (map_to_list (st_sessions st))) as Hin.
    { apply list_elem_of_filter. split; [done|]. by apply elem_of_map_to_list. }
    rewrite H0 in Hin. by apply not_elem_of_nil in Hin.
Qed.

(** ** Snapshots *)

Definition key_of (s : Session) : string := id_ID (sn_identity s).
(** Sessions are stored under their own identifiers. *)
Definition keyed (st : Store) : Prop := forall id s, st_sessions st !! id = Some s -> key_of s = id.

Lemma written_key st o id s : keyed st -> written st o = Some (id, s) -> key_of s = id.
Proof.
  intros Hk. destruct o as [t now|c i ev rc now|c i id' code now|c i id' now|]; cbn [written]; intros H; [..|done].
  - destruct (st_sessions st !! id_ID _) as [e'|]; [destruct (_ && _); [|done]|];
      injection H as <- <-; unfold key_of; by rewrite registered_identity.
  - destruct (GetOwned _ _ _ _) as [t|] eqn:E; cbn in H; [|done]. apply GetOwned_Some in E as [E%Hk _].
    destruct (stopped t); by simplify_eq.
  - destruct (GetOwned _ _ _ _) as [t|] eqn:E; cbn in H; [|done]. apply GetOwned_Some in E as [E%Hk _].
    destruct (stopped t); by simplify_eq.
  - destruct (GetOwned _ _ _ _) as [t|] eqn:E; cbn in H; [|done]. apply GetOwned_Some in E as [E%Hk _].
    destruct (stopped t); cbn in H; [done|]. destruct (_ != _); [done|]. by simplify_eq.
Qed.
Lemma swept_key ret ttl now s s' : swept_session ret ttl now s = Some s' -> key_of s' = key_of s.
Proof. unfold swept_session, sweep_session. intros H. repeat case_match; by simplify_eq. Qed.

Lemma apply_op_keyed st o : keyed st -> keyed (apply_op st o).
Proof.
  intros Hk id s. rewrite apply_op_lookup.
  assert (match written st o with
    | Some (id', s') => if decide (id' = id) then Some s' else st_sessions st !! id
    | None => st_sessions st !! id end = Some s -> key_of s = id) as Hw.
  { destruct (written st o) as [[id' s']|] eqn:E; [|apply Hk].
    destruct (decide (id' = id)) as [->|]; [|apply Hk]. intros [= <-]. by eapply written_key. }
  destruct o; try exact Hw. destruct (st_sessions st !! id) as [t|] eqn:E; cbn; [|done].
  intros H%swept_key. rewrite H. by apply Hk.
Qed.

Lemma export_keys st : keyed st -> NoDup (map key_of (snap_Sessions (exportSnapshot st))).
Proof.
  intros Hk. cbn. rewrite map_map.
  rewrite (map_ext_in _ fst); [apply NoDup_fst_map_to_list|].
  intros [id s] Hin. apply list_elem_of_In, elem_of_map_to_list in Hin. by apply Hk.
Qed.

Lemma import_session_key now s s' : (import_session now s).1 = Some s' -> key_of s' = key_of s.
Proof. unfold import_session. intros H. repeat case_match; by simplify_eq/=. Qed.
Lemma import_session_same now s : (import_session now s).2 = false -> (import_session now s).1 = Some s.
Proof. unfold import_session. by repeat case_match. Qed.

Lemma import_fold now l m b :
  NoDup (map key_of l) -> (forall s, s ∈ l -> m !! key_of s = None) ->
  let '(m', b') := foldl (import_step now) (m, b) l in
  (forall id, m' !! id =
     match find (fun s => key_of s == id) l with Some s => (import_session now s).1 | None => m !! id end) /\
  b' = b || existsb (fun s => (import_session now s).2) l.
Proof.
  revert m b. induction l as [|s l IH]; intros m b Hnd Hm; cbn [foldl].
  { split; [done|]. by rewrite orb_false_r. }
  cbn [map] in Hnd. apply NoDup_cons in Hnd as [Hs Hnd].
  unfold import_step at 2. destruct (import_session now s) as [o c] eqn:Ei.
  set (m1 := match o with Some s' => <[id_ID (sn_identity s') := s']> m | None => m end).
  assert (forall id, m1 !! id = if decide (id = key_of s) then o else m !! id) as Hm1.
  { intros id. unfold m1. destruct o as [s'|].
    - pose proof (import_session_key now s s') as Hk. rewrite Ei in Hk. specialize (Hk eq_refl).
      unfold key_of in Hk at 1. rewrite Hk. destruct (decide _) as [->|]; [by rewrite lookup_insert_eq|].
      by rewrite lookup_insert_ne.
    - destruct (decide _) as [->|]; [|done]. apply Hm. by left. }
  specialize (IH m1 (b || c) Hnd). destruct (foldl (import_step now) (m1, b || c) l) as [m' b'].
  destruct IH as [IH1 IH2].
  { intros t Ht. rewrite Hm1. rewrite decide_False; [apply Hm; by right|]. intros E.
    apply Hs. rewrite <-E. by apply list_elem_of_fmap_2. }
  split; [|cbn [existsb]; rewrite Ei; cbn [snd]; by rewrite IH2, orb_assoc].
  intros id. rewrite IH1. cbn [find]. destruct (String.eqb_spec (key_of s) id) as [<-|Hne].
  - replace (find _ l) with (@None Session).
    + by rewrite Hm1, decide_True, Ei.
    + symmetry. destruct (find _ l) as [t|] eqn:Ef; [|done]. exfalso.
      apply find_some in Ef as [Hin%list_elem_of_In Hk%String.eqb_eq].
      apply Hs. rewrite <-Hk. by apply list_elem_of_fmap_2.
  - rewrite Hm1, decide_False by auto. done.
Qed.

Lemma importSnapshot_lookup l g now :
  NoDup (map key_of l) ->
  (forall id, st_sessions (importSnapshot l g now) !! id =
     s ← find (fun s => key_of s == id) l; (import_session now s).1) /\
  st_generation (importSnapshot l g now) =
    (if existsb (fun s => (import_session now s).2) l then u64_next g else g).
Proof.
  intros Hnd. unfold importSnapshot. pose proof (import_fold now l ∅ false Hnd) as H.
  destruct (foldl _ _ _) as [m b]. destruct H as [H1 ->]; [intros; apply lookup_empty|].
  split; [|done]. intros id. cbn. rewrite H1. destruct (find _ l); [done|]. apply lookup_empty.
Qed.

Lemma find_exported st id :
  keyed st -> find (fun s => key_of s == id) (snap_Sessions (exportSnapshot st)) = st_sessions st !! id.
Proof.
  intros Hk. destruct (find _ _) as [s|] eqn:Ef.
  - apply find_some in Ef as [Hin%list_elem_of_In E%String.eqb_eq]. cbn in Hin.
    apply list_elem_of_fmap in Hin as ([id' s'] & -> & Hin%elem_of_map_to_list). cbn in E.
    pose proof (Hk _ _ Hin) as E'. cbn in E'. by rewrite <-E, E'.
  - destruct (st_sessions st !! id) as [s|] eqn:E; [|done]. exfalso.
    eapply find_none in Ef; [|apply list_elem_of_In, list_elem_of_fmap; exists (id, s); split; [done|];
      by apply elem_of_map_to_list].
    cbn in Ef. by rewrite (Hk _ _ E), String.eqb_refl in Ef.
Qed.

Lemma apply_ops_keyed ops st : keyed st -> keyed (apply_ops st ops).
Proof. revert st. induction ops as [|o ops IH]; intros st Hk; [done|]. by apply IH, apply_op_keyed. Qed.
Lemma NewStore_keyed : keyed NewStore.
Proof. intros id s. cbn. by rewrite lookup_empty. Qed.

Lemma latest_none c i l :
  Forall (fun s => stopped s = true \/ sn_RecoveryPending s = true) l -> foldl (latest_step c i) None l = None.
Proof.
  induction 1 as [|s l Hs Hl IH]; [done|]. cbn [foldl]. unfold latest_step at 2.
  destruct Hs as [-> | ->]; by rewrite ?orb_true_r.
Qed.

(** What one session becomes when the gateway restarts at [now] *)
Definition recovered (now : Time) (s : Session) (s' : option Session) : Prop :=
  if stopped s then
    s' = (if sn_LastSeenAt s <? now - DefaultStoppedRetention then None else Some s)
  else exists t, s' = Some t /\ sn_identity t = sn_identity s /\
    if sn_HeartbeatCapability s == HeartbeatCapabilityV1 then
      sn_Status t = StatusUnknown /\ sn_RecoveryPending t = true /\
      sn_LeaseExpiresAt t = Some (now + DefaultLeaseTTL)
    else sn_Status t = StatusStopped /\ sn_StoppedAt t = Some now /\ sn_RecoveryPending t = false.

Lemma import_recovers now s : recovered now s (import_session now s).1.
Proof.
  unfold recovered, import_session, Before, Add. destruct (stopped s).
  - change (now + - ?r) with (now - r). by destruct (_ <? _).
  - destruct (_ == _); cbn; by eexists.
Qed.
(** A session in a process that loads the snapshot of a store *)
Lemma loaded_lookup st now id :
  keyed st ->
  let snap := exportSnapshot st in
  st_sessions (importSnapshot (snap_Sessions snap) (snap_Generation snap) now) !! id =
  st_sessions st !! id ≫= fun s => (import_session now s).1.
Proof.
  intros Hk. cbv zeta. destruct (importSnapshot_lookup (snap_Sessions (exportSnapshot st))
    (snap_Generation (exportSnapshot st)) now (export_keys st Hk)) as [Hl _].
  rewrite Hl, find_exported by done. done.
Qed.

(** Recovery after a restart.  When the snapshot of a store is loaded by a new
    process at [now], a stopped session is there unchanged unless it is past its
    retention; a live session that sends heartbeats is there, of unknown status, waiting
    for recovery until a lease from [now] is over; a live session without heartbeats is
    stopped; nothing else is there; and no session counts as active before its next
    heartbeat. *)
Theorem restart_recovers ops now id :
  let st := apply_ops NewStore ops in
  let snap := exportSnapshot st in
  let st' := importSnapshot (snap_Sessions snap) (snap_Generation snap) now in
  match st_sessions st !! id with
  | Some s => recovered now s (st_sessions st' !! id)
  | None => st_sessions st' !! id = None
  end /\
  (forall c i, LatestActive st' c i = None).
Proof.
  cbv zeta. set (st := apply_ops NewStore ops).
  assert (keyed st) as Hk by apply apply_ops_keyed, NewStore_keyed.
  pose proof (fun id => loaded_lookup st now id Hk) as Hl. cbv zeta in Hl. split.
  - rewrite Hl. destruct (st_sessions st !! id) as [s|]; [apply import_recovers|done].
  - intros c i. unfold LatestActive. apply latest_none, Forall_forall. intros s Hin.
    apply list_elem_of_fmap in Hin as ([id' s'] & -> & Hin%elem_of_map_to_list). cbn.
    rewrite Hl in Hin. destruct (st_sessions st !! id') as [e|]; [|done].
    cbn in Hin. unfold import_session in Hin. destruct (stopped e) eqn:Est.
    + destruct (Before _ _); [done|]. injection Hin as <-. by left.
    + destruct (_ == _); injection Hin as <-; [by right|by left].
Qed.

(** The gateway with its snapshot store: operations, saves however they end, restarts that
    load what is on disk; [n] bounds the changes since the process started. *)
Inductive run : nat -> Store -> SnapshotStore -> Prop :=
| run_start : run 0 NewStore (mkSnapshotStore 0 None)
| run_op n st sp o : run n st sp -> run (n + changes st o) (apply_op st o) sp
| run_save n st sp force w : run n st sp -> run n st (save sp st force w)
| run_restart n st sp now :
    run n st sp ->
    run 1 (Load (mkSnapshotStore 0 (sps_disk sp)) NewStore now).2 (Load (mkSnapshotStore 0 (sps_disk sp)) NewStore now).1.

Definition disk_sessions (sp : SnapshotStore) : list Session :=
  match sps_disk sp with Some snap => snap_Sessions snap | None => [] end.
Definition live_sessions (st : Store) : list Session := snap_Sessions (exportSnapshot st).

Record saved_inv (n : nat) (st : Store) (sp : SnapshotStore) : Prop := {
  si_gen : in_u64 (st_generation st);
  si_keyed : keyed st;
  si_disk : forall snap, sps_disk sp = Some snap ->
    in_u64 (snap_Generation snap) /\ NoDup (map key_of (snap_Sessions snap));
  si_persisted : in_u64 (sps_persisted sp);
  si_since : exists k, (k <= n)%nat /\ st_generation st = (sps_persisted sp + Z.of_nat k) mod 2 ^ 64 /\
    (k = 0%nat -> disk_sessions sp ≡ₚ live_sessions st)
}.

Lemma import_all_same l g now :
  NoDup (map key_of l) -> existsb (fun s => (import_session now s).2) l = false ->
  live_sessions (importSnapshot l g now) ≡ₚ l.
Proof.
  intros Hnd He. destruct (importSnapshot_lookup l g now Hnd) as [Hl _].
  apply NoDup_Permutation.
  - eapply NoDup_fmap_1, (export_keys (importSnapshot l g now)). intros id s. rewrite Hl.
    destruct (find _ l) as [t|] eqn:Ef; [|done]. cbn. intros H%import_session_key.
    apply find_some in Ef as [_ E%String.eqb_eq]. congruence.
  - by eapply NoDup_fmap_1.
  - intros s. cbn. rewrite list_elem_of_fmap. split.
    + intros ([id t] & -> & H%elem_of_map_to_list). cbn. rewrite Hl in H.
      destruct (find _ l) as [u|] eqn:Ef; [|done]. cbn in H. apply find_some in Ef as [Hin E].
      assert ((import_session now u).2 = false) as Hu.
      { apply not_true_is_false. intros Hu. rewrite (proj2 (existsb_exists _ _)) in He; [done|]. by exists u. }
      rewrite import_session_same in H by done. injection H as <-. by apply list_elem_of_In.
    + intros Hin. exists (key_of s, s). split; [done|]. apply elem_of_map_to_list. rewrite Hl.
      destruct (find (fun t => key_of t == key_of s) l) as [u|] eqn:Ef.
      * pose proof (find_some _ _ Ef) as [Hu E%String.eqb_eq]. apply list_elem_of_In in Hu.
        assert (u = s) as -> by (by eapply (NoDup_map_inj key_of l)).
        cbn. apply import_session_same. apply not_true_is_false. intros Hu'.
        rewrite (proj2 (existsb_exists _ _)) in He; [done|]. exists s. split; [by apply list_elem_of_In|done].
      * eapply find_none in Ef; [|by apply list_elem_of_In]. cbn in Ef. by rewrite String.eqb_refl in Ef.
Qed.

Lemma saved_inv_restart n st sp now :
  saved_inv n st sp ->
  saved_inv 1 (Load (mkSnapshotStore 0 (sps_disk sp)) NewStore now).2
    (Load (mkSnapshotStore 0 (sps_disk sp)) NewStore now).1.
Proof.
  intros [_ _ Hd _ _]. unfold Load. cbn [sps_disk]. destruct (sps_disk sp) as [snap|] eqn:E; cbn [fst snd].
  - destruct (Hd snap eq_refl) as [Hg Hnd].
    destruct (importSnapshot_lookup (snap_Sessions snap) (snap_Generation snap) now Hnd) as [Hl Hgen].
    split; cbn [sps_persisted sps_disk]; [| | |done|].
    + rewrite Hgen. destruct (existsb _ _); [apply u64_next_range|done].
    + intros id s. rewrite Hl. destruct (find _ _) as [t|] eqn:Ef; [|done]. cbn.
      intros H%import_session_key. apply find_some in Ef as [_ Ek%String.eqb_eq]. congruence.
    + by intros snap' [= <-].
    + rewrite Hgen. destruct (existsb _ _) eqn:Ex; [exists 1%nat|exists 0%nat]; (split; [lia|]).
      * by split.
      * rewrite Z.add_0_r, Z.mod_small by done. split; [done|]. intros _. cbn.
        symmetry. by apply import_all_same.
  - split; cbn; [done|apply NewStore_keyed|done|done|]. exists 0%nat. split; [lia|]. by split.
Qed.

Lemma run_inv n st sp : run n st sp -> saved_inv n st sp.
Proof.
  induction 1 as [|n st sp o Hr IH|n st sp force w Hr IH|n st sp now Hr IH].
  - split; cbn; [done|apply NewStore_keyed|done|done|]. exists 0%nat. by split_and!.
  - destruct IH as [Hg Hk Hd Hp (k & Hkn & Egen & Hsame)]. destruct (op_generation st o Hg) as [E1 E2].
    split; [|by apply apply_op_keyed|done|done|].
    + rewrite E1. unfold in_u64. pose proof (Z.mod_pos_bound (st_generation st + Z.of_nat (changes st o)) (2 ^ 64)). lia.
    + exists (k + changes st o)%nat. split; [lia|]. split.
      * rewrite E1, Egen, Z.add_mod_idemp_l by lia. f_equal. lia.
      * intros H0. rewrite Hsame by lia. unfold live_sessions. cbn. by rewrite E2 by lia.
  - destruct IH as [Hg Hk Hd Hp (k & Hkn & Egen & Hsame)]. unfold save, save_begin.
    destruct (negb force && _); [by split; eauto|].
    assert (forall snap, Some (exportSnapshot st) = Some snap ->
      in_u64 (snap_Generation snap) /\ NoDup (map key_of (snap_Sessions snap))) as Hnew.
    { intros snap [= <-]. split; [done|]. by apply export_keys. }
    destruct w; [by split; eauto|split; cbn; try done; by exists k|].
    split; cbn; try done. exists 0%nat. split; [lia|]. rewrite Z.add_0_r, Z.mod_small by done. done.
  - by eapply saved_inv_restart.
Qed.

(** A save loses nothing.  Through any operations, saves that fail or succeed and
    restarts, with fewer than 2^64 changes since the process started: a save whose write
    does not fail, also one that is skipped because the generation is the persisted one,
    leaves on disk exactly the sessions of the store. *)
Theorem save_complete n st sp force :
  run n st sp -> Z.of_nat n < 2 ^ 64 ->
  disk_sessions (save sp st force WriteOk) ≡ₚ live_sessions st.
Proof.
  intros Hr Hn. destruct (run_inv _ _ _ Hr) as [Hg Hk Hd Hp (k & Hkn & Egen & Hsame)]. unfold save, save_begin.
  destruct (negb force && (snap_Generation (exportSnapshot st) =? sps_persisted sp)) eqn:E; [|done].
  apply Hsame. apply andb_true_iff in E as [_ E%Z.eqb_eq]. cbn in E. unfold in_u64 in *.
  destruct (Z.ltb_spec (sps_persisted sp + Z.of_nat k) (2 ^ 64)) as [Hlt|Hge].
  - rewrite Z.mod_small in Egen by lia. lia.
  - rewrite <-(Z.mod_unique (sps_persisted sp + Z.of_nat k) (2 ^ 64) 1 (sps_persisted sp + Z.of_nat k - 2 ^ 64))
      in Egen by lia. lia.
Qed.

(** ** The file of the snapshots *)

(** The files of the snapshot directory, by name *)
Abbreviation directory := (gmap string string).
Inductive fileEvent :=
| FeCreated (unique : option string)
| FeEncoded (name content : string) (short : option nat)
| FeRenamed (from to : string) (ok : bool)
| FeRemoved (name : string) (ok : bool)
| FeOther.
Definition file_event (B : Type) (c : snapshotCall B) : B -> fileEvent :=
  match c with
  | CreateTemp _ _ => FeCreated
  | Encode name content => FeEncoded name content
  | Rename from to => FeRenamed from to
  | Remove name => FeRemoved name
  | _ => fun _ => FeOther
  end.
Definition file_next (e : fileEvent) (d : directory) : directory :=
  match e with
  | FeCreated (Some unique) => <[temp_name unique := EmptyString]> d
  | FeEncoded name content short =>
      <[name := match short with None => content | Some n => str_take n content end]> d
  | FeRenamed from to true =>
      match d !! from with Some content => <[to := content]> (delete from d) | None => d end
  | FeRemoved name true => delete name d
  | _ => d
  end.

Lemma temp_not_latest unique : temp_name unique <> latest_json.
Proof. unfold temp_name, temp_prefix, latest_json. discriminate. Qed.

(** The directory at the end *)
Definition replaced (r : result snapshotWriteError unit) (content : string) (d : directory) : directory :=
  match written_as r with WriteFailed => d | _ => <[latest_json := content]> d end.

(** The removal of a temporary file, where it was tried, has succeeded. *)
Definition removed (e : fileEvent) : Prop := match e with FeRemoved _ ok => ok = true | _ => True end.

Section write.
Context (content : string) (d : directory).
Definition whole (d' : directory) : Prop :=
  d' !! latest_json = d !! latest_json \/ d' !! latest_json = Some content.
Abbreviation wpost p s := (post file_event file_next whole p s
  (fun r d' => d' !! latest_json = replaced r content d !! latest_json)).

Lemma discard_post name e s :
  name <> latest_json -> written_as (Err e) = WriteFailed -> s !! latest_json = d !! latest_json ->
  wpost (discard name e) s.
Proof.
  intros Hn He Hs. assert (delete name s !! latest_json = d !! latest_json) as Hd by by rewrite lookup_delete_ne.
  assert (replaced (Err e) content d = d) as Hr by (unfold replaced; by rewrite He).
  intros [|]; cbn -[replaced]; rewrite Hr; by split; [left|].
Qed.
Lemma close_discard_post name e s :
  name <> latest_json -> written_as (Err e) = WriteFailed -> s !! latest_json = d !! latest_json ->
  wpost (close_discard name e) s.
Proof. intros Hn He Hs closed. split; [by left|]. by apply discard_post. Qed.

Lemma put_temp u c (s : directory) :
  s !! latest_json = d !! latest_json -> <[temp_name u := c]> s !! latest_json = d !! latest_json.
Proof. intros <-. apply lookup_insert_ne, temp_not_latest. Qed.

Lemma write_posts : wpost (writeSnapshotAtomic content) d.
Proof.
  intros [u|]; cbn -[discard close_discard replaced temp_name]; [|by split; [left|]].
  pose proof (temp_not_latest u) as Hu.
  assert (forall s : directory, s !! latest_json = d !! latest_json -> whole s) as Hold by by left.
  assert (forall s : directory, whole (<[latest_json := content]> s)) as Hnew by (right; apply lookup_insert_eq).
  split; [auto using put_temp|]. intros [|]; (split; [auto using put_temp|]).
  2: by apply close_discard_post; auto using put_temp.
  intros [n|]; (split; [cbn; auto using put_temp|]). 1: by apply close_discard_post; cbn; auto using put_temp.
  intros [|]; (split; [cbn; auto using put_temp|]). 2: by apply close_discard_post; cbn; auto using put_temp.
  intros [|]; (split; [cbn; auto using put_temp|]). 2: by apply discard_post; cbn; auto using put_temp.
  intros [|]; cbn -[discard replaced temp_name].
  2: split; [auto using put_temp|]; by apply discard_post; auto using put_temp.
  rewrite lookup_insert_eq. split; [done|]. intros [|]; (split; [done|]); [|unfold replaced; cbn; by rewrite !lookup_insert_eq].
  intros synced. split; [apply Hnew|]. intros closed. split; [apply Hnew|].
  destruct synced; unfold replaced; cbn; by rewrite !lookup_insert_eq.
Qed.
End write.

Lemma discard_leaves content name e d d' tr r :
  runs file_event (discard name e) tr r -> Forall removed tr ->
  written_as (Err e) = WriteFailed -> delete name d' = d -> after file_next d' tr = replaced r content d.
Proof.
  intros (ok & tr' & -> & -> & ->) Hn%Forall_inv He Hd. cbn in Hn. subst ok. unfold replaced. by rewrite He.
Qed.
Lemma close_discard_leaves content name e d d' tr r :
  runs file_event (close_discard name e) tr r -> Forall removed tr ->
  written_as (Err e) = WriteFailed -> delete name d' = d -> after file_next d' tr = replaced r content d.
Proof.
  intros (closed & tr' & -> & Hr) Hn%Forall_inv_tail He Hd. by eapply (discard_leaves content name e d d' tr' r).
Qed.

Lemma write_leaves_nothing content d tr r :
  runs file_event (writeSnapshotAtomic content) tr r ->
  (forall unique, FeCreated (Some unique) ∈ tr -> d !! temp_name unique = None) ->
  Forall removed tr ->
  after file_next d tr = replaced r content d.
Proof.
  intros ([u|] & tr1 & -> & Hr) Hfresh Hn; [|by destruct Hr as [-> ->]].
  assert (d !! temp_name u = None) as Hu by (apply Hfresh; by left). clear Hfresh.
  assert (forall c, delete (temp_name u) (<[temp_name u := c]> d) = d) as Hput
    by (intros c; by rewrite delete_insert_eq, delete_id).
  assert (forall c s, <[temp_name u := c]> (<[temp_name u := s]> d) = <[temp_name u := c]> d) as Htwice
    by (intros c s; by rewrite insert_insert_eq).
  assert (forall c s, delete (temp_name u) (<[temp_name u := c]> (<[temp_name u := s]> d)) = d) as Hput2
    by (intros c s; by rewrite Htwice).
  apply Forall_inv_tail in Hn. destruct Hr as ([|] & tr2 & -> & Hr); apply Forall_inv_tail in Hn.
  2: exact (close_discard_leaves content _ _ d _ _ _ Hr Hn eq_refl (Hput _)).
  destruct Hr as ([n|] & tr3 & -> & Hr); apply Forall_inv_tail in Hn.
  1: exact (close_discard_leaves content _ _ d _ _ _ Hr Hn eq_refl (Hput2 _ _)).
  destruct Hr as ([|] & tr4 & -> & Hr); apply Forall_inv_tail in Hn.
  2: exact (close_discard_leaves content _ _ d _ _ _ Hr Hn eq_refl (Hput2 _ _)).
  destruct Hr as ([|] & tr5 & -> & Hr); apply Forall_inv_tail in Hn.
  2: exact (discard_leaves content _ _ d _ _ _ Hr Hn eq_refl (Hput2 _ _)).
  destruct Hr as ([|] & tr6 & -> & Hr); apply Forall_inv_tail in Hn.
  2: exact (discard_leaves content _ _ d _ _ _ Hr Hn eq_refl (Hput2 _ _)).
  assert (after file_next d (FeCreated (Some u) :: FeOther :: FeEncoded (temp_name u) content None :: FeOther :: FeOther ::
    FeRenamed (temp_name u) latest_json true :: tr6) = after file_next (<[latest_json := content]> d) tr6) as E.
  { cbn. by rewrite Htwice, lookup_insert_eq, Hput. }
  destruct Hr as ([|] & tr7 & -> & Hr); [|by destruct Hr as [-> ->]].
  destruct Hr as (synced & tr8 & -> & closed & tr9 & -> & Hr). etrans; [exact E|].
  destruct synced; by destruct Hr as [-> ->].
Qed.

(** A file is replaced as a whole.  Whatever fails: at every moment, so also when the machine stops there, [latest.json]
    is what it was or the whole new snapshot; at the end it is the new one when no error
    is returned or the error came after the rename, and else the old one.  And when the
    name of the temporary file was not in use and its removal, where it is tried, succeeds,
    no other file of the directory is touched or left behind. *)
Theorem snapshot_write_atomic content d tr r :
  runs file_event (writeSnapshotAtomic content) tr r ->
  (forall tr', tr' `prefix_of` tr ->
     after file_next d tr' !! latest_json = d !! latest_json \/
     after file_next d tr' !! latest_json = Some content) /\
  after file_next d tr !! latest_json = replaced r content d !! latest_json /\
  ((forall unique, FeCreated (Some unique) ∈ tr -> d !! temp_name unique = None) ->
   Forall removed tr ->
   after file_next d tr = replaced r content d).
Proof.
  intros Hr. destruct (post_runs file_event file_next _ _ d _ tr r (or_introl eq_refl) (write_posts content d) Hr) as [Hend Hall].
  split; [exact Hall|]. split; [exact Hend|]. intros Hfresh Hrem. by apply write_leaves_nothing.
Qed.


(** ** Closing the snapshot store *)

Definition is_op (e : saverEvent) : bool := match e with EvOp _ => true | _ => false end.

Lemma saver_run_app l1 l2 s : saver_run s (l1 ++ l2) = saver_run s l1 ≫= fun s1 => saver_run s1 l2.
Proof. revert s. induction l1 as [|e l1 IH]; intros s; [done|]. cbn. destruct (saver_step s e); [apply IH|done]. Qed.
Lemma saver_run_ind (P : saver -> Prop) (ok : saverEvent -> Prop) l s s' :
  (forall s e s', P s -> ok e -> saver_step s e = Some s' -> P s') ->
  Forall ok l -> P s -> saver_run s l = Some s' -> P s'.
Proof.
  intros Hstep Hok. revert s. induction Hok as [|e l He Hok IH]; intros s Hs; cbn; [by intros [= <-]|].
  destruct (saver_step s e) as [s1|] eqn:E; [|done]. cbn. apply IH. by eapply Hstep.
Qed.

(** While nothing operates on the store any more: the last save's snapshot is of the store
    as it is, and so is the file once that save is over. *)
Definition last_saved (st : Store) (s : saver) : Prop :=
  sv_store s = st /\
  match sv_close s with
  | NotClosing => False
  | Stopping | WaitingLoop => True
  | LastSaving snap => sv_loop s = LoopReturned /\ snap = exportSnapshot st
  | Closed err => sv_loop s = LoopReturned /\ (err = false -> sps_disk (sv_snap s) = Some (exportSnapshot st))
  end.
Lemma last_saved_step st s e s' :
  last_saved st s -> is_op e = false -> saver_step s e = Some s' -> last_saved st s'.
Proof.
  intros [<- Hc] He Hs. destruct e as [o| | |w| | | | |w]; try done; cbn in Hs; unfold loop_step, close_step in Hs.
  all: destruct s as [st0 sp t [|snap|] [| | |snap'|err]]; cbn in *; try done.
  all: repeat case_match; simplify_eq/=; try done.
  all: try (split; [done|]; cbn; intuition congruence).
  destruct Hc as [_ ->]. by destruct w.
Qed.

Lemma saver_keyed s e s' : keyed (sv_store s) -> saver_step s e = Some s' -> keyed (sv_store s').
Proof.
  intros Hk Hs. destruct e as [o| | |w| | | | |w]; cbn in Hs; unfold loop_step, close_step in Hs.
  1: injection Hs as <-; by apply apply_op_keyed.
  all: repeat case_match; by simplify_eq/=.
Qed.
(** A run in which [Close] is called *)
Lemma closing_run s0 before after s :
  saver_run s0 (before ++ EvClose :: after) = Some s ->
  exists s1, saver_run s0 before = Some s1 /\ sv_close s1 = NotClosing /\ saver_run (set_close s1 Stopping) after = Some s.
Proof.
  rewrite saver_run_app. destruct (saver_run s0 before) as [s1|]; [|done]. cbn.
  destruct (sv_close s1) eqn:E; [|done..]. intros H. by exists s1.
Qed.

(** C39: [Close] keeps every session.  From the time [Close] is called nothing operates on the store; before, and until the
    save the goroutine may be in is over, anything may happen, and writes may fail.  When
    [Close] returns nil the file holds exactly the sessions of the store, and a new
    process that loads it has of each what it must have ([recovered]) and no other. *)
Theorem close_keeps_sessions st sp before after s ctx_over now id :
  keyed st -> Forall (fun e => is_op e = false) after ->
  saver_run (newSaver st sp) (before ++ EvClose :: after) = Some s ->
  CloseNil ∈ close_returns s ctx_over ->
  sps_disk (sv_snap s) = Some (exportSnapshot (sv_store s)) /\
  let st' := (Load (mkSnapshotStore 0 (sps_disk (sv_snap s))) NewStore now).2 in
  match st_sessions (sv_store s) !! id with
  | Some session => recovered now session (st_sessions st' !! id)
  | None => st_sessions st' !! id = None
  end.
Proof.
  intros Hk Hq Hrun Hnil. destruct (closing_run _ _ _ _ Hrun) as (s1 & Hb & _ & Ha).
  assert (last_saved (sv_store s1) s) as [Est Hc].
  { refine (saver_run_ind _ (fun e => is_op e = false) after _ s _ Hq _ Ha); [|by split].
    intros s2 e s3. by apply last_saved_step. }
  assert (keyed (sv_store s)) as Hks.
  { refine (saver_run_ind (fun s => keyed (sv_store s)) (fun _ => True) _ (newSaver st sp) s _ _ Hk Hrun).
    - intros s2 e s3 H2 _. by apply saver_keyed.
    - by apply Forall_forall. }
  assert (sps_disk (sv_snap s) = Some (exportSnapshot (sv_store s))) as Hd.
  { rewrite Est. unfold close_returns in Hnil. destruct (sv_close s) as [| | |snap|[]], ctx_over; cbn in Hnil; set_solver. }
  split; [done|]. unfold Load. rewrite Hd. cbv zeta. cbn [snd sps_disk].
  rewrite (loaded_lookup _ now id Hks). destruct (st_sessions (sv_store s) !! id); [apply import_recovers|done].
Qed.

(** How many steps the goroutines can still make once [Close] is called *)
Definition steps_left (s : saver) : nat :=
  (match sv_close s with NotClosing => 4 | Stopping => 3 | WaitingLoop => 2 | LastSaving _ => 1 | Closed _ => 0 end +
   match sv_loop s with
   | LoopSelect => 1 + 2 * (if sv_tick s then 1 else 0)
   | LoopSaving _ => 2 + 2 * (if sv_tick s then 1 else 0)
   | LoopReturned => 0
   end)%nat.

Lemma steps_left_step s e s' :
  sv_close s <> NotClosing -> saver_step s e = Some s' ->
  sv_close s' <> NotClosing /\ (steps_left s' + (if is_op e then 0 else 1) <= steps_left s)%nat.
Proof.
  intros Hc Hs. destruct e as [o| | |w| | | | |w]; cbn in Hs; unfold loop_step, close_step in Hs.
  all: destruct s as [st0 sp t [|snap|] [| | |snap'|err]]; cbn in *; try done.
  all: repeat case_match; simplify_eq/=; try (split; [done|unfold steps_left; cbn; lia]).
Qed.
Lemma steps_left_run s l s' :
  sv_close s <> NotClosing -> saver_run s l = Some s' ->
  sv_close s' <> NotClosing /\ (steps_left s' + length (List.filter (fun e => negb (is_op e)) l) <= steps_left s)%nat.
Proof.
  revert s. induction l as [|e l IH]; intros s Hc; cbn [saver_run]; [intros [= <-]; split; [done|cbn; lia]|].
  destruct (saver_step s e) as [s1|] eqn:E; [|done]. cbn. destruct (steps_left_step s e s1 Hc E) as [Hc1 H1].
  intros H. destruct (IH s1 Hc1 H) as [Hc' H2]. split; [done|]. cbn.
  destruct (is_op e); cbn in *; lia.
Qed.

(** [Close] comes to an end.  Once [Close] is called, the goroutines make at most seven steps more, however long
    operations go on; and as long as the store is not closed one of these steps is
    possible, whatever the writes answer. So the wait of [Close] ends, in time or with
    its context, and whoever calls it again gets the same answer. *)
Theorem close_completes st sp before after s :
  saver_run (newSaver st sp) (before ++ EvClose :: after) = Some s ->
  (length (List.filter (fun e => negb (is_op e)) after) <= 7)%nat /\
  ((exists err, sv_close s = Closed err) \/
   forall w, exists e, e ∈ [EvDone; EvLoopSave; EvLoopWritten w; EvLoopReturn; EvWaited; EvLastWritten w] /\
     is_Some (saver_step s e)).
Proof.
  intros Hrun. destruct (closing_run _ _ _ _ Hrun) as (s1 & _ & Hs1 & Ha).
  destruct (steps_left_run (set_close s1 Stopping) after s) as [Hc Hn]; [done|done|]. split.
  - unfold steps_left at 2 in Hn. cbn in Hn. destruct (sv_loop s1), (sv_tick s1); lia.
  - destruct (sv_close s) as [| | |snap|err] eqn:E; [done| | | |by left; eexists]; right; intros w.
    + exists EvDone. split; [set_solver|]. cbn. rewrite E. by eexists.
    + destruct (sv_loop s) as [|snap|] eqn:El.
      * exists EvLoopReturn. split; [set_solver|]. cbn. unfold done_closed. rewrite El, E. by eexists.
      * exists (EvLoopWritten w). split; [set_solver|]. cbn. rewrite El. by eexists.
      * exists EvWaited. split; [set_solver|]. cbn. rewrite E, El. by eexists.
    + exists (EvLastWritten w). split; [set_solver|]. cbn. rewrite E. by eexists.
Qed.

(** ** Concrete sessions *)

Definition ex_identity : Identity :=
  mkIdentity "s1" "client" "in" "tag" "host" 42 "/work" "main" ["agent"] (mkTmuxInfo false "" "" "" "" "") "".
Definition ex_session (cap : string) : Session :=
  mkSession ex_identity StatusEmpty "" 0 0 cap None None false None None None 0.
Definition ex_t0 : Time := 63900000000 * Second.
Definition ex_store : Store := apply_ops NewStore [OpRegister (ex_session HeartbeatCapabilityV1) ex_t0].
Definition ex_stopped : Store := apply_ops ex_store [OpMarkStopped "client" "in" "s1" 0 (ex_t0 + Second)].
Definition ex_found (st : Store) : Session := default (ex_session "") (st_sessions st !! "s1").

Lemma stopped_final_witness :
  st_sessions (apply_ops ex_stopped [OpHeartbeat "client" "in" "s1" ex_t0; OpSweep 0 0 (ex_t0 + Minute)]) !! "s1" =
  Some (ex_found ex_stopped).
Proof.
  apply (stopped_final ex_stopped "s1" (ex_found ex_stopped)); [by vm_compute|by vm_compute|].
  repeat constructor; cbn; lia.
Defined.

Lemma session_owner_witness :
  GetOwned ex_store "s1" "other" "in" = None /\
  forall now, Heartbeat ex_store "other" "in" "s1" now = (None, ex_store).
Proof.
  destruct (session_owner ex_store "s1" (ex_found ex_store) "other" "in") as (H1 & _ & H2 & _);
    [by vm_compute|by vm_compute|]. by split.
Defined.

Lemma heartbeat_keeps_alive_witness :
  exists s', st_sessions (apply_ops (Heartbeat ex_store "client" "in" "s1" (ex_t0 + Second)).2
    [OpSweep DefaultStoppedRetention DefaultTransientTTL (ex_t0 + 30 * Second)]) !! "s1" = Some s' /\
    stopped s' = false.
Proof.
  destruct (heartbeat_keeps_alive ex_store "client" "in" "s1" (ex_t0 + Second)
    (ex_found (Heartbeat ex_store "client" "in" "s1" (ex_t0 + Second)).2)
    (Heartbeat ex_store "client" "in" "s1" (ex_t0 + Second)).2) as [H _]; [by vm_compute|by vm_compute|].
  destruct (H [OpSweep DefaultStoppedRetention DefaultTransientTTL (ex_t0 + 30 * Second)]) as (s' & Hs' & Ha & _).
  - repeat constructor; vm_compute; congruence.
  - exists s'. by split.
Defined.

Lemma save_complete_witness :
  disk_sessions (save (mkSnapshotStore 0 None) ex_store false WriteOk) ≡ₚ live_sessions ex_store.
Proof.
  apply (save_complete (0 + changes NewStore (OpRegister (ex_session HeartbeatCapabilityV1) ex_t0))).
  - exact (run_op 0 NewStore _ (OpRegister (ex_session HeartbeatCapabilityV1) ex_t0) run_start).
  - by vm_compute.
Defined.

(** Closed while the goroutine is in a save, which fails *)
Definition ex_before : list saverEvent :=
  [EvOp (OpRegister (ex_session HeartbeatCapabilityV1) ex_t0); EvTick; EvLoopSave; EvTick].
Definition ex_after : list saverEvent :=
  [EvDone; EvLoopWritten WriteFailed; EvLoopSave; EvLoopWritten WriteUnsynced; EvLoopReturn; EvWaited; EvLastWritten WriteOk].
Definition ex_saver : saver := newSaver NewStore (mkSnapshotStore 0 None).
Definition ex_closed : saver := default ex_saver (saver_run ex_saver (ex_before ++ EvClose :: ex_after)).

Lemma close_keeps_sessions_witness :
  exists s', st_sessions (Load (mkSnapshotStore 0 (sps_disk (sv_snap ex_closed))) NewStore (ex_t0 + Minute)).2 !! "s1" = Some s' /\
    sn_RecoveryPending s' = true.
Proof.
  destruct (close_keeps_sessions NewStore (mkSnapshotStore 0 None) ex_before ex_after ex_closed false (ex_t0 + Minute) "s1")
    as [_ H].
  - apply NewStore_keyed.
  - by repeat constructor.
  - by vm_compute.
  - assert (close_returns ex_closed false = [CloseNil]) as -> by by vm_compute. by left.
  - assert (st_sessions (sv_store ex_closed) !! "s1" =
      Some (default (ex_session "") (st_sessions (sv_store ex_closed) !! "s1"))) as E by by vm_compute.
    rewrite E in H. unfold recovered in H.
    assert (stopped (default (ex_session "") (st_sessions (sv_store ex_closed) !! "s1")) = false) as E1 by by vm_compute.
    rewrite E1 in H. destruct H as (t & Ht & _ & Hc).
    assert ((sn_HeartbeatCapability (default (ex_session "") (st_sessions (sv_store ex_closed) !! "s1")) == HeartbeatCapabilityV1) = true)
      as E2 by by vm_compute.
    rewrite E2 in Hc. exists t. by split; [|apply Hc].
Defined.

Lemma close_completes_witness : (length (List.filter (fun e => negb (is_op e)) ex_after) <= 7)%nat.
Proof. apply (close_completes NewStore (mkSnapshotStore 0 None) ex_before ex_after ex_closed). by vm_compute. Defined.

Lemma snapshot_write_atomic_witness :
  let tr := [FeCreated (Some "123"); FeOther; FeEncoded ".latest.json-123.tmp" "new" (Some 2%nat); FeOther;
             FeRemoved ".latest.json-123.tmp" true] in
  after file_next {[ latest_json := "old" ]} tr = {[ latest_json := "old" ]}.
Proof.
  destruct (snapshot_write_atomic "new" {[ latest_json := "old" ]}
    [FeCreated (Some "123"); FeOther; FeEncoded ".latest.json-123.tmp" "new" (Some 2%nat); FeOther;
     FeRemoved ".latest.json-123.tmp" true] (Err EncodeFailed)) as (_ & _ & H).
  - exists (Some "123"), [FeOther; FeEncoded ".latest.json-123.tmp" "new" (Some 2%nat); FeOther; FeRemoved ".latest.json-123.tmp" true].
    split; [done|]. exists true, [FeEncoded ".latest.json-123.tmp" "new" (Some 2%nat); FeOther; FeRemoved ".latest.json-123.tmp" true].
    split; [done|]. exists (Some 2%nat), [FeOther; FeRemoved ".latest.json-123.tmp" true]. split; [done|].
    exists true, [FeRemoved ".latest.json-123.tmp" true]. split; [done|]. by exists true, [].
  - cbv zeta. rewrite H; [done| |by repeat constructor].
    intros u Hu. assert (u = "123") as -> by set_solver. by vm_compute.
Defined.
