(* ===== verification/ConfigValidate.v ===== *)
(** * Validation of configurations

    Models [Config.applyDefaults], [Config.Validate] and the validators it calls, and
    the listener helpers, of [internal/config/config.go].

    An error is the format of its [fmt.Errorf] with its arguments, integers in
    decimal; a wrapped cause ([%w]) is left out.  [Validate] has a value receiver: the
    defaults it applies first change a copy of the configuration, except for the
    defaults of quota windows, which it writes through the slices the copy shares with
    the caller's value; [Validate] below returns the caller's value after the call too.
    Where the code ranges over a map, which of several errors it meets first is
    unspecified; the model goes through the map in the order of [map_to_list].

    The database of time zones and [net/url.Parse] are parameters. *)

From Stdlib Require Import SpecFloat.
From S2P Require Import Prelude GoStrings GoTime GoTimeFacts GoStrconv RuntimeModel ConfigTypes Money QuotaWindow.

(** ** Errors *)

Inductive configError := CfgError (format : string) (args : list string).

(** [if c { return e }] *)
Definition fail_if (c : bool) (format : string) (args : list string) : result configError unit :=
  if c then Err (CfgError format args) else Ok tt.

Definition natoa (n : nat) : string := itoa (Z.of_nat n).

(** ** Defaults *)

Definition or_default (value fallback : string) : string := if value == "" then fallback else value.
Definition or_default_int (value fallback : Z) : Z := if value =? 0 then fallback else value.

Definition default_window (w : QuotaWindowConfig) : QuotaWindowConfig :=
  mkQuotaWindowConfig (qw_Name w) (or_default (qw_Type w) "requests") (qw_Duration w)
    (qw_MaxRequests w) (qw_MaxTokens w) (qw_MaxCostUSD w).

Definition default_outbound_window (w : OutboundQuotaWindowConfig) : OutboundQuotaWindowConfig :=
  mkOutboundQuotaWindowConfig (oqw_Name w) (or_default (oqw_Reset w) "rolling") (oqw_Duration w)
    (oqw_Fixed w) (oqw_MaxRequests w) (oqw_MaxTokens w).

Definition with_client_windows (f : QuotaWindowConfig -> QuotaWindowConfig) (c : ClientSpec) : ClientSpec :=
  mkClientSpec (cs_Name c) (cs_Token c)
    (mkClientQuotaConfig (cq_Enabled (cs_Quota c)) (map f (cq_Windows (cs_Quota c)))).

Definition with_outbound_windows (f : OutboundQuotaWindowConfig -> OutboundQuotaWindowConfig)
    (o : OutboundSpec) : OutboundSpec :=
  let q := ob_Quota o in
  mkOutboundSpec (ob_Name o) (ob_Protocol o) (ob_Endpoint o) (ob_AuthToken o) (ob_Auth o) (ob_Tag o)
    (ob_Enabled o) (ob_Models o) (ob_Capabilities o)
    (mkOutboundQuotaConfig (oq_Enabled q) (map f (oq_Windows q)) (oq_Cooldown q) (oq_ProbeInterval q)
       (oq_ResetAll q))
    (ob_Proxy o).

(** The two loops over quota windows, which write into slices *)
Definition window_defaults (c : Config) : Config :=
  mkConfig (cfg_Server c) (cfg_Listeners c) (map (with_client_windows default_window) (cfg_Clients c))
    (cfg_Inbounds c) (cfg_Routing c) (map (with_outbound_windows default_outbound_window) (cfg_Outbounds c))
    (cfg_Accounting c) (cfg_Governance c) (cfg_Sessions c) (cfg_OAuth c) (cfg_Admin c).

Definition default_rotation (r : AdminLogsRotationConfig) : AdminLogsRotationConfig :=
  mkAdminLogsRotationConfig (or_default_int (alr_MaxSizeMB r) 100) (or_default_int (alr_MaxFiles r) 20)
    (or_default_int (alr_MaxAgeDays r) 14) (or_default_int (alr_MaxTotalSizeMB r) 1024) (alr_Compress r).

Definition default_logs (l : AdminLogsConfig) : AdminLogsConfig :=
  mkAdminLogsConfig (al_Enabled l) (or_default (al_Path l) "tmp/dev.log")
    (or_default_int (al_MaxBytes l) 65536) (default_rotation (al_Rotation l)).

Definition default_snapshot (s : SessionSnapshotConfig) : SessionSnapshotConfig :=
  mkSessionSnapshotConfig (ss_Enabled s) (or_default (ss_Dir s) "./data/sessions")
    (or_default (ss_FlushInterval s) "5s").

Definition applyDefaults (c : Config) : Config :=
  let c := window_defaults c in
  let a := cfg_Admin c in
  mkConfig (cfg_Server c) (cfg_Listeners c) (cfg_Clients c) (cfg_Inbounds c) (cfg_Routing c)
    (cfg_Outbounds c) (cfg_Accounting c) (cfg_Governance c)
    (mkSessionsConfig (default_snapshot (sess_Snapshot (cfg_Sessions c))))
    (mkOAuthConfig (or_default (oauth_Dir (cfg_OAuth c)) "./data/oauth"))
    (mkAdminConfig (adm_Enabled a) (adm_Token a) (default_logs (adm_Logs a))).

(** ** Listeners *)

Definition ListenAddresses (c : Config) : list string :=
  match cfg_Listeners c with
  | [] => if srv_Listen (cfg_Server c) == "" then [] else [srv_Listen (cfg_Server c)]
  | listeners => map ls_Listen listeners
  end.

Definition ListenAddress (c : Config) : string :=
  match ListenAddresses c with [] => "" | address :: _ => address end.

Definition zero_inbound : InboundSpec := mkInboundSpec "" "" "" [].

Definition InboundByName (c : Config) (name : string) : InboundSpec :=
  default zero_inbound (find (fun inbound => in_Name inbound == name) (cfg_Inbounds c)).

Definition ListenerInbounds (c : Config) (listener : ListenerSpec) : list InboundSpec :=
  List.filter (fun inbound => in_Name inbound != "") (map (InboundByName c) (ls_Inbounds listener)).

(** ** Small validators *)

Definition validateAdmin (cfg : AdminConfig) (clientTokens : gmap string string)
    (accounting : AccountingConfig) : result configError unit :=
  let logs := adm_Logs cfg in
  let rotation := al_Rotation logs in
  _ ← (if al_Enabled logs then
    _ ← fail_if (al_Path logs == "") "admin.logs.path is required when admin.logs.enabled=true" [];
    _ ← fail_if (al_MaxBytes logs <=? 0) "admin.logs.max_bytes must be greater than 0" [];
    _ ← fail_if (alr_MaxSizeMB rotation <=? 0) "admin.logs.rotation.max_size_mb must be greater than 0" [];
    _ ← fail_if (alr_MaxFiles rotation <=? 0) "admin.logs.rotation.max_files must be greater than 0" [];
    _ ← fail_if (alr_MaxAgeDays rotation <=? 0) "admin.logs.rotation.max_age_days must be greater than 0" [];
    fail_if (alr_MaxTotalSizeMB rotation <=? 0) "admin.logs.rotation.max_total_size_mb must be greater than 0" []
  else Ok tt);
  if negb (adm_Enabled cfg) then Ok tt else
  _ ← fail_if (adm_Token cfg == "") "admin.token is required when admin.enabled=true" [];
  _ ← match clientTokens !! adm_Token cfg with
      | Some owner => Err (CfgError "admin.token duplicates client token used by %s" [owner])
      | None => Ok tt
      end;
  fail_if ((acc_AdminToken accounting != "") && (adm_Token cfg == acc_AdminToken accounting))
    "admin.token must be different from accounting.admin_token" [].

Definition validateGovernance (cfg : GovernanceConfig) : result configError unit :=
  let snapshot := gqs_Enabled (gq_Snapshot (gov_Quota cfg)) in
  _ ← (if snapshot then
    _ ← fail_if (gqs_Dir (gq_Snapshot (gov_Quota cfg)) == "")
          "governance.quota.snapshot.dir is required when governance.quota.snapshot.enabled=true" [];
    fail_if (DurationOf (gqs_FlushInterval (gq_Snapshot (gov_Quota cfg))) <=? 0)
      "governance.quota.snapshot.flush_interval must be a positive duration" []
  else Ok tt);
  fail_if (gqe_Enabled (gq_Events (gov_Quota cfg)) && (gqe_MaxEntries (gq_Events (gov_Quota cfg)) <=? 0))
    "governance.quota.events.max_entries must be greater than 0" [].

Definition validateAccountingLocalFile (cfg : AccountingLocalFileConfig) : result configError unit :=
  _ ← fail_if (alf_Dir cfg == "") "accounting.local_file.dir is required when accounting.backend=local_file" [];
  _ ← fail_if (alf_RotateMaxSizeMB cfg <=? 0) "accounting.local_file.rotate_max_size_mb must be greater than 0" [];
  _ ← fail_if (alf_RetentionDays cfg <? 0)
        "accounting.local_file.retention_days must be greater than or equal to 0" [];
  _ ← fail_if (alf_SnapshotRetentionDays cfg <? 0)
        "accounting.local_file.snapshot_retention_days must be greater than or equal to 0" [];
  _ ← fail_if (alf_WriteBufferRecords cfg <=? 0)
        "accounting.local_file.write_buffer_records must be greater than 0" [];
  _ ← fail_if (alf_QueueSize cfg <=? 0) "accounting.local_file.queue_size must be greater than 0" [];
  _ ← fail_if (DurationOf (alf_FlushInterval cfg) <=? 0)
        "accounting.local_file.flush_interval must be a positive duration" [];
  fail_if ((alf_SnapshotInterval cfg != "") && (DurationOf (alf_SnapshotInterval cfg) <=? 0))
    "accounting.local_file.snapshot_interval must be a positive duration" [].

Definition negative_rate (rate : float64) : bool := SFltb rate fzero.

Definition validateAccountingPricing (items : list AccountingPriceConfig) : result configError unit :=
  for_eachi (fun i item =>
    _ ← fail_if (ap_Model item == "") "accounting.pricing[%d].model is required" [natoa i];
    fail_if (negative_rate (ap_InputPerMillionUSD item) || negative_rate (ap_OutputPerMillionUSD item) ||
             negative_rate (ap_CacheCreatePerMillionUSD item) || negative_rate (ap_CacheReadPerMillionUSD item))
      "accounting.pricing[%d] rates must be greater than or equal to 0" [natoa i]) 0%nat items.

Definition validWeekday (value : string) : bool :=
  bool_decide (value ∈ ["monday"; "tuesday"; "wednesday"; "thursday"; "friday"; "saturday"; "sunday"]).

Definition validateRFC3339Anchor (field value : string) : result configError unit :=
  _ ← fail_if (value == "") "%s is required" [field];
  _ ← fail_if (match parse_rfc3339 value with None => true | Some _ => false end)
        "%s must be RFC3339: %w" [field];
  fail_if (negb (HasSuffix value "Z") &&
           ((len value <? 6)%nat ||
            negb (HasPrefix (str_drop (len value - 6) value) "+") &&
            negb (HasPrefix (str_drop (len value - 6) value) "-")))
    "%s must include an explicit offset" [field].

(** ** Quota windows *)

Definition is_some {A} (o : option A) : bool := match o with Some _ => true | None => false end.

Definition duplicate (name : string) (seen : gset string) : bool := bool_decide (name ∈ seen).

(** The text of a [costError] *)
Definition cost_message (e : costError) : string :=
  match e with
  | MustBePositive => "must be greater than 0"
  | NotDecimal => "must be a positive decimal with at most 6 fractional digits"
  | TooManyDigits => "must have at most 6 fractional digits"
  | TooLarge => "is too large"
  end.

Definition validate_window_amounts (windowPrefix : string) (window : QuotaWindowConfig)
    : result configError unit :=
  if qw_Type window == "requests" then
    _ ← fail_if (qw_MaxRequests window <=? 0) "%s.max_requests must be greater than 0" [windowPrefix];
    fail_if (negb (qw_MaxTokens window =? 0) || (qw_MaxCostUSD window != ""))
      "%s type=requests only supports max_requests" [windowPrefix]
  else if qw_Type window == "tokens" then
    _ ← fail_if (qw_MaxTokens window <=? 0) "%s.max_tokens must be greater than 0" [windowPrefix];
    fail_if (negb (qw_MaxRequests window =? 0) || (qw_MaxCostUSD window != ""))
      "%s type=tokens only supports max_tokens" [windowPrefix]
  else if qw_Type window == "cost" then
    _ ← fail_if (negb (qw_MaxRequests window =? 0) || negb (qw_MaxTokens window =? 0))
          "%s type=cost only supports max_cost_usd" [windowPrefix];
    match costUSDMicro (qw_MaxCostUSD window) with
    | Err e => Err (CfgError "%s.max_cost_usd %v" [windowPrefix; cost_message e])
    | Ok _ => Ok tt
    end
  else Err (CfgError "%s.type %q is unsupported" [windowPrefix; qw_Type window]).

Definition validate_window (prefix : string) (seen : gset string) (iw : nat * QuotaWindowConfig)
    : result configError (gset string) :=
  let '(i, window) := iw in
  let windowPrefix := prefix +:+ ".windows[" +:+ natoa i +:+ "]" in
  _ ← fail_if (qw_Name window == "") "%s.name is required" [windowPrefix];
  _ ← fail_if (duplicate (qw_Name window) seen) "%s.name duplicates %q" [windowPrefix; qw_Name window];
  _ ← fail_if (DurationOf (qw_Duration window) <=? 0) "%s.duration must be a positive duration" [windowPrefix];
  _ ← validate_window_amounts windowPrefix window;
  Ok ({[ qw_Name window ]} ∪ seen).

Definition validateQuotaWindows (prefix : string) (windows : list QuotaWindowConfig)
    : result configError unit :=
  _ ← fail_if (length windows =? 0)%nat "%s.windows is required when quota is enabled" [prefix];
  _ ← fold_err (validate_window prefix) ∅ (imap pair windows);
  Ok tt.

Definition validateClientQuota (index : nat) (client : ClientSpec) : result configError unit :=
  if negb (cq_Enabled (cs_Quota client)) then Ok tt
  else validateQuotaWindows ("clients[" +:+ natoa index +:+ "].quota") (cq_Windows (cs_Quota client)).

Definition zero_fixed : QuotaFixedScheduleConfig := mkQuotaFixedScheduleConfig "" "" "" "" "".
Definition zero_reset_schedule : QuotaResetScheduleConfig := mkQuotaResetScheduleConfig "" "" "" "" "" "".

Section tzdb.
Context (tzdb : string -> option Location).

Definition validateWallClock (prefix value timezone : string) : result configError unit :=
  _ ← fail_if (value == "") "%s.time is required" [prefix];
  _ ← fail_if (negb (is_some (parse_clock_opt value))) "%s.time must use HH:MM[:SS]" [prefix];
  _ ← fail_if (timezone == "") "%s.timezone is required" [prefix];
  fail_if (negb (is_some (tzdb timezone))) "%s.timezone must be a valid IANA timezone" [prefix].

Definition validateFixedWindowSchedule (prefix : string) (window : OutboundQuotaWindowConfig)
    : result configError unit :=
  let fixed := oqw_Fixed window in
  _ ← fail_if (qf_Period fixed == "") "%s.fixed.period is required when reset=fixed" [prefix];
  if qf_Period fixed == "interval" then
    _ ← fail_if (DurationOf (oqw_Duration window) <=? 0)
          "%s.duration must be a positive duration when fixed.period=interval" [prefix];
    _ ← validateRFC3339Anchor (prefix +:+ ".fixed.anchor") (qf_Anchor fixed);
    fail_if ((qf_Time fixed != "") || (qf_Timezone fixed != "") || (qf_Weekday fixed != ""))
      "%s.fixed time, timezone, and weekday are not supported when period=interval" [prefix]
  else if qf_Period fixed == "daily" then
    _ ← fail_if ((oqw_Duration window != "") || (qf_Anchor fixed != "") || (qf_Weekday fixed != ""))
          "%s duration, fixed.anchor, and fixed.weekday are not supported when fixed.period=daily" [prefix];
    validateWallClock (prefix +:+ ".fixed") (qf_Time fixed) (qf_Timezone fixed)
  else if qf_Period fixed == "weekly" then
    _ ← fail_if ((oqw_Duration window != "") || (qf_Anchor fixed != ""))
          "%s duration and fixed.anchor are not supported when fixed.period=weekly" [prefix];
    _ ← validateWallClock (prefix +:+ ".fixed") (qf_Time fixed) (qf_Timezone fixed);
    fail_if (negb (validWeekday (qf_Weekday fixed))) "%s.fixed.weekday must be monday-sunday" [prefix]
  else Err (CfgError "%s.fixed.period %q is unsupported" [prefix; qf_Period fixed]).

Definition validateResetSchedule (prefix : string) (schedule : QuotaResetScheduleConfig)
    : result configError unit :=
  if qrs_Period schedule == "interval" then
    _ ← fail_if (DurationOf (qrs_Duration schedule) <=? 0)
          "%s.duration must be a positive duration when period=interval" [prefix];
    _ ← validateRFC3339Anchor (prefix +:+ ".anchor") (qrs_Anchor schedule);
    fail_if ((qrs_Time schedule != "") || (qrs_Timezone schedule != "") || (qrs_Weekday schedule != ""))
      "%s time, timezone, and weekday are not supported when period=interval" [prefix]
  else if qrs_Period schedule == "daily" then
    _ ← fail_if ((qrs_Duration schedule != "") || (qrs_Anchor schedule != "") || (qrs_Weekday schedule != ""))
          "%s duration, anchor, and weekday are not supported when period=daily" [prefix];
    validateWallClock prefix (qrs_Time schedule) (qrs_Timezone schedule)
  else if qrs_Period schedule == "weekly" then
    _ ← fail_if ((qrs_Duration schedule != "") || (qrs_Anchor schedule != ""))
          "%s duration and anchor are not supported when period=weekly" [prefix];
    _ ← validateWallClock prefix (qrs_Time schedule) (qrs_Timezone schedule);
    fail_if (negb (validWeekday (qrs_Weekday schedule))) "%s.weekday must be monday-sunday" [prefix]
  else Err (CfgError "%s.period %q is unsupported" [prefix; qrs_Period schedule]).

Definition validate_outbound_window (prefix : string) (seen : gset string)
    (iw : nat * OutboundQuotaWindowConfig) : result configError (gset string) :=
  let '(i, window) := iw in
  let windowPrefix := prefix +:+ ".windows[" +:+ natoa i +:+ "]" in
  _ ← fail_if (oqw_Name window == "") "%s.name is required" [windowPrefix];
  _ ← fail_if (duplicate (oqw_Name window) seen) "%s.name duplicates %q" [windowPrefix; oqw_Name window];
  _ ← fail_if (oqw_MaxRequests window <? 0)
        "%s.max_requests must be greater than or equal to 0" [windowPrefix];
  _ ← fail_if (oqw_MaxTokens window <? 0) "%s.max_tokens must be greater than or equal to 0" [windowPrefix];
  _ ← fail_if ((oqw_MaxRequests window =? 0) && (oqw_MaxTokens window =? 0))
        "%s requires max_requests or max_tokens greater than 0" [windowPrefix];
  _ ← (if oqw_Reset window == "rolling" then
         _ ← fail_if (DurationOf (oqw_Duration window) <=? 0)
               "%s.duration must be a positive duration when reset=rolling" [windowPrefix];
         fail_if (negb (bool_decide (oqw_Fixed window = zero_fixed)))
           "%s.fixed is only supported when reset=fixed" [windowPrefix]
       else if oqw_Reset window == "fixed" then validateFixedWindowSchedule windowPrefix window
       else Err (CfgError "%s.reset %q is unsupported" [windowPrefix; oqw_Reset window]));
  Ok ({[ oqw_Name window ]} ∪ seen).

Definition validateOutboundQuotaWindows (prefix : string) (windows : list OutboundQuotaWindowConfig)
    : result configError unit :=
  _ ← fail_if (length windows =? 0)%nat "%s.windows is required when quota is enabled" [prefix];
  _ ← fold_err (validate_outbound_window prefix) ∅ (imap pair windows);
  Ok tt.

Definition validateOutboundQuota (outbound : OutboundSpec) : result configError unit :=
  let quota := ob_Quota outbound in
  if negb (oq_Enabled quota) then Ok tt else
  let prefix := "outbounds." +:+ ob_Name outbound +:+ ".quota" in
  _ ← validateOutboundQuotaWindows prefix (oq_Windows quota);
  _ ← fail_if (DurationOf (oq_Cooldown quota) <=? 0)
        "outbounds.%s.quota.cooldown must be a positive duration" [ob_Name outbound];
  _ ← fail_if (DurationOf (oq_ProbeInterval quota) <=? 0)
        "outbounds.%s.quota.probe_interval must be a positive duration" [ob_Name outbound];
  if qra_Enabled (oq_ResetAll quota) ||
     negb (bool_decide (qra_Schedule (oq_ResetAll quota) = zero_reset_schedule))
  then validateResetSchedule (prefix +:+ ".reset_all.schedule") (qra_Schedule (oq_ResetAll quota))
  else Ok tt.
End tzdb.

(** ** Outbounds *)

Definition validateOutboundAuth (outbound : OutboundSpec) : result configError unit :=
  let authType := TrimSpace (oa_Type (ob_Auth outbound)) in
  let credentialRef := TrimSpace (oa_CredentialRef (ob_Auth outbound)) in
  if authType == "" then
    fail_if (credentialRef != "") "outbounds.%s.auth.credential_ref requires auth.type" [ob_Name outbound]
  else
    _ ← fail_if (ob_AuthToken outbound != "") "outbounds.%s.auth cannot be used with auth_token" [ob_Name outbound];
    _ ← fail_if (credentialRef == "") "outbounds.%s.auth.credential_ref is required" [ob_Name outbound];
    _ ← fail_if (ContainsAny credentialRef ["/"; "\"]%char || (TrimSpace credentialRef != credentialRef))
          "outbounds.%s.auth.credential_ref is invalid" [ob_Name outbound];
    _ ← (if authType == "claude_consumer_oauth" then
           fail_if (ob_Protocol outbound != "anthropic_messages")
             "outbounds.%s.auth.type claude_consumer_oauth requires anthropic_messages" [ob_Name outbound]
         else if authType == "codex_consumer_oauth" then
           fail_if (ob_Protocol outbound != "openai_responses")
             "outbounds.%s.auth.type codex_consumer_oauth requires openai_responses" [ob_Name outbound]
         else Err (CfgError "outbounds.%s.auth.type %q is unsupported" [ob_Name outbound; authType]));
    fail_if (ob_Endpoint outbound != "")
      "outbounds.%s.endpoint must be empty for OAuth consumer compatibility" [ob_Name outbound].

(** [value == "" || strings.TrimSpace(value) != value] *)
Definition untrimmed (value : string) : bool := (value == "") || (TrimSpace value != value).

(** [seen] tells where each name or alias of an outbound's models is declared. *)
Definition validate_alias (prefix : string) (seen : gmap string string) (ja : nat * string)
    : result configError (gmap string string) :=
  let '(j, alias) := ja in
  let field := prefix +:+ ".aliases[" +:+ natoa j +:+ "]" in
  _ ← fail_if (untrimmed alias) "%s must be non-empty and trimmed" [field];
  match seen !! alias with
  | Some owner => Err (CfgError "%s %q conflicts with %s" [field; alias; owner])
  | None => Ok (<[alias := field]> seen)
  end.

Definition validate_model (outbound : string) (seen : gmap string string) (im : nat * OutboundModelSpec)
    : result configError (gmap string string) :=
  let '(i, model) := im in
  let prefix := "outbounds." +:+ outbound +:+ ".models[" +:+ natoa i +:+ "]" in
  _ ← fail_if (untrimmed (om_Name model)) "%s.name must be non-empty and trimmed" [prefix];
  match seen !! om_Name model with
  | Some owner => Err (CfgError "%s.name %q conflicts with %s" [prefix; om_Name model; owner])
  | None =>
      fold_err (validate_alias prefix) (<[om_Name model := prefix +:+ ".name"]> seen)
        (imap pair (om_Aliases model))
  end.

Definition validateOutboundModels (outbound : OutboundSpec) : result configError unit :=
  _ ← fold_err (validate_model (ob_Name outbound)) ∅ (imap pair (ob_Models outbound));
  Ok tt.

(** The two switches on the protocol *)
Definition validate_endpoint (outbound : OutboundSpec) : result configError unit :=
  if bool_decide (ob_Protocol outbound ∈ ["openai_chat"; "openai_responses"; "anthropic_messages"]) then
    if (oa_Type (ob_Auth outbound) == "claude_consumer_oauth") ||
       (oa_Type (ob_Auth outbound) == "codex_consumer_oauth") then Ok tt else
    _ ← fail_if (ob_Endpoint outbound == "") "outbounds.%s.endpoint is required" [ob_Name outbound];
    fail_if (ob_AuthToken outbound == "") "outbounds.%s.auth_token is required" [ob_Name outbound]
  else Ok tt.

Definition zero_capabilities : OutboundCapabilities := mkOutboundCapabilities None None None None false "".

Definition validate_capabilities (outbound : OutboundSpec) : result configError unit :=
  let cap := ob_Capabilities outbound in
  let name := ob_Name outbound in
  _ ← (if (ob_Protocol outbound == "openai_chat") || (ob_Protocol outbound == "anthropic_messages") then
         fail_if (is_some (cap_ResponsesPreviousResponseID cap) || is_some (cap_ResponsesBuiltinTools cap) ||
                  is_some (cap_ResponsesToolResultStatusError cap) ||
                  is_some (cap_ResponsesAssistantHistoryNative cap))
           "outbounds.%s.responses capabilities are only supported for openai_responses" [name]
       else if ob_Protocol outbound == "mock" then
         fail_if (negb (bool_decide (cap = zero_capabilities)))
           "outbounds.%s.capabilities is unsupported for mock" [name]
       else Ok tt);
  _ ← fail_if ((cap_UsageEstimationMode cap != "") && negb (cap_UsageEstimation cap))
        "outbounds.%s.usage_estimation_mode requires usage_estimation=true" [name];
  if negb (cap_UsageEstimation cap) then Ok tt else
  _ ← fail_if ((ob_Protocol outbound != "openai_chat") && (ob_Protocol outbound != "anthropic_messages"))
        "outbounds.%s.usage_estimation is only supported for openai_chat and anthropic_messages" [name];
  _ ← fail_if (cap_UsageEstimationMode cap == "")
        "outbounds.%s.usage_estimation_mode is required when usage_estimation is enabled" [name];
  fail_if (cap_UsageEstimationMode cap != "heuristic")
    "outbounds.%s.usage_estimation_mode %q is unsupported" [name; cap_UsageEstimationMode cap].

(** ** Clients, inbounds, listeners and accounting *)

Definition validate_client (names_tokens : gset string * gmap string string) (ic : nat * ClientSpec)
    : result configError (gset string * gmap string string) :=
  let '(clientNames, tokens) := names_tokens in
  let '(index, client) := ic in
  _ ← fail_if (cs_Name client == "") "clients[%d].name is required" [natoa index];
  _ ← fail_if (cs_Token client == "") "clients[%d].token is required" [natoa index];
  _ ← fail_if (duplicate (cs_Name client) clientNames) "clients[%d].name duplicates %q" [natoa index; cs_Name client];
  _ ← match tokens !! cs_Token client with
      | Some owner => Err (CfgError "clients[%d].token duplicates token used by %s" [natoa index; owner])
      | None => Ok tt
      end;
  _ ← validateClientQuota index client;
  Ok ({[ cs_Name client ]} ∪ clientNames, <[cs_Token client := cs_Name client]> tokens).

Definition validate_binding (inbound : string) (clientNames : gset string) (bindingRefs : gset string)
    (ib : nat * ClientBindingSpec) : result configError (gset string) :=
  let '(index, binding) := ib in
  _ ← fail_if (cb_Ref binding == "") "inbounds.%s.clients[%d].ref is required" [inbound; natoa index];
  _ ← fail_if (cb_Tag binding == "") "inbounds.%s.clients[%d].tag is required" [inbound; natoa index];
  _ ← fail_if (negb (bool_decide (cb_Ref binding ∈ clientNames)))
        "inbounds.%s.clients[%d].ref %q not found in clients" [inbound; natoa index; cb_Ref binding];
  _ ← fail_if (duplicate (cb_Ref binding) bindingRefs)
        "inbounds.%s.clients[%d].ref duplicates %q" [inbound; natoa index; cb_Ref binding];
  Ok ({[ cb_Ref binding ]} ∪ bindingRefs).

Definition validate_inbound (clientNames : gset string) (inputNames : gset string) (inbound : InboundSpec)
    : result configError (gset string) :=
  let name := in_Name inbound in
  _ ← fail_if (name == "") "inbounds.name is required" [];
  _ ← fail_if (in_Protocol inbound == "") "inbounds.%s.protocol is required" [name];
  _ ← fail_if (negb (IsSupportedInbound (in_Protocol inbound)))
        "inbounds.%s.protocol %q is unsupported" [name; in_Protocol inbound];
  _ ← fail_if (in_Path inbound == "") "inbounds.%s.path is required" [name];
  _ ← fold_err (validate_binding name clientNames) ∅ (imap pair (in_Clients inbound));
  Ok ({[ name ]} ∪ inputNames).

Definition validate_listener (inputNames : gset string) (listener : ListenerSpec) : result configError unit :=
  _ ← fail_if (ls_Name listener == "") "listeners.name is required" [];
  _ ← fail_if (ls_Listen listener == "") "listeners.%s.listen is required" [ls_Name listener];
  _ ← fail_if (length (ls_Inbounds listener) =? 0)%nat "listeners.%s.inbounds is required" [ls_Name listener];
  for_each (fun inboundName =>
    fail_if (negb (bool_decide (inboundName ∈ inputNames)))
      "listeners.%s.inbound %q not found in inbounds" [ls_Name listener; inboundName]) (ls_Inbounds listener).

Definition validate_accounting (accounting : AccountingConfig) : result configError unit :=
  if negb (acc_Enabled accounting) then Ok tt else
  let backend := or_default (acc_Backend accounting) "memory" in
  _ ← (if backend == "memory" then Ok tt
       else if backend == "local_file" then validateAccountingLocalFile (acc_LocalFile accounting)
       else Err (CfgError "accounting.backend %q is unsupported" [backend]));
  _ ← fail_if (acc_ExposeHTTP accounting && (acc_AdminToken accounting == ""))
        "accounting.admin_token is required when accounting.expose_http is enabled" [];
  validateAccountingPricing (acc_Pricing accounting).

Definition validate_sessions (c : Config) : result configError unit :=
  let snapshot := sess_Snapshot (cfg_Sessions c) in
  if negb (EnabledEffective snapshot) then Ok tt else
  _ ← fail_if (TrimSpace (ss_Dir snapshot) == "") "sessions.snapshot.dir is required" [];
  fail_if (DurationOf (ss_FlushInterval snapshot) <=? 0) "sessions.snapshot.flush_interval must be positive" [].

(** ** Routing rules *)

(** [strings.IndexFunc(s, unicode.IsControl) >= 0]: the control characters are U+0000
    to U+001F and U+007F, one byte in UTF-8, and U+0080 to U+009F, the byte C2 and the
    last byte. *)
Fixpoint has_control (s : string) : bool :=
  match s with
  | EmptyString => false
  | String c rest =>
      let n := N_of_ascii c in
      (n <? 32)%N || (n =? 127)%N ||
      ((n =? 194)%N && match rest with
                       | String d _ => (128 <=? N_of_ascii d)%N && (N_of_ascii d <=? 159)%N
                       | EmptyString => false
                       end) ||
      has_control rest
  end.

Definition validate_pattern (i : nat) (seenPatterns : gset string) (jp : nat * string)
    : result configError (gset string) :=
  let '(j, pattern) := jp in
  let field := "routing.rules[" +:+ natoa i +:+ "].match.models[" +:+ natoa j +:+ "]" in
  _ ← fail_if (pattern == "") "%s must not be empty" [field];
  _ ← fail_if (TrimSpace pattern != pattern) "%s must not have leading or trailing whitespace" [field];
  _ ← fail_if (has_control pattern) "%s must not contain control characters" [field];
  _ ← fail_if (duplicate pattern seenPatterns) "%s duplicates pattern %q" [field; pattern];
  Ok ({[ pattern ]} ∪ seenPatterns).

Definition validate_match (i : nat) (m : option RoutingRuleMatch) : result configError unit :=
  match m with
  | None => Ok tt
  | Some m =>
      _ ← fail_if (length (rm_Models m) =? 0)%nat
            "routing.rules[%d].match.models must contain at least one pattern" [natoa i];
      _ ← fold_err (validate_pattern i) ∅ (imap pair (rm_Models m));
      Ok tt
  end.

Definition validate_weights (i : nat) (rule : RoutingRule) : result configError unit :=
  if rr_Strategy rule == RoutingStrategyWeightedRoundRobin then
    _ ← fail_if (size (rr_Weights rule) =? 0)%nat
          "routing.rules[%d].weights is required when strategy=weighted_round_robin" [natoa i];
    _ ← for_each (fun tag =>
          match rr_Weights rule !! tag with
          | None => Err (CfgError "routing.rules[%d].weights.%s is required" [natoa i; tag])
          | Some weight =>
              fail_if (weight <=? 0) "routing.rules[%d].weights.%s must be greater than 0" [natoa i; tag]
          end) (rr_ToTags rule);
    for_each (fun tw =>
      fail_if (negb (bool_decide (tw.1 ∈ rr_ToTags rule)))
        "routing.rules[%d].weights.%s does not match any to_tags entry" [natoa i; tw.1])
      (map_to_list (rr_Weights rule))
  else
    fail_if (0 <? size (rr_Weights rule))%nat
      "routing.rules[%d].weights is only supported when strategy=weighted_round_robin" [natoa i].

Definition validate_rule (outboundTags : gset string) (i : nat) (rule : RoutingRule) : result configError unit :=
  _ ← fail_if (length (rr_FromTags rule) =? 0)%nat "routing.rules[%d].from_tags is required" [natoa i];
  _ ← validate_match i (rr_Match rule);
  _ ← fail_if (length (rr_ToTags rule) =? 0)%nat "routing.rules[%d].to_tags is required" [natoa i];
  _ ← fail_if (rr_Strategy rule == "") "routing.rules[%d].strategy is required" [natoa i];
  _ ← fail_if ((rr_Strategy rule != RoutingStrategyFailover) && (rr_Strategy rule != RoutingStrategyRoundRobin) &&
               (rr_Strategy rule != RoutingStrategyWeightedRoundRobin))
        "routing.rules[%d].strategy %q is unsupported" [natoa i; rr_Strategy rule];
  _ ← for_each (fun tag =>
        fail_if (negb (bool_decide (tag ∈ outboundTags)))
          "routing.rules[%d].to_tags %q not found in outbounds" [natoa i; tag]) (rr_ToTags rule);
  _ ← fail_if ((rr_TargetModel rule != "") && (0 <? size (rr_ModelMap rule))%nat)
        "routing.rules[%d].model_map cannot be used with target_model" [natoa i];
  _ ← for_each (fun ft =>
        _ ← fail_if (ft.1 == "") "routing.rules[%d].model_map contains empty source model" [natoa i];
        fail_if (ft.2 == "") "routing.rules[%d].model_map.%s must not be empty" [natoa i; ft.1])
        (map_to_list (rr_ModelMap rule));
  validate_weights i rule.

(** ** The whole configuration *)

Section validate.
Context (tzdb : string -> option Location).
(** [url.Parse]: the scheme and the host of the URL, or the error *)
Context (ParseURL : string -> option (string * string)).

Definition validateOutboundProxy (outbound : OutboundSpec) : result configError unit :=
  let proxyURL := TrimSpace (op_URL (ob_Proxy outbound)) in
  if proxyURL == "" then Ok tt else
  match ParseURL proxyURL with
  | None => Err (CfgError "outbounds.%s.proxy.url is invalid: %w" [ob_Name outbound])
  | Some (scheme, host) =>
      _ ← fail_if (host == "") "outbounds.%s.proxy.url host is required" [ob_Name outbound];
      fail_if (negb (bool_decide (scheme ∈ ["http"; "https"; "socks5"])))
        "outbounds.%s.proxy.url has unsupported scheme %q" [ob_Name outbound; scheme]
  end.

Definition validate_outbound (outboundTags : gset string) (outbound : OutboundSpec)
    : result configError (gset string) :=
  let name := ob_Name outbound in
  _ ← fail_if (name == "") "outbounds.name is required" [];
  _ ← fail_if (ob_Protocol outbound == "") "outbounds.%s.protocol is required" [name];
  _ ← fail_if (negb (IsSupportedOutbound (ob_Protocol outbound)))
        "outbounds.%s.protocol %q is unsupported" [name; ob_Protocol outbound];
  _ ← fail_if (ob_Tag outbound == "") "outbounds.%s.tag is required" [name];
  _ ← validateOutboundAuth outbound;
  _ ← validate_endpoint outbound;
  _ ← validate_capabilities outbound;
  _ ← validateOutboundModels outbound;
  _ ← validateOutboundProxy outbound;
  _ ← validateOutboundQuota tzdb outbound;
  Ok ({[ ob_Tag outbound ]} ∪ outboundTags).

(** The checks, on a configuration with its defaults *)
Definition validate (c : Config) : result configError unit :=
  _ ← validate_sessions c;
  _ ← fail_if (length (ListenAddresses c) =? 0)%nat "server.listen or listeners is required" [];
  _ ← fail_if (length (cfg_Outbounds c) =? 0)%nat "at least one outbound is required" [];
  _ ← fail_if (length (rt_Rules (cfg_Routing c)) =? 0)%nat "at least one routing rule is required" [];
  '(clientNames, tokens) ← fold_err validate_client (∅, ∅) (imap pair (cfg_Clients c));
  inputNames ← fold_err (validate_inbound clientNames) ∅ (cfg_Inbounds c);
  _ ← fail_if ((0 <? length (cfg_Listeners c))%nat && (length (cfg_Inbounds c) =? 0)%nat)
        "at least one inbound is required when listeners are configured" [];
  _ ← for_each (validate_listener inputNames) (cfg_Listeners c);
  _ ← validateAdmin (cfg_Admin c) tokens (cfg_Accounting c);
  _ ← validate_accounting (cfg_Accounting c);
  _ ← validateGovernance (cfg_Governance c);
  outboundTags ← fold_err validate_outbound ∅ (cfg_Outbounds c);
  for_eachi (validate_rule outboundTags) 0%nat (rt_Rules (cfg_Routing c)).

(** The error, and the caller's configuration after the call *)
Definition Validate (c : Config) : result configError unit * Config :=
  (validate (applyDefaults c), window_defaults c).
End validate.
