(* ===== verification/ConfigFacts.v ===== *)
(** * What validation promises

    A configuration that [Validate] accepts gives the router, the quota trackers and
    the gateway the input they need: the router can be built, every alias of a model
    resolves to its model, every quota window limits something, every binding and
    every listener refers to something declared. *)

From S2P Require Import Prelude GoStrings GoTime GoTimeFacts GoStrconv RuntimeModel ConfigTypes Money QuotaWindow QuotaTracker Router ConfigValidate.

(** ** Lemmas on validators *)

Lemma fail_if_Ok c format args u : fail_if c format args = Ok u -> c = false.
Proof. by destruct c. Qed.

(** Takes apart a sequence of checks that succeeded. *)
Ltac validated H :=
  repeat match type of H with
  | (_ ≫= _) = Ok _ =>
      let u := fresh "u" in let H1 := fresh "Hv" in
      apply bind_Ok in H as (u & H1 & H); try (apply fail_if_Ok in H1)
  | fail_if _ _ _ = Ok _ => apply fail_if_Ok in H
  end;
  repeat match goal with u : unit |- _ => destruct u end.

Lemma map_snd_imap {A} (l : list A) : map snd (imap pair l) = l.
Proof.
  apply list_eq. intros i. change (map snd (imap pair l)) with (snd <$> imap pair l).
  rewrite list_lookup_fmap, list_lookup_imap. by destruct (l !! i).
Qed.

Lemma map_name_imap {A} (name : A -> string) (l : list A) :
  map (fun ix => name ix.2) (imap pair l) = map name l.
Proof. rewrite <- (map_snd_imap l) at 2. by rewrite map_map. Qed.

Lemma Forall_imap {A} (P : A -> Prop) (l : list A) : Forall (fun ix => P ix.2) (imap pair l) -> Forall P l.
Proof. intros H. rewrite <- (map_snd_imap l). by apply Forall_map. Qed.

(** A loop that collects the names of the elements it accepts; [distinct] when it also
    rejects a name it has seen. *)
Lemma fold_err_names {E A} (distinct : Prop) (f : gset string -> A -> result E (gset string))
    (name : A -> string) (P : A -> Prop) l names :
  (forall seen x seen', f seen x = Ok seen' ->
     (distinct -> name x ∉ seen) /\ P x /\ seen' = {[ name x ]} ∪ seen) ->
  fold_err f ∅ l = Ok names ->
  (distinct -> NoDup (map name l)) /\ Forall P l /\ (forall n, n ∈ names <-> n ∈ map name l).
Proof.
  intros Hf. apply (fold_err_inv f (fun done names =>
    (distinct -> NoDup (map name done)) /\ Forall P done /\ forall n, n ∈ names <-> n ∈ map name done)).
  - split; [intros; constructor|]. split; [constructor|]. intros n. cbn. set_solver.
  - intros done x seen seen' (Hn & HP & Hs) Hx. apply Hf in Hx as (Hx & HPx & ->). rewrite map_app. cbn.
    split; [|split].
    + intros Hd. apply NoDup_app. split; [by apply Hn|]. split; [|apply NoDup_singleton].
      intros n Hin ->%list_elem_of_singleton. by apply (Hx Hd), Hs.
    + apply Forall_app. by split; [|constructor].
    + intros n. rewrite elem_of_union, elem_of_singleton, elem_of_app, list_elem_of_singleton, Hs. tauto.
Qed.

Lemma duplicate_false name seen : duplicate name seen = false -> name ∉ seen.
Proof. unfold duplicate. by rewrite bool_decide_eq_false. Qed.

(** ** The parts of a validated configuration *)

Lemma Validate_inv tzdb ParseURL c c' :
  Validate tzdb ParseURL c = (Ok tt, c') ->
  exists names tokens inputs tags,
    fold_err validate_client (∅, ∅) (imap pair (cfg_Clients c')) = Ok (names, tokens) /\
    fold_err (validate_inbound names) ∅ (cfg_Inbounds c') = Ok inputs /\
    Forall (fun l => validate_listener inputs l = Ok tt) (cfg_Listeners c') /\
    validateAdmin (cfg_Admin (applyDefaults c)) tokens (cfg_Accounting c') = Ok tt /\
    fold_err (validate_outbound tzdb ParseURL) ∅ (cfg_Outbounds c') = Ok tags /\
    (forall i rule, rt_Rules (cfg_Routing c') !! i = Some rule -> validate_rule tags i rule = Ok tt).
Proof.
  intros H. injection H as H <-. unfold validate in H.
  do 4 (apply bind_Ok in H as (? & _ & H)). apply bind_Ok in H as ([names tokens] & Hc & H).
  apply bind_Ok in H as (inputs & Hi & H). apply bind_Ok in H as (? & _ & H).
  apply bind_Ok in H as ([] & Hl & H). apply bind_Ok in H as ([] & Ha & H).
  do 2 (apply bind_Ok in H as (? & _ & H)). apply bind_Ok in H as (tags & Ho & H).
  exists names, tokens, inputs, tags. split; [exact Hc|]. split; [exact Hi|].
  split; [by apply for_each_Ok|]. split; [exact Ha|]. split; [exact Ho|].
  intros i rule Hr. by apply (proj1 (for_eachi_Ok _ _ _) H i).
Qed.

(** *** Clients *)

Record clients_ok (clients : list ClientSpec) (names : gset string) (tokens : gmap string string) : Prop := {
  ck_names : NoDup (map cs_Name clients);
  ck_tokens : NoDup (map cs_Token clients);
  ck_known n : n ∈ names <-> n ∈ map cs_Name clients;
  ck_owned t : is_Some (tokens !! t) <-> t ∈ map cs_Token clients;
  ck_each : Forall (fun c => cs_Name c <> "" /\ cs_Token c <> "" /\ exists i, validateClientQuota i c = Ok tt) clients
}.

Lemma NoDup_snoc {A} (l : list A) x : NoDup l -> x ∉ l -> NoDup (l ++ [x]).
Proof.
  intros Hl Hx. apply NoDup_app. split; [done|]. split; [|apply NoDup_singleton].
  by intros y Hy ->%list_elem_of_singleton.
Qed.

Lemma validate_client_inv names tokens i c names' tokens' :
  validate_client (names, tokens) (i, c) = Ok (names', tokens') ->
  cs_Name c <> "" /\ cs_Token c <> "" /\ ~ cs_Name c ∈ names /\ (tokens !! cs_Token c) = None /\
  validateClientQuota i c = Ok tt /\ names' = {[ cs_Name c ]} ∪ names /\
  tokens' = <[cs_Token c := cs_Name c]> tokens.
Proof.
  unfold validate_client. intros H. validated H. simplify_eq.
  destruct (tokens !! cs_Token c) eqn:E; [done|]. breflect.
  by apply duplicate_false in Hv1.
Qed.

Lemma validate_clients_ok clients names tokens :
  fold_err validate_client (∅, ∅) (imap pair clients) = Ok (names, tokens) ->
  clients_ok clients names tokens.
Proof.
  intros H. rewrite <- (map_snd_imap clients).
  apply (fold_err_inv validate_client (fun done st => clients_ok (map snd done) st.1 st.2)) in H; [done|..].
  - split; cbn; [constructor..|set_solver|intros t; rewrite lookup_empty; split|constructor].
    + by intros [].
    + intros []%elem_of_nil.
  - intros done [i c] [ns ts] [ns' ts'] Hok Hc. cbn in *.
    apply validate_client_inv in Hc as (Hn & Ht & Hnew & Hfree & Hq & -> & ->).
    rewrite map_app. destruct Hok as [Hnames Htokens Hknown Howned Heach].
    split; rewrite ?map_app; cbn.
    + apply NoDup_snoc; [done|]. by rewrite <- Hknown.
    + apply NoDup_snoc; [done|]. rewrite <- Howned, Hfree. by intros [].
    + intros n. rewrite elem_of_union, elem_of_singleton, elem_of_app, list_elem_of_singleton, Hknown. tauto.
    + intros t. rewrite elem_of_app, list_elem_of_singleton, <- Howned, lookup_insert_is_Some.
      destruct (decide (cs_Token c = t)); naive_solver.
    + apply Forall_app. split; [done|]. repeat constructor; eauto.
Qed.

(** *** Inbounds *)

Definition inbound_ok (names : gset string) (inbound : InboundSpec) : Prop :=
  in_Name inbound <> "" /\ IsSupportedInbound (in_Protocol inbound) = true /\
  NoDup (map cb_Ref (in_Clients inbound)) /\
  Forall (fun b => cb_Ref b ∈ names /\ cb_Tag b <> "") (in_Clients inbound).

Lemma validate_bindings_ok inbound names bindings refs :
  fold_err (validate_binding inbound names) ∅ (imap pair bindings) = Ok refs ->
  NoDup (map cb_Ref bindings) /\ Forall (fun b => cb_Ref b ∈ names /\ cb_Tag b <> "") bindings.
Proof.
  intros H. apply (fold_err_names True _ (fun ib => cb_Ref ib.2)
    (fun ib => cb_Ref ib.2 ∈ names /\ cb_Tag ib.2 <> "")) in H as (Hn & Hf & _).
  - rewrite map_name_imap in Hn.
    split; [by apply Hn|]. by apply (Forall_imap (fun b => cb_Ref b ∈ names /\ cb_Tag b <> "")).
  - intros seen [i b] seen' Hb. unfold validate_binding in Hb. validated Hb. simplify_eq. breflect.
    apply duplicate_false in Hv2. by apply bool_decide_eq_true in Hv1.
Qed.

Lemma validate_inbounds_ok names inbounds inputs :
  fold_err (validate_inbound names) ∅ inbounds = Ok inputs ->
  Forall (inbound_ok names) inbounds /\ forall n, n ∈ inputs <-> n ∈ map in_Name inbounds.
Proof.
  intros H. apply (fold_err_names False _ in_Name (inbound_ok names)) in H; [by destruct H as (_ & ? & ?)|].
  intros seen inbound seen' Hi. unfold validate_inbound in Hi. validated Hi. simplify_eq. breflect.
  apply validate_bindings_ok in Hv3 as [Hnd Hall]. by repeat split.
Qed.

(** *** Outbounds and rules *)

Lemma validate_outbounds_each tzdb ParseURL outbounds tags :
  fold_err (validate_outbound tzdb ParseURL) ∅ outbounds = Ok tags ->
  Forall (fun o => exists seen seen', validate_outbound tzdb ParseURL seen o = Ok seen') outbounds /\
  forall tag, tag ∈ tags <-> tag ∈ map ob_Tag outbounds.
Proof.
  intros H. apply (fold_err_names False _ ob_Tag
    (fun o => exists seen seen', validate_outbound tzdb ParseURL seen o = Ok seen')) in H;
    [by destruct H as (_ & ? & ?)|].
  intros seen o seen' Ho. split; [done|]. split; [eauto|].
  unfold validate_outbound in Ho. validated Ho. by simplify_eq.
Qed.

Lemma validate_outbounds_ok tzdb ParseURL outbounds tags :
  fold_err (validate_outbound tzdb ParseURL) ∅ outbounds = Ok tags ->
  Forall (fun o => validateOutboundModels o = Ok tt /\ validateOutboundQuota tzdb o = Ok tt) outbounds /\
  forall tag, tag ∈ tags <-> tag ∈ map ob_Tag outbounds.
Proof.
  intros [Hall Htags]%validate_outbounds_each. split; [|done]. eapply Forall_impl; [exact Hall|].
  cbn. intros o (seen & seen' & Ho). unfold validate_outbound in Ho. by validated Ho.
Qed.

Lemma validate_patterns_ok i patterns seen :
  fold_err (validate_pattern i) ∅ (imap pair patterns) = Ok seen -> Forall (fun p => p <> "") patterns.
Proof.
  intros H. apply (fold_err_names False _ snd (fun jp => jp.2 <> "")) in H as (_ & Hf & _).
  - by apply (Forall_imap (fun p => p <> "")).
  - intros s [j p] s' Hp. unfold validate_pattern in Hp. validated Hp. simplify_eq. breflect. by cbn.
Qed.

Lemma validate_rule_ok tags i rule :
  validate_rule tags i rule = Ok tt ->
  weights_positive rule /\ rr_ToTags rule <> [] /\ Forall (fun tag => tag ∈ tags) (rr_ToTags rule) /\
  (forall m, rr_Match rule = Some m -> rm_Models m <> [] /\ Forall (fun p => p <> "") (rm_Models m)).
Proof.
  unfold validate_rule. intros H. validated H. split; [|split; [|split]].
  - intros Hs. unfold validate_weights in H. rewrite Hs in H. cbn in H. validated H.
    apply for_each_Ok in Hv8. eapply Forall_impl; [exact Hv8|]. cbn. intros tag Ht.
    destruct (rr_Weights rule !! tag); [|done]. apply fail_if_Ok in Ht. breflect. cbn. lia.
  - by intros E; rewrite E in Hv1.
  - apply for_each_Ok in Hv4. eapply Forall_impl; [exact Hv4|]. cbn. intros tag Ht.
    apply fail_if_Ok in Ht. breflect. by apply bool_decide_eq_true in Ht.
  - intros m Hm. unfold validate_match in Hv0. rewrite Hm in Hv0. validated Hv0.
    split; [by intros E; rewrite E in Hv7|]. by eapply validate_patterns_ok.
Qed.

(** *** Models

    [declared models]: every name an outbound's models are asked for by, with the model
    it stands for *)
Definition keys_of (m : OutboundModelSpec) : list string := om_Name m :: om_Aliases m.
Definition declared (models : list OutboundModelSpec) : list (string * string) :=
  flat_map (fun m => map (fun alias => (alias, om_Name m)) (keys_of m)) models.

Lemma declared_keys models : map fst (declared models) = flat_map keys_of models.
Proof.
  unfold declared. induction models as [|m l IH]; cbn [flat_map]; [done|].
  rewrite map_app, IH, map_map. cbn [fst]. by rewrite map_id.
Qed.

(** The names seen so far are the keys of the map, and they are distinct. *)
Definition seen_ok (keys : list string) (seen : gmap string string) : Prop :=
  NoDup keys /\ forall k, is_Some (seen !! k) <-> k ∈ keys.

Lemma seen_ok_insert keys seen k field :
  seen_ok keys seen -> seen !! k = None -> seen_ok (keys ++ [k]) (<[k := field]> seen).
Proof.
  intros [Hnd Hk] Hnew. split.
  - apply NoDup_snoc; [done|]. rewrite <- Hk, Hnew. by intros [].
  - intros x. rewrite elem_of_app, list_elem_of_singleton, <- Hk, lookup_insert_is_Some.
    destruct (decide (k = x)); naive_solver.
Qed.

Lemma validate_aliases_ok prefix keys seen aliases seen' :
  seen_ok keys seen -> fold_err (validate_alias prefix) seen (imap pair aliases) = Ok seen' ->
  seen_ok (keys ++ aliases) seen'.
Proof.
  intros Hok H. rewrite <- (map_snd_imap aliases).
  apply (fold_err_inv (validate_alias prefix) (fun done s => seen_ok (keys ++ map snd done) s)) in H; [done|..].
  - cbn. by rewrite app_nil_r.
  - intros done [j a] s s' Hs Ha. unfold validate_alias in Ha. validated Ha.
    destruct (s !! a) eqn:E; simplify_eq. rewrite map_app, app_assoc. by apply seen_ok_insert.
Qed.

Lemma validate_models_ok o :
  validateOutboundModels o = Ok tt -> NoDup (flat_map keys_of (ob_Models o)).
Proof.
  unfold validateOutboundModels. intros (seen & H & _)%bind_Ok.
  rewrite <- (map_snd_imap (ob_Models o)).
  apply (fold_err_inv (validate_model (ob_Name o))
    (fun done s => seen_ok (flat_map keys_of (map snd done)) s)) in H; [by destruct H|..].
  - split; [constructor|]. intros k. rewrite lookup_empty. split; [by intros []|by intros []%elem_of_nil].
  - intros done [i m] s s' Hs Hm. unfold validate_model in Hm. validated Hm.
    destruct (s !! om_Name m) eqn:E; [done|]. rewrite map_app, flat_map_app. cbn. rewrite app_nil_r.
    rewrite (cons_middle (om_Name m) _ (om_Aliases m)), app_assoc.
    eapply validate_aliases_ok; [|exact Hm]. by apply seen_ok_insert.
Qed.

Lemma compileOutboundModels_declared models :
  models <> [] ->
  compileOutboundModels models = Some (foldl (fun r kn => <[kn.1 := kn.2]> r) ∅ (declared models)).
Proof.
  intros Hne. unfold compileOutboundModels. destruct models as [|m0 l0]; [done|]. f_equal.
  clear Hne. generalize (@empty (gmap string string) _) as r. generalize (m0 :: l0) as l. clear m0 l0.
  induction l as [|m l IH]; intros r; cbn; [done|]. rewrite IH, foldl_app. f_equal.
  generalize (<[om_Name m := om_Name m]> r) as r'. induction (om_Aliases m) as [|a al IHa]; intros r'; cbn; auto.
Qed.

Lemma foldl_insert_lookup (l : list (string * string)) k v (m : gmap string string) :
  NoDup (map fst l) -> (k, v) ∈ l -> foldl (fun r kn => <[kn.1 := kn.2]> r) m l !! k = Some v.
Proof.
  revert m. induction l as [|[a b] l IH]; intros m Hnd Hin; [by apply elem_of_nil in Hin|].
  cbn in Hnd |- *. apply NoDup_cons in Hnd as [Ha Hnd].
  apply elem_of_cons in Hin as [E|Hin]; [|by apply IH]. simplify_eq. clear IH Hnd.
  cut (foldl (fun r kn => <[kn.1 := kn.2]> r) (<[a := b]> m) l !! a = Some b); [done|].
  assert ((<[a := b]> m : gmap string string) !! a = Some b) as Hm by apply lookup_insert_eq.
  revert Hm. generalize (<[a := b]> m) as m'. induction l as [|[c d] l IH]; intros m' Hm; cbn; [done|].
  cbn in Ha. apply not_elem_of_cons in Ha as [Hne Ha]. apply IH; [done|]. by rewrite lookup_insert_ne.
Qed.

(** *** Quota windows *)

(** A window of a client as the quota tracker keeps it: it rolls over a positive
    duration and limits exactly what its type says. *)
Definition client_window_ok (w : windowState) : Prop :=
  ws_reset w = "rolling" /\ 0 < ws_duration w /\
  (ws_typeName w = "requests" /\ 0 < ws_maxRequests w /\ ws_maxTokens w = 0 /\ ws_maxCostMicroUSD w = 0 \/
   ws_typeName w = "tokens" /\ ws_maxRequests w = 0 /\ 0 < ws_maxTokens w /\ ws_maxCostMicroUSD w = 0 \/
   ws_typeName w = "cost" /\ ws_maxRequests w = 0 /\ ws_maxTokens w = 0 /\ 0 < ws_maxCostMicroUSD w).

Lemma costUSDMicro_positive text value : costUSDMicro text = Ok value -> 0 < value.
Proof. unfold costUSDMicro. intros H. repeat (case_match; try done); breflect; simplify_eq; lia. Qed.

Lemma validate_window_amounts_ok tzdb prefix w :
  0 < DurationOf (qw_Duration w) -> validate_window_amounts prefix w = Ok tt ->
  Forall client_window_ok (map (newWindowState tzdb) (normalizeClientWindows (clientWindowsFromConfig [w]))).
Proof.
  intros Hd H. constructor; [|constructor]. unfold validate_window_amounts in H.
  unfold client_window_ok, MaxCostMicroUSD. destruct w as [name ty d mr mt mc]. cbn in *.
  destruct (String.eqb_spec ty "requests") as [->|Hr].
  { cbn. validated H. breflect. subst. split; [done|]. split; [done|]. left. by repeat split. }
  destruct (String.eqb_spec ty "tokens") as [->|Ht].
  { cbn. validated H. breflect. subst. split; [done|]. split; [done|]. right; left. by repeat split. }
  destruct (String.eqb_spec ty "cost") as [->|Hc]; [|done].
  cbn. validated H. breflect. subst. split; [done|]. split; [done|]. right; right. repeat split.
  destruct (costUSDMicro mc) eqn:E; [|done]. by apply costUSDMicro_positive in E.
Qed.

Lemma validateQuotaWindows_ok tzdb prefix windows :
  validateQuotaWindows prefix windows = Ok tt ->
  windows <> [] /\ NoDup (map qw_Name windows) /\
  Forall client_window_ok (map (newWindowState tzdb) (normalizeClientWindows (clientWindowsFromConfig windows))).
Proof.
  unfold validateQuotaWindows. intros H. validated H. split; [by intros ->|].
  apply (fold_err_names True _ (fun iw => qw_Name iw.2) (fun iw =>
    Forall client_window_ok
      (map (newWindowState tzdb) (normalizeClientWindows (clientWindowsFromConfig [iw.2]))))) in Hv0
    as (Hn & Hf & _).
  - rewrite map_name_imap in Hn. split; [by apply Hn|].
    apply (Forall_imap (fun w => Forall client_window_ok
      (map (newWindowState tzdb) (normalizeClientWindows (clientWindowsFromConfig [w]))))) in Hf.
    unfold clientWindowsFromConfig, normalizeClientWindows in *. clear -Hf.
    induction Hf as [|w l Hw Hl IH]; [constructor|]. cbn in *. inversion Hw; subst. by constructor.
  - intros seen [i w] seen' Hw. unfold validate_window in Hw. validated Hw. simplify_eq. breflect.
    apply duplicate_false in Hv2. split; [done|]. split; [|done].
    by eapply validate_window_amounts_ok.
Qed.

(** The schedule of a fixed window or a reset, as the tracker keeps it: a period it
    knows, a positive duration or a zone from the database, a clock reading and a
    weekday of the week *)
Definition schedule_ok (tzdb : string -> option Location) (s : schedule) : Prop :=
  sc_period s = "interval" /\ 0 < sc_duration s \/
  (sc_period s = "daily" \/ sc_period s = "weekly") /\
  (exists zone, tzdb zone = sc_location s) /\ is_Some (sc_location s) /\
  is_Some (parse_clock_opt (sc_clock s)) /\ 0 <= sc_weekday s <= 6.

Lemma parseWeekday_range value : 0 <= parseWeekday value <= 6.
Proof.
  unfold parseWeekday. destruct (find _ _) as [d|] eqn:E; cbn; [|lia].
  apply find_some in E as [Hin _]. cbn in Hin. lia.
Qed.

Lemma validateWallClock_ok tzdb prefix value timezone :
  validateWallClock tzdb prefix value timezone = Ok tt ->
  timezone <> "" /\ is_Some (tzdb timezone) /\ is_Some (parse_clock_opt value).
Proof.
  unfold validateWallClock. intros H. validated H. breflect. unfold is_some in *.
  split; [done|]. by destruct (tzdb timezone), (parse_clock_opt value).
Qed.

Lemma newSchedule_ok tzdb period duration anchor clock timezone weekday prefix :
  (period = "daily" \/ period = "weekly") -> 0 <= weekday <= 6 ->
  validateWallClock tzdb prefix clock timezone = Ok tt ->
  schedule_ok tzdb (newSchedule tzdb period duration anchor clock timezone weekday).
Proof.
  intros Hp Hw (Hne & [loc Hz] & Hc)%validateWallClock_ok. right. cbn.
  apply String.eqb_neq in Hne. rewrite Hne. cbn. rewrite Hz. split; [done|].
  split; [by exists timezone|]. by split; [eexists|].
Qed.

(** A window of an outbound as the quota tracker keeps it *)
Definition outbound_window_ok (tzdb : string -> option Location) (w : windowState) : Prop :=
  0 <= ws_maxRequests w /\ 0 <= ws_maxTokens w /\ 0 < ws_maxRequests w + ws_maxTokens w /\
  (ws_reset w = "rolling" /\ 0 < ws_duration w \/ ws_reset w = "fixed" /\ schedule_ok tzdb (ws_fixed w)).

Lemma validateFixedWindowSchedule_ok tzdb prefix w :
  validateFixedWindowSchedule tzdb prefix w = Ok tt ->
  let f := oqw_Fixed w in
  schedule_ok tzdb (newSchedule tzdb (qf_Period f) (DurationOf (oqw_Duration w))
    (parseConfigTime (qf_Anchor f)) (qf_Time f) (qf_Timezone f) (parseWeekday (qf_Weekday f))).
Proof.
  unfold validateFixedWindowSchedule. intros H. apply bind_Ok in H as (? & _ & H).
  set (f := oqw_Fixed w) in *.
  destruct (String.eqb_spec (qf_Period f) "interval") as [->|_].
  { validated H. breflect. by left. }
  destruct (String.eqb_spec (qf_Period f) "daily") as [->|_].
  { validated H. eapply newSchedule_ok; [by left|apply parseWeekday_range|done]. }
  destruct (String.eqb_spec (qf_Period f) "weekly") as [->|_]; [|done].
  validated H. eapply newSchedule_ok; [by right|apply parseWeekday_range|done].
Qed.

Lemma validateResetSchedule_ok tzdb prefix (r : QuotaResetAllConfig) :
  validateResetSchedule tzdb prefix (qra_Schedule r) = Ok tt -> qra_Enabled r = true ->
  schedule_ok tzdb (newResetSchedule tzdb (resetAllFromConfig r)).
Proof.
  unfold validateResetSchedule, newResetSchedule. intros H Hen. cbn. rewrite Hen. cbn.
  set (s := qra_Schedule r) in *.
  destruct (String.eqb_spec (qrs_Period s) "interval") as [->|_].
  { validated H. breflect. by left. }
  destruct (String.eqb_spec (qrs_Period s) "daily") as [->|_].
  { validated H. eapply newSchedule_ok; [by left|apply parseWeekday_range|done]. }
  destruct (String.eqb_spec (qrs_Period s) "weekly") as [->|_]; [|done].
  validated H. eapply newSchedule_ok; [by right|apply parseWeekday_range|done].
Qed.

Lemma validate_outbound_window_ok tzdb prefix seen i w seen' :
  validate_outbound_window tzdb prefix seen (i, w) = Ok seen' ->
  ~ oqw_Name w ∈ seen /\ seen' = {[ oqw_Name w ]} ∪ seen /\
  Forall (outbound_window_ok tzdb) (map (newWindowState tzdb) (outboundWindowsFromConfig [w])).
Proof.
  unfold validate_outbound_window. intros H. validated H. simplify_eq. breflect.
  apply duplicate_false in Hv0. split; [done|]. split; [done|]. constructor; [|constructor].
  unfold outbound_window_ok, newWindowState. cbn.
  split; [lia|]. split; [lia|]. split; [apply andb_false_iff in Hv3 as []; breflect; lia|].
  destruct (String.eqb_spec (oqw_Reset w) "rolling") as [->|_].
  { cbn. validated Hv4. breflect. by left. }
  destruct (String.eqb_spec (oqw_Reset w) "fixed") as [->|_]; [|done].
  right. split; [done|]. by eapply validateFixedWindowSchedule_ok.
Qed.

Lemma validateOutboundQuota_ok tzdb o :
  validateOutboundQuota tzdb o = Ok tt -> oq_Enabled (ob_Quota o) = true ->
  Forall (fun cfg => oc_Name cfg = ob_Name o /\
    let s := outbound_subject tzdb cfg in
    sub_windows s <> [] /\ Forall (outbound_window_ok tzdb) (sub_windows s) /\
    NoDup (map ws_name (sub_windows s)) /\ 0 < sub_cooldown s /\ 0 < sub_probeInterval s /\
    (qra_Enabled (oq_ResetAll (ob_Quota o)) = true -> schedule_ok tzdb (sub_resetAll s)))
    (outboundConfigs [o]).
Proof.
  unfold validateOutboundQuota. intros H Hen. rewrite Hen in H. cbn [negb] in H. validated H. breflect.
  unfold outboundConfigs. cbn. rewrite Hen. constructor; [|constructor]. split; [done|]. cbn.
  unfold validateOutboundQuotaWindows in Hv. validated Hv.
  apply (fold_err_names True _ (fun iw => oqw_Name iw.2) (fun iw =>
    Forall (outbound_window_ok tzdb) (map (newWindowState tzdb) (outboundWindowsFromConfig [iw.2])))) in Hv3
    as (Hn & Hf & _).
  2: { intros seen [i w] seen' (? & -> & ?)%validate_outbound_window_ok. by split. }
  rewrite map_name_imap in Hn.
  apply (Forall_imap (fun w => Forall (outbound_window_ok tzdb)
    (map (newWindowState tzdb) (outboundWindowsFromConfig [w])))) in Hf.
  split; [by destruct (oq_Windows (ob_Quota o))|]. split; [|split; [|split; [done|split; [done|]]]].
  - clear -Hf. unfold outboundWindowsFromConfig in *.
    induction Hf as [|w l Hw Hl IH]; [constructor|]. cbn in *. inversion Hw; subst. by constructor.
  - specialize (Hn I). unfold outboundWindowsFromConfig. rewrite !map_map. cbn. done.
  - intros Hr. rewrite Hr in H. cbn [orb] in H. by eapply validateResetSchedule_ok.
Qed.

(** *** Listeners *)

Lemma InboundByName_declared c name :
  name ∈ map in_Name (cfg_Inbounds c) -> in_Name (InboundByName c name) = name.
Proof.
  unfold InboundByName. intros (inbound & -> & Hin)%list_elem_of_fmap.
  destruct (find _ _) as [i|] eqn:E.
  - by apply find_some in E as [_ E%String.eqb_eq].
  - apply list_elem_of_In in Hin. apply (find_none _ _ E) in Hin. by rewrite String.eqb_refl in Hin.
Qed.

Lemma listener_inbounds c inputs l :
  (forall n, n ∈ inputs <-> n ∈ map in_Name (cfg_Inbounds c)) ->
  Forall (fun i => in_Name i <> "") (cfg_Inbounds c) ->
  validate_listener inputs l = Ok tt ->
  ls_Inbounds l <> [] /\ map in_Name (ListenerInbounds c l) = ls_Inbounds l.
Proof.
  intros Hi Hne H. unfold validate_listener in H. validated H. apply for_each_Ok in H.
  split; [by intros E; rewrite E in Hv1|]. unfold ListenerInbounds.
  clear Hv1. induction H as [|name names Hname _ IH]; [done|].
  apply fail_if_Ok in Hname. breflect. apply bool_decide_eq_true, Hi in Hname.
  cbn [map List.filter]. rewrite InboundByName_declared by done.
  replace (name != "") with true; [cbn [map]; by rewrite IH, InboundByName_declared|].
  apply list_elem_of_fmap in Hname as (i & -> & Hin). rewrite Forall_forall in Hne.
  by apply Hne, String.eqb_neq in Hin as ->.
Qed.

(** ** Properties *)

(** A validated configuration can be routed.  When every enabled outbound has a
    provider, the router of a configuration [Validate] accepts can be built; its
    weighted rules have positive weights, and no rule has an empty pattern or an empty
    list of patterns. *)
Theorem validated_routes tzdb ParseURL c c' providers :
  Validate tzdb ParseURL c = (Ok tt, c') ->
  (forall o, o ∈ cfg_Outbounds c' -> OutboundEnabled o = true -> is_Some (providers !! ob_Name o)) ->
  (exists r, Router.New (cfg_Routing c') providers (cfg_Outbounds c') = Ok r) /\
  Forall weights_positive (rt_Rules (cfg_Routing c')) /\
  Forall (fun rule => forall m, rr_Match rule = Some m ->
    rm_Models m <> [] /\ Forall (fun pattern => pattern <> "") (rm_Models m)) (rt_Rules (cfg_Routing c')).
Proof.
  intros (names & tokens & inputs & tags & _ & _ & _ & _ & Ho & Hr)%Validate_inv Hp.
  apply validate_outbounds_ok in Ho as [_ Htags]. split; [|split].
  - apply New_total; [done|]. intros rule tag (i & Hi)%list_elem_of_lookup Htag.
    apply Hr, validate_rule_ok in Hi as (_ & _ & Hall & _). rewrite Forall_forall in Hall.
    apply Hall, Htags, list_elem_of_fmap in Htag as (o & -> & Hin). by exists o.
  - apply Forall_lookup. intros i rule Hi. by apply Hr, validate_rule_ok in Hi as (? & _).
  - apply Forall_lookup. intros i rule Hi. by apply Hr, validate_rule_ok in Hi as (_ & _ & _ & ?).
Qed.

(** In a validated configuration every alias leads to its model.  Each name and
    each alias that an outbound declares for a model resolves, in the router's table of
    that outbound, to that model's name, and is available. *)
Theorem validated_aliases tzdb ParseURL c c' o model alias :
  Validate tzdb ParseURL c = (Ok tt, c') ->
  o ∈ cfg_Outbounds c' -> model ∈ ob_Models o -> alias ∈ om_Name model :: om_Aliases model ->
  resolveOutboundModel (compileOutboundModels (ob_Models o)) alias = (om_Name model, false).
Proof.
  intros (names & tokens & inputs & tags & _ & _ & _ & _ & Hos & _)%Validate_inv Ho Hm Ha.
  apply validate_outbounds_ok in Hos as [Hall _]. rewrite Forall_forall in Hall.
  apply Hall in Ho as [Hnd%validate_models_ok _]. rewrite <- declared_keys in Hnd.
  rewrite compileOutboundModels_declared by (intros E; rewrite E in Hm; by apply elem_of_nil in Hm).
  unfold resolveOutboundModel. rewrite (foldl_insert_lookup _ alias (om_Name model)); [done..|].
  apply list_elem_of_In, in_flat_map. exists model. split; [by apply list_elem_of_In|].
  apply in_map_iff. exists alias. by split; [|apply list_elem_of_In].
Qed.

(** C27: the quota windows of a validated client limit it.  Every enabled client quota
    has windows, with distinct names, and the tracker built from the configuration keeps
    each as a rolling window over a positive duration with a positive limit on exactly
    what its type says and no limit on anything else. *)
Theorem validated_client_windows tzdb ParseURL c c' client cfg :
  Validate tzdb ParseURL c = (Ok tt, c') ->
  client ∈ cfg_Clients c' -> clientConfigs [client] = [cfg] ->
  let windows := sub_windows (client_subject tzdb cfg) in
  windows <> [] /\ NoDup (map ws_name windows) /\ Forall client_window_ok windows.
Proof.
  intros (names & tokens & inputs & tags & Hc & _)%Validate_inv Hin Hcfg.
  apply validate_clients_ok, ck_each in Hc. rewrite Forall_forall in Hc.
  apply Hc in Hin as (_ & _ & i & Hq). unfold validateClientQuota in Hq. cbn in Hcfg.
  destruct (cq_Enabled (cs_Quota client)); [|done]. cbn in Hq. injection Hcfg as <-.
  apply (validateQuotaWindows_ok tzdb) in Hq as (Hne & Hnd & Hall). cbn. split; [|split; [|done]].
  - by destruct (cq_Windows (cs_Quota client)).
  - unfold clientWindowsFromConfig, normalizeClientWindows. rewrite !map_map.
    erewrite map_ext; [exact Hnd|]. intros w. cbn. by destruct (qw_Type w == "").
Qed.

(** The quota windows of a validated outbound limit it.  Every enabled outbound
    quota is kept with windows of distinct names, each with limits that are not negative
    nor both zero, and each either rolling over a positive duration or on a schedule with
    a known period, a positive interval or a zone of the database, a readable clock and
    a weekday; the cooldown and the probe interval are positive, and a periodic reset
    has such a schedule. *)
Theorem validated_outbound_windows tzdb ParseURL c c' o cfg :
  Validate tzdb ParseURL c = (Ok tt, c') ->
  o ∈ cfg_Outbounds c' -> outboundConfigs [o] = [cfg] ->
  let s := outbound_subject tzdb cfg in
  sub_windows s <> [] /\ Forall (outbound_window_ok tzdb) (sub_windows s) /\
  NoDup (map ws_name (sub_windows s)) /\ 0 < sub_cooldown s /\ 0 < sub_probeInterval s /\
  (qra_Enabled (oq_ResetAll (ob_Quota o)) = true -> schedule_ok tzdb (sub_resetAll s)).
Proof.
  intros (names & tokens & inputs & tags & _ & _ & _ & _ & Hos & _)%Validate_inv Ho Hcfg.
  apply validate_outbounds_ok in Hos as [Hall _]. rewrite Forall_forall in Hall.
  apply Hall in Ho as [_ Hq]. destruct (oq_Enabled (ob_Quota o)) eqn:E; [|by cbn in Hcfg; rewrite E in Hcfg].
  apply validateOutboundQuota_ok in Hq; [|done]. rewrite Hcfg in Hq. by inversion Hq as [|? ? [_ ?]].
Qed.

(** A validated configuration is closed.  Clients have distinct names and distinct
    tokens, none empty, and the admin token is none of them; every binding of an inbound
    names a client, no client is bound twice to an inbound, and every listener serves
    exactly the inbounds it names. *)
Theorem validated_references tzdb ParseURL c c' :
  Validate tzdb ParseURL c = (Ok tt, c') ->
  NoDup (map cs_Name (cfg_Clients c')) /\ NoDup (map cs_Token (cfg_Clients c')) /\
  Forall (fun client => cs_Name client <> "" /\ cs_Token client <> "") (cfg_Clients c') /\
  (adm_Enabled (cfg_Admin c') = true ->
     adm_Token (cfg_Admin c') <> "" /\ adm_Token (cfg_Admin c') ∉ map cs_Token (cfg_Clients c')) /\
  Forall (fun inbound => NoDup (map cb_Ref (in_Clients inbound)) /\
    Forall (fun b => cb_Tag b <> "" /\ cb_Ref b ∈ map cs_Name (cfg_Clients c')) (in_Clients inbound))
    (cfg_Inbounds c') /\
  Forall (fun l => ls_Inbounds l <> [] /\ map in_Name (ListenerInbounds c' l) = ls_Inbounds l) (cfg_Listeners c').
Proof.
  intros HV. assert (cfg_Admin c' = cfg_Admin c) as Hadm by (by injection HV as _ <-).
  apply Validate_inv in HV as (names & tokens & inputs & tags & Hc & Hi & Hl & Ha & _).
  apply validate_clients_ok in Hc as [Hn Ht Hknown Howned Heach].
  apply validate_inbounds_ok in Hi as [Hin Hinputs].
  split; [done|]. split; [done|]. split; [by eapply Forall_impl; [exact Heach|]; cbn; intros; tauto|].
  split; [|split].
  - rewrite Hadm. intros Hen. unfold validateAdmin in Ha. apply bind_Ok in Ha as (? & _ & Ha).
    cbn in Ha. rewrite Hen in Ha. cbn in Ha. validated Ha. breflect. split; [done|].
    rewrite <- Howned. by destruct (tokens !! adm_Token (cfg_Admin c)) as [|]; [|intros []].
  - eapply Forall_impl; [exact Hin|]. cbn. intros inbound (_ & _ & Hnd & Hall). split; [done|].
    eapply Forall_impl; [exact Hall|]. cbn. intros b [Hb ?]. split; [done|]. by apply Hknown.
  - eapply Forall_impl; [exact Hl|]. cbn. intros l Hv. eapply listener_inbounds; [done| |done].
    eapply Forall_impl; [exact Hin|]. by intros ? [].
Qed.

(** ** Witnesses *)

Definition witness_zone (name : string) : option Location := if name == "UTC" then Some UTC else None.
Definition witness_url (url : string) : option (string * string) :=
  if url == "socks5://proxy:1080" then Some ("socks5", "proxy:1080") else None.

Definition witness_client : ClientSpec :=
  mkClientSpec "alice" "t1" (mkClientQuotaConfig true
    [mkQuotaWindowConfig "hour" "" "1h" 100 0 ""; mkQuotaWindowConfig "spend" "cost" "24h" 0 0 "2.5"]).
Definition witness_outbound : OutboundSpec :=
  mkOutboundSpec "gpt" "openai_chat" "https://api" "key" (mkOutboundAuthConfig "" "") "main" None
    [mkOutboundModelSpec "gpt-4o" ["fast"; "gpt4"]; mkOutboundModelSpec "o3" ["slow"]]
    (mkOutboundCapabilities None None None None true "heuristic")
    (mkOutboundQuotaConfig true
      [mkOutboundQuotaWindowConfig "minute" "" "1m" zero_fixed 60 0;
       mkOutboundQuotaWindowConfig "day" "fixed" "" (mkQuotaFixedScheduleConfig "weekly" "" "09:30" "UTC" "monday") 0 5000]
      "10m" "1m" (mkQuotaResetAllConfig true (mkQuotaResetScheduleConfig "interval" "6h" "2024-01-01T00:00:00Z" "" "" "")))
    (mkOutboundProxyConfig "socks5://proxy:1080").
Definition witness_config : Config :=
  mkConfig (mkServerConfig "") [mkListenerSpec "l" ":8080" ["chat"]] [witness_client]
    [mkInboundSpec "chat" "openai_chat" "/v1" [mkClientBindingSpec "alice" "team"]]
    (mkRoutingConfig [mkRoutingRule "r" ["team"] ["main"] RoutingStrategyWeightedRoundRobin {["main" := 3]} ""
       {["a" := "fast"]} (Some (mkRoutingRuleMatch ["gpt-*"]))])
    [witness_outbound]
    (mkAccountingConfig false "" false "" (mkAccountingLocalFileConfig "" 0 0 "" 0 0 "" 0) [])
    (mkGovernanceConfig (mkGovernanceQuotaConfig (mkGovernanceQuotaSnapshotConfig false "" "")
       (mkGovernanceQuotaEventsConfig true 100)))
    (mkSessionsConfig (mkSessionSnapshotConfig None "" "")) (mkOAuthConfig "")
    (mkAdminConfig true "admin" (mkAdminLogsConfig true "" 0 (mkAdminLogsRotationConfig 0 0 0 0 None))).
Definition witness_config' : Config := window_defaults witness_config.

Example witness_config_valid : Validate witness_zone witness_url witness_config = (Ok tt, witness_config').
Proof. vm_compute. reflexivity. Qed.
Example reject_unknown_tag :
  (Validate witness_zone witness_url
    (mkConfig (cfg_Server witness_config) [] [] [] (cfg_Routing witness_config) [witness_outbound]
      (cfg_Accounting witness_config) (cfg_Governance witness_config) (cfg_Sessions witness_config)
      (mkOAuthConfig "") (cfg_Admin witness_config))).1 =
  Err (CfgError "server.listen or listeners is required" []).
Proof. vm_compute. reflexivity. Qed.

Definition witness_providers : gmap string Provider := {["gpt" := mkProvider OpenAICompatibleProvider "gpt"]}.

Lemma validated_routes_witness :
  exists r, Router.New (cfg_Routing witness_config') witness_providers (cfg_Outbounds witness_config') = Ok r.
Proof.
  apply (validated_routes witness_zone witness_url witness_config witness_config' witness_providers).
  - vm_compute. reflexivity.
  - intros o [->|Ho%elem_of_nil]%elem_of_cons _; [by eexists|done].
Defined.

Lemma validated_aliases_witness :
  resolveOutboundModel (compileOutboundModels (ob_Models witness_outbound)) "slow" = ("o3", false).
Proof.
  apply (validated_aliases witness_zone witness_url witness_config witness_config'
    (with_outbound_windows default_outbound_window witness_outbound) (mkOutboundModelSpec "o3" ["slow"]) "slow").
  - vm_compute. reflexivity.
  - by left.
  - right. by left.
  - right. by left.
Defined.

Lemma validated_client_windows_witness :
  let client := with_client_windows default_window witness_client in
  Forall client_window_ok
    (sub_windows (client_subject witness_zone
      (mkClientConfig "alice" "" (clientWindowsFromConfig (cq_Windows (cs_Quota client)))))).
Proof.
  apply (validated_client_windows witness_zone witness_url witness_config witness_config'
    (with_client_windows default_window witness_client)); [by vm_compute|by left|done].
Defined.

Lemma validated_outbound_windows_witness :
  exists cfg, outboundConfigs [with_outbound_windows default_outbound_window witness_outbound] = [cfg] /\
  Forall (outbound_window_ok witness_zone) (sub_windows (outbound_subject witness_zone cfg)) /\
  schedule_ok witness_zone (sub_resetAll (outbound_subject witness_zone cfg)).
Proof.
  eexists. split; [reflexivity|].
  destruct (validated_outbound_windows witness_zone witness_url witness_config witness_config'
    (with_outbound_windows default_outbound_window witness_outbound) _ ltac:(by vm_compute) ltac:(by left) eq_refl)
    as (_ & Hw & _ & _ & _ & Hr). split; [exact Hw|by apply Hr].
Defined.

Lemma validated_references_witness :
  map in_Name (ListenerInbounds witness_config' (mkListenerSpec "l" ":8080" ["chat"])) = ["chat"] /\
  "admin" ∉ ["t1"].
Proof.
  destruct (validated_references witness_zone witness_url witness_config witness_config' ltac:(by vm_compute))
    as (_ & _ & _ & Ha & _ & Hl).
  split; [by inversion Hl as [|? ? [_ E] _]|]. by apply Ha.
Defined.
