(* ===== verification/ConfigResources.v ===== *)
(** * Resources of a configuration

    Models [internal/config/resources.go]: finding, replacing and removing the clients,
    bindings, outbounds and routes of a configuration, and hiding its secrets; and the
    changes the administration API makes with them
    ([internal/gateway/admin_config_resources.go]: the function each handler hands to
    [MutateConfig], [validateClientTagRemoval], [validateProviderDelete], the responses'
    items).

    The code replaces and removes in place, in slices that the given configuration
    shares with the returned one; every caller drops the one it gave, so the model only
    has the returned one. *)

From S2P Require Import Prelude GoStrings GoTime RuntimeModel ConfigTypes ConfigValidate.

(** ** Data *)

Definition RedactedValue := "<redacted>".

Record ResolvedClientBinding := mkResolvedClientBinding {
  rcb_Client : ClientSpec;
  rcb_Binding : ClientBindingSpec
}.

Record InboundClientBinding := mkInboundClientBinding {
  icb_Inbound : InboundSpec;
  icb_Binding : ClientBindingSpec
}.

Definition with_clients (c : Config) (l : list ClientSpec) : Config :=
  mkConfig (cfg_Server c) (cfg_Listeners c) l (cfg_Inbounds c) (cfg_Routing c) (cfg_Outbounds c)
    (cfg_Accounting c) (cfg_Governance c) (cfg_Sessions c) (cfg_OAuth c) (cfg_Admin c).
Definition with_inbounds (c : Config) (l : list InboundSpec) : Config :=
  mkConfig (cfg_Server c) (cfg_Listeners c) (cfg_Clients c) l (cfg_Routing c) (cfg_Outbounds c)
    (cfg_Accounting c) (cfg_Governance c) (cfg_Sessions c) (cfg_OAuth c) (cfg_Admin c).
Definition with_rules (c : Config) (l : list RoutingRule) : Config :=
  mkConfig (cfg_Server c) (cfg_Listeners c) (cfg_Clients c) (cfg_Inbounds c) (mkRoutingConfig l)
    (cfg_Outbounds c) (cfg_Accounting c) (cfg_Governance c) (cfg_Sessions c) (cfg_OAuth c) (cfg_Admin c).
Definition with_outbounds (c : Config) (l : list OutboundSpec) : Config :=
  mkConfig (cfg_Server c) (cfg_Listeners c) (cfg_Clients c) (cfg_Inbounds c) (cfg_Routing c) l
    (cfg_Accounting c) (cfg_Governance c) (cfg_Sessions c) (cfg_OAuth c) (cfg_Admin c).
Definition with_bindings (i : InboundSpec) (l : list ClientBindingSpec) : InboundSpec :=
  mkInboundSpec (in_Name i) (in_Protocol i) (in_Path i) l.
Definition with_enabled (o : OutboundSpec) (enabled : option bool) : OutboundSpec :=
  mkOutboundSpec (ob_Name o) (ob_Protocol o) (ob_Endpoint o) (ob_AuthToken o) (ob_Auth o) (ob_Tag o)
    enabled (ob_Models o) (ob_Capabilities o) (ob_Quota o) (ob_Proxy o).
Definition with_auth_token (o : OutboundSpec) (token : string) : OutboundSpec :=
  mkOutboundSpec (ob_Name o) (ob_Protocol o) (ob_Endpoint o) token (ob_Auth o) (ob_Tag o)
    (ob_Enabled o) (ob_Models o) (ob_Capabilities o) (ob_Quota o) (ob_Proxy o).

(** ** Lists of named resources

    The loops that replace the first element of a name or append, remove the elements
    of a name, and change the first element of a name. *)
Section named.
Context {A : Type} (name : A -> string).

Fixpoint upsert_named (next : A) (l : list A) : list A :=
  match l with
  | [] => [next]
  | x :: l => if name x == name next then next :: l else x :: upsert_named next l
  end.

Definition delete_named (n : string) (l : list A) : list A := List.filter (fun x => name x != n) l.

Definition find_named (n : string) (l : list A) : option A := find (fun x => name x == n) l.

Fixpoint update_named (n : string) (f : A -> A) (l : list A) : option (list A) :=
  match l with
  | [] => None
  | x :: l => if name x == n then Some (f x :: l) else (fun l => x :: l) <$> update_named n f l
  end.
End named.

(** ** Secrets *)

Definition redactValue (value : string) : string := if value == "" then "" else RedactedValue.

Definition PreserveSecret (next current : string) : string :=
  if (next == "") || (next == RedactedValue) then current else next.

Definition redact_client (c : ClientSpec) : ClientSpec :=
  mkClientSpec (cs_Name c) (redactValue (cs_Token c)) (cs_Quota c).
Definition redact_outbound (o : OutboundSpec) : OutboundSpec :=
  with_auth_token o (redactValue (ob_AuthToken o)).

Definition RedactedConfig (c : Config) : Config :=
  let a := cfg_Accounting c in
  let adm := cfg_Admin c in
  mkConfig (cfg_Server c) (cfg_Listeners c) (map redact_client (cfg_Clients c)) (cfg_Inbounds c)
    (cfg_Routing c) (map redact_outbound (cfg_Outbounds c))
    (mkAccountingConfig (acc_Enabled a) (acc_Backend a) (acc_ExposeHTTP a)
       (redactValue (acc_AdminToken a)) (acc_LocalFile a) (acc_Pricing a))
    (cfg_Governance c) (cfg_Sessions c) (cfg_OAuth c)
    (mkAdminConfig (adm_Enabled adm) (redactValue (adm_Token adm)) (adm_Logs adm)).

(** ** Clients and bindings *)

Definition FindClient (c : Config) (name : string) : option ClientSpec :=
  find_named cs_Name name (cfg_Clients c).
Definition UpsertClient (c : Config) (next : ClientSpec) : Config :=
  with_clients c (upsert_named cs_Name next (cfg_Clients c)).
Definition DeleteClient (c : Config) (name : string) : Config :=
  with_clients c (delete_named cs_Name name (cfg_Clients c)).

(** The errors of the operations and of the changes: a format with its arguments, or
    the API's two typed errors *)
Inductive mutationError :=
| MutErr (format : string) (args : list string)
| BindingTagLastSource (operation client inbound tag : string) (routeNames : list string)
| RouteOrderConflict (currentRevision : string).

Definition inbound_not_found (name : string) : mutationError := MutErr "inbound %q not found" [name].

Definition FindBinding (c : Config) (inboundName ref : string)
    : result mutationError (option ClientBindingSpec) :=
  match find_named in_Name inboundName (cfg_Inbounds c) with
  | None => Err (inbound_not_found inboundName)
  | Some inbound => Ok (find_named cb_Ref ref (in_Clients inbound))
  end.

Definition UpsertBinding (c : Config) (inboundName : string) (next : ClientBindingSpec)
    : result mutationError Config :=
  match update_named in_Name inboundName
          (fun i => with_bindings i (upsert_named cb_Ref next (in_Clients i))) (cfg_Inbounds c) with
  | None => Err (inbound_not_found inboundName)
  | Some inbounds => Ok (with_inbounds c inbounds)
  end.

Definition DeleteBinding (c : Config) (inboundName ref : string) : result mutationError Config :=
  match update_named in_Name inboundName
          (fun i => with_bindings i (delete_named cb_Ref ref (in_Clients i))) (cfg_Inbounds c) with
  | None => Err (inbound_not_found inboundName)
  | Some inbounds => Ok (with_inbounds c inbounds)
  end.

Definition ClientBindings (c : Config) (clientName : string) : list InboundClientBinding :=
  flat_map (fun inbound =>
    map (mkInboundClientBinding inbound)
      (List.filter (fun b => cb_Ref b == clientName) (in_Clients inbound))) (cfg_Inbounds c).

Definition ResolveClientBinding (c : Config) (binding : ClientBindingSpec) : option ResolvedClientBinding :=
  (fun client => mkResolvedClientBinding client binding) <$> FindClient c (cb_Ref binding).

Definition ResolveInboundClients (c : Config) (inbound : InboundSpec) : list ResolvedClientBinding :=
  omap (ResolveClientBinding c) (in_Clients inbound).

(** ** Outbounds and routes *)

Definition UpsertOutbound (c : Config) (next : OutboundSpec) : Config :=
  with_outbounds c (upsert_named ob_Name next (cfg_Outbounds c)).
Definition DeleteOutbound (c : Config) (name : string) : Config :=
  with_outbounds c (delete_named ob_Name name (cfg_Outbounds c)).
Definition SetOutboundEnabled (c : Config) (name : string) (enabled : bool) : result mutationError Config :=
  match update_named ob_Name name (fun o => with_enabled o (Some enabled)) (cfg_Outbounds c) with
  | None => Err (MutErr "outbound %q not found" [name])
  | Some outbounds => Ok (with_outbounds c outbounds)
  end.

Definition rules_of (c : Config) : list RoutingRule := rt_Rules (cfg_Routing c).
Definition UpsertRoute (c : Config) (next : RoutingRule) : Config :=
  with_rules c (upsert_named rr_Name next (rules_of c)).
Definition DeleteRoute (c : Config) (name : string) : Config :=
  with_rules c (delete_named rr_Name name (rules_of c)).

(** [copy(dst\[at:\], src)] within one slice: [src] is read before it is overwritten. *)
Definition copy_at {A} (l : list A) (at_ : nat) (src : list A) : list A :=
  take at_ l ++ src ++ drop (at_ + length src) l.
(** [l\[lo:hi\]] *)
Definition slice {A} (l : list A) (lo hi : nat) : list A := take (hi - lo) (drop lo l).

(** The two [copy] calls of [MoveRoute], then the assignment *)
Definition move_rule (rules : list RoutingRule) (from to : nat) : list RoutingRule :=
  match rules !! from with
  | None => rules
  | Some moved =>
      let shifted :=
        if (from <? to)%nat then copy_at rules from (slice rules (from + 1) (to + 1))
        else copy_at rules (to + 1) (slice rules to from) in
      <[to := moved]> shifted
  end.

Definition MoveRoute (c : Config) (fromIndex toIndex : Z) : result mutationError Config :=
  let n := Z.of_nat (length (rules_of c)) in
  if (fromIndex <? 0) || (n <=? fromIndex) then
    Err (MutErr "from_index %d is out of bounds" [itoa fromIndex])
  else if (toIndex <? 0) || (n <=? toIndex) then
    Err (MutErr "to_index %d is out of bounds" [itoa toIndex])
  else if fromIndex =? toIndex then Err (MutErr "from_index and to_index must differ" [])
  else Ok (with_rules c (move_rule (rules_of c) (Z.to_nat fromIndex) (Z.to_nat toIndex))).

(** ** Lemmas on lists of named resources *)

Section named.
Context {A : Type} (name : A -> string).

Lemma find_named_Some n l x : find_named name n l = Some x -> x ∈ l /\ name x = n.
Proof. intros [Hin Hn%String.eqb_eq]%find_some. by rewrite list_elem_of_In. Qed.

Lemma find_named_NoDup l x : NoDup (map name l) -> x ∈ l -> find_named name (name x) l = Some x.
Proof.
  unfold find_named. induction l as [|y l IH]; intros Hnd Hin; [by apply elem_of_nil in Hin|].
  cbn in *. apply NoDup_cons in Hnd as [Hy Hnd]. apply elem_of_cons in Hin as [->|Hin].
  - by rewrite String.eqb_refl.
  - destruct (String.eqb_spec (name y) (name x)) as [E|_]; [|by apply IH].
    exfalso. apply Hy. rewrite E. by apply list_elem_of_fmap_2.
Qed.

(** Replacing by an equal element changes nothing. *)
Lemma upsert_named_same l x : NoDup (map name l) -> x ∈ l -> upsert_named name x l = l.
Proof.
  induction l as [|y l IH]; intros Hnd Hin; [by apply elem_of_nil in Hin|].
  cbn in *. destruct (String.eqb_spec (name y) (name x)) as [E|Hne].
  - f_equal. symmetry. eapply (NoDup_map_inj name (y :: l)); [done|by left|done|done].
  - apply elem_of_cons in Hin as [->|Hin]; [done|]. f_equal. apply IH; [|done]. by apply NoDup_cons in Hnd as [].
Qed.

Lemma upsert_named_update l x f y :
  NoDup (map name l) -> y ∈ l -> name x = name y -> f y = x ->
  update_named name (name y) f l = Some (upsert_named name x l).
Proof.
  intros Hnd Hin Hn <-. revert Hin. induction l as [|z l IH]; intros Hin; [by apply elem_of_nil in Hin|].
  cbn in *. rewrite Hn. destruct (String.eqb_spec (name z) (name y)) as [E|Hne].
  - assert (z = y) as -> by (eapply (NoDup_map_inj name (z :: l)); [done|by left|done|done]). done.
  - apply elem_of_cons in Hin as [->|Hin]; [done|]. apply NoDup_cons in Hnd as [_ Hnd]. by rewrite IH.
Qed.

Lemma elem_of_delete_named n l x : x ∈ delete_named name n l <-> x ∈ l /\ name x <> n.
Proof.
  unfold delete_named. rewrite !list_elem_of_In, filter_In, negb_true_iff, String.eqb_neq. done.
Qed.

(** [update_named] changes one element, the first of its name. *)
Lemma update_named_Some n f l l' :
  update_named name n f l = Some l' ->
  exists pre x post, l = pre ++ x :: post /\ l' = pre ++ f x :: post /\ find_named name n l = Some x.
Proof.
  unfold find_named. revert l'. induction l as [|y l IH]; intros l' H; cbn in *; [done|].
  destruct (String.eqb_spec (name y) n) as [E|Hne].
  - simplify_eq. by exists [], y, l.
  - destruct (update_named name n f l) as [k|] eqn:E; [|done]. cbn in H. injection H as <-.
    destruct (IH _ eq_refl) as (pre & x & post & -> & -> & Hf). by exists (y :: pre), x, post.
Qed.
End named.

Lemma elem_of_upsert_named {A} (name : A -> string) next l :
  next ∈ upsert_named name next l /\
  forall x, x ∈ l -> name x <> name next -> x ∈ upsert_named name next l.
Proof.
  induction l as [|y l [IH1 IH2]]; cbn; [split; [by left|]; by intros x ?%elem_of_nil|].
  destruct (String.eqb_spec (name y) (name next)) as [E|Hne].
  - split; [by left|]. intros x [->|Hx]%elem_of_cons Hn; [done|by right].
  - split; [by right|]. intros x [->|Hx]%elem_of_cons Hn; [by left|]. right. by apply IH2.
Qed.

Lemma elem_of_upsert_named_inv {A} (name : A -> string) next l x :
  x ∈ upsert_named name next l -> x = next \/ x ∈ l.
Proof.
  induction l as [|y l IH]; cbn; [set_solver|]. destruct (name y == name next); set_solver.
Qed.
