(* ===== verification/AdminConfig.v ===== *)
(** * Changes made by the administration API

    Models the resources part of [internal/gateway/admin_config_resources.go]: the
    change each handler passes to [MutateConfig], the guards on deletions, and the
    items of the responses.  The handlers around them are in [AdminHandlers]. *)

From S2P Require Import Prelude GoStrings GoTime RuntimeModel ConfigTypes ConfigValidate ConfigResources.

(** ** Requests and responses *)

Record clientResourceRequest := mkClientResourceRequest {
  cr_Name : string;
  cr_Token : string;
  cr_Quota : ClientQuotaConfig
}.

Record reorderRoutesRequest := mkReorderRoutesRequest {
  ro_FromIndex : Z;
  ro_ToIndex : Z;
  ro_ExpectedRevision : string
}.

Record clientBindingResourceResponse := mkClientBindingResourceResponse {
  cbr_Inbound : string;
  cbr_InboundProtocol : string;
  cbr_InboundPath : string;
  cbr_Ref : string;
  cbr_Tag : string
}.

Record clientResourceResponse := mkClientResourceResponse {
  crr_Name : string;
  crr_Token : string;
  crr_Quota : ClientQuotaConfig;
  crr_Bindings : list clientBindingResourceResponse
}.

(** ** Guards *)

(** [validateClientTagRemoval]: the tag is still given by another binding, or no rule
    matches on it. *)
Definition other_binding (inboundName ref : string) (inbound : InboundSpec) (b : ClientBindingSpec) : bool :=
  negb ((in_Name inbound == inboundName) && (cb_Ref b == ref)).

Definition tag_elsewhere (c : Config) (inboundName ref tag : string) : bool :=
  existsb (fun inbound =>
    existsb (fun b => other_binding inboundName ref inbound b && (cb_Tag b == tag)) (in_Clients inbound))
    (cfg_Inbounds c).

Definition validateClientTagRemoval (c : Config) (operation inboundName ref tag : string)
    : result mutationError unit :=
  if tag_elsewhere c inboundName ref tag then Ok tt else
  let routeNames :=
    map rr_Name (List.filter (fun rule => existsb (String.eqb tag) (rr_FromTags rule)) (rules_of c)) in
  match routeNames with
  | [] => Ok tt
  | _ => Err (BindingTagLastSource operation ref inboundName tag (sort_by String.ltb routeNames))
  end.

Definition validateProviderDelete (c : Config) (name : string) : result mutationError unit :=
  match find_named ob_Name name (cfg_Outbounds c) with
  | None => Err (MutErr "outbound %q not found" [name])
  | Some outbound =>
      let tag := ob_Tag outbound in
      _ ← for_each (fun rule =>
            _ ← (if existsb (String.eqb tag) (rr_ToTags rule) then
                   Err (MutErr "cannot delete outbound %q: routing rule %q references tag %q"
                          [name; rr_Name rule; tag])
                 else Ok tt);
            match rr_Weights rule !! tag with
            | Some _ => Err (MutErr "cannot delete outbound %q: routing rule %q weights reference tag %q"
                               [name; rr_Name rule; tag])
            | None => Ok tt
            end) (rules_of c);
      for_each (fun price =>
        if ap_Provider price == name then
          Err (MutErr "cannot delete outbound %q: accounting pricing references provider %q" [name; ap_Provider price])
        else Ok tt) (acc_Pricing (cfg_Accounting c))
  end.

(** ** Changes *)

Definition provider_upsert (next : OutboundSpec) (c : Config) : result mutationError Config :=
  let next :=
    match find_named ob_Name (ob_Name next) (cfg_Outbounds c) with
    | Some outbound => with_auth_token next (PreserveSecret (ob_AuthToken next) (ob_AuthToken outbound))
    | None => next
    end in
  Ok (UpsertOutbound c next).

Definition provider_delete (name : string) (c : Config) : result mutationError Config :=
  _ ← validateProviderDelete c name; Ok (DeleteOutbound c name).

Definition provider_enabled (name : string) (enabled : bool) (c : Config) : result mutationError Config :=
  SetOutboundEnabled c name enabled.

Definition client_upsert (req : clientResourceRequest) (c : Config) : result mutationError Config :=
  match FindClient c (cr_Name req) with
  | Some current =>
      Ok (UpsertClient c (mkClientSpec (cr_Name req) (PreserveSecret (cr_Token req) (cs_Token current)) (cr_Quota req)))
  | None =>
      if (cr_Token req == "") || (cr_Token req == RedactedValue) then
        Err (MutErr "cannot create client %q: token is required" [cr_Name req])
      else Ok (UpsertClient c (mkClientSpec (cr_Name req) (cr_Token req) (cr_Quota req)))
  end.

Definition client_delete (name : string) (c : Config) : result mutationError Config :=
  match FindClient c name with
  | None => Err (MutErr "client %q not found" [name])
  | Some _ =>
      match ClientBindings c name with
      | [] => Ok (DeleteClient c name)
      | bindings => Err (MutErr "cannot delete client %q: %d binding(s) still reference it"
                           [name; itoa (Z.of_nat (length bindings))])
      end
  end.

Definition client_binding_upsert (inbound ref tag : string) (c : Config) : result mutationError Config :=
  found ← FindBinding c inbound ref;
  _ ← match found with
      | Some current =>
          if cb_Tag current != tag then validateClientTagRemoval c "update" inbound ref (cb_Tag current)
          else Ok tt
      | None => Ok tt
      end;
  UpsertBinding c inbound (mkClientBindingSpec ref tag).

Definition client_binding_delete (inbound ref : string) (c : Config) : result mutationError Config :=
  found ← FindBinding c inbound ref;
  match found with
  | None => Err (MutErr "client binding for %q not found in inbound %q" [ref; inbound])
  | Some current =>
      _ ← validateClientTagRemoval c "delete" inbound ref (cb_Tag current);
      DeleteBinding c inbound ref
  end.

Definition route_upsert (next : RoutingRule) (c : Config) : result mutationError Config := Ok (UpsertRoute c next).
Definition route_delete (name : string) (c : Config) : result mutationError Config := Ok (DeleteRoute c name).

Section reorder.
(** [RouteOrderRevision]: the SHA-256 of the rules in JSON *)
Context (RouteOrderRevision : list RoutingRule -> string).

Definition routes_reorder (req : reorderRoutesRequest) (c : Config) : result mutationError Config :=
  let currentRevision := RouteOrderRevision (rules_of c) in
  if ro_ExpectedRevision req != currentRevision then Err (RouteOrderConflict currentRevision)
  else MoveRoute c (ro_FromIndex req) (ro_ToIndex req).
End reorder.

(** ** Responses *)

Definition clientResource (c : Config) (client : ClientSpec) : clientResourceResponse :=
  mkClientResourceResponse (cs_Name client) (cs_Token client) (cs_Quota client)
    (map (fun ib => mkClientBindingResourceResponse (in_Name (icb_Inbound ib)) (in_Protocol (icb_Inbound ib))
            (in_Path (icb_Inbound ib)) (cb_Ref (icb_Binding ib)) (cb_Tag (icb_Binding ib)))
       (ClientBindings c (cs_Name client))).

(** The items of [GET /config/clients] and [GET /config/providers] *)
Definition client_items (c : Config) : list clientResourceResponse :=
  let redacted := RedactedConfig c in map (clientResource redacted) (cfg_Clients redacted).
Definition provider_items (c : Config) : list OutboundSpec :=
  map (fun o => with_enabled o (Some (OutboundEnabled o))) (cfg_Outbounds (RedactedConfig c)).

Definition sortedKeys (values : gset string) : list string :=
  sort_by String.ltb (List.filter (fun key => key != "") (elements values)).
Definition client_tags (c : Config) : list string :=
  sortedKeys (list_to_set (flat_map (fun inbound => map cb_Tag (in_Clients inbound)) (cfg_Inbounds c))).
Definition outbound_tags (c : Config) : list string :=
  sortedKeys (list_to_set (map ob_Tag (cfg_Outbounds c))).
