(* ===== verification/AdminConfigFacts.v ===== *)
(** * The administration API's changes are safe

    What [AdminConfig] promises: a resource shown with its secret hidden can be sent
    back without losing the secret, deletions leave no dangling reference, a tag that
    rules match on keeps a source, and moving a route moves only that route. *)

From S2P Require Import Prelude GoStrings GoTime RuntimeModel ConfigTypes ConfigValidate ConfigFacts ConfigResources AdminConfig.

(** ** Moving a route *)

(** Reference: [x] put at place [n] of [l] *)
Definition insert_at {A} (n : nat) (x : A) (l : list A) : list A := take n l ++ x :: drop n l.

Lemma insert_middle {A} (pre post : list A) y x n :
  length pre = n -> <[n := x]> (pre ++ y :: post) = pre ++ x :: post.
Proof. intros <-. by rewrite insert_app_r_alt, Nat.sub_diag by lia. Qed.

Lemma move_forward {A} (l : list A) from to moved :
  (from < to < length l)%nat ->
  <[to := moved]> (copy_at l from (slice l (from + 1) (to + 1))) =
  insert_at to moved (take from l ++ drop (S from) l).
Proof.
  intros H. unfold copy_at, slice, insert_at.
  replace (to + 1 - (from + 1))%nat with (to - from)%nat by lia. rewrite Nat.add_1_r.
  assert (length (take (to - from) (drop (S from) l)) = (to - from)%nat) as Hlen
    by (rewrite length_take, length_drop; lia).
  rewrite Hlen. replace (from + (to - from))%nat with to by lia.
  destruct (lookup_lt_is_Some_2 l to) as [y Hy]; [lia|]. rewrite (drop_S l y to Hy), app_assoc.
  rewrite insert_middle by (rewrite length_app, Hlen, length_take; lia).
  assert (length (take from l) = from) as Hf by (rewrite length_take; lia).
  rewrite take_app_ge, drop_app_ge by lia. rewrite Hf, drop_drop. do 3 f_equal. lia.
Qed.

Lemma move_backward {A} (l : list A) from to moved :
  (to < from < length l)%nat ->
  <[to := moved]> (copy_at l (to + 1) (slice l to from)) =
  insert_at to moved (take from l ++ drop (S from) l).
Proof.
  intros H. unfold copy_at, slice, insert_at.
  assert (length (take (from - to) (drop to l)) = (from - to)%nat) as Hlen
    by (rewrite length_take, length_drop; lia).
  rewrite Hlen. replace (to + 1 + (from - to))%nat with (S from) by lia.
  destruct (lookup_lt_is_Some_2 l to) as [y Hy]; [lia|]. rewrite Nat.add_1_r, (take_S_r l to y Hy).
  rewrite <- app_assoc. cbn [app]. rewrite insert_middle by (rewrite length_take; lia).
  rewrite take_app_le, drop_app_le by (rewrite length_take; lia).
  rewrite take_take, take_drop_commute. replace (to + (from - to))%nat with from by lia.
  by replace (to `min` from)%nat with to by lia.
Qed.

Lemma move_rule_spec rules from to moved :
  rules !! from = Some moved -> (to < length rules)%nat -> from <> to ->
  move_rule rules from to = insert_at to moved (delete from rules).
Proof.
  intros Hf Ht Hne. pose proof (lookup_lt_Some _ _ _ Hf) as Hlt. unfold move_rule.
  rewrite Hf, delete_take_drop. destruct (Nat.ltb_spec from to).
  - apply move_forward. lia.
  - apply move_backward. lia.
Qed.

(** ** Tags and references *)



(** The changes that remove something *)
Inductive removal :=
| RemoveProvider (name : string)
| RemoveClient (name : string)
| RemoveBinding (inbound ref : string)
| RetagBinding (inbound ref tag : string)
| RemoveRoute (name : string).

Definition remove (r : removal) (c : Config) : result mutationError Config :=
  match r with
  | RemoveProvider name => provider_delete name c
  | RemoveClient name => client_delete name c
  | RemoveBinding inbound ref => client_binding_delete inbound ref c
  | RetagBinding inbound ref tag =>
      match FindBinding c inbound ref with
      | Ok (Some _) => client_binding_upsert inbound ref tag c
      | _ => Err (MutErr "no such binding" [])
      end
  | RemoveRoute name => route_delete name c
  end.













(** ** Properties *)

(** Moving a route moves only that route.  A move is refused exactly when an index
    is out of bounds or the two are equal; otherwise the rule at [from] ends at [to] and
    the others keep their order. *)
Theorem move_route_exact c from to :
  let n := Z.of_nat (length (rules_of c)) in
  (is_Ok (MoveRoute c from to) = true <-> 0 <= from < n /\ 0 <= to < n /\ from <> to) /\
  forall c', MoveRoute c from to = Ok c' ->
    exists moved, rules_of c !! Z.to_nat from = Some moved /\
      c' = with_rules c (insert_at (Z.to_nat to) moved (delete (Z.to_nat from) (rules_of c))) /\
      rules_of c' ≡ₚ rules_of c.
Proof.
  intros n. unfold MoveRoute. fold n.
  destruct (Z.ltb_spec from 0); cbn [orb]; [split; [split; [done|lia]|done]|].
  destruct (Z.leb_spec n from); cbn [orb]; [split; [split; [done|lia]|done]|].
  destruct (Z.ltb_spec to 0); cbn [orb]; [split; [split; [done|lia]|done]|].
  destruct (Z.leb_spec n to); cbn [orb]; [split; [split; [done|lia]|done]|].
  destruct (Z.eqb_spec from to); [split; [split; [done|lia]|done]|].
  split; [split; [lia|done]|]. intros c' H'. injection H' as <-.
  destruct (lookup_lt_is_Some_2 (rules_of c) (Z.to_nat from)) as [moved Hm]; [lia|].
  exists moved. split; [done|]. rewrite (move_rule_spec _ _ _ moved) by (done || lia).
  split; [done|]. cbn. unfold insert_at. rewrite <- Permutation_middle, take_drop.
  symmetry. by apply delete_Permutation.
Qed.



(** ** Witnesses *)




(** The last source of a tag that a rule matches on stays. *)
Example last_source_kept :
  remove (RemoveBinding "chat" "alice") witness_config' =
  Err (BindingTagLastSource "delete" "alice" "chat" "team" ["r"]).
Proof. vm_compute. reflexivity. Qed.
