(* ===== verification/ConfigParse.v ===== *)
(** * Reading a configuration

    Models [ParseBytes] of [internal/config/config.go] with the detection and the
    conversion of the older format of clients ([detectClientConfigFormat],
    [mappingValue]), and the redaction of a YAML document that
    [internal/app/reload.go] shows ([redactYAMLNode], [isSensitiveConfigKey]).

    A YAML document is a tree of [yaml.Node] values, of which the code reads the kind,
    the value and the content.  Reading text into a tree and a tree into Go structures
    is the YAML library's: [unmarshal], [decode] and [decodeLegacy] are parameters; what
    the code itself does while a quota window is decoded is [UnmarshalYAML]. *)

From Stdlib Require Import SpecFloat.
From S2P Require GoJson.
From S2P Require Import Prelude GoStrings GoTime GoStrconv RuntimeModel ConfigTypes Money QuotaWindow ConfigValidate ConfigFacts ConfigResources.

(** ** YAML trees *)

Inductive NodeKind := DocumentNode | SequenceNode | MappingNode | ScalarNode | AliasNode.

#[export] Instance NodeKind_eq_dec : EqDecision NodeKind.
Proof. solve_decision. Defined.

#[warnings="-register-all"]
Inductive Node := mkNode (kind : NodeKind) (tag value : string) (content : list Node).

Definition Kind (n : Node) : NodeKind := match n with mkNode k _ _ _ => k end.
Definition Value (n : Node) : string := match n with mkNode _ _ v _ => v end.
Definition Content (n : Node) : list Node := match n with mkNode _ _ _ l => l end.

(** ** The format of clients *)

(** The loop over [Content] by pairs; an odd last element is not reached. *)
Fixpoint pair_value (key : string) (content : list Node) : option Node :=
  match content with
  | k :: v :: rest => if Value k == key then Some v else pair_value key rest
  | _ => None
  end.
Definition mappingValue (node : option Node) (key : string) : option Node :=
  match node with
  | Some n => if decide (Kind n = MappingNode) then pair_value key (Content n) else None
  | None => None
  end.

Inductive clientConfigFormat := clientConfigCanonical | clientConfigLegacy.

Definition has_key (key : string) (node : Node) : bool := is_some (mappingValue (Some node) key).

(** The bindings listed under the inbounds of the document *)
Definition binding_nodes (root : Node) : list Node :=
  match mappingValue (Some root) "inbounds" with
  | Some inbounds =>
      if decide (Kind inbounds = SequenceNode) then
        flat_map (fun inbound =>
          match mappingValue (Some inbound) "clients" with
          | Some bindings => if decide (Kind bindings = SequenceNode) then Content bindings else []
          | None => []
          end) (Content inbounds)
      else []
  | None => []
  end.

Definition detectClientConfigFormat (document : Node) : result configError clientConfigFormat :=
  let root :=
    if decide (Kind document = DocumentNode) then
      match Content document with root :: _ => root | [] => document end
    else document in
  if decide (Kind root <> MappingNode) then Ok clientConfigCanonical else
  let hasTopLevelClients := has_key "clients" root in
  let hasLegacyBindings :=
    existsb (fun b => has_key "name" b || has_key "token" b || has_key "quota" b) (binding_nodes root) in
  let hasCanonicalBindings := existsb (has_key "ref") (binding_nodes root) in
  if hasLegacyBindings && (hasTopLevelClients || hasCanonicalBindings) then
    Err (CfgError "mixed canonical and legacy client configuration is not supported" [])
  else if hasLegacyBindings then Ok clientConfigLegacy
  else Ok clientConfigCanonical.

(** ** The older format *)

Record legacyClientSpec := mkLegacyClientSpec {
  lc_Name : string;
  lc_Token : string;
  lc_Tag : string;
  lc_Quota : ClientQuotaConfig
}.
Record legacyInboundSpec := mkLegacyInboundSpec {
  li_Name : string;
  li_Protocol : string;
  li_Path : string;
  li_Clients : list legacyClientSpec
}.
Record legacyConfig := mkLegacyConfig { leg_Inbounds : list legacyInboundSpec }.

Definition legacy_client (l : legacyClientSpec) : ClientSpec :=
  mkClientSpec (lc_Name l) (lc_Token l) (lc_Quota l).
Definition legacy_binding (l : legacyClientSpec) : ClientBindingSpec :=
  mkClientBindingSpec (lc_Name l) (lc_Tag l).

(** The loop that moves the clients of each inbound to the top level.  Both values come
    from one document, so [legacy.Inbounds\[inboundIndex\]] is in range; the model uses
    no clients where it is not. *)
Definition convert_legacy (c : Config) (legacy : legacyConfig) : Config :=
  let clients_at (i : nat) : list legacyClientSpec :=
    match leg_Inbounds legacy !! i with Some inbound => li_Clients inbound | None => [] end in
  mkConfig (cfg_Server c) (cfg_Listeners c)
    (cfg_Clients c ++ concat (imap (fun i _ => map legacy_client (clients_at i)) (cfg_Inbounds c)))
    (imap (fun i inbound => mkInboundSpec (in_Name inbound) (in_Protocol inbound) (in_Path inbound)
             (map legacy_binding (clients_at i))) (cfg_Inbounds c))
    (cfg_Routing c) (cfg_Outbounds c) (cfg_Accounting c) (cfg_Governance c) (cfg_Sessions c) (cfg_OAuth c)
    (cfg_Admin c).

Definition unmarshal_error : configError := CfgError "unmarshal config: %w" [].

Section parse.
Context (tzdb : string -> option Location) (ParseURL : string -> option (string * string)).
(** The YAML library: text to tree, tree to structure *)
Context (unmarshal : string -> option Node) (decode : Node -> option Config)
  (decodeLegacy : Node -> option legacyConfig).

Definition from_option {A} (o : option A) : result configError A :=
  match o with Some a => Ok a | None => Err unmarshal_error end.

Definition ParseBytes (data : string) : result configError Config :=
  document ← from_option (unmarshal data);
  format ← detectClientConfigFormat document;
  cfg ← from_option (decode document);
  cfg ← match format with
        | clientConfigLegacy => convert_legacy cfg <$> from_option (decodeLegacy document)
        | clientConfigCanonical => Ok cfg
        end;
  let '(err, cfg) := Validate tzdb ParseURL (applyDefaults cfg) in
  _ ← err;
  Ok cfg.
End parse.

(** ** Redaction *)

(** [strings.ReplaceAll(s, "-", "_")] *)
Fixpoint dash_to_underscore (s : string) : string :=
  match s with
  | EmptyString => EmptyString
  | String c s => String (if bool_decide (c = "-"%char) then "_"%char else c) (dash_to_underscore s)
  end.

Definition isSensitiveConfigKey (key : string) : bool :=
  let normalized := dash_to_underscore (ToLower (TrimSpace key)) in
  bool_decide (normalized ∈ ["token"; "auth_token"; "admin_token"; "api_key"; "secret"]) ||
  HasSuffix normalized "_secret" || HasSuffix normalized "_token".

Definition redacted_node : Node := mkNode ScalarNode "!!str" "<redacted>" [].

(** The pairs of a mapping: the value of a sensitive key is replaced, other values are
    redacted inside. *)
Fixpoint redactYAMLNode (node : Node) : Node :=
  match node with
  | mkNode kind tag value content =>
      let fix redact_pairs (l : list Node) : list Node :=
        match l with
        | k :: v :: rest =>
            k :: (if isSensitiveConfigKey (Value k) then redacted_node else redactYAMLNode v) :: redact_pairs rest
        | _ => l
        end in
      let fix redact_all (l : list Node) : list Node :=
        match l with
        | [] => []
        | child :: l => redactYAMLNode child :: redact_all l
        end in
      mkNode kind tag value
        (if decide (kind = MappingNode) then redact_pairs content else redact_all content)
  end.

Example sensitive_keys :
  forallb isSensitiveConfigKey ["token"; "auth_token"; "admin_token"; "Client-Token"; " API_KEY "] = true /\
  existsb isSensitiveConfigKey ["name"; "tokens"; "max_tokens"; "url"] = false.
Proof. vm_compute. done. Qed.

(** ** Defaults *)

Lemma or_default_idem value fallback : or_default (or_default value fallback) fallback = or_default value fallback.
Proof. unfold or_default. destruct (value == "") eqn:E; [by destruct (fallback == "")|by rewrite E]. Qed.

Lemma or_default_int_idem value fallback :
  or_default_int (or_default_int value fallback) fallback = or_default_int value fallback.
Proof. unfold or_default_int. destruct (value =? 0) eqn:E; [by destruct (fallback =? 0)|by rewrite E]. Qed.

Lemma map_idem {A} (f : A -> A) l : (forall x, f (f x) = f x) -> map f (map f l) = map f l.
Proof. intros H. rewrite map_map. by apply map_ext. Qed.

Lemma default_window_idem w : default_window (default_window w) = default_window w.
Proof. unfold default_window. cbn. by rewrite or_default_idem. Qed.

Lemma default_outbound_window_idem w : default_outbound_window (default_outbound_window w) = default_outbound_window w.
Proof. unfold default_outbound_window. cbn. by rewrite or_default_idem. Qed.

(** Applying the defaults twice is applying them once. *)
Lemma window_defaults_applyDefaults c : window_defaults (applyDefaults c) = applyDefaults c.
Proof.
  unfold applyDefaults, window_defaults. cbn. f_equal; apply map_idem.
  - intros x. unfold with_client_windows. cbn. by rewrite map_idem by apply default_window_idem.
  - intros x. unfold with_outbound_windows. cbn. by rewrite map_idem by apply default_outbound_window_idem.
Qed.

Lemma applyDefaults_idem c : applyDefaults (applyDefaults c) = applyDefaults c.
Proof.
  unfold applyDefaults at 1. rewrite window_defaults_applyDefaults.
  unfold applyDefaults, default_snapshot, default_logs, default_rotation. cbn.
  by rewrite !or_default_idem, !or_default_int_idem.
Qed.

(** ** Induction on YAML trees *)

Lemma Node_ind' (P : Node -> Prop) :
  (forall kind tag value content, Forall P content -> P (mkNode kind tag value content)) -> forall n, P n.
Proof.
  intros H. fix IH 1. intros [kind tag value content]. apply H.
  induction content as [|n l IHl]; constructor; [apply IH|exact IHl].
Qed.

(** The pairs of a mapping's content *)
Fixpoint pairs (l : list Node) : list (Node * Node) :=
  match l with k :: v :: rest => (k, v) :: pairs rest | _ => [] end.

(** The parts of a document a reader sees as values: the values of a mapping, the
    elements of a sequence or a document *)
Inductive within : Node -> Node -> Prop :=
| within_refl n : within n n
| within_value n tag value content k v :
    (k, v) ∈ pairs content -> within n v -> within n (mkNode MappingNode tag value content)
| within_item n kind tag value content m :
    kind <> MappingNode -> m ∈ content -> within n m -> within n (mkNode kind tag value content).

(** [redactYAMLNode] on the content of a mapping and of other nodes *)
Fixpoint redact_pairs (l : list Node) : list Node :=
  match l with
  | k :: v :: rest =>
      k :: (if isSensitiveConfigKey (Value k) then redacted_node else redactYAMLNode v) :: redact_pairs rest
  | _ => l
  end.

Lemma redact_mapping tag value content :
  redactYAMLNode (mkNode MappingNode tag value content) = mkNode MappingNode tag value (redact_pairs content).
Proof. done. Qed.

Lemma redact_other kind tag value content :
  kind <> MappingNode ->
  redactYAMLNode (mkNode kind tag value content) = mkNode kind tag value (map redactYAMLNode content).
Proof. intros Hk. cbn. destruct (decide (kind = MappingNode)); [done|]. done. Qed.

Lemma pairs_redact l k v :
  (k, v) ∈ pairs (redact_pairs l) ->
  exists w, (k, w) ∈ pairs l /\ v = if isSensitiveConfigKey (Value k) then redacted_node else redactYAMLNode w.
Proof.
  enough (forall n l, (length l <= n)%nat -> (k, v) ∈ pairs (redact_pairs l) ->
    exists w, (k, w) ∈ pairs l /\ v = if isSensitiveConfigKey (Value k) then redacted_node else redactYAMLNode w)
    as H by (by apply (H (length l))).
  clear l. induction n as [|n IH]; intros [|a [|b l]] Hn Hin; cbn in *; try lia; try (by apply elem_of_nil in Hin).
  apply elem_of_cons in Hin as [E|Hin].
  - simplify_eq. exists b. split; [by left|done].
  - destruct (IH l ltac:(lia) Hin) as (w & Hw & ->). exists w. split; [by right|done].
Qed.

Lemma pairs_value l k v : (k, v) ∈ pairs l -> v ∈ l.
Proof.
  enough (forall n l, (length l <= n)%nat -> (k, v) ∈ pairs l -> v ∈ l) as H by (by apply (H (length l))).
  clear l. induction n as [|n IH]; intros [|a [|b l]] Hn Hin; cbn in *; try lia; try (by apply elem_of_nil in Hin).
  apply elem_of_cons in Hin as [E|Hin].
  - simplify_eq. right. by left.
  - right. right. apply IH; [lia|done].
Qed.

(** A mapping found in a redacted document is the redaction of a mapping. *)
Lemma within_redact n m :
  within m (redactYAMLNode n) -> m = redacted_node \/ exists m', within m' n /\ m = redactYAMLNode m'.
Proof.
  induction n as [kind tag value content IH] using Node_ind'. rewrite Forall_forall in IH. intros H.
  destruct (decide (kind = MappingNode)) as [->|Hk].
  - rewrite redact_mapping in H. inversion H as [|? ? ? ? k v Hin Hv|]; subst; [|..].
    + right. exists (mkNode MappingNode tag value content). split; [constructor|done].
    + apply pairs_redact in Hin as (w & Hw & ->). destruct (isSensitiveConfigKey (Value k)).
      * left. inversion Hv; [done|]. by match goal with H : _ ∈ [] |- _ => apply elem_of_nil in H end.
      * destruct (IH w (pairs_value _ _ _ Hw) Hv) as [?|(m' & Hm' & ->)]; [by left|].
        right. exists m'. split; [by eapply within_value|done].
    + done.
  - rewrite redact_other in H by done. inversion H as [| |? ? ? ? ? c _ Hin Hc]; subst; [|done|].
    + right. exists (mkNode kind tag value content). split; [constructor|by rewrite redact_other].
    + apply list_elem_of_fmap in Hin as (w & -> & Hw).
      destruct (IH w Hw Hc) as [?|(m' & Hm' & ->)]; [by left|].
      right. exists m'. split; [by eapply within_item|done].
Qed.

(** No pair of a mapping has a sensitive key. *)
Definition harmless (m : Node) : Prop :=
  Kind m = MappingNode -> forall k v, (k, v) ∈ pairs (Content m) -> isSensitiveConfigKey (Value k) = false.

Lemma redact_pairs_id l :
  (forall k v, (k, v) ∈ pairs l -> isSensitiveConfigKey (Value k) = false /\ redactYAMLNode v = v) ->
  redact_pairs l = l.
Proof.
  enough (forall n l, (length l <= n)%nat ->
    (forall k v, (k, v) ∈ pairs l -> isSensitiveConfigKey (Value k) = false /\ redactYAMLNode v = v) ->
    redact_pairs l = l) as H by (by apply (H (length l))).
  clear l. induction n as [|n IH]; intros [|a [|b l]] Hn H; cbn in *; try lia; try done.
  destruct (H a b ltac:(by left)) as [-> ->]. rewrite IH; [done|lia|]. intros k v Hin. apply H. by right.
Qed.

Lemma redact_harmless n : (forall m, within m n -> harmless m) -> redactYAMLNode n = n.
Proof.
  induction n as [kind tag value content IH] using Node_ind'. rewrite Forall_forall in IH. intros H.
  destruct (decide (kind = MappingNode)) as [->|Hk].
  - rewrite redact_mapping, redact_pairs_id; [done|]. intros k v Hin. split.
    + by apply (H _ (within_refl _) eq_refl k v).
    + apply IH; [by eapply pairs_value|]. intros m Hm. apply H. by eapply within_value.
  - rewrite redact_other by done. f_equal. rewrite <- (map_id content) at 2. apply map_ext_in.
    intros m Hm%list_elem_of_In. apply IH; [done|]. intros x Hx. apply H. by eapply within_item.
Qed.

Lemma redact_pairs_twice l :
  (forall v, v ∈ l -> redactYAMLNode (redactYAMLNode v) = redactYAMLNode v) ->
  redact_pairs (redact_pairs l) = redact_pairs l.
Proof.
  enough (forall n l, (length l <= n)%nat ->
    (forall v, v ∈ l -> redactYAMLNode (redactYAMLNode v) = redactYAMLNode v) ->
    redact_pairs (redact_pairs l) = redact_pairs l) as H by (by apply (H (length l))).
  clear l. induction n as [|n IH]; intros [|a [|b l]] Hn H; cbn in *; try lia; try done.
  rewrite IH; [|lia|intros v Hv; apply H; right; by right].
  destruct (isSensitiveConfigKey (Value a)); [done|]. by rewrite H by (right; left).
Qed.

Lemma redact_twice n : redactYAMLNode (redactYAMLNode n) = redactYAMLNode n.
Proof.
  induction n as [kind tag value content IH] using Node_ind'. rewrite Forall_forall in IH.
  destruct (decide (kind = MappingNode)) as [->|Hk].
  - rewrite redact_mapping, redact_mapping. by rewrite redact_pairs_twice.
  - rewrite redact_other, redact_other by done. f_equal. rewrite map_map. apply map_ext_in.
    intros m Hm%list_elem_of_In. by apply IH.
Qed.

(** *** Reading *)

Lemma ParseBytes_inv tzdb ParseURL unmarshal decode decodeLegacy data c :
  ParseBytes tzdb ParseURL unmarshal decode decodeLegacy data = Ok c ->
  exists cfg, c = applyDefaults cfg /\ validate tzdb ParseURL (applyDefaults cfg) = Ok tt /\
    exists document format decoded, unmarshal data = Some document /\
      detectClientConfigFormat document = Ok format /\ decode document = Some decoded /\
      match format with
      | clientConfigLegacy => exists legacy, decodeLegacy document = Some legacy /\ cfg = convert_legacy decoded legacy
      | clientConfigCanonical => cfg = decoded
      end.
Proof.
  unfold ParseBytes. intros (document & Hu & H)%bind_Ok. apply bind_Ok in H as (format & Hd & H).
  apply bind_Ok in H as (decoded & Hdec & H). apply bind_Ok in H as (cfg & Hcfg & H).
  apply bind_Ok in H as ([] & Hv & H). rewrite applyDefaults_idem in Hv. injection H as <-.
  exists cfg. split; [apply window_defaults_applyDefaults|]. split; [done|].
  unfold from_option in *. destruct (unmarshal data) as [d|]; [|done].
  exists document, format, decoded. simplify_eq. split; [done|]. split; [done|].
  destruct (decode document); [|done]. simplify_eq. split; [done|].
  destruct format; [by simplify_eq|]. destruct (decodeLegacy document) as [legacy|]; [|done].
  cbn in Hcfg. simplify_eq. by exists legacy.
Qed.

(** Bindings resolve to the clients they name. *)
Lemma resolve_bindings c clients (bindings : list (ClientSpec * ClientBindingSpec)) :
  cfg_Clients c = clients -> NoDup (map cs_Name clients) ->
  Forall (fun cb => cb.1 ∈ clients /\ cb_Ref cb.2 = cs_Name cb.1) bindings ->
  omap (ResolveClientBinding c) (map snd bindings) =
  map (fun cb => mkResolvedClientBinding cb.1 cb.2) bindings.
Proof.
  intros <- Hnd. induction 1 as [|[client b] l [Hin Href] _ IH]; cbn in *; [done|].
  unfold ResolveClientBinding at 1, FindClient. rewrite Href, (find_named_NoDup cs_Name _ client) by done.
  cbn. by rewrite IH.
Qed.

(** ** Properties *)

(** What is read is valid and complete.  A configuration [ParseBytes] returns has
    all its defaults, and [Validate] accepts it and leaves it as it is. *)
Theorem parsed_valid tzdb ParseURL unmarshal decode decodeLegacy data c :
  ParseBytes tzdb ParseURL unmarshal decode decodeLegacy data = Ok c ->
  Validate tzdb ParseURL c = (Ok tt, c) /\ applyDefaults c = c.
Proof. intros (cfg & -> & Hv & _)%ParseBytes_inv. split; [|apply applyDefaults_idem].
  unfold Validate. rewrite applyDefaults_idem, window_defaults_applyDefaults. by rewrite Hv.
Qed.

(** The older format means the same.  A document with clients inside its inbounds
    is read as if each client had been declared at the top level and bound by name: the
    clients of the inbound at each place are those the document lists there, with their
    tokens, tags and quotas, in order. *)
Theorem legacy_clients_resolve tzdb ParseURL unmarshal decode decodeLegacy data document legacy c i inbound :
  unmarshal data = Some document -> detectClientConfigFormat document = Ok clientConfigLegacy ->
  decodeLegacy document = Some legacy ->
  ParseBytes tzdb ParseURL unmarshal decode decodeLegacy data = Ok c ->
  cfg_Inbounds c !! i = Some inbound ->
  ResolveInboundClients c inbound =
  map (fun l => mkResolvedClientBinding (with_client_windows default_window (legacy_client l)) (legacy_binding l))
    (match leg_Inbounds legacy !! i with Some li => li_Clients li | None => [] end).
Proof.
  intros Hu Hd Hleg (cfg & -> & Hv & doc & format & decoded & Hu' & Hd' & _ & Hf)%ParseBytes_inv Hi.
  rewrite Hu in Hu'. injection Hu' as <-. rewrite Hd in Hd'. injection Hd' as <-.
  destruct Hf as (legacy' & Hl & ->). rewrite Hleg in Hl. injection Hl as <-.
  set (c := applyDefaults _) in *.
  destruct (Validate_inv tzdb ParseURL c c) as (names & tokens & _ & _ & Hcl & _).
  { unfold Validate. unfold c at 1 2. rewrite applyDefaults_idem, window_defaults_applyDefaults. fold c. by rewrite Hv. }
  apply validate_clients_ok in Hcl as [Hnd _ _ _ _].
  cbn in Hi. rewrite list_lookup_imap in Hi. destruct (cfg_Inbounds decoded !! i) as [inb|] eqn:Ei; [|done].
  cbn in Hi. injection Hi as <-. unfold ResolveInboundClients. cbn [in_Clients].
  set (ls := match leg_Inbounds legacy !! i with Some li => li_Clients li | None => [] end).
  pose proof (resolve_bindings c (cfg_Clients c)
    (map (fun l => (with_client_windows default_window (legacy_client l), legacy_binding l)) ls) eq_refl Hnd) as H.
  rewrite !map_map in H. cbn in H. apply H. apply Forall_map, Forall_forall. intros l Hl'. cbn.
  split; [|done]. apply list_elem_of_fmap. exists (legacy_client l). split; [done|]. cbn.
  apply elem_of_app. right. apply list_elem_of_In, in_concat. exists (map legacy_client ls).
  split; apply list_elem_of_In; [|by apply list_elem_of_fmap_2].
  apply elem_of_lookup_imap. exists i, inb. by split.
Qed.

(** Redaction hides every secret and nothing else.  Wherever a reader of a redacted
    document finds a mapping, the value of each sensitive key is the placeholder; a
    document without sensitive keys is unchanged, and redacting twice is redacting once. *)
Theorem redaction_hides_secrets n :
  (forall m k v, within m (redactYAMLNode n) -> Kind m = MappingNode -> (k, v) ∈ pairs (Content m) ->
     isSensitiveConfigKey (Value k) = true -> v = redacted_node) /\
  ((forall m, within m n -> harmless m) -> redactYAMLNode n = n) /\
  redactYAMLNode (redactYAMLNode n) = redactYAMLNode n.
Proof.
  split; [|split; [apply redact_harmless|apply redact_twice]].
  intros m k v [->|([kind tag value content] & _ & ->)]%within_redact Hk Hin Hs; [done|].
  destruct (decide (kind = MappingNode)) as [->|Hne].
  - rewrite redact_mapping in Hin. apply pairs_redact in Hin as (w & _ & ->). by rewrite Hs.
  - by rewrite redact_other in Hk.
Qed.

(** ** Witnesses

    A document of the older format: the clients are under the inbound. *)
Definition scalar (value : string) : Node := mkNode ScalarNode "!!str" value [].
Definition mapping (l : list (string * Node)) : Node :=
  mkNode MappingNode "!!map" "" (flat_map (fun kv => [scalar kv.1; kv.2]) l).
Definition sequence (l : list Node) : Node := mkNode SequenceNode "!!seq" "" l.

Definition witness_document : Node :=
  mkNode DocumentNode "" "" [mapping [("inbounds", sequence [mapping
    [("name", scalar "chat"); ("clients", sequence [mapping [("name", scalar "alice"); ("token", scalar "t1")]])]])]].

Definition witness_decoded : Config :=
  mkConfig (cfg_Server witness_config) (cfg_Listeners witness_config) []
    [mkInboundSpec "chat" "openai_chat" "/v1" []] (cfg_Routing witness_config) (cfg_Outbounds witness_config)
    (cfg_Accounting witness_config) (cfg_Governance witness_config) (cfg_Sessions witness_config)
    (cfg_OAuth witness_config) (cfg_Admin witness_config).
Definition witness_legacy_client : legacyClientSpec := mkLegacyClientSpec "alice" "t1" "team" (cs_Quota witness_client).
Definition witness_legacy : legacyConfig :=
  mkLegacyConfig [mkLegacyInboundSpec "chat" "openai_chat" "/v1" [witness_legacy_client]].

(** Reads the one text [legacy] as the document above *)
Definition witness_parse : string -> result configError Config :=
  ParseBytes witness_zone witness_url (fun s => if s == "legacy" then Some witness_document else None)
    (fun _ => Some witness_decoded) (fun _ => Some witness_legacy).

Lemma parsed_valid_witness :
  witness_parse "legacy" = Ok (applyDefaults witness_config) /\
  Validate witness_zone witness_url (applyDefaults witness_config) = (Ok tt, applyDefaults witness_config).
Proof.
  split; [vm_compute; reflexivity|].
  apply (parsed_valid witness_zone witness_url (fun s => if s == "legacy" then Some witness_document else None)
    (fun _ => Some witness_decoded) (fun _ => Some witness_legacy) "legacy"). vm_compute. reflexivity.
Defined.

Lemma legacy_clients_resolve_witness :
  ResolveInboundClients (applyDefaults witness_config)
    (mkInboundSpec "chat" "openai_chat" "/v1" [mkClientBindingSpec "alice" "team"]) =
  [mkResolvedClientBinding (with_client_windows default_window (legacy_client witness_legacy_client))
     (mkClientBindingSpec "alice" "team")].
Proof.
  apply (legacy_clients_resolve witness_zone witness_url
    (fun s => if s == "legacy" then Some witness_document else None) (fun _ => Some witness_decoded)
    (fun _ => Some witness_legacy) "legacy" witness_document witness_legacy _ 0%nat);
    vm_compute; reflexivity.
Defined.

Example redact_example :
  redactYAMLNode (mapping [("name", scalar "alice"); ("token", scalar "t1")]) =
  mapping [("name", scalar "alice"); ("token", redacted_node)].
Proof. vm_compute. reflexivity. Qed.

(** ** The windows of a quota *)

(** What YAML makes of the scalar [max_cost_usd]; for anything else the text that
    [fmt.Sprint] prints for it *)
Inductive yamlScalar := YamlNull | YamlInt (n : Z) | YamlFloat (f : float64) | YamlText (s : string) | YamlOther (printed : string).

(** [strconv.FormatFloat(f, 'g', -1, 64)] of the shortest digits [c] with exponent [e]: with
    an exponent, of two digits at least, below 10^-4 and from 10^6 on *)
Definition format_g (c e : Z) : string :=
  let ds := itoa c in
  let dp := Z.of_nat (len ds) + e in
  let x := dp - 1 in
  if (x <? -4) || (6 <=? x) then
    str_take 1 ds +:+ (if (len ds <=? 1)%nat then EmptyString else "." +:+ str_drop 1 ds) +:+
    "e" +:+ (if x <? 0 then "-" else "+") +:+ (if Z.abs x <? 10 then "0" else EmptyString) +:+ itoa (Z.abs x)
  else if dp <=? 0 then "0." +:+ GoJson.zeros (Z.to_nat (- dp)) +:+ ds
  else if 0 <=? e then ds +:+ GoJson.zeros (Z.to_nat e)
  else str_take (Z.to_nat dp) ds +:+ "." +:+ str_drop (Z.to_nat dp) ds.
(** The shortest digits of a float, with their exponent *)
Definition float_digits (m : positive) (e : Z) : Z * Z :=
  let '(p, q) := if 0 <=? e then (Z.pos m * 2 ^ e, 1) else (Z.pos m, 2 ^ (- e)) in
  GoJson.shortest 20 (S754_finite false m e) p q (GoJson.decimal_exponent 800 0 p q) 1.
(** [fmt.Sprint] *)
Definition Sprint (v : yamlScalar) : string :=
  match v with
  | YamlNull => "<nil>"
  | YamlInt n => itoa n
  | YamlText s | YamlOther s => s
  | YamlFloat f =>
      match f with
      | S754_zero neg => if neg then "-0" else "0"
      | S754_infinity neg => if neg then "-Inf" else "+Inf"
      | S754_nan => "NaN"
      | S754_finite neg m e => let '(c, x) := float_digits m e in (if neg then "-" else EmptyString) +:+ format_g c x
      end
  end.
Definition UnmarshalYAML (Name Type_ : string) (Duration : DurationValue) (MaxRequests MaxTokens : Z) (MaxCostUSD : yamlScalar)
    : QuotaWindowConfig :=
  mkQuotaWindowConfig Name Type_ Duration MaxRequests MaxTokens
    match MaxCostUSD with YamlNull => EmptyString | v => Sprint v end.

(** The cost of a decoded window, in millionths of a dollar *)
Definition decoded_cost (v : yamlScalar) : result costError Z := costUSDMicro (qw_MaxCostUSD (UnmarshalYAML "" "" "" 0 0 v)).

Lemma contains_e s t : ContainsAny (s +:+ String "e" t) ["e"; "E"]%char = true.
Proof.
  induction s as [|c s IH]; [done|].
  change (bool_decide (c ∈ ["e"; "E"]%char) || ContainsAny (s +:+ String "e" t) ["e"; "E"]%char = true).
  rewrite IH. apply orb_true_r.
Qed.

(** An amount that YAML reads as an integer is taken as it is, up to the largest one whose
    millionths fit 64 bits; an amount that it reads as a number with a fraction is refused
    from 10^6 dollars on and below 10^-4, where its printed form has an exponent, although
    the limits of [costUSDMicro] are 6 digits of fraction and 64 bits. *)
Theorem decoded_costs :
  (forall n, 0 < n -> n * 1000000 <= max_int64 -> decoded_cost (YamlInt n) = Ok (n * 1000000)) /\
  (forall m e c x, float_digits m e = (c, x) ->
     let magnitude := Z.of_nat (len (itoa c)) + x - 1 in
     magnitude < -4 \/ 6 <= magnitude ->
     decoded_cost (YamlFloat (S754_finite false m e)) = Err NotDecimal).
Proof.
  split.
  - intros n Hn Hmax. unfold decoded_cost. cbn [UnmarshalYAML qw_MaxCostUSD Sprint].
    pose proof (costUSDMicro_decimal (itoa n) None) as Hc. cbn [decimal_text] in Hc.
    assert (0 <= n <= max_int64) as Hb by lia.
    pose proof (itoa_value n Hb) as Hv.
    rewrite Hc by ((apply itoa_digits; lia) || (apply itoa_nonempty; lia) || done || lia).
    unfold decimal_value. cbn [default from_option String.length digits_value]. rewrite Hv.
    replace (max_int64 <? _) with false by lia. replace (_ =? 0) with false by lia. f_equal. lia.
  - intros m e c x Hd magnitude Hm. unfold decoded_cost. cbn [UnmarshalYAML qw_MaxCostUSD Sprint].
    rewrite Hd. unfold format_g. fold magnitude.
    assert (((magnitude <? -4) || (6 <=? magnitude)) = true) as -> by lia.
    set (text := str_take 1 _ +:+ _). assert (ContainsAny text ["e"; "E"]%char = true) as He.
    { unfold text. rewrite str_app_assoc. apply contains_e. }
    change (costUSDMicro text = Err NotDecimal). unfold costUSDMicro. rewrite He, orb_true_r. destruct (text == "") eqn:E; [|done].
    breflect. by rewrite E in He.
Qed.

Example small_cost_refused : (decoded_cost ∘ YamlFloat <$> GoJson.parse_float "0.00001") = Some (Err NotDecimal).
Proof. by vm_compute. Qed.
Example large_cost_refused : (decoded_cost ∘ YamlFloat <$> GoJson.parse_float "2500000.5") = Some (Err NotDecimal).
Proof. by vm_compute. Qed.
Example cost_taken : (decoded_cost ∘ YamlFloat <$> GoJson.parse_float "12.50") = Some (Ok 12500000).
Proof. by vm_compute. Qed.
