(* ===== verification/QuotaSnapshot.v ===== *)
(** * The quota snapshot file

    Models [internal/quota/snapshot_store.go]: what [Load] does to the two trackers, what
    [Save] writes, and how the saves of the ticker goroutine and of [Close] reach the file.
    The JSON in [latest.json] is the value [snapshotFile] for [Load] and [Save]; reading it
    is one of [snapshot_read]'s outcomes, which [read_snapshot] computes from the text,
    with the decoding of the older form of a window ([PersistedWindowState.UnmarshalJSON]
    of [tracker.go]).  For the calls on the file the JSON is a text, the payload, and a
    file is an inode with the bytes it holds, since a file may be renamed while another
    save still writes to it.

    Facts: while a store is alone in its directory and its [Close] has a context without
    end, [latest.json] is at every moment the whole payload of one save; with a second
    store in the directory, as during a reload, it need not be. *)

From S2P Require Import Prelude GoStrings GoTime GoTimeFacts GoJson ConfigTypes QuotaWindow QuotaTracker.

Record snapshotFile := mkSnapshotFile {
  sf_Version : Z;
  sf_CapturedAt : string;
  sf_Outbound : PersistedState;
  sf_Client : PersistedState
}.

(** The outcomes of reading and decoding [latest.json] *)
Inductive snapshot_read :=
| SnapshotMissing
| SnapshotUnreadable
| SnapshotUndecodable
| SnapshotRead (f : snapshotFile).

(** *** Decoding *)

Definition dec_event (j : json) : option PersistedEvent :=
  ms ← as_object j; at_ ← f_string "at" ms; requests ← f_int "requests" ms; tokens ← f_int "tokens" ms;
  cost ← f_int "cost_micro_usd" ms; unpriced ← f_int "unpriced" ms;
  Some (mkPersistedEvent at_ requests tokens cost unpriced).

(** [PersistedWindowState.UnmarshalJSON]: older files list the times of requests. *)
Definition UnmarshalJSON (j : json) : option PersistedWindowState :=
  ms ← as_object j;
  type ← f_string "type" ms; reset ← f_string "reset" ms; duration ← f_string "duration" ms;
  fixedPeriod ← f_string "fixed_period" ms; schedule ← f_string "schedule" ms;
  let window := mkPersistedWindowState type reset duration fixedPeriod schedule in
  match member "events" ms with
  | None => Some (window [] false)
  | Some (raw, events) =>
      if (len raw =? 0)%nat || (raw == "null") then Some (window [] false)
      else match as_list dec_event events with
           | Some events => Some (window events false)
           | None =>
               legacy ← as_list as_string events;
               Some (window (map (fun at_ => mkPersistedEvent at_ 1 0 0 0) legacy) true)
           end
  end.

(** A map with string keys; of a key that occurs twice the last value stays. *)
Definition as_map {A} (dec : json -> option A) (j : json) : option (gmap string A) :=
  match j with
  | JNull => Some ∅
  | JObj ms => foldl (fun m p => m ← m; v ← dec p.2.2; Some (<[p.1 := v]> m)) (Some ∅) ms
  | _ => None
  end.
Definition dec_subject (j : json) : option PersistedSubject :=
  ms ← as_object j; name ← f_string "name" ms; inbound ← f_string "inbound" ms;
  cooldown ← f_string "cooldown_until" ms; probe ← f_string "next_probe_at" ms;
  exceeded ← f_string "last_quota_exceeded_at" ms; success ← f_string "last_success_at" ms;
  reset ← f_string "reset_all" ms; windows ← field ∅ (as_map UnmarshalJSON) "windows" ms;
  Some (mkPersistedSubject name inbound cooldown probe exceeded success reset windows).
Definition dec_state (j : json) : option PersistedState :=
  ms ← as_object j; version ← f_int "version" ms; captured ← f_string "captured_at" ms;
  subjects ← field ∅ (as_map dec_subject) "subjects" ms; Some (mkPersistedState version captured subjects).
Definition dec_snapshotFile (j : json) : option snapshotFile :=
  ms ← as_object j; version ← f_int "version" ms; captured ← f_string "captured_at" ms;
  outbound ← field (mkPersistedState 0 "" ∅) dec_state "outbound" ms;
  client ← field (mkPersistedState 0 "" ∅) dec_state "client" ms;
  Some (mkSnapshotFile version captured outbound client).

(** What [os.ReadFile] gives, and what [Load] makes of it *)
Inductive fileRead := FileMissing | FileUnreadable | FileContent (content : string).
Definition read_snapshot (r : fileRead) : snapshot_read :=
  match r with
  | FileMissing => SnapshotMissing
  | FileUnreadable => SnapshotUnreadable
  | FileContent content =>
      match Parse content ≫= dec_snapshotFile with Some f => SnapshotRead f | None => SnapshotUndecodable end
  end.

Inductive snapshotError :=
| CreateDirFailed        (* create quota snapshot dir: %w *)
| ReadFailed             (* read quota snapshot: %w *)
| DecodeFailed.          (* decode quota snapshot: %w *)

(** The trackers a store saves *)
Record SnapshotStore := mkSnapshotStore {
  sst_outbound : option Tracker;
  sst_client : option Tracker
}.

(** An older file has its version only at the top. *)
Definition with_version (version : Z) (p : PersistedState) : PersistedState :=
  if p_Version p =? 0 then mkPersistedState version (p_CapturedAt p) (p_Subjects p) else p.

Definition Load (s : SnapshotStore) (file : snapshot_read) (now : Time) : result snapshotError SnapshotStore :=
  match file with
  | SnapshotMissing => Ok s
  | SnapshotUnreadable => Err ReadFailed
  | SnapshotUndecodable => Err DecodeFailed
  | SnapshotRead f =>
      Ok (mkSnapshotStore (ImportState (sst_outbound s) (with_version (sf_Version f) (sf_Outbound f)) now)
            (ImportState (sst_client s) (with_version (sf_Version f) (sf_Client f)) now))
  end.

Definition zero_persisted : PersistedState := mkPersistedState 0 "" ∅.

(** The file written and the trackers, rolled over by the export *)
Definition Save (s : SnapshotStore) (now : Time) : snapshotFile * SnapshotStore :=
  let '(outbound, out) :=
    match sst_outbound s with Some _ => ExportState (sst_outbound s) now now | None => (zero_persisted, None) end in
  let '(client, cl) :=
    match sst_client s with Some _ => ExportState (sst_client s) now now | None => (zero_persisted, None) end in
  (mkSnapshotFile 3 (format_rfc3339nano now) outbound client, mkSnapshotStore out cl).

(** [newSnapshotStore]: [dir_ok] is whether the directory could be made; [None] when
    there is nothing to save. *)
Definition newSnapshotStore (cfg : GovernanceQuotaSnapshotConfig) (outbound client : option Tracker) (load : bool)
    (dir_ok : bool) (file : snapshot_read) (now : Time) : result snapshotError (option SnapshotStore) :=
  if negb (gqs_Enabled cfg) || match outbound, client with None, None => true | _, _ => false end then Ok None
  else if negb dir_ok then Err CreateDirFailed
  else if load then Some <$> Load (mkSnapshotStore outbound client) file now
  else Ok (Some (mkSnapshotStore outbound client)).

Definition NewSnapshotStore (cfg : GovernanceQuotaSnapshotConfig) (outbound client : option Tracker) :=
  newSnapshotStore cfg outbound client true.
Definition NewSnapshotStoreWithoutLoad (cfg : GovernanceQuotaSnapshotConfig) (outbound client : option Tracker) :=
  newSnapshotStore cfg outbound client false.

(** ** The files *)

Record files := mkFiles { fs_names : gmap string nat; fs_inodes : list string }.
Definition read_file (fs : files) (name : string) : option string :=
  i ← fs_names fs !! name; fs_inodes fs !! i.
(** Opening for writing with [O_CREATE|O_TRUNC] *)
Definition open_trunc (fs : files) (name : string) : nat * files :=
  match fs_names fs !! name with
  | Some i => (i, mkFiles (fs_names fs) (<[i := EmptyString]> (fs_inodes fs)))
  | None => (length (fs_inodes fs), mkFiles (<[name := length (fs_inodes fs)]> (fs_names fs)) (fs_inodes fs ++ [EmptyString]))
  end.
(** A write at the start of an open file *)
Definition write_start (fs : files) (fd : nat) (bytes : string) : files :=
  mkFiles (fs_names fs) (alter (fun old => bytes +:+ str_drop (len bytes) old) fd (fs_inodes fs)).
(** [os.Rename]; [None] when there is no such file *)
Definition rename_file (fs : files) (from to : string) : option files :=
  i ← fs_names fs !! from; Some (mkFiles (<[to := i]> (delete from (fs_names fs))) (fs_inodes fs)).

Definition latest_name : string := "latest.json".
Definition tmp_name : string := "latest.json.tmp".

(** ** A save, call by call *)

(** The rest of [Save] after the export: [os.WriteFile] opens and writes, then the rename *)
Inductive saveState := SaveOpen (payload : string) | SaveWrite (fd : nat) (payload : string) | SaveRename (payload : string).
(** A call succeeds, or fails; a write fails after [n] bytes. *)
Inductive ioResult := IoOk | IoFail (n : nat).
(** The next call: the save goes on, or has ended, with or without an error *)
Definition save_step (fs : files) (st : saveState) (io : ioResult) : files * (saveState + bool) :=
  match st, io with
  | SaveOpen payload, IoOk => let '(fd, fs) := open_trunc fs tmp_name in (fs, inl (SaveWrite fd payload))
  | SaveWrite fd payload, IoOk => (write_start fs fd payload, inl (SaveRename payload))
  | SaveWrite fd payload, IoFail n => (write_start fs fd (str_take n payload), inr true)
  | SaveRename _, IoOk =>
      match rename_file fs tmp_name latest_name with Some fs => (fs, inr false) | None => (fs, inr true) end
  | _, IoFail _ => (fs, inr true)
  end.

(** ** The goroutine and [Close] *)

Inductive loopPhase := LoopIdle | LoopSave (st : saveState) | LoopDone.
Inductive closeError := ContextOver | SaveFailed.
(** [Close]: not called; the ticker stopped; [done] closed and the select reached; in its
    save, with the error so far; returned *)
Inductive closePhase :=
| NotClosed | TickerStopped | CloseWaits
| CloseSaves (err : option closeError) (st : saveState)
| CloseReturned (err : option closeError).
(** [st_tick]: a tick waits in the channel *)
Record quotaSaver := mkQuotaSaver { st_tick : bool; st_loop : loopPhase; st_close : closePhase }.
Definition newQuotaSaver : quotaSaver := mkQuotaSaver false LoopIdle NotClosed.

(** Steps: a tick; [run] takes a tick and exports, makes its next call, returns; [Close]
    stops the ticker, closes [done], finds the goroutine ended or its context over and
    exports, makes its next call *)
Inductive quotaEvent :=
| QTick
| QLoopExport (payload : string)
| QLoopCall (io : ioResult)
| QLoopReturn
| QClose
| QDone
| QWaited (payload : string)
| QContextOver (payload : string)
| QLastCall (io : ioResult).

Definition quota_done_closed (s : quotaSaver) : bool :=
  match st_close s with NotClosed | TickerStopped => false | _ => true end.

(** [run] *)
Definition run_step (fs : files) (s : quotaSaver) (e : quotaEvent) : option (files * quotaSaver) :=
  match e, st_loop s with
  | QLoopExport payload, LoopIdle =>
      if st_tick s then Some (fs, mkQuotaSaver false (LoopSave (SaveOpen payload)) (st_close s)) else None
  | QLoopCall io, LoopSave st =>
      let '(fs, r) := save_step fs st io in
      Some (fs, mkQuotaSaver (st_tick s) match r with inl st => LoopSave st | inr _ => LoopIdle end (st_close s))
  | QLoopReturn, LoopIdle =>
      if quota_done_closed s then Some (fs, mkQuotaSaver (st_tick s) LoopDone (st_close s)) else None
  | _, _ => None
  end.

(** The function [Close] runs once *)
Definition Close_step (fs : files) (s : quotaSaver) (e : quotaEvent) : option (files * quotaSaver) :=
  let next c := Some (fs, mkQuotaSaver (st_tick s) (st_loop s) c) in
  match e, st_close s with
  | QClose, NotClosed => next TickerStopped
  | QDone, TickerStopped => next CloseWaits
  | QWaited payload, CloseWaits =>
      match st_loop s with LoopDone => next (CloseSaves None (SaveOpen payload)) | _ => None end
  | QContextOver payload, CloseWaits => next (CloseSaves (Some ContextOver) (SaveOpen payload))
  | QLastCall io, CloseSaves err st =>
      let '(fs, r) := save_step fs st io in
      Some (fs, mkQuotaSaver (st_tick s) (st_loop s)
        match r with
        | inl st => CloseSaves err st
        | inr failed => CloseReturned (match err with Some _ => err | None => if failed then Some SaveFailed else None end)
        end)
  | _, _ => None
  end.

Definition quota_step (fs : files) (s : quotaSaver) (e : quotaEvent) : option (files * quotaSaver) :=
  match e with
  | QTick => match st_close s with NotClosed => Some (fs, mkQuotaSaver true (st_loop s) (st_close s)) | _ => None end
  | QLoopExport _ | QLoopCall _ | QLoopReturn => run_step fs s e
  | QClose | QDone | QWaited _ | QContextOver _ | QLastCall _ => Close_step fs s e
  end.
Fixpoint quota_run (fs : files) (s : quotaSaver) (l : list quotaEvent) : option (files * quotaSaver) :=
  match l with
  | [] => Some (fs, s)
  | e :: l => match quota_step fs s e with Some (fs, s) => quota_run fs s l | None => None end
  end.

(** Several stores in one directory: each event is of one of them. *)
Fixpoint stores_run (fs : files) (stores : list quotaSaver) (l : list (nat * quotaEvent)) : option (files * list quotaSaver) :=
  match l with
  | [] => Some (fs, stores)
  | (i, e) :: l =>
      match stores !! i ≫= fun s => quota_step fs s e with
      | Some (fs, s) => stores_run fs (<[i := s]> stores) l
      | None => None
      end
  end.

(** ** Older files *)

(** The two forms of a window: the requests of an older one count one each and cost nothing;
    in a newer one the list of events is decoded as it is. *)
Theorem window_forms j w :
  UnmarshalJSON j = Some w ->
  exists ms, as_object j = Some ms /\
  match member "events" ms with
  | Some (raw, events) =>
      if (len raw =? 0)%nat || (raw == "null") then pw_Events w = [] /\ pw_legacy w = false
      else if pw_legacy w then
        as_list dec_event events = None /\ as_list as_string events = Some (map pe_At (pw_Events w)) /\
        Forall (fun e => pe_Requests e = 1 /\ pe_Tokens e = 0 /\ pe_CostMicroUSD e = 0) (pw_Events w)
      else as_list dec_event events = Some (pw_Events w)
  | None => pw_Events w = [] /\ pw_legacy w = false
  end.
Proof.
  unfold UnmarshalJSON. destruct (as_object j) as [ms|]; [|done]. cbn. intros H. exists ms. split; [done|].
  repeat match type of H with ?o ≫= _ = _ => destruct o; [|done]; cbn in H end.
  destruct (member "events" ms) as [[raw events]|]; [|by injection H as <-].
  destruct (_ || _); [by injection H as <-|]. destruct (as_list dec_event events) as [l|] eqn:E; [by injection H as <-|].
  destruct (as_list as_string events) as [l|]; [|done]. injection H as <-. cbn. split; [done|]. split.
  - f_equal. induction l as [|x l IH]; [done|]. cbn. by f_equal.
  - apply Forall_forall. intros e He. by apply list_elem_of_fmap in He as (x & -> & _).
Qed.
Example older_window :
  (fun w => (map pe_At (pw_Events w), map pe_Requests (pw_Events w), pw_legacy w)) <$>
    (Parse (js "{'type':'requests','duration':'5h','events':['2024-05-01T00:00:00Z','2024-05-01T00:00:01Z']}") ≫= UnmarshalJSON) =
  Some (["2024-05-01T00:00:00Z"; "2024-05-01T00:00:01Z"], [1; 1], true).
Proof. by vm_compute. Qed.

(** ** A store alone in its directory *)

(** Names denote inodes there are, and the two names different ones. *)
Definition files_wf (fs : files) : Prop :=
  (forall name i, fs_names fs !! name = Some i -> (i < length (fs_inodes fs))%nat) /\
  (forall i, fs_names fs !! tmp_name = Some i -> fs_names fs !! latest_name <> Some i).
(** What a save under way has in the temporary file *)
Definition holds (fs : files) (st : saveState) : Prop :=
  match st with
  | SaveOpen _ => True
  | SaveWrite fd _ => fs_names fs !! tmp_name = Some fd /\ fs_inodes fs !! fd = Some EmptyString
  | SaveRename payload => read_file fs tmp_name = Some payload
  end.
Definition payload_of (st : saveState) : string :=
  match st with SaveOpen p | SaveWrite _ p | SaveRename p => p end.

Lemma names_differ : latest_name <> tmp_name.
Proof. done. Qed.
Lemma str_drop_nil n : str_drop n "" = "".
Proof. by destruct n. Qed.

Lemma open_trunc_spec fs :
  files_wf fs ->
  let '(fd, fs') := open_trunc fs tmp_name in
  files_wf fs' /\ holds fs' (SaveWrite fd "") /\ read_file fs' latest_name = read_file fs latest_name.
Proof.
  intros [Hr Hd]. unfold open_trunc. destruct (fs_names fs !! tmp_name) as [i|] eqn:E.
  - pose proof (Hr _ _ E) as Hi. split_and!; cbn.
    + split; cbn; [intros name j; rewrite length_insert; apply Hr|intros j; rewrite E; apply Hd].
    + split; [done|]. by apply list_lookup_insert_eq.
    + unfold read_file. cbn. destruct (fs_names fs !! latest_name) as [j|] eqn:El; [|done]. cbn.
      apply list_lookup_insert_ne. intros ->. by apply (Hd j).
  - split_and!; cbn.
    + split; cbn.
      * intros name j. rewrite length_app, lookup_insert_Some. cbn.
        intros [[_ <-]|[_ H%Hr]]; lia.
      * intros j. rewrite lookup_insert_eq, lookup_insert_ne by done. intros [= <-] H%Hr. lia.
    + rewrite lookup_insert_eq. split; [done|]. by rewrite lookup_app_r, Nat.sub_diag by lia.
    + unfold read_file. cbn. rewrite lookup_insert_ne by done. destruct (fs_names fs !! latest_name) as [j|] eqn:El; [|done].
      cbn. apply lookup_app_l. by eapply Hr.
Qed.
Lemma write_start_spec fs fd p bytes :
  files_wf fs -> holds fs (SaveWrite fd p) ->
  files_wf (write_start fs fd bytes) /\ read_file (write_start fs fd bytes) tmp_name = Some bytes /\
  read_file (write_start fs fd bytes) latest_name = read_file fs latest_name.
Proof.
  intros [Hr Hd] [Hn He]. unfold write_start, read_file. cbn. split_and!.
  - split; cbn; [intros name i; rewrite length_alter; apply Hr|done].
  - rewrite Hn. cbn. rewrite list_lookup_alter_eq, He. cbn. rewrite str_drop_nil. by rewrite str_app_nil_r.
  - destruct (fs_names fs !! latest_name) as [j|] eqn:El; [|done]. cbn. apply list_lookup_alter_ne. intros ->. by apply (Hd j).
Qed.
Lemma rename_spec fs p :
  files_wf fs -> holds fs (SaveRename p) ->
  exists fs', rename_file fs tmp_name latest_name = Some fs' /\ files_wf fs' /\ read_file fs' latest_name = Some p.
Proof.
  intros [Hr Hd] H. cbn in H. unfold rename_file, read_file in *. destruct (fs_names fs !! tmp_name) as [i|] eqn:E; [|done].
  eexists. split; [done|]. cbn. split; [split; cbn|by rewrite lookup_insert_eq].
  - intros name j. rewrite lookup_insert_Some, lookup_delete_Some. intros [[_ <-]|[_ [_ H1]]]; by eapply Hr.
  - intros j. rewrite lookup_insert_ne by done. by rewrite lookup_delete_eq.
Qed.

(** One call of a save that has the temporary file for itself *)
Lemma save_step_spec fs st io :
  files_wf fs -> holds fs st ->
  let '(fs', r) := save_step fs st io in
  files_wf fs' /\
  match r with
  | inl st' => holds fs' st' /\ payload_of st' = payload_of st /\ read_file fs' latest_name = read_file fs latest_name
  | inr true => read_file fs' latest_name = read_file fs latest_name
  | inr false => read_file fs' latest_name = Some (payload_of st)
  end.
Proof.
  intros Hwf Hst. destruct st as [p|fd p|p], io as [|n]; cbn [save_step]; try done.
  - pose proof (open_trunc_spec fs Hwf) as H. destruct (open_trunc fs tmp_name) as [fd fs']. by destruct H as (? & ? & ?).
  - by destruct (write_start_spec fs fd p p Hwf Hst) as (? & ? & ?).
  - by destruct (write_start_spec fs fd p (str_take n p) Hwf Hst) as (? & ? & ?).
  - by destruct (rename_spec fs p Hwf Hst) as (fs' & -> & ? & ?).
Qed.

#[local] Arguments read_file : simpl never.

(** What a step exports, if it does *)
Definition exports (e : quotaEvent) : option string :=
  match e with QLoopExport p | QWaited p | QContextOver p => Some p | _ => None end.
Definition context_over (e : quotaEvent) : bool := match e with QContextOver _ => true | _ => false end.

(** At most one save is under way; it has the temporary file for itself, and its payload
    and what [latest.json] holds satisfy [P]. *)
Record lone_inv (P : option string -> Prop) (fs : files) (s : quotaSaver) : Prop := {
  li_wf : files_wf fs;
  li_latest : P (read_file fs latest_name);
  li_loop : match st_loop s with LoopSave st => holds fs st /\ P (Some (payload_of st)) | _ => True end;
  li_close : match st_close s with
             | CloseSaves _ st => st_loop s = LoopDone /\ holds fs st /\ P (Some (payload_of st))
             | CloseReturned _ => st_loop s = LoopDone
             | _ => True
             end
}.

(** While [run] is not over, [Close] is not in its save. *)
Ltac not_closing close Hclose := destruct close; try done; by destruct Hclose.

Lemma lone_inv_step P fs s e fs' s' :
  lone_inv P fs s -> context_over e = false -> (forall p, exports e = Some p -> P (Some p)) ->
  quota_step fs s e = Some (fs', s') -> lone_inv P fs' s'.
Proof.
  intros [Hwf Hl Hloop Hclose] Hc He Hs. destruct s as [t loop close]. cbn in *.
  destruct e as [|p|io| | | |p|p|io]; try done; cbn in Hs.
  - destruct close; try done. injection Hs as <- <-. by split.
  - destruct loop as [|st|]; try done. destruct t; [|done]. injection Hs as <- <-.
    split; cbn; [done|done|split; [done|by apply He]|]. not_closing close Hclose.
  - destruct loop as [|st|]; try done. destruct Hloop as [Hh Hp].
    pose proof (save_step_spec fs st io Hwf Hh) as H. destruct (save_step fs st io) as [fs1 r].
    injection Hs as <- <-. destruct H as [Hwf1 H]. split; cbn; [done| | |].
    + destruct r as [st'|[]]; [destruct H as (_ & _ & ->)|rewrite H|rewrite H]; done.
    + destruct r as [st'|[]]; [|done..]. destruct H as (? & -> & _). done.
    + not_closing close Hclose.
  - destruct loop; try done. destruct (quota_done_closed _); [|done]. injection Hs as <- <-. split; cbn; try done.
    not_closing close Hclose.
  - destruct close; try done. injection Hs as <- <-. by split.
  - destruct close; try done. injection Hs as <- <-. by split.
  - destruct close; try done. destruct loop; try done. injection Hs as <- <-. split; cbn; try done.
    split_and!; [done|done|by apply He].
  - destruct close as [| | |err st|]; try done. destruct Hclose as (-> & Hh & Hp).
    pose proof (save_step_spec fs st io Hwf Hh) as H. destruct (save_step fs st io) as [fs1 r].
    injection Hs as <- <-. destruct H as [Hwf1 H]. split; cbn; [done| |done|].
    + destruct r as [st'|[]]; [destruct H as (_ & _ & ->)|rewrite H|rewrite H]; done.
    + destruct r as [st'|failed]; [|done]. destruct H as (? & -> & _). done.
Qed.

Lemma lone_inv_run P fs s l fs' s' :
  lone_inv P fs s -> Forall (fun e => context_over e = false /\ forall p, exports e = Some p -> P (Some p)) l ->
  quota_run fs s l = Some (fs', s') -> lone_inv P fs' s'.
Proof.
  intros Hi Hl. revert fs s Hi. induction Hl as [|e l [Hc He] Hl IH]; intros fs s Hi; cbn; [by intros [= <- <-]|].
  destruct (quota_step fs s e) as [[fs1 s1]|] eqn:E; [|done]. apply IH. by eapply lone_inv_step.
Qed.

Lemma quota_run_app fs s l1 l2 :
  quota_run fs s (l1 ++ l2) = match quota_run fs s l1 with Some (fs, s) => quota_run fs s l2 | None => None end.
Proof.
  revert fs s. induction l1 as [|e l1 IH]; intros fs s; [done|]. cbn.
  destruct (quota_step fs s e) as [[fs1 s1]|]; [apply IH|done].
Qed.

(** From the export of [Close] on, its save is the only one left. *)
Definition last_payload (p : string) (fs : files) (s : quotaSaver) : Prop :=
  files_wf fs /\ st_loop s = LoopDone /\
  match st_close s with
  | CloseSaves None st => holds fs st /\ payload_of st = p
  | CloseReturned err => err = None -> read_file fs latest_name = Some p
  | _ => False
  end.
Lemma last_payload_step p fs s e fs' s' :
  last_payload p fs s -> quota_step fs s e = Some (fs', s') -> last_payload p fs' s'.
Proof.
  intros (Hwf & Hloop & Hc) Hs. destruct s as [t loop close]. cbn in *. subst loop.
  destruct close as [| | |[err|] st|err]; try done; destruct e as [|q|io| | | |q|q|io]; try done; cbn in Hs.
  destruct Hc as [Hh <-]. pose proof (save_step_spec fs st io Hwf Hh) as H.
  destruct (save_step fs st io) as [fs1 r]. injection Hs as <- <-. destruct H as [Hwf1 H].
  split_and!; [done|done|]. cbn. destruct r as [st'|[]]; [|done|by intros _].
  by destruct H as (? & ? & _).
Qed.
Lemma last_payload_run p fs s l fs' s' :
  last_payload p fs s -> quota_run fs s l = Some (fs', s') -> last_payload p fs' s'.
Proof.
  revert fs s. induction l as [|e l IH]; intros fs s Hi; cbn; [by intros [= <- <-]|].
  destruct (quota_step fs s e) as [[fs1 s1]|] eqn:E; [|done]. apply IH. by eapply last_payload_step.
Qed.

(** C29: the file is never torn while a store is alone.  One store in its directory, with any ticks, failures of calls and whatever the trackers
    hold when they are exported; the context of [Close] has no end.  [latest.json] is as
    it was at the start or the whole of what some save exported.  When [Close] returns nil
    it is what [Close] itself exported after the goroutine had ended, so it has everything
    the trackers had counted when [Close] was called. *)
Theorem lone_store_intact fs0 events fs s :
  files_wf fs0 -> Forall (fun e => context_over e = false) events ->
  quota_run fs0 newQuotaSaver events = Some (fs, s) ->
  (read_file fs latest_name = read_file fs0 latest_name \/
   exists p, p ∈ omap exports events /\ read_file fs latest_name = Some p) /\
  (forall before p after, events = before ++ QWaited p :: after -> st_close s = CloseReturned None ->
     read_file fs latest_name = Some p).
Proof.
  intros Hwf Hc Hrun. split.
  - apply (lone_inv_run (fun r => r = read_file fs0 latest_name \/ exists p, p ∈ omap exports events /\ r = Some p)
      fs0 newQuotaSaver events fs s); [split; cbn; auto| |done].
    rewrite Forall_forall in Hc |- *. intros e He. split; [by apply Hc|]. intros p Hp. right. exists p. split; [|done].
    apply list_elem_of_omap. by exists e.
  - intros before p after -> Hret. rewrite quota_run_app in Hrun.
    destruct (quota_run fs0 newQuotaSaver before) as [[fs1 s1]|] eqn:E; [|done].
    assert (lone_inv (fun _ => True) fs1 s1) as [Hwf1 _ _ _].
    { apply (lone_inv_run _ fs0 newQuotaSaver before); [by split| |done].
      apply Forall_app in Hc as [Hc _]. by eapply Forall_impl; [exact Hc|]. }
    cbn in Hrun. destruct (st_close s1) eqn:Ec; try done. destruct (st_loop s1) eqn:El; try done.
    assert (last_payload p fs s) as (_ & _ & H) by (eapply last_payload_run; [|exact Hrun]; by split_and!).
    rewrite Hret in H. by apply H.
Qed.

(** Two stores in one directory: a reload starts the new store before it closes the old one, and both use the one name
    of the temporary file.  The new store has written it when the [Close] of the old one
    opens it; the rename then puts an empty file in place. *)
Definition ex_files : files := mkFiles {[ latest_name := 0%nat ]} ["{...}"].
Definition reload_saves : list (nat * quotaEvent) :=
  [(1, QTick); (1, QLoopExport "{new}"); (1, QLoopCall IoOk); (1, QLoopCall IoOk);
   (0, QClose); (0, QDone); (0, QLoopReturn); (0, QWaited "{old}"); (0, QLastCall IoOk);
   (1, QLoopCall IoOk)]%nat.
Example shared_temp_torn :
  (fun w => read_file w.1 latest_name) <$> stores_run ex_files [newQuotaSaver; newQuotaSaver] reload_saves = Some (Some "").
Proof. by vm_compute. Qed.
(** The next start then fails, whatever its trackers. *)
Example torn_refused cfg outbound client now :
  gqs_Enabled cfg = true ->
  NewSnapshotStore cfg (Some outbound) client true (read_snapshot (FileContent "")) now = Err DecodeFailed.
Proof. intros H. unfold NewSnapshotStore, newSnapshotStore. rewrite H. by vm_compute. Qed.
(** Also one store alone, when the context of its [Close] ends while [run] saves *)
Definition timeout_saves : list quotaEvent :=
  [QTick; QLoopExport "{1}"; QLoopCall IoOk; QLoopCall IoOk; QClose; QDone; QContextOver "{2}"; QLastCall IoOk; QLoopCall IoOk].
Example timeout_torn :
  (fun w => read_file w.1 latest_name) <$> quota_run ex_files newQuotaSaver timeout_saves = Some (Some "").
Proof. by vm_compute. Qed.

Definition ex_quota_events : list quotaEvent :=
  [QTick; QLoopExport "{1}"; QLoopCall IoOk; QClose; QLoopCall (IoFail 1); QDone; QLoopReturn; QWaited "{2}";
   QLastCall IoOk; QLastCall IoOk; QLastCall IoOk].
Lemma lone_store_intact_witness :
  exists fs s, quota_run ex_files newQuotaSaver ex_quota_events = Some (fs, s) /\ read_file fs latest_name = Some "{2}".
Proof.
  destruct (quota_run ex_files newQuotaSaver ex_quota_events) as [[fs s]|] eqn:E; [|by vm_compute in E].
  exists fs, s. split; [done|].
  destruct (lone_store_intact ex_files ex_quota_events fs s) as [_ H].
  - split.
    + intros name i. unfold ex_files. cbn [fs_names]. intros [_ <-]%lookup_singleton_Some. cbn. lia.
    + intros i. unfold ex_files. cbn [fs_names]. by rewrite lookup_singleton_ne by done.
  - by repeat constructor.
  - exact E.
  - apply (H (take 7 ex_quota_events) "{2}" (drop 8 ex_quota_events)); [done|].
    assert (snd <$> quota_run ex_files newQuotaSaver ex_quota_events =
      Some (mkQuotaSaver false LoopDone (CloseReturned None))) as H2 by by vm_compute.
    rewrite E in H2. by injection H2 as ->.
Defined.
