(* ===== verification/AppRuntime.v ===== *)
(** * Assembling the program

    Models how [internal/app/app.go] builds the running program from a configuration:
    the providers of the enabled outbounds ([newProviderInstance], with
    [internal/provider/registry.go] and [internal/provider/http_client.go]), the router,
    the quota trackers and their snapshot store ([buildRuntimeWithTrackersAndOAuth]),
    and the listeners ([normalizedListeners], [buildListeners]).

    A provider is its type and its name, which is what the router looks at; an HTTP
    client is whether it has a proxy.  [net/url.Parse] and the time zone database are
    parameters, as in [ConfigValidate]. *)

From S2P Require Import Latency Dispatcher.
From S2P Require Import Prelude GoStrings GoTime RuntimeModel ConfigTypes QuotaWindow QuotaTracker QuotaEvents Health Accounting Router ConfigValidate ConfigFacts QuotaSnapshot.

(** ** Provider factories *)

(** An error of this package: a format with its arguments, or the error of a part *)
Inductive appError :=
| AppErr (format : string) (args : list string)
| AppRouterErr (e : routerError)
| AppSnapshotErr (e : snapshotError).

(** A factory makes a provider from a name, an endpoint, keys and capabilities. *)
Definition Factory : Type := string -> string -> list string -> OutboundCapabilities -> result appError Provider.

Record FactoryRegistry := mkFactoryRegistry { factories : gmap string Factory }.

Definition NewFactoryRegistry : FactoryRegistry := mkFactoryRegistry ∅.

(** [None] is the nil factory. *)
Definition Register (r : FactoryRegistry) (protocol : string) (factory : option Factory)
    : result appError FactoryRegistry :=
  if protocol == "" then Err (AppErr "provider protocol is required" []) else
  match factory with
  | None => Err (AppErr "provider factory %q is nil" [protocol])
  | Some factory =>
      match factories r !! protocol with
      | Some _ => Err (AppErr "provider factory %q already registered" [protocol])
      | None => Ok (mkFactoryRegistry (<[protocol := factory]> (factories r)))
      end
  end.

Definition Has (r : FactoryRegistry) (protocol : string) : bool := is_some (factories r !! protocol).

Definition Protocols (r : FactoryRegistry) : list string :=
  sort_by String.ltb (map fst (map_to_list (factories r))).

Definition registry_New (r : FactoryRegistry) (protocol name endpoint authToken : string)
    (capabilities : OutboundCapabilities) : result appError Provider :=
  match factories r !! protocol with
  | None => Err (AppErr "unsupported provider protocol %q" [protocol])
  | Some factory => factory name endpoint (if authToken == "" then [] else [authToken]) capabilities
  end.

Definition make (type : ProviderType) : Factory := fun name _ _ _ => Ok (mkProvider type name).

(** [MustRegister] panics on an error; [newDefaultFactoryRegistry] registers four
    different protocols, so the registry is [Ok]. *)
Definition newDefaultFactoryRegistry : result appError FactoryRegistry :=
  r ← Register NewFactoryRegistry "mock" (Some (make MockProvider));
  r ← Register r "openai_chat" (Some (make OpenAICompatibleProvider));
  r ← Register r "openai_responses" (Some (make OpenAICompatibleProvider));
  Register r "anthropic_messages" (Some (make AnthropicMessagesProvider)).

Definition DefaultFactoryRegistry : FactoryRegistry :=
  match newDefaultFactoryRegistry with Ok r => r | Err _ => NewFactoryRegistry end.

Example default_protocols :
  Protocols DefaultFactoryRegistry = ["anthropic_messages"; "mock"; "openai_chat"; "openai_responses"].
Proof. vm_compute. reflexivity. Qed.

(** ** The runtime *)

Definition enabledOutbounds (c : Config) : list OutboundSpec := List.filter OutboundEnabled (cfg_Outbounds c).

Definition hasQuotaConfig (outbounds : list OutboundSpec) (clients : list ClientSpec) : bool :=
  existsb (fun o => oq_Enabled (ob_Quota o)) outbounds || existsb (fun c => cq_Enabled (cs_Quota c)) clients.

(** The listeners, or one for all inbounds on the server's address *)
Definition normalizedListeners (c : Config) : list ListenerSpec :=
  match cfg_Listeners c with
  | [] => [mkListenerSpec "default" (srv_Listen (cfg_Server c)) (map in_Name (cfg_Inbounds c))]
  | listeners => listeners
  end.

Record appRuntime := mkAppRuntime {
  ar_router : Router;
  ar_outboundQuotaTracker : option Tracker;
  ar_clientQuotaTracker : option Tracker;
  ar_health : option HealthTracker;
  ar_eventRecorder : option EventRecorder;
  ar_prices : PriceCalculator;
  ar_latencyStore : option TraceStore;
  ar_quotaSnapshotStore : option SnapshotStore
}.
Definition ar_dispatcher (rt : appRuntime) : Dispatcher :=
  mkDispatcher (is_some (ar_outboundQuotaTracker rt)) (is_some (ar_clientQuotaTracker rt)) (is_some (ar_health rt))
    (ar_prices rt).

Section build.
Context (tzdb : string -> option Location) (ParseURL : string -> option (string * string))
  (builtIn : list AccountingPriceConfig).

(** The HTTP client: [None] without a proxy, otherwise the proxy *)
Definition NewHTTPClient (proxy : OutboundProxyConfig) : result appError (option (string * string)) :=
  let proxyURL := TrimSpace (op_URL proxy) in
  if proxyURL == "" then Ok None else
  match ParseURL proxyURL with
  | None => Err (AppErr "parse proxy url: %w" [])
  | Some (scheme, host) =>
      if host == "" then Err (AppErr "proxy url host is required" [])
      else if bool_decide (scheme ∈ ["http"; "https"; "socks5"]) then Ok (Some (scheme, host))
      else Err (AppErr "proxy url scheme %q is unsupported" [scheme])
  end.

(** [oauth] is whether there is an OAuth manager. *)
Definition newProviderInstance (registry : FactoryRegistry) (spec : OutboundSpec) (oauth : bool)
    : result appError Provider :=
  if oa_Type (ob_Auth spec) == "" then
    registry_New registry (ob_Protocol spec) (ob_Name spec) (ob_Endpoint spec) (ob_AuthToken spec) (ob_Capabilities spec)
  else if oa_Type (ob_Auth spec) == "claude_consumer_oauth" then
    if oauth then Ok (mkProvider AnthropicMessagesProvider (ob_Name spec))
    else Err (AppErr "oauth manager is required for outbound %q" [ob_Name spec])
  else if oa_Type (ob_Auth spec) == "codex_consumer_oauth" then
    if oauth then Ok (mkProvider OtherProvider (ob_Name spec))
    else Err (AppErr "oauth manager is required for outbound %q" [ob_Name spec])
  else Err (AppErr "outbound %q has unsupported auth type %q" [ob_Name spec; oa_Type (ob_Auth spec)]).

(** One step of the loop over the outbounds *)
Definition add_provider (oauth : bool) (providers : gmap string Provider) (spec : OutboundSpec)
    : result appError (gmap string Provider) :=
  if negb (OutboundEnabled spec) then Ok providers else
  _ ← match NewHTTPClient (ob_Proxy spec) with
      | Ok _ => Ok tt
      | Err _ => Err (AppErr "create outbound %q http client: %w" [ob_Name spec])
      end;
  instance ← newProviderInstance DefaultFactoryRegistry spec oauth;
  Ok (<[ob_Name spec := instance]> providers).

(** [outbound] and [client] are the trackers in use, [None] for nil; [dir_ok], [file]
    and [now] are what the snapshot store meets. *)
Definition buildRuntimeWithTrackersAndOAuth (c : Config) (outbound client : option Tracker) (loadSnapshot oauth : bool)
    (dir_ok : bool) (file : snapshot_read) (now : Time) : result appError appRuntime :=
  providers ← fold_err (add_provider oauth) ∅ (cfg_Outbounds c);
  r ← match Router.New (cfg_Routing c) providers (cfg_Outbounds c) with
      | Ok r => Ok r
      | Err e => Err (AppRouterErr e)
      end;
  let outbound := match outbound with Some t => Some t | None => Some (newTrackerFromOutbounds tzdb []) end in
  let client := match client with Some t => Some t | None => Some (newTrackerFromClients tzdb []) end in
  let outbound := if loadSnapshot then (ReconfigureOutbounds tzdb outbound (enabledOutbounds c)).2 else outbound in
  let client := if loadSnapshot then (ReconfigureClientSpecs tzdb client (cfg_Clients c)).2 else client in
  store ← (if hasQuotaConfig (enabledOutbounds c) (cfg_Clients c) then
             match newSnapshotStore (gq_Snapshot (gov_Quota (cfg_Governance c))) outbound client loadSnapshot dir_ok file now with
             | Ok store => Ok store
             | Err e => Err (AppSnapshotErr e)
             end
           else Ok None);
  let outbound := match store with Some s => sst_outbound s | None => outbound end in
  let client := match store with Some s => sst_client s | None => client end in
  Ok (mkAppRuntime r outbound client
        (NewHealthTracker (map ob_Name (enabledOutbounds c)))
        (NewEventRecorder (gq_Events (gov_Quota (cfg_Governance c))))
        (NewPriceCalculator builtIn (acc_Pricing (cfg_Accounting c))) (Some (NewTraceStore 200)) store).

(** At startup: new trackers, with the snapshot loaded *)
Definition buildRuntimeWithOAuth (c : Config) (oauth dir_ok : bool) (file : snapshot_read) (now : Time) :=
  buildRuntimeWithTrackersAndOAuth c (Some (newTrackerFromOutbounds tzdb [])) (Some (newTrackerFromClients tzdb []))
    true oauth dir_ok file now.
End build.

(** ** Lemmas *)

Lemma NewHTTPClient_validated ParseURL o :
  validateOutboundProxy ParseURL o = Ok tt -> is_Ok (NewHTTPClient ParseURL (ob_Proxy o)) = true.
Proof.
  unfold validateOutboundProxy, NewHTTPClient. destruct (TrimSpace _ == ""); [done|].
  destruct (ParseURL _) as [[scheme host]|]; [|done]. intros H. validated H. breflect.
  apply String.eqb_neq in Hv. rewrite Hv. by rewrite H.
Qed.

(** The type of a validated outbound's credentials is one [newProviderInstance] knows. *)
Lemma validated_auth_type o :
  validateOutboundAuth o = Ok tt -> validate_endpoint o = Ok tt ->
  TrimSpace (oa_Type (ob_Auth o)) = "" \/
  oa_Type (ob_Auth o) ∈ ["claude_consumer_oauth"; "codex_consumer_oauth"].
Proof.
  intros Ha He. unfold validateOutboundAuth in Ha.
  destruct (String.eqb_spec (TrimSpace (oa_Type (ob_Auth o))) "") as [|_]; [by left|right].
  validated Ha. breflect. unfold validate_endpoint in He.
  assert (ob_Protocol o ∈ ["openai_chat"; "openai_responses"; "anthropic_messages"]) as Hp.
  { destruct (String.eqb_spec (TrimSpace (oa_Type (ob_Auth o))) "claude_consumer_oauth").
    - validated Hv2. breflect. rewrite Hv2. set_solver.
    - destruct (String.eqb_spec (TrimSpace (oa_Type (ob_Auth o))) "codex_consumer_oauth"); [|done].
      validated Hv2. breflect. rewrite Hv2. set_solver. }
  rewrite bool_decide_eq_true_2 in He by done.
  destruct ((_ == "claude_consumer_oauth") || _) eqn:E.
  - apply orb_true_iff in E as [->%String.eqb_eq| ->%String.eqb_eq]; set_solver.
  - validated He. breflect. congruence.
Qed.

Lemma supported_factory protocol name endpoint token cap :
  IsSupportedOutbound protocol = true ->
  exists type, registry_New DefaultFactoryRegistry protocol name endpoint token cap = Ok (mkProvider type name).
Proof.
  unfold IsSupportedOutbound. rewrite bool_decide_eq_true. intros H.
  repeat (apply elem_of_cons in H as [->|H]; [by eexists|]). by apply elem_of_nil in H.
Qed.

(** No type of credentials consists of spaces. *)
Definition auth_type_clean (o : OutboundSpec) : Prop :=
  TrimSpace (oa_Type (ob_Auth o)) = "" -> oa_Type (ob_Auth o) = "".

Lemma validated_provider tzdb ParseURL seen o seen' providers :
  validate_outbound tzdb ParseURL seen o = Ok seen' -> auth_type_clean o ->
  exists providers', add_provider ParseURL true providers o = Ok providers' /\
    (OutboundEnabled o = true -> is_Some (providers' !! ob_Name o)) /\
    forall name, is_Some (providers !! name) -> is_Some (providers' !! name).
Proof.
  intros Ho Hclean. unfold validate_outbound in Ho. validated Ho. clear Ho.
  unfold add_provider. destruct (OutboundEnabled o) eqn:En; cbn [negb]; [|by exists providers].
  apply NewHTTPClient_validated in Hv7. destruct (NewHTTPClient ParseURL (ob_Proxy o)); [|done]. cbn.
  assert (exists p, newProviderInstance DefaultFactoryRegistry o true = Ok p) as [p ->].
  { unfold newProviderInstance. destruct (validated_auth_type o Hv3 Hv4) as [Ht|Ht].
    - rewrite (Hclean Ht). breflect.
      destruct (supported_factory (ob_Protocol o) (ob_Name o) (ob_Endpoint o) (ob_AuthToken o) (ob_Capabilities o))
        as [type ->]; [done|]. by eexists.
    - apply elem_of_cons in Ht as [->|Ht]; [by eexists|]. apply list_elem_of_singleton in Ht as ->. by eexists. }
  cbn. eexists. split; [reflexivity|]. split.
  - intros _. rewrite lookup_insert_eq. by eexists.
  - intros name Hn. rewrite lookup_insert_is_Some. destruct (decide (ob_Name o = name)); tauto.
Qed.

Lemma validated_providers tzdb ParseURL outbounds providers :
  Forall (fun o => exists seen seen', validate_outbound tzdb ParseURL seen o = Ok seen') outbounds ->
  Forall auth_type_clean outbounds ->
  exists providers', fold_err (add_provider ParseURL true) providers outbounds = Ok providers' /\
    (forall o, o ∈ outbounds -> OutboundEnabled o = true -> is_Some (providers' !! ob_Name o)) /\
    forall name, is_Some (providers !! name) -> is_Some (providers' !! name).
Proof.
  revert providers. induction outbounds as [|o l IH]; intros providers Hall Hclean.
  - exists providers. split; [done|]. split; [|done]. by intros o Ho%elem_of_nil.
  - inversion Hall as [|? ? (seen & seen' & Ho) Hl]; inversion Hclean as [|? ? Hc Hcl]; subst.
    destruct (validated_provider _ _ _ _ _ providers Ho Hc) as (p1 & H1 & Hin & Hk).
    destruct (IH p1 Hl Hcl) as (p2 & H2 & Hin2 & Hk2). exists p2. cbn. rewrite H1. cbn.
    split; [done|]. split; [|intros; by apply Hk2, Hk].
    intros x [->|Hx]%elem_of_cons Hx'; [by apply Hk2, Hin|by apply Hin2].
Qed.

(** ** Properties *)

(** C33: a validated configuration can be run.  If no outbound's credential type
    consists of spaces, if there is an OAuth manager, and if the snapshot directory and
    file can be used, building a runtime for a configuration [Validate] accepts
    succeeds, and its router has a provider for every enabled outbound. *)
Theorem validated_config_builds tzdb ParseURL builtIn c c' outbound client loadSnapshot file now :
  Validate tzdb ParseURL c = (Ok tt, c') -> Forall auth_type_clean (cfg_Outbounds c') ->
  file <> SnapshotUnreadable -> file <> SnapshotUndecodable ->
  exists rt, buildRuntimeWithTrackersAndOAuth tzdb ParseURL builtIn c' outbound client loadSnapshot true true file now = Ok rt /\
    forall o, o ∈ cfg_Outbounds c' -> OutboundEnabled o = true ->
      is_Some (r_providers (ar_router rt) !! ob_Name o).
Proof.
  intros (names & tokens & inputs & tags & _ & _ & _ & _ & Ho & Hr)%Validate_inv Hclean Hf1 Hf2.
  apply validate_outbounds_each in Ho as [Hall Htags].
  destruct (validated_providers _ _ _ ∅ Hall Hclean) as (providers & Hp & Hin & _).
  unfold buildRuntimeWithTrackersAndOAuth. rewrite Hp. cbn [mbind result_bind].
  destruct (New_total (cfg_Routing c') providers (cfg_Outbounds c') Hin) as [r Hnew].
  { intros rule tag (i & Hi)%list_elem_of_lookup Htag.
    apply Hr, validate_rule_ok in Hi as (_ & _ & Hto & _). rewrite Forall_forall in Hto.
    apply Hto, Htags, list_elem_of_fmap in Htag as (o & -> & Hino). by exists o. }
  rewrite Hnew. cbn [mbind result_bind]. apply New_inv in Hnew as (t & _ & ->).
  destruct (hasQuotaConfig _ _); [|by eexists].
  unfold newSnapshotStore. destruct (negb _ || _); [by eexists|]. cbn [negb].
  destruct loadSnapshot; [|by eexists]. destruct file; try done; by eexists.
Qed.

(** ** Witnesses *)

Lemma validated_config_builds_witness :
  exists rt, buildRuntimeWithTrackersAndOAuth witness_zone witness_url [] witness_config' None None true true true
    SnapshotMissing (date_utc 2024 5 1 0 0 0 0) = Ok rt.
Proof.
  destruct (validated_config_builds witness_zone witness_url [] witness_config witness_config' None None true
    SnapshotMissing (date_utc 2024 5 1 0 0 0 0)) as (rt & H & _).
  - vm_compute. reflexivity.
  - constructor; [by intros _|constructor].
  - done.
  - done.
  - exists rt. exact H.
Defined.

(** An outbound whose credential type is a space is valid but has no provider. *)
Definition blank_auth_outbound : OutboundSpec :=
  mkOutboundSpec "gpt" "openai_chat" "https://api" "key" (mkOutboundAuthConfig " " "") "main" None []
    zero_capabilities (mkOutboundQuotaConfig false [] "" "" (mkQuotaResetAllConfig false zero_reset_schedule))
    (mkOutboundProxyConfig "").
Example blank_auth_type_valid_but_unbuildable :
  is_Ok (validate_outbound witness_zone witness_url ∅ blank_auth_outbound) = true /\
  newProviderInstance DefaultFactoryRegistry blank_auth_outbound true =
    Err (AppErr "outbound %q has unsupported auth type %q" ["gpt"; " "]).
Proof. vm_compute. done. Qed.
