(* ===== verification/Reload.v ===== *)
(** * Changing the configuration of the running program

    Models [internal/app/reload.go]: [ReloadManager] with its operations [ApplyConfig],
    [MutateConfig], [UpdateConfig], [Rollback], [History] and [HistoryDiff], the reasons
    for which a change needs a restart, the swap of the runtime ([applyRuntimeLocked])
    and the history of configurations ([configHistory]); and [WriteValidatedFile] of
    [internal/config/config.go].

    Every operation holds the manager's mutex and is a function on the [World]: the
    program's state, the configuration file, the history directory.  What the
    environment does is given by two functions of the number of the step: [fails] says
    how each file operation goes and [clock] what each reading of the clock gives, so a
    theorem about all of them is one about every failure.  [WriteValidatedFile] writes a
    temporary file and renames it: if any of its calls fails, the file is as it was.

    The quota trackers are shared between the runtimes, which hold the same pointers;
    they are the program's ([App]).  YAML, SHA-256 and time zones are parameters. *)

From S2P Require Import Latency Dispatcher.
From S2P Require Import Prelude GoStrings GoTime GoTimeFacts RuntimeModel ConfigTypes QuotaWindow QuotaTracker QuotaEvents Health Accounting Router ConfigValidate ConfigFacts ConfigResources ConfigParse QuotaSnapshot AppRuntime.

(** ** Data *)

Definition configHistoryLimit : nat := 20.

Record ReloadResult := mkReloadResult {
  rr_OK : bool;
  rr_Saved : bool;
  rr_Applied : bool;
  rr_RestartRequired : bool;
  rr_Reason : string;
  rr_HistoryID : string;
  rr_QuotaStateReset : bool
}.
Definition zero_result : ReloadResult := mkReloadResult false false false false "" "" false.

Record HistoryItem := mkHistoryItem {
  hi_ID : string;
  hi_CreatedAt : string;
  hi_Reason : string;
  hi_Path : string;
  hi_Checksum : string
}.

(** [gateway.RuntimeState], what a listener's handler serves with.  The trackers, the
    recorder and the store of traces are pointers: the fields hold what they point to when
    the handler is given them; what a request then does to them is the state of the calls
    ([Gateway], [App] for the trackers of quotas).  The dispatcher is which trackers it has
    and its prices. *)
Record RuntimeState := mkRuntimeState {
  rs_Router : Router;
  rs_Dispatcher : Dispatcher;
  rs_Clients : list ClientSpec;
  rs_Inbounds : list InboundSpec;
  rs_ClientQuotaTracker : option Tracker;
  rs_EventRecorder : option EventRecorder;
  rs_LatencyStore : option TraceStore;
  rs_Accounting : AccountingConfig;
  rs_Admin : AdminConfig;
  rs_ConfigPath : string
}.

(** The parts of [App] a reload changes, with the handlers' states ([bindings]) *)
Record App := mkApp {
  app_cfg : Config;
  app_configPath : string;
  app_outboundQuotaTracker : option Tracker;
  app_clientQuotaTracker : option Tracker;
  app_snapshotting : bool;
  app_bindings : list RuntimeState
}.

(** The history directory: the YAML files and the metadata files by identifier; [None]
    is a metadata file that cannot be decoded. *)
Record Files := mkFiles {
  f_config : option string;
  f_yaml : gmap string string;
  f_meta : gmap string (option HistoryItem)
}.

Record World := mkWorld { w_app : App; w_files : Files; w_step : nat }.

Inductive reloadError :=
| ReloadErr (format : string) (args : list string)
| ReloadConfigErr (e : configError)
| ReloadMutationErr (e : mutationError)
| ReloadBuildErr (e : appError)
| RevisionConflict (currentRevision : string)
| RestartPending (reason : string)
| Panic.

(** How a file operation goes; [FaultDirty] is a write that fails half way. *)
Inductive fault := NoFault | Fault | FaultDirty.

Definition M (A : Type) : Type := World -> result reloadError A * World.
#[export] Instance M_ret : MRet M := fun A a w => (Ok a, w).
#[export] Instance M_bind : MBind M := fun A B f m w =>
  match m w with (Ok a, w) => f a w | (Err e, w) => (Err e, w) end.

Definition fail {A} (e : reloadError) : M A := fun w => (Err e, w).
Definition lift {A} (r : result reloadError A) : M A := fun w => (r, w).
Definition get : M World := fun w => (Ok w, w).
Definition set_files (f : Files -> Files) : M unit := fun w => (Ok tt, mkWorld (w_app w) (f (w_files w)) (w_step w)).
Definition set_app (f : App -> App) : M unit := fun w => (Ok tt, mkWorld (f (w_app w)) (w_files w) (w_step w)).
Definition next_step : M nat := fun w => (Ok (w_step w), mkWorld (w_app w) (w_files w) (S (w_step w))).

(** [if err != nil { _ = h() ; return err }] *)
Definition on_error {A} (m : M A) (h : M unit) : M A := fun w =>
  match m w with
  | (Err e, w) => (Err e, (h w).2)
  | ok => ok
  end.

Definition put_config (data : string) (f : Files) : Files := mkFiles (Some data) (f_yaml f) (f_meta f).
Definition put_yaml (id data : string) (f : Files) : Files := mkFiles (f_config f) (<[id := data]> (f_yaml f)) (f_meta f).
Definition put_meta (id : string) (item : option HistoryItem) (f : Files) : Files :=
  mkFiles (f_config f) (f_yaml f) (<[id := item]> (f_meta f)).
Definition drop_yaml (id : string) (f : Files) : Files := mkFiles (f_config f) (delete id (f_yaml f)) (f_meta f).
Definition drop_meta (id : string) (f : Files) : Files := mkFiles (f_config f) (f_yaml f) (delete id (f_meta f)).

(** ** Reasons to restart *)

Definition effectiveOAuthDir (c : OAuthConfig) : string := or_default (oauth_Dir c) "./data/oauth".

Definition effectiveAdminLogsConfig (l : AdminLogsConfig) : AdminLogsConfig :=
  mkAdminLogsConfig (al_Enabled l) (or_default (al_Path l) "tmp/dev.log") (al_MaxBytes l)
    (default_rotation (al_Rotation l)).

Definition loggingConfigurationChanged (current next : AdminLogsConfig) : bool :=
  let current := effectiveAdminLogsConfig current in
  let next := effectiveAdminLogsConfig next in
  (al_Path current != al_Path next) ||
  (let r := al_Rotation current in
   let n := al_Rotation next in
   negb (alr_MaxSizeMB r =? alr_MaxSizeMB n) || negb (alr_MaxFiles r =? alr_MaxFiles n) ||
   negb (alr_MaxAgeDays r =? alr_MaxAgeDays n) || negb (alr_MaxTotalSizeMB r =? alr_MaxTotalSizeMB n) ||
   negb (Bool.eqb (CompressionEnabled r) (CompressionEnabled n))).

(** [strings.Join(inbounds, "\x00")] *)
Definition join0 (l : list string) : string :=
  match l with
  | [] => ""
  | x :: l => foldl (fun acc s => acc +:+ String (byte 0) s) x l
  end.

(** The loop over the listeners, which are equally many *)
Fixpoint listeners_changed (current next : list ListenerSpec) : string :=
  match current, next with
  | c :: current, n :: next =>
      if ls_Name c != ls_Name n then "listener name changed"
      else if ls_Listen c != ls_Listen n then "listener listen address changed"
      else if join0 (ls_Inbounds c) != join0 (ls_Inbounds n) then "listener inbound binding changed"
      else listeners_changed current next
  | _, _ => ""
  end.

Definition restartRequiredReason (current next : Config) : string :=
  let cs := default_snapshot (sess_Snapshot (cfg_Sessions current)) in
  let ns := default_snapshot (sess_Snapshot (cfg_Sessions next)) in
  if effectiveOAuthDir (cfg_OAuth current) != effectiveOAuthDir (cfg_OAuth next) then
    "OAuth credential directory changed"
  else if negb (Bool.eqb (EnabledEffective cs) (EnabledEffective ns)) || (ss_Dir cs != ss_Dir ns) ||
          negb (DurationOf (ss_FlushInterval cs) =? DurationOf (ss_FlushInterval ns)) then
    "session snapshot configuration changed"
  else if negb (length (normalizedListeners current) =? length (normalizedListeners next))%nat then
    "listener count changed"
  else
    let reason := listeners_changed (normalizedListeners current) (normalizedListeners next) in
    if reason != "" then reason
    else if loggingConfigurationChanged (adm_Logs (cfg_Admin current)) (adm_Logs (cfg_Admin next)) then
      "logging configuration changed"
    else "".

(** ** The history *)

(** [now.Format("20060102-150405")] of a UTC time *)
Definition history_stamp (t : Time) : string :=
  let c := civil t in
  format_year (c_year c) +:+ fixed_digits 2 (c_month c) +:+ fixed_digits 2 (c_day c) +:+ "-" +:+
  fixed_digits 2 (c_hour c) +:+ fixed_digits 2 (c_min c) +:+ fixed_digits 2 (c_sec c).

Example history_stamp_1 : history_stamp (date_utc 2024 5 1 9 30 7 5) = "20240501-093007".
Proof. vm_compute. reflexivity. Qed.

Definition newer (x y : HistoryItem) : bool := String.ltb (hi_CreatedAt y) (hi_CreatedAt x).

Section manager.
Context (tzdb : string -> option Location) (ParseURL : string -> option (string * string))
  (unmarshal : string -> option Node) (decode : Node -> option Config) (decodeLegacy : Node -> option legacyConfig)
  (marshal : Config -> option string) (marshalNode : Node -> option string) (checksumHex : string -> string)
  (builtIn : list AccountingPriceConfig) (oauth : bool).
(** The environment: the outcome of each file operation, each reading of the clock *)
Context (fails : nat -> fault) (clock : nat -> Time).

Definition parse (data : string) : result reloadError Config :=
  match ParseBytes tzdb ParseURL unmarshal decode decodeLegacy data with
  | Ok c => Ok c
  | Err e => Err (ReloadConfigErr e)
  end.

Definition configRevision (data : string) : string := "sha256:" +:+ checksumHex data.

(** A file operation: its effect when it goes well, what is left when it fails half way *)
Definition file_op (format : string) (effect dirty : Files -> Files) : M unit :=
  n ← next_step;
  match fails n with
  | NoFault => set_files effect
  | Fault => fail (ReloadErr format [])
  | FaultDirty => _ ← set_files dirty; fail (ReloadErr format [])
  end.

(** An operation whose error is ignored *)
Definition try_op (effect : Files -> Files) : M unit :=
  n ← next_step;
  match fails n with NoFault => set_files effect | _ => mret tt end.

Definition same (f : Files) : Files := f.

Definition readConfig (format : string) : M string :=
  _ ← file_op format same same;
  w ← get;
  match f_config (w_files w) with
  | Some data => mret data
  | None => fail (ReloadErr format [])
  end.

Definition WriteValidatedFile (path data : string) : M unit :=
  _ ← lift (parse data);
  _ ← lift (if path == "" then Err (ReloadErr "config path is required" []) else Ok tt);
  file_op "replace config: %w" (put_config data) same.

(** The metadata files in the directory, newest first.  The order of files with one
    creation time is unspecified. *)
Definition list_items (f : Files) : option (list HistoryItem) :=
  items ← mapM (fun p => p.2) (map_to_list (f_meta f)); Some (sort_by newer items).

Definition List_ : M (list HistoryItem) :=
  _ ← file_op "read history: %w" same same;
  w ← get;
  match list_items (w_files w) with
  | Some items => mret items
  | None => fail (ReloadErr "decode history: %w" [])
  end.

Definition Prune (limit : nat) : M unit :=
  items ← List_;
  foldl (fun m item => _ ← m; _ ← try_op (drop_yaml (hi_ID item)); try_op (drop_meta (hi_ID item)))
    (mret tt) (drop limit items).

Definition SaveBytes (data reason : string) : M string :=
  _ ← file_op "create config history dir: %w" same same;
  n ← next_step;
  let now := clock n in
  let checksum := checksumHex data in
  let id := history_stamp now +:+ "-" +:+ str_take 8 checksum in
  _ ← file_op "write config history: %w" (put_yaml id data) (put_yaml id "");
  let item := mkHistoryItem id (format_rfc3339nano now) reason (id +:+ ".yaml") checksum in
  _ ← file_op "write config history metadata: %w" (put_meta id (Some item)) (put_meta id None);
  _ ← Prune configHistoryLimit;
  mret id.

Definition SaveConfig (c : Config) (reason : string) : M string :=
  match marshal c with
  | None => fail (ReloadErr "marshal" [])
  | Some data => SaveBytes data reason
  end.

(** [configHistory.Read]; an empty identifier is the newest. *)
Definition Read (id : string) : M (string * HistoryItem) :=
  items ← List_;
  let id := if id == "" then match items with item :: _ => hi_ID item | [] => id end else id in
  match find (fun item => hi_ID item == id) items with
  | None => fail (ReloadErr "history item %q not found" [id])
  | Some item =>
      _ ← file_op "read history data: %w" same same;
      w ← get;
      match f_yaml (w_files w) !! hi_ID item with
      | Some data => mret (data, item)
      | None => fail (ReloadErr "read history data: %w" [])
      end
  end.

(** ** Applying a configuration *)

Definition normalizeAdminConfig (cfg : AdminConfig) : AdminConfig :=
  let l := adm_Logs cfg in
  mkAdminConfig (adm_Enabled cfg) (adm_Token cfg)
    (mkAdminLogsConfig (al_Enabled l) (or_default (al_Path l) "tmp/dev.log")
       (if al_MaxBytes l <=? 0 then 65536 else al_MaxBytes l) (al_Rotation l)).

(** [Handler.ApplyRuntime]: the state the handler serves with from now on *)
Definition ApplyRuntime (s : RuntimeState) : RuntimeState :=
  mkRuntimeState (rs_Router s) (rs_Dispatcher s) (rs_Clients s) (rs_Inbounds s) (rs_ClientQuotaTracker s)
    (rs_EventRecorder s) (rs_LatencyStore s) (rs_Accounting s) (normalizeAdminConfig (rs_Admin s)) (rs_ConfigPath s).

Definition runtime_state (app : App) (next : Config) (rt : appRuntime) (listener : ListenerSpec) : RuntimeState :=
  ApplyRuntime (mkRuntimeState (ar_router rt) (ar_dispatcher rt) (cfg_Clients next) (ListenerInbounds next listener)
    (ar_clientQuotaTracker rt) (ar_eventRecorder rt) (ar_latencyStore rt) (cfg_Accounting next) (cfg_Admin next) (app_configPath app)).

(** The loop over the bindings reads [listeners\[i\]]: out of range it panics. *)
Definition rebind (app : App) (next : Config) (rt : appRuntime) : option (list RuntimeState) :=
  mapM (fun i => runtime_state app next rt <$> normalizedListeners next !! i) (seq 0 (length (app_bindings app))).

(** The runtime with its trackers of quotas as they are after a change in place *)
Definition with_trackers (rt : appRuntime) (outbound client : option Tracker) : appRuntime :=
  mkAppRuntime (ar_router rt) outbound client (ar_health rt) (ar_eventRecorder rt) (ar_prices rt) (ar_latencyStore rt)
    (ar_quotaSnapshotStore rt).

Definition applyRuntimeLocked (next : Config) (rt : appRuntime) : M bool :=
  w ← get;
  let app := w_app w in
  let '(reset1, outbound) := ReconfigureOutbounds tzdb (ar_outboundQuotaTracker rt) (enabledOutbounds next) in
  let '(reset2, client) := ReconfigureClientSpecs tzdb (ar_clientQuotaTracker rt) (cfg_Clients next) in
  match rebind app next (with_trackers rt outbound client) with
  | None => fail Panic
  | Some bindings =>
      _ ← set_app (fun app => mkApp next (app_configPath app) outbound client
                                (match ar_quotaSnapshotStore rt with Some _ => true | None => false end) bindings);
      mret (reset2 || reset1)
  end.

(** [buildRuntimeWithTrackersAndOAuth] with the trackers in use and no snapshot to load *)
Definition buildRuntime (next : Config) : M appRuntime :=
  n ← next_step;
  w ← get;
  lift match buildRuntimeWithTrackersAndOAuth tzdb ParseURL builtIn next (app_outboundQuotaTracker (w_app w))
               (app_clientQuotaTracker (w_app w)) false oauth
               (match fails n with NoFault => true | _ => false end) SnapshotMissing (clock n) with
       | Ok rt => Ok rt
       | Err e => Err (ReloadBuildErr e)
       end.

Definition require_path : M string :=
  w ← get;
  if app_configPath (w_app w) == "" then fail (ReloadErr "config path is not configured" [])
  else mret (app_configPath (w_app w)).

Definition applyConfigLocked (reason : string) : M ReloadResult :=
  _ ← require_path;
  data ← readConfig "read config: %w";
  next ← lift (parse data);
  w ← get;
  let restartReason := restartRequiredReason (app_cfg (w_app w)) next in
  if restartReason != "" then mret (mkReloadResult true false false true restartReason "" false) else
  rt ← buildRuntime next;
  historyID ← SaveConfig (app_cfg (w_app w)) reason;
  quotaStateReset ← applyRuntimeLocked next rt;
  mret (mkReloadResult true false true false reason historyID quotaStateReset).

Definition ApplyConfig : M ReloadResult := applyConfigLocked "apply".

Definition MutateConfig (reason : string) (mutate : option (Config -> result mutationError Config)) : M ReloadResult :=
  path ← require_path;
  match mutate with
  | None => fail (ReloadErr "config mutation is required" [])
  | Some mutate =>
      currentData ← readConfig "read config: %w";
      current ← lift (parse currentData);
      w ← get;
      let pendingReason := restartRequiredReason (app_cfg (w_app w)) current in
      if pendingReason != "" then fail (RestartPending pendingReason) else
      next ← lift (match mutate current with Ok c => Ok c | Err e => Err (ReloadMutationErr e) end);
      nextData ← lift (match marshal next with
                       | Some data => Ok data
                       | None => Err (ReloadErr "marshal config: %w" [])
                       end);
      next ← lift (parse nextData);
      let restartReason := restartRequiredReason (app_cfg (w_app w)) next in
      if restartReason != "" then fail (RestartPending restartReason) else
      rt ← buildRuntime next;
      historyID ← SaveBytes currentData reason;
      _ ← WriteValidatedFile path nextData;
      quotaStateReset ← applyRuntimeLocked next rt;
      mret (mkReloadResult true true true false reason historyID quotaStateReset)
  end.

(** [UpdateConfig]: the new revision, after a write that the expected revision allows *)
Definition UpdateConfig (expectedRevision data : string) : M string :=
  path ← require_path;
  current ← readConfig "read current config: %w";
  let currentRevision := configRevision current in
  if (expectedRevision != "*") && (TrimSpace expectedRevision != currentRevision) then
    fail (RevisionConflict currentRevision)
  else
    _ ← lift (parse data);
    _ ← WriteValidatedFile path data;
    mret (configRevision data).

Definition Rollback (id : string) : M ReloadResult :=
  path ← require_path;
  '(data, item) ← Read id;
  _ ← lift (parse data);
  current ← readConfig "read current config: %w";
  _ ← SaveBytes current ("rollback_before_" +:+ hi_ID item);
  _ ← WriteValidatedFile path data;
  on_error (applyConfigLocked ("rollback_" +:+ hi_ID item)) (WriteValidatedFile path current).

(** [History]: errors are an empty list. *)
Definition History : M (list HistoryItem) := fun w =>
  match List_ w with
  | (Ok items, w) => (Ok items, w)
  | (Err _, w) => (Ok [], w)
  end.

Definition redactedConfigYAML (data : string) : result reloadError string :=
  match unmarshal data with
  | None => Err (ReloadErr "parse config: %w" [])
  | Some document =>
      match marshalNode (redactYAMLNode document) with
      | Some text => Ok text
      | None => Err (ReloadErr "parse config: %w" [])
      end
  end.

Definition HistoryDiff (id : string) : M (string * string * string) :=
  _ ← require_path;
  current ← readConfig "read current config: %w";
  '(historyData, item) ← Read (TrimSpace id);
  currentContent ← lift (redactedConfigYAML current);
  historyContent ← lift (redactedConfigYAML historyData);
  mret (hi_ID item, currentContent, historyContent).
End manager.
