(* ===== verification/ReloadFacts.v ===== *)
(** * Reloading is transactional

    What [Reload] promises whatever fails: no operation panics, a change either takes
    effect in the file and in the program or in neither, a rollback that fails leaves
    the file and the program as they were, and an update never overwrites a version its
    author has not seen. *)

From S2P Require Import Dispatcher.
From S2P Require Import Prelude GoStrings GoTime RuntimeModel ConfigTypes QuotaWindow QuotaTracker Accounting Router ConfigValidate ConfigFacts ConfigResources AdminConfig ConfigParse QuotaSnapshot AppRuntime Reload.

(** ** Reasoning on [M] *)

Lemma M_bind_inv {A B} (m : M A) (f : A -> M B) w r w' :
  (m ≫= f) w = (r, w') ->
  (exists a w1, m w = (Ok a, w1) /\ f a w1 = (r, w')) \/ (exists e, m w = (Err e, w') /\ r = Err e).
Proof.
  unfold mbind, M_bind. destruct (m w) as [[a|e] w1]; [intros H; left; eauto|].
  intros H. simplify_eq. right. eauto.
Qed.

(** [keeps R m]: however it ends, [m] only makes changes that [R] allows, and it does not
    panic. *)
Definition keeps {A} (R : World -> World -> Prop) (m : M A) : Prop :=
  forall w, R w (m w).2 /\ (m w).1 <> Err Panic.

Section keeps.
Context (R : World -> World -> Prop) `{!PreOrder R}.

Lemma keeps_ret {A} (a : A) : keeps R (mret a).
Proof. by intros w. Qed.
Lemma keeps_fail {A} e : e <> Panic -> keeps R (fail (A := A) e).
Proof. intros He w. split; [reflexivity|]. by intros [= ->]. Qed.
Lemma keeps_lift {A} (r : result reloadError A) : r <> Err Panic -> keeps R (lift r).
Proof. by intros w. Qed.
Lemma keeps_get : keeps R get.
Proof. by intros w. Qed.
Lemma keeps_bind {A B} (m : M A) (f : A -> M B) : keeps R m -> (forall a, keeps R (f a)) -> keeps R (m ≫= f).
Proof.
  intros Hm Hf w. unfold mbind, M_bind. destruct (Hm w) as [H1 H2]. destruct (m w) as [[a|e] w1].
  - destruct (Hf a w1). split; [by etransitivity|done].
  - split; [done|]. cbn in *. intros [= ->]. done.
Qed.
End keeps.

(** The same program; the same program and the same configuration file *)
Definition same_app (w w' : World) : Prop := w_app w' = w_app w.
Definition same_config (w w' : World) : Prop := w_app w' = w_app w /\ f_config (w_files w') = f_config (w_files w).

#[export] Instance same_app_PreOrder : PreOrder same_app.
Proof. split; [done|]. intros a b c. unfold same_app. congruence. Qed.
#[export] Instance same_config_PreOrder : PreOrder same_config.
Proof. split; [done|]. intros a b c. unfold same_config. intuition congruence. Qed.

Create HintDb keeps discriminated.
#[export] Hint Resolve keeps_ret keeps_fail keeps_lift keeps_get : keeps.
#[export] Hint Extern 1 (PreOrder _) => apply _ : keeps.
#[export] Hint Extern 1 (_ <> Panic) => discriminate : keeps.
#[export] Hint Extern 1 (_ <> Err Panic) => discriminate : keeps.

Ltac keeps :=
  repeat first
    [ apply keeps_bind; [apply _| |intros]
    | progress auto with keeps
    | case_match ].

Section facts.
Context (tzdb : string -> option Location) (ParseURL : string -> option (string * string))
  (unmarshal : string -> option Node) (decode : Node -> option Config) (decodeLegacy : Node -> option legacyConfig)
  (marshal : Config -> option string) (marshalNode : Node -> option string) (checksumHex : string -> string)
  (builtIn : list AccountingPriceConfig) (oauth : bool) (fails : nat -> fault) (clock : nat -> Time).

#[local] Abbreviation parse := (parse tzdb ParseURL unmarshal decode decodeLegacy).
#[local] Abbreviation WriteValidatedFile := (WriteValidatedFile tzdb ParseURL unmarshal decode decodeLegacy fails).
#[local] Abbreviation SaveBytes := (SaveBytes checksumHex fails clock).
#[local] Abbreviation SaveConfig := (SaveConfig marshal checksumHex fails clock).
#[local] Abbreviation applyRuntimeLocked := (applyRuntimeLocked tzdb).
#[local] Abbreviation buildRuntime := (buildRuntime tzdb ParseURL builtIn oauth fails clock).
#[local] Abbreviation applyConfigLocked :=
  (applyConfigLocked tzdb ParseURL unmarshal decode decodeLegacy marshal checksumHex builtIn oauth fails clock).
#[local] Abbreviation MutateConfig :=
  (MutateConfig tzdb ParseURL unmarshal decode decodeLegacy marshal checksumHex builtIn oauth fails clock).
#[local] Abbreviation UpdateConfig :=
  (UpdateConfig tzdb ParseURL unmarshal decode decodeLegacy checksumHex fails).
#[local] Abbreviation Rollback :=
  (Rollback tzdb ParseURL unmarshal decode decodeLegacy marshal checksumHex builtIn oauth fails clock).

(** *** What each step may change *)

Lemma keeps_next_step : keeps same_config next_step.
Proof. intros w. by split. Qed.

Lemma keeps_file_op R format effect dirty :
  (forall w, R w (mkWorld (w_app w) (w_files w) (S (w_step w)))) ->
  (forall w, R w (mkWorld (w_app w) (effect (w_files w)) (S (w_step w)))) ->
  (forall w, R w (mkWorld (w_app w) (dirty (w_files w)) (S (w_step w)))) ->
  keeps R (file_op fails format effect dirty).
Proof.
  intros H0 H1 H2 w. unfold file_op, next_step, mbind, M_bind, set_files, fail. cbn.
  by destruct (fails (w_step w)); cbn.
Qed.

Lemma keeps_config_op format effect dirty :
  (forall f, f_config (effect f) = f_config f) -> (forall f, f_config (dirty f) = f_config f) ->
  keeps same_config (file_op fails format effect dirty).
Proof. intros H1 H2. apply keeps_file_op; intros w; split; cbn; auto. Qed.

Lemma keeps_try_op effect :
  (forall f, f_config (effect f) = f_config f) -> keeps same_config (try_op fails effect).
Proof.
  intros H w. unfold try_op, next_step, mbind, M_bind, set_files. cbn.
  destruct (fails (w_step w)); cbn; (split; [split; cbn; auto|done]).
Qed.

Lemma keeps_readConfig format : keeps same_config (readConfig fails format).
Proof.
  unfold readConfig. apply keeps_bind; [apply _|by apply keeps_config_op|]. intros _. keeps.
Qed.

Lemma keeps_List : keeps same_config (List_ fails).
Proof. unfold List_. apply keeps_bind; [apply _|by apply keeps_config_op|]. intros _. keeps. Qed.

Lemma keeps_Prune limit : keeps same_config (Prune fails limit).
Proof.
  unfold Prune. apply keeps_bind; [apply _|apply keeps_List|]. intros items.
  assert (forall l m, keeps same_config m -> keeps same_config
    (foldl (fun m item => _ ← m; _ ← try_op fails (drop_yaml (hi_ID item)); try_op fails (drop_meta (hi_ID item))) m l))
    as H; [|apply H; keeps].
  induction l as [|item l IH]; intros m Hm; cbn; [done|]. apply IH.
  apply keeps_bind; [apply _|done|]. intros _.
  apply keeps_bind; [apply _|by apply keeps_try_op|]. intros _. by apply keeps_try_op.
Qed.

Lemma keeps_SaveBytes data reason : keeps same_config (SaveBytes data reason).
Proof.
  unfold Reload.SaveBytes. apply keeps_bind; [apply _|by apply keeps_config_op|]. intros _.
  apply keeps_bind; [apply _|apply keeps_next_step|]. intros n.
  apply keeps_bind; [apply _|by apply keeps_config_op|]. intros _.
  apply keeps_bind; [apply _|by apply keeps_config_op|]. intros _.
  apply keeps_bind; [apply _|apply keeps_Prune|]. intros _. keeps.
Qed.

Lemma keeps_SaveConfig c reason : keeps same_config (SaveConfig c reason).
Proof. unfold Reload.SaveConfig. destruct (marshal c); [apply keeps_SaveBytes|keeps]. Qed.

Lemma keeps_Read id : keeps same_config (Read fails id).
Proof.
  unfold Read. apply keeps_bind; [apply _|apply keeps_List|]. intros items. case_match; [|keeps].
  apply keeps_bind; [apply _|by apply keeps_config_op|]. intros _. keeps.
Qed.

Lemma keeps_buildRuntime next : keeps same_config (buildRuntime next).
Proof. unfold Reload.buildRuntime. apply keeps_bind; [apply _|apply keeps_next_step|]. intros n. keeps. Qed.

Lemma keeps_require_path : keeps same_config require_path.
Proof. unfold require_path. keeps. Qed.

Lemma keeps_run {A} R (m : M A) w r w' : keeps R m -> m w = (r, w') -> R w w' /\ r <> Err Panic.
Proof. intros H E. specialize (H w). by rewrite E in H. Qed.

Lemma parse_no_panic data : parse data <> Err Panic.
Proof. unfold Reload.parse. by destruct (ParseBytes _ _ _ _ _ _). Qed.

(** A write that succeeds was valid and is now the file; one that fails left it. *)
Lemma WriteValidatedFile_run path data w r w' :
  WriteValidatedFile path data w = (r, w') ->
  w_app w' = w_app w /\ f_yaml (w_files w') = f_yaml (w_files w) /\ f_meta (w_files w') = f_meta (w_files w) /\
  match r with
  | Ok _ => f_config (w_files w') = Some data /\ exists c, parse data = Ok c
  | Err e => e <> Panic /\ f_config (w_files w') = f_config (w_files w)
  end.
Proof.
  unfold Reload.WriteValidatedFile, lift, mbind, M_bind. pose proof (parse_no_panic data) as Hp.
  destruct (parse data) as [c|e]; [|by intros [= <- <-]; repeat split; intros ->].
  destruct (path == ""); [by intros [= <- <-]|].
  unfold file_op, next_step, mbind, M_bind, set_files, fail. cbn.
  destruct (fails (w_step w)); intros [= <- <-]; cbn; naive_solver.
Qed.

(** ** Safety of the bindings *)

(** There are as many handlers as listeners in the configuration they serve. *)
Definition bindings_ok (w : World) : Prop :=
  length (app_bindings (w_app w)) = length (normalizedListeners (app_cfg (w_app w))).

Lemma rebind_length app next rt :
  length (app_bindings app) = length (normalizedListeners next) ->
  rebind app next rt = Some (map (runtime_state app next rt) (normalizedListeners next)).
Proof.
  intros Hlen. unfold rebind. rewrite Hlen. apply mapM_Some. clear.
  apply Forall2_same_length_lookup. split; [by rewrite length_seq, length_map|].
  intros i j s Hj Hs. apply lookup_seq in Hj as [-> _]. cbn.
  by rewrite <- Hs; symmetry; apply list_lookup_fmap.
Qed.

Lemma no_restart_listeners current next :
  restartRequiredReason current next = "" -> length (normalizedListeners current) = length (normalizedListeners next).
Proof.
  unfold restartRequiredReason.
  destruct (length (normalizedListeners current) =? length (normalizedListeners next))%nat eqn:E;
    [intros _; by apply Nat.eqb_eq|]. cbn [negb].
  destruct (effectiveOAuthDir _ != _); [done|]. by destruct (negb _ || _ || negb _).
Qed.

(** Swapping the runtime succeeds, and only changes the program. *)
Lemma applyRuntimeLocked_run next rt w :
  length (app_bindings (w_app w)) = length (normalizedListeners next) ->
  exists reset,
    let outbound := (ReconfigureOutbounds tzdb (ar_outboundQuotaTracker rt) (enabledOutbounds next)).2 in
    let client := (ReconfigureClientSpecs tzdb (ar_clientQuotaTracker rt) (cfg_Clients next)).2 in
    applyRuntimeLocked next rt w =
    (Ok reset, mkWorld (mkApp next (app_configPath (w_app w)) outbound client
                 (match ar_quotaSnapshotStore rt with Some _ => true | None => false end)
                 (map (runtime_state (w_app w) next (with_trackers rt outbound client)) (normalizedListeners next)))
       (w_files w) (w_step w)).
Proof.
  intros Hlen. unfold Reload.applyRuntimeLocked, get, mbind, M_bind.
  destruct (ReconfigureOutbounds _ _ _) as [reset1 outbound]. destruct (ReconfigureClientSpecs _ _ _) as [reset2 client].
  rewrite rebind_length by done. by eexists.
Qed.

(** ** Transactions

    One step of a program in [M]: the first operation's outcome, with what it kept *)
Lemma step_keeps {A B} R (m : M A) (f : A -> M B) w r w' :
  keeps R m -> (m ≫= f) w = (r, w') ->
  (exists a w1, m w = (Ok a, w1) /\ R w w1 /\ f a w1 = (r, w')) \/
  (exists e, r = Err e /\ e <> Panic /\ R w w').
Proof.
  intros Hm [(a & w1 & E & H)|(e & E & ->)]%M_bind_inv; destruct (keeps_run _ _ _ _ _ Hm E) as [HR Hp];
    [left; eauto 6|right]. exists e. split; [done|]. split; [by intros ->|done].
Qed.

Lemma step_lift {A B} (x : result reloadError A) (f : A -> M B) w r w' :
  (lift x ≫= f) w = (r, w') -> (exists a, x = Ok a /\ f a w = (r, w')) \/ (exists e, r = Err e /\ x = Err e /\ w' = w).
Proof. unfold lift, mbind, M_bind. destruct x; intros H; [left|right]; simplify_eq; eauto. Qed.

Lemma readConfig_run format w data w' :
  readConfig fails format w = (Ok data, w') -> f_config (w_files w) = Some data.
Proof.
  unfold readConfig. intros [(a & w1 & Hr & _ & H)|(e & ? & _)]%(step_keeps same_config); [|done|].
  - assert (Hk : same_config w w1) by (eapply keeps_run; [apply keeps_config_op; intros f; reflexivity|exact Hr]).
    unfold get, mbind, M_bind in H. destruct (f_config (w_files w1)) eqn:E; [|done]. injection H as <- _.
    destruct Hk as [_ <-]. done.
  - by apply keeps_config_op.
Qed.

Lemma require_path_run w path w' : require_path w = (Ok path, w') -> path <> "" /\ w' = w.
Proof.
  unfold require_path, get, mbind, M_bind. destruct (String.eqb_spec (app_configPath (w_app w)) ""); [done|].
  by intros [= <- <-].
Qed.

(** What the program is after a change to [c]: it runs [c], and every handler serves the
    clients and inbounds of its listener with a router made from [c]. *)
Definition runs_config (c : Config) (w : World) : Prop :=
  app_cfg (w_app w) = c /\
  Forall2 (fun state listener => rs_Clients state = cfg_Clients c /\
    rs_Inbounds state = ListenerInbounds c listener /\
    exists providers, Router.New (cfg_Routing c) providers (cfg_Outbounds c) = Ok (rs_Router state))
    (app_bindings (w_app w)) (normalizedListeners c).

Lemma buildRuntime_router next w rt w' :
  buildRuntime next w = (Ok rt, w') ->
  exists providers, Router.New (cfg_Routing next) providers (cfg_Outbounds next) = Ok (ar_router rt).
Proof.
  unfold Reload.buildRuntime, next_step, get, lift, mbind, M_bind. cbn. intros H.
  destruct (buildRuntimeWithTrackersAndOAuth _ _ _ _ _ _ _ _ _ _ _) as [rt'|e] eqn:E; [|done].
  injection H as <- _. unfold buildRuntimeWithTrackersAndOAuth in E.
  apply bind_Ok in E as (providers & _ & E). apply bind_Ok in E as (r & Hr & E).
  apply bind_Ok in E as (store & _ & E). injection E as <-. exists providers. cbn.
  destruct (Router.New _ _ _) as [r'|]; [|done]. by injection Hr as ->.
Qed.

Lemma apply_runs next rt w r w' :
  (exists providers, Router.New (cfg_Routing next) providers (cfg_Outbounds next) = Ok (ar_router rt)) ->
  length (app_bindings (w_app w)) = length (normalizedListeners next) ->
  applyRuntimeLocked next rt w = (r, w') ->
  is_Ok r = true /\ runs_config next w' /\ w_files w' = w_files w /\ bindings_ok w'.
Proof.
  intros Hr Hlen E. destruct (applyRuntimeLocked_run next rt w Hlen) as (reset & E').
  rewrite E' in E. injection E as <- <-. split; [done|]. split; [|split; [done|]].
  - split; [done|]. cbn. apply Forall2_fmap_l. cbn. clear -Hr.
    induction (normalizedListeners next); constructor; [|done]. split; [done|]. by split.
  - unfold bindings_ok. cbn. by rewrite length_map.
Qed.

(** An operation that ends, with an error that is not a panic, in a world with the same
    program and the same configuration file *)
Definition refused {A} (w : World) (r : result reloadError A) (w' : World) : Prop :=
  exists e, r = Err e /\ e <> Panic /\ same_config w w'.

Lemma refused_after {A} w w1 (r : result reloadError A) w' : same_config w w1 -> refused w1 r w' -> refused w r w'.
Proof. intros H (e & -> & He & H1). exists e. split; [done|]. split; [done|]. by etransitivity. Qed.

(** The first operation of a sequence either fails, which refuses the whole, or goes on
    in a world with the same program and file. *)
Lemma step {A B} (m : M A) (f : A -> M B) w0 w r w' :
  same_config w0 w -> keeps same_config m -> (m ≫= f) w = (r, w') ->
  refused w0 r w' \/ exists a w1, m w = (Ok a, w1) /\ same_config w0 w1 /\ f a w1 = (r, w').
Proof.
  intros H0 Hm [(a & w1 & E & HR & H)|(e & -> & He & HR)]%(step_keeps same_config); [right|left|done].
  - exists a, w1. split; [done|]. split; [by etransitivity|done].
  - exists e. split; [done|]. split; [done|]. by etransitivity.
Qed.

Lemma restart_none current next :
  negb (String.eqb (restartRequiredReason current next) "") = false -> restartRequiredReason current next = "".
Proof. by intros ?%negb_false_iff%String.eqb_eq. Qed.

Lemma lift_inv {A} (r : result reloadError A) w a w' : lift r w = (Ok a, w') -> r = Ok a /\ w' = w.
Proof. by intros [= -> ->]. Qed.

(** [advance H K a w E K' tac]: the first operation of [H] goes on, with result [a] in [w];
    a failure refuses the whole.  [K] says the world so far is the same. *)
Ltac advance H K a w E K' tac :=
  eapply step in H as [?|(a & w & E & K' & H)]; [by left| |exact K|tac].

Lemma get_inv w v w' : get w = (Ok v, w') -> v = w /\ w' = w.
Proof. by intros [= -> ->]. Qed.

(** The last part of a change: the runtime is swapped in, for a configuration with the
    listeners of the running one. *)
Lemma swap_runs {A} w0 w next rt (k : bool -> M A) r w' :
  bindings_ok w0 -> same_config w0 w -> restartRequiredReason (app_cfg (w_app w0)) next = "" ->
  (exists providers, Router.New (cfg_Routing next) providers (cfg_Outbounds next) = Ok (ar_router rt)) ->
  (applyRuntimeLocked next rt ≫= k) w = (r, w') ->
  exists reset w1, k reset w1 = (r, w') /\ runs_config next w1 /\ w_files w1 = w_files w /\ bindings_ok w1.
Proof.
  intros Hb [Ha Hc] Hr Hrt [(reset & w1 & E & H)|(e & E & ->)]%M_bind_inv;
    apply apply_runs in E as (Hok & Hrun & Hf & Hb'); try done;
    try (rewrite Ha, Hb; by apply no_restart_listeners).
  exists reset, w1. done.
Qed.

Lemma applyConfigLocked_run reason w r w' :
  bindings_ok w -> applyConfigLocked reason w = (r, w') ->
  refused w r w' \/
  exists res data c, r = Ok res /\ f_config (w_files w) = Some data /\ parse data = Ok c /\
    f_config (w_files w') = Some data /\ bindings_ok w' /\
    (if rr_Applied res then runs_config c w' else w_app w' = w_app w /\ rr_RestartRequired res = true).
Proof.
  intros Hb H. unfold Reload.applyConfigLocked in H. assert (K0 : same_config w w) by done.
  advance H K0 path w1 E1_ K ltac:(apply keeps_require_path).
  advance H K data w2 Hd K2 ltac:(apply keeps_readConfig).
  apply readConfig_run in Hd. rewrite (proj2 K) in Hd.
  advance H K2 next w3 Hp K3 ltac:(apply keeps_lift; [apply _|apply parse_no_panic]).
  apply lift_inv in Hp as [Hp ->].
  advance H K3 w4 w5 Hg K4 ltac:(apply keeps_get; apply _).
  apply get_inv in Hg as [-> ->].
  assert (f_config (w_files w2) = Some data) as Hd2 by (by rewrite (proj2 K3)).
  destruct (negb _) eqn:Hrr.
  { injection H as <- <-. right. eexists _, data, next. do 4 (split; [done|]). cbn.
    unfold bindings_ok. rewrite (proj1 K3). done. }
  apply restart_none in Hrr. rewrite (proj1 K3) in Hrr.
  advance H K4 rt w6 Hrt K5 ltac:(apply keeps_buildRuntime).
  apply buildRuntime_router in Hrt.
  advance H K5 hid w7 E2_ K6 ltac:(apply keeps_SaveConfig).
  eapply swap_runs in H as (reset & w8 & H & Hrun & Hf & Hb'); [|done..].
  injection H as <- <-. right. eexists _, data, next. split; [done|]. split; [done|]. split; [done|].
  split; [|by split]. rewrite Hf, (proj2 K6). done.
Qed.

(** Why a write of what was in the file can fail *)
Lemma write_failed path data w e w' w0 :
  WriteValidatedFile path data w = (Err e, w') -> path <> "" -> f_config (w_files w0) = Some data ->
  (exists data, f_config (w_files w0) = Some data /\ is_Ok (parse data) = false) \/ exists n, fails n <> NoFault.
Proof.
  unfold Reload.WriteValidatedFile, lift, mbind, M_bind. intros H Hpath Hd.
  destruct (parse data) as [c|] eqn:Hp; [|left; exists data; by rewrite Hp]. right.
  apply String.eqb_neq in Hpath. rewrite Hpath in H. exists (w_step w). intros E.
  unfold file_op, next_step, mbind, M_bind, set_files in H. cbn in H. by rewrite E in H.
Qed.

Lemma MutateConfig_run reason mutate w r w' :
  bindings_ok w -> MutateConfig reason mutate w = (r, w') ->
  refused w r w' \/
  exists res mutate' data current next nextData c, r = Ok res /\ mutate = Some mutate' /\
    f_config (w_files w) = Some data /\ parse data = Ok current /\ mutate' current = Ok next /\
    marshal next = Some nextData /\ parse nextData = Ok c /\
    f_config (w_files w') = Some nextData /\ runs_config c w' /\ bindings_ok w' /\
    rr_Saved res = true /\ rr_Applied res = true.
Proof.
  intros Hb H. unfold Reload.MutateConfig in H. assert (K0 : same_config w w) by done.
  advance H K0 path w1 Hpath K ltac:(apply keeps_require_path).
  destruct mutate as [mutate|]; [|left; injection H as <- <-; by eexists].
  advance H K data w2 Hd K2 ltac:(apply keeps_readConfig).
  apply readConfig_run in Hd. rewrite (proj2 K) in Hd.
  advance H K2 current w3 Hp K3 ltac:(apply keeps_lift; [apply _|apply parse_no_panic]).
  apply lift_inv in Hp as [Hp ->].
  advance H K3 w4 w5 Hg K4 ltac:(apply keeps_get; apply _).
  apply get_inv in Hg as [-> ->].
  destruct (negb _) eqn:Hrr; [left; injection H as <- <-; by eexists|].
  advance H K4 next w6 Hm K5 ltac:(apply keeps_lift; [apply _|by destruct (mutate current)]).
  apply lift_inv in Hm as [Hm ->]. destruct (mutate current) as [next'|] eqn:Hmut; [|done]. injection Hm as ->.
  advance H K5 nextData w7 Hma K6 ltac:(apply keeps_lift; [apply _|by destruct (marshal next)]).
  apply lift_inv in Hma as [Hma ->]. destruct (marshal next) as [nd|] eqn:Hmar; [|done]. injection Hma as ->.
  advance H K6 c w8 Hc K7 ltac:(apply keeps_lift; [apply _|apply parse_no_panic]).
  apply lift_inv in Hc as [Hc ->].
  destruct (negb (String.eqb (restartRequiredReason _ c) "")) eqn:Hrr2; [left; injection H as <- <-; by eexists|].
  apply restart_none in Hrr2. rewrite (proj1 K7) in Hrr2.
  advance H K7 rt w9 Hrt K8 ltac:(apply keeps_buildRuntime).
  apply buildRuntime_router in Hrt.
  advance H K8 hid w10 E3_ K9 ltac:(apply keeps_SaveBytes).
  apply M_bind_inv in H as [([] & w11 & Hw & H)|(e & Hw & ->)];
    apply WriteValidatedFile_run in Hw as (Ha & _ & _ & Hw).
  2: { left. exists e. destruct Hw as [Hnp Hw]. split; [done|]. split; [done|]. destruct K9 as [K9 K9'].
       split; congruence. }
  destruct Hw as [Hf _]. apply M_bind_inv in H as [(reset & w12 & Hs & H)|(e & Hs & ->)];
    apply apply_runs in Hs as (Hok & Hrun & Hff & Hb'); try done;
    try (rewrite Ha, (proj1 K9), Hb; by apply no_restart_listeners).
  injection H as <- <-. right. eexists _, mutate, data, current, next, nextData, c.
  repeat (split; [done|]). split; [by rewrite Hff|]. split; [done|]. by split.
Qed.

(** A rollback that fails leaves the program; the file too, unless it could not be put
    back: it was not a valid configuration, or a file operation failed. *)
Lemma Rollback_run hid w r w' :
  bindings_ok w -> Rollback hid w = (r, w') ->
  (exists e, r = Err e /\ e <> Panic /\ w_app w' = w_app w /\
     (f_config (w_files w') = f_config (w_files w) \/
      (exists data, f_config (w_files w) = Some data /\ is_Ok (parse data) = false) \/
      exists n, fails n <> NoFault)) \/
  exists res data c, r = Ok res /\ f_config (w_files w') = Some data /\ parse data = Ok c /\ bindings_ok w' /\
    (if rr_Applied res then runs_config c w' else w_app w' = w_app w /\ rr_RestartRequired res = true).
Proof.
  intros Hb H. assert (K0 : same_config w w) by done.
  assert (Hrefused : refused w r w' -> exists e, r = Err e /\ e <> Panic /\ w_app w' = w_app w /\
    (f_config (w_files w') = f_config (w_files w) \/
      (exists data, f_config (w_files w) = Some data /\ is_Ok (parse data) = false) \/
      exists n, fails n <> NoFault)).
  { intros (e & -> & He & Ha & Hf). exists e. auto. }
  unfold Reload.Rollback in H.
  eapply step in H as [?|(path & w1 & Hpath & K1 & H)]; [left; by apply Hrefused| |exact K0|apply keeps_require_path].
  apply require_path_run in Hpath as [Hpath ->].
  eapply step in H as [?|([data item] & w2 & _ & K2 & H)]; [left; by apply Hrefused| |exact K1|apply keeps_Read].
  eapply step in H as [?|(c & w3 & Hc & K3 & H)];
    [left; by apply Hrefused| |exact K2|apply keeps_lift; [apply _|apply parse_no_panic]].
  apply lift_inv in Hc as [Hc ->].
  eapply step in H as [?|(current & w4 & Hcur & K4 & H)]; [left; by apply Hrefused| |exact K3|apply keeps_readConfig].
  apply readConfig_run in Hcur. rewrite (proj2 K3) in Hcur.
  eapply step in H as [?|(sid & w5 & _ & K5 & H)]; [left; by apply Hrefused| |exact K4|apply keeps_SaveBytes].
  apply M_bind_inv in H as [([] & w6 & Hw & H)|(e & Hw & ->)];
    apply WriteValidatedFile_run in Hw as (Ha & _ & _ & Hw); destruct K5 as [K5 K5'].
  2: { left. destruct Hw as [Hnp Hw]. exists e. split; [done|]. split; [done|]. split; [congruence|left; congruence]. }
  destruct Hw as [Hf _]. unfold on_error in H.
  assert (bindings_ok w6) as Hb6 by (unfold bindings_ok; by rewrite Ha, K5).
  destruct (applyConfigLocked _ w6) as [[res|e] w7] eqn:E;
    apply applyConfigLocked_run in E as [(e' & He & Hnp & Ha7 & Hf7)|(res' & data' & c' & Hr & Hd & Hp & Hf7 & Hb7 & Hrun)];
    try done.
  - injection H as <- <-. injection Hr as <-. right. exists res, data', c'. split; [done|]. split; [done|].
    split; [done|]. split; [done|]. destruct (rr_Applied res); [done|]. destruct Hrun. split; [congruence|done].
  - injection He as <-. left. destruct (WriteValidatedFile path current w7) as [r8 w8] eqn:Ew.
    injection H as <- <-. pose proof Ew as Ew2. apply WriteValidatedFile_run in Ew as (Ha8 & _ & _ & Hw8).
    exists e. split; [done|]. split; [done|]. split; [cbn; congruence|].
    destruct r8 as [[]|e8]; [left; cbn; rewrite Hcur; apply Hw8|right].
    by eapply write_failed.
Qed.

Lemma UpdateConfig_run rev data w r w' :
  UpdateConfig rev data w = (r, w') ->
  refused w r w' \/
  exists old, r = Ok (configRevision checksumHex data) /\ f_config (w_files w) = Some old /\
    (rev = "*" \/ TrimSpace rev = configRevision checksumHex old) /\ is_Ok (parse data) = true /\
    w_app w' = w_app w /\ f_config (w_files w') = Some data.
Proof.
  intros H. unfold Reload.UpdateConfig in H. assert (K0 : same_config w w) by done.
  advance H K0 path w1 E1 K1 ltac:(apply keeps_require_path).
  advance H K1 current w2 Hcur K2 ltac:(apply keeps_readConfig).
  apply readConfig_run in Hcur. rewrite (proj2 K1) in Hcur.
  destruct (negb _ && negb _) eqn:Hrev; [left; injection H as <- <-; by eexists|].
  advance H K2 c w3 Hc K3 ltac:(apply keeps_lift; [apply _|apply parse_no_panic]).
  apply lift_inv in Hc as [Hc ->].
  apply M_bind_inv in H as [([] & w4 & Hw & H)|(e & Hw & ->)];
    apply WriteValidatedFile_run in Hw as (Ha & _ & _ & Hw).
  - injection H as <- <-. right. exists current. split; [done|]. split; [done|]. split.
    + apply andb_false_iff in Hrev as [E%negb_false_iff%String.eqb_eq|E%negb_false_iff%String.eqb_eq]; auto.
    + rewrite Hc. split; [done|]. destruct Hw as [Hf _], K3. split; [congruence|done].
  - destruct Hw as [Hnp Hw], K3. left. exists e. split; [done|]. split; [done|]. split; congruence.
Qed.

(** The operations of the manager *)
Inductive operation :=
| OpApply
| OpMutate (reason : string) (mutate : option (Config -> result mutationError Config))
| OpUpdate (expectedRevision data : string)
| OpRollback (id : string)
| OpHistory
| OpDiff (id : string).

(** An operation's world after it, and whether it panicked *)
Definition perform {A} (m : M A) (w : World) : World * bool :=
  match m w with (Err Panic, w) => (w, true) | (_, w) => (w, false) end.
Definition run_operation (op : operation) : World -> World * bool :=
  match op with
  | OpApply => perform (applyConfigLocked "apply")
  | OpMutate reason mutate => perform (MutateConfig reason mutate)
  | OpUpdate rev data => perform (UpdateConfig rev data)
  | OpRollback hid => perform (Rollback hid)
  | OpHistory => perform (History fails)
  | OpDiff hid => perform (HistoryDiff unmarshal marshalNode fails hid)
  end.
Fixpoint run_operations (ops : list operation) (w : World) : World * bool :=
  match ops with
  | [] => (w, false)
  | op :: ops =>
      let '(w, panicked) := run_operation op w in
      if panicked then (w, true) else run_operations ops w
  end.

Lemma perform_quiet {A} (m : M A) w r w' : m w = (r, w') -> r <> Err Panic -> perform m w = (w', false).
Proof. unfold perform. intros -> H. destruct r as [|[]]; try done. Qed.

Lemma keeps_HistoryDiff hid : keeps same_config (HistoryDiff unmarshal marshalNode fails hid).
Proof.
  unfold HistoryDiff, redactedConfigYAML.
  apply keeps_bind; [apply _|apply keeps_require_path|]. intros _.
  apply keeps_bind; [apply _|apply keeps_readConfig|]. intros current.
  apply keeps_bind; [apply _|apply keeps_Read|]. intros [data item].
  apply keeps_bind; [apply _|keeps|]. intros a.
  apply keeps_bind; [apply _|keeps|]. intros b. keeps.
Qed.

Lemma refused_ok {A} w (r : result reloadError A) w' :
  bindings_ok w -> refused w r w' -> bindings_ok w' /\ r <> Err Panic.
Proof. intros Hb (e & -> & He & Ha & _). unfold bindings_ok. rewrite Ha. split; [done|]. by intros [= ->]. Qed.

Lemma run_operation_ok op w : bindings_ok w -> bindings_ok (run_operation op w).1 /\ (run_operation op w).2 = false.
Proof.
  intros Hb. assert (Hkeep : forall A (m : M A), keeps same_config m -> bindings_ok (perform m w).1 /\ (perform m w).2 = false).
  { intros A m Hm. destruct (m w) as [r w'] eqn:E. pose proof (keeps_run _ _ _ _ _ Hm E) as Hk.
    rewrite (perform_quiet _ _ _ _ E) by apply Hk. unfold bindings_ok. cbn. by rewrite (proj1 (proj1 Hk)). }
  assert (Hrun : forall A (m : M A) r w', m w = (r, w') -> bindings_ok w' /\ r <> Err Panic ->
    bindings_ok (perform m w).1 /\ (perform m w).2 = false).
  { intros A m r w' E [H Hp]. by rewrite (perform_quiet _ _ _ _ E Hp). }
  destruct op as [|reason mutate|rev data|hid| |hid]; cbn.
  - destruct (applyConfigLocked "apply" w) as [r w'] eqn:E. eapply Hrun; [exact E|].
    apply applyConfigLocked_run in E as [?|(res & d & c & -> & _ & _ & _ & ? & _)]; [by eapply refused_ok|done..].
  - destruct (MutateConfig reason mutate w) as [r w'] eqn:E. eapply Hrun; [exact E|].
    apply MutateConfig_run in E as [?|(res & m & d & c & n & nd & c' & -> & _ & _ & _ & _ & _ & _ & _ & _ & ? & _)];
      [by eapply refused_ok|done..].
  - destruct (UpdateConfig rev data w) as [r w'] eqn:E. eapply Hrun; [exact E|].
    apply UpdateConfig_run in E as [?|(old & -> & _ & _ & _ & Ha & _)]; [by eapply refused_ok|].
    unfold bindings_ok. by rewrite Ha.
  - destruct (Rollback hid w) as [r w'] eqn:E. eapply Hrun; [exact E|].
    apply Rollback_run in E as [(e & -> & He & Ha & _)|(res & d & c & -> & _ & _ & ? & _)]; [|done..].
    unfold bindings_ok. rewrite Ha. split; [done|]. by intros [= ->].
  - pose proof (keeps_List w) as [[H _] _]. unfold perform, History, bindings_ok in *.
    destruct (List_ fails w) as [[|e] w']; cbn in *; by rewrite H.
  - apply Hkeep, keeps_HistoryDiff.
Qed.

(** ** Properties *)

(** No sequence of operations makes the program panic.  Started with as many
    handlers as listeners, whatever operations are made with whatever contents and
    whatever file operations fail, the loop that rebinds the handlers is never out of
    range, and there are still as many handlers as listeners of the running
    configuration. *)
Theorem reload_never_panics ops w :
  bindings_ok w -> bindings_ok (run_operations ops w).1 /\ (run_operations ops w).2 = false.
Proof.
  revert w. induction ops as [|op ops IH]; intros w Hb; cbn; [done|].
  destruct (run_operation_ok op w Hb) as [H1 H2]. destruct (run_operation op w) as [w1 panicked]. cbn in *.
  subst panicked. by apply IH.
Qed.

(** C8: a change is made entirely or not at all.  However its file operations go,
    [MutateConfig] either ends with an error, with the program and the configuration
    file as they were; or what the file held was valid, the change was made to it, the
    result is valid and is now in the file, and the program runs exactly it - every
    handler with the clients and inbounds of its listener and a router made from it. *)
Theorem mutate_atomic reason mutate w r w' :
  bindings_ok w -> MutateConfig reason (Some mutate) w = (r, w') ->
  (exists e, r = Err e /\ w_app w' = w_app w /\ f_config (w_files w') = f_config (w_files w)) \/
  exists res data current next nextData c, r = Ok res /\ rr_Saved res = true /\ rr_Applied res = true /\
    f_config (w_files w) = Some data /\ parse data = Ok current /\ mutate current = Ok next /\
    marshal next = Some nextData /\ parse nextData = Ok c /\
    f_config (w_files w') = Some nextData /\ runs_config c w'.
Proof.
  intros Hb H. apply MutateConfig_run in H as [(e & -> & _ & Ha & Hf)|H]; [left; by exists e| |done].
  destruct H as (res & m & data & current & next & nextData & c & -> & E & Hd & Hp & Hm & Hma & Hc & Hf & Hr & _ & Hs & Hap).
  injection E as <-. right. by exists res, data, current, next, nextData, c.
Qed.

(** A rollback that fails has no effect.  The program is as it was, and so is the
    configuration file, unless it could not be put back - because it did not hold a
    valid configuration, or because a file operation failed.  One that succeeds leaves a
    valid configuration in the file, which the program runs unless it needs a restart. *)
Theorem rollback_safe hid w r w' :
  bindings_ok w -> Rollback hid w = (r, w') ->
  match r with
  | Err _ => w_app w' = w_app w /\
      (f_config (w_files w') = f_config (w_files w) \/
       (exists data, f_config (w_files w) = Some data /\ is_Ok (parse data) = false) \/
       exists n, fails n <> NoFault)
  | Ok res => exists data c, f_config (w_files w') = Some data /\ parse data = Ok c /\
      (if rr_Applied res then runs_config c w' else w_app w' = w_app w /\ rr_RestartRequired res = true)
  end.
Proof.
  intros Hb H. apply Rollback_run in H as [(e & -> & _ & Ha & Hf)|(res & data & c & -> & Hd & Hp & _ & Hr)]; [done| |done].
  by exists data, c.
Qed.

(** C23: no update is lost.  An update succeeds only if the revision it expects is that
    of the file's content (or [*]), and then the file holds it.  So of two updates that
    expect the revision of one content, the second fails once the first has written
    something of another revision, and the first one's content stays. *)
Theorem update_not_lost d0 d1 d2 r1 w w1 r2 w2 :
  TrimSpace (configRevision checksumHex d0) = configRevision checksumHex d0 ->
  configRevision checksumHex d1 <> configRevision checksumHex d0 ->
  UpdateConfig (configRevision checksumHex d0) d1 w = (Ok r1, w1) ->
  UpdateConfig (configRevision checksumHex d0) d2 w1 = (r2, w2) ->
  (exists old, f_config (w_files w) = Some old /\ configRevision checksumHex old = configRevision checksumHex d0) /\
  is_Ok r2 = false /\ f_config (w_files w2) = Some d1 /\ w_app w2 = w_app w.
Proof.
  intros Htrim Hne H1 H2.
  apply UpdateConfig_run in H1 as [(e & [=] & _)|(old & Hr & Hold & Hrev & _ & Ha & Hf)].
  assert (configRevision checksumHex d0 <> "*") as Hstar by done.
  destruct Hrev as [?|Hrev]; [done|]. rewrite Htrim in Hrev. split; [by exists old|].
  apply UpdateConfig_run in H2 as [(e & -> & _ & Ha2 & Hf2)|(old2 & _ & Hold2 & Hrev2 & _)].
  - split; [done|]. split; congruence.
  - exfalso. rewrite Hf in Hold2. injection Hold2 as <-. destruct Hrev2 as [?|Hrev2]; [done|]. congruence.
Qed.
End facts.

(** ** Witnesses

    The texts "A" and "B" stand for two configurations; "B" has one client more. *)
Definition witness_more : Config :=
  with_clients witness_config [witness_client; mkClientSpec "bob" "t2" (mkClientQuotaConfig false [])].
Definition witness_unmarshal (s : string) : option Node := Some (scalar s).
Definition witness_decode (n : Node) : option Config :=
  if Value n == "A" then Some witness_config else if Value n == "B" then Some witness_more else None.
Definition witness_marshal (c : Config) : option string :=
  Some (if (length (cfg_Clients c) =? 1)%nat then "A" else "B").
Definition witness_checksum (s : string) : string := "0123456789" +:+ s.
Definition witness_clock (n : nat) : Time := date_utc 2024 5 1 9 30 0 0 + Z.of_nat n * Second.
Definition no_faults (n : nat) : fault := NoFault.
(** The write of the seventh step fails. *)
Definition one_fault (n : nat) : fault := if (n =? 7)%nat then Fault else NoFault.

Definition witness_app : App :=
  mkApp (applyDefaults witness_config) "/etc/syrogo.yaml" None None false
    [mkRuntimeState (mkRouter [] ∅ ∅ ∅ ∅) (mkDispatcher false false false (mkPriceCalculator [])) [] [] None None None
       (cfg_Accounting witness_config) (cfg_Admin witness_config) ""].
Definition witness_world : World := mkWorld witness_app (mkFiles (Some "A") ∅ ∅) 0.
Definition add_bob (c : Config) : result mutationError Config :=
  client_upsert (mkClientResourceRequest "bob" "t2" (mkClientQuotaConfig false [])) c.

Definition witness_mutate (fails : nat -> fault) : result reloadError ReloadResult * World :=
  MutateConfig witness_zone witness_url witness_unmarshal witness_decode (fun _ => None) witness_marshal
    witness_checksum [] true fails witness_clock "add bob" (Some add_bob) witness_world.

Lemma mutate_atomic_witness :
  let '(r, w') := witness_mutate no_faults in
  is_Ok r = true /\ f_config (w_files w') = Some "B" /\ runs_config (applyDefaults witness_more) w'.
Proof.
  destruct (witness_mutate no_faults) as [r w'] eqn:E.
  assert (is_Ok r = true /\ f_config (w_files w') = Some "B") as [Hok Hf]
    by (vm_compute in E; injection E as <- <-; done).
  split; [done|]. split; [done|]. unfold witness_mutate in E.
  apply mutate_atomic in E; [|by vm_compute].
  destruct E as [(e & -> & _)|(res & data & current & next & nextData & c & _ & _ & _ & _ & _ & _ & _ & Hp & Hf' & Hrun)]; [done|].
  rewrite Hf in Hf'. injection Hf' as <-. vm_compute in Hp. injection Hp as <-. exact Hrun.
Defined.

(** When the file cannot be written, nothing has changed. *)
Example mutate_write_fails :
  let '(r, w') := witness_mutate one_fault in
  r = Err (ReloadErr "replace config: %w" []) /\ w_app w' = witness_app /\ f_config (w_files w') = Some "A" /\
  size (f_meta (w_files w')) = 1%nat.
Proof. vm_compute. done. Qed.

Definition witness_run := run_operations witness_zone witness_url witness_unmarshal witness_decode (fun _ => None)
  witness_marshal (fun _ => None) witness_checksum [] true no_faults witness_clock.
Definition witness_ops : list operation :=
  [OpMutate "add bob" (Some add_bob); OpHistory; OpRollback ""; OpUpdate "*" "B"; OpApply; OpDiff ""].

Lemma reload_never_panics_witness :
  bindings_ok (witness_run witness_ops witness_world).1 /\ (witness_run witness_ops witness_world).2 = false.
Proof.
  apply (reload_never_panics witness_zone witness_url witness_unmarshal witness_decode (fun _ => None)
    witness_marshal (fun _ => None) witness_checksum [] true no_faults witness_clock). reflexivity.
Defined.

(** After the change, the rollback brings "A" back. *)
Definition witness_rollback (w : World) : result reloadError ReloadResult * World :=
  Rollback witness_zone witness_url witness_unmarshal witness_decode (fun _ => None) witness_marshal
    witness_checksum [] true no_faults witness_clock "" w.

Lemma rollback_safe_witness :
  let '(r, w') := witness_rollback (witness_mutate no_faults).2 in
  is_Ok r = true /\ f_config (w_files w') = Some "A" /\
  exists data c, f_config (w_files w') = Some data /\ runs_config c w'.
Proof.
  destruct (witness_rollback (witness_mutate no_faults).2) as [r w'] eqn:E.
  assert (f_config (w_files w') = Some "A" /\ exists res, r = Ok res /\ rr_Applied res = true) as [Hf (res & -> & Ha)]
    by (vm_compute in E; injection E as <- <-; eauto).
  split; [done|]. split; [done|]. unfold witness_rollback in E.
  apply rollback_safe in E as H; [|by vm_compute]. destruct H as (data & c & Hd & _ & Hrun). rewrite Ha in Hrun.
  exists data, c. split; [exact Hd|exact Hrun].
Defined.

Definition witness_update (rev data : string) (w : World) : result reloadError string * World :=
  UpdateConfig witness_zone witness_url witness_unmarshal witness_decode (fun _ => None) witness_checksum no_faults rev data w.

Lemma update_not_lost_witness :
  let w1 := (witness_update "sha256:0123456789A" "B" witness_world).2 in
  let '(r2, w2) := witness_update "sha256:0123456789A" "A" w1 in
  is_Ok r2 = false /\ f_config (w_files w2) = Some "B".
Proof.
  cbv zeta. destruct (witness_update "sha256:0123456789A" "B" witness_world) as [r1 w1] eqn:E1.
  cbn [snd]. destruct (witness_update "sha256:0123456789A" "A" w1) as [r2 w2] eqn:E2.
  assert (exists rev, r1 = Ok rev) as [rev ->] by (vm_compute in E1; injection E1 as <- _; eauto).
  unfold witness_update in E1, E2.
  pose proof (update_not_lost witness_zone witness_url witness_unmarshal witness_decode (fun _ => None) witness_marshal witness_checksum
    no_faults "A" "B" "A" rev witness_world w1 r2 w2 ltac:(by vm_compute) ltac:(by vm_compute) E1 E2) as (_ & H1 & H2 & _).
  split; [exact H1|exact H2].
Defined.
