(* ===== verification/RuntimeRequest.v ===== *)
(** * Inbound requests

    Models [internal/semantic/model.go] and [internal/gateway/runtime_request.go]: the
    request of a client in its wire format, the semantic request built from it and the
    neutral request that one is lowered to.

    A slice of a struct that is only copied ([append(json.RawMessage(nil), x...)],
    [cloneSegmentsAsToolResultContent]) is the value itself. *)

From Stdlib Require Import SpecFloat.
From S2P Require Import Prelude GoStrings RuntimeModel GoJson.

#[local] Arguments String.append !_ _ /.

(** ** The semantic model *)

Abbreviation Role := string.
Definition RoleSystem : Role := "system".
Definition RoleUser : Role := "user".
Definition RoleAssistant : Role := "assistant".
Definition RoleTool : Role := "tool".

Inductive SegmentKind := SegmentText | SegmentToolCall | SegmentToolResult | SegmentData.

Record SemToolCall := mkSemToolCall {
  stc_ID : string;
  stc_Type : string;
  stc_Name : string;
  stc_Arguments : string;
  stc_Input : string
}.
Record DataPart := mkDataPart { dp_Format : string; dp_Value : string }.

(** [Segment.Meta] is never set. *)
Inductive Segment :=
| mkSegment (Kind : SegmentKind) (Text : string) (ToolCall_ : option SemToolCall)
    (ToolResult_ : option SemToolResult) (Data : option DataPart)
with SemToolResult :=
| mkSemToolResult (ToolCallID ToolCallType : string) (Content : list Segment) (IsError : bool).

Record Turn := mkTurn { turn_Role : Role; turn_Segments : list Segment }.

Record GenerateOptions := mkGenerateOptions {
  go_MaxTokens : Z;
  go_Stream : bool;
  go_PreviousResponseID : string;
  go_Metadata : string;
  go_ThinkingType : string;
  go_ContextManagement : string;
  go_OutputEffort : string;
  go_ToolChoice : string
}.
(** A [semantic.ToolDefinition] has the fields of the neutral one. *)
Record SemRequest := mkSemRequest {
  sr_Model : string;
  sr_Instructions : list Segment;
  sr_Turns : list Turn;
  sr_Tools : list ToolDefinition;
  sr_Options : GenerateOptions
}.

Definition text_segment (text : string) : Segment := mkSegment SegmentText text None None None.
Definition call_segment (c : SemToolCall) : Segment := mkSegment SegmentToolCall "" (Some c) None None.
Definition result_segment (r : SemToolResult) : Segment := mkSegment SegmentToolResult "" None (Some r) None.
Definition data_segment (d : DataPart) : Segment := mkSegment SegmentData "" None None (Some d).

(** ** The wire format *)

Record inboundToolCall := mkInboundToolCall {
  itc_ID : string;
  itc_Type : string;
  itc_Name : string;
  itc_Arguments : string
}.
Record inboundMessage := mkInboundMessage {
  im_Role : string;
  im_Content : string;
  im_ToolCalls : list inboundToolCall;
  im_ToolCallID : string
}.
Record inboundToolDefinition := mkInboundToolDefinition {
  itd_Name : string;
  itd_Description : string;
  itd_InputSchema : string
}.
Record openAIChatToolDefinition := mkOpenAIChatToolDefinition {
  octd_Type : string;
  octd_Name : string;
  octd_Description : string;
  octd_Parameters : string
}.
Record inboundRequest := mkInboundRequest {
  ir_Model : string;
  ir_System : string;
  ir_MaxTokens : Z;
  ir_Messages : list inboundMessage;
  ir_Tools : list inboundToolDefinition;
  ir_ToolChoice : string;
  ir_Stream : bool;
  ir_PreviousResponseID : string;
  ir_Metadata : string;
  ir_Thinking : string;
  ir_ContextManagement : string;
  ir_OutputConfig : string
}.

(** ** Errors: a format of [fmt.Errorf] and its arguments *)
Inductive requestError := ReqError (format : string) (args : list string).
Abbreviation res := (result requestError).

(** ** JSON helpers *)

(** [json.Unmarshal] into [any], then [json.Marshal] *)
Definition renormalized (raw : string) : option string := v ← Unmarshal_any raw; Marshal v.

Definition normalizedJSONOrRaw (raw : string) : string :=
  if raw == "" then "{}" else
  match renormalized raw with Some encoded => encoded | None => raw end.

Definition normalizedOptionalJSONObject (raw : string) : string :=
  if raw == "" then "" else
  match Unmarshal_map raw with
  | None => ""
  | Some None => "null"
  | Some (Some m) => match Marshal (VMap m) with Some encoded => encoded | None => "" end
  end.

(** One string member of an object, [""] when the text is not one *)
Definition parse_member (name : string) (raw : string) : string :=
  if raw == "" then "" else
  match (j ← Parse raw; ms ← as_object j; f_string name ms) with Some v => v | None => "" end.
Definition parseThinkingType (raw : string) : string := parse_member "type" raw.
Definition parseOutputEffort (raw : string) : string := parse_member "effort" raw.

Definition marshalCompactJSON (raw : string) : option string :=
  if raw == "" then Some "{}" else renormalized raw.
Definition marshalCompactJSONOrEmpty (raw : string) : string :=
  if raw == "" then "{}" else
  match marshalCompactJSON raw with Some encoded => encoded | None => raw end.

(** ** System text *)

Record textBlock := mkTextBlock { tb_Type : string; tb_Text : string }.
Definition dec_textBlock (j : json) : option textBlock :=
  ms ← as_object j; t ← f_string "type" ms; x ← f_string "text" ms; Some (mkTextBlock t x).
(** [json.Unmarshal(raw, &blocks)] *)
Definition text_blocks (raw : string) : option (list textBlock) := j ← Parse raw; as_list dec_textBlock j.

Definition parseInboundSystem (raw : string) : res (list Segment * string) :=
  if raw == "" then Ok ([], "") else
  match Unmarshal_string raw with
  | Some text => Ok ([text_segment text], text)
  | None =>
      match text_blocks raw with
      | Some blocks =>
          let texts := map tb_Text (List.filter (fun b => tb_Type b == "text") blocks) in
          if (length texts =? 0)%nat
          then Err (ReqError "system content must include at least one text block" [])
          else Ok (map text_segment texts, String.concat (String "010" "") texts)
      | None => Err (ReqError "unsupported system content" [])
      end
  end.

(** ** Tools *)

(** [inputSchema], with the reason it is refused *)
Definition tool_schema (what name raw : string) : res string :=
  if raw == "" then Ok "{}" else
  match Unmarshal_any raw with
  | None => Err (ReqError ("invalid tool " +:+ what +:+ " for %q: %w") [name])
  | Some schema =>
      match Marshal schema with
      | None => Err (ReqError ("marshal tool " +:+ what +:+ " for %q: %w") [name])
      | Some encoded => Ok encoded
      end
  end.

Definition parseOpenAIChatTools (raw : list openAIChatToolDefinition) : res (list ToolDefinition) :=
  fold_err (fun tools tool =>
    _ ← require ((octd_Type tool == "") || (octd_Type tool == "function"))
          (ReqError "unsupported tool type %q" [octd_Type tool]);
    _ ← require (octd_Name tool != "") (ReqError "tool name is required" []);
    schema ← tool_schema "parameters" (octd_Name tool) (octd_Parameters tool);
    Ok (tools ++ [mkToolDefinition "function" (octd_Name tool) (octd_Description tool) schema "" ""])) [] raw.

Definition parseInboundTools (raw : list inboundToolDefinition) : res (list ToolDefinition) :=
  fold_err (fun tools tool =>
    _ ← require (itd_Name tool != "") (ReqError "tool name is required" []);
    schema ← tool_schema "input_schema" (itd_Name tool) (itd_InputSchema tool);
    Ok (tools ++ [mkToolDefinition "function" (itd_Name tool) (itd_Description tool) schema "" ""])) [] raw.

(** ** Message content *)

Record resultBlock := mkResultBlock { rb_Type : string; rb_Text : string; rb_Value : string; rb_Content : string }.
Definition dec_resultBlock (j : json) : option resultBlock :=
  ms ← as_object j; t ← f_string "type" ms; x ← f_string "text" ms;
  Some (mkResultBlock t x (f_raw "value" ms) (f_raw "content" ms)).

Definition result_block_segment (block : resultBlock) : Segment :=
  if rb_Type block == "text" then text_segment (rb_Text block) else
  let payload := if rb_Value block == "" then rb_Content block else rb_Value block in
  let payload := if payload == "" then "{}" else payload in
  data_segment (mkDataPart (rb_Type block) payload).

Definition parseToolResultContent (raw : string) : list Segment :=
  if raw == "" then [] else
  match Unmarshal_string raw with
  | Some text => [text_segment text]
  | None =>
      match (j ← Parse raw; as_list dec_resultBlock j) with
      | Some blocks => map result_block_segment blocks
      | None => [data_segment (mkDataPart "json" (normalizedJSONOrRaw raw))]
      end
  end.

Record contentBlock := mkContentBlock {
  cb_Type : string;
  cb_Text : string;
  cb_ID : string;
  cb_ToolUseID : string;
  cb_Name : string;
  cb_Input : string;
  cb_Content : string;
  cb_IsError : bool
}.
Definition dec_contentBlock (j : json) : option contentBlock :=
  ms ← as_object j;
  t ← f_string "type" ms; x ← f_string "text" ms; id ← f_string "id" ms; use ← f_string "tool_use_id" ms;
  name ← f_string "name" ms; e ← f_bool "is_error" ms;
  Some (mkContentBlock t x id use name (f_raw "input" ms) (f_raw "content" ms) e).

(** The segments of the blocks, and the identifier of the last tool result among them *)
Fixpoint blocks_segments (blocks : list contentBlock) (toolCallID : string) : list Segment * string :=
  match blocks with
  | [] => ([], toolCallID)
  | block :: blocks =>
      if cb_Type block == "text" then
        let '(segs, id) := blocks_segments blocks toolCallID in
        (text_segment (cb_Text block) :: segs, id)
      else if cb_Type block == "tool_use" then
        let '(segs, id) := blocks_segments blocks toolCallID in
        (call_segment (mkSemToolCall (cb_ID block) "function" (cb_Name block)
                         (normalizedJSONOrRaw (cb_Input block)) "") :: segs, id)
      else if cb_Type block == "tool_result" then
        let '(segs, id) := blocks_segments blocks (cb_ToolUseID block) in
        (result_segment (mkSemToolResult (cb_ToolUseID block) "function"
                           (parseToolResultContent (cb_Content block)) (cb_IsError block)) :: segs, id)
      else blocks_segments blocks toolCallID
  end.

Definition parseInboundContent (role raw : string) : res (list Segment * string) :=
  if (raw == "") || (raw == "null") then Ok ([text_segment ""], "") else
  match Unmarshal_string raw with
  | Some text => Ok ([text_segment text], "")
  | None =>
      match (j ← Parse raw; as_list dec_contentBlock j) with
      | Some blocks =>
          let '(segments, toolCallID) := blocks_segments blocks "" in
          _ ← require (negb (length segments =? 0)%nat)
                (ReqError "message content must include at least one text or tool block" []);
          _ ← require (negb ((role == MessageRoleTool) && (toolCallID == "")))
                (ReqError "tool message must include tool_call_id" []);
          Ok (segments, toolCallID)
      | None => Err (ReqError "unsupported message content" [])
      end
  end.

(** ** Messages *)

(** [segment.Kind == SegmentToolResult && segment.ToolResult != nil] *)
Definition is_tool_result (s : Segment) : bool :=
  match s with mkSegment SegmentToolResult _ _ (Some _) _ => true | _ => false end.

Definition hasMultipleToolResultSegments (segments : list Segment) : bool :=
  (1 <? length (List.filter is_tool_result segments))%nat.

Definition normalizeToolTurnSegments (toolCallID : string) (segments : list Segment) : list Segment :=
  match segments with
  | [mkSegment SegmentToolResult text call (Some (mkSemToolResult _ typ content e)) data] =>
      [mkSegment SegmentToolResult text call (Some (mkSemToolResult toolCallID typ content e)) data]
  | _ => [result_segment (mkSemToolResult toolCallID "" segments false)]
  end.

(** [turns\[len(turns)-1\].Segments = append(..., segment)], in a new turn unless the last
    one has the role *)
Definition append_segment (role : Role) (turns : list Turn) (segment : Segment) : list Turn :=
  match last turns with
  | Some t =>
      if turn_Role t == role
      then removelast turns ++ [mkTurn role (turn_Segments t ++ [segment])]
      else turns ++ [mkTurn role [segment]]
  | None => [mkTurn role [segment]]
  end.
Definition split_step (role : Role) (turns : list Turn) (segment : Segment) : list Turn :=
  if is_tool_result segment then turns ++ [mkTurn RoleTool [segment]] else append_segment role turns segment.

Definition parseInboundMessages (msg : inboundMessage) : res (list Turn) :=
  '(segments, toolCallID) ← parseInboundContent (im_Role msg) (im_Content msg);
  segments ← fold_err (fun segments call =>
    _ ← require ((itc_Type call == "") || (itc_Type call == "function"))
          (ReqError "unsupported tool call type %q" [itc_Type call]);
    Ok (segments ++ [call_segment (mkSemToolCall (itc_ID call) "" (itc_Name call)
                                     (normalizedJSONOrRaw (itc_Arguments call)) "")])) segments (im_ToolCalls msg);
  let toolCallID := if im_ToolCallID msg == "" then toolCallID else im_ToolCallID msg in
  let role := im_Role msg in
  if (role != RoleTool) && hasMultipleToolResultSegments segments then
    Ok (foldl (split_step role) [] segments)
  else if toolCallID == "" then Ok [mkTurn role segments]
  else Ok [mkTurn RoleTool (normalizeToolTurnSegments toolCallID segments)].

Definition shouldSkipInboundMessage (msg : inboundMessage) : bool :=
  if (0 <? length (im_ToolCalls msg))%nat || (im_ToolCallID msg != "") then false
  else if im_Content msg == "" then true
  else match (j ← Parse (im_Content msg); as_raw_list j) with
       | Some blocks => (length blocks =? 0)%nat
       | None => false
       end.

Definition isSystemReminderText (text : string) : bool :=
  let trimmed := TrimSpace text in
  HasPrefix trimmed "<system-reminder>" && Contains trimmed "</system-reminder>".

(** [blocks\[idx:\]] *)
Fixpoint after_reminders (blocks : list textBlock) : list textBlock :=
  match blocks with
  | block :: rest =>
      if (tb_Type block == "text") && isSystemReminderText (tb_Text block) then after_reminders rest else blocks
  | [] => []
  end.
Definition enc_textBlock (b : textBlock) : value :=
  VStruct [("type", VStr (tb_Type b)); ("text", VStr (tb_Text b))].

Definition stripLeadingSystemReminderText (msg : inboundMessage) : inboundMessage :=
  if (im_Role msg != RoleUser) || (im_Content msg == "") then msg else
  match text_blocks (im_Content msg) with
  | None => msg
  | Some blocks =>
      let remaining := after_reminders blocks in
      if (length remaining =? length blocks)%nat then msg else
      match Marshal (VArr (map enc_textBlock remaining)) with
      | Some remaining => mkInboundMessage (im_Role msg) remaining (im_ToolCalls msg) (im_ToolCallID msg)
      | None => msg
      end
  end.

(** ** The semantic request *)

Definition build_turns (turns : list Turn) (msg : inboundMessage) : res (list Turn) :=
  let msg := stripLeadingSystemReminderText msg in
  if shouldSkipInboundMessage msg then Ok turns else
  ts ← parseInboundMessages msg; Ok (turns ++ ts).

Definition buildSemanticRequest (req : inboundRequest) (toolsParser : res (list ToolDefinition)) : res SemRequest :=
  '(instructions, systemText) ← parseInboundSystem (ir_System req);
  tools ← toolsParser;
  let instructions :=
    if (systemText != "") && (length instructions =? 0)%nat then [text_segment systemText] else instructions in
  turns ← fold_err build_turns [] (ir_Messages req);
  Ok (mkSemRequest (ir_Model req) instructions turns tools
        (mkGenerateOptions (ir_MaxTokens req) (ir_Stream req) (ir_PreviousResponseID req)
           (normalizedOptionalJSONObject (ir_Metadata req)) (parseThinkingType (ir_Thinking req))
           (normalizedOptionalJSONObject (ir_ContextManagement req)) (parseOutputEffort (ir_OutputConfig req))
           (ir_ToolChoice req))).

(** ** Lowering *)

Definition text_part (text : string) : ContentPart := mkContentPart ContentPartTypeText text "".
Definition json_part (data : string) : ContentPart := mkContentPart ContentPartTypeJSON "" data.

(** The part a text or a data segment becomes *)
Definition lowerResultSegment (s : Segment) : list ContentPart :=
  match s with
  | mkSegment SegmentText text _ _ _ => [text_part text]
  | mkSegment SegmentData _ _ _ (Some data) => [json_part (dp_Value data)]
  | _ => []
  end.
Definition lowerToolResultContent (segments : list Segment) : list ContentPart :=
  let parts := flat_map lowerResultSegment segments in
  if (length parts =? 0)%nat then [text_part ""] else parts.

Definition lowerToolCall (c : SemToolCall) : ToolCall :=
  mkToolCall (stc_ID c) (stc_Type c) (stc_Name c) (marshalCompactJSONOrEmpty (stc_Arguments c)) (stc_Input c).

Definition lowerSegment (m : Message) (s : Segment) : Message :=
  match s with
  | mkSegment SegmentText text _ _ _ =>
      mkMessage (msg_Role m) (msg_Parts m ++ [text_part text]) (msg_ToolCalls m) (msg_ToolCallID m)
        (msg_ToolCallType m) (msg_ToolResultIsError m)
  | mkSegment SegmentToolCall _ (Some c) _ _ =>
      mkMessage (msg_Role m) (msg_Parts m) (msg_ToolCalls m ++ [lowerToolCall c]) (msg_ToolCallID m)
        (msg_ToolCallType m) (msg_ToolResultIsError m)
  | mkSegment SegmentToolResult _ _ (Some (mkSemToolResult id typ content e)) _ =>
      mkMessage (msg_Role m) (msg_Parts m ++ lowerToolResultContent content) (msg_ToolCalls m) id typ e
  | mkSegment SegmentData _ _ _ (Some data) =>
      mkMessage (msg_Role m) (msg_Parts m ++ [json_part (dp_Value data)]) (msg_ToolCalls m) (msg_ToolCallID m)
        (msg_ToolCallType m) (msg_ToolResultIsError m)
  | _ => m
  end.
Definition lowerSemanticTurn (turn : Turn) : Message :=
  let m := foldl lowerSegment (mkMessage (turn_Role turn) [] [] "" "" false) (turn_Segments turn) in
  if (length (msg_Parts m) =? 0)%nat && (length (msg_ToolCalls m) =? 0)%nat
  then mkMessage (msg_Role m) [text_part ""] (msg_ToolCalls m) (msg_ToolCallID m) (msg_ToolCallType m)
         (msg_ToolResultIsError m)
  else m.

Definition joinSegmentTexts (segments : list Segment) : string :=
  String.concat (String "010" "")
    (omap (fun s => match s with
                    | mkSegment SegmentText text _ _ _ => if text == "" then None else Some text
                    | _ => None
                    end) segments).

Definition lowerSemanticRequest (req : SemRequest) : Request :=
  let o := sr_Options req in
  mkRequest (sr_Model req) (joinSegmentTexts (sr_Instructions req)) (go_MaxTokens o)
    (map lowerSemanticTurn (sr_Turns req)) (sr_Tools req) (go_ToolChoice o) (go_Stream o)
    (go_PreviousResponseID o) (go_Metadata o) (go_ThinkingType o) (go_ContextManagement o) (go_OutputEffort o).

Definition buildRuntimeRequestFromOpenAIChat (req : inboundRequest) (tools : list openAIChatToolDefinition)
    : res Request :=
  lowerSemanticRequest <$> buildSemanticRequest req (parseOpenAIChatTools tools).
Definition buildRuntimeRequest (req : inboundRequest) : res Request :=
  lowerSemanticRequest <$> buildSemanticRequest req (parseInboundTools (ir_Tools req)).
