(* ===== verification/RuntimeRequestFacts.v ===== *)
(** * Facts about inbound requests

    What becomes of the tool results of a message ([internal/gateway/runtime_request.go]):
    each one reaches the provider as a message of its own, except that one which shares
    its message with other content loses its text. *)

From S2P Require Import Prelude GoStrings RuntimeModel GoJson RuntimeRequest.

#[local] Arguments String.append !_ _ /.

(** ** Tool results of a list of segments *)

(** The message a tool result is to become *)
Definition result_message (s : Segment) : option Message :=
  match s with
  | mkSegment SegmentToolResult _ _ (Some (mkSemToolResult id typ content e)) _ =>
      Some (mkMessage RoleTool (lowerToolResultContent content) [] id typ e)
  | _ => None
  end.
Definition result_ids (segs : list Segment) : list string := map msg_ToolCallID (omap result_message segs).

Lemma result_message_None s : is_tool_result s = false -> result_message s = None.
Proof. by destruct s as [[] ? ? [[]|] ?]. Qed.

Lemma result_message_Some s : is_tool_result s = true -> exists m, result_message s = Some m.
Proof. destruct s as [[] ? ? [[]|] ?]; try discriminate; cbn; eauto. Qed.

(** The identifier [parseInboundContent] returns is the one of the last result. *)
Lemma blocks_segments_id blocks id0 segs id :
  blocks_segments blocks id0 = (segs, id) ->
  id = match last (result_ids segs) with Some i => i | None => id0 end.
Proof.
  revert id0 segs id. induction blocks as [|b blocks IH]; intros id0 segs id; cbn [blocks_segments].
  { by intros [= <- <-]. }
  destruct (cb_Type b == "text"); [|destruct (cb_Type b == "tool_use"); [|destruct (cb_Type b == "tool_result"); [|apply IH]]];
    destruct (blocks_segments blocks _) as [segs' id'] eqn:E; intros [= <- <-]; apply IH in E; subst; unfold result_ids; cbn; [done..|].
  rewrite last_cons. by destruct (last _).
Qed.

Lemma parseInboundContent_id role raw segs id :
  parseInboundContent role raw = Ok (segs, id) ->
  id = match last (result_ids segs) with Some i => i | None => "" end.
Proof.
  unfold parseInboundContent. destruct (_ || _); [by intros [= <- <-]|].
  destruct (Unmarshal_string raw); [by intros [= <- <-]|].
  destruct (j ← Parse raw; as_list dec_contentBlock j) as [blocks|]; [|done].
  destruct (blocks_segments blocks "") as [segs' id'] eqn:E. cbn.
  destruct (negb (length segs' =? 0)%nat); cbn; [|done]. destruct (negb _); cbn; [|done].
  intros [= <- <-]. by apply blocks_segments_id in E.
Qed.

(** ** Splitting a message into turns *)

Definition tool_turn (t : Turn) : Prop := exists s, t = mkTurn RoleTool [s] /\ is_tool_result s = true.
Definition plain_turn (role : Role) (t : Turn) : Prop :=
  turn_Role t = role /\ Forall (fun s => is_tool_result s = false) (turn_Segments t).

Lemma last_removelast {A} (l : list A) x : last l = Some x -> l = removelast l ++ [x].
Proof.
  intros H. assert (l <> []) as Hl by (by intros ->). rewrite (app_removelast_last x Hl) at 1.
  do 2 f_equal. destruct l as [|y l] using rev_ind; [done|]. rewrite last_snoc in H. injection H as ->.
  by rewrite List.last_last.
Qed.

Lemma append_segment_turns role turns s :
  is_tool_result s = false -> Forall (fun t => tool_turn t \/ plain_turn role t) turns -> role <> RoleTool ->
  Forall (fun t => tool_turn t \/ plain_turn role t) (append_segment role turns s) /\
  flat_map turn_Segments (append_segment role turns s) = flat_map turn_Segments turns ++ [s].
Proof.
  intros Hs Ht Hr.
  assert (plain_turn role (mkTurn role [s])) as Hp by (split; [done|by repeat constructor]).
  assert (Forall (fun t => tool_turn t \/ plain_turn role t) (turns ++ [mkTurn role [s]]) /\
          flat_map turn_Segments (turns ++ [mkTurn role [s]]) = flat_map turn_Segments turns ++ [s]) as Hnew.
  { split; [|by rewrite flat_map_app]. apply Forall_app; split; [done|]. constructor; [by right|constructor]. }
  unfold append_segment. destruct (last turns) as [t|] eqn:E.
  - destruct (turn_Role t == role) eqn:R; [|done]. apply String.eqb_eq in R.
    apply last_removelast in E. rewrite E in Ht. apply Forall_app in Ht as [Ht1 Ht2].
    rewrite Forall_singleton in Ht2. split.
    + apply Forall_app; split; [done|]. apply Forall_singleton. right. split; [done|]. cbn.
      destruct Ht2 as [(x & Hx & _)|[_ Ht2]]; [by rewrite Hx in R|].
      apply Forall_app; split; [done|by repeat constructor].
    + rewrite E at 2. rewrite !flat_map_app. cbn. by rewrite !app_nil_r, <- app_assoc.
  - rewrite last_None in E. subst turns. split; [|done]. constructor; [by right|constructor].
Qed.

Lemma split_turns role segs turns :
  role <> RoleTool -> Forall (fun t => tool_turn t \/ plain_turn role t) turns ->
  Forall (fun t => tool_turn t \/ plain_turn role t) (foldl (split_step role) turns segs) /\
  flat_map turn_Segments (foldl (split_step role) turns segs) = flat_map turn_Segments turns ++ segs.
Proof.
  intros Hr. revert turns. induction segs as [|s segs IH]; intros turns Ht; cbn [foldl].
  { by rewrite app_nil_r. }
  assert (Forall (fun t => tool_turn t \/ plain_turn role t) (split_step role turns s) /\
          flat_map turn_Segments (split_step role turns s) = flat_map turn_Segments turns ++ [s]) as [H1 H2].
  { unfold split_step. destruct (is_tool_result s) eqn:E; [|by apply append_segment_turns].
    split; [|by rewrite flat_map_app]. apply Forall_app; split; [done|]. apply Forall_singleton. left. by exists s. }
  destruct (IH _ H1) as [H3 H4]. split; [done|]. rewrite H4, H2. by rewrite <- app_assoc.
Qed.

(** ** The messages the turns become *)

Lemma lower_role turn : msg_Role (lowerSemanticTurn turn) = turn_Role turn.
Proof.
  unfold lowerSemanticTurn.
  assert (forall segs m, msg_Role (foldl lowerSegment m segs) = msg_Role m) as H.
  { intros segs. induction segs as [|s segs IH]; intros m; [done|]. cbn [foldl]. rewrite IH.
    by destruct s as [[] ? [] [[]|] []]. }
  destruct (_ && _); cbn; by rewrite H.
Qed.

Lemma lower_tool_turn s m :
  result_message s = Some m -> lowerSemanticTurn (mkTurn RoleTool [s]) = m.
Proof.
  destruct s as [[] ? ? [[id typ content e]|] ?]; try discriminate. intros [= <-].
  unfold lowerSemanticTurn. cbn. unfold lowerToolResultContent.
  destruct (flat_map lowerResultSegment content); by cbn.
Qed.

Definition is_tool_message (m : Message) : bool := msg_Role m == RoleTool.
Definition is_tool_turn (t : Turn) : bool := turn_Role t == RoleTool.

Lemma plain_results segs :
  Forall (fun s => is_tool_result s = false) segs ->
  omap result_message segs = [] /\ List.filter (fun s => negb (is_tool_result s)) segs = segs.
Proof.
  induction 1 as [|s segs Hs _ [IH1 IH2]]; [done|]. cbn. rewrite Hs. cbn.
  by rewrite result_message_None, IH1, IH2.
Qed.

Lemma turns_messages role turns :
  role <> RoleTool -> Forall (fun t => tool_turn t \/ plain_turn role t) turns ->
  List.filter is_tool_message (map lowerSemanticTurn turns) = omap result_message (flat_map turn_Segments turns) /\
  flat_map turn_Segments (List.filter (fun t => negb (is_tool_turn t)) turns) =
    List.filter (fun s => negb (is_tool_result s)) (flat_map turn_Segments turns).
Proof.
  intros Hr. induction 1 as [|t turns Ht _ [IH1 IH2]]; [done|].
  cbn [map List.filter flat_map]. rewrite omap_app, List.filter_app, <- IH1, <- IH2.
  unfold is_tool_message at 1, is_tool_turn at 1. rewrite lower_role.
  destruct Ht as [(s & -> & Hs)|[<- Ht]].
  - cbn. rewrite Hs. cbn. destruct (result_message_Some s Hs) as (m & Hm). rewrite Hm.
    by rewrite (lower_tool_turn s m Hm).
  - apply String.eqb_neq in Hr. rewrite Hr. cbn. destruct (plain_results _ Ht) as [-> ->]. done.
Qed.

Lemma turns_roles role turns :
  Forall (fun t => tool_turn t \/ plain_turn role t) turns ->
  Forall (fun m => is_tool_message m = true \/ msg_Role m = role) (map lowerSemanticTurn turns).
Proof.
  intros H. apply Forall_fmap. eapply Forall_impl; [exact H|]. intros t Ht. unfold is_tool_message. cbn. rewrite lower_role.
  destruct Ht as [(s & -> & _)|[<- _]]; [by left|by right].
Qed.

Lemma omap_results segs :
  length (omap result_message segs) = length (List.filter is_tool_result segs).
Proof.
  induction segs as [|s segs IH]; [done|]. cbn. destruct (is_tool_result s) eqn:E.
  - destruct (result_message_Some s E) as (m & ->). cbn. by rewrite IH.
  - by rewrite result_message_None.
Qed.

(** ** Properties *)

(** C14: of an Anthropic message that is not a tool message, every [tool_result] block becomes a tool
    message of its own, in order, with the identifier, the content and the error flag of the
    block; the other blocks stay in messages of the sender's role, and all blocks of the
    message, results and others, are in the turns in the order they have in the message.  This
    holds when the message has two results or more, none, or nothing but one result that names
    its call (the content of a lone result among other blocks is not delivered: [lone_result_dropped];
    one with an empty [tool_use_id] stays in the sender's message), and when it carries no OpenAI tool calls or tool call identifier. *)
Theorem tool_results_delivered msg segments id :
  im_Role msg <> RoleTool -> im_ToolCalls msg = [] -> im_ToolCallID msg = "" ->
  parseInboundContent (im_Role msg) (im_Content msg) = Ok (segments, id) ->
  (length (List.filter is_tool_result segments) = 1%nat ->
     length segments = 1%nat /\ Forall (fun i => i <> "") (result_ids segments)) ->
  exists turns, parseInboundMessages msg = Ok turns /\
    flat_map turn_Segments turns = segments /\
    List.filter is_tool_message (map lowerSemanticTurn turns) = omap result_message segments /\
    Forall (fun m => is_tool_message m = true \/ msg_Role m = im_Role msg) (map lowerSemanticTurn turns) /\
    flat_map turn_Segments (List.filter (fun t => negb (is_tool_turn t)) turns) =
      List.filter (fun s => negb (is_tool_result s)) segments.
Proof.
  intros Hr Hc Hi Hp Hone. unfold parseInboundMessages. rewrite Hp. cbn -[Nat.ltb hasMultipleToolResultSegments]. rewrite Hc, Hi. cbn -[hasMultipleToolResultSegments].
  assert ((im_Role msg != RoleTool) = true) as -> by (apply String.eqb_neq in Hr; by rewrite Hr).
  cbn [andb]. unfold hasMultipleToolResultSegments. destruct (Nat.ltb_spec 1 (length (List.filter is_tool_result segments))).
  - eexists. split; [done|].
    destruct (split_turns (im_Role msg) segments [] Hr (Forall_nil_2 _)) as [H1 H2]. cbn in H2.
    destruct (turns_messages (im_Role msg) _ Hr H1) as [H3 H4]. rewrite H2 in H3, H4.
    split_and!; [done|done|by eapply turns_roles|done].
  - apply parseInboundContent_id in Hp.
    destruct (List.filter is_tool_result segments) as [|s [|]] eqn:E; cbn in *; [| |lia].
    + assert (Forall (fun s => is_tool_result s = false) segments) as Hn.
      { apply Forall_forall. intros x Hx. destruct (is_tool_result x) eqn:Ex; [|done].
        assert (In x []) as []. rewrite <- E. apply filter_In. by rewrite <- list_elem_of_In. }
      destruct (plain_results _ Hn) as [H1 H2]. unfold result_ids in Hp. rewrite H1 in Hp. cbn in Hp. subst id. cbn.
      eexists. split; [done|].
      split_and!; [by cbn; rewrite app_nil_r| |apply Forall_singleton; right; by rewrite lower_role|];
        cbn [map List.filter]; unfold is_tool_message, is_tool_turn; rewrite ?lower_role; cbn;
        apply String.eqb_neq in Hr; rewrite Hr, ?H1, ?H2; cbn; by rewrite ?app_nil_r.
    + assert (segments = [s]) as ->.
      { destruct (Hone eq_refl) as [Hlen _]. destruct segments as [|x [|]]; [done| |done].
        cbn in E. destruct (is_tool_result x); congruence. }
      assert (is_tool_result s = true) as Hs by (cbn in E; by destruct (is_tool_result s)).
      destruct (Hone eq_refl) as [_ Hids].
      destruct (result_message_Some s Hs) as (m & Hm). unfold result_ids in Hp, Hids. cbn in Hp, Hids.
      rewrite Hm in Hp, Hids. cbn in Hp, Hids. subst id. rewrite Forall_singleton in Hids.
      apply String.eqb_neq in Hids. destruct s as [[] ? ? [[i typ content e]|] ?]; try discriminate Hs.
      injection Hm as <-. cbn in Hids. cbn [msg_ToolCallID]. rewrite Hids. eexists. split; [reflexivity|].
      cbn [normalizeToolTurnSegments map List.filter]. split; [done|].
      split; [|split; [apply Forall_singleton; left; unfold is_tool_message; by rewrite lower_role|done]].
      unfold is_tool_message, is_tool_turn. rewrite lower_role.
      cbn -[lowerSemanticTurn]. by erewrite lower_tool_turn by reflexivity.
Qed.

(** *** What is lost *)

(** A result that shares its message with other content: its own content does not appear in
    the message sent, whatever it is. *)
Lemma lone_result_dropped id (segs1 segs2 : list Segment) (r : SemToolResult) :
  segs1 ++ segs2 <> [] ->
  lowerSemanticTurn (mkTurn RoleTool (normalizeToolTurnSegments id (segs1 ++ result_segment r :: segs2))) =
  mkMessage RoleTool (lowerToolResultContent (segs1 ++ segs2)) [] id "" false.
Proof.
  intros Hne.
  assert (normalizeToolTurnSegments id (segs1 ++ result_segment r :: segs2) =
          [result_segment (mkSemToolResult id "" (segs1 ++ result_segment r :: segs2) false)]) as ->.
  { destruct segs1 as [|s1 [|]]; cbn in *; [destruct segs2; [done|by destruct r]| |].
    - by destruct s1 as [[] ? ? [[]|] ?].
    - by destruct s1 as [[] ? ? [[]|] ?]. }
  assert (lowerToolResultContent (segs1 ++ result_segment r :: segs2) = lowerToolResultContent (segs1 ++ segs2)) as H.
  { unfold lowerToolResultContent. rewrite !flat_map_app. cbn [flat_map]. by destruct r. }
  unfold lowerSemanticTurn. cbn -[lowerToolResultContent]. rewrite H.
  assert (lowerToolResultContent (segs1 ++ segs2) <> []) as Hn.
  { unfold lowerToolResultContent. destruct (flat_map _ _); cbn; done. }
  by destruct (lowerToolResultContent (segs1 ++ segs2)).
Qed.

Definition user_message (content : string) : inboundMessage := mkInboundMessage RoleUser (js content) [] "".

(** The answer "42" of the tool is not sent. *)
Example lone_result_example :
  (map lowerSemanticTurn <$> parseInboundMessages (user_message
     "[{'type':'tool_result','tool_use_id':'t1','content':'42'},{'type':'text','text':'go on'}]")) =
  Ok [mkMessage RoleTool [text_part "go on"] [] "t1" "" false].
Proof. vm_compute. reflexivity. Qed.

(** A reminder in front of a tool result takes its identifier and content away. *)
Example reminder_example :
  im_Content (stripLeadingSystemReminderText (user_message
    "[{'type':'text','text':'<system-reminder>x</system-reminder>'},{'type':'tool_result','tool_use_id':'t1','content':'42'}]")) =
  js "[{'type':'tool_result','text':''}]".
Proof. vm_compute. reflexivity. Qed.

(** Integers of more than 53 bits in the arguments of a tool are changed. *)
Example arguments_rounded :
  normalizedJSONOrRaw (js "{'id':9007199254740993}") = js "{'id':9007199254740992}".
Proof. vm_compute. reflexivity. Qed.

(** ** Witnesses *)

Definition two_results : inboundMessage := user_message
  "[{'type':'tool_result','tool_use_id':'t1','content':'42'},{'type':'text','text':'and'},{'type':'tool_result','tool_use_id':'t2','content':[{'type':'text','text':'no'}],'is_error':true}]".

Lemma tool_results_delivered_witness :
  exists turns, parseInboundMessages two_results = Ok turns /\
    flat_map turn_Segments turns =
      [result_segment (mkSemToolResult "t1" "function" [text_segment "42"] false); text_segment "and";
       result_segment (mkSemToolResult "t2" "function" [text_segment "no"] true)] /\
    List.filter is_tool_message (map lowerSemanticTurn turns) =
      [mkMessage RoleTool [text_part "42"] [] "t1" "function" false;
       mkMessage RoleTool [text_part "no"] [] "t2" "function" true] /\
    Forall (fun m => is_tool_message m = true \/ msg_Role m = RoleUser) (map lowerSemanticTurn turns) /\
    flat_map turn_Segments (List.filter (fun t => negb (is_tool_turn t)) turns) = [text_segment "and"].
Proof.
  refine (tool_results_delivered two_results
    [result_segment (mkSemToolResult "t1" "function" [text_segment "42"] false); text_segment "and";
     result_segment (mkSemToolResult "t2" "function" [text_segment "no"] true)] "t2" _ _ _ _ _).
  - discriminate.
  - reflexivity.
  - reflexivity.
  - vm_compute. reflexivity.
  - discriminate.
Defined.
