(* ===== verification/ProviderCodecs.v ===== *)
(** * The wire formats of the providers

    Models [internal/provider/provider_codec_helpers.go], [openai_chat_codec.go],
    [anthropic_messages_codec.go] and [usage_estimation.go]: the requests sent upstream,
    the reading of the answers, and the estimate used when an answer has no usage.

    A type with JSON tags is a record with the value it is marshalled to ([json_of_...])
    and its decoder ([dec_...]); [omitempty] members are built with [omit_...]. *)

From S2P Require Import Prelude GoStrings ProviderErrors RuntimeModel GoJson.

#[local] Arguments String.append !_ _ /.

(** ** Helpers *)

Definition omit_str (name v : string) : list (string * value) := if v == "" then [] else [(name, VStr v)].
Definition omit_raw (name v : string) : list (string * value) := if v == "" then [] else [(name, VRaw v)].
Definition omit_int (name : string) (v : Z) : list (string * value) := if v =? 0 then [] else [(name, VInt v)].
Definition omit_bool (name : string) (v : bool) : list (string * value) := if v then [(name, VBool v)] else [].
Definition omit_list (name : string) (v : list value) : list (string * value) :=
  match v with [] => [] | _ => [(name, VArr v)] end.

Definition newline : string := String "010" EmptyString.

Definition normalizedToolSchema (raw : string) : string :=
  if raw == "" then "{}" else
  match Unmarshal_any raw with
  | None => raw
  | Some v => match Marshal v with Some encoded => encoded | None => raw end
  end.
Definition compactJSONOrEmpty (raw : string) : string :=
  if raw == "" then "{}" else
  match Unmarshal_any raw with
  | None => raw
  | Some v => match Marshal v with Some encoded => encoded | None => raw end
  end.

Definition joinedTextParts (msg : Message) : string :=
  String.concat newline
    (omap (fun part => match cp_Type part with
                       | ContentPartTypeText => if cp_Text part == "" then None else Some (cp_Text part)
                       | _ => None
                       end) (msg_Parts msg)).
Definition joinedToolResultParts (msg : Message) : string :=
  String.concat newline
    (omap (fun part => match cp_Type part with
                       | ContentPartTypeText => if cp_Text part == "" then None else Some (cp_Text part)
                       | ContentPartTypeJSON =>
                           if cp_Data part == "" then None else Some (compactJSONOrEmpty (cp_Data part))
                       | _ => None
                       end) (msg_Parts msg)).
Fixpoint first_text (parts : list ContentPart) : string :=
  match parts with
  | [] => ""
  | part :: parts => match cp_Type part with ContentPartTypeText => cp_Text part | _ => first_text parts end
  end.
Definition firstTextPart (msg : Message) : string := first_text (msg_Parts msg).

(** ** Estimated usage *)

(** [utf8.RuneCountInString] *)
Fixpoint rune_count (s : string) : Z :=
  match s with
  | EmptyString => 0
  | String _ s' =>
      match utf8_size s, s' with
      | 2%nat, String _ s' => 1 + rune_count s'
      | 3%nat, String _ (String _ s') => 1 + rune_count s'
      | 4%nat, String _ (String _ (String _ s')) => 1 + rune_count s'
      | _, _ => 1 + rune_count s'
      end
  end.
Definition maxEstimatedTokens (runes : Z) : Z :=
  if runes <=? 0 then 0 else let tokens := (runes + 3) / 4 in if tokens <? 1 then 1 else tokens.
Definition estimateTextTokens (text : string) : Z :=
  if text == "" then 0 else maxEstimatedTokens (rune_count text).
Definition estimateBytesTokens (data : string) : Z :=
  if data == "" then 0 else maxEstimatedTokens (rune_count data).

Definition sum_map {A} (f : A -> Z) (l : list A) : Z := foldr (fun x n => f x + n) 0 l.
Definition part_tokens (part : ContentPart) : Z :=
  match cp_Type part with
  | ContentPartTypeJSON => estimateBytesTokens (cp_Data part) + 2
  | _ => estimateTextTokens (cp_Text part)
  end.
Definition call_tokens (call : ToolCall) : Z :=
  3 + estimateTextTokens (tc_Name call) + estimateTextTokens (tc_Arguments call) + estimateTextTokens (tc_Input call).
Definition message_tokens (msg : Message) : Z :=
  2 + estimateTextTokens (msg_Role msg) + sum_map part_tokens (msg_Parts msg) +
  (if msg_ToolCallID msg == "" then 0 else estimateTextTokens (msg_ToolCallID msg)) +
  sum_map call_tokens (msg_ToolCalls msg).
Definition tool_tokens (tool : ToolDefinition) : Z :=
  6 + estimateTextTokens (td_Type tool) + estimateTextTokens (td_Name tool) +
  estimateTextTokens (td_Description tool) + estimateBytesTokens (td_InputSchema tool) +
  estimateBytesTokens (td_Format tool) + estimateBytesTokens (td_Raw tool).

(** The sums count bytes of data in memory: they do not reach [2^63]. *)
Definition estimateRequestTokens (req : Request) : Z :=
  let total :=
    estimateTextTokens (req_System req) + sum_map message_tokens (req_Messages req) +
    sum_map tool_tokens (req_Tools req) + estimateBytesTokens (req_ToolChoice req) +
    estimateBytesTokens (req_Metadata req) + estimateBytesTokens (req_ContextManagement req) +
    estimateTextTokens (req_ThinkingType req) + estimateTextTokens (req_OutputEffort req) in
  if total <? 1 then 1 else total.
Definition estimateResponseTokens (resp : Response) : Z :=
  let msg := resp_Message resp in
  let total := 2 + estimateTextTokens (msg_Role msg) + sum_map part_tokens (msg_Parts msg) +
               sum_map call_tokens (msg_ToolCalls msg) in
  if total <? 1 then 1 else total.
Definition estimateUsageHeuristically (req : Request) (resp : Response) : Usage :=
  let input := estimateRequestTokens req in
  let output := estimateResponseTokens resp in
  mkUsage input output 0 0 (input + output) UsageSourceEstimated.

(** ** OpenAI chat *)

Record openAIToolCall := mkOpenAIToolCall { oc_ID : string; oc_Type : string; oc_Name : string; oc_Arguments : string }.
Record openAIChatMessage := mkOpenAIChatMessage {
  ocm_Role : string;
  ocm_Content : string;
  ocm_ReasoningContent : string;
  ocm_ToolCalls : list openAIToolCall;
  ocm_ToolCallID : string;
  ocm_Status : string
}.
Record openAIToolDefinition := mkOpenAIToolDefinition {
  otd_Type : string;
  otd_Name : string;
  otd_Description : string;
  otd_Parameters : string
}.
Record openAIChatRequest := mkOpenAIChatRequest {
  ocr_Model : string;
  ocr_Messages : list openAIChatMessage;
  ocr_MaxTokens : Z;
  ocr_Tools : list openAIToolDefinition;
  ocr_ToolChoice : string
}.

Definition json_of_openAIToolCall (c : openAIToolCall) : value :=
  VStruct (omit_str "id" (oc_ID c) ++
    [("type", VStr (oc_Type c));
     ("function", VStruct [("name", VStr (oc_Name c)); ("arguments", VStr (oc_Arguments c))])]).
Definition json_of_openAIChatMessage (m : openAIChatMessage) : value :=
  VStruct ([("role", VStr (ocm_Role m))] ++ omit_str "content" (ocm_Content m) ++
    omit_str "reasoning_content" (ocm_ReasoningContent m) ++
    omit_list "tool_calls" (map json_of_openAIToolCall (ocm_ToolCalls m)) ++
    omit_str "tool_call_id" (ocm_ToolCallID m) ++ omit_str "status" (ocm_Status m)).
Definition json_of_openAIToolDefinition (t : openAIToolDefinition) : value :=
  VStruct [("type", VStr (otd_Type t));
           ("function", VStruct ([("name", VStr (otd_Name t))] ++ omit_str "description" (otd_Description t) ++
                                 [("parameters", VRaw (otd_Parameters t))]))].
Definition json_of_openAIChatRequest (r : openAIChatRequest) : value :=
  VStruct ([("model", VStr (ocr_Model r)); ("messages", VArr (map json_of_openAIChatMessage (ocr_Messages r)))] ++
    omit_int "max_tokens" (ocr_MaxTokens r) ++
    omit_list "tools" (map json_of_openAIToolDefinition (ocr_Tools r)) ++
    omit_raw "tool_choice" (ocr_ToolChoice r)).

Definition shouldDropOpenAIChatTool (tool : ToolDefinition) : bool :=
  if td_InputSchema tool == "" then false else
  match Unmarshal_map (td_InputSchema tool) with
  | Some (Some schema) =>
      match map_get "type" schema with
      | Some (VStr kind) => (kind != "") && (kind != "object")
      | _ => false
      end
  | _ => false
  end.

Definition encode_chat_call (call : ToolCall) : openAIToolCall :=
  mkOpenAIToolCall (tc_ID call) "function" (tc_Name call) (tc_Arguments call).
Definition encode_chat_message (msg : Message) : openAIChatMessage :=
  let is_tool := msg_Role msg == MessageRoleTool in
  mkOpenAIChatMessage (msg_Role msg) (if is_tool then joinedToolResultParts msg else joinedTextParts msg) ""
    (map encode_chat_call (msg_ToolCalls msg)) (msg_ToolCallID msg)
    (if is_tool && msg_ToolResultIsError msg then "error" else "").
Definition encode_chat_tool (tool : ToolDefinition) : openAIToolDefinition :=
  mkOpenAIToolDefinition "function" (td_Name tool) (td_Description tool) (normalizedToolSchema (td_InputSchema tool)).

Definition encodeOpenAIChatRequest (req : Request) : openAIChatRequest :=
  let messages :=
    (if req_System req == "" then []
     else [mkOpenAIChatMessage MessageRoleSystem (req_System req) "" [] "" ""]) ++
    map encode_chat_message (req_Messages req) in
  let tools := map encode_chat_tool (List.filter (fun t => negb (shouldDropOpenAIChatTool t)) (req_Tools req)) in
  mkOpenAIChatRequest (req_Model req) messages (if 0 <? req_MaxTokens req then req_MaxTokens req else 0) tools
    (if (length tools =? 0)%nat then ""
     else if req_ToolChoice req == "" then dquote +:+ "auto" +:+ dquote else req_ToolChoice req).

(** *** Answers *)

Record chatUsage := mkChatUsage { cu_PromptTokens : Z; cu_CompletionTokens : Z; cu_TotalTokens : Z; cu_Cached : Z }.
Record openAIChatResponseEnvelope := mkChatEnvelope {
  oce_ID : string;
  oce_Object : string;
  oce_Model : string;
  oce_Choices : list (string * openAIChatMessage);  (** the finish reason and the message *)
  oce_Usage : option chatUsage
}.

Definition empty_function : string * string := ("", "").
Definition dec_function (j : json) : option (string * string) :=
  ms ← as_object j; n ← f_string "name" ms; a ← f_string "arguments" ms; Some (n, a).
Definition dec_openAIToolCall (j : json) : option openAIToolCall :=
  ms ← as_object j; id ← f_string "id" ms; t ← f_string "type" ms;
  '(n, a) ← field empty_function dec_function "function" ms; Some (mkOpenAIToolCall id t n a).
Definition empty_chat_message : openAIChatMessage := mkOpenAIChatMessage "" "" "" [] "" "".
Definition dec_openAIChatMessage (j : json) : option openAIChatMessage :=
  ms ← as_object j; role ← f_string "role" ms; content ← f_string "content" ms;
  reasoning ← f_string "reasoning_content" ms; calls ← f_list dec_openAIToolCall "tool_calls" ms;
  id ← f_string "tool_call_id" ms; status ← f_string "status" ms;
  Some (mkOpenAIChatMessage role content reasoning calls id status).
Definition dec_choice (j : json) : option (string * openAIChatMessage) :=
  ms ← as_object j; r ← f_string "finish_reason" ms;
  m ← field empty_chat_message dec_openAIChatMessage "message" ms; Some (r, m).
Definition dec_cached (name : string) (ms : members) : option Z :=
  field 0 (fun j => ms ← as_object j; f_int "cached_tokens" ms) name ms.
Definition dec_chatUsage (j : json) : option (option chatUsage) :=
  ms ← as_object j; p ← f_int "prompt_tokens" ms; c ← f_int "completion_tokens" ms; t ← f_int "total_tokens" ms;
  k ← dec_cached "prompt_tokens_details" ms; Some (Some (mkChatUsage p c t k)).
Definition dec_chatEnvelope (j : json) : option openAIChatResponseEnvelope :=
  ms ← as_object j; id ← f_string "id" ms; o ← f_string "object" ms; m ← f_string "model" ms;
  cs ← f_list dec_choice "choices" ms; u ← field None dec_chatUsage "usage" ms; Some (mkChatEnvelope id o m cs u).

Definition usageFromOpenAIChatEnvelope (resp : openAIChatResponseEnvelope) : option Usage :=
  u ← oce_Usage resp;
  Some (mkUsage (cu_PromptTokens u) (cu_CompletionTokens u) (cu_Cached u) 0 (cu_TotalTokens u) UsageSourceProvider).

Definition decode_chat_call (c : openAIToolCall) : ToolCall :=
  mkToolCall (oc_ID c) "" (oc_Name c) (oc_Arguments c) "".
Definition decodeOpenAIChatResponse (resp : openAIChatResponseEnvelope) : result goerror Response :=
  match oce_Choices resp with
  | [] => Err (NewFatalError (ErrPlain "upstream response missing choices"))
  | (reason, m) :: _ =>
      let text := if ocm_Content m == "" then ocm_ReasoningContent m else ocm_Content m in
      let parts := if text == "" then [] else [mkContentPart ContentPartTypeText text ""] in
      let calls := map decode_chat_call (ocm_ToolCalls m) in
      if (length parts =? 0)%nat && (length calls =? 0)%nat
      then Err (NewFatalError (ErrPlain "upstream returned no content and no tool calls"))
      else
        let finish := if (0 <? length calls)%nat then FinishReasonToolUse else FinishReasonStop in
        let finish :=
          if (reason == "tool_calls") || (reason == "function_call") then FinishReasonToolUse
          else if reason == "length" then FinishReasonLength
          else if (reason == "stop") || (reason == "") || (reason == "content_filter") then
            if (length calls =? 0)%nat then FinishReasonStop else finish
          else finish in
        Ok (mkResponse (oce_ID resp) (oce_Object resp) (oce_Model resp)
              (mkMessage (ocm_Role m) parts calls "" "" false) finish (usageFromOpenAIChatEnvelope resp))
  end.

(** ** Anthropic messages *)

(** [Content] is nil, or a string or a list of maps. *)
Record anthropicContentBlock := mkAnthropicContentBlock {
  acb_Type : string;
  acb_Text : string;
  acb_ID : string;
  acb_Name : string;
  acb_Input : string;
  acb_Value : string;
  acb_ToolUseID : string;
  acb_IsError : bool;
  acb_Content : option value
}.
Record anthropicMessage := mkAnthropicMessage { am_Role : string; am_Content : list anthropicContentBlock }.
Record anthropicToolDefinition := mkAnthropicToolDefinition {
  atd_Name : string;
  atd_Description : string;
  atd_InputSchema : string
}.
Record anthropicMessagesRequest := mkAnthropicMessagesRequest {
  amr_Model : string;
  amr_System : string;
  amr_MaxTokens : Z;
  amr_Messages : list anthropicMessage;
  amr_Tools : list anthropicToolDefinition;
  amr_Stream : bool
}.

Definition json_of_anthropicContentBlock (b : anthropicContentBlock) : value :=
  VStruct ([("type", VStr (acb_Type b))] ++ omit_str "text" (acb_Text b) ++ omit_str "id" (acb_ID b) ++
    omit_str "name" (acb_Name b) ++ omit_raw "input" (acb_Input b) ++ omit_raw "value" (acb_Value b) ++
    omit_str "tool_use_id" (acb_ToolUseID b) ++ omit_bool "is_error" (acb_IsError b) ++
    match acb_Content b with Some v => [("content", v)] | None => [] end).
Definition json_of_anthropicMessage (m : anthropicMessage) : value :=
  VStruct [("role", VStr (am_Role m)); ("content", VArr (map json_of_anthropicContentBlock (am_Content m)))].
Definition json_of_anthropicToolDefinition (t : anthropicToolDefinition) : value :=
  VStruct ([("name", VStr (atd_Name t))] ++ omit_str "description" (atd_Description t) ++
    [("input_schema", VRaw (atd_InputSchema t))]).
Definition json_of_anthropicMessagesRequest (r : anthropicMessagesRequest) : value :=
  VStruct ([("model", VStr (amr_Model r))] ++ omit_str "system" (amr_System r) ++
    [("max_tokens", VInt (amr_MaxTokens r)); ("messages", VArr (map json_of_anthropicMessage (amr_Messages r)))] ++
    omit_list "tools" (map json_of_anthropicToolDefinition (amr_Tools r)) ++ omit_bool "stream" (amr_Stream r)).

Definition text_block (text : string) : anthropicContentBlock :=
  mkAnthropicContentBlock "text" text "" "" "" "" "" false None.
Definition encode_anthropic_part (part : ContentPart) : list anthropicContentBlock :=
  match cp_Type part with
  | ContentPartTypeText => if cp_Text part == "" then [] else [text_block (cp_Text part)]
  | ContentPartTypeJSON =>
      match Unmarshal_any (cp_Data part) with
      | None => [text_block (cp_Data part)]
      | Some v =>
          match Marshal v with
          | None => [text_block (cp_Data part)]
          | Some raw => [mkAnthropicContentBlock "json" "" "" "" "" raw "" false None]
          end
      end
  | ContentPartTypeOther _ => []
  end.
Definition encode_anthropic_call (call : ToolCall) : anthropicContentBlock :=
  mkAnthropicContentBlock "tool_use" "" (tc_ID call) (tc_Name call) (compactJSONOrEmpty (tc_Arguments call)) "" ""
    false None.

Definition result_part (part : ContentPart) : list (list (string * value)) :=
  match cp_Type part with
  | ContentPartTypeText => [[("type", VStr "text"); ("text", VStr (cp_Text part))]]
  | ContentPartTypeJSON =>
      match Unmarshal_any (cp_Data part) with
      | None => [[("type", VStr "text"); ("text", VStr (cp_Data part))]]
      | Some v => [[("type", VStr "json"); ("value", v)]]
      end
  | ContentPartTypeOther _ => []
  end.
Definition anthropicToolResultContent (msg : Message) : value :=
  match flat_map result_part (msg_Parts msg) with
  | [] => VStr ""
  | [("type", VStr "text"); ("text", text)] :: [] => text
  | blocks => VArr (map VMap blocks)
  end.

(** The loop over the messages: the system text may be taken from a system message. *)
Definition encode_anthropic_message (s : string * list anthropicMessage) (msg : Message)
    : string * list anthropicMessage :=
  let '(system, messages) := s in
  if msg_Role msg == MessageRoleSystem then
    (if system == "" then firstTextPart msg else system, messages)
  else if msg_Role msg == MessageRoleTool then
    (system, messages ++ [mkAnthropicMessage "user"
       [mkAnthropicContentBlock "tool_result" "" "" "" "" "" (msg_ToolCallID msg) (msg_ToolResultIsError msg)
          (Some (anthropicToolResultContent msg))]])
  else
    let content := flat_map encode_anthropic_part (msg_Parts msg) ++ map encode_anthropic_call (msg_ToolCalls msg) in
    (system, if (0 <? length content)%nat then messages ++ [mkAnthropicMessage (msg_Role msg) content] else messages).

Definition encodeAnthropicMessagesRequest (req : Request) : anthropicMessagesRequest :=
  let maxTokens := if req_MaxTokens req <=? 0 then 1024 else req_MaxTokens req in
  let '(system, messages) := foldl encode_anthropic_message (req_System req, []) (req_Messages req) in
  mkAnthropicMessagesRequest (req_Model req) system maxTokens messages
    (map (fun tool => mkAnthropicToolDefinition (td_Name tool) (td_Description tool)
                        (normalizedToolSchema (td_InputSchema tool))) (req_Tools req))
    (req_Stream req).

(** *** Answers *)

Record anthropicUsage := mkAnthropicUsage { au_Input : Z; au_Output : Z; au_CacheCreation : Z; au_CacheRead : Z }.
Record anthropicMessagesEnvelope := mkAnthropicEnvelope {
  ame_ID : string;
  ame_Type : string;
  ame_Role : string;
  ame_Model : string;
  ame_Content : list anthropicContentBlock;
  ame_StopReason : string;
  ame_Usage : option anthropicUsage
}.

Definition dec_anthropicContentBlock (j : json) : option anthropicContentBlock :=
  ms ← as_object j;
  t ← f_string "type" ms; x ← f_string "text" ms; id ← f_string "id" ms; n ← f_string "name" ms;
  use ← f_string "tool_use_id" ms; e ← f_bool "is_error" ms;
  c ← field None (fun j => v ← to_any j; Some (Some v)) "content" ms;
  Some (mkAnthropicContentBlock t x id n (f_raw "input" ms) (f_raw "value" ms) use e c).
Definition dec_anthropicUsage (j : json) : option (option anthropicUsage) :=
  ms ← as_object j; i ← f_int "input_tokens" ms; o ← f_int "output_tokens" ms;
  c ← f_int "cache_creation_input_tokens" ms; r ← f_int "cache_read_input_tokens" ms;
  Some (Some (mkAnthropicUsage i o c r)).
Definition dec_anthropicEnvelope (j : json) : option anthropicMessagesEnvelope :=
  ms ← as_object j;
  id ← f_string "id" ms; t ← f_string "type" ms; role ← f_string "role" ms; m ← f_string "model" ms;
  c ← f_list dec_anthropicContentBlock "content" ms; r ← f_string "stop_reason" ms;
  u ← field None dec_anthropicUsage "usage" ms;
  Some (mkAnthropicEnvelope id t role m c r u).

Definition anthropicFinishReason (reason : string) : FinishReason :=
  if reason == "tool_use" then FinishReasonToolUse
  else if reason == "max_tokens" then FinishReasonLength
  else if (reason == "end_turn") || (reason == "") then FinishReasonEndTurn
  else FinishReasonStop.

Definition decode_anthropic_part (block : anthropicContentBlock) : list ContentPart :=
  if acb_Type block == "text" then
    if acb_Text block == "" then [] else [mkContentPart ContentPartTypeText (acb_Text block) ""]
  else if acb_Type block == "json" then
    let payload := if acb_Value block == "" then acb_Text block else acb_Value block in
    if payload == "" then [] else [mkContentPart ContentPartTypeJSON "" payload]
  else [].
Definition decode_anthropic_call (block : anthropicContentBlock) : list ToolCall :=
  if acb_Type block == "tool_use"
  then [mkToolCall (acb_ID block) "" (acb_Name block) (compactJSONOrEmpty (acb_Input block)) ""] else [].

Definition decodeAnthropicMessagesResponse (resp : anthropicMessagesEnvelope) : result goerror Response :=
  if (length (ame_Content resp) =? 0)%nat
  then Err (NewFatalError (ErrPlain "upstream response missing content")) else
  let role := if ame_Role resp == "" then MessageRoleAssistant else ame_Role resp in
  let parts := flat_map decode_anthropic_part (ame_Content resp) in
  let calls := flat_map decode_anthropic_call (ame_Content resp) in
  if (length parts =? 0)%nat && (length calls =? 0)%nat
  then Err (NewFatalError (ErrPlain "upstream returned no content and no tool calls")) else
  Ok (mkResponse (ame_ID resp) (ame_Type resp) (ame_Model resp) (mkMessage role parts calls "" "" false)
        (anthropicFinishReason (ame_StopReason resp))
        (u ← ame_Usage resp;
         Some (mkUsage (au_Input u) (au_Output u) (au_CacheRead u) (au_CacheCreation u)
                 (i64 (au_Input u + au_Output u + au_CacheCreation u + au_CacheRead u)) UsageSourceProvider))).
