(* ===== verification/ChatStream.v ===== *)
(** * The OpenAI chat stream

    Models [internal/provider/openai_chat_stream.go] and [stream.go]: the events read
    from the server-sent lines of an upstream, and those made of a whole answer.

    The goroutine of [decodeOpenAIChatStream] is a function of the body: the list of the
    events it sends.  A body is the bytes read and the error that ended the reading
    ([None] for the end of the file). *)

From S2P Require Import Prelude GoStrings ProviderErrors RuntimeModel GoJson ProviderCodecs.

#[local] Arguments String.append !_ _ /.

(** ** Lines: [bufio.Scanner] with a buffer of one MiB *)

Definition drop_cr (line : string) : string :=
  if HasSuffix line (String "013" EmptyString) then str_take (len line - 1) line else line.
Definition max_token : Z := 1024 * 1024.

(** The lines, and whether one was too long *)
Fixpoint scan_lines (parts : list string) : list string * bool :=
  match parts with
  | [] => ([], false)
  | line :: parts =>
      if (line == "") && (length parts =? 0)%nat then ([], false)
      else if max_token <=? Z.of_nat (len line) then ([], true)
      else let '(ls, long) := scan_lines parts in (drop_cr line :: ls, long)
  end.
Definition scanner_lines (body : string) (read_err : option goerror) : list string * option goerror :=
  let '(lines, long) := scan_lines (Split body "010") in
  (lines, if long then Some (ErrPlain "bufio.Scanner: token too long") else read_err).

(** ** Chunks *)

Record chunkToolCall := mkChunkToolCall {
  ctc_Index : Z;
  ctc_ID : string;
  ctc_Type : string;
  ctc_Name : string;
  ctc_Arguments : string
}.
Record chunkChoice := mkChunkChoice {
  cc_Role : string;
  cc_Content : string;
  cc_ToolCalls : list chunkToolCall;
  cc_FinishReason : string
}.
Record chunkUsage := mkChunkUsage {
  ch_InputTokens : Z;
  ch_OutputTokens : Z;
  ch_PromptTokens : Z;
  ch_CompletionTokens : Z;
  ch_TotalTokens : Z;
  ch_Cached : Z
}.
Record openAIChatStreamChunk := mkChatStreamChunk {
  csc_ID : string;
  csc_Object : string;
  csc_Model : string;
  csc_Choices : list chunkChoice;
  csc_Usage : option chunkUsage
}.

Definition dec_chunkToolCall (j : json) : option chunkToolCall :=
  ms ← as_object j; ix ← f_int "index" ms; id ← f_string "id" ms; t ← f_string "type" ms;
  '(n, a) ← field empty_function dec_function "function" ms; Some (mkChunkToolCall ix id t n a).
Definition empty_delta : string * string * list chunkToolCall := ("", "", []).
Definition dec_delta (j : json) : option (string * string * list chunkToolCall) :=
  ms ← as_object j; r ← f_string "role" ms; c ← f_string "content" ms; t ← f_list dec_chunkToolCall "tool_calls" ms;
  Some (r, c, t).
Definition dec_chunkChoice (j : json) : option chunkChoice :=
  ms ← as_object j; '(r, c, t) ← field empty_delta dec_delta "delta" ms; f ← f_string "finish_reason" ms;
  Some (mkChunkChoice r c t f).
Definition dec_chunkUsage (j : json) : option (option chunkUsage) :=
  ms ← as_object j; i ← f_int "input_tokens" ms; o ← f_int "output_tokens" ms; p ← f_int "prompt_tokens" ms;
  c ← f_int "completion_tokens" ms; t ← f_int "total_tokens" ms; k ← dec_cached "prompt_tokens_details" ms;
  Some (Some (mkChunkUsage i o p c t k)).
Definition dec_chunk (j : json) : option openAIChatStreamChunk :=
  ms ← as_object j; id ← f_string "id" ms; o ← f_string "object" ms; m ← f_string "model" ms;
  cs ← f_list dec_chunkChoice "choices" ms; u ← field None dec_chunkUsage "usage" ms;
  Some (mkChatStreamChunk id o m cs u).
Definition Unmarshal_chunk (payload : string) : option openAIChatStreamChunk := j ← Parse payload; dec_chunk j.

Definition usageFromOpenAIChatStreamChunk (chunk : openAIChatStreamChunk) : option Usage :=
  u ← csc_Usage chunk;
  let inputTokens := if ch_InputTokens u =? 0 then ch_PromptTokens u else ch_InputTokens u in
  let outputTokens := if ch_OutputTokens u =? 0 then ch_CompletionTokens u else ch_OutputTokens u in
  Some (mkUsage inputTokens outputTokens (ch_Cached u) 0 (ch_TotalTokens u) UsageSourceProvider).

Definition compactJSONString (value : string) : string :=
  let trimmed := TrimSpace value in
  if trimmed == "" then "{}" else
  match Compact trimmed with Some s => s | None => trimmed end.

(** ** The decoder *)

Record toolState := mkToolState { ts_id : string; ts_name : string; ts_arguments : string }.
Definition empty_tool : toolState := mkToolState "" "" "".

Record decoder := mkDecoder {
  d_messageID : string;
  d_model : string;
  d_role : MessageRole;
  d_finishReason : FinishReason;
  d_usage : option Usage;
  d_states : gmap Z toolState;
  d_started : bool;
  d_content : string
}.
Definition new_decoder : decoder := mkDecoder "" "" MessageRoleAssistant FinishReasonStop None ∅ false "".

(** An event with the identity the decoder has now *)
Definition event_of (d : decoder) (typ : StreamEventType) (delta : option ContentPart) (call : option ToolCall)
    (index : Z) (finish : FinishReason) (usage : option Usage) (err : option goerror) : StreamEvent :=
  mkStreamEvent typ (d_messageID d) (d_model d) (d_role d) delta call index finish usage err.
Definition start_event (d : decoder) : StreamEvent :=
  event_of d StreamEventMessageStart None None 0 FinishReasonEmpty None None.
Definition usage_event_of (d : decoder) (u : option Usage) : StreamEvent :=
  event_of d StreamEventUsage None None 0 FinishReasonEmpty u None.
Definition text_event (d : decoder) (text : string) : StreamEvent :=
  event_of d StreamEventContentDelta (Some (mkContentPart ContentPartTypeText text "")) None 0 FinishReasonEmpty None None.
Definition call_event (d : decoder) (call : ToolCall) (index : Z) : StreamEvent :=
  event_of d StreamEventContentDelta None (Some call) index FinishReasonEmpty None None.
Definition error_event (d : decoder) (err : goerror) : StreamEvent :=
  event_of d StreamEventError None None 0 FinishReasonEmpty None (Some err).

Definition with_identity (d : decoder) (chunk : openAIChatStreamChunk) : decoder :=
  mkDecoder (if csc_ID chunk == "" then d_messageID d else csc_ID chunk)
    (if csc_Model chunk == "" then d_model d else csc_Model chunk)
    (d_role d) (d_finishReason d) (d_usage d) (d_states d) (d_started d) (d_content d).
Definition with_role (d : decoder) (role : string) : decoder :=
  mkDecoder (d_messageID d) (d_model d) (if role == "" then d_role d else role) (d_finishReason d) (d_usage d)
    (d_states d) (d_started d) (d_content d).
Definition with_usage (d : decoder) (u : option Usage) : decoder :=
  mkDecoder (d_messageID d) (d_model d) (d_role d) (d_finishReason d) u (d_states d) (d_started d) (d_content d).
Definition with_states (d : decoder) (m : gmap Z toolState) : decoder :=
  mkDecoder (d_messageID d) (d_model d) (d_role d) (d_finishReason d) (d_usage d) m (d_started d) (d_content d).
Definition with_started (d : decoder) : decoder :=
  mkDecoder (d_messageID d) (d_model d) (d_role d) (d_finishReason d) (d_usage d) (d_states d) true (d_content d).
Definition with_content (d : decoder) (text : string) : decoder :=
  mkDecoder (d_messageID d) (d_model d) (d_role d) (d_finishReason d) (d_usage d) (d_states d) (d_started d)
    (d_content d +:+ text).
Definition with_finish (d : decoder) (reason : string) : decoder :=
  mkDecoder (d_messageID d) (d_model d) (d_role d)
    (if (reason == "tool_calls") || (reason == "function_call") then FinishReasonToolUse
     else if reason == "length" then FinishReasonLength
     else if (reason == "stop") || (reason == "") then
       if (size (d_states d) =? 0)%nat then FinishReasonStop else d_finishReason d
     else d_finishReason d)
    (d_usage d) (d_states d) (d_started d) (d_content d).

(** The call a state is reported as *)
Definition tool_of (state : toolState) : ToolCall :=
  mkToolCall (ts_id state) "" (ts_name state)
    (if ts_arguments state == "" then "" else compactJSONString (ts_arguments state)) "".
Definition update_tool (state : toolState) (call : chunkToolCall) : toolState :=
  mkToolState (if ctc_ID call == "" then ts_id state else ctc_ID call)
    (if ctc_Name call == "" then ts_name state else ctc_Name call)
    (ts_arguments state +:+ ctc_Arguments call).

(** The body of the loop over the tool calls of a delta *)
Definition call_step (s : list StreamEvent * decoder) (call : chunkToolCall) : list StreamEvent * decoder :=
  let '(out, d) := s in
  let state := update_tool (default empty_tool (d_states d !! ctc_Index call)) call in
  let d := with_states d (<[ctc_Index call := state]> (d_states d)) in
  (out ++ [call_event d (tool_of state) (ctc_Index call)], d).

Definition chunk_step (d : decoder) (chunk : openAIChatStreamChunk) : list StreamEvent * decoder :=
  let d := with_identity d chunk in
  let usage_events d :=
    match csc_Usage chunk with
    | Some _ =>
        let u := usageFromOpenAIChatStreamChunk chunk in
        let d := with_usage d u in ([usage_event_of d u], d)
    | None => ([], d)
    end in
  match csc_Choices chunk with
  | [] => usage_events d
  | choice :: _ =>
      let d := with_role d (cc_Role choice) in
      let '(out1, d) := if d_started d then ([], d) else ([start_event d], with_started d) in
      let '(out2, d) :=
        if cc_Content choice == "" then ([], d)
        else let d := with_content d (cc_Content choice) in ([text_event d (cc_Content choice)], d) in
      let '(out3, d) := foldl call_step ([], d) (cc_ToolCalls choice) in
      let '(out4, d) := usage_events d in
      (out1 ++ out2 ++ out3 ++ out4, with_finish d (cc_FinishReason choice))
  end.

(** What a line is *)
Inductive line_kind := LineSkip | LineDone | LineBad (payload : string) | LineChunk (chunk : openAIChatStreamChunk).
Definition read_line (raw : string) : line_kind :=
  let line := TrimSpace raw in
  if (line == "") || HasPrefix line ":" then LineSkip
  else if negb (HasPrefix line "data:") then LineSkip
  else
    let payload := TrimSpace (str_drop 5 line) in
    if payload == "[DONE]" then LineDone
    else match Unmarshal_chunk payload with Some chunk => LineChunk chunk | None => LineBad payload end.

Definition indexes (states : gmap Z toolState) : list Z := sort_by Z.ltb (map fst (map_to_list states)).
Definition streamed_response (d : decoder) : Response :=
  mkResponse (d_messageID d) "" (d_model d)
    (mkMessage (d_role d)
       (if d_content d == "" then [] else [mkContentPart ContentPartTypeText (d_content d) ""])
       (omap (fun ix => tool_of <$> d_states d !! ix) (indexes (d_states d))) "" "" false)
    (d_finishReason d) None.

(** After the loop *)
Definition finish_stream (req : Request) (estimateUsage : bool) (d : decoder) (scan_err : option goerror)
    : list StreamEvent :=
  match scan_err with
  | Some err => [error_event d (ErrWrap "read stream chunk: %w" err)]
  | None =>
      let out1 := if d_started d then [] else [start_event d] in
      let estimate :=
        match d_usage d with
        | None => estimateUsage && ((d_content d != "") || (0 <? size (d_states d))%nat)
        | Some _ => false
        end in
      let '(out2, usage) :=
        if estimate then
          let u := Some (estimateUsageHeuristically req (streamed_response d)) in ([usage_event_of d u], u)
        else ([], d_usage d) in
      out1 ++ out2 ++
      [event_of d StreamEventMessageEnd None None 0 (d_finishReason d) usage None]
  end.

Fixpoint decode_lines (req : Request) (estimateUsage : bool) (scan_err : option goerror) (d : decoder)
    (lines : list string) : list StreamEvent :=
  match lines with
  | [] => finish_stream req estimateUsage d scan_err
  | line :: lines =>
      match read_line line with
      | LineSkip => decode_lines req estimateUsage scan_err d lines
      | LineDone => finish_stream req estimateUsage d None
      | LineBad payload => [error_event d (ErrWrap "decode stream chunk: %w" (ErrFormat "json" [payload]))]
      | LineChunk chunk =>
          let '(out, d) := chunk_step d chunk in out ++ decode_lines req estimateUsage scan_err d lines
      end
  end.

Definition decodeOpenAIChatStream (body : string) (read_err : option goerror) (req : Request) (estimateUsage : bool)
    : list StreamEvent :=
  let '(lines, scan_err) := scanner_lines body read_err in
  decode_lines req estimateUsage scan_err new_decoder lines.

(** ** A whole answer as a stream *)

Definition stream_event (resp : Response) (typ : StreamEventType) (delta : option ContentPart)
    (call : option ToolCall) (index : Z) (finish : FinishReason) (usage : option Usage) : StreamEvent :=
  mkStreamEvent typ (resp_ID resp) (resp_Model resp) (msg_Role (resp_Message resp)) delta call index finish usage None.

Definition streamResponse (resp : Response) : list StreamEvent :=
  [stream_event resp StreamEventMessageStart None None 0 FinishReasonEmpty None] ++
  match resp_Usage resp with
  | Some u => [stream_event resp StreamEventUsage None None 0 FinishReasonEmpty (Some u)]
  | None => []
  end ++
  map (fun part => stream_event resp StreamEventContentDelta (Some part) None 0 FinishReasonEmpty None)
    (msg_Parts (resp_Message resp)) ++
  imap (fun i call => stream_event resp StreamEventContentDelta None (Some call) (Z.of_nat i) FinishReasonEmpty None)
    (msg_ToolCalls (resp_Message resp)) ++
  [stream_event resp StreamEventMessageEnd None None 0 (resp_FinishReason resp) (resp_Usage resp)].
