(* ===== verification/GatewayStream.v ===== *)
(** * Streams to the clients

    Models the streaming half of [internal/gateway]: the chunks of
    [openai_chat_codec.go], the frames of [anthropic_messages_codec.go] and the
    server-sent text of [streaming.go].

    The goroutine of [anthropicStreamFramesFromEventStream] is a fold over the events.
    Writing to the client succeeds; a payload that cannot be marshalled ends the
    stream. *)

From Stdlib Require Import SpecFloat.
From S2P Require Import Prelude GoStrings ProviderErrors RuntimeModel GoJson EventStream.

#[local] Arguments String.append !_ _ /.

(** [strings.TrimPrefix(s, p)] *)
Definition TrimPrefix (s p : string) : string := if HasPrefix s p then str_drop (len p) s else s.

(** [json.Unmarshal(data, &value)], or the text itself *)
Definition any_or_text (data : string) : value :=
  match Unmarshal_any data with Some v => v | None => VStr data end.

(** The last arguments sent, by index *)
Abbreviation snapshots := (gmap Z string).

Section errors.
(** [err.Error()] of an upstream error *)
Context (error_text : goerror -> string).
Definition stream_error_message (err : option goerror) : string :=
  match err with Some err => error_text err | None => "stream error" end.

(** ** OpenAI chat *)

Definition finish_string (reason : FinishReason) : string :=
  match reason with
  | FinishReasonStop => "stop" | FinishReasonLength => "length" | FinishReasonError => "error"
  | FinishReasonToolUse => "tool_use" | FinishReasonEndTurn => "end_turn" | FinishReasonEmpty => ""
  | FinishReasonOther s => s
  end.
Definition openAIFinishReason (reason : FinishReason) : string :=
  match reason with
  | FinishReasonToolUse => "tool_calls"
  | FinishReasonLength => "length"
  | FinishReasonStop | FinishReasonEndTurn | FinishReasonError => "stop"
  | _ => finish_string reason
  end.

Definition chat_usage (u : Usage) : value :=
  VMap [("prompt_tokens", VInt (u_InputTokens u)); ("completion_tokens", VInt (u_OutputTokens u));
        ("total_tokens", VInt (u_TotalTokens u))].

(** The [tool_calls] member of a delta *)
Definition call_delta (index : Z) (call : ToolCall) (arguments : string) : value :=
  VArr [VMap [("index", VInt index); ("id", VStr (tc_ID call)); ("type", VStr "function");
              ("function", VMap [("name", VStr (tc_Name call)); ("arguments", VStr arguments)])]].

Definition openAIStreamChunkWithArgumentsDelta (event : StreamEvent) (snaps : snapshots) : value * snapshots :=
  let base := [("id", VStr (ev_ResponseID event)); ("object", VStr "chat.completion.chunk");
               ("model", VStr (ev_Model event))] in
  let choice (delta : list (string * value)) (more : list (string * value)) :=
    VMap (base ++ [("choices", VArr [VMap ([("index", VInt 0); ("delta", VMap delta)] ++ more)])]) in
  match ev_Type event with
  | StreamEventMessageStart => (choice [("role", VStr (ev_MessageRole event))] [], snaps)
  | StreamEventContentDelta =>
      let delta := match ev_Delta event with Some d => [("content", VStr (cp_Text d))] | None => [] end in
      match ev_ToolCall event with
      | Some call =>
          let previous := default "" (snaps !! ev_ToolCallIndex event) in
          let arguments := TrimPrefix (tc_Arguments call) previous in
          (choice (delta ++ [("tool_calls", call_delta (ev_ToolCallIndex event) call arguments)]) [],
           <[ev_ToolCallIndex event := tc_Arguments call]> snaps)
      | None => (choice delta [], snaps)
      end
  | StreamEventUsage =>
      (VMap (base ++ match ev_Usage event with Some u => [("usage", chat_usage u)] | None => [] end), snaps)
  | StreamEventMessageEnd =>
      (choice [] [("finish_reason", VStr (openAIFinishReason (ev_FinishReason event)))], snaps)
  | StreamEventError => (VMap [("error", VStr (stream_error_message (ev_Err event)))], snaps)
  | StreamEventOther _ => (VMap base, snaps)
  end.

Fixpoint chat_chunks (snaps : snapshots) (events : list StreamEvent) : list value :=
  match events with
  | [] => []
  | e :: events =>
      let '(chunk, snaps) := openAIStreamChunkWithArgumentsDelta e snaps in chunk :: chat_chunks snaps events
  end.

(** ** Anthropic messages *)

Record anthropicSSEFrame := mkFrame { fr_event : string; fr_payload : value }.

Definition anthropicStopReason (reason : FinishReason) : string :=
  match reason with
  | FinishReasonToolUse => "tool_use"
  | FinishReasonLength => "max_tokens"
  | _ => "end_turn"
  end.

Definition block_type_string (t : BlockType) : string :=
  match t with
  | BlockTypeText => "text" | BlockTypeToolUse => "tool_use" | BlockTypeToolResult => "tool_result"
  | BlockTypeJSON => "json" | BlockTypeThinking => "thinking"
  end.

Record frameState := mkFrameState {
  fs_inputTokens : Z;
  fs_outputTokens : Z;
  fs_messageID : string;
  fs_model : string;
  fs_role : string;
  fs_finishReason : StopReason;
  fs_messageStarted : bool;
  fs_snapshots : snapshots
}.
Definition new_frames : frameState := mkFrameState 0 0 "" "" MessageRoleAssistant StopReasonEndTurn false ∅.

Definition with_event (s : frameState) (e : Event) : frameState :=
  mkFrameState
    (match se_Usage e with Some u => u_InputTokens u | None => fs_inputTokens s end)
    (match se_Usage e with Some u => u_OutputTokens u | None => fs_outputTokens s end)
    (if se_MessageID e == "" then fs_messageID s else se_MessageID e)
    (if se_Model e == "" then fs_model s else se_Model e)
    (if se_Role e == "" then fs_role s else se_Role e)
    (fs_finishReason s) (fs_messageStarted s) (fs_snapshots s).
Definition with_snapshots (s : frameState) (m : snapshots) : frameState :=
  mkFrameState (fs_inputTokens s) (fs_outputTokens s) (fs_messageID s) (fs_model s) (fs_role s) (fs_finishReason s)
    (fs_messageStarted s) m.
Definition with_finishReason (s : frameState) (r : StopReason) : frameState :=
  mkFrameState (fs_inputTokens s) (fs_outputTokens s) (fs_messageID s) (fs_model s) (fs_role s) r
    (fs_messageStarted s) (fs_snapshots s).
Definition started (s : frameState) : frameState :=
  mkFrameState (fs_inputTokens s) (fs_outputTokens s) (fs_messageID s) (fs_model s) (fs_role s) (fs_finishReason s)
    true (fs_snapshots s).

Definition emitMessageStart (s : frameState) : list anthropicSSEFrame * frameState :=
  if fs_messageStarted s then ([], s) else
  ([mkFrame "message_start" (VMap [("type", VStr "message_start");
      ("message", VMap [("id", VStr (fs_messageID s)); ("type", VStr "message"); ("role", VStr (fs_role s));
         ("model", VStr (fs_model s)); ("content", VArr []); ("stop_reason", VNull); ("stop_sequence", VNull);
         ("usage", VMap [("input_tokens", VInt (fs_inputTokens s)); ("output_tokens", VInt 0)])])])],
   started s).

Definition start_block_frame (index : Z) (block : ContentBlock) : anthropicSSEFrame :=
  let '(mkContentBlock typ _ data call _) := block in
  let content :=
    match typ with
    | BlockTypeText => [("text", VStr "")]
    | BlockTypeToolUse =>
        [("input", VMap [])] ++
        match call with Some c => [("id", VStr (tcs_ID c)); ("name", VStr (tcs_Name c))] | None => [] end
    | BlockTypeJSON => [("value", any_or_text data)]
    | _ => []
    end in
  mkFrame "content_block_start" (VMap [("type", VStr "content_block_start"); ("index", VInt index);
    ("content_block", VMap (("type", VStr (block_type_string typ)) :: content))]).
Definition delta_frame (index : Z) (typ name text : string) : anthropicSSEFrame :=
  mkFrame "content_block_delta" (VMap [("type", VStr "content_block_delta"); ("index", VInt index);
    ("delta", VMap [("type", VStr typ); (name, VStr text)])]).
Definition stop_block_frame (index : Z) : anthropicSSEFrame :=
  mkFrame "content_block_stop" (VMap [("type", VStr "content_block_stop"); ("index", VInt index)]).
Definition message_delta_frame (s : frameState) : anthropicSSEFrame :=
  mkFrame "message_delta" (VMap [("type", VStr "message_delta");
    ("delta", VMap [("stop_reason", VStr (anthropicStopReason (StopReasonToRuntime (fs_finishReason s))));
                    ("stop_sequence", VNull)]);
    ("usage", VMap [("input_tokens", VInt (fs_inputTokens s)); ("output_tokens", VInt (fs_outputTokens s))])]).
Definition message_stop_frame : anthropicSSEFrame := mkFrame "message_stop" (VMap [("type", VStr "message_stop")]).
Definition error_frame (err : option goerror) : anthropicSSEFrame :=
  mkFrame "error" (VMap [("type", VStr "error"); ("error", VMap [("message", VStr (stream_error_message err))])]).

(** The event's own frames, after [emitMessageStart] *)
Definition event_frames (e : Event) (s : frameState) : list anthropicSSEFrame * frameState :=
  match se_Type e with
  | EventTypeContentBlockStart =>
      match se_Block e with
      | None => ([], s)
      | Some (mkContentBlock typ _ _ _ _ as block) =>
          ([start_block_frame (se_BlockIndex e) block],
           match typ with BlockTypeToolUse => with_snapshots s (<[se_BlockIndex e := ""]> (fs_snapshots s)) | _ => s end)
      end
  | EventTypeContentBlockDelta =>
      match se_Block e with
      | Some (mkContentBlock BlockTypeText _ _ _ _) =>
          ([delta_frame (se_BlockIndex e) "text_delta" "text" (se_TextDelta e)], s)
      | Some (mkContentBlock BlockTypeToolUse _ _ _ _) =>
          match se_ToolCall e with
          | Some call =>
              if tcs_Arguments call == "" then ([], s) else
              let previous := default "" (fs_snapshots s !! se_BlockIndex e) in
              let partial := TrimPrefix (tcs_Arguments call) previous in
              let s := with_snapshots s (<[se_BlockIndex e := tcs_Arguments call]> (fs_snapshots s)) in
              (if partial == "" then []
               else [delta_frame (se_BlockIndex e) "input_json_delta" "partial_json" partial], s)
          | None => ([], s)
          end
      | _ => ([], s)
      end
  | EventTypeContentBlockStop =>
      ([stop_block_frame (se_BlockIndex e)], with_snapshots s (delete (se_BlockIndex e) (fs_snapshots s)))
  | EventTypeMessageDelta =>
      let s := if bool_decide (se_FinishReason e = StopReasonEmpty) then s else with_finishReason s (se_FinishReason e) in
      ([message_delta_frame s], s)
  | EventTypeMessageStop => ([message_stop_frame], s)
  | EventTypeError => ([error_frame (se_Err e)], s)
  | EventTypeUsage | EventTypeMessageStart => ([], s)
  end.

Definition frame_step (s : frameState) (e : Event) : list anthropicSSEFrame * frameState :=
  let s := with_event s e in
  match se_Type e with
  | EventTypeMessageStart => ([], s)
  | _ =>
      let '(out1, s) := emitMessageStart s in
      let '(out2, s) := event_frames e s in
      (out1 ++ out2, s)
  end.

Fixpoint frame_loop (s : frameState) (events : list Event) : list anthropicSSEFrame :=
  match events with
  | [] => []
  | e :: events => let '(out, s) := frame_step s e in out ++ frame_loop s events
  end.
Definition anthropicStreamFramesFromEventStream (events : list Event) : list anthropicSSEFrame :=
  frame_loop new_frames events.

(** ** The text sent *)

Definition newline : string := String "010" EmptyString.
Definition data_line (payload : string) : string := "data: " +:+ payload +:+ newline +:+ newline.
Definition event_line (event : string) : string := "event: " +:+ event +:+ newline.

Definition writeOpenAISSE (payload : value) : option string := data_line <$> Marshal payload.
Definition writeAnthropicSSE (event : string) (payload : value) : option string :=
  data ← Marshal payload; Some (event_line event +:+ data_line data).
Definition writeOpenAIResponsesSSE := writeAnthropicSSE.

(** The loop of a handler: the frames up to one that cannot be written, then what follows
    the last one *)
Fixpoint write_all {A} (write : A -> option string) (last : string) (l : list A) : string :=
  match l with
  | [] => last
  | x :: l => match write x with Some text => text +:+ write_all write last l | None => "" end
  end.

Definition handleOpenAIStreaming (events : list StreamEvent) : string :=
  write_all writeOpenAISSE (data_line "[DONE]") (chat_chunks ∅ events).
Definition handleAnthropicStreaming (range : gmap Z Z -> list (Z * Z)) (events : list StreamEvent) : string :=
  write_all (fun f => writeAnthropicSSE (fr_event f) (fr_payload f)) (event_line "done" +:+ data_line "{}")
    (anthropicStreamFramesFromEventStream (EventStreamFromRuntime range events)).
End errors.
