(* ===== verification/GatewayStreamFacts.v ===== *)
(** * Facts about the streams to the clients

    The gateway turns the growing texts of a tool call's arguments into deltas; a client
    that puts the deltas together again has the last text.  Shown for the chunks of an
    OpenAI client and for the frames of an Anthropic one, and, from the bytes of an
    OpenAI upstream on, for arguments that are compact JSON. *)

From S2P Require Import Prelude GoStrings ProviderErrors RuntimeModel GoJson EventStream EventStreamFacts ProviderCodecs ChatStream ChatStreamFacts GatewayStream.

#[local] Arguments String.append !_ _ /.

(** ** Deltas of a growing text *)

Lemma TrimPrefix_grow s p : HasPrefix s p = true -> p +:+ TrimPrefix s p = s.
Proof.
  intros H. unfold TrimPrefix. rewrite H. apply HasPrefix_spec in H as [t ->]. by rewrite str_drop_app.
Qed.

(** ** OpenAI clients *)

Definition get (k : string) (v : value) : option value := match v with VMap m => map_get k m | _ => None end.
Definition first (v : value) : option value := match v with VArr (x :: _) => Some x | _ => None end.

(** The index and the arguments a chunk has for a tool call *)
Definition read_call (v : value) : option (Z * string) :=
  cs ← get "choices" v; c ← first cs; d ← get "delta" c; ts ← get "tool_calls" d; t ← first ts;
  i ← get "index" t; f ← get "function" t; a ← get "arguments" f;
  match i, a with VInt i, VStr a => Some (i, a) | _, _ => None end.
Definition at_index {A} (ix : Z) (p : option (Z * A)) : option A :=
  '(i, a) ← p; if i =? ix then Some a else None.
(** What a client has of the arguments of the call [ix] *)
Definition client_arguments (ix : Z) (chunks : list value) : string :=
  String.concat "" (omap (fun v => at_index ix (read_call v)) chunks).

(** The call of a content event *)
Definition event_call (e : StreamEvent) : option (Z * ToolCall) :=
  match ev_Type e with
  | StreamEventContentDelta => call ← ev_ToolCall e; Some (ev_ToolCallIndex e, call)
  | _ => None
  end.
(** The texts the arguments of the call [ix] go through *)
Definition argument_texts (ix : Z) (events : list StreamEvent) : list string :=
  map tc_Arguments (omap (fun e => at_index ix (event_call e)) events).

(** Every text of the list extends the one before. *)
Fixpoint grows (previous : string) (texts : list string) : bool :=
  match texts with
  | [] => true
  | t :: texts => HasPrefix t previous && grows t texts
  end.

Lemma concat_cons s l : String.concat "" (s :: l) = s +:+ String.concat "" l.
Proof. destruct l; cbn; [by rewrite str_app_nil_r|done]. Qed.


Section clients.
Context (error_text : goerror -> string).

Lemma chunk_call e snaps :
  read_call (openAIStreamChunkWithArgumentsDelta error_text e snaps).1 =
  '(i, call) ← event_call e; Some (i, TrimPrefix (tc_Arguments call) (default "" (snaps !! i))).
Proof.
  unfold openAIStreamChunkWithArgumentsDelta, event_call. destruct (ev_Type e); [done| |done| |done|done].
  - destruct (ev_ToolCall e), (ev_Delta e); reflexivity.
  - by destruct (ev_Usage e).
Qed.
Lemma chunk_snapshots e snaps :
  (openAIStreamChunkWithArgumentsDelta error_text e snaps).2 =
  match event_call e with Some (i, call) => <[i := tc_Arguments call]> snaps | None => snaps end.
Proof.
  unfold openAIStreamChunkWithArgumentsDelta, event_call. destruct (ev_Type e); try done.
  by destruct (ev_ToolCall e).
Qed.

Lemma chat_arguments ix events snaps :
  grows (default "" (snaps !! ix)) (argument_texts ix events) = true ->
  default "" (snaps !! ix) +:+ client_arguments ix (chat_chunks error_text snaps events) =
  List.last (argument_texts ix events) (default "" (snaps !! ix)).
Proof.
  revert snaps. induction events as [|e events IH]; intros snaps; cbn [chat_chunks].
  { intros _. cbn. by rewrite str_app_nil_r. }
  destruct (openAIStreamChunkWithArgumentsDelta error_text e snaps) as [chunk snaps'] eqn:E.
  pose proof (chunk_call e snaps) as Hc. pose proof (chunk_snapshots e snaps) as Hs. rewrite E in Hc, Hs.
  cbn [fst snd] in Hc, Hs. unfold client_arguments, argument_texts in *. cbn [omap list_omap]. rewrite Hc.
  destruct (event_call e) as [[i call]|]; cbn [mbind option_bind at_index].
  2: { subst snaps'. apply IH. }
  destruct (Z.eqb_spec i ix) as [->|Hne].
  - rewrite concat_cons. cbn [map grows]. intros [H1 H2]%andb_true_iff. rewrite str_app_assoc, TrimPrefix_grow by done.
    specialize (IH snaps'). rewrite Hs, lookup_insert_eq, <- Hs in IH. cbn in IH. rewrite IH by done.
    destruct (map tc_Arguments _) as [|t l]; [done|].
    clear. revert t. induction l as [|u l IH]; intros t; [done|]. apply (IH u).
  - intros H. specialize (IH snaps'). rewrite Hs, lookup_insert_ne in IH by done. rewrite <- Hs in IH. by apply IH.
Qed.

(** The text a chunk adds *)
Definition read_text (v : value) : option string :=
  cs ← get "choices" v; c ← first cs; d ← get "delta" c; t ← get "content" d;
  match t with VStr t => Some t | _ => None end.
Definition client_text (chunks : list value) : string := String.concat "" (omap read_text chunks).
Definition event_text (e : StreamEvent) : option string :=
  match ev_Type e with StreamEventContentDelta => cp_Text <$> ev_Delta e | _ => None end.

Lemma chunk_text e snaps :
  read_text (openAIStreamChunkWithArgumentsDelta error_text e snaps).1 = event_text e.
Proof.
  unfold openAIStreamChunkWithArgumentsDelta, event_text. destruct (ev_Type e); [done| |done| |done|done].
  - destruct (ev_ToolCall e), (ev_Delta e); reflexivity.
  - by destruct (ev_Usage e).
Qed.
Lemma chat_text events snaps :
  client_text (chat_chunks error_text snaps events) = String.concat "" (omap event_text events).
Proof.
  unfold client_text. f_equal. revert snaps. induction events as [|e events IH]; intros snaps; cbn [chat_chunks]; [done|].
  pose proof (chunk_text e snaps) as Ht.
  destruct (openAIStreamChunkWithArgumentsDelta error_text e snaps) as [chunk snaps']. cbn [fst] in Ht.
  cbn [omap list_omap]. rewrite Ht, IH. done.
Qed.
End clients.

(** *** From the bytes of an upstream *)

Definition chunk_calls (chunk : openAIChatStreamChunk) : list chunkToolCall :=
  match csc_Choices chunk with c :: _ => cc_ToolCalls c | [] => [] end.
Definition chunk_content (chunk : openAIChatStreamChunk) : string :=
  match csc_Choices chunk with c :: _ => cc_Content c | [] => "" end.
(** The pieces of the arguments of the call [ix] *)
Definition fragments_of (ix : Z) (calls : list chunkToolCall) : list string :=
  omap (fun c => if ctc_Index c =? ix then Some (ctc_Arguments c) else None) calls.
Definition fragments (ix : Z) (chunks : list openAIChatStreamChunk) : list string :=
  fragments_of ix (flat_map chunk_calls chunks).
(** The texts they make, piece by piece *)
Fixpoint accumulated (acc : string) (frags : list string) : list string :=
  match frags with
  | [] => []
  | f :: frags => (acc +:+ f) :: accumulated (acc +:+ f) frags
  end.
(** The chunks the decoder reads from its lines *)
Fixpoint chunks_of (lines : list string) : list openAIChatStreamChunk :=
  match lines with
  | [] => []
  | line :: lines =>
      match read_line line with
      | LineSkip => chunks_of lines
      | LineDone | LineBad _ => []
      | LineChunk chunk => chunk :: chunks_of lines
      end
  end.

Definition reported (arguments : string) : string :=
  if arguments == "" then "" else compactJSONString arguments.
Definition arguments_of (ix : Z) (d : decoder) : string := ts_arguments (default empty_tool (d_states d !! ix)).

Lemma accumulated_app acc l1 l2 :
  accumulated acc (l1 ++ l2) = accumulated acc l1 ++ accumulated (acc +:+ String.concat "" l1) l2.
Proof.
  revert acc. induction l1 as [|f l1 IH]; intros acc; [cbn; by rewrite str_app_nil_r|].
  rewrite concat_cons. cbn [app accumulated]. by rewrite IH, str_app_assoc.
Qed.
Lemma concat_app l1 l2 : String.concat "" (l1 ++ l2) = String.concat "" l1 +:+ String.concat "" l2.
Proof.
  induction l1 as [|s l1 IH]; [done|]. cbn [app]. by rewrite !concat_cons, IH, str_app_assoc.
Qed.

Lemma argument_texts_app ix l1 l2 : argument_texts ix (l1 ++ l2) = argument_texts ix l1 ++ argument_texts ix l2.
Proof. unfold argument_texts. by rewrite omap_app, map_app. Qed.

Lemma calls_texts ix calls out d :
  let r := foldl call_step (out, d) calls in
  argument_texts ix r.1 =
    argument_texts ix out ++ map reported (accumulated (arguments_of ix d) (fragments_of ix calls)) /\
  arguments_of ix r.2 = arguments_of ix d +:+ String.concat "" (fragments_of ix calls) /\
  omap event_text r.1 = omap event_text out.
Proof.
  revert out d. induction calls as [|c calls IH]; intros out d; cbn [foldl].
  { cbn. by rewrite app_nil_r, str_app_nil_r. }
  destruct (call_step (out, d) c) as [out' d'] eqn:E.
  destruct (IH out' d') as (-> & -> & ->). cbn [call_step] in E. injection E as <- <-.
  rewrite argument_texts_app, omap_app. cbn [fragments_of omap list_omap].
  unfold arguments_of. cbn [with_states d_states].
  split_and!; [| |by rewrite app_nil_r].
  - rewrite <- app_assoc. f_equal. unfold argument_texts. cbn.
    destruct (Z.eqb_spec (ctc_Index c) ix) as [->|Hne].
    + rewrite lookup_insert_eq. done.
    + by rewrite lookup_insert_ne.
  - destruct (Z.eqb_spec (ctc_Index c) ix) as [->|Hne].
    + rewrite lookup_insert_eq, concat_cons. cbn. by rewrite str_app_assoc.
    + by rewrite lookup_insert_ne.
Qed.

Lemma chunk_texts ix d chunk :
  let r := chunk_step d chunk in
  argument_texts ix r.1 = map reported (accumulated (arguments_of ix d) (fragments_of ix (chunk_calls chunk))) /\
  arguments_of ix r.2 = arguments_of ix d +:+ String.concat "" (fragments_of ix (chunk_calls chunk)) /\
  String.concat "" (omap event_text r.1) = chunk_content chunk.
Proof.
  unfold chunk_step, chunk_calls, chunk_content. destruct (csc_Choices chunk) as [|choice cs].
  { destruct (csc_Usage chunk); cbn; by rewrite str_app_nil_r. }
  set (d1 := with_role (with_identity d chunk) (cc_Role choice)).
  destruct (if d_started d1 then ([], d1) else ([start_event d1], with_started d1)) as [out1 d2] eqn:E1.
  destruct (if cc_Content choice == "" then ([], d2) else _) as [out2 d3] eqn:E2.
  assert (argument_texts ix out1 = [] /\ omap event_text out1 = [] /\ d_states d2 = d_states d) as (A1 & T1 & S1).
  { destruct (d_started d1); by injection E1 as <- <-. }
  assert (argument_texts ix out2 = [] /\ String.concat "" (omap event_text out2) = cc_Content choice /\
          d_states d3 = d_states d2) as (A2 & T2 & S2).
  { destruct (cc_Content choice == "") eqn:Ec; injection E2 as <- <-; [|done].
    apply String.eqb_eq in Ec. by rewrite Ec. }
  pose proof (calls_texts ix (cc_ToolCalls choice) [] d3) as Hc.
  destruct (foldl call_step ([], d3) (cc_ToolCalls choice)) as [out3 d4]. destruct Hc as (A3 & D3 & T3).
  cbn [fst snd] in A3, D3, T3.
  destruct (match csc_Usage chunk with Some _ => _ | None => ([], d4) end) as [out4 d5] eqn:E4.
  assert (argument_texts ix out4 = [] /\ omap event_text out4 = [] /\ d_states d5 = d_states d4) as (A4 & T4 & S4).
  { destruct (csc_Usage chunk); by injection E4 as <- <-. }
  assert (arguments_of ix d3 = arguments_of ix d) as Hd3 by (unfold arguments_of; by rewrite S2, S1).
  cbn [fst snd]. rewrite !argument_texts_app, A1, A2, A3, A4, !omap_app, T1, T3, T4. cbn [omap list_omap app].
  rewrite !app_nil_r, T2, <- Hd3. split_and!; [done| |done].
  rewrite <- D3. unfold arguments_of. cbn [with_finish d_states]. by rewrite S4.
Qed.

Lemma finish_texts ix req est d err :
  argument_texts ix (finish_stream req est d err) = [] /\ omap event_text (finish_stream req est d err) = [].
Proof.
  destruct err; [done|]. unfold finish_stream. destruct (d_started d), (d_usage d); [done| |done|]; by destruct (est && _).
Qed.

Lemma decoded_texts ix req est err lines d :
  let events := decode_lines req est err d lines in
  argument_texts ix events = map reported (accumulated (arguments_of ix d) (fragments ix (chunks_of lines))) /\
  String.concat "" (omap event_text events) = String.concat "" (map chunk_content (chunks_of lines)).
Proof.
  revert d. induction lines as [|line lines IH]; intros d; cbn [decode_lines chunks_of].
  { destruct (finish_texts ix req est d err) as [-> ->]. done. }
  destruct (read_line line) as [| |payload|chunk]; [apply IH| |done|].
  { destruct (finish_texts ix req est d None) as [-> ->]. done. }
  destruct (chunk_texts ix d chunk) as (H1 & H2 & H3).
  destruct (chunk_step d chunk) as [out d']. cbn [fst snd] in H1, H2, H3. destruct (IH d') as [IH1 IH2].
  cbv zeta in *. rewrite argument_texts_app, omap_app, concat_app, H1, H3, IH1, IH2, H2.
  unfold fragments. cbn [flat_map map]. unfold fragments_of. rewrite omap_app. split; [|by rewrite concat_cons].
  by rewrite accumulated_app, map_app.
Qed.

Lemma accumulated_grows acc frags : grows acc (accumulated acc frags) = true.
Proof.
  revert acc. induction frags as [|f frags IH]; intros acc; [done|]. cbn. by rewrite HasPrefix_app, IH.
Qed.
Lemma accumulated_last acc frags : List.last (accumulated acc frags) acc = acc +:+ String.concat "" frags.
Proof.
  revert acc. induction frags as [|f frags IH]; intros acc; [cbn; by rewrite str_app_nil_r|].
  rewrite concat_cons, str_app_assoc, <- IH. cbn [accumulated].
  destruct (accumulated (acc +:+ f) frags) as [|t l]; [done|].
  clear. cbn. revert t. induction l as [|u l IH]; intros t; [done|]. apply (IH u).
Qed.

(** C17: an OpenAI client of an OpenAI chat upstream gets what the upstream sends: whatever the
    bytes of the upstream, the texts of the client's chunks put together are the texts of the
    upstream's chunks put together, and so are the arguments of every tool call whose pieces
    are compact JSON as they come in (no text so far is changed by [compactJSONString]). *)
Theorem chat_stream_relayed error_text body read_err req est ix :
  let chunks := chunks_of (scanner_lines body read_err).1 in
  let sent := chat_chunks error_text ∅ (decodeOpenAIChatStream body read_err req est) in
  client_text sent = String.concat "" (map chunk_content chunks) /\
  (Forall (fun text => reported text = text) (accumulated "" (fragments ix chunks)) ->
   client_arguments ix sent = String.concat "" (fragments ix chunks)).
Proof.
  unfold decodeOpenAIChatStream. destruct (scanner_lines body read_err) as [lines err]. cbn [fst].
  destruct (decoded_texts ix req est err lines new_decoder) as [H1 H2]. cbv zeta in *.
  split; [by rewrite chat_text|]. intros Hf.
  assert (map reported (accumulated "" (fragments ix (chunks_of lines))) = accumulated "" (fragments ix (chunks_of lines))) as Hr.
  { rewrite <- (map_id (accumulated _ _)) at 2. apply map_ext_Forall. done. }
  assert (arguments_of ix new_decoder = "") as E0 by (unfold arguments_of; cbn [new_decoder d_states]; by rewrite lookup_empty).
  rewrite E0, Hr in H1.
  pose proof (chat_arguments error_text ix (decode_lines req est err new_decoder lines) ∅) as Hc.
  rewrite lookup_empty in Hc. cbn [default] in Hc. rewrite H1 in Hc. cbn [String.append] in Hc.
  rewrite Hc; [apply (accumulated_last "")|apply accumulated_grows].
Qed.

(** ** Anthropic clients *)

(** A tool call as a client has it: identifier, name and the arguments so far *)
Abbreviation client_call := (string * string * string)%type.
Abbreviation client := (gmap Z client_call).

(** The client's reading of a frame: a [tool_use] block starts empty, an
    [input_json_delta] is appended. *)
Definition add_json (text : string) (c : client_call) : client_call :=
  let '(id, name, json) := c in (id, name, json +:+ text).
Definition client_step (cl : client) (f : anthropicSSEFrame) : client :=
  if fr_event f == "content_block_start" then
    match get "index" (fr_payload f), get "content_block" (fr_payload f) with
    | Some (VInt i), Some b =>
        match get "type" b, get "id" b, get "name" b with
        | Some (VStr typ), Some (VStr id), Some (VStr name) =>
            if typ == "tool_use" then <[i := (id, name, "")]> cl else cl
        | _, _, _ => cl
        end
    | _, _ => cl
    end
  else if fr_event f == "content_block_delta" then
    match get "index" (fr_payload f), get "delta" (fr_payload f) with
    | Some (VInt i), Some d =>
        match get "partial_json" d with Some (VStr text) => alter (add_json text) i cl | _ => cl end
    | _, _ => cl
    end
  else cl.
Definition read_frames (frames : list anthropicSSEFrame) : client := foldl client_step ∅ frames.

(** The calls the runtime events amount to: the first identifier and name of each index,
    and its last arguments *)
Definition record_call (calls : gmap Z client_call) (e : StreamEvent) : gmap Z client_call :=
  match event_call e with
  | Some (ix, call) =>
      <[ix := match calls !! ix with
              | None => (tc_ID call, tc_Name call, tc_Arguments call)
              | Some (id, name, json) =>
                  (id, name, if tc_Arguments call == "" then json else tc_Arguments call)
              end]> calls
  | None => calls
  end.
(** Every text of arguments extends the one before of its index. *)
Definition extends (calls : gmap Z client_call) (e : StreamEvent) : bool :=
  match event_call e with
  | Some (ix, call) =>
      match calls !! ix with
      | None => true
      | Some (_, _, json) => (tc_Arguments call == "") || HasPrefix (tc_Arguments call) json
      end
  | None => true
  end.
Fixpoint growing (calls : gmap Z client_call) (events : list StreamEvent) : bool :=
  match events with
  | [] => true
  | e :: events => extends calls e && growing (record_call calls e) events
  end.

(** *** The effect of an event on the snapshots and on the client *)

Definition effect (st : snapshots * client) (e : Event) : snapshots * client :=
  let '(sn, cl) := st in
  let i := se_BlockIndex e in
  match se_Type e, se_Block e with
  | EventTypeContentBlockStart, Some (mkContentBlock BlockTypeToolUse _ _ call _) =>
      (<[i := ""]> sn, match call with Some c => <[i := (tcs_ID c, tcs_Name c, "")]> cl | None => cl end)
  | EventTypeContentBlockDelta, Some (mkContentBlock BlockTypeToolUse _ _ _ _) =>
      match se_ToolCall e with
      | Some call =>
          if tcs_Arguments call == "" then (sn, cl) else
          (<[i := tcs_Arguments call]> sn,
           alter (add_json (TrimPrefix (tcs_Arguments call) (default "" (sn !! i)))) i cl)
      | None => (sn, cl)
      end
  | EventTypeContentBlockStop, _ => (delete i sn, cl)
  | _, _ => (sn, cl)
  end.

Lemma add_json_nil i (cl : client) : alter (add_json "") i cl = cl.
Proof.
  apply map_eq. intros j. destruct (decide (i = j)) as [<-|Hne]; [|by rewrite lookup_alter_ne].
  rewrite lookup_alter_eq. destruct (cl !! i) as [[[id n] t]|]; cbn; [by rewrite str_app_nil_r|done].
Qed.

Section frames.
Context (error_text : goerror -> string).

Lemma start_ignored s cl : foldl client_step cl (emitMessageStart s).1 = cl.
Proof. unfold emitMessageStart. by destruct (fs_messageStarted s). Qed.
Lemma start_snapshots s : fs_snapshots (emitMessageStart s).2 = fs_snapshots s.
Proof. unfold emitMessageStart. by destruct (fs_messageStarted s). Qed.

Lemma event_frames_effect e s cl :
  let r := event_frames error_text e s in
  (fs_snapshots r.2, foldl client_step cl r.1) = effect (fs_snapshots s, cl) e.
Proof.
  unfold event_frames, effect. destruct (se_Type e); try done.
  - destruct (se_Block e) as [[[] ? ? call ?]|]; try done. by destruct call.
  - destruct (se_Block e) as [[[] ? ? call ?]|]; try done.
    destruct (se_ToolCall e) as [c|]; [|done]. destruct (tcs_Arguments c == ""); [done|].
    cbn [fst snd with_snapshots fs_snapshots]. f_equal.
    destruct (TrimPrefix _ _ == "") eqn:E; [|done]. apply String.eqb_eq in E. rewrite E. cbn [foldl].
    by rewrite add_json_nil.
  - by destruct (bool_decide _).
Qed.

Lemma frame_step_effect s cl e :
  let r := frame_step error_text s e in
  (fs_snapshots r.2, foldl client_step cl r.1) = effect (fs_snapshots s, cl) e.
Proof.
  unfold frame_step.
  assert (fs_snapshots (with_event s e) = fs_snapshots s) as Hs by done.
  pose proof (start_ignored (with_event s e) cl) as H1. pose proof (start_snapshots (with_event s e)) as H2.
  destruct (emitMessageStart (with_event s e)) as [out1 s1]. cbn [fst snd] in H1, H2.
  pose proof (event_frames_effect e s1 cl) as H3. destruct (event_frames error_text e s1) as [out2 s2].
  cbn [fst snd] in H3. rewrite H2, Hs in H3.
  destruct (se_Type e) eqn:E; cbn [fst snd]; rewrite ?foldl_app, ?H1; try done.
  unfold effect. by rewrite E.
Qed.

Lemma frame_loop_effect s cl events :
  foldl client_step cl (frame_loop error_text s events) = (foldl effect (fs_snapshots s, cl) events).2.
Proof.
  revert s cl. induction events as [|e events IH]; intros s cl; cbn [frame_loop foldl]; [done|].
  pose proof (frame_step_effect s cl e) as H. destruct (frame_step error_text s e) as [out s'].
  cbn [fst snd] in H. rewrite foldl_app, IH, H. done.
Qed.
End frames.

(** *** The three states in step *)

(** Every tool block: the call recorded, the client's call and the snapshot agree; and
    the client has no other call. *)
Record in_tune (s : streamState) (st : snapshots * client) (calls : gmap Z client_call) : Prop := {
  it_block : forall ix b, ss_toolBlockIndexes s !! ix = Some b -> exists id name json,
    calls !! ix = Some (id, name, json) /\ st.2 !! b = Some (id, name, json) /\ st.1 !! b = Some json;
  it_calls : forall ix, is_Some (calls !! ix) -> is_Some (ss_toolBlockIndexes s !! ix);
  it_client : forall b, is_Some (st.2 !! b) -> exists ix, ss_toolBlockIndexes s !! ix = Some b
}.

Lemma in_tune_start : in_tune (mkStreamState (-1) 0 ∅) (∅, ∅) ∅.
Proof. split; cbn; intros ?; [intros ?|..]; rewrite lookup_empty; [done|by intros []..]. Qed.

(** The snapshots may change off the tool blocks, the stream state off its tool map. *)
Lemma in_tune_move s s' sn sn' cl calls :
  in_tune s (sn, cl) calls -> ss_toolBlockIndexes s' = ss_toolBlockIndexes s ->
  (forall ix b, ss_toolBlockIndexes s !! ix = Some b -> sn' !! b = sn !! b) ->
  in_tune s' (sn', cl) calls.
Proof.
  intros [H1 H2 H3] Hs Hsn. split; rewrite Hs; [|done|done].
  intros ix b Hb. destruct (H1 ix b Hb) as (id & n & j & ? & ? & ?). exists id, n, j.
  split_and!; [done..|]. cbn. by rewrite (Hsn ix b Hb).
Qed.

Lemma close_text_tune e s r st calls :
  in_step s r -> in_tune s st calls ->
  in_tune (close_text e s).2 (foldl effect st (close_text e s).1) calls.
Proof.
  intros Hr Ht. unfold close_text. destruct (Z.eqb_spec (ss_textBlockIndex s) (-1)); [done|].
  destruct st as [sn cl]. cbn. eapply in_tune_move; [exact Ht|done|].
  intros ix b Hb. rewrite lookup_delete_ne; [done|]. intros <-. by eapply is_text_tool.
Qed.

Lemma close_text_tools e s : ss_toolBlockIndexes (close_text e s).2 = ss_toolBlockIndexes s.
Proof. unfold close_text. by destruct (_ =? _). Qed.

Lemma delta_step_tune e delta s r st calls :
  in_step s r -> in_tune s st calls ->
  in_tune (delta_step e delta s).2 (foldl effect st (delta_step e delta s).1) calls.
Proof.
  intros Hr Ht. unfold delta_step. destruct (cp_Type delta).
  1,3: destruct (_ =? -1), st; cbn; by eapply in_tune_move.
  destruct (close_text_accepted e s r Hr) as [(r' & _ & Hr' & _) _].
  pose proof (close_text_tune e s r st calls Hr Ht) as Hc.
  destruct (close_text e s) as [out s']. cbn [fst snd] in *. rewrite foldl_app.
  destruct (foldl effect st out) as [sn cl]. cbn. eapply in_tune_move; [exact Hc|done|].
  intros ix b Hb. rewrite lookup_delete_ne; [done|].
  rewrite (is_next _ _ Hr'). pose proof (is_tool _ _ Hr' ix b Hb). lia.
Qed.

Lemma tool_step_tune e call s r st calls :
  event_call e = Some (ev_ToolCallIndex e, call) -> extends calls e = true ->
  in_step s r -> in_tune s st calls ->
  in_tune (tool_step e call s).2 (foldl effect st (tool_step e call s).1) (record_call calls e).
Proof.
  intros He Hg Hr Ht. unfold tool_step, record_call. unfold extends in Hg. rewrite He in Hg |- *.
  destruct (close_text_accepted e s r Hr) as [(r' & _ & Hr' & _) _].
  pose proof (close_text_tune e s r st calls Hr Ht) as Hc.
  destruct (close_text e s) as [out s']. cbn [fst snd] in *.
  set (ix := ev_ToolCallIndex e) in *.
  destruct (ss_toolBlockIndexes s' !! ix) as [b|] eqn:Eb.
  - destruct (it_block _ _ _ Hc ix b Eb) as (id & name & json & E1 & E2 & E3). rewrite E1 in Hg |- *.
    cbn [snd fst]. rewrite foldl_app. destruct (foldl effect st out) as [sn cl]. cbn [fst snd] in *.
    cbn [foldl effect delta_block block_event se_Type se_Block se_ToolCall se_BlockIndex call_block call_snapshot
         tcs_Arguments]. destruct (tc_Arguments call == "") eqn:Ea.
    + cbn [snd]. rewrite insert_id by done. done.
    + cbn [orb] in Hg. rewrite E3. cbn [default]. destruct Hc as [H1 H2 H3]. split; cbn [fst snd].
      * intros ix2 b2 Hb2. destruct (decide (ix2 = ix)) as [->|Hne].
        -- assert (b2 = b) as -> by congruence. exists id, name, (tc_Arguments call).
           rewrite !lookup_insert_eq, lookup_alter_eq, E2. cbn. by rewrite TrimPrefix_grow.
        -- assert (b2 <> b) by (intros ->; apply Hne; by eapply (is_inj _ _ Hr')).
           rewrite !lookup_insert_ne, lookup_alter_ne by done. by apply H1.
      * intros ix2 Hx. destruct (decide (ix2 = ix)) as [->|Hne]; [by rewrite Eb|].
        rewrite lookup_insert_ne in Hx by done. by apply H2.
      * intros b2. rewrite lookup_alter_is_Some. apply H3.
  - assert (calls !! ix = None) as Hn.
    { destruct (calls !! ix) eqn:E; [|done]. destruct (it_calls _ _ _ Hc ix) as [? ?]; [by rewrite E|congruence]. }
    rewrite Hn. cbn [snd fst]. rewrite !foldl_app. destruct (foldl effect st out) as [sn cl]. cbn [fst snd] in *.
    set (b := ss_nextBlockIndex s').
    assert (forall ix2 b2, ss_toolBlockIndexes s' !! ix2 = Some b2 -> b2 <> b) as Hfresh.
    { intros ix2 b2 Hb2. unfold b. rewrite (is_next _ _ Hr'). pose proof (is_tool _ _ Hr' ix2 b2 Hb2). lia. }
    assert (exists sn' cl', foldl effect (foldl effect (sn, cl)
        [start_block e b (mkContentBlock BlockTypeToolUse "" "" (Some (mkToolCallSnapshot (tc_ID call) (tc_Name call) "")) None)])
        [delta_block e b (call_block call) "" (Some (call_snapshot call))] = (sn', cl') /\
        sn' !! b = Some (tc_Arguments call) /\ cl' !! b = Some (tc_ID call, tc_Name call, tc_Arguments call) /\
        (forall b2, b2 <> b -> sn' !! b2 = sn !! b2 /\ cl' !! b2 = cl !! b2)) as (sn' & cl' & -> & F1 & F2 & F3).
    { cbn. destruct (tc_Arguments call == "") eqn:Ea.
      - apply String.eqb_eq in Ea. rewrite Ea. do 2 eexists. split; [reflexivity|].
        rewrite !lookup_insert_eq. split_and!; [done..|]. intros b2 Hb2. by rewrite !lookup_insert_ne.
      - do 2 eexists. split; [reflexivity|]. rewrite !lookup_insert_eq, lookup_alter_eq, lookup_insert_eq. cbn.
        unfold TrimPrefix. cbn. split_and!; [done..|].
        intros b2 Hb2. by rewrite !lookup_insert_ne, lookup_alter_ne, lookup_insert_ne by done. }
    destruct Hc as [H1 H2 H3]. split; cbn [fst snd ss_toolBlockIndexes].
    + intros ix2 b2 [(<- & <-)|(Hne & Hb2)]%lookup_insert_Some.
      * rewrite lookup_insert_eq. by exists (tc_ID call), (tc_Name call), (tc_Arguments call).
      * rewrite lookup_insert_ne by done. destruct (F3 b2 (Hfresh _ _ Hb2)) as [-> ->]. by apply H1.
    + intros ix2. rewrite !lookup_insert_is_Some. intros [?|[? ?]]; [by left|right; split; [done|by apply H2]].
    + intros b2 Hb2. destruct (decide (b2 = b)) as [->|Hne]; [exists ix; apply lookup_insert_eq|].
      destruct (F3 b2 Hne) as [_ E]. rewrite E in Hb2. destruct (H3 b2 Hb2) as (ix2 & Hx). exists ix2.
      rewrite lookup_insert_ne; [done|]. intros <-. congruence.
Qed.

Lemma record_call_none e calls : event_call e = None -> record_call calls e = calls.
Proof. intros H. unfold record_call. by rewrite H. Qed.

Section streams.
Context (range : gmap Z Z -> list (Z * Z)).

Lemma stream_step_tune e s r st calls :
  is_end e = false -> extends calls e = true -> rd_next r + 1 < max_int64 ->
  in_step s r -> in_tune s st calls ->
  in_tune (stream_step range s e).2 (foldl effect st (stream_step range s e).1) (record_call calls e).
Proof.
  intros Hend Hg Hmax Hr Ht. unfold is_end in Hend. unfold stream_step.
  destruct (ev_Type e) eqn:Et; try done;
    try (rewrite record_call_none by (unfold event_call; by rewrite Et); by destruct st).
  unfold content_step.
  assert (exists r1, in_step (match ev_Delta e with Some delta => delta_step e delta s | None => ([], s) end).2 r1) as [r1 Hr1].
  { destruct (ev_Delta e); [|by exists r].
    destruct (delta_step_accepted e c s r Hr) as (r1 & _ & ? & _); [lia|by exists r1]. }
  assert (in_tune (match ev_Delta e with Some delta => delta_step e delta s | None => ([], s) end).2
            (foldl effect st (match ev_Delta e with Some delta => delta_step e delta s | None => ([], s) end).1) calls) as H1.
  { destruct (ev_Delta e); [by eapply delta_step_tune|done]. }
  destruct (match ev_Delta e with Some _ => _ | None => _ end) as [out1 s1]. cbn [fst snd] in *.
  destruct (ev_ToolCall e) as [call|] eqn:Ec.
  - assert (event_call e = Some (ev_ToolCallIndex e, call)) as He by (unfold event_call; by rewrite Et, Ec).
    pose proof (tool_step_tune e call s1 r1 _ calls He Hg Hr1 H1) as H2.
    destruct (tool_step e call s1) as [out2 s2]. cbn [fst snd] in *. by rewrite foldl_app.
  - cbn [fst snd]. rewrite app_nil_r, record_call_none; [done|]. unfold event_call. by rewrite Et, Ec.
Qed.

Hypothesis range_spec : forall m, range m ≡ₚ map_to_list m.

Lemma stream_loop_tune events s r st calls :
  Forall (fun e => is_end e = false) events -> growing calls events = true ->
  rd_next r + 2 * Z.of_nat (length events) < max_int64 -> in_step s r -> in_tune s st calls ->
  exists s', in_tune s' (foldl effect st (stream_loop range s events)) (foldl record_call calls events) /\
    (exists r', in_step s' r') /\
    (forall tail, stream_loop range s (events ++ tail) = stream_loop range s events ++ stream_loop range s' tail).
Proof.
  revert s r st calls. induction events as [|e events IH]; intros s r st calls Hend Hg Hmax Hr Ht.
  { exists s. cbn. split; [done|]. split; [by exists r|done]. }
  cbn [stream_loop foldl app growing length] in *. inversion Hend as [|? ? He Hend']; subst.
  apply andb_true_iff in Hg as [Hg1 Hg2].
  destruct (stream_step_accepted range range_spec e s r Hr) as (r1 & _ & Hr1 & Hn); [lia|].
  pose proof (stream_step_tune e s r st calls He Hg1 ltac:(lia) Hr Ht) as H1.
  destruct (stream_step range s e) as [out s1]. cbn [fst snd] in *.
  destruct (IH s1 r1 _ _ Hend' Hg2 ltac:(lia) Hr1 H1) as (s' & H2 & H3 & H4).
  exists s'. rewrite foldl_app. split; [done|]. split; [done|].
  intros tail. by rewrite H4, app_assoc.
Qed.

(** The events that close a message leave the client's calls alone. *)
Lemma end_effect e s st : (foldl effect st (end_step range e s).1).2 = st.2.
Proof.
  unfold end_step. destruct (close_text e s) as [out s'] eqn:Ec.
  assert (forall st, (foldl effect st out).2 = st.2) as Hout.
  { unfold close_text in Ec. destruct (_ =? _); injection Ec as <- <-; by intros []. }
  cbn [fst]. rewrite !foldl_app.
  assert (forall l st, (foldl effect st (map (fun p : Z * Z => stop_block e p.2) l)).2 = st.2) as Hl.
  { intros l. induction l as [|p l IH]; intros st0; [done|]. cbn [map foldl]. rewrite IH. by destruct st0. }
  assert (forall l st, (foldl effect st (end_events (ev_ResponseID e) (ev_Model e) (ev_MessageRole e) l (ev_Usage e))).2 = st.2) as He.
  { intros l st0. by destruct st0. }
  by rewrite He, Hl, Hout.
Qed.
End streams.

(** C10: an Anthropic client gets every tool call of a stream.  For any events of a message, in
    which texts, tool calls and JSON may be mixed and the tool calls interleaved, when each text
    of arguments extends the one before: the client's [tool_use] blocks are one for each tool
    index, with the identifier and the name the index started with, and the deltas of a block
    put together are the last arguments of its index. *)
Theorem anthropic_calls_rebuilt error_text range events last :
  (forall m, range m ≡ₚ map_to_list m) -> Z.of_nat (length events) < 2 ^ 61 ->
  Forall (fun e => is_end e = false) events -> is_end last = true -> growing ∅ events = true ->
  let calls := foldl record_call ∅ events in
  let frames := anthropicStreamFramesFromEventStream error_text (EventStreamFromRuntime range (events ++ [last])) in
  exists block_of : gmap Z Z,
    (forall ix ix' b, block_of !! ix = Some b -> block_of !! ix' = Some b -> ix = ix') /\
    (forall ix c, calls !! ix = Some c -> exists b, block_of !! ix = Some b /\ read_frames frames !! b = Some c) /\
    (forall b c, read_frames frames !! b = Some c -> exists ix, block_of !! ix = Some b /\ calls !! ix = Some c).
Proof.
  intros Hrange Hlen Hend Hlast Hg calls frames.
  destruct (stream_loop_tune range Hrange events (mkStreamState (-1) 0 ∅) (mkReader 0 ∅) (∅, ∅) ∅ Hend Hg) as (s' & H1 & (r' & Hr') & H3);
    [|exact in_step_start|exact in_tune_start|].
  { cbn [rd_next]. unfold max_int64. lia. }
  exists (ss_toolBlockIndexes s'). split; [intros ? ? ?; by apply (is_inj _ _ Hr')|].
  assert (read_frames frames = (foldl effect (∅, ∅) (stream_loop range (mkStreamState (-1) 0 ∅) events)).2) as ->.
  { unfold frames, read_frames, anthropicStreamFramesFromEventStream, EventStreamFromRuntime.
    rewrite frame_loop_effect, H3, foldl_app. cbn [stream_loop]. unfold stream_step. unfold is_end in Hlast.
    destruct (ev_Type last); try done. pose proof (end_effect range last s') as He.
    destruct (end_step range last s') as [out s2]. cbn [fst] in He. rewrite app_nil_r. by rewrite He. }
  fold calls in H1. split.
  - intros ix c Hc. destruct (it_calls _ _ _ H1 ix) as [b Hb]; [by rewrite Hc|]. exists b. split; [done|].
    destruct (it_block _ _ _ H1 ix b Hb) as (id & n & j & E1 & E2 & _). rewrite E2. congruence.
  - intros b c Hc. destruct (it_client _ _ _ H1 b) as [ix Hb]; [by rewrite Hc|]. exists ix. split; [done|].
    destruct (it_block _ _ _ H1 ix b Hb) as (id & n & j & E1 & E2 & _). rewrite E1. congruence.
Qed.

(** ** Witnesses *)

Definition sse_body (lines : list string) : string := js (String.concat newline lines).
Definition ex_request : Request := mkRequest "m" "" 0 [] [] "" true "" "" "" "" "".
Definition piece (arguments : string) : string :=
  "data: {'choices':[{'delta':{'tool_calls':[{'index':0,'function':{'arguments':'" +:+ arguments +:+ "'}}]}}]}".
Definition compact_body : string := sse_body
  ["data: {'id':'r1','model':'m','choices':[{'delta':{'role':'assistant','content':'Hi'}}]}"; "";
   "data: {'choices':[{'delta':{'content':' you','tool_calls':[{'index':0,'id':'t1','function':{'name':'f','arguments':''}}]}}]}";
   piece "{\'a\':"; piece "1,"; piece "\'b\':\'x y\'}"; "data: {'choices':[{'delta':{},'finish_reason':'tool_calls'}]}";
   "data: [DONE]"].
(** The same call with spaces after its colons and commas, as many JSON writers have it *)
Definition spaced_body : string := sse_body [piece "{\'a\': 1,"; piece " \'b\': 2}"; "data: [DONE]"].

Definition no_text (e : goerror) : string := "".
Definition ex_events (body : string) : list StreamEvent := decodeOpenAIChatStream body None ex_request false.

Lemma chat_stream_relayed_witness :
  let sent := chat_chunks no_text ∅ (ex_events compact_body) in
  client_text sent = "Hi you" /\ client_arguments 0 sent = js "{'a':1,'b':'x y'}".
Proof.
  destruct (chat_stream_relayed no_text compact_body None ex_request false 0) as [H1 H2].
  cbv zeta in H1, H2 |- *. unfold ex_events. rewrite H1, H2.
  - vm_compute. split; reflexivity.
  - refine (bool_decide_eq_true_1 _ _). vm_compute. reflexivity.
Defined.

(** The arguments of the spaced call reach both clients as a text that is not JSON: the first
    piece as it came, then the compact text of the whole. *)
Example spaced_arguments_corrupted :
  let corrupted := js "{'a': 1,{'a':1,'b':2}" in
  client_arguments 0 (chat_chunks no_text ∅ (ex_events spaced_body)) = corrupted /\
  read_frames (anthropicStreamFramesFromEventStream no_text (EventStreamFromRuntime map_to_list (ex_events spaced_body)))
    !! 0 = Some ("", "", corrupted) /\
  Valid (js "{'a': 1, 'b': 2}") = true /\ Valid corrupted = false.
Proof. vm_compute. split_and!; reflexivity. Qed.

Definition two_calls : list StreamEvent :=
  [ex_text "a"; ex_content None (Some (mkToolCall "t1" "" "f" "" "")); ex_call "{"; ex_text "b"; ex_call "{}"].
Lemma anthropic_calls_rebuilt_witness :
  exists block_of : gmap Z Z,
    (forall ix ix' b, block_of !! ix = Some b -> block_of !! ix' = Some b -> ix = ix') /\
    exists b, block_of !! 0 = Some b /\
      read_frames (anthropicStreamFramesFromEventStream no_text (EventStreamFromRuntime map_to_list (two_calls ++ [ex_end])))
        !! b = Some ("t1", "f", "{}").
Proof.
  destruct (anthropic_calls_rebuilt no_text map_to_list two_calls ex_end) as (block_of & H1 & H2 & _).
  - done.
  - vm_compute. reflexivity.
  - repeat constructor.
  - reflexivity.
  - vm_compute. reflexivity.
  - exists block_of. split; [exact H1|]. apply (H2 0 ("t1", "f", "{}")). vm_compute. reflexivity.
Defined.
