(* ===== verification/HttpTime.v ===== *)
(** * HTTP dates

    Go's [http.ParseTime] (the three layouts of RFC 7231) and [t.Format(http.TimeFormat)],
    with the safe [Retry-After] value of [internal/provider/errors.go] that is built on
    them. *)

From S2P Require Import Prelude GoStrings GoTime GoTimeFacts GoStrconv ProviderErrors.

#[local] Arguments String.append !_ _ /.

(** ** time.Parse *)

Definition cut_space (s : string) : string :=
  (fix go (s : string) : string :=
     match s with String " " s' => go s' | _ => s end) s.

(** [skip(value, prefix)]: a space of the layout stands for any number of spaces. *)
Fixpoint skip_fuel (fuel : nat) (s prefix : string) : option string :=
  match fuel, prefix with
  | S fuel, String " " _ =>
      match s with
      | EmptyString | String " " _ => skip_fuel fuel (cut_space s) (cut_space prefix)
      | _ => None
      end
  | S fuel, String c prefix => s ← expect c s; skip_fuel fuel s prefix
  | _, _ => Some s
  end.
Definition skip (s prefix : string) : option string := skip_fuel (S (len prefix)) s prefix.

Fixpoint ascii_lower (s : string) : string :=
  match s with EmptyString => EmptyString | String c s => String (lower_ascii c) (ascii_lower s) end.
(** [lookup(tab, value)]: the first name that starts the value, case ignored *)
Fixpoint lookup_name (i : Z) (tab : list string) (s : string) : option (Z * string) :=
  match tab with
  | [] => None
  | name :: tab =>
      if HasPrefix (ascii_lower s) (ascii_lower name) then Some (i, str_drop (len name) s)
      else lookup_name (i + 1) tab s
  end.

Definition shortDayNames := ["Sun"; "Mon"; "Tue"; "Wed"; "Thu"; "Fri"; "Sat"].
Definition longDayNames := ["Sunday"; "Monday"; "Tuesday"; "Wednesday"; "Thursday"; "Friday"; "Saturday"].
Definition shortMonthNames :=
  ["Jan"; "Feb"; "Mar"; "Apr"; "May"; "Jun"; "Jul"; "Aug"; "Sep"; "Oct"; "Nov"; "Dec"].

(** [15:04:05] with an optional fraction: the nanoseconds of the day *)
Definition parse_clock (s : string) : option (Z * string) :=
  '(hour, s) ← getnum s;
  s ← skip s ":";
  '(mi, s) ← take_digits 2 0 s;
  s ← skip s ":";
  '(sec, s) ← take_digits 2 0 s;
  let '(ns, s) := parse_frac s in
  if (hour <? 24) && (mi <? 60) && (sec <? 60)
  then Some ((hour * 3600 + mi * 60 + sec) * Second + ns, s) else None.
Definition make_date (year month day clock : Z) : option Time :=
  if (1 <=? day) && (day <=? days_in month year) then Some (date_utc year month day 0 0 0 0 + clock) else None.

(** [http.TimeFormat]: "Mon, 02 Jan 2006 15:04:05 GMT" *)
Definition parse_rfc1123 (s : string) : option Time :=
  '(_, s) ← lookup_name 0 shortDayNames s;
  s ← skip s ", ";
  '(day, s) ← take_digits 2 0 s;
  s ← skip s " ";
  '(month, s) ← lookup_name 1 shortMonthNames s;
  s ← skip s " ";
  '(year, s) ← take_digits 4 0 s;
  s ← skip s " ";
  '(clock, s) ← parse_clock s;
  s ← skip s " GMT";
  if s == "" then make_date year month day clock else None.

(** [parseTimeZone]: the length of the abbreviation *)
Definition is_upper (c : ascii) : bool := let n := N_of_ascii c in ((65 <=? n) && (n <=? 90))%N.
Fixpoint upper_run (n : nat) (s : string) : nat :=
  match n, s with
  | S n, String c s => if is_upper c then S (upper_run n s) else O
  | _, _ => O
  end.
Definition parseSignedOffset (s : string) : nat :=
  match s with
  | String c s' =>
      if bool_decide (c = "-"%char) || bool_decide (c = "+"%char) then
        match leadingInt s' with
        | Some (x, rem) => if (len rem =? len s')%nat || (23 <? x)%Z then 0%nat else (len s - len rem)%nat
        | None => 0%nat
        end
      else 0%nat
  | EmptyString => 0%nat
  end.
Definition parseTimeZone (s : string) : option nat :=
  if (len s <? 3)%nat then None
  else if HasPrefix s "ChST" || HasPrefix s "MeST" then Some 4%nat
  else if HasPrefix s "GMT" then Some (3 + parseSignedOffset (str_drop 3 s))%nat
  else if HasPrefix s "+" || HasPrefix s "-" then
    let n := parseSignedOffset s in if (n =? 0)%nat then None else Some n
  else
    let n := upper_run 6 s in
    let zone := str_take n s in
    if (n =? 5)%nat || (n =? 4)%nat then
      if HasSuffix zone "T" || (zone == "WITA") then Some n else None
    else if (n =? 3)%nat then Some n else None.

Section local_zone.
(** The offset of an abbreviation in the machine's own time zone at a Unix second *)
Context (lookupName : string -> Z -> option Z).

(** The zone of RFC 850: the instant of a date read as UTC *)
Definition in_zone (s : string) (t : Time) : option Time :=
  if HasPrefix s "UTC" then if str_drop 3 s == "" then Some t else None else
  n ← parseTimeZone s;
  let zone := str_take n s in
  if str_drop n s != "" then None else
  let offset :=
    match lookupName zone (unix_sec t) with
    | Some offset => offset
    | None =>
        if (3 <? n)%nat && HasPrefix zone "GMT" then default 0 (ParseInt (str_drop 3 zone)) * 3600 else 0
    end in
  Some (t - offset * Second).

(** [time.RFC850]: "Monday, 02-Jan-06 15:04:05 MST" *)
Definition parse_rfc850 (s : string) : option Time :=
  '(_, s) ← lookup_name 0 longDayNames s;
  s ← skip s ", ";
  '(day, s) ← take_digits 2 0 s;
  s ← skip s "-";
  '(month, s) ← lookup_name 1 shortMonthNames s;
  s ← skip s "-";
  '(yy, s) ← take_digits 2 0 s;
  let year := if 69 <=? yy then yy + 1900 else yy + 2000 in
  s ← skip s " ";
  '(clock, s) ← parse_clock s;
  s ← skip s " ";
  t ← make_date year month day clock;
  in_zone s t.

(** [time.ANSIC]: "Mon Jan _2 15:04:05 2006" *)
Definition parse_ansic (s : string) : option Time :=
  '(_, s) ← lookup_name 0 shortDayNames s;
  s ← skip s " ";
  '(month, s) ← lookup_name 1 shortMonthNames s;
  s ← skip s " ";
  '(day, s) ← getnum s;
  s ← skip s " ";
  '(clock, s) ← parse_clock s;
  s ← skip s " ";
  '(year, s) ← take_digits 4 0 s;
  if s == "" then make_date year month day clock else None.

(** [http.ParseTime] *)
Definition ParseTime (s : string) : option Time :=
  match parse_rfc1123 s with
  | Some t => Some t
  | None => match parse_rfc850 s with Some t => Some t | None => parse_ansic s end
  end.

(** ** Formatting *)

Definition nth_name (tab : list string) (i : Z) : string := nth (Z.to_nat i) tab "".
(** [t.UTC().Format(http.TimeFormat)] *)
Definition format_http (t : Time) : string :=
  let c := civil t in
  nth_name shortDayNames (c_weekday c) +:+ ", " +:+ fixed_digits 2 (c_day c) +:+ " " +:+
  nth_name shortMonthNames (c_month c - 1) +:+ " " +:+ format_year (c_year c) +:+ " " +:+
  fixed_digits 2 (c_hour c) +:+ ":" +:+ fixed_digits 2 (c_min c) +:+ ":" +:+ fixed_digits 2 (c_sec c) +:+ " GMT".

(** ** Retry-After *)

(** [strconv.ParseUint(s, 10, 64)] *)
Definition ParseUint (s : string) : option Z :=
  n ← parse_digits s; if n <? 2 ^ 64 then Some n else None.

Definition safeRetryAfter (value : string) : string :=
  let value := safeMetadataValue value in
  if value == "" then "" else
  match ParseUint value with
  | Some seconds => itoa seconds
  | None => match ParseTime value with Some retryAt => format_http retryAt | None => "" end
  end.

(** ** Response metadata *)

Record responseMetadata := mkResponseMetadata { rm_StatusCode : Z; rm_RequestID : string; rm_RetryAfter : string }.
(** An answer is its status and its headers, by their canonical names. *)
Definition extractResponseMetadata (resp : option (Z * (string -> string))) : responseMetadata :=
  match resp with
  | None => mkResponseMetadata 0 "" ""
  | Some (status, header) =>
      mkResponseMetadata status (firstSafeHeaderValue header ["Request-Id"; "X-Request-Id"])
        (safeRetryAfter (header "Retry-After"))
  end.

(** The outermost provider error of the chain is given the metadata. *)
Fixpoint set_metadata (m : responseMetadata) (err : goerror) : goerror :=
  match err with
  | ErrProvider k inner _ _ _ => ErrProvider k inner (rm_StatusCode m) (rm_RequestID m) (rm_RetryAfter m)
  | ErrWrap msg inner => ErrWrap msg (set_metadata m inner)
  | ErrNet t (Some inner) => ErrNet t (Some (set_metadata m inner))
  | _ => err
  end.
Definition withResponseMetadata (err : goerror) (resp : option (Z * (string -> string))) : goerror :=
  match AsProviderError err with
  | None => err
  | Some _ => set_metadata (extractResponseMetadata resp) err
  end.
End local_zone.

Definition no_zone (name : string) (unix : Z) : option Z := None.
Example http_dates :
  map (ParseTime no_zone)
    ["Sun, 06 Nov 1994 08:49:37 GMT"; "Sunday, 06-Nov-94 08:49:37 GMT"; "Sun Nov  6 08:49:37 1994";
     "sun, 06 nov 1994 8:49:37.5 GMT"; "Sun, 31 Feb 1994 08:49:37 GMT"; "soon"] =
  [Some (date_utc 1994 11 6 8 49 37 0); Some (date_utc 1994 11 6 8 49 37 0); Some (date_utc 1994 11 6 8 49 37 0);
   Some (date_utc 1994 11 6 8 49 37 500000000); None; None].
Proof. vm_compute. reflexivity. Qed.
Example http_format : format_http (date_utc 1994 11 6 8 49 37 0) = "Sun, 06 Nov 1994 08:49:37 GMT".
Proof. vm_compute. reflexivity. Qed.
Example retry_after : map (safeRetryAfter no_zone) [" 007 "; "Sun, 06 Nov 1994 08:49:37 GMT"; "-1"; "x"] =
  ["7"; "Sun, 06 Nov 1994 08:49:37 GMT"; ""; ""].
Proof. vm_compute. reflexivity. Qed.
