(* ===== verification/ProviderResponses.v ===== *)
(** * The OpenAI Responses format upstream

    Models [internal/provider/openai_responses_codec.go] and the compatibility rules of
    [provider.go]: what an upstream is sent and how its answer is read. *)

From S2P Require Import Prelude GoStrings ProviderErrors RuntimeModel ConfigTypes GoJson ProviderCodecs.

#[local] Arguments String.append !_ _ /.

(** ** Compatibility *)

Record openAIResponsesCompatibility := mkCompat {
  DropMetadata : bool;
  DropContextManagement : bool;
  RewriteAssistantToUser : bool;
  DropToolErrorStatus : bool;
  RejectPreviousResponse : bool;
  RejectBuiltinTools : bool
}.
Definition no_compat : openAIResponsesCompatibility := mkCompat false false false false false false.

(** [hostname] is [parsed.Hostname()] of the trimmed base URL, [None] when it does not parse. *)
Definition detectOpenAIResponsesCompatibility (hostname : option string) : openAIResponsesCompatibility :=
  match hostname with
  | Some host => if ToLower host == "api.paypal-ai.com" then mkCompat true true true true true true else no_compat
  | None => no_compat
  end.
Definition unless (capability : option bool) (base : bool) : bool :=
  match capability with Some b => negb b | None => base end.
Definition mergeOpenAIResponsesCompatibility (base : openAIResponsesCompatibility) (c : OutboundCapabilities)
    : openAIResponsesCompatibility :=
  mkCompat (DropMetadata base) (DropContextManagement base)
    (unless (cap_ResponsesAssistantHistoryNative c) (RewriteAssistantToUser base))
    (unless (cap_ResponsesToolResultStatusError c) (DropToolErrorStatus base))
    (unless (cap_ResponsesPreviousResponseID c) (RejectPreviousResponse base))
    (unless (cap_ResponsesBuiltinTools c) (RejectBuiltinTools base)).

Definition hasBuiltinResponsesTools (tools : list ToolDefinition) : bool :=
  existsb (fun tool =>
    let toolType := TrimSpace (td_Type tool) in
    negb ((toolType == "") || (toolType == "function") || (toolType == "custom"))) tools.
Definition validateOpenAIResponsesRequest (req : Request) (compat : openAIResponsesCompatibility)
    : result goerror unit :=
  if RejectPreviousResponse compat && (req_PreviousResponseID req != "") then
    Err (NewCapabilityUnsupportedError
           (ErrPlain "outbound does not support responses previous_response_id continuation"))
  else if RejectBuiltinTools compat && hasBuiltinResponsesTools (req_Tools req) then
    Err (NewCapabilityUnsupportedError (ErrPlain "outbound does not support responses builtin tools"))
  else Ok tt.

(** ** Requests *)

Record openAIResponsesTextPart := mkTextPart { otp_Type : string; otp_Text : string; otp_Value : string }.
(** [Input] is nil or a string. *)
Record openAIResponsesInputItem := mkInputItem {
  oii_Type : string;
  oii_Role : string;
  oii_Content : list openAIResponsesTextPart;
  oii_CallID : string;
  oii_Name : string;
  oii_Arguments : string;
  oii_Input : option string;
  oii_Output : string;
  oii_Status : string
}.
(** An element of [Tools]: a tool, or a value taken over from the client's request *)
Inductive responsesTool :=
| RTool (Type_ Name Description Parameters Format : string)
| RRaw (raw : value)
| RType (toolType : string).
Record openAIResponsesRequest := mkResponsesRequest {
  orr_Model : string;
  orr_Instructions : string;
  orr_MaxOutputTokens : Z;
  orr_Input : list openAIResponsesInputItem;
  orr_Tools : list responsesTool;
  orr_ToolChoice : string;
  orr_PreviousResponseID : string;
  orr_Metadata : string;
  orr_Reasoning : option string;
  orr_ContextManagement : string
}.

Definition json_of_textPart (p : openAIResponsesTextPart) : value :=
  VStruct ([("type", VStr (otp_Type p))] ++ omit_str "text" (otp_Text p) ++ omit_raw "value" (otp_Value p)).
Definition json_of_inputItem (i : openAIResponsesInputItem) : value :=
  VStruct (omit_str "type" (oii_Type i) ++ omit_str "role" (oii_Role i) ++
    omit_list "content" (map json_of_textPart (oii_Content i)) ++ omit_str "call_id" (oii_CallID i) ++
    omit_str "name" (oii_Name i) ++ omit_str "arguments" (oii_Arguments i) ++
    match oii_Input i with Some input => [("input", VStr input)] | None => [] end ++
    omit_str "output" (oii_Output i) ++ omit_str "status" (oii_Status i)).
Definition json_of_responsesTool (t : responsesTool) : value :=
  match t with
  | RTool typ name description parameters format =>
      VStruct ([("type", VStr typ); ("name", VStr name)] ++ omit_str "description" description ++
        omit_raw "parameters" parameters ++ omit_raw "format" format)
  | RRaw raw => raw
  | RType typ => VMap [("type", VStr typ)]
  end.
Definition json_of_openAIResponsesRequest (r : openAIResponsesRequest) : value :=
  VStruct ([("model", VStr (orr_Model r))] ++ omit_str "instructions" (orr_Instructions r) ++
    omit_int "max_output_tokens" (orr_MaxOutputTokens r) ++ omit_list "input" (map json_of_inputItem (orr_Input r)) ++
    omit_list "tools" (map json_of_responsesTool (orr_Tools r)) ++ omit_str "tool_choice" (orr_ToolChoice r) ++
    omit_str "previous_response_id" (orr_PreviousResponseID r) ++ omit_raw "metadata" (orr_Metadata r) ++
    match orr_Reasoning r with Some effort => [("reasoning", VStruct (omit_str "effort" effort))] | None => [] end ++
    omit_raw "context_management" (orr_ContextManagement r)).

Definition encode_responses_call (call : ToolCall) : openAIResponsesInputItem :=
  if tc_Type call == "custom"
  then mkInputItem "custom_tool_call" "" [] (tc_ID call) (tc_Name call) "" (Some (tc_Input call)) "" ""
  else mkInputItem "function_call" "" [] (tc_ID call) (tc_Name call) (compactJSONOrEmpty (tc_Arguments call)) None "" "".
Definition encode_responses_message (compat : openAIResponsesCompatibility) (msg : Message)
    : list openAIResponsesInputItem :=
  if msg_Role msg == MessageRoleTool then
    [mkInputItem (if msg_ToolCallType msg == "custom" then "custom_tool_call_output" else "function_call_output")
       "" [] (msg_ToolCallID msg) "" "" None (joinedToolResultParts msg)
       (if msg_ToolResultIsError msg && negb (DropToolErrorStatus compat) then "error" else "")]
  else if (0 <? length (msg_ToolCalls msg))%nat then map encode_responses_call (msg_ToolCalls msg)
  else
    let rewrite := RewriteAssistantToUser compat && (msg_Role msg == MessageRoleAssistant) in
    let text := joinedTextParts msg in
    [mkInputItem "message" (if rewrite then MessageRoleUser else msg_Role msg)
       [mkTextPart "input_text" (if rewrite then "Previous assistant message:" +:+ newline +:+ text else text) ""]
       "" "" "" None "" ""].

Definition shouldDropOpenAIResponsesTool (tool : ToolDefinition) : bool :=
  if td_Type tool == "custom" then false else shouldDropOpenAIChatTool tool.
Definition encode_responses_tool (tool : ToolDefinition) : responsesTool :=
  let toolType := if td_Type tool == "" then "function" else td_Type tool in
  if toolType == "function" then
    RTool "function" (td_Name tool) (td_Description tool) (normalizedToolSchema (td_InputSchema tool)) ""
  else if toolType == "custom" then RTool "custom" (td_Name tool) (td_Description tool) "" (td_Format tool)
  else
    match (if td_Raw tool == "" then None else Unmarshal_any (td_Raw tool)) with
    | Some raw => RRaw raw
    | None => RType toolType
    end.

Definition encodeOpenAIResponsesRequest (req : Request) (compat : openAIResponsesCompatibility)
    : openAIResponsesRequest :=
  let tools := map encode_responses_tool
                 (List.filter (fun t => negb (shouldDropOpenAIResponsesTool t)) (req_Tools req)) in
  mkResponsesRequest (req_Model req) (req_System req)
    (if 0 <? req_MaxTokens req then req_MaxTokens req else 0)
    (flat_map (encode_responses_message compat) (req_Messages req)) tools
    (if (length tools =? 0)%nat then "" else "auto") (req_PreviousResponseID req)
    (if DropMetadata compat then "" else req_Metadata req)
    (if req_OutputEffort req == "" then None else Some (req_OutputEffort req))
    (if DropContextManagement compat then "" else req_ContextManagement req).

(** ** Answers *)

Record openAIResponsesOutputItem := mkOutputItem {
  ooi_Type : string;
  ooi_Role : string;
  ooi_Content : list openAIResponsesTextPart;
  ooi_CallID : string;
  ooi_Name : string;
  ooi_Arguments : string;
  ooi_Input : string
}.
Record openAIResponsesEnvelope := mkResponsesEnvelope {
  ore_ID : string;
  ore_Object : string;
  ore_Model : string;
  ore_Status : string;
  ore_Output : list openAIResponsesOutputItem;
  ore_Usage : option chatUsage   (** input, output, total and cached tokens *)
}.

Definition dec_textPart (j : json) : option openAIResponsesTextPart :=
  ms ← as_object j; t ← f_string "type" ms; x ← f_string "text" ms; Some (mkTextPart t x (f_raw "value" ms)).
Definition dec_outputItem (j : json) : option openAIResponsesOutputItem :=
  ms ← as_object j; t ← f_string "type" ms; r ← f_string "role" ms; c ← f_list dec_textPart "content" ms;
  id ← f_string "call_id" ms; n ← f_string "name" ms; a ← f_string "arguments" ms;
  Some (mkOutputItem t r c id n a (f_raw "input" ms)).
Definition dec_responsesUsage (j : json) : option (option chatUsage) :=
  ms ← as_object j; i ← f_int "input_tokens" ms; o ← f_int "output_tokens" ms; t ← f_int "total_tokens" ms;
  k ← dec_cached "input_tokens_details" ms; Some (Some (mkChatUsage i o t k)).
Definition dec_responsesEnvelope (j : json) : option openAIResponsesEnvelope :=
  ms ← as_object j; id ← f_string "id" ms; o ← f_string "object" ms; m ← f_string "model" ms;
  s ← f_string "status" ms; out ← f_list dec_outputItem "output" ms; u ← field None dec_responsesUsage "usage" ms;
  Some (mkResponsesEnvelope id o m s out u).

Definition decode_responses_part (part : openAIResponsesTextPart) : list ContentPart :=
  if otp_Type part == "json" then
    let payload := if otp_Value part == "" then otp_Text part else otp_Value part in
    if payload == "" then [] else [mkContentPart ContentPartTypeJSON "" payload]
  else if otp_Text part == "" then [] else [mkContentPart ContentPartTypeText (otp_Text part) ""].
Definition decode_responses_item (msg : Message) (item : openAIResponsesOutputItem) : Message :=
  let add role parts calls :=
    mkMessage role (msg_Parts msg ++ parts) (msg_ToolCalls msg ++ calls) (msg_ToolCallID msg) (msg_ToolCallType msg)
      (msg_ToolResultIsError msg) in
  if ooi_Type item == "message" then
    add (if ooi_Role item == "" then msg_Role msg else ooi_Role item)
      (flat_map decode_responses_part (ooi_Content item)) []
  else if ooi_Type item == "function_call" then
    let arguments :=
      if (ooi_Arguments item == "") && (ooi_Input item != "") then compactJSONOrEmpty (ooi_Input item)
      else ooi_Arguments item in
    add (msg_Role msg) [] [mkToolCall (ooi_CallID item) "function" (ooi_Name item) arguments ""]
  else if ooi_Type item == "custom_tool_call" then
    let input :=
      if ooi_Input item == "" then "" else
      match Unmarshal_string (ooi_Input item) with Some input => input | None => ooi_Input item end in
    add (msg_Role msg) [] [mkToolCall (ooi_CallID item) "custom" (ooi_Name item) "" input]
  else msg.

Definition decodeOpenAIResponsesResponse (resp : openAIResponsesEnvelope) : result goerror Response :=
  if (length (ore_Output resp) =? 0)%nat
  then Err (NewFatalError (ErrPlain "upstream response missing output")) else
  let message := foldl decode_responses_item (mkMessage MessageRoleAssistant [] [] "" "" false) (ore_Output resp) in
  if (length (msg_Parts message) =? 0)%nat && (length (msg_ToolCalls message) =? 0)%nat
  then Err (NewFatalError (ErrPlain "upstream returned no content and no tool calls")) else
  let has_calls := (0 <? length (msg_ToolCalls message))%nat in
  let finish :=
    if has_calls then FinishReasonToolUse
    else if ore_Status resp == "incomplete" then FinishReasonLength
    else FinishReasonStop in
  Ok (mkResponse (ore_ID resp) (ore_Object resp) (ore_Model resp) message finish
        (u ← ore_Usage resp;
         Some (mkUsage (cu_PromptTokens u) (cu_CompletionTokens u) (cu_Cached u) 0 (cu_TotalTokens u)
                 UsageSourceProvider))).
