(* ===== verification/ProviderClient.v ===== *)
(** * The provider clients

    Models the calls of [internal/provider/openai_chat.go] and [anthropic_messages.go]:
    a request is sent with one API key after another, an answer is classified by its
    status, and an OAuth credential is renewed once.

    The clients are programs over the key index they share with other requests, the
    credential source and the network.  Latency spans and trace files, which only
    observe, are left out. *)

From S2P Require Import Prelude GoStrings ProviderErrors RuntimeModel GoJson HttpTime ProviderCodecs ProviderResponses ChatStream Program.

#[local] Arguments String.append !_ _ /.

(** ** Calls *)

(** The answer of the network: the request cannot be built, it cannot be sent, or an HTTP
    response with its body, or the body read so far and the error that ended it *)
Record httpResponse := mkHttpResponse {
  hr_Status : Z;
  hr_StatusText : string;
  hr_Header : string -> string;
  hr_Body : string;
  hr_ReadErr : option goerror
}.
Inductive answer := BuildFailed (err : goerror) | SendFailed (err : goerror) | Answered (r : httpResponse).

Inductive pcall : Type -> Type :=
| CurrentKey : pcall Z
| SetKey (ix : Z) : pcall unit
| Post (credential payload : string) (stream : bool) : pcall answer
| Credential : pcall (result goerror string)
| Invalidate : pcall unit.

Inductive pevent :=
| PCurrentKey (ix : Z)
| PSetKey (ix : Z)
| PPost (credential payload : string) (stream : bool) (a : answer)
| PCredential (r : result goerror string)
| PInvalidate.
Definition observe (B : Type) (c : pcall B) : B -> pevent :=
  match c in pcall B return B -> pevent with
  | CurrentKey => PCurrentKey
  | SetKey ix => fun _ => PSetKey ix
  | Post k p s => PPost k p s
  | Credential => PCredential
  | Invalidate => fun _ => PInvalidate
  end.

Section client.
(** The machine's time zone, for [Retry-After] dates of RFC 850 *)
Context (lookupName : string -> Z -> option Z).

(** ** Classification *)

Definition previewResponseBody (body : string) : string :=
  let trimmed := TrimSpace body in
  if trimmed == "" then dquote +:+ dquote
  else if (len trimmed <=? 1024)%nat then trimmed
  else str_take 1024 trimmed +:+ "...".

Definition with_metadata (err : goerror) (r : httpResponse) : goerror :=
  withResponseMetadata lookupName err (Some (hr_Status r, hr_Header r)).

(** The error of a status, [None] below 400.  A stream tells 401 and 403 after 5xx too:
    the ranges are disjoint. *)
Definition status_error (r : httpResponse) : option goerror :=
  let preview := previewResponseBody (hr_Body r) in
  let status := hr_Status r in
  if status =? 429 then
    Some (with_metadata (NewQuotaExceededError (ErrFormat "upstream quota exceeded: %s" [preview])) r)
  else if 500 <=? status then
    Some (with_metadata (NewUpstreamServerError
            (ErrFormat "upstream server error: %s body=%s" [hr_StatusText r; preview])) r)
  else if (status =? 401) || (status =? 403) then
    Some (with_metadata (NewAuthFailedError
            (ErrFormat "upstream auth failed: %s body=%s" [hr_StatusText r; preview])) r)
  else if 400 <=? status then
    Some (with_metadata (NewFatalError
            (ErrFormat "upstream request failed: %s body=%s" [hr_StatusText r; preview])) r)
  else None.

(** [NewTransientError] of an error that is not nil *)
Definition transient (err : goerror) : goerror := default err (NewTransientError (Some err)).

(** What a request that is not a stream gives: the body is read before the status is
    looked at. *)
Definition read_answer (decode : string -> result goerror Response) (a : answer) : result goerror Response :=
  match a with
  | BuildFailed err => Err (ErrWrap "build request: %w" err)
  | SendFailed err => Err (transient (ErrWrap "send request: %w" err))
  | Answered r =>
      match hr_ReadErr r with
      | Some err => Err (transient (ErrWrap "read response body: %w" err))
      | None => match status_error r with Some err => Err err | None => decode (hr_Body r) end
      end
  end.

Definition with_estimate (heuristic : bool) (req : Request) (resp : Response) : Response :=
  match resp_Usage resp with
  | Some _ => resp
  | None =>
      if heuristic then
        mkResponse (resp_ID resp) (resp_Object resp) (resp_Model resp) (resp_Message resp) (resp_FinishReason resp)
          (Some (estimateUsageHeuristically req resp))
      else resp
  end.

Definition bad_json (what body : string) : goerror := transient (ErrWrap what (ErrFormat "json" [body])).
Definition decode_chat (heuristic : bool) (req : Request) (body : string) : result goerror Response :=
  match (j ← Parse body; dec_chatEnvelope j) with
  | None => Err (bad_json "decode response: %w" body)
  | Some resp => decoded ← decodeOpenAIChatResponse resp; Ok (with_estimate heuristic req decoded)
  end.
Definition decode_responses (body : string) : result goerror Response :=
  match (j ← Parse body; dec_responsesEnvelope j) with
  | None => Err (bad_json "decode response: %w" body)
  | Some resp => decodeOpenAIResponsesResponse resp
  end.
Definition decode_anthropic (heuristic : bool) (req : Request) (body : string) : result goerror Response :=
  match (j ← Parse body; dec_anthropicEnvelope j) with
  | None => Err (bad_json "decode response: %w" body)
  | Some resp => decoded ← decodeAnthropicMessagesResponse resp; Ok (with_estimate heuristic req decoded)
  end.

(** ** OpenAI *)

Inductive openAIProtocolMode := ModeChat | ModeResponses.
Record OpenAICompatibleProvider := mkOpenAIProvider {
  op_apiKeys : list string;
  op_mode : openAIProtocolMode;
  op_responsesCompat : openAIResponsesCompatibility;
  op_heuristic : bool
}.

(** The loop over the keys, for a request that is sent by [send] *)
Section keys.
Context {R : Type} (keys : list string) (send : string -> prog pcall (result goerror R)).
Definition num_keys : Z := Z.of_nat (length keys).
Definition key_at (ix : Z) : string := nth (Z.to_nat ix) keys "".

(** From [offset] on, with [n] keys left.  The error of the last key tried is what the
    caller gets. *)
Fixpoint try_keys (start offset : Z) (n : nat) (lastErr : goerror) : prog pcall (result goerror R) :=
  match n with
  | O => mret (Err lastErr)
  | S n =>
      let keyIx := Z.rem (start + offset) num_keys in
      answer ← send (key_at keyIx);
      match answer with
      | Ok r => _ ← perform (SetKey (Z.rem (keyIx + 1) num_keys)); mret (Ok r)
      | Err err =>
          if negb (bool_decide (NormalizeError (Some err) = ErrorKindQuotaExceeded)) || (offset =? num_keys - 1)
          then mret (Err err)
          else _ ← perform (SetKey (Z.rem (keyIx + 1) num_keys)); try_keys start (offset + 1) n err
      end
  end.
Definition with_keys : prog pcall (result goerror R) :=
  start ← perform CurrentKey; try_keys start 0 (length keys) (ErrPlain "").
End keys.

Definition completionWithAPIKey (p : OpenAICompatibleProvider) (req : Request) (payload apiKey : string)
    : prog pcall (result goerror Response) :=
  a ← perform (Post apiKey payload false);
  mret (read_answer (match op_mode p with
                     | ModeChat => decode_chat (op_heuristic p) req
                     | ModeResponses => decode_responses
                     end) a).

Definition chat_payload (p : OpenAICompatibleProvider) (req : Request) : result goerror value :=
  match op_mode p with
  | ModeResponses =>
      _ ← validateOpenAIResponsesRequest req (op_responsesCompat p);
      Ok (json_of_openAIResponsesRequest (encodeOpenAIResponsesRequest req (op_responsesCompat p)))
  | ModeChat => Ok (json_of_openAIChatRequest (encodeOpenAIChatRequest req))
  end.

Definition ChatCompletion (p : OpenAICompatibleProvider) (req : Request) : prog pcall (result goerror Response) :=
  if req_Model req == "" then mret (Err (ErrPlain "model is required"))
  else if (length (op_apiKeys p) =? 0)%nat then mret (Err (ErrPlain "api key is required"))
  else
    match chat_payload p req with
    | Err err => mret (Err err)
    | Ok payload =>
        match Marshal payload with
        | None => mret (Err (ErrWrap "marshal request: %w" (ErrPlain "json")))
        | Some encoded => with_keys (op_apiKeys p) (completionWithAPIKey p req encoded)
        end
    end.

(** *** Streams: the events are the ones the goroutine sends *)

Definition enableStreamOnPayload (payload : string) : result goerror string :=
  match Unmarshal_map payload with
  | Some (Some body) =>
      match Marshal (VMap (map_set "stream" (VBool true) body)) with
      | Some encoded => Ok encoded
      | None => Err (ErrWrap "encode stream payload: %w" (ErrPlain "json"))
      end
  | _ => Err (ErrWrap "decode stream payload: %w" (ErrPlain "json"))
  end.

Definition read_stream_answer (p : OpenAICompatibleProvider) (req : Request) (a : answer)
    : result goerror (list StreamEvent) :=
  match a with
  | BuildFailed err => Err (ErrWrap "build request: %w" err)
  | SendFailed err => Err (transient (ErrWrap "send stream request: %w" err))
  | Answered r =>
      match status_error r with
      | Some err => Err err
      | None =>
          if negb (Contains (hr_Header r "Content-Type") "text/event-stream") then
            match hr_ReadErr r with
            | Some err => Err (transient (ErrWrap "read fallback response body: %w" err))
            | None =>
                match (j ← Parse (hr_Body r); dec_chatEnvelope j) with
                | None => Err (bad_json "decode fallback response: %w" (hr_Body r))
                | Some resp => decoded ← decodeOpenAIChatResponse resp; Ok (streamResponse decoded)
                end
            end
          else Ok (decodeOpenAIChatStream (hr_Body r) (hr_ReadErr r) req (op_heuristic p))
      end
  end.
Definition streamWithAPIKey (p : OpenAICompatibleProvider) (req : Request) (payload apiKey : string)
    : prog pcall (result goerror (list StreamEvent)) :=
  a ← perform (Post apiKey payload true); mret (read_stream_answer p req a).

Definition stream_of (resp : result goerror Response) : result goerror (list StreamEvent) :=
  match resp with Ok resp => Ok (streamResponse resp) | Err err => Err err end.

(** When no key gives a stream, the request is sent again as a whole one. *)
Definition stream_fallback (p : OpenAICompatibleProvider) (req : Request) (events : result goerror (list StreamEvent))
    : prog pcall (result goerror (list StreamEvent)) :=
  match events with
  | Ok events => mret (Ok events)
  | Err lastErr =>
      resp ← ChatCompletion p req;
      mret (match resp with Ok resp => Ok (streamResponse resp) | Err _ => Err lastErr end)
  end.

Definition StreamCompletion (p : OpenAICompatibleProvider) (req : Request)
    : prog pcall (result goerror (list StreamEvent)) :=
  match op_mode p with
  | ModeResponses => resp ← ChatCompletion p req; mret (stream_of resp)
  | ModeChat =>
      if req_Model req == "" then mret (Err (ErrPlain "model is required"))
      else if (length (op_apiKeys p) =? 0)%nat then mret (Err (ErrPlain "api key is required"))
      else
        match Marshal (json_of_openAIChatRequest (encodeOpenAIChatRequest req)) with
        | None => mret (Err (ErrWrap "marshal request: %w" (ErrPlain "json")))
        | Some encoded =>
            match enableStreamOnPayload encoded with
            | Err err => mret (Err err)
            | Ok streamPayload =>
                events ← with_keys (op_apiKeys p) (streamWithAPIKey p req streamPayload);
                stream_fallback p req events
            end
        end
  end.

(** ** Anthropic *)

Record AnthropicMessagesProvider := mkAnthropicProvider {
  ap_apiKeys : list string;
  ap_credentialSource : bool;
  ap_heuristic : bool
}.

Definition completionWithCredential (p : AnthropicMessagesProvider) (req : Request) (payload credential : string)
    : prog pcall (result goerror Response) :=
  a ← perform (Post credential payload false); mret (read_answer (decode_anthropic (ap_heuristic p) req) a).

(** A credential the upstream refuses is renewed, once. *)
Definition renew_credential (p : AnthropicMessagesProvider) (req : Request) (payload : string)
    (response : result goerror Response) : prog pcall (result goerror Response) :=
  match response with
  | Err err =>
      if bool_decide (NormalizeError (Some err) = ErrorKindAuthFailed) then
        _ ← perform Invalidate;
        credential ← perform Credential;
        match credential with
        | Err refreshErr => mret (Err refreshErr)
        | Ok credential => completionWithCredential p req payload credential
        end
      else mret (Err err)
  | Ok resp => mret (Ok resp)
  end.

Definition AnthropicChatCompletion (p : AnthropicMessagesProvider) (req : Request)
    : prog pcall (result goerror Response) :=
  if req_Model req == "" then mret (Err (ErrPlain "model is required"))
  else if (length (ap_apiKeys p) =? 0)%nat && negb (ap_credentialSource p)
  then mret (Err (ErrPlain "api key is required"))
  else
    match Marshal (json_of_anthropicMessagesRequest (encodeAnthropicMessagesRequest req)) with
    | None => mret (Err (ErrWrap "marshal request: %w" (ErrPlain "json")))
    | Some payload =>
        if ap_credentialSource p then
          credential ← perform Credential;
          match credential with
          | Err err => mret (Err err)
          | Ok credential =>
              response ← completionWithCredential p req payload credential;
              renew_credential p req payload response
          end
        else completionWithCredential p req payload (nth 0 (ap_apiKeys p) "")
    end.
Definition AnthropicStreamCompletion (p : AnthropicMessagesProvider) (req : Request)
    : prog pcall (result goerror (list StreamEvent)) :=
  resp ← AnthropicChatCompletion p (with_Stream req false); mret (stream_of resp).
End client.

(** ** The mock *)

Definition MockChatCompletion (req : Request) : result goerror Response :=
  if req_Model req == "" then Err (ErrPlain "model is required") else
  Ok (mkResponse "chatcmpl-mock" "chat.completion" (req_Model req)
        (mkMessage MessageRoleAssistant [mkContentPart ContentPartTypeText "syrogo mock response" ""] [] "" "" false)
        FinishReasonStop None).
Definition MockStreamCompletion (req : Request) : result goerror (list StreamEvent) :=
  stream_of (MockChatCompletion req).

(** ** Masking *)

Definition maskCredential (value prefix : string) : string :=
  if value == "" then ""
  else if (prefix != "") && negb (HasPrefix value prefix) then "***"
  else prefix +:+ "***".
Definition redactHeader (key value : string) : string :=
  if ToLower key == "authorization" then maskCredential value "Bearer "
  else if ToLower key == "x-api-key" then maskCredential value ""
  else value.
