(* ===== verification/ProviderClientFacts.v ===== *)
(** * Facts about the provider clients

    Which keys a request is tried with and what the caller is told, under any answers of
    the network and any other requests on the same keys; how the status of an answer
    decides the error; when a credential is renewed. *)

From S2P Require Import Prelude GoStrings ProviderErrors RuntimeModel GoJson HttpTime ProviderCodecs ProviderResponses ChatStream Program ProviderClient.

(** ** API keys *)

Definition post_of (e : pevent) : option (string * answer) :=
  match e with PPost credential _ _ a => Some (credential, a) | _ => None end.
Definition posts (tr : list pevent) : list (string * answer) := omap post_of tr.
Definition quota_error {R} (r : result goerror R) : bool :=
  match r with Err err => bool_decide (NormalizeError (Some err) = ErrorKindQuotaExceeded) | Ok _ => false end.
Definition key_writes (tr : list pevent) : list Z := omap (fun e => match e with PSetKey ix => Some ix | _ => None end) tr.

Section keys.
Context {R : Type} (keys : list string) (read : answer -> result goerror R) (payload : string) (stream : bool).

(** A request that is posted once with the key, and its answer read *)
Definition send (key : string) : prog pcall (result goerror R) :=
  a ← perform (Post key payload stream); mret (read a).

Lemma runs_send key tr r :
  runs observe (send key) tr r <-> exists a, tr = [PPost key payload stream a] /\ r = read a.
Proof.
  unfold send. rewrite runs_bind. split.
  - intros (tr1 & a & tr2 & -> & H1 & H2). apply runs_perform in H1 as ->. apply runs_ret in H2 as [-> ->]. by exists a.
  - intros (a & -> & ->). exists [PPost key payload stream a], a, []. split; [done|]. by rewrite runs_perform.
Qed.

Definition key_from (start : Z) (i : nat) : string := key_at keys (Z.rem (start + Z.of_nat i) (num_keys keys)).

(** The index of the key after the [i]-th of those tried from [start] on *)
Definition index_after (start : Z) (i : nat) : Z := (start + Z.of_nat i + 1) mod num_keys keys.

(** What the keys from [offset] on, [n] of them, can be used for *)
Definition tried (start : Z) (offset n : nat) (tr : list pevent) (r : result goerror R) : Prop :=
  exists (m : nat) (answers : list answer) (a : answer),
    (m < n)%nat /\ length answers = m /\
    posts tr = zip (map (key_from start) (seq offset (S m))) (answers ++ [a]) /\
    Forall (fun a => quota_error (read a) = true) answers /\ r = read a /\
    (quota_error r = true -> S m = n) /\
    key_writes tr = map (index_after start) (seq offset (if is_Ok r then S m else m)).

Lemma rem_next a n : 0 <= a -> 0 < n -> Z.rem (Z.rem a n + 1) n = (a + 1) mod n.
Proof.
  intros Ha Hn. assert (0 <= a mod n) by (apply Z.mod_pos_bound; lia).
  rewrite (Z.rem_mod_nonneg a), Z.rem_mod_nonneg by lia. by rewrite Zplus_mod_idemp_l.
Qed.

Lemma try_keys_tried start n offset lastErr tr r :
  0 <= start -> (offset + n = length keys)%nat -> (0 < n)%nat ->
  runs observe (try_keys keys send start (Z.of_nat offset) n lastErr) tr r -> tried start offset n tr r.
Proof.
  intros Hs. revert offset lastErr tr r. induction n as [|n IH]; intros offset lastErr tr r Hlen Hn; [lia|].
  cbn [try_keys]. assert (0 < num_keys keys) as Hk by (unfold num_keys; lia).
  set (keyIx := Z.rem (start + Z.of_nat offset) (num_keys keys)).
  assert (Z.rem (keyIx + 1) (num_keys keys) = index_after start offset) as Hnext by (apply rem_next; lia).
  rewrite runs_bind. intros (tr1 & x & tr2 & -> & H1 & H2). apply runs_send in H1 as (a & -> & ->).
  destruct (read a) as [v|err] eqn:Ea.
  - rewrite runs_bind in H2. destruct H2 as (tr3 & u & tr4 & -> & H2 & H3).
    apply runs_perform in H2 as ->. apply runs_ret in H3 as [-> ->].
    exists 0%nat, [], a. cbn. rewrite Hnext. by split_and!.
  - destruct (negb _ || _) eqn:E.
    + apply runs_ret in H2 as [-> ->]. exists 0%nat, [], a. cbn.
      split_and!; try done. intros Hq.
      apply orb_true_iff in E as [E|E]; [apply negb_true_iff in E; unfold quota_error in Hq; cbn in Hq, E; congruence|].
      apply Z.eqb_eq in E. unfold num_keys in E. cbn in Hlen. lia.
    + apply orb_false_iff in E as [E1 E2]. apply negb_false_iff in E1. apply Z.eqb_neq in E2.
      rewrite runs_bind in H2. destruct H2 as (tr3 & u & tr4 & -> & H2 & H3).
      apply runs_perform in H2 as ->. replace (Z.of_nat offset + 1) with (Z.of_nat (S offset)) in H3 by lia.
      unfold num_keys in E2. apply IH in H3 as (m & answers & b & Hm & Hl & Hp & Hq & -> & Hall & Hw); [|lia..].
      exists (S m), (a :: answers), b. cbn [length app]. split_and!; try lia; [..|done| |].
      * cbn [posts omap list_omap post_of app]. change (omap post_of tr4) with (posts tr4). rewrite Hp.
        done.
      * constructor; [|done]. by rewrite Ea.
      * intros H. f_equal. by apply Hall.
      * cbn. change (omap _ tr4) with (key_writes tr4). rewrite Hw, Hnext. by destruct (is_Ok (read b)).
Qed.
End keys.

(** C12: a request to an OpenAI upstream is tried with one API key after another, in order from
    the current one and each at most once: it goes on to the next key exactly when the answer is
    a quota error, so the caller hears of a quota error only after every key has given one; the
    answer of the last key tried is the result.  The key index is moved to the one after
    each key given up, in order, and to the one after the key that succeeds, modulo the
    number of keys; a key whose answer is another error is not moved past. *)
Theorem keys_tried lookupName p req payload start tr r :
  op_apiKeys p <> [] -> 0 <= start ->
  runs observe (with_keys (op_apiKeys p) (completionWithAPIKey lookupName p req payload)) (PCurrentKey start :: tr) r ->
  exists (used : list (string * answer)) (last : answer),
    posts tr = used ++ [(key_from (op_apiKeys p) start (length used), last)] /\
    map fst used = map (key_from (op_apiKeys p) start) (seq 0 (length used)) /\
    (length used < length (op_apiKeys p))%nat /\
    let read := read_answer lookupName (match op_mode p with
                  | ModeChat => decode_chat (op_heuristic p) req | ModeResponses => decode_responses end) in
    Forall (fun ka => quota_error (read ka.2) = true) used /\ r = read last /\
    (quota_error r = true -> S (length used) = length (op_apiKeys p)) /\
    key_writes tr = map (index_after (op_apiKeys p) start)
      (seq 0 (if is_Ok r then S (length used) else length used)).
Proof.
  intros Hk Hs. unfold with_keys. rewrite runs_bind. intros (tr1 & x & tr2 & Htr & H1 & H2).
  apply runs_perform in H1 as ->. injection Htr as -> ->.
  assert (0 < length (op_apiKeys p))%nat as Hpos by (destruct (op_apiKeys p); [done|cbn; lia]).
  destruct (try_keys_tried (op_apiKeys p) (read_answer lookupName (match op_mode p with
              | ModeChat => decode_chat (op_heuristic p) req | ModeResponses => decode_responses end)) payload false
              x (length (op_apiKeys p)) 0 (ErrPlain "") tr2 r Hs eq_refl Hpos H2)
    as (m & answers & a & Hm & Hl & Hp & Hq & -> & Hall & Hw).
  exists (zip (map (key_from (op_apiKeys p) x) (seq 0 m)) answers), a.
  assert (length (map (key_from (op_apiKeys p) x) (seq 0 m)) = length answers) as Hlen.
  { by rewrite length_map, length_seq. }
  rewrite length_zip_with_l_eq, length_map, length_seq by done. cbv zeta. split_and!; try done.
  - rewrite Hp. rewrite seq_S, map_app. cbn [map]. by rewrite zip_with_app.
  - change (map fst (zip ?a ?b)) with (fst <$> zip a b). rewrite fst_zip; [done|]. by rewrite Hlen.
  - apply Forall_forall. intros [k b] Hb%elem_of_zip_r. rewrite Forall_forall in Hq. by apply Hq.
Qed.

(** ** The status of an answer *)

Definition status_kind (status : Z) : option ErrorKind :=
  if status =? 429 then Some ErrorKindQuotaExceeded
  else if 500 <=? status then Some ErrorKindUpstreamServerError
  else if (status =? 401) || (status =? 403) then Some ErrorKindAuthFailed
  else if 400 <=? status then Some ErrorKindFatal
  else None.

(** A value that may go into a header: short and on one line *)
Definition header_safe (value : string) : Prop :=
  (len value <= maxUpstreamMetadataLength)%nat /\ ContainsAny value [byte 13; byte 10] = false.

Lemma header_safe_nil : header_safe "".
Proof. split; [unfold maxUpstreamMetadataLength; cbn; lia|done]. Qed.

Lemma safeMetadataValue_header value : header_safe (safeMetadataValue value).
Proof.
  destruct (decide (safeMetadataValue value = "")) as [->|H]; [apply header_safe_nil|].
  destruct (safeMetadataValue_safe value H). by split.
Qed.

Lemma firstSafeHeaderValue_header get names : header_safe (firstSafeHeaderValue get names).
Proof.
  induction names as [|n names IH]; cbn; [apply header_safe_nil|].
  destruct (_ != ""); [apply safeMetadataValue_header|done].
Qed.

Lemma read_status lookupName decode r err :
  hr_ReadErr r = None -> read_answer lookupName decode (Answered r) = Err err ->
  match status_kind (hr_Status r) with
  | Some kind => exists inner request_id,
      err = ErrProvider kind (Some inner) (hr_Status r) request_id (safeRetryAfter lookupName (hr_Header r "Retry-After")) /\
      header_safe request_id
  | None => decode (hr_Body r) = Err err
  end.
Proof.
  intros Hr. unfold read_answer, status_error, status_kind. rewrite Hr.
  assert (forall kind inner, exists inner' request_id,
    with_metadata lookupName (provider_error kind inner) r =
      ErrProvider kind (Some inner') (hr_Status r) request_id (safeRetryAfter lookupName (hr_Header r "Retry-After")) /\
    header_safe request_id) as H.
  { intros kind inner. do 2 eexists. split; [reflexivity|]. apply firstSafeHeaderValue_header. }
  destruct (hr_Status r =? 429); [intros [= <-]; apply H|].
  destruct (500 <=? hr_Status r); [intros [= <-]; apply H|].
  destruct (_ || _); [intros [= <-]; apply H|].
  destruct (400 <=? hr_Status r); [intros [= <-]; apply H|done].
Qed.

(** The status of an upstream's answer decides what the dispatcher and the client are told:
    429 is a quota error, 5xx a server error, 401 and 403 an authentication failure, any other
    status from 400 on a fatal error, and below 400 only the body decides.  The error carries
    the status and the upstream's request identifier, cut down to one short line so that it can
    be written in a header. *)
Theorem upstream_error_classified lookupName p req payload key tr r err :
  hr_ReadErr r = None ->
  runs observe (completionWithAPIKey lookupName p req payload key) tr (Err err) ->
  tr = [PPost key payload false (Answered r)] ->
  match status_kind (hr_Status r) with
  | Some kind =>
      NormalizeError (Some err) = kind /\
      exists request_id retry_after, AsProviderError err = Some (kind, hr_Status r, request_id, retry_after) /\
        header_safe request_id
  | None => (match op_mode p with
             | ModeChat => decode_chat (op_heuristic p) req | ModeResponses => decode_responses
             end) (hr_Body r) = Err err
  end.
Proof.
  intros Hr Hruns ->. unfold completionWithAPIKey in Hruns.
  apply (runs_send (read_answer lookupName _) payload false key) in Hruns as (a & [= <-] & Herr).
  symmetry in Herr. pose proof (read_status _ _ _ _ Hr Herr) as H.
  destruct (status_kind (hr_Status r)) as [kind|]; [|exact H].
  destruct H as (inner & request_id & -> & Hs). split; [done|]. by do 2 eexists.
Qed.

(** ** Credentials *)

Definition invalidations (tr : list pevent) : nat :=
  length (List.filter (fun e => match e with PInvalidate => true | _ => false end) tr).

(** An OAuth credential is renewed at most once for a request: a second request is sent
    exactly when the first is refused as unauthenticated and a new credential is had, the old
    one being invalidated first; without a refusal nothing is invalidated. *)
Theorem credential_renewed_once lookupName p req tr r :
  ap_credentialSource p = true ->
  runs observe (AnthropicChatCompletion lookupName p req) tr r ->
  (length (posts tr) <= 2)%nat /\ (invalidations tr <= 1)%nat /\
  (forall c1 a1 c2 a2, posts tr = [(c1, a1); (c2, a2)] ->
     let read := read_answer lookupName (decode_anthropic (ap_heuristic p) req) in
     (exists err, read a1 = Err err /\ NormalizeError (Some err) = ErrorKindAuthFailed) /\
     invalidations tr = 1%nat /\ r = read a2) /\
  (invalidations tr = 0%nat -> forall err, r = Err err -> posts tr <> [] -> NormalizeError (Some err) <> ErrorKindAuthFailed).
Proof.
  intros Hsrc. unfold AnthropicChatCompletion. rewrite Hsrc. cbn [negb]. rewrite andb_false_r.
  destruct (req_Model req == ""); [intros [-> ->]%runs_ret; cbn; split_and!; by auto|].
  destruct (Marshal _) as [payload|]; [|intros [-> ->]%runs_ret; cbn; split_and!; by auto].
  rewrite runs_bind. intros (tr1 & [c1|e1] & tr2 & -> & H1%runs_perform & H2); subst tr1.
  2: { apply runs_ret in H2 as [-> ->]. cbn. split_and!; by auto. }
  rewrite runs_bind in H2. destruct H2 as (tr3 & r1 & tr4 & -> & H2 & H3).
  apply (runs_send (read_answer lookupName _) payload false c1) in H2 as (a1 & -> & ->).
  unfold renew_credential in H3. destruct (read_answer lookupName _ a1) as [resp|err] eqn:Ea.
  { apply runs_ret in H3 as [-> ->]. cbn. split_and!; by auto. }
  case_bool_decide as Hk.
  2: { apply runs_ret in H3 as [-> ->]. cbn. split_and!; try by auto. by intros _ ? [= <-]. }
  rewrite runs_bind in H3. destruct H3 as (tr5 & u & tr6 & -> & H3%runs_perform & H4). subst tr5.
  rewrite runs_bind in H4. destruct H4 as (tr7 & [c2|e2] & tr8 & -> & H4%runs_perform & H5); subst tr7.
  2: { apply runs_ret in H5 as [-> ->]. cbn. split_and!; by auto. }
  apply (runs_send (read_answer lookupName _) payload false c2) in H5 as (a2 & -> & ->). cbn.
  split_and!; [lia|lia| |done]. intros ? ? ? ? [= <- <- <- <-]. split_and!; [|done|done]. by exists err.
Qed.

(** ** Witnesses *)

Definition no_zone (name : string) (unix : Z) : option Z := None.
Definition http (status : Z) (body : string) : httpResponse :=
  mkHttpResponse status "" (fun name => if name == "Request-Id" then " r1 " else "") (js body) None.
Definition quota_answer : answer := Answered (http 429 "slow down").
Definition good_answer : answer :=
  Answered (http 200 "{'id':'1','model':'m','choices':[{'finish_reason':'stop','message':{'role':'assistant','content':'hi'}}]}").
Definition auth_answer : answer := Answered (http 401 "who?").
Definition ex_request : Request := mkRequest "m" "" 0 [] [] "" false "" "" "" "" "".
Definition two_keys : OpenAICompatibleProvider := mkOpenAIProvider ["k1"; "k2"] ModeChat no_compat false.
Definition ex_response : Response :=
  mkResponse "1" "" "m" (mkMessage "assistant" [mkContentPart ContentPartTypeText "hi" ""] [] "" "" false)
    FinishReasonStop None.
Definition anthropic_answer : answer :=
  Answered (http 200 "{'id':'1','type':'message','content':[{'type':'text','text':'hi'}]}").
Definition oauth_provider : AnthropicMessagesProvider := mkAnthropicProvider [] true false.
Definition anthropic_response : Response :=
  mkResponse "1" "message" "" (mkMessage "assistant" [mkContentPart ContentPartTypeText "hi" ""] [] "" "" false)
    FinishReasonEndTurn None.

(** A machine with the key index, the answers of the network and the credentials to come *)
Definition machine : Type := (Z * list answer * list (result goerror string))%type.
Definition respond (B : Type) (c : pcall B) : machine -> machine * B :=
  match c in pcall B return machine -> machine * B with
  | CurrentKey => fun s => (s, s.1.1)
  | SetKey ix => fun s => ((ix, s.1.2, s.2), tt)
  | Post _ _ _ => fun s => ((s.1.1, List.tl s.1.2, s.2), List.hd (SendFailed (ErrPlain "")) s.1.2)
  | Credential => fun s => ((s.1.1, s.1.2, List.tl s.2), List.hd (Err (ErrPlain "")) s.2)
  | Invalidate => fun s => (s, tt)
  end.
Lemma runs_exec {A} (p : prog pcall A) s s' tr a :
  exec observe respond p s = (s', tr, a) -> runs observe p tr a.
Proof. intros H. pose proof (exec_runs observe respond p s) as Hr. by rewrite H in Hr. Qed.

Lemma keys_tried_witness :
  exists used last,
    [("k2", quota_answer); ("k1", good_answer)] = used ++ [(key_from ["k1"; "k2"] 1 (length used), last)] /\
    (length used < 2)%nat.
Proof.
  destruct (keys_tried no_zone two_keys ex_request "p" 1
    [PPost "k2" "p" false quota_answer; PSetKey 0; PPost "k1" "p" false good_answer; PSetKey 1] (Ok ex_response))
    as (used & last & H1 & _ & H2 & _).
  - discriminate.
  - lia.
  - apply (runs_exec _ (1, [quota_answer; good_answer], []) (1, [], [])). vm_compute. reflexivity.
  - exists used, last. split; [exact H1|exact H2].
Defined.

Lemma upstream_error_classified_witness :
  exists request_id retry_after,
    AsProviderError (default (ErrPlain "") (match read_answer no_zone (decode_chat false ex_request) auth_answer with
                                            | Err e => Some e | Ok _ => None end)) =
      Some (ErrorKindAuthFailed, 401, request_id, retry_after) /\ header_safe request_id.
Proof.
  assert (exists err, read_answer no_zone (decode_chat false ex_request) auth_answer = Err err) as [err Herr]
    by (eexists; reflexivity).
  rewrite Herr. cbn [default].
  apply (upstream_error_classified no_zone two_keys ex_request "p" "k1"
    [PPost "k1" "p" false auth_answer] (http 401 "who?") err); [reflexivity| |reflexivity].
  apply (runs_send (read_answer no_zone _) "p" false "k1"). exists auth_answer. split; [reflexivity|].
  symmetry. exact Herr.
Defined.

Lemma credential_renewed_once_witness : exists payload,
  let tr := [PCredential (Ok "old"); PPost "old" payload false auth_answer; PInvalidate; PCredential (Ok "new");
             PPost "new" payload false anthropic_answer] in
  (length (posts tr) <= 2)%nat /\ (invalidations tr <= 1)%nat.
Proof.
  exists (default "" (Marshal (json_of_anthropicMessagesRequest (encodeAnthropicMessagesRequest ex_request)))).
  intros tr. destruct (credential_renewed_once no_zone oauth_provider ex_request tr (Ok anthropic_response)) as (H1 & H2 & _).
  - reflexivity.
  - apply (runs_exec _ (0, [auth_answer; anthropic_answer], [Ok "old"; Ok "new"]) (0, [], [])). vm_compute. reflexivity.
  - split; [exact H1|exact H2].
Defined.
