(* ===== verification/GatewayResponses.v ===== *)
(** * The OpenAI Responses format of the gateway

    Models [internal/gateway/openai_responses_codec.go]: the requests of a Responses
    client, the answers it is given and the frames of its streams.

    The content parts of a streamed message are Go maps shared between the frames that
    mention them and changed when a text is finished; the frames are only written after
    the last event.  A payload is therefore a function of the parts as they are at the
    end. *)

From S2P Require Import Prelude GoStrings GoTime GoTimeFacts GoStrconv ProviderErrors RuntimeModel GoJson RuntimeRequest GatewayStream.

#[local] Arguments String.append !_ _ /.

(** ** Requests *)

Record openAIResponsesTool := mkResponsesTool {
  rt_Type : string;
  rt_Name : string;
  rt_Description : string;
  rt_Parameters : string;
  rt_Format : string;
  rt_Raw : string
}.
Record openAIResponsesRequest := mkResponsesRequest {
  rr_Model : string;
  rr_Input : string;
  rr_Instructions : string;
  rr_Stream : bool;
  rr_PreviousResponseID : string;
  rr_Tools : list openAIResponsesTool
}.
Record openAIResponsesInputItem := mkResponsesInputItem {
  ri_Type : string;
  ri_Role : string;
  ri_Content : string;
  ri_CallID : string;
  ri_Name : string;
  ri_Input : string;
  ri_Output : string;
  ri_Status : string
}.
Record openAIResponsesContentPart := mkResponsesContentPart { rp_Type : string; rp_Text : string; rp_Value : string }.

(** [UnmarshalJSON]: the source text is kept with the fields. *)
Definition dec_responsesTool (raw : string) (j : json) : option openAIResponsesTool :=
  ms ← as_object j; t ← f_string "type" ms; n ← f_string "name" ms; d ← f_string "description" ms;
  Some (mkResponsesTool t n d (f_raw "parameters" ms) (f_raw "format" ms) raw).
Definition dec_responsesTools (j : json) : option (list openAIResponsesTool) :=
  match j with
  | JNull => Some []
  | JArr items => mapM (fun p => dec_responsesTool p.1 p.2) items
  | _ => None
  end.
Definition dec_responsesRequest (j : json) : option openAIResponsesRequest :=
  ms ← as_object j; m ← f_string "model" ms; i ← f_string "instructions" ms; s ← f_bool "stream" ms;
  p ← f_string "previous_response_id" ms; t ← field [] dec_responsesTools "tools" ms;
  Some (mkResponsesRequest m (f_raw "input" ms) i s p t).
Definition dec_responsesItem (j : json) : option openAIResponsesInputItem :=
  ms ← as_object j; t ← f_string "type" ms; r ← f_string "role" ms; c ← f_string "call_id" ms; n ← f_string "name" ms;
  s ← f_string "status" ms;
  Some (mkResponsesInputItem t r (f_raw "content" ms) c n (f_raw "input" ms) (f_raw "output" ms) s).
Definition dec_responsesContentPart (j : json) : option openAIResponsesContentPart :=
  ms ← as_object j; t ← f_string "type" ms; x ← f_string "text" ms;
  Some (mkResponsesContentPart t x (f_raw "value" ms)).

Definition is_text_part (t : string) : bool := (t == "input_text") || (t == "output_text") || (t == "text").

Definition parseOpenAIResponsesMessageContent (raw : string) : res (list Segment) :=
  match Unmarshal_string raw with
  | Some text => Ok [text_segment text]
  | None =>
      match (j ← Parse raw; as_list dec_responsesContentPart j) with
      | None => Err (ReqError "unsupported responses message content" [])
      | Some parts =>
          _ ← require (negb (length parts =? 0)%nat)
                (ReqError "message content must include at least one text part" []);
          fold_err (fun result part =>
            _ ← require (is_text_part (rp_Type part))
                  (ReqError "unsupported responses content part type %q" [rp_Type part]);
            Ok (result ++ [text_segment (rp_Text part)])) [] parts
      end
  end.

Definition output_segment (part : openAIResponsesContentPart) : list Segment :=
  if is_text_part (rp_Type part) then [text_segment (rp_Text part)]
  else if rp_Type part == "json" then [data_segment (mkDataPart "json" (normalizedJSONOrRaw (rp_Value part)))]
  else [].
Definition parseOpenAIResponsesFunctionOutput (raw : string) : res (list Segment) :=
  if raw == "" then Ok [] else
  match Unmarshal_string raw with
  | Some text => Ok [text_segment text]
  | None =>
      match (j ← Parse raw; as_list dec_responsesContentPart j) with
      | None => Err (ReqError "unsupported function_call_output.output" [])
      | Some parts =>
          let segments := flat_map output_segment parts in
          _ ← require (negb (length segments =? 0)%nat)
                (ReqError "function_call_output.output must include at least one supported part" []);
          Ok segments
      end
  end.

Definition parse_item (item : openAIResponsesInputItem) : res Turn :=
  if ri_Type item == "message" then
    segments ← parseOpenAIResponsesMessageContent (ri_Content item);
    Ok (mkTurn (if ri_Role item == "" then RoleUser else ri_Role item) segments)
  else if ri_Type item == "function_call" then
    Ok (mkTurn RoleAssistant [call_segment (mkSemToolCall (ri_CallID item) "function" (ri_Name item)
                                              (normalizedJSONOrRaw (ri_Input item)) "")])
  else if ri_Type item == "custom_tool_call" then
    match Unmarshal_string (ri_Input item) with
    | None => Err (ReqError "custom_tool_call.input must be string" [])
    | Some input =>
        Ok (mkTurn RoleAssistant [call_segment (mkSemToolCall (ri_CallID item) "custom" (ri_Name item) "" input)])
    end
  else if (ri_Type item == "function_call_output") || (ri_Type item == "custom_tool_call_output") then
    content ← parseOpenAIResponsesFunctionOutput (ri_Output item);
    _ ← require (ri_CallID item != "") (ReqError "function_call_output.call_id is required" []);
    Ok (mkTurn RoleTool [result_segment (mkSemToolResult (ri_CallID item)
          (if ri_Type item == "custom_tool_call_output" then "custom" else "function") content
          (ri_Status item == "error"))])
  else Err (ReqError "unsupported responses input item type %q" [ri_Type item]).

Definition parseOpenAIResponsesInput (raw : string) : res (list Turn) :=
  match Unmarshal_string raw with
  | Some text => Ok [mkTurn RoleUser [text_segment text]]
  | None =>
      match (j ← Parse raw; as_list dec_responsesItem j) with
      | None => Err (ReqError "unsupported responses input" [])
      | Some items =>
          _ ← require (negb (length items =? 0)%nat) (ReqError "input is required" []);
          fold_err (fun turns item => t ← parse_item item; Ok (turns ++ [t])) [] items
      end
  end.

Definition json_of_responsesTool (t : openAIResponsesTool) : value :=
  let omit_str name v := if v == "" then [] else [(name, VStr v)] in
  let omit_raw name v := if v == "" then [] else [(name, VRaw v)] in
  VStruct (omit_str "type" (rt_Type t) ++ [("name", VStr (rt_Name t))] ++ omit_str "description" (rt_Description t) ++
    omit_raw "parameters" (rt_Parameters t) ++ omit_raw "format" (rt_Format t)).
Definition parse_responses_tool (tools : list ToolDefinition) (tool : openAIResponsesTool) : res (list ToolDefinition) :=
  let typ := if rt_Type tool == "" then "function" else rt_Type tool in
  _ ← require ((rt_Name tool != "") || negb ((typ == "function") || (typ == "custom")))
        (ReqError "tool name is required" []);
  let name := if rt_Name tool == "" then typ else rt_Name tool in
  schema ← tool_schema "parameters" name (rt_Parameters tool);
  let raw := if rt_Raw tool == "" then
               default "" (Marshal (json_of_responsesTool
                 (mkResponsesTool typ name (rt_Description tool) (rt_Parameters tool) (rt_Format tool) "")))
             else rt_Raw tool in
  Ok (tools ++ [mkToolDefinition typ name (rt_Description tool) schema
                  (if typ == "custom" then rt_Format tool else "") raw]).
Definition parseOpenAIResponsesTools (raw : list openAIResponsesTool) : res (list ToolDefinition) :=
  fold_err parse_responses_tool [] raw.

Definition buildSemanticRequestFromResponses (req : openAIResponsesRequest) : res SemRequest :=
  turns ← parseOpenAIResponsesInput (rr_Input req);
  tools ← parseOpenAIResponsesTools (rr_Tools req);
  Ok (mkSemRequest (rr_Model req) (if rr_Instructions req == "" then [] else [text_segment (rr_Instructions req)])
        turns tools (mkGenerateOptions 0 (rr_Stream req) (rr_PreviousResponseID req) "" "" "" "" "")).
Definition buildRuntimeRequestFromResponses (req : openAIResponsesRequest) : res Request :=
  lowerSemanticRequest <$> buildSemanticRequestFromResponses req.

(** ** Answers *)

(** [json.Unmarshal(arguments, &input)], or an empty object *)
Definition arguments_value (arguments : string) : value :=
  match Unmarshal_any arguments with Some v => v | None => VMap [] end.

Definition output_part (part : ContentPart) : list value :=
  match cp_Type part with
  | ContentPartTypeText => [VMap [("type", VStr "output_text"); ("text", VStr (cp_Text part))]]
  | ContentPartTypeJSON => [VMap [("type", VStr "json"); ("value", any_or_text (cp_Data part))]]
  | ContentPartTypeOther _ => []
  end.
Definition output_message (role : string) (content : list value) : value :=
  VMap [("type", VStr "message"); ("role", VStr role); ("content", VArr content)].
Definition output_call (call : ToolCall) : value :=
  if tc_Type call == "custom" then
    VMap [("type", VStr "custom_tool_call"); ("call_id", VStr (tc_ID call)); ("name", VStr (tc_Name call));
          ("input", VStr (tc_Input call))]
  else
    VMap [("type", VStr "function_call"); ("call_id", VStr (tc_ID call)); ("name", VStr (tc_Name call));
          ("input", arguments_value (tc_Arguments call))].
Definition buildOpenAIResponsesOutput (resp : Response) : list value :=
  let msg := resp_Message resp in
  let content := flat_map output_part (msg_Parts msg) in
  let output := (if (0 <? length content)%nat then [output_message (msg_Role msg) content] else []) ++
                map output_call (msg_ToolCalls msg) in
  if (length output =? 0)%nat
  then [output_message (msg_Role msg) [VMap [("type", VStr "output_text"); ("text", VStr "")]]]
  else output.
Definition responses_usage (u : Usage) : value :=
  VMap [("input_tokens", VInt (u_InputTokens u)); ("output_tokens", VInt (u_OutputTokens u));
        ("total_tokens", VInt (u_TotalTokens u))].
Definition writeOpenAIResponsesResponse (resp : Response) : value :=
  VMap ([("id", VStr (resp_ID resp)); ("object", VStr "response"); ("model", VStr (resp_Model resp));
         ("output", VArr (buildOpenAIResponsesOutput resp))] ++
        match resp_Usage resp with Some u => [("usage", responses_usage u)] | None => [] end).

(** ** Streams *)

(** A content part: the map that frames share *)
Inductive part := PText (text : string) | PJson (v : value).
Definition part_value (p : part) : value :=
  match p with
  | PText text => VMap [("type", VStr "output_text"); ("text", VStr text); ("annotations", VArr [])]
  | PJson v => VMap [("type", VStr "json"); ("value", v)]
  end.
(** The parts at the end of the stream *)
Abbreviation heap := (list part).
Definition part_at (i : nat) (h : heap) : value := match h !! i with Some p => part_value p | None => VNull end.

(** The payload has [type] and [sequence_number] put in when the frame is appended. *)
Record openAIResponsesSSEFrame := mkRFrame { rf_event : string; rf_payload : heap -> list (string * value) }.

Record streamState := mkRState {
  rs_responseID : string;
  rs_model : string;
  rs_role : string;
  rs_parts : heap;
  rs_toolCalls : list ToolCall;
  rs_usage : option Usage;
  rs_sequence : Z;
  rs_current : option nat;   (** [currentTextIndex], [None] for -1 *)
  rs_currentText : string;
  rs_frames : list openAIResponsesSSEFrame
}.

Section frames.
Context (error_text : goerror -> string).

Definition appendFrame (event : string) (payload : heap -> list (string * value)) (s : streamState) : streamState :=
  let seq := rs_sequence s in
  mkRState (rs_responseID s) (rs_model s) (rs_role s) (rs_parts s) (rs_toolCalls s) (rs_usage s) (seq + 1)
    (rs_current s) (rs_currentText s)
    (rs_frames s ++ [mkRFrame event (fun h => payload h ++ [("type", VStr event); ("sequence_number", VInt seq)])]).
Definition set_parts (h : heap) (current : option nat) (text : string) (s : streamState) : streamState :=
  mkRState (rs_responseID s) (rs_model s) (rs_role s) h (rs_toolCalls s) (rs_usage s) (rs_sequence s) current text
    (rs_frames s).
Definition set_identity (e : StreamEvent) (s : streamState) : streamState :=
  mkRState (if ev_ResponseID e == "" then rs_responseID s else ev_ResponseID e)
    (if ev_Model e == "" then rs_model s else ev_Model e)
    (if ev_MessageRole e == "" then rs_role s else ev_MessageRole e)
    (rs_parts s) (rs_toolCalls s) (rs_usage s) (rs_sequence s) (rs_current s) (rs_currentText s) (rs_frames s).
Definition add_call (call : ToolCall) (s : streamState) : streamState :=
  mkRState (rs_responseID s) (rs_model s) (rs_role s) (rs_parts s) (rs_toolCalls s ++ [call]) (rs_usage s)
    (rs_sequence s) (rs_current s) (rs_currentText s) (rs_frames s).
Definition set_usage (u : Usage) (s : streamState) : streamState :=
  mkRState (rs_responseID s) (rs_model s) (rs_role s) (rs_parts s) (rs_toolCalls s) (Some u) (rs_sequence s)
    (rs_current s) (rs_currentText s) (rs_frames s).

Definition responseObject (s : streamState) (status : string) (output : list value) (completed : bool) : value :=
  VMap [("id", VStr (rs_responseID s)); ("object", VStr "response"); ("status", VStr status);
        ("model", VStr (rs_model s)); ("output", VArr output); ("parallel_tool_calls", VBool true);
        ("previous_response_id", VNull); ("tools", VArr []); ("metadata", VMap []);
        ("usage", match rs_usage s with Some u => responses_usage u | None => VNull end);
        ("completed_at", if completed then VInt 0 else VNull)].

(** The item has the parts there are when it is made, as they are at the end. *)
Definition messageItem (s : streamState) (status : string) (h : heap) : value :=
  let n := length (rs_parts s) in
  let content := if (n =? 0)%nat then [part_value (PText "")] else map (fun i => part_at i h) (seq 0 n) in
  VMap [("id", VStr "msg_0"); ("status", VStr status); ("type", VStr "message"); ("role", VStr (rs_role s));
        ("content", VArr content)].
Definition nonEmpty (value fallback : string) : string := if value == "" then fallback else value.
Definition functionCallItem (s : streamState) (call : ToolCall) (status : string) : value :=
  let custom := tc_Type call == "custom" in
  VMap [("id", VStr (nonEmpty (tc_ID call) ("call_" +:+ itoa (Z.of_nat (length (rs_toolCalls s))))));
        ("status", VStr status); ("type", VStr (if custom then "custom_tool_call" else "function_call"));
        ("call_id", VStr (tc_ID call)); ("name", VStr (tc_Name call));
        (if custom then ("input", VStr (tc_Input call)) else ("arguments", VStr (tc_Arguments call)))].

Definition at_part (i : nat) (more : heap -> list (string * value)) (h : heap) : list (string * value) :=
  [("output_index", VInt 0); ("item_id", VStr "msg_0"); ("content_index", VInt (Z.of_nat i))] ++ more h.

Definition finalizeTextPart (s : streamState) : streamState :=
  match rs_current s with
  | None => s
  | Some i =>
      let text := rs_currentText s in
      let s := set_parts (<[i := PText text]> (rs_parts s)) (rs_current s) text s in
      let s := appendFrame "response.output_text.done" (at_part i (fun _ => [("text", VStr text)])) s in
      let s := appendFrame "response.content_part.done" (at_part i (fun h => [("part", part_at i h)])) s in
      set_parts (rs_parts s) None "" s
  end.

Definition json_delta (data : string) (s : streamState) : streamState :=
  let s := finalizeTextPart s in
  let i := length (rs_parts s) in
  let s := set_parts (rs_parts s ++ [PJson (any_or_text data)]) (rs_current s) (rs_currentText s) s in
  let s := appendFrame "response.content_part.added" (at_part i (fun h => [("part", part_at i h)])) s in
  appendFrame "response.content_part.done" (at_part i (fun h => [("part", part_at i h)])) s.
Definition open_text (s : streamState) : streamState * nat :=
  match rs_current s with
  | Some i => (s, i)
  | None =>
      let i := length (rs_parts s) in
      let s := set_parts (rs_parts s ++ [PText ""]) (Some i) "" s in
      (appendFrame "response.content_part.added" (at_part i (fun h => [("part", part_at i h)])) s, i)
  end.
Definition text_delta (text : string) (s : streamState) : streamState :=
  let '(s, i) := open_text s in
  let s := set_parts (rs_parts s) (Some i) (rs_currentText s +:+ text) s in
  appendFrame "response.output_text.delta" (at_part i (fun _ => [("delta", VStr text)])) s.

Definition tool_call (index : Z) (call : ToolCall) (s : streamState) : streamState :=
  let s := add_call call (finalizeTextPart s) in
  let itemID := nonEmpty (tc_ID call) ("call_" +:+ itoa index) in
  let custom := tc_Type call == "custom" in
  let item := VMap [("id", VStr itemID); ("status", VStr "in_progress");
                    ("type", VStr (if custom then "custom_tool_call" else "function_call"));
                    ("call_id", VStr (tc_ID call)); ("name", VStr (tc_Name call));
                    (if custom then ("input", VStr (tc_Input call)) else ("arguments", VStr ""))] in
  let at_index more := [("output_index", VInt (i64 (1 + index)))] ++ more in
  let s := appendFrame "response.output_item.added" (fun _ => at_index [("item", item)]) s in
  let s := if custom then s else
    appendFrame "response.function_call_arguments.done"
      (fun _ => at_index [("item_id", VStr itemID); ("name", VStr (tc_Name call)); ("arguments", VStr (tc_Arguments call))]) s in
  appendFrame "response.output_item.done" (fun _ => at_index [("item", functionCallItem s call "completed")]) s.

Definition message_end (s : streamState) : streamState :=
  let s := finalizeTextPart s in
  let output h :=
    (if (0 <? length (rs_parts s))%nat || (length (rs_toolCalls s) =? 0)%nat then [messageItem s "completed" h] else []) ++
    map (fun call => functionCallItem s call "completed") (rs_toolCalls s) in
  let s' := appendFrame "response.output_item.done"
              (fun h => [("output_index", VInt 0); ("item", messageItem s "completed" h)]) s in
  appendFrame "response.completed" (fun h => [("response", responseObject s "completed" (output h) true)]) s'.

Definition response_step (s : streamState) (e : StreamEvent) : streamState :=
  let s := set_identity e s in
  match ev_Type e with
  | StreamEventMessageStart =>
      appendFrame "response.output_item.added" (fun _ =>
        [("output_index", VInt 0);
         ("item", VMap [("id", VStr "msg_0"); ("status", VStr "in_progress"); ("type", VStr "message");
                        ("role", VStr (rs_role s)); ("content", VArr [])])]) s
  | StreamEventContentDelta =>
      let s := match ev_Delta e with
               | Some delta =>
                   match cp_Type delta with
                   | ContentPartTypeJSON => json_delta (cp_Data delta) s
                   | _ => text_delta (cp_Text delta) s
                   end
               | None => s
               end in
      match ev_ToolCall e with Some call => tool_call (ev_ToolCallIndex e) call s | None => s end
  | StreamEventUsage =>
      match ev_Usage e with
      | Some u => appendFrame "response.usage" (fun _ => [("usage", responses_usage u)]) (set_usage u s)
      | None => s
      end
  | StreamEventMessageEnd => message_end s
  | StreamEventError =>
      appendFrame "error" (fun _ => [("message", VStr (stream_error_message error_text (ev_Err e)))]) s
  | StreamEventOther _ => s
  end.

Definition response_start (plannedModel : string) : streamState :=
  let s := mkRState "" plannedModel MessageRoleAssistant [] [] None 1 None "" [] in
  let opening s := fun _ : heap => [("response", responseObject s "in_progress" [] false)] in
  let s' := appendFrame "response.created" (opening s) s in
  appendFrame "response.in_progress" (opening s) s'.

(** The frames with their payloads as they are written *)
Definition openAIResponsesStreamFrames (plannedModel : string) (events : list StreamEvent) : list anthropicSSEFrame :=
  let s := foldl response_step (response_start plannedModel) events in
  map (fun f => mkFrame (rf_event f) (VMap (rf_payload f (rs_parts s)))) (rs_frames s).

Definition handleOpenAIResponsesStreaming (plannedModel : string) (events : list StreamEvent) : string :=
  write_all (fun f => writeOpenAIResponsesSSE (fr_event f) (fr_payload f)) ""
    (openAIResponsesStreamFrames plannedModel events).
End frames.
