(* ===== verification/GatewayCodecs.v ===== *)
(** * The inbound codecs

    Models the reading of requests and the writing of answers and errors of
    [internal/gateway]: [openai_chat_codec.go], [anthropic_messages_codec.go], and the
    error half of [handler.go].

    A reply is its status, the headers set beside the content type, and its body: a
    value to marshal, or the writes of a stream. *)

From S2P Require Import Prelude GoStrings GoTime ProviderErrors RuntimeModel GoJson HttpTime QuotaWindow QuotaTracker QuotaEvents RuntimeRequest EventStream GatewayStream GatewayResponses.

#[local] Arguments String.append !_ _ /.

(** ** Reading requests *)

Definition dec_inboundFunction (j : json) : option (string * string) :=
  ms ← as_object j; n ← f_string "name" ms; a ← f_string "arguments" ms; Some (n, a).
Definition dec_inboundToolCall (j : json) : option inboundToolCall :=
  ms ← as_object j; id ← f_string "id" ms; t ← f_string "type" ms;
  '(n, a) ← field ("", "") dec_inboundFunction "function" ms; Some (mkInboundToolCall id t n a).
Definition dec_inboundMessage (j : json) : option inboundMessage :=
  ms ← as_object j; r ← f_string "role" ms; c ← f_list dec_inboundToolCall "tool_calls" ms;
  id ← f_string "tool_call_id" ms; Some (mkInboundMessage r (f_raw "content" ms) c id).
Definition dec_inboundToolDefinition (j : json) : option inboundToolDefinition :=
  ms ← as_object j; n ← f_string "name" ms; d ← f_string "description" ms;
  Some (mkInboundToolDefinition n d (f_raw "input_schema" ms)).
Definition dec_chatFunction (j : json) : option (string * string * string) :=
  ms ← as_object j; n ← f_string "name" ms; d ← f_string "description" ms; Some (n, d, f_raw "parameters" ms).
Definition dec_chatTool (j : json) : option openAIChatToolDefinition :=
  ms ← as_object j; t ← f_string "type" ms; '(n, d, p) ← field ("", "", "") dec_chatFunction "function" ms;
  Some (mkOpenAIChatToolDefinition t n d p).

(** The two request formats differ in their tools. *)
Definition dec_request {T} (dec_tool : json -> option T) (j : json) : option (inboundRequest * list T) :=
  ms ← as_object j; m ← f_string "model" ms; n ← f_int "max_tokens" ms; msgs ← f_list dec_inboundMessage "messages" ms;
  tools ← f_list dec_tool "tools" ms; s ← f_bool "stream" ms; p ← f_string "previous_response_id" ms;
  Some (mkInboundRequest m (f_raw "system" ms) n msgs [] (f_raw "tool_choice" ms) s p (f_raw "metadata" ms)
          (f_raw "thinking" ms) (f_raw "context_management" ms) (f_raw "output_config" ms), tools).
Definition with_tools (req : inboundRequest) (tools : list inboundToolDefinition) : inboundRequest :=
  mkInboundRequest (ir_Model req) (ir_System req) (ir_MaxTokens req) (ir_Messages req) tools (ir_ToolChoice req)
    (ir_Stream req) (ir_PreviousResponseID req) (ir_Metadata req) (ir_Thinking req) (ir_ContextManagement req)
    (ir_OutputConfig req).

Inductive protocol := OpenAIChat | OpenAIResponses | AnthropicMessages.

(** What is wrong with a body: the text of the 400 answer *)
Definition bad (msg : string) : requestError := ReqError msg [].
Definition require_model (model : string) : res unit := require (model != "") (bad "model is required").

Definition read_request (p : protocol) (body : string) : res Request :=
  match p with
  | OpenAIChat =>
      match (j ← Parse body; dec_request dec_chatTool j) with
      | None => Err (bad "invalid json body")
      | Some (req, tools) =>
          _ ← require_model (ir_Model req);
          _ ← require (negb (length (ir_Messages req) =? 0)%nat) (bad "messages is required");
          buildRuntimeRequestFromOpenAIChat req tools
      end
  | AnthropicMessages =>
      match (j ← Parse body; dec_request dec_inboundToolDefinition j) with
      | None => Err (bad "invalid json body")
      | Some (req, tools) =>
          _ ← require_model (ir_Model req);
          _ ← require (negb (length (ir_Messages req) =? 0)%nat) (bad "messages is required");
          buildRuntimeRequest (with_tools req tools)
      end
  | OpenAIResponses =>
      match (j ← Parse body; dec_responsesRequest j) with
      | None => Err (bad "invalid json body")
      | Some req =>
          _ ← require_model (rr_Model req);
          _ ← require (rr_Input req != "") (bad "input is required");
          buildRuntimeRequestFromResponses req
      end
  end.

(** ** Writing answers *)

Definition anthropic_part (part : ContentPart) : list value :=
  match cp_Type part with
  | ContentPartTypeText => [VMap [("type", VStr "text"); ("text", VStr (cp_Text part))]]
  | ContentPartTypeJSON => [VMap [("type", VStr "json"); ("value", any_or_text (cp_Data part))]]
  | ContentPartTypeOther _ => []
  end.
Definition anthropic_call (call : ToolCall) : value :=
  VMap [("type", VStr "tool_use"); ("id", VStr (tc_ID call)); ("name", VStr (tc_Name call));
        ("input", arguments_value (tc_Arguments call))].
Definition writeAnthropicMessageResponse (resp : Response) : value :=
  let msg := resp_Message resp in
  let content := flat_map anthropic_part (msg_Parts msg) ++ map anthropic_call (msg_ToolCalls msg) in
  let content := if (length content =? 0)%nat then [VMap [("type", VStr "text"); ("text", VStr "")]] else content in
  VMap ([("id", VStr (resp_ID resp)); ("type", VStr "message"); ("role", VStr (msg_Role msg));
         ("model", VStr (resp_Model resp)); ("content", VArr content);
         ("stop_reason", VStr (anthropicStopReason (resp_FinishReason resp)))] ++
        match resp_Usage resp with
        | Some u => [("usage", VMap [("input_tokens", VInt (u_InputTokens u)); ("output_tokens", VInt (u_OutputTokens u))])]
        | None => []
        end).

Fixpoint first_text (parts : list ContentPart) : string :=
  match parts with
  | [] => ""
  | part :: parts => match cp_Type part with ContentPartTypeText => cp_Text part | _ => first_text parts end
  end.
Definition firstTextPart (msg : Message) : string := first_text (msg_Parts msg).

Definition chat_call (call : ToolCall) : value :=
  VMap [("id", VStr (tc_ID call)); ("type", VStr "function");
        ("function", VMap [("name", VStr (tc_Name call)); ("arguments", VStr (tc_Arguments call))])].
Definition writeOpenAIChatResponse (resp : Response) : value :=
  let msg := resp_Message resp in
  let text := firstTextPart msg in
  let has_calls := (0 <? length (msg_ToolCalls msg))%nat in
  let message :=
    [("role", VStr (msg_Role msg)); ("content", if has_calls && (text == "") then VNull else VStr text)] ++
    (if has_calls then [("tool_calls", VArr (map chat_call (msg_ToolCalls msg)))] else []) ++
    (if msg_ToolCallID msg == "" then [] else [("tool_call_id", VStr (msg_ToolCallID msg))]) in
  VMap ([("id", VStr (resp_ID resp)); ("object", VStr "chat.completion"); ("model", VStr (resp_Model resp));
         ("choices", VArr [VMap [("index", VInt 0); ("message", VMap message);
                                 ("finish_reason", VStr (openAIFinishReason (resp_FinishReason resp)))]])] ++
        match resp_Usage resp with Some u => [("usage", chat_usage u)] | None => [] end).

Definition write_response (p : protocol) (resp : Response) : value :=
  match p with
  | OpenAIChat => writeOpenAIChatResponse resp
  | OpenAIResponses => writeOpenAIResponsesResponse resp
  | AnthropicMessages => writeAnthropicMessageResponse resp
  end.

(** ** Replies and errors *)

(** The body of a stream is its writes. *)
Inductive body := BodyJSON (v : value) | BodyStream (writes : list string).
Record reply := mkReply { rp_Status : Z; rp_Headers : list (string * string); rp_Body : body }.

Definition StatusOK := 200.
Definition StatusBadRequest := 400.
Definition StatusUnauthorized := 401.
Definition StatusNotFound := 404.
Definition StatusMethodNotAllowed := 405.
Definition StatusTooManyRequests := 429.
Definition StatusInternalServerError := 500.
Definition StatusBadGateway := 502.

Definition writeJSON (status : Z) (v : value) : reply := mkReply status [] (BodyJSON v).
Definition writeError (status : Z) (message : string) : reply := writeJSON status (VMap [("error", VStr message)]).

Record executionErrorResponse := mkExecutionError {
  ee_StatusCode : Z;
  ee_Message : string;
  ee_Type : string;
  ee_Code : string;
  ee_RequestID : string;
  ee_RetryAfter : string
}.

Definition safeExecutionMetadata (value : string) : string :=
  let value := TrimSpace value in
  if (value == "") || (256 <? len value)%nat || ContainsAny value [byte 13; byte 10] then "" else value.

Section errors.
Context (error_text : goerror -> string) (lookupName : string -> Z -> option Z).

Definition safeExecutionRetryAfter (value : string) : string :=
  let value := safeExecutionMetadata value in
  if value == "" then "" else
  match ParseUint value with
  | Some seconds => itoa seconds
  | None => match ParseTime lookupName value with Some retryAt => format_http retryAt | None => "" end
  end.

(** The status, the text, the type and the code by the kind of the error *)
Definition error_table (err : goerror) : Z * string * string * string :=
  let kind := NormalizeError (Some err) in
  match kind with
  | ErrorKindQuotaExceeded =>
      (StatusTooManyRequests, "upstream quota exceeded", "rate_limit_error", "rate_limit_exceeded")
  | ErrorKindRetryable | ErrorKindTimeout | ErrorKindUpstreamServerError =>
      (StatusBadGateway, "upstream temporarily unavailable", "api_error", kind_string kind)
  | ErrorKindAuthFailed => (StatusBadGateway, "upstream authentication failed", "authentication_error", kind_string kind)
  | ErrorKindCapabilityUnsupported => (StatusBadGateway, error_text err, "invalid_request_error", kind_string kind)
  | ErrorKindModelUnavailable => (StatusNotFound, error_text err, "invalid_request_error", "model_not_found")
  | ErrorKindFatal => (StatusBadGateway, "upstream request failed", "api_error", kind_string kind)
  | ErrorKindUnknown => (StatusInternalServerError, "internal server error", "api_error", "internal_error")
  end.

Definition gatewayError (err : goerror) : executionErrorResponse :=
  let '(status, message, typ, code) := error_table err in
  let '(requestID, retryAfter) :=
    match AsProviderError err with
    | Some (_, _, rid, ra) => (safeExecutionMetadata rid, safeExecutionRetryAfter ra)
    | None => ("", "")
    end in
  mkExecutionError status
    (if requestID == "" then message else message +:+ " (request_id: " +:+ requestID +:+ ")")
    typ code requestID retryAfter.

Definition request_id_header (p : option protocol) : option string :=
  match p with
  | Some AnthropicMessages => Some "request-id"
  | Some OpenAIChat | Some OpenAIResponses => Some "x-request-id"
  | None => None
  end.
(** [p] is [None] for a protocol of another name. *)
Definition writeExecutionError (p : option protocol) (err : goerror) : reply :=
  let response := gatewayError err in
  let headers :=
    (if ee_RequestID response == "" then [] else
       match request_id_header p with Some name => [(name, ee_RequestID response)] | None => [] end) ++
    (if ee_RetryAfter response == "" then [] else [("Retry-After", ee_RetryAfter response)]) in
  let '(mkReply status _ body) :=
    match p with
    | Some AnthropicMessages =>
        writeJSON (ee_StatusCode response)
          (VMap [("type", VStr "error");
                 ("error", VMap [("type", VStr (ee_Type response)); ("message", VStr (ee_Message response))])])
    | Some _ =>
        writeJSON (ee_StatusCode response)
          (VMap [("error", VMap [("message", VStr (ee_Message response)); ("type", VStr (ee_Type response));
                                 ("code", VStr (ee_Code response))])])
    | None => writeError (ee_StatusCode response) (ee_Message response)
    end in
  mkReply status headers body.

Definition writeRoutingError (p : option protocol) (err : goerror) : reply :=
  if bool_decide (NormalizeError (Some err) = ErrorKindUnknown)
  then writeError StatusBadRequest (error_text err)
  else writeExecutionError p err.

(** The text of a request error, rendered *)
Context (request_error_text : requestError -> string).
Definition write_bad_request (err : requestError) : reply := writeError StatusBadRequest (request_error_text err).
End errors.

Definition formatRetryAfter (value : Time) : string := if IsZero value then "" else format_rfc3339nano value.

(** A [json.Number] is written as it is. *)
Definition amount_value (a : amount) : value :=
  match a with AInt n => VInt n | ANumber text => VRaw text end.
Definition window_value (w : BlockingWindow) : value :=
  VStruct [("window", VStr (bw_Window w)); ("type", VStr (bw_Type w)); ("limit", amount_value (bw_Limit w));
           ("used", amount_value (bw_Used w)); ("unit", VStr (bw_Unit w)); ("retry_after", VStr (bw_RetryAfter w))].
Definition writeClientQuotaError (clientName inboundName : string) (decision : Decision) : reply :=
  writeJSON StatusTooManyRequests
    (VMap [("error", VStr "client quota exceeded"); ("type", VStr EventClientLimited);
           ("code", VStr "client_quota_exceeded"); ("quota_subject", VStr clientName); ("inbound", VStr inboundName);
           ("reason", VStr (d_Reason decision)); ("retry_after", VStr (formatRetryAfter (d_RetryAfter decision)));
           ("blocking_windows", match d_BlockingWindows decision with
                                | [] => VNull
                                | windows => VArr (map window_value windows)
                                end)]).

Definition plannedModel (plan : ExecutionPlan) : string :=
  match plan_Steps plan with [] => "" | step :: _ => st_Model step end.
