(* ===== verification/Gateway.v ===== *)
(** * The gateway

    Models the request path of [internal/gateway/handler.go] ([handleRequest],
    [matchInbound], [bearerToken], [withRequestContext], the client quota calls,
    [planRequest], [handleByCodec]), the flow of the three codecs' [Handle],
    [dispatchOrWriteError] ([codecs.go]), the streaming handlers ([streaming.go]) and
    [InboundRegistry] ([registry.go]).

    The handler shares its runtime with the reload manager, which may swap it at any
    time: each [runtimeState()] is a call that answers some runtime, not always the same.
    So are the clock, the session store, the client quota tracker, the router and the
    dispatcher.  A call of the dispatcher answers its own trace with its outcome;
    [GatewayFacts.answered] says which answers the components can give.

    Logging, and the debug files that environment variables ask for, are left out. *)

From S2P Require Import Prelude GoStrings GoTime ProviderErrors RuntimeModel GoJson HttpTime ConfigTypes ConfigResources QuotaWindow QuotaTracker QuotaEvents Latency Router ConfigValidate Sessions Dispatcher AppRuntime Reload RuntimeRequest EventStream GatewayStream GatewayResponses GatewayCodecs Program.

(** ** The registry of codecs

    A codec is its protocol. *)

Record InboundRegistry := mkInboundRegistry { codecs : gmap string protocol }.

Definition NewInboundRegistry : InboundRegistry := mkInboundRegistry ∅.

(** [None] is the nil codec. *)
Definition RegisterCodec (r : InboundRegistry) (name : string) (codec : option protocol)
    : result appError InboundRegistry :=
  if name == "" then Err (AppErr "inbound protocol is required" []) else
  match codec with
  | None => Err (AppErr "inbound codec %q is nil" [name])
  | Some codec =>
      match codecs r !! name with
      | Some _ => Err (AppErr "inbound codec %q already registered" [name])
      | None => Ok (mkInboundRegistry (<[name := codec]> (codecs r)))
      end
  end.
Definition GetCodec (r : InboundRegistry) (name : string) : option protocol := codecs r !! name.
Definition HasCodec (r : InboundRegistry) (name : string) : bool := is_some (codecs r !! name).
Definition InboundProtocols (r : InboundRegistry) : list string :=
  sort_by String.ltb (map fst (map_to_list (codecs r))).

(** Three different names: no registration panics. *)
Definition newDefaultInboundRegistry : result appError InboundRegistry :=
  r ← RegisterCodec NewInboundRegistry "openai_chat" (Some OpenAIChat);
  r ← RegisterCodec r "openai_responses" (Some OpenAIResponses);
  RegisterCodec r "anthropic_messages" (Some AnthropicMessages).
Definition DefaultInboundRegistry : InboundRegistry :=
  match newDefaultInboundRegistry with Ok r => r | Err _ => NewInboundRegistry end.

Example default_codecs :
  InboundProtocols DefaultInboundRegistry = ["anthropic_messages"; "openai_chat"; "openai_responses"].
Proof. vm_compute. reflexivity. Qed.

(** ** Requests and the runtime *)

(** [hr_Header] is [r.Header.Get]; a body of [None] cannot be read. *)
Record httpRequest := mkHTTPRequest {
  hr_Method : string;
  hr_Path : string;
  hr_Header : string -> string;
  hr_Body : option string
}.

(** Whether a handler's runtime has a tracker of the clients' quotas *)
Definition v_clientQuota (v : RuntimeState) : bool := is_some (rs_ClientQuotaTracker v).

(** ** Calls *)

Inductive gatewayCall : Type -> Type :=
| GNow : gatewayCall Time
| LoadRuntime : gatewayCall RuntimeState
| StartTrace (requestID method path : string) (startedAt : Time) : gatewayCall unit
| TraceMethod (m : method) : gatewayCall unit
| FinishTrace (status : Z) (finishedAt : Time) : gatewayCall unit
| SessionGetOwned (id clientName inboundName : string) : gatewayCall (option Session)
| SessionLatest (clientName inboundName : string) : gatewayCall (option Session)
| ClientBefore (clientName : string) : gatewayCall Decision
| ClientRecord (clientName : string) : gatewayCall unit
| ClientLimited (e : QuotaEvents.Event) : gatewayCall unit
| RouterPlan (r : Router) (rc : RouteContext) : gatewayCall (result goerror ExecutionPlan)
| RunDispatch (d : Dispatcher) (ctx : Context_) (req : Request) (plan : ExecutionPlan)
    : gatewayCall (list Dispatcher.event * outcome Response)
| RunStream (d : Dispatcher) (ctx : Context_) (req : Request) (plan : ExecutionPlan)
    : gatewayCall (list Dispatcher.event * outcome (list StreamEvent)).

(** A call with its answer *)
Inductive gatewayEvent :=
| GENow (t : Time)
| GELoad (v : RuntimeState)
| GEStart (requestID method path : string) (startedAt : Time)
| GETrace (m : method)
| GEFinish (status : Z) (finishedAt : Time)
| GEOwned (id clientName inboundName : string) (s : option Session)
| GELatest (clientName inboundName : string) (s : option Session)
| GEBefore (clientName : string) (d : Decision)
| GERecord (clientName : string)
| GELimited (e : QuotaEvents.Event)
| GEPlan (r : Router) (rc : RouteContext) (p : result goerror ExecutionPlan)
| GEDispatch (d : Dispatcher) (ctx : Context_) (req : Request) (plan : ExecutionPlan)
    (tr : list Dispatcher.event) (o : outcome Response)
| GEStream (d : Dispatcher) (ctx : Context_) (req : Request) (plan : ExecutionPlan)
    (tr : list Dispatcher.event) (o : outcome (list StreamEvent)).

Definition gobserve (B : Type) (c : gatewayCall B) : B -> gatewayEvent :=
  match c in gatewayCall B return B -> gatewayEvent with
  | GNow => GENow
  | LoadRuntime => GELoad
  | StartTrace id m p t => fun _ => GEStart id m p t
  | TraceMethod m => fun _ => GETrace m
  | FinishTrace s t => fun _ => GEFinish s t
  | SessionGetOwned id c i => GEOwned id c i
  | SessionLatest c i => GELatest c i
  | ClientBefore c => GEBefore c
  | ClientRecord c => fun _ => GERecord c
  | ClientLimited e => fun _ => GELimited e
  | RouterPlan r rc => GEPlan r rc
  | RunDispatch d ctx req plan => fun a => GEDispatch d ctx req plan a.1 a.2
  | RunStream d ctx req plan => fun a => GEStream d ctx req plan a.1 a.2
  end.

Abbreviation gw := (prog gatewayCall).

(** How the handler leaves a request: answered, panicking, or waiting for ever on the nil
    channel that [DispatchStream] returns with a nil error *)
Inductive handled := Replied (r : reply) | Panics | Blocks.

(** ** Authentication *)

Definition bearerToken (header : string) : string :=
  if negb (HasPrefix header "Bearer ") then "" else TrimSpace (TrimPrefix header "Bearer ").

(** [config.Config{Clients: clients, Inbounds: inbounds}] *)
Definition clients_config (clients : list ClientSpec) (inbounds : list InboundSpec) : Config :=
  mkConfig (mkServerConfig "") [] clients inbounds (mkRoutingConfig []) []
    (mkAccountingConfig false "" false "" (mkAccountingLocalFileConfig "" 0 0 "" 0 0 "" 0) [])
    (mkGovernanceConfig (mkGovernanceQuotaConfig (mkGovernanceQuotaSnapshotConfig false "" "")
                                                 (mkGovernanceQuotaEventsConfig false 0)))
    (mkSessionsConfig (mkSessionSnapshotConfig None "" "")) (mkOAuthConfig "")
    (mkAdminConfig false "" (mkAdminLogsConfig false "" 0 (mkAdminLogsRotationConfig 0 0 0 0 None))).

(** The loops of [matchInbound], over the runtime it loaded *)
Definition has_token (token : string) (c : ResolvedClientBinding) : bool := cs_Token (rcb_Client c) == token.
Fixpoint match_inbound (cfg : Config) (path token : string) (inbounds : list InboundSpec)
    : option (InboundSpec * ResolvedClientBinding) :=
  match inbounds with
  | [] => None
  | inbound :: inbounds =>
      if in_Path inbound != path then match_inbound cfg path token inbounds
      else match List.find (has_token token) (ResolveInboundClients cfg inbound) with
           | Some client => Some (inbound, client)
           | None => match_inbound cfg path token inbounds
           end
  end.
Definition match_state (s : RuntimeState) (path token : string) : option (InboundSpec * ResolvedClientBinding) :=
  match_inbound (clients_config (rs_Clients s) []) path token (rs_Inbounds s).

Definition matchInbound (r : httpRequest) : gw (option (InboundSpec * ResolvedClientBinding)) :=
  let token := bearerToken (hr_Header r "Authorization") in
  if token == "" then mret None
  else v ← perform LoadRuntime; mret (match_state v (hr_Path r) token).

(** ** The request's context *)

(** The identifier of a session and the agent *)
Definition session_agent (agent : string) (s : option Session) : string * string :=
  match s with
  | Some s => (id_ID (sn_identity s),
               if (agent == "") then default "" (head (id_Command (sn_identity s))) else agent)
  | None => ("", agent)
  end.
Definition withRequestContext (requestID : string) (r : httpRequest) (inbound : InboundSpec)
    (resolved : ResolvedClientBinding) : gw Context_ :=
  let explicitSessionID := TrimSpace (hr_Header r "X-Syrogo-Session-ID") in
  let agent := TrimSpace (hr_Header r "X-Syrogo-Agent") in
  let client := cs_Name (rcb_Client resolved) in
  s ← (if explicitSessionID != "" then perform (SessionGetOwned explicitSessionID client (in_Name inbound))
       else perform (SessionLatest client (in_Name inbound)));
  let '(sessionID, agent) := session_agent agent s in
  mret (mkContext requestID sessionID agent).

(** ** The client quota *)

Definition beforeClientRequest (clientName : string) : gw Decision :=
  v ← perform LoadRuntime;
  if v_clientQuota v then perform (ClientBefore clientName) else mret allowed.
Definition recordClientRequest (clientName : string) : gw unit :=
  v ← perform LoadRuntime; when (v_clientQuota v) (perform (ClientRecord clientName)).
Definition recordClientLimited (clientName inboundName : string) (decision : Decision) : gw unit :=
  v ← perform LoadRuntime;
  when (is_some (rs_EventRecorder v))
    (perform (ClientLimited (QuotaEvents.mkEvent "" EventClientLimited clientName inboundName "" (d_Reason decision)
                               (formatRetryAfter (d_RetryAfter decision))))).

(** ** Planning and dispatching *)

Definition recordSpan (name : string) (startedAt : Time) (attrs : gmap string string) : gw unit :=
  now ← perform GNow; perform (TraceMethod (MAddSpan name startedAt attrs now)).

Definition planRequest (req : Request) (inbound : InboundSpec) (client : ResolvedClientBinding)
    : gw (result goerror ExecutionPlan) :=
  let tag := cb_Tag (rcb_Binding client) in
  startedAt ← perform GNow;
  v ← perform LoadRuntime;
  p ← perform (RouterPlan (rs_Router v)
        (mkRouteContext req (cs_Name (rcb_Client client)) (in_Name inbound) (in_Protocol inbound) tag));
  let attrs : gmap string string := {[ "inbound" := in_Name inbound; "active_tag" := tag ]} in
  match p with
  | Ok plan =>
      match plan_Steps plan with
      | [] => _ ← recordSpan "route_plan" startedAt attrs; mret p
      | step :: _ =>
          _ ← perform (TraceMethod (MSetPlan plan));
          _ ← recordSpan "route_plan" startedAt
                (<["outbound" := st_OutboundName step]> (<["matched_rule" := plan_MatchedRule plan]> attrs));
          mret p
      end
  | Err _ => _ ← recordSpan "route_plan" startedAt attrs; mret p
  end.

Section handler.
(** The texts of errors, the time zones' names, the order in which [range] visits a map,
    the local time zone, and the codecs registered *)
Context (error_text : goerror -> string) (request_error_text : requestError -> string)
  (lookupName : string -> Z -> option Z) (range : gmap Z Z -> list (Z * Z)) (local : Location)
  (registry : InboundRegistry).

Definition protocol_named (name : string) : option protocol :=
  if name == "openai_chat" then Some OpenAIChat
  else if name == "openai_responses" then Some OpenAIResponses
  else if name == "anthropic_messages" then Some AnthropicMessages
  else None.

Definition zero_response : Response :=
  mkResponse "" "" "" (mkMessage "" [] [] "" "" false) FinishReasonEmpty None.

Definition dispatchOrWriteError (ctx : Context_) (req : Request) (plan : ExecutionPlan) (p : protocol) : gw handled :=
  v ← perform LoadRuntime;
  a ← perform (RunDispatch (rs_Dispatcher v) ctx req plan);
  match a.2 with
  | Panicked => mret Panics
  | Failed (Some err) =>
      _ ← perform (TraceMethod (MSetErrorKind (kind_string (NormalizeError (Some err)))));
      mret (Replied (writeExecutionError error_text lookupName (protocol_named (plan_InboundProtocol plan)) err))
  | Failed None => mret (Replied (writeJSON StatusOK (write_response p zero_response)))
  | Returned resp => mret (Replied (writeJSON StatusOK (write_response p resp)))
  end.

(** The writes of a stream: one for the data of a frame, one before it for its event *)
Fixpoint write_frames {A} (write : A -> option (list string)) (last : list string) (l : list A) : list string :=
  match l with
  | [] => last
  | x :: l => match write x with Some texts => texts ++ write_frames write last l | None => [] end
  end.
Definition frame_writes (f : anthropicSSEFrame) : option (list string) :=
  (fun data => [event_line (fr_event f); data_line data]) <$> Marshal (fr_payload f).
Definition stream_writes (p : protocol) (model : string) (events : list StreamEvent) : list string :=
  match p with
  | OpenAIChat =>
      write_frames (fun c => (fun text => [text]) <$> writeOpenAISSE c) [data_line "[DONE]"]
        (chat_chunks error_text ∅ events)
  | OpenAIResponses => write_frames frame_writes [] (openAIResponsesStreamFrames error_text model events)
  | AnthropicMessages =>
      write_frames frame_writes [event_line "done" +:+ data_line "{}"]
        (anthropicStreamFramesFromEventStream error_text (EventStreamFromRuntime range events))
  end.

Definition stream_headers : list (string * string) :=
  [("Content-Type", "text/event-stream"); ("Cache-Control", "no-cache"); ("Connection", "keep-alive")].

(** The three streaming handlers; the response writer can always flush. *)
Definition handleStreaming (ctx : Context_) (req : Request) (plan : ExecutionPlan) (p : protocol) : gw handled :=
  v ← perform LoadRuntime;
  a ← perform (RunStream (rs_Dispatcher v) ctx req plan);
  match a.2 with
  | Panicked => mret Panics
  | Failed (Some err) =>
      mret (Replied (writeExecutionError error_text lookupName (protocol_named (plan_InboundProtocol plan)) err))
  | Failed None => mret Blocks
  | Returned events =>
      mret (Replied (mkReply StatusOK stream_headers (BodyStream (stream_writes p (plannedModel plan) events))))
  end.

(** ** The codecs *)

Definition MethodPost := "POST".

Definition Handle (p : protocol) (ctx : Context_) (r : httpRequest) (inbound : InboundSpec)
    (client : ResolvedClientBinding) : gw handled :=
  if hr_Method r != MethodPost then mret (Replied (writeError StatusMethodNotAllowed "method not allowed")) else
  match hr_Body r with
  | None => mret (Replied (writeError StatusBadRequest "invalid json body"))
  | Some body =>
      match read_request p body with
      | Err e => mret (Replied (write_bad_request request_error_text e))
      | Ok req =>
          planned ← planRequest req inbound client;
          match planned with
          | Err err =>
              mret (Replied (writeRoutingError error_text lookupName (protocol_named (in_Protocol inbound)) err))
          | Ok plan =>
              if req_Stream req then handleStreaming ctx req plan p
              else dispatchOrWriteError ctx req plan p
          end
      end
  end.

(** What [Handle] and the streaming handler are for each codec *)
Definition openAIChat_Handle := Handle OpenAIChat.
Definition openAIResponses_Handle := Handle OpenAIResponses.
Definition anthropicMessages_Handle := Handle AnthropicMessages.
Definition handleOpenAIStreaming (ctx : Context_) (req : Request) (plan : ExecutionPlan) : gw handled :=
  handleStreaming ctx req plan OpenAIChat.
Definition handleAnthropicStreaming (ctx : Context_) (req : Request) (plan : ExecutionPlan) : gw handled :=
  handleStreaming ctx req plan AnthropicMessages.

Definition handleByCodec (ctx : Context_) (r : httpRequest) (inbound : InboundSpec)
    (client : ResolvedClientBinding) : gw handled :=
  match GetCodec registry (in_Protocol inbound) with
  | None => mret (Replied (writeError StatusNotFound "unsupported inbound protocol"))
  | Some p => Handle p ctx r inbound client
  end.

(** ** Answering *)

(** The writes of a reply: an encoder writes a value at once, and nothing if it fails. *)
Definition reply_writes (b : body) : list string :=
  match b with
  | BodyJSON v => match Marshal v with Some text => [text +:+ newline] | None => [] end
  | BodyStream texts => texts
  end.
(** [loggingResponseWriter.Write] *)
Fixpoint write_reply (texts : list string) : gw unit :=
  match texts with
  | [] => mret tt
  | _ :: texts => startedAt ← perform GNow; _ ← recordSpan "egress_write" startedAt ∅; write_reply texts
  end.

(** [startedAt.Format("20060102-150405.000000000")] *)
Definition request_id (startedAt : Time) : string :=
  let c := civil_in local startedAt in
  format_year (c_year c) +:+ fixed_digits 2 (c_month c) +:+ fixed_digits 2 (c_day c) +:+ "-" +:+
  fixed_digits 2 (c_hour c) +:+ fixed_digits 2 (c_min c) +:+ fixed_digits 2 (c_sec c) +:+ "." +:+
  fixed_digits 9 (c_nsec c).

(** The request between [latency.Start] and [Finish] *)
Definition serve (requestID : string) (r : httpRequest) : gw handled :=
  m ← matchInbound r;
  match m with
  | None => mret (Replied (writeError StatusUnauthorized "invalid token or inbound"))
  | Some (inbound, client) =>
      let name := cs_Name (rcb_Client client) in
      _ ← perform (TraceMethod (MSetRoute (in_Name inbound) (in_Protocol inbound) name (cb_Tag (rcb_Binding client))));
      ctx ← withRequestContext requestID r inbound client;
      decision ← beforeClientRequest name;
      if negb (d_Allowed decision) then
        _ ← recordClientLimited name (in_Name inbound) decision;
        mret (Replied (writeClientQuotaError name (in_Name inbound) decision))
      else
        _ ← recordClientRequest name;
        handleByCodec ctx r inbound client
  end.

(** [handleRequest] past its table of paths.  A panic finds the writer's first status, and
    [Finish], which is deferred, runs on it too. *)
Definition handleRequest (r : httpRequest) : gw handled :=
  startedAt ← perform GNow;
  let requestID := request_id startedAt in
  _ ← perform LoadRuntime;
  _ ← perform (StartTrace requestID (hr_Method r) (hr_Path r) startedAt);
  h ← serve requestID r;
  match h with
  | Blocks => mret Blocks
  | Panics => now ← perform GNow; _ ← perform (FinishTrace StatusOK now); mret Panics
  | Replied reply =>
      _ ← write_reply (reply_writes (rp_Body reply));
      now ← perform GNow; _ ← perform (FinishTrace (rp_Status reply) now); mret h
  end.
End handler.
