(* ===== verification/GatewayFacts.v ===== *)
(** * Properties of the gateway

    What a client's request makes the gateway do, whatever the shared components answer
    and however the runtime is swapped meanwhile: which calls are made in which order,
    to whom they are charged, how errors are shown. *)

From S2P Require Import Prelude GoStrings GoTime GoTimeFacts UsageFile UsageFileFacts ProviderErrors RuntimeModel GoJson HttpTime ConfigTypes ConfigResources QuotaWindow QuotaTracker Accounting QuotaEvents Latency Router ConfigValidate ConfigFacts Sessions Dispatcher DispatcherFacts Attribution AppRuntime Reload RuntimeRequest EventStream GatewayStream GatewayResponses GatewayCodecs Program Gateway.

Abbreviation gruns := (runs gobserve).

(** ** The calls that decide *)

Definition is_gate (e : gatewayEvent) : bool :=
  match e with
  | GEBefore _ _ | GERecord _ | GELimited _ | GEPlan _ _ _ | GEDispatch _ _ _ _ _ _ | GEStream _ _ _ _ _ _ => true
  | _ => false
  end.
Definition gates (tr : list gatewayEvent) : list gatewayEvent := filter (fun e => is_gate e = true) tr.
Lemma gates_app a b : gates (a ++ b) = gates a ++ gates b.
Proof. apply filter_app. Qed.

Definition quiet_call (B : Type) (c : gatewayCall B) : Prop :=
  match c with
  | GNow | LoadRuntime | TraceMethod _ | SessionGetOwned _ _ _ | SessionLatest _ _ => True
  | _ => False
  end.
Lemma quiet_gates {A} (p : gw A) tr a : all_calls quiet_call p -> gruns p tr a -> gates tr = [].
Proof.
  intros Hp Hr. enough (Forall (fun e => is_gate e = false) tr) as F.
  { clear Hr. unfold gates. induction F as [|e tr E F IH]; [done|]. rewrite filter_cons_False by congruence. exact IH. }
  eapply all_runs; [|exact Hp|exact Hr]. by intros B [].
Qed.

Lemma quiet_recordSpan name st attrs : all_calls quiet_call (Gateway.recordSpan name st attrs).
Proof. unfold Gateway.recordSpan. by all_steps. Qed.
Lemma quiet_write texts : all_calls quiet_call (write_reply texts).
Proof.
  induction texts as [|x texts IH]; cbn [write_reply]; [done|]. apply all_bind; [by split|]. intros t.
  apply all_bind; [apply quiet_recordSpan|]. by intros _.
Qed.
Lemma quiet_context id r i c : all_calls quiet_call (withRequestContext id r i c).
Proof.
  unfold withRequestContext. apply all_bind; [by case_match; apply all_perform|]. intros s. by case_match.
Qed.

(** ** What a request may do

    [match_client r v i c]: in the runtime [v], the token of [r] is that of the client [c]
    bound to the inbound [i], whose path is the request's. *)
Definition match_client (r : httpRequest) (v : RuntimeState) (i : InboundSpec) (c : ResolvedClientBinding) : Prop :=
  let token := bearerToken (hr_Header r "Authorization") in
  token <> "" /\ match_state v (hr_Path r) token = Some (i, c).

Definition route_context (req : Request) (i : InboundSpec) (c : ResolvedClientBinding) : RouteContext :=
  mkRouteContext req (cs_Name (rcb_Client c)) (in_Name i) (in_Protocol i) (cb_Tag (rcb_Binding c)).
Definition limited_event (i : InboundSpec) (c : ResolvedClientBinding) (d : Decision) : gatewayEvent :=
  GELimited (QuotaEvents.mkEvent "" EventClientLimited (cs_Name (rcb_Client c)) (in_Name i) "" (d_Reason d)
    (GatewayCodecs.formatRetryAfter (d_RetryAfter d))).

Definition gevent (b : bool) (e : gatewayEvent) : list gatewayEvent := if b then [e] else [].

Section flow.
Context (error_text : goerror -> string) (request_error_text : requestError -> string)
  (lookupName : string -> Z -> option Z) (range : gmap Z Z -> list (Z * Z)) (local : Location)
  (registry : InboundRegistry).
Abbreviation handleRequest := (handleRequest error_text request_error_text lookupName range local registry).
Abbreviation execution_error i := (writeExecutionError error_text lookupName (protocol_named i)).

(** How the outcome of a dispatch or of a stream is shown *)
Definition chat_shown (p : protocol) (plan : ExecutionPlan) (o : outcome Response) : handled :=
  match o with
  | Returned resp => Replied (writeJSON StatusOK (write_response p resp))
  | Failed (Some err) => Replied (execution_error (plan_InboundProtocol plan) err)
  | Failed None => Replied (writeJSON StatusOK (write_response p zero_response))
  | Panicked => Panics
  end.
Definition stream_shown (p : protocol) (plan : ExecutionPlan) (o : outcome (list StreamEvent)) : handled :=
  match o with
  | Returned events =>
      Replied (mkReply StatusOK stream_headers (BodyStream (stream_writes error_text range p (plannedModel plan) events)))
  | Failed (Some err) => Replied (execution_error (plan_InboundProtocol plan) err)
  | Failed None => Blocks
  | Panicked => Panics
  end.

(** What an admitted request of the client [c] on the inbound [i] does *)
Inductive served (id : string) (r : httpRequest) (i : InboundSpec) (c : ResolvedClientBinding)
    : list gatewayEvent -> handled -> Prop :=
| served_unknown : GetCodec registry (in_Protocol i) = None ->
    served id r i c [] (Replied (writeError StatusNotFound "unsupported inbound protocol"))
| served_method p : GetCodec registry (in_Protocol i) = Some p -> hr_Method r <> "POST" ->
    served id r i c [] (Replied (writeError StatusMethodNotAllowed "method not allowed"))
| served_unread p : GetCodec registry (in_Protocol i) = Some p -> hr_Method r = "POST" -> hr_Body r = None ->
    served id r i c [] (Replied (writeError StatusBadRequest "invalid json body"))
| served_bad p body e : GetCodec registry (in_Protocol i) = Some p -> hr_Method r = "POST" -> hr_Body r = Some body ->
    read_request p body = Err e -> served id r i c [] (Replied (write_bad_request request_error_text e))
| served_unplanned p body req router err : GetCodec registry (in_Protocol i) = Some p -> hr_Method r = "POST" ->
    hr_Body r = Some body -> read_request p body = Ok req ->
    served id r i c [GEPlan router (route_context req i c) (Err err)]
      (Replied (writeRoutingError error_text lookupName (protocol_named (in_Protocol i)) err))
| served_chat p body req router plan d ctx itr o : GetCodec registry (in_Protocol i) = Some p -> hr_Method r = "POST" ->
    hr_Body r = Some body -> read_request p body = Ok req -> req_Stream req = false -> ctx_RequestID ctx = id ->
    served id r i c [GEPlan router (route_context req i c) (Ok plan); GEDispatch d ctx req plan itr o]
      (chat_shown p plan o)
| served_stream p body req router plan d ctx itr o : GetCodec registry (in_Protocol i) = Some p -> hr_Method r = "POST" ->
    hr_Body r = Some body -> read_request p body = Ok req -> req_Stream req = true -> ctx_RequestID ctx = id ->
    served id r i c [GEPlan router (route_context req i c) (Ok plan); GEStream d ctx req plan itr o]
      (stream_shown p plan o).

(** What any request does: [loaded] are the runtimes it was given. *)
Inductive flow (id : string) (r : httpRequest) (loaded : RuntimeState -> Prop) : list gatewayEvent -> handled -> Prop :=
| flow_rejected : bearerToken (hr_Header r "Authorization") = "" \/
      (exists v, loaded v /\ match_state v (hr_Path r) (bearerToken (hr_Header r "Authorization")) = None) ->
    flow id r loaded [] (Replied (writeError StatusUnauthorized "invalid token or inbound"))
| flow_limited v v1 v2 i c d : loaded v -> loaded v1 -> loaded v2 -> match_client r v i c -> d_Allowed d = false ->
    v_clientQuota v1 = true ->
    flow id r loaded (GEBefore (cs_Name (rcb_Client c)) d :: gevent (is_some (rs_EventRecorder v2)) (limited_event i c d))
      (Replied (writeClientQuotaError (cs_Name (rcb_Client c)) (in_Name i) d))
| flow_served v v1 v2 i c d rest h : loaded v -> loaded v1 -> loaded v2 -> match_client r v i c -> d_Allowed d = true ->
    served id r i c rest h ->
    flow id r loaded (gevent (v_clientQuota v1) (GEBefore (cs_Name (rcb_Client c)) d) ++
                      gevent (v_clientQuota v2) (GERecord (cs_Name (rcb_Client c))) ++ rest) h.
Abbreviation serve := (serve error_text request_error_text lookupName range registry).
Abbreviation Handle := (Handle error_text request_error_text lookupName range).

Lemma gates_cons e tr : gates (e :: tr) = if is_gate e then e :: gates tr else gates tr.
Proof. unfold gates. rewrite filter_cons. by destruct (is_gate e). Qed.

Lemma span_then {A} name st attrs (u : A) t q :
  gruns (Gateway.recordSpan name st attrs ≫= fun _ => mret u) t q -> q = u /\ gates t = [].
Proof. intros H. run_inv. apply quiet_gates in H0; [|apply quiet_recordSpan]. by rewrite gates_app, H0. Qed.

(** Planning asks the router once, of the request's route. *)
Lemma planRequest_gates req i c tr p :
  gruns (planRequest req i c) tr p -> exists router, gates tr = [GEPlan router (route_context req i c) p].
Proof.
  unfold planRequest. intros H. run_inv. exists (rs_Router x0).
  rewrite !gates_app, !gates_cons, !app_nil_l. cbn [is_gate gates].
  match goal with H : gruns (match x1 with _ => _ end) ?t _ |- _ =>
    enough (x1 = p /\ gates t = []) as [-> ->] by done; clear -H; rename t into t' end.
  destruct x1 as [plan|err]; [destruct (plan_Steps plan)|]; [by apply span_then in H as [-> ->]| |by apply span_then in H as [-> ->]].
  run_inv. apply quiet_gates in H1; [|apply quiet_recordSpan]. by rewrite !gates_app, H1.
Qed.

Lemma dispatch_gates ctx req plan p tr h :
  gruns (dispatchOrWriteError error_text lookupName ctx req plan p) tr h ->
  exists d itr o, gates tr = [GEDispatch d ctx req plan itr o] /\ h = chat_shown p plan o.
Proof.
  unfold dispatchOrWriteError. intros H. run_inv. destruct x0 as [itr o]. exists (rs_Dispatcher x), itr, o.
  rewrite !gates_app, !gates_cons. cbn [fst snd] in *. unfold chat_shown.
  destruct o as [resp|[err|]|]; run_inv; done.
Qed.
Lemma stream_gates ctx req plan p tr h :
  gruns (handleStreaming error_text lookupName range ctx req plan p) tr h ->
  exists d itr o, gates tr = [GEStream d ctx req plan itr o] /\ h = stream_shown p plan o.
Proof.
  unfold handleStreaming. intros H. run_inv. destruct x0 as [itr o]. exists (rs_Dispatcher x), itr, o.
  rewrite !gates_app, !gates_cons. cbn [fst snd] in *. unfold stream_shown.
  destruct o as [resp|[err|]|]; run_inv; done.
Qed.

Lemma handleByCodec_served id ctx r i c tr h :
  ctx_RequestID ctx = id ->
  gruns (handleByCodec error_text request_error_text lookupName range registry ctx r i c) tr h ->
  served id r i c (gates tr) h.
Proof.
  intros Hid. unfold handleByCodec. destruct (GetCodec _ _) as [p|] eqn:Hp; [|intros H; run_inv; by constructor].
  unfold Gateway.Handle, MethodPost. destruct (String.eqb_spec (hr_Method r) "POST") as [Hm|Hm]; cbn [negb];
    [|intros H; run_inv; by econstructor].
  destruct (hr_Body r) as [body|] eqn:Hb; [|intros H; run_inv; by econstructor].
  destruct (read_request p body) as [req|e] eqn:Hr; [|intros H; run_inv; by eapply served_bad].
  intros H. run_inv. apply planRequest_gates in H0 as [router Hplan]. rewrite gates_app, Hplan.
  destruct x as [plan|err]; [|run_inv; by eapply served_unplanned].
  destruct (req_Stream req) eqn:Hs.
  - apply stream_gates in H as (d & itr & o & -> & ->). by eapply served_stream.
  - apply dispatch_gates in H as (d & itr & o & -> & ->). by eapply served_chat.
Qed.

Lemma matchInbound_cases r tr m :
  gruns (matchInbound r) tr m ->
  gates tr = [] /\
  match m with
  | Some (i, c) => exists v, GELoad v ∈ tr /\ match_client r v i c
  | None => bearerToken (hr_Header r "Authorization") = "" \/
      exists v, GELoad v ∈ tr /\
        match_state v (hr_Path r) (bearerToken (hr_Header r "Authorization")) = None
  end.
Proof.
  unfold matchInbound, match_client. destruct (String.eqb_spec (bearerToken (hr_Header r "Authorization")) "") as [E|E].
  - intros H. run_inv. split; [done|]. by left.
  - intros H. run_inv. split; [done|]. cbn [app gobserve].
    destruct (match_state x _ _) as [[i c]|] eqn:Em.
    + exists x. split; [by left|done].
    + right. exists x. split; [by left|done].
Qed.

Lemma before_cases name tr d :
  gruns (beforeClientRequest name) tr d ->
  exists v, GELoad v ∈ tr /\ gates tr = gevent (v_clientQuota v) (GEBefore name d) /\
    (d_Allowed d = false -> v_clientQuota v = true).
Proof.
  unfold beforeClientRequest. intros H. run_inv. exists x. split; [by left|].
  destruct (v_clientQuota x); run_inv; done.
Qed.
Lemma record_cases name tr u :
  gruns (recordClientRequest name) tr u ->
  exists v, GELoad v ∈ tr /\ gates tr = gevent (v_clientQuota v) (GERecord name).
Proof.
  unfold recordClientRequest. intros H. run_inv. exists x. split; [by left|].
  apply runs_when in H. destruct (v_clientQuota x); [|by rewrite H]. by run_inv.
Qed.
Lemma limited_cases i c d tr u :
  gruns (recordClientLimited (cs_Name (rcb_Client c)) (in_Name i) d) tr u ->
  exists v, GELoad v ∈ tr /\ gates tr = gevent (is_some (rs_EventRecorder v)) (limited_event i c d).
Proof.
  unfold recordClientLimited. intros H. run_inv. exists x. split; [by left|].
  apply runs_when in H. destruct (is_some _); [|by rewrite H]. by run_inv.
Qed.

Lemma flow_mono id r (P Q : RuntimeState -> Prop) es h : (forall v, P v -> Q v) ->
  flow id r P es h ->
  flow id r Q es h.
Proof.
  intros HPQ [Hn|v v1 v2 i c d Hv H1 H2 Hm Hd Hq|v v1 v2 i c d rest h' Hv H1 H2 Hm Hd Hs].
  - constructor. destruct Hn as [?|(v & ? & ?)]; [by left|right; eauto].
  - eapply (flow_limited _ _ _ v v1 v2); eauto.
  - eapply (flow_served _ _ _ v v1 v2); eauto.
Qed.

Lemma serve_flow id r tr h :
  gruns (serve id r) tr h ->
  flow id r (fun v => GELoad v ∈ tr) (gates tr) h.
Proof.
  unfold Gateway.serve. intros H. run_inv. apply matchInbound_cases in H0 as [Hg Hm].
  rewrite gates_app, Hg. destruct x as [[i c]|].
  - destruct Hm as (v & Hv & Hm). run_inv. rename x0 into ctx, x1 into d.
    assert (ctx_RequestID ctx = id) as Hid.
    { unfold withRequestContext in H1. run_inv. destruct (session_agent _ _). by run_inv. }
    apply quiet_gates in H1; [|apply quiet_context]. apply before_cases in H2 as (v1 & Hv1 & Hb & Hq).
    rewrite !gates_app, H1, Hb. change (gates [gobserve unit _ _]) with (@nil gatewayEvent). cbn [app].
    destruct (d_Allowed d) eqn:Hd; cbn [negb] in H; run_inv.
    + apply record_cases in H0 as (v2 & Hv2 & Hr). rewrite !gates_app, Hr.
      apply (handleByCodec_served id) in H; [|done].
      eapply flow_mono; [|eapply (flow_served _ _ (fun u => u ∈ [v; v1; v2]) v v1 v2)]; [|set_solver..|done|done|done].
      set_solver.
    + apply limited_cases in H0 as (v2 & Hv2 & Hr). rewrite !gates_app, Hr, (Hq eq_refl).
      change (gates []) with (@nil gatewayEvent). rewrite (app_nil_r (gevent _ _)). change (gevent true ?e ++ ?l) with (e :: l).
      eapply flow_mono; [|eapply (flow_limited _ _ (fun u => u ∈ [v; v1; v2]) v v1 v2)]; [|set_solver..|done|done|by apply Hq].
      set_solver.
  - run_inv. rewrite app_nil_r. constructor. destruct Hm as [?|(v & Hv & ?)]; [by left|right].
    exists v. split; [|done]. set_solver.
Qed.

Lemma handleRequest_flow r tr h :
  gruns (handleRequest r) tr h ->
  exists startedAt, flow (request_id local startedAt) r (fun v => GELoad v ∈ tr) (gates tr) h.
Proof.
  unfold Gateway.handleRequest. intros H. run_inv. exists x.
  apply serve_flow in H3. rewrite !gates_app.
  match goal with H : gruns (match x2 with _ => _ end) ?t _ |- _ =>
    assert (h = x2 /\ gates t = []) as [-> ->] end.
  { destruct x2 as [rep| |]; run_inv; [|done|done]. apply quiet_gates in H0; [|apply quiet_write].
    by rewrite !gates_app, H0. }
  rewrite app_nil_r. eapply flow_mono; [|exact H3]. cbn beta. set_solver.
Qed.

(** C1: what a request may do, whatever the shared components answer and however the
    runtime is swapped meanwhile.  The gateway refines the protocol [flow]: a request whose
    bearer token is no client's of an inbound of its path is answered 401 and touches no
    quota, router or provider; one the client's quota refuses is answered 429 with the
    decision, is reported once if there is an event log, and is not counted; any other is
    counted once in its client's name before it is planned once, with the client's own tag,
    and dispatched at most once, with the plan the router gave and in its own context,
    and only if its method, protocol and body are right. *)
Theorem request_flow r tr h :
  gruns (handleRequest r) tr h ->
  exists startedAt, flow (request_id local startedAt) r
    (fun v => GELoad v ∈ tr) (gates tr) h.
Proof. apply handleRequest_flow. Qed.

(** ** With the router and a dispatcher

    The answers the components can give: the router plans, whatever its counters; the
    dispatcher keeps its contract. *)

Section contract.
Context (chat : dispatching Response) (stream : dispatching (list StreamEvent)).

Definition answered (e : gatewayEvent) : Prop :=
  match e with
  | GEPlan router rc p => exists counters, p = (Plan (with_counters router counters) rc).1
  | GEDispatch d ctx req plan itr o => chat d ctx req plan itr o
  | GEStream d ctx req plan itr o => stream d ctx req plan itr o
  | _ => True
  end.

(** What the dispatcher did for the request *)
Definition inner_of (e : gatewayEvent) : list Dispatcher.event :=
  match e with GEDispatch _ _ _ _ itr _ | GEStream _ _ _ _ itr _ => itr | _ => [] end.
Definition inner (tr : list gatewayEvent) : list Dispatcher.event := concat (map inner_of tr).

Lemma inner_gates tr : inner (gates tr) = inner tr.
Proof.
  induction tr as [|e tr IH]; [done|]. rewrite gates_cons. unfold inner in *. cbn [map concat].
  destruct e; cbn [is_gate map concat inner_of app]; by rewrite ?IH.
Qed.
Lemma inner_gevent b e : inner_of e = [] -> inner (gevent b e) = [].
Proof. intros H. destruct b; [|done]. unfold inner. cbn. by rewrite H. Qed.
Lemma inner_app a b : inner (a ++ b) = inner a ++ inner b.
Proof. unfold inner. by rewrite map_app, concat_app. Qed.
Lemma answered_gates tr : Forall answered tr -> Forall answered (gates tr).
Proof. intros H. apply Forall_forall. intros e [_ He]%list_elem_of_filter. by eapply Forall_forall in He. Qed.

Lemma Plan_fields router rc plan :
  (Plan router rc).1 = Ok plan ->
  plan_ClientName plan = rc_ClientName rc /\ plan_InboundName plan = rc_InboundName rc /\
  plan_ActiveTag plan = rc_ActiveTag rc /\ known_steps (plan_Steps plan).
Proof.
  unfold Plan, Router.plan. intros H. case_match; [|done]. case_match; [done|].
  destruct (order_targets _ _ _) as [ordered counters]. cbn in H. simplify_eq. cbn. split_and!; [done..|].
  apply Forall_map, Forall_true. intros name. cbn. unfold plan_step. by destruct (resolveOutboundModel _ _).
Qed.

Context `{!DispatcherContract chat stream}.

(** In the name of the client [c] on the inbound [i], for the request [id] *)
Definition charged_to (id : string) (i : InboundSpec) (c : ResolvedClientBinding) (e : Dispatcher.event) : Prop :=
  match e with
  | ERecord rec => ur_RequestID rec = id /\ ur_ClientName rec = cs_Name (rcb_Client c) /\
      ur_InboundName rec = in_Name i /\ ur_ActiveTag rec = cb_Tag (rcb_Binding c)
  | EClientUsage name _ _ _ => name = cs_Name (rcb_Client c)
  | _ => True
  end.

Lemma own_charged ctx plan router req i c itr :
  answered (GEPlan router (route_context req i c) (Ok plan)) -> Forall (own_event ctx plan) itr ->
  Forall (charged_to (ctx_RequestID ctx) i c) itr.
Proof.
  intros [counters Hp] Hall. symmetry in Hp. apply Plan_fields in Hp as (Hc & Hi & Ht & _). cbn in Hc, Hi, Ht.
  eapply Forall_impl; [exact Hall|]. intros [] He; cbn in *; try done; [|congruence].
  destruct He as (? & _ & _ & ? & ? & ?). split_and!; congruence.
Qed.

Lemma served_charged id r i c es h :
  served id r i c es h -> Forall answered es -> Forall (charged_to id i c) (inner es).
Proof.
  intros [] Hans; try constructor; unfold inner; cbn; rewrite app_nil_r;
    inversion Hans as [|? ? Hp Hd]; inversion Hd as [|? ? Hd' _]; subst; (eapply own_charged; [exact Hp|]).
  - by eapply chat_own.
  - by eapply stream_own.
Qed.

Lemma served_answered id r i c es h :
  served id r i c es h -> Forall answered es -> exists rep, h = Replied rep.
Proof.
  intros [] Hans; eauto; inversion Hans as [|? ? Hp Hd]; inversion Hd as [|? ? Hd' _]; subst;
    destruct Hp as [counters Hp]; symmetry in Hp; apply Plan_fields in Hp as (_ & _ & _ & Hk).
  - apply chat_answers in Hd'; [|done]. destruct o as [|[]|]; cbn in *; eauto; by destruct Hd'.
  - apply stream_answers in Hd'; [|done]. destruct o as [|[]|]; cbn in *; eauto; by destruct Hd'.
Qed.

(** What the contract bounds *)
Definition dispatch_bounded (e : gatewayEvent) : Prop :=
  match e with
  | GEDispatch _ _ _ plan itr _ => (length itr <= dispatch_calls plan)%nat
  | GEStream _ _ _ plan itr o =>
      (length itr <= dispatch_calls plan + match o with Returned events => relay_calls events | _ => 0 end)%nat
  | _ => True
  end.
Lemma answered_bounded tr : Forall answered tr -> Forall dispatch_bounded tr.
Proof.
  intros H. eapply Forall_impl; [exact H|]. intros [] He; try exact I; cbn in *; [by eapply chat_bounded|by eapply stream_bounded].
Qed.
Lemma answered_timed K tr : Forall answered tr -> Forall (reading K) (inner tr) -> Forall (timed K) (inner tr).
Proof.
  induction 1 as [|e tr He _ IH]; [done|]. unfold inner in *. cbn [map concat]. intros [He' Htr]%Forall_app.
  apply Forall_app. split; [|by apply IH]. destruct e; try constructor; [by eapply chat_timed|by eapply stream_timed].
Qed.
End contract.

(** ** How many calls a request makes *)

Lemma within_write texts : within (3 * length texts) (write_reply texts).
Proof.
  induction texts as [|x texts IH]; cbn [write_reply length]; [exact I|].
  replace (3 * S (length texts))%nat with (3 + 3 * length texts)%nat by lia. count_calls. exact IH.
Qed.
Lemma within_plan req i c : within 6 (planRequest req i c).
Proof. unfold planRequest, Gateway.recordSpan. count_calls. Qed.
Lemma within_codec ctx r i c : within 9 (handleByCodec error_text request_error_text lookupName range registry ctx r i c).
Proof.
  unfold handleByCodec. case_match; [|exact I]. unfold Gateway.Handle. do 3 (case_match; try exact I).
  apply (within_bind 6 3); [apply within_plan|]. intros [plan|err]; [|exact I].
  case_match; [unfold handleStreaming|unfold dispatchOrWriteError];
    do 2 (apply within_call; intros ?); do 2 (case_match; try exact I). count_calls.
Qed.
Lemma within_serve id r : within 16 (serve id r).
Proof.
  unfold Gateway.serve. apply (within_bind 1 15); [unfold matchInbound; cbn zeta; case_match; count_calls|].
  intros [[i c]|]; [|exact I]. cbn zeta. apply (within_call 14). intros _.
  apply (within_bind 1 13). { unfold withRequestContext. cbn zeta. apply (within_bind 1 0); [by case_match|]. intros s. by case_match. }
  intros ctx. apply (within_bind 2 11); [unfold beforeClientRequest; apply within_call; intros v; by case_match|].
  intros d. case_match; [apply (within_bind 2 9); [|intros _; exact I]|apply (within_bind 2 9); [|intros _; apply within_codec]].
  - unfold recordClientLimited. apply within_call. intros v. by destruct (is_some _).
  - unfold recordClientRequest. apply within_call. intros v. by destruct (v_clientQuota v).
Qed.
Lemma handleRequest_calls r tr rep : gruns (handleRequest r) tr (Replied rep) ->
  (length tr <= 21 + 3 * length (reply_writes (rp_Body rep)))%nat.
Proof.
  unfold Gateway.handleRequest. intros H. run_inv.
  match goal with H : gruns (Gateway.serve _ _ _ _ _ _ _) _ _ |- _ => eapply within_runs in H; [|apply within_serve] end.
  rewrite !length_app. destruct x2 as [rep'| |]; [|run_inv; by destruct H|by destruct H].
  run_inv. apply runs_ret in H as [-> [= ->]]. match goal with H : gruns (write_reply _) _ _ |- _ => eapply within_runs in H; [|apply within_write] end.
  rewrite !length_app. cbn [length] in *. lia.
Qed.

Lemma timed_dated rec : timed year_ok (ERecord rec) -> dated rec.
Proof.
  intros (t & Ht & E). exists t. split; [|done]. unfold record_timestamp. rewrite E.
  pose proof (parse_format t Ht) as Hp. destruct (String.eqb_spec (format_rfc3339nano t) "") as [E'|_]; [|done].
  rewrite E' in Hp. discriminate Hp.
Qed.

(** C2: a request is charged to the client its token names.  Every usage record the
    dispatcher writes while it serves a request, streaming or not, and every charge to a
    client's quota, carries the identifier of this request, and the name, the inbound and
    the tag of the one client whose token the request bears in a runtime the gateway was
    serving with; a request without such a client leaves no record and no charge. *)
Theorem request_charged r tr h :
  gruns (handleRequest r) tr h -> Forall (answered dispatches streams) tr ->
  inner tr = [] \/
  exists startedAt v i c, GELoad v ∈ tr /\ match_client r v i c /\
    Forall (charged_to (request_id local startedAt) i c) (inner tr).
Proof.
  intros H Hans. apply handleRequest_flow in H as [t0 Hf]. apply answered_gates in Hans. rewrite <-inner_gates.
  destruct Hf as [_|v v1 v2 i c d Hv H1 H2 Hm Hd Hq|v v1 v2 i c d rest h Hv H1 H2 Hm Hd Hs]; [by left|left|right].
  - rewrite (inner_app [GEBefore _ _] _ : inner (GEBefore _ _ :: _) = _). cbn [inner_of app]. apply inner_gevent. exact eq_refl.
  - exists t0, v, i, c. split; [done|]. split; [done|].
    rewrite !inner_app, (inner_gevent _ (GEBefore _ _) eq_refl), (inner_gevent _ (GERecord _) eq_refl).
    eapply (served_charged dispatches streams); [exact Hs|]. apply Forall_app in Hans as [_ Hans]. by apply Forall_app in Hans as [_ ?].
Qed.

(** A record the usage file can take while it is open: neither the caller of [Record] nor
    the goroutine that appends the record panics. *)
Definition recordable (e : Dispatcher.event) : Prop :=
  match e with
  | ERecord rec => forall encoded_length open_ok cfg now s d, lf_closed s = false ->
      is_Some (Record_file cfg rec s) /\ is_Some (appendRecord encoded_length open_ok cfg now rec s d)
  | _ => True
  end.

(** C9: every request is answered.  With the router and the dispatcher as they are,
    whatever the trackers, the providers and the session store answer: a run of the gateway
    ends with one reply, never in the panic of the dispatcher or the wait on a stream that
    does not exist.  It waits for nothing but its calls, whose number is bounded: by those
    before the reply and three for each write of it, and in a dispatch by the plan's steps
    and the events of the provider's stream, so it ends as soon as each call has returned
    and the provider has ended its stream.  And while the clock reads years of four digits,
    no record that it leaves panics an open usage file, nor the goroutine that writes it;
    one that a shutdown has closed would panic ([Record_file]), when a request outlives the
    time the servers are given to end. *)
Theorem request_answered r tr h :
  gruns (handleRequest r) tr h -> Forall (answered dispatches streams) tr ->
  exists rep, h = Replied rep /\
    (length tr <= 21 + 3 * length (reply_writes (rp_Body rep)))%nat /\ Forall dispatch_bounded tr /\
    (Forall (reading year_ok) (inner tr) -> Forall recordable (inner tr)).
Proof.
  intros H Hans. assert (exists rep, h = Replied rep) as [rep ->].
  { apply handleRequest_flow in H as [t0 Hf]. apply answered_gates in Hans.
    destruct Hf; [eauto..|]. eapply (served_answered dispatches streams); [done|].
    apply Forall_app in Hans as [_ Hans]. by apply Forall_app in Hans as [_ ?]. }
  exists rep. split; [done|]. split; [by eapply handleRequest_calls|].
  split; [by apply (answered_bounded dispatches streams)|]. intros Hy. eapply (answered_timed dispatches streams) in Hans; [|exact Hy].
  eapply Forall_impl; [exact Hans|]. intros [] He; try exact I. intros l o cfg now s d Hc. by apply dated_recordable, Hc; apply timed_dated.
Qed.
End flow.

(** ** The latency trace *)

Definition is_lifecycle (e : gatewayEvent) : bool :=
  match e with GEStart _ _ _ _ | GEFinish _ _ => true | _ => false end.
Definition inside_call (B : Type) (c : gatewayCall B) : Prop :=
  match c with StartTrace _ _ _ _ | FinishTrace _ _ => False | _ => True end.

Lemma inside_quiet {A} (p : gw A) : all_calls quiet_call p -> all_calls inside_call p.
Proof. induction p as [a|B c k IH]; cbn; [done|]. intros [Hc Hk]. split; [by destruct c|auto]. Qed.

Section trace.
Context (error_text : goerror -> string) (request_error_text : requestError -> string)
  (lookupName : string -> Z -> option Z) (range : gmap Z Z -> list (Z * Z)) (local : Location)
  (registry : InboundRegistry).

Lemma inside_plan req i c : all_calls inside_call (planRequest req i c).
Proof.
  unfold planRequest. do 3 (apply all_bind; [by split|intros ?]).
  case_match; [case_match; [|apply all_bind; [by split|intros _]]|];
    (apply all_bind; [apply inside_quiet, quiet_recordSpan|done]).
Qed.
Lemma inside_serve id r : all_calls inside_call (serve error_text request_error_text lookupName range registry id r).
Proof.
  unfold serve. apply all_bind; [unfold matchInbound; case_match; [exact I|]; apply all_bind; [by split|done]|]. intros [[i c]|]; [|exact I].
  apply all_bind; [by split|]. intros _. apply all_bind; [apply inside_quiet, quiet_context|]. intros ctx.
  apply all_bind; [unfold beforeClientRequest; apply all_bind; [by split|]; intros v; case_match; by try split|]. intros d.
  case_match; [apply all_bind; [unfold recordClientLimited; by all_steps|done]|].
  apply all_bind; [unfold recordClientRequest; by all_steps|]. intros _.
  unfold handleByCodec. case_match; [|exact I]. unfold Handle. do 3 (case_match; try exact I).
  apply all_bind; [apply inside_plan|]. intros [plan|err]; [|exact I].
  case_match; [unfold handleStreaming|unfold dispatchOrWriteError];
    do 2 (apply all_bind; [by split|intros ?]); do 2 (case_match; try exact I).
  apply all_bind; by try split.
Qed.

(** The status the trace is finished with *)
Definition final_status (h : handled) : Z := match h with Replied rep => rp_Status rep | _ => StatusOK end.

(** One latency trace per request.  A request starts its trace under its own
    identifier before anything else is done for it, and nothing in between starts or
    finishes another; however it ends, answered on any path or panicking, its last act is
    to finish that trace, with the status the client was sent. *)
Theorem trace_closed r tr h :
  gruns (handleRequest error_text request_error_text lookupName range local registry r) tr h -> h <> Blocks ->
  exists startedAt v mid finishedAt,
    tr = GENow startedAt :: GELoad v ::
         GEStart (request_id local startedAt) (hr_Method r) (hr_Path r) startedAt ::
         mid ++ [GEFinish (final_status h) finishedAt] /\
    Forall (fun e => is_lifecycle e = false) mid.
Proof.
  unfold handleRequest. intros H Hb. run_inv. rename x into startedAt, x0 into v, x2 into h'.
  match goal with H : gruns (serve _ _ _ _ _ _ _) ?t _ |- _ => rename H into Hs, t into mid end.
  assert (forall A (p : gw A) t a, all_calls inside_call p -> gruns p t a -> Forall (fun e => is_lifecycle e = false) t) as HI.
  { intros A p t a Hp Hr. eapply all_runs; [|exact Hp|exact Hr]. by intros B []. }
  apply HI in Hs; [|apply inside_serve]. exists startedAt, v.
  destruct h' as [rep| |]; run_inv; [| |done].
  - apply HI in H0; [|apply inside_quiet, quiet_write]. eexists (mid ++ t ++ [GENow _]), _.
    split; [cbn; by rewrite <-!app_assoc|]. apply Forall_app. split; [done|]. apply Forall_app. by repeat constructor.
  - eexists (mid ++ [GENow _]), _. split; [cbn; by rewrite <-!app_assoc|]. apply Forall_app. by repeat constructor.
Qed.
End trace.
