(* ===== verification/GatewayWorld.v ===== *)
(** * The whole request path

    The gateway run against the models of every component it calls: the router with its
    counters, the client quota tracker, the event log, the session store, the latency
    store, and the dispatcher, itself run against the trackers, the usage store and
    providers given as functions.  The answers satisfy what [GatewayFacts.answered] asks,
    so its theorems hold of every such run. *)

From S2P Require Import Prelude GoStrings GoTime GoTimeFacts ProviderErrors RuntimeModel GoJson HttpTime ConfigTypes ConfigResources QuotaWindow QuotaTracker Accounting QuotaEvents Latency Health Router ConfigValidate Sessions Dispatcher DispatcherFacts StreamFacts Attribution AppRuntime Reload RuntimeRequest EventStream GatewayStream GatewayResponses GatewayCodecs Program Gateway GatewayFacts.

Record System := mkSystem {
  sy_view : RuntimeState;
  sy_counters : gmap string Z;
  sy_sessions : Store;
  sy_world : Dispatcher.World
}.
Definition with_world (s : System) (w : Dispatcher.World) : System := mkSystem (sy_view s) (sy_counters s) (sy_sessions s) w.

Section system.
Context (chat : Provider -> Request -> result goerror Response).
Context (open : Provider -> Request -> result goerror unit).
(** What the channel of a stream gives *)
Context (events : Stream -> list StreamEvent).

Abbreviation dexec := (Dispatcher.exec chat open).

Definition run_stream (d : Dispatcher) (ctx : Context_) (req : Request) (plan : ExecutionPlan) (w : Dispatcher.World)
    : Dispatcher.World * (list Dispatcher.event * outcome (list StreamEvent)) :=
  let '(w, tr1, opened) := dexec (DispatchStream d ctx req plan) w in
  match opened with
  | Returned st =>
      let '(w, tr2, _) := dexec (wrapStream d ctx plan st (deliveries (events st) ++ [InClosed false])) w in
      (w, (tr1 ++ tr2, Returned (sends tr2)))
  | Failed err => (w, (tr1, Failed err))
  | Panicked => (w, (tr1, Panicked))
  end.

Definition ganswer (B : Type) (c : gatewayCall B) (s : System) : System * B :=
  let w := sy_world s in
  let now := w_now w in
  match c in gatewayCall B return System * B with
  | GNow => (with_world s (tick w), now)
  | LoadRuntime => (s, sy_view s)
  | StartTrace id m p t => (with_world s (with_latency w (Start (w_latency w).2 id m p t now)), tt)
  | TraceMethod m => (with_world s (with_latency w (run_method (w_latency w) m)), tt)
  | FinishTrace status t => (with_world s (with_latency w (Finish status t now (w_latency w))), tt)
  | SessionGetOwned id c i => (s, GetOwned (sy_sessions s) id c i)
  | SessionLatest c i => (s, LatestActive (sy_sessions s) c i)
  | ClientBefore c => let '(d, q) := BeforeClientRequest (w_clients w) c now in (with_world s (with_clients w q), d)
  | ClientRecord c => (with_world s (with_clients w (RecordClientRequest (w_clients w) c now)), tt)
  | ClientLimited e => (with_world s (with_events w (RecordEvent (w_events w) e now)), tt)
  | RouterPlan r rc =>
      let '(p, r) := Plan (Router.with_counters r (sy_counters s)) rc in
      (mkSystem (sy_view s) (r_roundRobin r) (sy_sessions s) w, p)
  | RunDispatch d ctx req plan =>
      let '(w, tr, o) := dexec (Dispatch d ctx req plan) w in (with_world s w, (tr, o))
  | RunStream d ctx req plan => let '(w, a) := run_stream d ctx req plan w in (with_world s w, a)
  end.

Abbreviation gexec := (Program.exec gobserve ganswer).

Lemma run_stream_streams d ctx req plan w :
  streams d ctx req plan (run_stream d ctx req plan w).2.1 (run_stream d ctx req plan w).2.2.
Proof.
  unfold run_stream, streams. pose proof (exec_runs Dispatcher.observe (Dispatcher.answer chat open) (DispatchStream d ctx req plan) w) as H.
  destruct (dexec (DispatchStream d ctx req plan) w) as [[w1 tr1] opened]. cbn in H.
  destruct opened as [st|err|]; [|by exists tr1, (Failed err)|by exists tr1, Panicked].
  set (inputs := deliveries (events st) ++ [InClosed false]).
  pose proof (exec_runs Dispatcher.observe (Dispatcher.answer chat open) (wrapStream d ctx plan st inputs) w1) as H2.
  destruct (dexec (wrapStream d ctx plan st inputs) w1) as [[w2 tr2] b] eqn:E. cbn in H2.
  exists tr1, (Returned st). split; [done|]. exists inputs, tr2. split; [|done].
  enough (b = true) as -> by done. clear -H2.
  destruct (first_error (events st)) as [Hq|(pre & e & post & err & He & Hq & Hee)].
  - apply loop_closed_quiet in H2 as (? & _); done.
  - subst inputs. rewrite He in H2. eapply loop_closed_error in H2 as (? & _); done.
Qed.

Lemma ganswer_answered B (c : gatewayCall B) s : answered dispatches streams (gobserve B c (ganswer B c s).2).
Proof.
  destruct c; try exact I; cbn.
  - exists (sy_counters s). by destruct (Plan _ _).
  - pose proof (exec_runs Dispatcher.observe (Dispatcher.answer chat open) (Dispatch d ctx req plan) (sy_world s)) as H. unfold dispatches.
    by destruct (dexec (Dispatch d ctx req plan) (sy_world s)) as [[w tr] o].
  - pose proof (run_stream_streams d ctx req plan (sy_world s)) as H.
    by destruct (run_stream d ctx req plan (sy_world s)) as [w [tr o]].
Qed.

(** Every run of the system is answered as its components answer. *)
Lemma gexec_answered {A} (p : gw A) s : Forall (answered dispatches streams) (gexec p s).1.2.
Proof.
  revert s. induction p as [a|B c k IH]; intros s; cbn; [constructor|].
  pose proof (ganswer_answered B c s) as Hc. destruct (ganswer B c s) as [s' b] eqn:E. specialize (IH b s').
  destruct (gexec (k b) s') as [[s2 tr] a]. cbn in *. by constructor.
Qed.
End system.

(** ** A concrete system

    The validated configuration of [ConfigFacts], its router and its client quota. *)

Definition ex_router : Router :=
  match Router.New (cfg_Routing ConfigFacts.witness_config') ConfigFacts.witness_providers
          (cfg_Outbounds ConfigFacts.witness_config') with
  | Ok r => r
  | Err _ => mkRouter [] ∅ ∅ ∅ ∅
  end.
Definition ex_state : RuntimeState :=
  mkRuntimeState ex_router ex_dispatcher (cfg_Clients ConfigFacts.witness_config') (cfg_Inbounds ConfigFacts.witness_config')
    (NewClientTrackerFromClients ConfigFacts.witness_zone (cfg_Clients ConfigFacts.witness_config'))
    (newEventRecorder 10) (Some (NewTraceStore 5)) (cfg_Accounting ConfigFacts.witness_config')
    (cfg_Admin ConfigFacts.witness_config') "".
Definition ex_system : System :=
  mkSystem ex_state ∅ NewStore
    (Dispatcher.mkWorld ex_now None (NewClientTrackerFromClients ConfigFacts.witness_zone (cfg_Clients ConfigFacts.witness_config')) None
       (newEventRecorder 10) (None, Some (NewTraceStore 5)) (NewMemoryStore ex_now)).

Definition ex_header (token name : string) : string := if name == "Authorization" then token else "".
Definition ex_http (token body : string) : httpRequest := mkHTTPRequest "POST" "/v1" (ex_header token) (Some body).
Definition ex_body (more : string) : string :=
  js ("{'model':'gpt-4o','messages':[{'role':'user','content':'hi'}]" +:+ more +:+ "}").
Definition ex_events (w : Stream) : list StreamEvent := StreamFacts.ex_events.
Definition ex_range (m : gmap Z Z) : list (Z * Z) := map_to_list m.

Definition ex_serve (token body : string) : System * list gatewayEvent * handled :=
  Program.exec gobserve (ganswer ex_chat ex_open ex_events)
    (handleRequest (fun _ => "") (fun _ => "bad request") no_zone ex_range UTC DefaultInboundRegistry (ex_http token body))
    ex_system.
Lemma ex_serve_runs token body :
  runs gobserve (handleRequest (fun _ => "") (fun _ => "bad request") no_zone ex_range UTC DefaultInboundRegistry
    (ex_http token body)) (ex_serve token body).1.2 (ex_serve token body).2.
Proof. apply Program.exec_runs. Defined.
Definition status_of (h : handled) : option Z := match h with Replied rep => Some (rp_Status rep) | _ => None end.

Example ex_statuses :
  map (fun '(t, b) => status_of (ex_serve t b).2)
    [("Bearer t1", ex_body ""); ("Bearer t1", ex_body ",'stream':true"); ("Bearer t2", ex_body "");
     ("t1", ex_body ""); ("Bearer t1", "{")] =
  [Some 200; Some 200; Some 401; Some 401; Some 400].
Proof. vm_compute. reflexivity. Qed.

Abbreviation ex_run := (ex_serve "Bearer t1" (ex_body "")).
Abbreviation ex_stream_run := (ex_serve "Bearer t1" (ex_body ",'stream':true")).

(** Asked of the quota, counted, planned, dispatched *)
Lemma request_flow_witness :
  length (gates ex_run.1.2) = 4%nat /\ status_of ex_run.2 = Some 200 /\
  exists startedAt, flow (fun _ => "") (fun _ => "bad request") no_zone ex_range DefaultInboundRegistry
    (request_id UTC startedAt) (ex_http "Bearer t1" (ex_body "")) (fun v => GELoad v ∈ ex_run.1.2)
    (gates ex_run.1.2) ex_run.2.
Proof.
  split; [vm_compute; reflexivity|]. split; [vm_compute; reflexivity|].
  exact (request_flow _ _ _ _ _ _ _ _ _ (ex_serve_runs _ _)).
Defined.

Lemma request_charged_witness :
  map ur_ClientName (records (inner ex_stream_run.1.2)) = ["alice"] /\
  map (fun c : string * Z * Z * bool => c.1.1.1) (charges (inner ex_stream_run.1.2)) = ["alice"] /\
  exists startedAt v i c, GELoad v ∈ ex_stream_run.1.2 /\
    match_client (ex_http "Bearer t1" (ex_body ",'stream':true")) v i c /\
    Forall (charged_to (request_id UTC startedAt) i c) (inner ex_stream_run.1.2).
Proof.
  split; [vm_compute; reflexivity|]. split; [vm_compute; reflexivity|].
  destruct (request_charged _ _ _ _ _ _ _ _ _ (ex_serve_runs "Bearer t1" (ex_body ",'stream':true"))
    (gexec_answered _ _ _ _ _)) as [H|H]; [|exact H].
  exfalso. apply (f_equal length) in H. vm_compute in H. discriminate H.
Defined.

Definition read_ok (e : Dispatcher.event) : bool :=
  match e with ENow t => (0 <=? c_year (civil t)) && (c_year (civil t) <=? 9999) | _ => true end.
Lemma read_ok_spec tr : forallb read_ok tr = true -> Forall (reading year_ok) tr.
Proof.
  intros H. rewrite forallb_forall in H. apply Forall_forall. intros e He%list_elem_of_In%H. destruct e; try exact I.
  cbn in He. unfold reading, year_ok. lia.
Qed.

(** Answered within the bound, with a record that the usage file takes *)
Lemma request_answered_witness : exists rep, ex_run.2 = Replied rep /\ rp_Status rep = 200 /\
  (length ex_run.1.2 <= 24)%nat /\ map ur_ClientName (records (inner ex_run.1.2)) = ["alice"] /\
  Forall dispatch_bounded ex_run.1.2 /\ Forall recordable (inner ex_run.1.2).
Proof.
  destruct (request_answered _ _ _ _ _ _ _ _ _ (ex_serve_runs "Bearer t1" (ex_body ""))
    (gexec_answered _ _ _ _ _)) as (rep & H & Hn & Hd & Hr).
  exists rep. split; [exact H|]. assert (status_of ex_run.2 = Some 200) as E by (vm_compute; reflexivity).
  assert (match ex_run.2 with Replied rep => length (reply_writes (rp_Body rep)) | _ => 0%nat end = 1%nat) as W
    by (vm_compute; reflexivity).
  rewrite H in E, W. rewrite W in Hn. injection E as E. split; [exact E|]. split; [exact Hn|].
  split; [vm_compute; reflexivity|]. split; [exact Hd|]. apply Hr, read_ok_spec. vm_compute. reflexivity.
Defined.

Lemma trace_closed_witness :
  status_of (ex_serve "Bearer no" (ex_body "")).2 = Some 401 /\
  exists t, last (ex_serve "Bearer no" (ex_body "")).1.2 = Some (GEFinish 401 t).
Proof.
  assert (status_of (ex_serve "Bearer no" (ex_body "")).2 = Some 401) as E by (vm_compute; reflexivity).
  split; [exact E|].
  destruct (trace_closed _ _ _ _ _ _ _ _ _ (ex_serve_runs "Bearer no" (ex_body "")))
    as (startedAt & v & mid & finishedAt & H & _); [intros Hb; rewrite Hb in E; discriminate E|].
  exists finishedAt. rewrite H. rewrite !app_comm_cons, last_snoc.
  destruct (ex_serve "Bearer no" (ex_body "")).2 as [rep| |]; [|discriminate E..]. cbn in *. by injection E as ->.
Defined.
