(* ===== verification/GatewaySafety.v ===== *)
(** * What clients are told, and who they are

    The errors of a dispatch as a client sees them: their status by the kind of the error,
    the metadata that may go into headers, and what is kept from the client.  And who a
    client is: in a validated configuration a token names one client. *)

From S2P Require Import Prelude GoStrings GoTime GoTimeFacts ProviderErrors RuntimeModel GoJson HttpTime ConfigTypes ConfigResources QuotaWindow QuotaTracker Router Accounting ConfigValidate ConfigFacts Dispatcher AppRuntime Reload GatewayStream GatewayResponses GatewayCodecs Program ProviderClient ProviderClientFacts Gateway GatewayFacts.

(** ** Text without line breaks *)

Definition one_line (s : string) : Prop := ContainsAny s [byte 13; byte 10] = false.

Lemma one_line_app s t : one_line s -> one_line t -> one_line (s +:+ t).
Proof.
  unfold one_line. intros Hs Ht. induction s as [|c s IH]; [done|].
  cbn [ContainsAny String.append] in *. apply orb_false_iff in Hs as [Hc Hs].
  apply orb_false_iff. split; [exact Hc|by apply IH].
Qed.
Lemma one_line_digits s : all_digits s = true -> one_line s.
Proof.
  unfold one_line. induction s as [|c s IH]; cbn; [done|]. intros [Hc Hs]%andb_true_iff. apply orb_false_iff.
  split; [|by apply IH]. apply bool_decide_eq_false. intros Hin. set_unfold in Hin.
  destruct Hin as [->|[->|[]]]; vm_compute in Hc; discriminate Hc.
Qed.
Lemma one_line_fixed k n : one_line (fixed_digits k n).
Proof. apply one_line_digits, all_digits_fixed. Qed.

Lemma dec_fuel_bounded fuel n : 0 <= n -> all_digits (dec_fuel fuel n) = true /\ (len (dec_fuel fuel n) <= fuel)%nat.
Proof.
  revert n. induction fuel as [|fuel IH]; intros n Hn; cbn [dec_fuel]; [split; [done|cbn; lia]|].
  rewrite all_digits_app, str_len_app. cbn [all_digits String.length].
  rewrite is_digit_digit by (pose proof (Z.mod_pos_bound n 10); lia).
  destruct (n <? 10); [split; [done|cbn; lia]|]. destruct (IH (n / 10)) as [-> Hl]; [apply Z.div_pos; lia|].
  split; [done|]. lia.
Qed.
Lemma itoa_plain n : one_line (itoa n) /\ (len (itoa n) <= 21)%nat.
Proof.
  unfold itoa. destruct (Z.ltb_spec n 0).
  - destruct (dec_fuel_bounded 20 (- n)) as [Hd Hl]; [lia|]. split; [|cbn [String.length]; lia].
    apply (one_line_app "-"); [done|by apply one_line_digits].
  - destruct (dec_fuel_bounded 20 n) as [Hd Hl]; [lia|]. split; [by apply one_line_digits|lia].
Qed.
Lemma format_year_plain y : one_line (format_year y) /\ (len (format_year y) <= 22)%nat.
Proof.
  unfold format_year. destruct (itoa_plain (Z.abs y)) as [H1 H2].
  destruct (Z.abs y <=? 9999), (y <? 0); rewrite ?str_len_app, ?fixed_digits_len; change (len "-") with 1%nat;
    (split; [|lia]); try (apply (one_line_app "-"); [done|]); first [exact H1|apply one_line_fixed].
Qed.
Lemma nth_name_plain tab i :
  forallb (fun s => negb (ContainsAny s [byte 13; byte 10]) && (len s <=? 3)%nat) tab = true ->
  one_line (nth_name tab i) /\ (len (nth_name tab i) <= 3)%nat.
Proof.
  intros H. unfold nth_name. destruct (nth_in_or_default (Z.to_nat i) tab "") as [Hin| ->]; [|split; [done|cbn; lia]].
  rewrite forallb_forall in H. apply H in Hin. apply andb_true_iff in Hin as [H1%negb_true_iff H2%Nat.leb_le]. done.
Qed.
Lemma format_http_plain t : one_line (format_http t) /\ (len (format_http t) <= 64)%nat.
Proof.
  unfold format_http. set (c := civil t).
  destruct (nth_name_plain shortDayNames (c_weekday c)) as [H1 L1]; [done|].
  destruct (nth_name_plain shortMonthNames (c_month c - 1)) as [H2 L2]; [done|].
  destruct (format_year_plain (c_year c)) as [H3 L3]. split.
  - repeat first [exact H1|exact H2|exact H3|apply one_line_fixed|apply one_line_app|done].
  - rewrite !str_len_app, !fixed_digits_len. cbn [String.length]. lia.
Qed.

(** ** Errors *)

Lemma safeExecutionRetryAfter_safe lookupName value : header_safe (safeExecutionRetryAfter lookupName value).
Proof.
  unfold safeExecutionRetryAfter, header_safe, maxUpstreamMetadataLength. cbv zeta.
  destruct (_ == ""); [split; [cbn; lia|done]|]. destruct (ParseUint _) as [n|].
  - destruct (itoa_plain n). split; [lia|done].
  - destruct (ParseTime _ _) as [t|]; [|split; [cbn; lia|done]]. destruct (format_http_plain t). split; [lia|done].
Qed.
Lemma safeExecutionMetadata_safe value : header_safe (safeExecutionMetadata value).
Proof. exact (safeMetadataValue_header value). Qed.

(** The errors whose own text a client is shown *)
Definition shown_kind (kind : ErrorKind) : bool :=
  match kind with ErrorKindCapabilityUnsupported | ErrorKindModelUnavailable => true | _ => false end.
(** The request identifier and the delay an error carries *)
Definition error_metadata (err : goerror) : string * string :=
  match AsProviderError err with Some (_, _, rid, ra) => (rid, ra) | None => ("", "") end.

Definition kind_status (kind : ErrorKind) : Z :=
  match kind with
  | ErrorKindQuotaExceeded => 429
  | ErrorKindModelUnavailable => 404
  | ErrorKindUnknown => 500
  | _ => 502
  end.

Section errors.
Context (error_text : goerror -> string) (lookupName : string -> Z -> option Z).

Lemma gatewayError_fields err :
  gatewayError error_text lookupName err =
  let '(status, message, typ, code) := error_table error_text err in
  let requestID := safeExecutionMetadata (error_metadata err).1 in
  mkExecutionError status (if requestID == "" then message else message +:+ " (request_id: " +:+ requestID +:+ ")")
    typ code requestID (safeExecutionRetryAfter lookupName (error_metadata err).2).
Proof.
  unfold gatewayError, error_metadata. destruct (error_table error_text err) as [[[status message] typ] code].
  by destruct (AsProviderError err) as [[[[k st] rid] ra]|].
Qed.
Lemma gatewayError_status err :
  ee_StatusCode (gatewayError error_text lookupName err) = kind_status (NormalizeError (Some err)).
Proof. rewrite gatewayError_fields. unfold error_table. by destruct (NormalizeError (Some err)). Qed.
Lemma gatewayError_safe err :
  let g := gatewayError error_text lookupName err in header_safe (ee_RequestID g) /\ header_safe (ee_RetryAfter g).
Proof.
  rewrite gatewayError_fields. destruct (error_table error_text err) as [[[status message] typ] code]. cbn.
  split; [apply safeExecutionMetadata_safe|apply safeExecutionRetryAfter_safe].
Qed.

(** [writeExecutionError] as a function of what [gatewayError] keeps of the error *)
Definition execution_reply (p : option protocol) (g : executionErrorResponse) : reply :=
  mkReply (ee_StatusCode g)
    ((if ee_RequestID g == "" then [] else
        match request_id_header p with Some name => [(name, ee_RequestID g)] | None => [] end) ++
     (if ee_RetryAfter g == "" then [] else [("Retry-After", ee_RetryAfter g)]))
    (BodyJSON (VMap match p with
      | Some AnthropicMessages =>
          [("type", VStr "error"); ("error", VMap [("type", VStr (ee_Type g)); ("message", VStr (ee_Message g))])]
      | Some _ =>
          [("error", VMap [("message", VStr (ee_Message g)); ("type", VStr (ee_Type g)); ("code", VStr (ee_Code g))])]
      | None => [("error", VStr (ee_Message g))]
      end)).
Lemma execution_reply_of p err :
  writeExecutionError error_text lookupName p err = execution_reply p (gatewayError error_text lookupName err).
Proof. unfold writeExecutionError, execution_reply. by destruct p as [[]|]. Qed.

Lemma execution_reply_headers p g : header_safe (ee_RequestID g) -> header_safe (ee_RetryAfter g) ->
  Forall (fun h => h.1 ∈ ["request-id"; "x-request-id"; "Retry-After"] /\ h.2 <> "" /\ header_safe h.2)
    (rp_Headers (execution_reply p g)).
Proof.
  intros Hid Hra. cbn. apply Forall_app. split.
  - destruct (String.eqb_spec (ee_RequestID g) ""); [constructor|]. destruct (request_id_header p) eqn:E; [|constructor].
    constructor; [|constructor]. cbn. split; [|done]. destruct p as [[]|]; cbn in E; simplify_eq; set_solver.
  - destruct (String.eqb_spec (ee_RetryAfter g) ""); [constructor|]. constructor; [|constructor]. cbn. split; [set_solver|done].
Qed.
End errors.

Lemma gatewayError_kind error_text error_text' lookupName err err' :
  shown_kind (NormalizeError (Some err)) = false -> NormalizeError (Some err') = NormalizeError (Some err) ->
  error_metadata err' = error_metadata err ->
  gatewayError error_text' lookupName err' = gatewayError error_text lookupName err.
Proof.
  intros Hk Hkind Hm. rewrite !gatewayError_fields, Hm. unfold error_table. rewrite Hkind.
  by destruct (NormalizeError (Some err)).
Qed.

(** C16: the errors a client is shown.  The reply to a failed dispatch has one of four
    statuses: 429 exactly for a quota error, 404 exactly for a missing model, 500 exactly
    for an error of no known kind, 502 for the others.  Its only headers are the upstream's
    request identifier, under the protocol's name, and the delay, each at most 256 bytes on
    one line whatever the upstream sent.  And except for the errors about models and
    capabilities, which the gateway words itself, the text of the error is kept from the
    client: two errors of one kind with the same metadata give the same reply. *)
Theorem error_reply_safe error_text lookupName p err :
  let rep := writeExecutionError error_text lookupName p err in
  let kind := NormalizeError (Some err) in
  rp_Status rep ∈ [404; 429; 500; 502] /\
  (rp_Status rep = 429 <-> kind = ErrorKindQuotaExceeded) /\
  (rp_Status rep = 404 <-> kind = ErrorKindModelUnavailable) /\
  (rp_Status rep = 500 <-> kind = ErrorKindUnknown) /\
  Forall (fun h => h.1 ∈ ["request-id"; "x-request-id"; "Retry-After"] /\ h.2 <> "" /\ header_safe h.2) (rp_Headers rep) /\
  (shown_kind kind = false -> forall error_text' err', NormalizeError (Some err') = kind ->
     error_metadata err' = error_metadata err -> writeExecutionError error_text' lookupName p err' = rep).
Proof.
  cbv zeta. rewrite execution_reply_of. destruct (gatewayError_safe error_text lookupName err) as [Hid Hra].
  pose proof (gatewayError_status error_text lookupName err) as Hst.
  cbn [rp_Status execution_reply]. rewrite Hst. split_and!; try (destruct (NormalizeError (Some err)); cbn; set_solver).
  - apply execution_reply_headers; done.
  - intros Hk error_text' err' Hkind Hm. rewrite execution_reply_of. f_equal.
    by apply gatewayError_kind.
Qed.

(** ** Who a token is *)

Lemma match_inbound_Some cfg path token inbounds i b :
  match_inbound cfg path token inbounds = Some (i, b) ->
  i ∈ inbounds /\ in_Path i = path /\ b ∈ ResolveInboundClients cfg i /\ cs_Token (rcb_Client b) = token.
Proof.
  induction inbounds as [|x inbounds IH]; cbn; [done|]. destruct (String.eqb_spec (in_Path x) path) as [Hp|]; cbn.
  - destruct (List.find _ _) as [b'|] eqn:E.
    + intros [= <- <-]. apply find_some in E as [Hin Ht%String.eqb_eq].
      split; [by left|]. split; [done|]. split; [by apply list_elem_of_In|done].
    + intros (? & ? & ? & ?)%IH. split_and!; try done. by right.
  - intros (? & ? & ? & ?)%IH. split_and!; try done. by right.
Qed.
Lemma match_inbound_found cfg path token inbounds i b :
  i ∈ inbounds -> in_Path i = path -> b ∈ ResolveInboundClients cfg i -> cs_Token (rcb_Client b) = token ->
  is_Some (match_inbound cfg path token inbounds).
Proof.
  intros Hi Hp Hb Ht. induction Hi as [x l|x y l Hi IH]; cbn.
  - rewrite Hp, String.eqb_refl. cbn. destruct (List.find _ _) as [b'|] eqn:E; [by eexists|].
    eapply find_none in E; [|by apply list_elem_of_In]. unfold has_token in E. by rewrite Ht, String.eqb_refl in E.
  - destruct (_ != path); [by apply IH|]. destruct (List.find _ _); [by eexists|by apply IH].
Qed.

Lemma elem_of_resolved clients inbounds i b :
  b ∈ ResolveInboundClients (clients_config clients inbounds) i <->
  rcb_Binding b ∈ in_Clients i /\ find_named cs_Name (cb_Ref (rcb_Binding b)) clients = Some (rcb_Client b).
Proof.
  unfold ResolveInboundClients. rewrite list_elem_of_omap. unfold ResolveClientBinding, FindClient. cbn. split.
  - intros (x & Hx & Hf). by apply fmap_Some in Hf as (c & E & ->).
  - intros [Hb Hf]. exists (rcb_Binding b). split; [done|]. apply fmap_Some. exists (rcb_Client b). by destruct b.
Qed.

(** C5: a token is one client.  While a handler serves a listener of a validated
    configuration, a request whose token is that of a client of the configuration is
    accepted on a path exactly if some inbound of the listener on that path is bound to
    this client, and then it is served as this client through such an inbound and binding;
    a token that is no client's is refused on every path, and so is the admin token. *)
Theorem token_identifies tzdb ParseURL c c' app rt l path token :
  Validate tzdb ParseURL c = (Ok tt, c') ->
  let s := runtime_state app c' rt l in
  let bound i b client := i ∈ ListenerInbounds c' l /\ in_Path i = path /\ b ∈ in_Clients i /\ cb_Ref b = cs_Name client in
  (forall client, client ∈ cfg_Clients c' -> cs_Token client = token ->
     (is_Some (match_state s path token) <-> exists i b, bound i b client) /\
     forall i rb, match_state s path token = Some (i, rb) -> rcb_Client rb = client /\ bound i (rcb_Binding rb) client) /\
  (token ∉ map cs_Token (cfg_Clients c') -> match_state s path token = None) /\
  (adm_Enabled (cfg_Admin c') = true -> match_state s path (adm_Token (cfg_Admin c')) = None).
Proof.
  intros HV. assert (cfg_Admin c' = cfg_Admin c) as Hadm by (by injection HV as _ <-).
  apply Validate_inv in HV as (names & tokens & inputs & tags & Hc & _ & _ & Ha & _).
  apply validate_clients_ok in Hc as [Hnames Htokens _ Howned _]. cbv zeta.
  assert (forall i rb token, match_state (runtime_state app c' rt l) path token = Some (i, rb) ->
    i ∈ ListenerInbounds c' l /\ in_Path i = path /\ rcb_Binding rb ∈ in_Clients i /\
    rcb_Client rb ∈ cfg_Clients c' /\ cs_Name (rcb_Client rb) = cb_Ref (rcb_Binding rb) /\
    cs_Token (rcb_Client rb) = token) as Hsome.
  { intros i rb t H. apply match_inbound_Some in H as (Hi & Hp & Hb & Ht).
    apply elem_of_resolved in Hb as [Hb [Hf1 Hf2]%find_named_Some]. by split_and!. }
  assert (forall t, t ∉ map cs_Token (cfg_Clients c') -> match_state (runtime_state app c' rt l) path t = None) as Hnone.
  { intros t Hn. destruct (match_state _ _ _) as [[i rb]|] eqn:E; [|done].
    apply Hsome in E as (_ & _ & _ & Hin & _ & <-). destruct Hn. by apply list_elem_of_fmap_2. }
  split; [|split; [apply Hnone|]].
  - intros client Hin <-.
    assert (forall i rb, match_state (runtime_state app c' rt l) path (cs_Token client) = Some (i, rb) ->
      rcb_Client rb = client /\ i ∈ ListenerInbounds c' l /\ in_Path i = path /\ rcb_Binding rb ∈ in_Clients i /\
      cb_Ref (rcb_Binding rb) = cs_Name client) as Hmatch.
    { intros i rb E. apply Hsome in E as (Hi & Hp & Hb & Hcl & Hn & Ht).
      assert (rcb_Client rb = client) as Heq by (by eapply (NoDup_map_inj cs_Token)).
      split_and!; try done. by rewrite <-Hn, Heq. }
    split; [|exact Hmatch]. split.
    + intros [[i rb] E]. apply Hmatch in E as (_ & ?). by exists i, (rcb_Binding rb).
    + intros (i & b & Hi & Hp & Hb & Hr). eapply (match_inbound_found _ _ _ _ i (mkResolvedClientBinding client b)); try done.
      apply elem_of_resolved. split; [done|]. cbn. rewrite Hr. by apply find_named_NoDup.
  - rewrite Hadm. intros Hen. apply Hnone. rewrite <-Howned. unfold validateAdmin in Ha.
    apply bind_Ok in Ha as (? & _ & Ha). cbn in Ha. rewrite Hen in Ha. cbn in Ha. validated Ha. breflect.
    by destruct (tokens !! adm_Token (cfg_Admin c)) as [|]; [|intros []].
Qed.

(** ** Witnesses *)

Definition ex_quota_error : goerror :=
  ErrProvider ErrorKindQuotaExceeded (Some (ErrPlain "key sk-1 is over its limit")) 429 "req-7" "30".
Lemma error_reply_safe_witness :
  let rep := writeExecutionError (fun _ => "secret") no_zone (Some AnthropicMessages) ex_quota_error in
  rp_Headers rep = [("request-id", "req-7"); ("Retry-After", "30")] /\
  writeExecutionError (fun _ => "other") no_zone (Some AnthropicMessages)
    (ErrProvider ErrorKindQuotaExceeded None 503 "req-7" "30") = rep.
Proof.
  split; [by vm_compute|].
  apply (error_reply_safe (fun _ => "secret") no_zone (Some AnthropicMessages) ex_quota_error); by vm_compute.
Defined.

Definition ex_app : App := mkApp witness_config "/etc/syrogo.yaml" None None false [].
Definition ex_runtime : appRuntime :=
  mkAppRuntime (mkRouter [] ∅ ∅ ∅ ∅) None None None None (mkPriceCalculator []) None None.
Definition ex_listener : ListenerSpec := mkListenerSpec "l" ":8080" ["chat"].
Lemma token_identifies_witness :
  let s := runtime_state ex_app witness_config' ex_runtime ex_listener in
  (exists i rb, match_state s "/v1" "t1" = Some (i, rb) /\ cs_Name (rcb_Client rb) = "alice" /\ cb_Tag (rcb_Binding rb) = "team") /\
  match_state s "/v1" "nobody" = None /\ match_state s "/v1" "admin" = None.
Proof.
  destruct (token_identifies witness_zone witness_url witness_config witness_config' ex_app ex_runtime ex_listener
    "/v1" "t1" witness_config_valid) as (Hc & _ & Ha).
  destruct (token_identifies witness_zone witness_url witness_config witness_config' ex_app ex_runtime ex_listener
    "/v1" "nobody" witness_config_valid) as (_ & Hn & _).
  cbv zeta. split; [|split].
  - destruct (Hc (with_client_windows default_window witness_client)) as [_ H]; [by left|done|].
    destruct (match_state (runtime_state ex_app witness_config' ex_runtime ex_listener) "/v1" "t1") as [[i rb]|] eqn:E;
      [|vm_compute in E; discriminate E].
    exists i, rb. split; [done|]. split; [by rewrite (proj1 (H i rb eq_refl))|]. vm_compute in E. by injection E as <- <-.
  - apply Hn. refine (bool_decide_eq_true_1 _ _). vm_compute. reflexivity.
  - by apply Ha.
Defined.
