(* ===== verification/GatewaySessions.v ===== *)
(** * The session endpoints

    Models [internal/gateway/session_ingest.go] (a client's agents register sessions, send
    hook events and heartbeats, and stop), [admin_sessions.go] (the list of sessions with
    the commands that attach to their terminals) and [admin_streaming.go] (the requests in
    progress), with the authorization of both.

    A handler is a function of the runtime it loads, the request, the readings of the
    clock and the session store.  What the JSON decoder makes of a body is an argument:
    a value, or the text of the error.  [time_json] is the marshalled form of a time. *)

From S2P Require Import Prelude GoStrings GoTime GoTimeFacts RuntimeModel GoJson ConfigTypes ConfigResources ConfigValidate Latency Sessions SessionsFacts AppRuntime Reload GatewayCodecs Gateway.

(** ** Authorization *)

Definition authorizeAdmin (s : RuntimeState) (r : httpRequest) : bool :=
  let admin := rs_Admin s in
  if negb (adm_Enabled admin) || (adm_Token admin == "") then false
  else bearerToken (hr_Header r "Authorization") == adm_Token admin.
Definition authorizeAccounting (s : RuntimeState) (r : httpRequest) : bool :=
  let accounting := rs_Accounting s in
  if negb (acc_Enabled accounting) || negb (acc_ExposeHTTP accounting) || (acc_AdminToken accounting == "") then false
  else bearerToken (hr_Header r "Authorization") == acc_AdminToken accounting.
Definition authorizeAdminOrAccounting (s : RuntimeState) (r : httpRequest) : bool :=
  authorizeAdmin s r || authorizeAccounting s r.

(** The client of the token among those bound to the first inbound of that name *)
Definition matchSessionClient (s : RuntimeState) (r : httpRequest) (inboundName : string)
    : option (InboundSpec * ResolvedClientBinding) :=
  let token := bearerToken (hr_Header r "Authorization") in
  if (token == "") || (inboundName == "") then None else
  inbound ← find_named in_Name inboundName (rs_Inbounds s);
  client ← List.find (has_token token) (ResolveInboundClients (clients_config (rs_Clients s) (rs_Inbounds s)) inbound);
  Some (inbound, client).

(** ** Requests *)

Record sessionRegisterRequest := mkSessionRegisterRequest {
  srr_SessionID : string; srr_ClientName : string; srr_InboundName : string; srr_Tag : string; srr_Host : string;
  srr_PID : Z; srr_CWD : string; srr_GitBranch : string; srr_Command : list string; srr_Tmux : TmuxInfo;
  srr_StartedAt : Time; srr_HeartbeatCapability : string
}.
Record sessionHookEventRequest := mkSessionHookEventRequest {
  shr_SessionID : string; shr_InboundName : string; shr_EventName : string; shr_Payload : payload; shr_ReceivedAt : Time
}.
Record sessionHeartbeatRequest := mkSessionHeartbeatRequest { shb_SessionID : string; shb_InboundName : string }.
Record sessionStoppedRequest := mkSessionStoppedRequest {
  sst_SessionID : string; sst_InboundName : string; sst_ExitCode : Z
}.

(** ** Answers *)

Definition StatusForbidden := 403.
Definition StatusConflict := 409.

Definition status_text (s : Status) : string :=
  match s with
  | StatusUnknown => "unknown" | StatusRunning => "running" | StatusToolRunning => "tool_running"
  | StatusWaitingPermission => "waiting_permission" | StatusIdle => "idle" | StatusCompacting => "compacting"
  | StatusStopped => "stopped" | StatusEmpty => "" | StatusOther s => s
  end.

Section handlers.
Context (time_json : Time -> string).

Definition omit_empty (name s : string) : list (string * value) := if s == "" then [] else [(name, VStr s)].
Definition omit_time (name : string) (t : option Time) : list (string * value) :=
  match t with Some t => [(name, VStr (time_json t))] | None => [] end.
Definition tmux_value (t : TmuxInfo) : value :=
  VStruct ([("present", VBool (tmux_Present t))] ++ omit_empty "session" (tmux_Session t) ++
           omit_empty "window_index" (tmux_WindowIndex t) ++ omit_empty "window_name" (tmux_WindowName t) ++
           omit_empty "pane_index" (tmux_PaneIndex t) ++ omit_empty "pane_id" (tmux_PaneID t)).
Definition session_members (s : Session) : list (string * value) :=
  let i := sn_identity s in
  [("id", VStr (id_ID i)); ("client_name", VStr (id_ClientName i)); ("inbound_name", VStr (id_InboundName i));
   ("tag", VStr (id_Tag i)); ("host", VStr (id_Host i)); ("pid", VInt (id_PID i)); ("cwd", VStr (id_CWD i))] ++
  omit_empty "git_branch" (id_GitBranch i) ++
  (match id_Command i with [] => [] | l => [("command", VArr (map VStr l))] end) ++
  [("tmux", tmux_value (id_Tmux i)); ("status", VStr (status_text (sn_Status s)))] ++
  omit_empty "mode" (id_Mode i) ++ omit_empty "last_event" (sn_LastEvent s) ++
  [("started_at", VStr (time_json (sn_StartedAt s))); ("last_seen_at", VStr (time_json (sn_LastSeenAt s)))] ++
  omit_empty "heartbeat_capability" (sn_HeartbeatCapability s) ++
  omit_time "last_heartbeat_at" (sn_LastHeartbeatAt s) ++ omit_time "lease_expires_at" (sn_LeaseExpiresAt s) ++
  (if sn_RecoveryPending s then [("recovery_pending", VBool true)] else []) ++
  omit_time "recovered_at" (sn_RecoveredAt s) ++ omit_time "stopped_at" (sn_StoppedAt s) ++
  (match sn_ExitCode s with Some n => [("exit_code", VInt n)] | None => [] end).
Definition session_reply (s : Session) : reply :=
  writeJSON StatusOK (VMap [("ok", VBool true); ("session", VStruct (session_members s))]).

Definition session_error_text (e : sessionError) : string :=
  match e with
  | ErrSessionOwnerMismatch => "session ID belongs to a different owner"
  | ErrHeartbeatCapabilityUnsupported => "session does not support heartbeat"
  end.

(** ** The handlers *)

(** What the four handlers do first; [missing] is the text of a missing member, if any. *)
Definition with_client {A} (s : RuntimeState) (r : httpRequest) (body : result string A) (missing : A -> option string)
    (inboundName : A -> string) (st : Store)
    (k : A -> InboundSpec -> ResolvedClientBinding -> reply * Store) : reply * Store :=
  if hr_Method r != MethodPost then (writeError StatusMethodNotAllowed "method not allowed", st) else
  match body with
  | Err e => (writeError StatusBadRequest ("invalid json: " +:+ e), st)
  | Ok req =>
      match missing req with
      | Some text => (writeError StatusBadRequest text, st)
      | None =>
          match matchSessionClient s r (inboundName req) with
          | None => (writeError StatusUnauthorized "invalid client binding", st)
          | Some (inbound, resolved) => k req inbound resolved
          end
      end
  end.

Definition registration (req : sessionRegisterRequest) (inbound : InboundSpec) (resolved : ResolvedClientBinding) : Session :=
  mkSession (mkIdentity (srr_SessionID req) (cs_Name (rcb_Client resolved)) (in_Name inbound)
      (cb_Tag (rcb_Binding resolved)) (srr_Host req) (srr_PID req) (srr_CWD req) (srr_GitBranch req) (srr_Command req)
      (srr_Tmux req) "")
    StatusUnknown "" (srr_StartedAt req) zero_time (srr_HeartbeatCapability req) None None false None None None zero_time.

Definition register_missing (req : sessionRegisterRequest) : option string :=
  if srr_SessionID req == "" then Some "session_id is required"
  else if srr_InboundName req == "" then Some "inbound_name is required"
  else if (srr_HeartbeatCapability req != "") && (srr_HeartbeatCapability req != HeartbeatCapabilityV1)
  then Some "unsupported heartbeat_capability"
  else None.
Definition handleSessionRegister (s : RuntimeState) (r : httpRequest) (body : result string sessionRegisterRequest)
    (now : Time) (st : Store) : reply * Store :=
  with_client s r body register_missing srr_InboundName st (fun req inbound resolved =>
    if (srr_ClientName req != "") && (srr_ClientName req != cs_Name (rcb_Client resolved))
    then (writeError StatusForbidden "client does not match token", st)
    else match Sessions.Register st (registration req inbound resolved) now with
         | (Err _, st) => (writeError StatusConflict "session ID belongs to a different owner", st)
         | (Ok session, st) => (session_reply session, st)
         end).

Definition not_found (st : Store) : reply * Store := (writeError StatusNotFound "session not found", st).

Definition hook_missing (req : sessionHookEventRequest) : option string :=
  if (shr_SessionID req == "") || (shr_EventName req == "") || (shr_InboundName req == "")
  then Some "session_id, inbound_name, and event_name are required" else None.
Definition handleSessionHookEvent (s : RuntimeState) (r : httpRequest) (body : result string sessionHookEventRequest)
    (received now : Time) (st : Store) : reply * Store :=
  with_client s r body hook_missing shr_InboundName st (fun req inbound resolved =>
    match ApplyHookEvent st (cs_Name (rcb_Client resolved)) (in_Name inbound)
            (mkHookEvent (shr_SessionID req) (shr_EventName req) (shr_Payload req) (shr_ReceivedAt req)) received now with
    | (None, st) => not_found st
    | (Some session, st) => (session_reply session, st)
    end).

Definition ids_missing (sessionID inboundName : string) : option string :=
  if (sessionID == "") || (inboundName == "") then Some "session_id and inbound_name are required" else None.
Definition handleSessionHeartbeat (s : RuntimeState) (r : httpRequest) (body : result string sessionHeartbeatRequest)
    (now : Time) (st : Store) : reply * Store :=
  with_client s r body (fun req => ids_missing (shb_SessionID req) (shb_InboundName req)) shb_InboundName st
    (fun req inbound resolved =>
      match Heartbeat st (cs_Name (rcb_Client resolved)) (in_Name inbound) (shb_SessionID req) now with
      | (None, st) => not_found st
      | (Some (Err e), st) => (writeError StatusBadRequest (session_error_text e), st)
      | (Some (Ok session), st) => (session_reply session, st)
      end).
Definition handleSessionStopped (s : RuntimeState) (r : httpRequest) (body : result string sessionStoppedRequest)
    (now : Time) (st : Store) : reply * Store :=
  with_client s r body (fun req => ids_missing (sst_SessionID req) (sst_InboundName req)) sst_InboundName st
    (fun req inbound resolved =>
      match MarkStopped st (cs_Name (rcb_Client resolved)) (in_Name inbound) (sst_SessionID req) (sst_ExitCode req) now with
      | (None, st) => not_found st
      | (Some session, st) => (session_reply session, st)
      end).

(** ** The administrator's views *)

Definition MethodGet := "GET".
(** A handler of the administrator that only reads *)
Definition admin_get (s : RuntimeState) (r : httpRequest) (answer : value) : reply :=
  if hr_Method r != MethodGet then writeError StatusMethodNotAllowed "method not allowed"
  else if negb (authorizeAdmin s r) then writeError StatusUnauthorized "invalid admin token"
  else writeJSON StatusOK answer.

(** [strings.ReplaceAll] of a byte *)
Fixpoint replace_byte (c : ascii) (by_ s : string) : string :=
  match s with
  | EmptyString => EmptyString
  | String d s => if Ascii.eqb d c then by_ +:+ replace_byte c by_ s else String d (replace_byte c by_ s)
  end.
Definition shellArg (value : string) : string := "'" +:+ replace_byte "'" "'\''" value +:+ "'".

Record sessionCommands := mkSessionCommands { sc_Attach : string; sc_SelectWindow : string; sc_SelectPane : string }.
Definition tmuxCommands (info : TmuxInfo) : sessionCommands :=
  if negb (tmux_Present info) || (tmux_Session info == "") then mkSessionCommands "" "" ""
  else mkSessionCommands ("tmux attach -t " +:+ shellArg (tmux_Session info))
    (if tmux_WindowIndex info == "" then ""
     else "tmux select-window -t " +:+ shellArg (tmux_Session info +:+ ":" +:+ tmux_WindowIndex info))
    (if tmux_PaneID info == "" then "" else "tmux select-pane -t " +:+ shellArg (tmux_PaneID info)).

Definition admin_session_item (s : Session) : value :=
  let c := tmuxCommands (id_Tmux (sn_identity s)) in
  VStruct (session_members s ++
    [("commands", VStruct (omit_empty "attach" (sc_Attach c) ++ omit_empty "select_window" (sc_SelectWindow c) ++
                           omit_empty "select_pane" (sc_SelectPane c)))]).
(** [query] is [r.URL.Query().Get]; [status_of_text] reads a status. *)
Definition status_of_text (s : string) : Status :=
  match s with
  | "unknown" => StatusUnknown | "running" => StatusRunning | "tool_running" => StatusToolRunning
  | "waiting_permission" => StatusWaitingPermission | "idle" => StatusIdle | "compacting" => StatusCompacting
  | "stopped" => StatusStopped | "" => StatusEmpty | s => StatusOther s
  end.
Definition handleAdminSessions (s : RuntimeState) (r : httpRequest) (query : string -> string) (st : Store) : reply :=
  admin_get s r (VMap [("items", VArr (map admin_session_item (Sessions.List_ st (mkListFilter (TrimSpace (query "client"))
    (status_of_text (TrimSpace (query "status"))) (TrimSpace (query "host")) (TrimSpace (query "cwd"))))))]).
End handlers.

(** The requests in progress, with how long they have been so *)
Record activeLatencyItem := mkActiveLatencyItem {
  ali_Trace : Trace; ali_ElapsedMs : Z; ali_WaitingFirstTokenMs : Z; ali_StreamIdleMs : Z
}.
Definition elapsedSince (value : string) (now : Time) : Z :=
  if value == "" then 0 else
  match parse_rfc3339 value with
  | None => 0
  | Some startedAt => if Before now startedAt then 0 else Milliseconds (Sub now startedAt)
  end.
Definition active_item (now : Time) (t : Trace) : activeLatencyItem :=
  mkActiveLatencyItem t (elapsedSince (tr_StartedAt t) now)
    (if tr_StreamState t == StreamStateWaitingFirstToken then elapsedSince (tr_ProviderSelectedAt t) now else 0)
    (if tr_StreamState t == StreamStateStreaming then elapsedSince (tr_LastStreamEventAt t) now else 0).
Definition handleAdminActiveLatency (now : Time) (traces : list Trace) : list activeLatencyItem := map (active_item now) traces.
