(* ===== verification/GatewaySessionsFacts.v ===== *)
(** * Properties of the session endpoints

    A client's requests reach its own sessions only; the commands shown to the
    administrator are what a shell reads back. *)

From S2P Require Import Dispatcher.
From S2P Require Import Prelude GoStrings GoTime GoTimeFacts RuntimeModel GoJson ConfigTypes ConfigResources ConfigValidate Latency Sessions SessionsFacts AppRuntime Reload GatewayCodecs Gateway GatewaySafety GatewaySessions.

(** ** Requests as data *)

Inductive session_request :=
| SRegister (body : result string sessionRegisterRequest)
| SHook (body : result string sessionHookEventRequest)
| SHeartbeat (body : result string sessionHeartbeatRequest)
| SStopped (body : result string sessionStoppedRequest).

Section isolation.
Context (time_json : Time -> string) (s : RuntimeState) (r : httpRequest) (received now : Time).

Definition serve_session (req : session_request) (st : Store) : reply * Store :=
  match req with
  | SRegister body => handleSessionRegister time_json s r body now st
  | SHook body => handleSessionHookEvent time_json s r body received now st
  | SHeartbeat body => handleSessionHeartbeat time_json s r body now st
  | SStopped body => handleSessionStopped time_json s r body now st
  end.

(** The identifier and the inbound a request names *)
Definition request_names (req : session_request) : option (string * string) :=
  match req with
  | SRegister (Ok q) => Some (srr_SessionID q, srr_InboundName q)
  | SHook (Ok q) => Some (shr_SessionID q, shr_InboundName q)
  | SHeartbeat (Ok q) => Some (shb_SessionID q, shb_InboundName q)
  | SStopped (Ok q) => Some (sst_SessionID q, sst_InboundName q)
  | _ => None
  end.

(** What a request does: nothing, answered with an error, or one operation of the store on
    the session it names, for the client of its token *)
Definition own_op (c i id : string) (o : op) : Prop :=
  match o with
  | OpRegister t _ => id_ID (sn_identity t) = id /\ owner t = (c, i)
  | OpHook c' i' e _ _ => c' = c /\ i' = i /\ he_SessionID e = id
  | OpMarkStopped c' i' id' _ _ => c' = c /\ i' = i /\ id' = id
  | OpHeartbeat c' i' id' _ => c' = c /\ i' = i /\ id' = id
  | OpSweep _ _ _ => False
  end.

Lemma registered_owner e t at_ : owner (registered e t at_) = owner t.
Proof. by destruct e. Qed.

Lemma own_op_written c i id o st id' t :
  own_op c i id o -> written st o = Some (id', t) ->
  id' = id /\ owner t = (c, i) /\ (forall e, st_sessions st !! id = Some e -> owner e = (c, i)).
Proof.
  intros Ho Hw. assert (forall e, st_sessions st !! id' = Some e -> owner t = owner e) as Hsame
    by (intros e He; by eapply written_owner).
  destruct o as [t0 now'|c' i' e rc now'|c' i' id0 code now'|c' i' id0 now'|]; cbn in Ho, Hw; [| | | |done].
  - destruct Ho as [<- Ho].
    assert (id' = id_ID (sn_identity t0) /\ owner t = (c, i)) as [-> Ht].
    { destruct (st_sessions st !! id_ID (sn_identity t0)) as [e|] eqn:E.
      - destruct (owned e _ _ && _); [|done]. injection Hw as <- <-. split; [done|exact Ho].
      - injection Hw as <- <-. split; [done|exact Ho]. }
    split; [done|]. split; [done|]. intros e He. by rewrite <-(Hsame e He).
  - destruct Ho as (-> & -> & <-). destruct (GetOwned _ _ _ _) as [t1|] eqn:E; cbn in Hw; [|done].
    apply GetOwned_Some in E as [E Eo]. destruct (stopped t1); [done|]. injection Hw as <- <-.
    split; [done|]. rewrite (Hsame t1 E). split; [by apply owned_owner|].
    intros e1 He1. rewrite E in He1. injection He1 as <-. by apply owned_owner.
  - destruct Ho as (-> & -> & ->). destruct (GetOwned _ _ _ _) as [t1|] eqn:E; cbn in Hw; [|done].
    apply GetOwned_Some in E as [E Eo]. destruct (stopped t1); [done|]. injection Hw as <- <-.
    split; [done|]. rewrite (Hsame t1 E). split; [by apply owned_owner|].
    intros e1 He1. rewrite E in He1. injection He1 as <-. by apply owned_owner.
  - destruct Ho as (-> & -> & ->). destruct (GetOwned _ _ _ _) as [t1|] eqn:E; cbn in Hw; [|done].
    apply GetOwned_Some in E as [E Eo]. destruct (stopped t1); cbn in Hw; [done|]. destruct (_ != _); [done|].
    injection Hw as <- <-. split; [done|]. rewrite (Hsame t1 E). split; [by apply owned_owner|].
    intros e1 He1. rewrite E in He1. injection He1 as <-. by apply owned_owner.
Qed.

(** A request is answered with an error and changes nothing, or is one operation of the
    client of its token on the session it names. *)
Lemma serve_session_cases req st rep st' :
  serve_session req st = (rep, st') ->
  st' = st \/
  exists i c id o, request_names req = Some (id, in_Name i) /\
    matchSessionClient s r (in_Name i) = Some (i, c) /\
    own_op (cs_Name (rcb_Client c)) (in_Name i) id o /\ st' = apply_op st o.
Proof.
  assert (forall n i c, matchSessionClient s r n = Some (i, c) -> in_Name i = n) as Hname.
  { intros n i c H. unfold matchSessionClient in H. destruct (_ || _); [done|].
    apply bind_Some in H as (i' & Hf & H). apply bind_Some in H as (c' & _ & H). simplify_eq.
    by apply find_named_Some in Hf as [_ ?]. }
  unfold serve_session, handleSessionRegister, handleSessionHookEvent, handleSessionHeartbeat, handleSessionStopped,
    with_client, not_found.
  destruct req as [body|body|body|body]; (destruct (_ != MethodPost); [intros [= <- <-]; by left|]);
    (destruct body as [q|e]; [|intros [= <- <-]; by left]);
    (match goal with |- context [match ?m with Some text => (writeError _ text, _) | None => _ end] =>
       destruct m; [intros [= <- <-]; by left|] end);
    (destruct (matchSessionClient s r _) as [[i c]|] eqn:E; [|intros [= <- <-]; by left]);
    pose proof (Hname _ _ _ E) as Hn; cbn [request_names].
  - destruct (_ && _); [intros [= <- <-]; by left|]. intros H. right.
    exists i, c, (srr_SessionID q), (OpRegister (registration q i c) now). split_and!; try done; try (by rewrite Hn).
    cbn [apply_op]. by destruct (Sessions.Register _ _ _) as [[|] ?]; injection H as <- <-.
  - intros H. right. exists i, c, (shr_SessionID q), (OpHook (cs_Name (rcb_Client c)) (in_Name i)
      (mkHookEvent (shr_SessionID q) (shr_EventName q) (shr_Payload q) (shr_ReceivedAt q)) received now). split_and!; try done; try (by rewrite Hn).
    cbn [apply_op]. by destruct (ApplyHookEvent _ _ _ _ _ _) as [[|] ?]; injection H as <- <-.
  - intros H. right. exists i, c, (shb_SessionID q), (OpHeartbeat (cs_Name (rcb_Client c)) (in_Name i) (shb_SessionID q) now). split_and!; try done; try (by rewrite Hn).
    cbn [apply_op]. by destruct (Heartbeat _ _ _ _ _) as [[[|]|] ?]; injection H as <- <-.
  - intros H. right. exists i, c, (sst_SessionID q),
      (OpMarkStopped (cs_Name (rcb_Client c)) (in_Name i) (sst_SessionID q) (sst_ExitCode q) now). split_and!; try done; try (by rewrite Hn).
    cbn [apply_op]. by destruct (MarkStopped _ _ _ _ _ _) as [[|] ?]; injection H as <- <-.
Qed.

(** The request shows the token of [client], which the inbound [i] of this handler's
    listener is bound to. *)
Definition speaks_for (i : InboundSpec) (client : ClientSpec) : Prop :=
  i ∈ rs_Inbounds s /\ client ∈ rs_Clients s /\ (exists b, b ∈ in_Clients i /\ cb_Ref b = cs_Name client) /\
  cs_Token client <> "" /\ bearerToken (hr_Header r "Authorization") = cs_Token client.

Lemma matchSessionClient_speaks n i rb :
  matchSessionClient s r n = Some (i, rb) -> in_Name i = n /\ speaks_for i (rcb_Client rb).
Proof.
  unfold matchSessionClient. destruct (String.eqb_spec (bearerToken (hr_Header r "Authorization")) "") as [|Ht]; [done|].
  destruct (n == ""); [done|]. cbn [orb]. intros H.
  apply bind_Some in H as (i' & [Hi Hn]%find_named_Some & H). apply bind_Some in H as (rb' & H & [= <- <-]).
  apply find_some in H as [Hin%list_elem_of_In Htok%String.eqb_eq].
  apply elem_of_resolved in Hin as [Hb [Hc Hname]%find_named_Some].
  split; [done|]. unfold speaks_for. rewrite Htok. split_and!; try done. by exists (rcb_Binding rb').
Qed.

(** C13: sessions are isolated by token and inbound.  Whatever a session request carries,
    it changes at most the one session it names, and only when the bearer token it shows is
    that of a client that the inbound it names is bound to: the session is then this
    client's on this inbound if it is there, and it stays so or is made so.  Every other
    session is as it was, in particular every session of another client, and of this client
    on another inbound; a request without a token, or with one that no bound client has,
    changes nothing. *)
Theorem session_isolation req st rep st' id' :
  serve_session req st = (rep, st') -> st_sessions st' !! id' <> st_sessions st !! id' ->
  exists i client t, request_names req = Some (id', in_Name i) /\ speaks_for i client /\
    st_sessions st' !! id' = Some t /\ owner t = (cs_Name client, in_Name i) /\
    (forall e, st_sessions st !! id' = Some e -> owner e = (cs_Name client, in_Name i)).
Proof.
  intros H Hne. apply serve_session_cases in H as [->|(i & c & id & o & Hid & Hm & Ho & ->)]; [done|].
  apply matchSessionClient_speaks in Hm as [_ Hs].
  exists i, (rcb_Client c). rewrite apply_op_lookup in *.
  destruct o as [t0 ?|? ? ? ? ?|? ? ? ? ?|? ? ? ?|? ? ?]; [..|done].
  all: destruct (written st _) as [[id1 t]|] eqn:Hw; [|done]; destruct (decide (id1 = id')) as [->|]; [|done];
    destruct (own_op_written _ _ _ _ _ _ _ Ho Hw) as (-> & Ht & He); by exists t.
Qed.
End isolation.

(** ** The commands, read by a shell

    A reference for the part of the shell's grammar that matters: words are separated by
    blanks; between single quotes every byte stands for itself; a backslash takes the next
    byte as it is; outside of quotes only bytes without a meaning of their own may stand,
    everything else is refused. *)
Definition plain_byte (c : ascii) : bool :=
  let n := Z.of_N (N_of_ascii c) in
  ((48 <=? n) && (n <=? 57)) || ((65 <=? n) && (n <=? 90)) || ((97 <=? n) && (n <=? 122)) ||
  existsb (Ascii.eqb c) ["-"; "_"; "="]%char.
Definition finish (cur : option string) (words : list string) : list string :=
  match cur with Some w => w :: words | None => words end.
Fixpoint sh (quoted : bool) (cur : option string) (s : string) : option (list string) :=
  match s with
  | EmptyString => if quoted then None else Some (finish cur [])
  | String c s =>
      if quoted then
        if Ascii.eqb c "'" then sh false cur s else sh true (Some (default "" cur +:+ String c "")) s
      else if Ascii.eqb c "'" then sh true (Some (default "" cur)) s
      else if Ascii.eqb c "\" then
        match s with
        | String d s => sh false (Some (default "" cur +:+ String d "")) s
        | EmptyString => None
        end
      else if Ascii.eqb c " " then finish cur <$> sh false None s
      else if plain_byte c then sh false (Some (default "" cur +:+ String c "")) s
      else None
  end.
Definition sh_words (s : string) : option (list string) := sh false None s.

Lemma sh_literal w c s : Ascii.eqb c "'" = false -> sh true (Some w) (String c s) = sh true (Some (w +:+ String c "")) s.
Proof. intros H. cbn [sh]. by rewrite H. Qed.
Lemma sh_quoted w v rest :
  sh true (Some w) (replace_byte "'" "'\''" v +:+ ("'" +:+ rest)) = sh false (Some (w +:+ v)) rest.
Proof.
  revert w. induction v as [|c v IH]; intros w; [by rewrite str_app_nil_r|].
  cbn [replace_byte]. destruct (Ascii.eqb_spec c "'") as [->|Hc].
  - change (sh true (Some (w +:+ "'")) (replace_byte "'" "'\''" v +:+ ("'" +:+ rest)) = sh false (Some (w +:+ ("'" +:+ v))) rest).
    rewrite IH. by rewrite str_app_assoc.
  - etransitivity; [by apply sh_literal, Ascii.eqb_neq|]. change (String c v) with (String c "" +:+ v).
    rewrite (str_app_assoc w (String c "") v). apply IH.
Qed.
Lemma sh_shellArg value : sh false None (shellArg value) = Some [value].
Proof. exact (sh_quoted "" value ""). Qed.

(** A prefix that is words of plain bytes *)
Lemma sh_command prefix words value :
  (forall rest, sh_words (prefix +:+ rest) =
     foldr (fun w o => finish (Some w) <$> o) (sh false None rest) words) ->
  sh_words (prefix +:+ shellArg value) = Some (words ++ [value]).
Proof. intros ->. rewrite sh_shellArg. induction words as [|w words IH]; [done|]. cbn. by rewrite IH. Qed.

(** The attach commands are safe to paste.  Whatever bytes a client put into the
    names of its terminal session, window and pane, a shell reads each command shown to the
    administrator as [tmux], its subcommand, [-t] and exactly one more word, the target;
    no command is shown for a session that is not in a terminal. *)
Theorem commands_quoted info :
  let c := tmuxCommands info in
  (tmux_Present info = false \/ tmux_Session info = "" -> c = mkSessionCommands "" "" "") /\
  (tmux_Present info = true -> tmux_Session info <> "" ->
     sh_words (sc_Attach c) = Some ["tmux"; "attach"; "-t"; tmux_Session info] /\
     (if tmux_WindowIndex info == "" then sc_SelectWindow c = ""
      else sh_words (sc_SelectWindow c) =
             Some ["tmux"; "select-window"; "-t"; tmux_Session info +:+ ":" +:+ tmux_WindowIndex info]) /\
     (if tmux_PaneID info == "" then sc_SelectPane c = ""
      else sh_words (sc_SelectPane c) = Some ["tmux"; "select-pane"; "-t"; tmux_PaneID info])).
Proof.
  cbv zeta. unfold tmuxCommands. split.
  - intros [->| ->]; [done|]. rewrite String.eqb_refl. by rewrite orb_true_r.
  - intros -> Hs. apply String.eqb_neq in Hs. rewrite Hs. cbn [negb orb sc_Attach sc_SelectWindow sc_SelectPane].
    split_and!.
    + by rewrite (sh_command "tmux attach -t " ["tmux"; "attach"; "-t"]).
    + destruct (tmux_WindowIndex info == ""); [done|]. by rewrite (sh_command "tmux select-window -t " ["tmux"; "select-window"; "-t"]).
    + destruct (tmux_PaneID info == ""); [done|]. by rewrite (sh_command "tmux select-pane -t " ["tmux"; "select-pane"; "-t"]).
Qed.

(** ** Witnesses *)

Definition ex_clients : list ClientSpec :=
  [mkClientSpec "client" "t1" (mkClientQuotaConfig false []); mkClientSpec "other" "t2" (mkClientQuotaConfig false [])].
Definition ex_inbound : InboundSpec :=
  mkInboundSpec "in" "openai_chat" "/v1" [mkClientBindingSpec "client" "a"; mkClientBindingSpec "other" "b"].
Definition ex_state : RuntimeState :=
  mkRuntimeState (Router.mkRouter [] ∅ ∅ ∅ ∅) (mkDispatcher false false false (Accounting.mkPriceCalculator [])) ex_clients
    [ex_inbound] None None None
    (cfg_Accounting (clients_config [] [])) (cfg_Admin (clients_config [] [])) "".
Definition ex_post (token : string) : httpRequest :=
  mkHTTPRequest "POST" "/session/stopped" (fun name => if name == "Authorization" then "Bearer " +:+ token else "") (Some "").
Definition ex_stop (token : string) : reply * Store :=
  serve_session format_rfc3339nano ex_state (ex_post token) ex_t0 ex_t0 (SStopped (Ok (mkSessionStoppedRequest "s1" "in" 0))) ex_store.

(** The session of [client] is stopped by its own token, and not by the other one. *)
Example other_token : rp_Status (ex_stop "t2").1 = 404 /\ (ex_stop "t2").2 = ex_store.
Proof. vm_compute. done. Qed.
Lemma session_isolation_witness :
  rp_Status (ex_stop "t1").1 = 200 /\
  exists i client t, speaks_for ex_state (ex_post "t1") i client /\
    st_sessions (ex_stop "t1").2 !! "s1" = Some t /\ owner t = (cs_Name client, in_Name i).
Proof.
  split; [by vm_compute|].
  destruct (session_isolation format_rfc3339nano ex_state (ex_post "t1") ex_t0 ex_t0
    (SStopped (Ok (mkSessionStoppedRequest "s1" "in" 0))) ex_store (ex_stop "t1").1 (ex_stop "t1").2 "s1")
    as (i & c & t & _ & Hm & Ht & Ho & _).
  - unfold ex_stop. by destruct (serve_session _ _ _ _ _ _ _).
  - refine (bool_decide_eq_true_1 _ _). vm_compute. reflexivity.
  - by exists i, c, t.
Defined.

Lemma commands_quoted_witness :
  sh_words (sc_Attach (tmuxCommands (mkTmuxInfo true "it's; rm -rf /" "" "" "" ""))) =
  Some ["tmux"; "attach"; "-t"; "it's; rm -rf /"].
Proof. by apply (commands_quoted (mkTmuxInfo true "it's; rm -rf /" "" "" "" "")). Defined.
