(* ===== verification/GatewayStats.v ===== *)
(** * The statistics endpoints

    Models [internal/gateway/usage_query.go] and the [/stats] handlers of [handler.go]: who
    may ask, how a usage query is read, and what is answered from the components. *)

From S2P Require Import Prelude GoStrings GoTime GoTimeFacts RuntimeModel ConfigTypes QuotaWindow QuotaTracker Accounting AccountingFacts QuotaEvents Latency Health Dispatcher Reload GatewayCodecs Gateway GatewaySessions.

(** ** Usage queries *)

(** [url.Values]: [None] for a parameter that is absent, else its first value *)
Abbreviation url_values := (string -> option string).
Definition Get (values : url_values) (name : string) : string := default "" (values name).
Definition HasParam (values : url_values) (name : string) : bool := match values name with Some _ => true | None => false end.

Inductive usageQueryError :=
| RangeWithWindow
| BothDates
| BadDate (field : string)
| DatesUnordered.
Definition usage_error_text (e : usageQueryError) : string :=
  match e with
  | RangeWithWindow => "start_date/end_date cannot be combined with window/bucket"
  | BothDates => "start_date and end_date must be provided together"
  | BadDate field => field +:+ " must be a valid YYYY-MM-DD UTC date"
  | DatesUnordered => "start_date must be before end_date"
  end.

Definition parse_usage_day (field value : string) : result usageQueryError Time :=
  match parse_day value with
  | Some parsed => if format_day parsed == value then Ok parsed else Err (BadDate field)
  | None => Err (BadDate field)
  end.
Definition parseUsageDateRange (startDate endDate : string) : result usageQueryError (Time * Time) :=
  start ← parse_usage_day "start_date" startDate;
  stop ← parse_usage_day "end_date" endDate;
  _ ← require (Before start stop) DatesUnordered;
  Ok (start, stop).

(** [now.UTC().Truncate(24*time.Hour).AddDate(0, 0, 1)]: a day is a multiple of 24 hours
    from the zero time. *)
Definition tomorrow_of (now : Time) : Time := add_days_in UTC (now - now mod (24 * Hour)) 1.

Definition parseUsageQuery (values : url_values) (now : Time) : result usageQueryError Query :=
  let groupBy := TrimSpace (Get values "group_by") in
  let groupBy := if groupBy == "" then "key" else groupBy in
  let window := TrimSpace (Get values "window") in
  let bucket := TrimSpace (Get values "bucket") in
  let startDate := TrimSpace (Get values "start_date") in
  let endDate := TrimSpace (Get values "end_date") in
  let hasLegacy := HasParam values "window" || HasParam values "bucket" in
  let hasRange := HasParam values "start_date" || HasParam values "end_date" in
  _ ← require (negb (hasLegacy && hasRange)) RangeWithWindow;
  if hasRange then
    _ ← require (negb ((startDate == "") || (endDate == ""))) BothDates;
    _ ← parseUsageDateRange startDate endDate;
    Ok (mkQuery groupBy WindowTotal bucket startDate endDate "")
  else if hasLegacy then Ok (mkQuery groupBy (if window == "" then WindowTotal else window) bucket "" "" "")
  else
    let tomorrow := tomorrow_of now in
    Ok (mkQuery groupBy WindowTotal bucket (format_day (add_days_in UTC tomorrow (-7))) (format_day tomorrow) "").

(** ** The handlers *)

(** A refusal, or the data that is sent *)
Inductive stats_answer (A : Type) := Refused (status : Z) (message : string) | Data (a : A).
Arguments Refused {A} status message.
Arguments Data {A} a.

Definition stats_get {A} (s : RuntimeState) (r : httpRequest) (answer : stats_answer A) : stats_answer A :=
  if hr_Method r != MethodGet then Refused StatusMethodNotAllowed "method not allowed"
  else if negb (authorizeAccounting s r) then Refused StatusUnauthorized "invalid admin token"
  else answer.

Section stats.
(** The runtime, the dispatcher's components, and the text of the store's errors *)
Context (query_text : queryError -> string) (s : RuntimeState) (w : Dispatcher.World) (now : Time).

Definition handleUsageStats (r : httpRequest) (values : url_values) : stats_answer (list StatsItem) :=
  stats_get s r
    match parseUsageQuery values now with
    | Err e => Refused StatusBadRequest (usage_error_text e)
    | Ok query =>
        match QueryUsageBy w query with
        | Err e => Refused StatusBadRequest (query_text e)
        | Ok items => Data items
        end
    end.
Definition handleQuotaStats (r : httpRequest) : stats_answer (list SnapshotItem) := stats_get s r (Data (QueryQuota w).1).
Definition handleClientQuotaStats (r : httpRequest) : stats_answer (list SnapshotItem) :=
  stats_get s r (Data (ClientSnapshot (w_clients w) now).1).

(** Provider health, outbound quota, client quota, events *)
Definition handleGovernanceStats (r : httpRequest)
    : stats_answer (list HealthSnapshotItem * list SnapshotItem * list SnapshotItem * list QuotaEvents.Event) :=
  stats_get s r (Data (QueryProviderHealth w, (QueryQuota w).1, (ClientSnapshot (w_clients w) now).1,
                       match rs_EventRecorder s with Some _ => QueryQuotaEvents w | None => [] end)).
Definition handleLatencyStats (r : httpRequest) : stats_answer (list Trace) := stats_get s r (Data (QueryLatency w)).
Definition handleLatencySummaryStats (r : httpRequest) : stats_answer Summary := stats_get s r (Data (QueryLatencySummary w)).
End stats.

(** ** Properties *)

Lemma parse_usage_day_range field value t : parse_usage_day field value = Ok t -> parse_range_day field value = Ok t.
Proof.
  unfold parse_usage_day, parse_range_day. destruct (parse_day value) as [a|]; [|done]. destruct (format_day a == value); [|done].
  by intros [= <-].
Qed.
Lemma parseUsageDateRange_accepted sd ed start stop :
  parseUsageDateRange sd ed = Ok (start, stop) -> sd <> "" -> ed <> "" ->
  parseDateRange sd ed = Ok (start, stop).
Proof.
  unfold parseUsageDateRange, parseDateRange. intros H Hs He. apply String.eqb_neq in Hs, He. rewrite Hs, He.
  apply bind_Ok in H as (t0 & H0%parse_usage_day_range & H). apply bind_Ok in H as (t1 & H1%parse_usage_day_range & H).
  apply bind_Ok in H as ([] & Hb%require_Ok & H). injection H as <- <-. cbn. rewrite H0. cbn. rewrite H1.
  cbn. by rewrite Hb.
Qed.

Lemma tomorrow_of_day now : tomorrow_of now = (day_number now + 1) * 86400 * Second.
Proof.
  unfold tomorrow_of, UTC. rewrite add_days_fixed. unfold day_number, Hour, Minute, Second.
  Z.to_euclidean_division_equations. lia.
Qed.

Lemma midnight_range D0 D1 :
  year_ok (D0 * 86400 * Second) -> year_ok (D1 * 86400 * Second) -> D0 < D1 ->
  parseDateRange (format_day (D0 * 86400 * Second)) (format_day (D1 * 86400 * Second)) =
    Ok (D0 * 86400 * Second, D1 * 86400 * Second).
Proof.
  intros H0 H1 Hlt. unfold parseDateRange, parse_range_day. rewrite !parse_format_day by done.
  rewrite !day_number_midnight, !String.eqb_refl.
  assert (forall t, year_ok t -> format_day t <> "") as Hne.
  { intros t Ht E. pose proof (parse_format_day t Ht) as Hp. rewrite E in Hp. discriminate Hp. }
  rewrite (proj2 (String.eqb_neq _ _) (Hne _ H0)), (proj2 (String.eqb_neq _ _) (Hne _ H1)). cbn.
  unfold Before. replace (D0 * 86400 * Second <? D1 * 86400 * Second) with true; [done|].
  symmetry. apply Z.ltb_lt. unfold Second. lia.
Qed.

(** A usage query that is read is answered by days.  When the parameters of a query
    are read and give no window and no bucket, the store never refuses the dates: it refuses
    at most the grouping, and otherwise sums the days from the first date up to the one
    before the last.  Without dates these are the seven days that end with today in UTC. *)
Theorem usage_query_answered values now s q :
  parseUsageQuery values now = Ok q -> HasParam values "window" = false -> HasParam values "bucket" = false ->
  year_ok ((day_number now - 6) * 86400 * Second) -> year_ok ((day_number now + 1) * 86400 * Second) ->
  exists D0 D1, D0 < D1 /\
    StoreQuery s q = (if supportedGroupBy (q_GroupBy q)
                      then Ok (queryDateRange s (q_GroupBy q) "" (D0 * 86400 * Second) (D1 * 86400 * Second))
                      else Err (UnsupportedGroupBy (q_GroupBy q))) /\
    (HasParam values "start_date" = false -> HasParam values "end_date" = false ->
     D0 = day_number now - 6 /\ D1 = day_number now + 1).
Proof.
  unfold parseUsageQuery. cbv zeta. intros H Hw Hb Hy0 Hy1. rewrite Hw, Hb in H. cbn [orb andb negb require mbind result_bind] in H.
  assert (forall g sd ed D0 D1, parseDateRange sd ed = Ok (D0 * 86400 * Second, D1 * 86400 * Second) ->
    TrimSpace (Get values "bucket") = "" -> g <> "" ->
    StoreQuery s (mkQuery g WindowTotal (TrimSpace (Get values "bucket")) sd ed "") =
      if supportedGroupBy g then Ok (queryDateRange s g "" (D0 * 86400 * Second) (D1 * 86400 * Second))
      else Err (UnsupportedGroupBy g)) as Hstore.
  { intros g sd ed D0 D1 Hr Hbk Hg. rewrite Hbk. unfold StoreQuery. cbn [q_Window q_Bucket q_StartDate q_EndDate q_GroupBy q_ClientName].
    apply String.eqb_neq in Hg. rewrite Hg.
    assert (negb (sd == "") || negb (ed == "") = true) as ->.
    { unfold parseDateRange in Hr. apply bind_Ok in Hr as ([] & Hr%require_Ok & _).
      apply negb_true_iff, orb_false_iff in Hr as [-> _]. done. }
    generalize (supportedGroupBy g) as b. intros b. cbn. destruct b; cbn; [by rewrite Hr|done]. }
  assert (TrimSpace (Get values "bucket") = "") as Hbucket.
  { unfold HasParam in Hb. unfold Get. by destruct (values "bucket"). }
  assert (forall t, (if t == "" then "key" else t) <> "") as Hgroup.
  { intros t. by destruct (String.eqb_spec t ""). }
  destruct (HasParam values "start_date" || HasParam values "end_date") eqn:Hr.
  - apply bind_Ok in H as ([] & Hne%require_Ok & H). apply bind_Ok in H as ([start stop] & Hrange & H).
    injection H as <-. breflect. apply parseUsageDateRange_accepted in Hrange; [|done..].
    pose proof (parseDateRange_inv _ _ _ _ Hrange) as (D0 & D1 & -> & -> & _ & _ & Hlt).
    exists D0, D1. split; [unfold Second in Hlt; lia|]. split; [apply Hstore; [exact Hrange|exact Hbucket|apply Hgroup]|].
    intros E1 E2. rewrite E1, E2 in Hr. discriminate Hr.
  - injection H as <-. exists (day_number now - 6), (day_number now + 1). split; [lia|]. split; [|done].
    apply Hstore; [|exact Hbucket|apply Hgroup]. rewrite tomorrow_of_day. unfold UTC. rewrite add_days_fixed.
    replace ((day_number now + 1) * 86400 * Second + -7 * 86400 * Second)
      with ((day_number now - 6) * 86400 * Second) by (unfold Second; lia).
    apply midnight_range; [done|done|lia].
Qed.

Definition ex_query_now : Time := date_utc 2024 3 1 15 30 0 0.
Definition ex_query_store : MemoryStore := NewMemoryStore ex_query_now.
Example default_query :
  parseUsageQuery (fun _ => None) ex_query_now = Ok (mkQuery "key" WindowTotal "" "2024-02-24" "2024-03-02" "").
Proof. vm_compute. reflexivity. Qed.
Lemma usage_query_answered_witness :
  exists D0 D1, D1 - D0 = 7 /\ D1 = day_number ex_query_now + 1 /\
    StoreQuery ex_query_store (mkQuery "key" WindowTotal "" "2024-02-24" "2024-03-02" "") =
    Ok (queryDateRange ex_query_store "key" "" (D0 * 86400 * Second) (D1 * 86400 * Second)).
Proof.
  destruct (usage_query_answered (fun _ => None) ex_query_now ex_query_store
    (mkQuery "key" WindowTotal "" "2024-02-24" "2024-03-02" "")) as (D0 & D1 & _ & H & Hd);
    [vm_compute; reflexivity|done|done|by vm_compute|by vm_compute|].
  destruct (Hd eq_refl eq_refl) as [-> ->]. exists (day_number ex_query_now - 6), (day_number ex_query_now + 1).
  split; [lia|]. split; [done|]. exact H.
Defined.
