(* ===== verification/Providers.v ===== *)
(** * Making the clients of the providers

    Models the constructors of [internal/provider/provider.go] and [codex_consumer.go] and what
    the default registry ([registry.go]) and [newProviderInstance] ([internal/app/app.go]) make
    with them: the client of an outbound, with its address and its key.

    [AppRuntime] knows a provider by its type and name only, which is what the router looks
    at; [instance_refined] says that this is an abstraction of what is made here.  An HTTP
    client is never nil after a constructor, and is left out.  [url.Parse] and [Hostname] are a
    parameter. *)

From S2P Require Import Prelude GoStrings GoTime ProviderErrors ConfigTypes GoJson HttpTime ProviderCodecs ProviderResponses ProviderClient RuntimeModel Router ConfigValidate ConfigFacts AppRuntime.

Inductive client :=
| MockClient (name : string)
| OpenAIClient (name url : string) (p : ProviderClient.OpenAICompatibleProvider)
| AnthropicClient (name url : string) (p : ProviderClient.AnthropicMessagesProvider)
| CodexClient (name : string).
(** [Name], and the type that the router sees *)
Definition client_Name (c : client) : string :=
  match c with MockClient name | OpenAIClient name _ _ | AnthropicClient name _ _ | CodexClient name => name end.
Definition client_type (c : client) : ProviderType :=
  match c with
  | MockClient _ => MockProvider
  | OpenAIClient _ _ _ => OpenAICompatibleProvider
  | AnthropicClient _ _ _ => AnthropicMessagesProvider
  | CodexClient _ => OtherProvider
  end.
Definition client_provider (c : client) : Provider := mkProvider (client_type c) (client_Name c).

(** ** Constructors *)

Record usageEstimationConfig := mkUsageEstimation { ue_Enabled : bool; ue_Mode : string }.
Definition usageEstimationFromCapabilities (c : OutboundCapabilities) : usageEstimationConfig :=
  mkUsageEstimation (cap_UsageEstimation c) (TrimSpace (cap_UsageEstimationMode c)).
Definition heuristicEnabled (c : usageEstimationConfig) : bool := ue_Enabled c && (ue_Mode c == "heuristic").

Definition NewMock (name : string) : client := MockClient name.
Definition newAnthropicMessagesProvider (name baseURL : string) (apiKeys : list string) (capabilities : OutboundCapabilities)
    (credentialSource : bool) : client :=
  AnthropicClient name (trim_slashes baseURL +:+ "/messages")
    (mkAnthropicProvider apiKeys credentialSource (heuristicEnabled (usageEstimationFromCapabilities capabilities))).
Definition NewAnthropicMessagesCompatible (name baseURL : string) (apiKeys : list string) : client :=
  newAnthropicMessagesProvider name baseURL apiKeys zero_capabilities false.
Definition NewAnthropicMessagesCompatibleWithCapabilities (name baseURL : string) (apiKeys : list string)
    (capabilities : OutboundCapabilities) : client :=
  newAnthropicMessagesProvider name baseURL apiKeys capabilities false.
(** [credentialSource] is set after the construction without keys. *)
Definition NewAnthropicMessagesOAuthCompatible (name baseURL : string) (capabilities : OutboundCapabilities) : client :=
  newAnthropicMessagesProvider name baseURL [] capabilities true.
Definition NewCodexConsumerProvider (name : string) : client := CodexClient name.

Section clients.
Context (hostname : string -> option string).

Definition newOpenAIProvider (name baseURL : string) (apiKeys : list string) (capabilities : OutboundCapabilities)
    (path : string) (mode : openAIProtocolMode) : client :=
  OpenAIClient name (trim_slashes baseURL +:+ path)
    (mkOpenAIProvider apiKeys mode
       (mergeOpenAIResponsesCompatibility (detectOpenAIResponsesCompatibility (hostname (TrimSpace baseURL))) capabilities)
       (heuristicEnabled (usageEstimationFromCapabilities capabilities))).
Definition NewOpenAICompatible (name baseURL : string) (apiKeys : list string) : client :=
  newOpenAIProvider name baseURL apiKeys zero_capabilities "/chat/completions" ModeChat.
Definition NewOpenAICompatibleWithCapabilities (name baseURL : string) (apiKeys : list string)
    (capabilities : OutboundCapabilities) : client :=
  newOpenAIProvider name baseURL apiKeys capabilities "/chat/completions" ModeChat.
Definition NewOpenAIResponsesCompatible (name baseURL : string) (apiKeys : list string)
    (capabilities : OutboundCapabilities) : client :=
  newOpenAIProvider name baseURL apiKeys capabilities "/responses" ModeResponses.

(** ** The client of an outbound *)

(** The factories of [newDefaultFactoryRegistry] *)
Definition client_factory (protocol : string) : option (string -> string -> list string -> OutboundCapabilities -> client) :=
  if protocol == "mock" then Some (fun name _ _ _ => NewMock name)
  else if protocol == "openai_chat" then Some NewOpenAICompatibleWithCapabilities
  else if protocol == "openai_responses" then Some NewOpenAIResponsesCompatible
  else if protocol == "anthropic_messages" then Some NewAnthropicMessagesCompatibleWithCapabilities
  else None.
(** [FactoryRegistry.New] on them: an outbound has one key, or none. *)
Definition registry_client (protocol name endpoint authToken : string) (capabilities : OutboundCapabilities)
    : result appError client :=
  match client_factory protocol with
  | None => Err (AppErr "unsupported provider protocol %q" [protocol])
  | Some factory => Ok (factory name endpoint (if authToken == "" then [] else [authToken]) capabilities)
  end.
Definition instance_client (spec : OutboundSpec) (oauth : bool) : result appError client :=
  let type := oa_Type (ob_Auth spec) in
  if type == "" then
    registry_client (ob_Protocol spec) (ob_Name spec) (ob_Endpoint spec) (ob_AuthToken spec) (ob_Capabilities spec)
  else if type == "claude_consumer_oauth" then
    if oauth then Ok (NewAnthropicMessagesOAuthCompatible (ob_Name spec) "https://api.anthropic.com/v1" (ob_Capabilities spec))
    else Err (AppErr "oauth manager is required for outbound %q" [ob_Name spec])
  else if type == "codex_consumer_oauth" then
    if oauth then Ok (NewCodexConsumerProvider (ob_Name spec))
    else Err (AppErr "oauth manager is required for outbound %q" [ob_Name spec])
  else Err (AppErr "outbound %q has unsupported auth type %q" [ob_Name spec; type]).

(** ** Properties *)

(** Under which keys there is a factory *)
Lemma registered_protocols : DefaultFactoryRegistry = mkFactoryRegistry
  {["mock" := make MockProvider; "openai_chat" := make OpenAICompatibleProvider;
    "openai_responses" := make OpenAICompatibleProvider; "anthropic_messages" := make AnthropicMessagesProvider]}.
Proof.
  unfold DefaultFactoryRegistry, newDefaultFactoryRegistry, Register, NewFactoryRegistry. cbn -[insert lookup].
  repeat (rewrite ?lookup_empty, ?lookup_insert_ne by done; cbn -[insert lookup]). f_equal.
Qed.
Lemma registry_refined protocol name endpoint authToken capabilities :
  registry_New DefaultFactoryRegistry protocol name endpoint authToken capabilities =
  client_provider <$> registry_client protocol name endpoint authToken capabilities.
Proof.
  unfold registry_New, registry_client, client_factory. rewrite registered_protocols. cbn [factories].
  repeat match goal with
  | |- context[String.eqb protocol ?p] => destruct (String.eqb_spec protocol p) as [->|]; [by vm_compute|]
  end.
  by rewrite !lookup_insert_ne, lookup_singleton_ne by done.
Qed.

(** The provider that the router is given for an outbound is the client of the outbound, seen
    by its type and its name; and it fails to be made exactly when the client does, with the
    same error. *)
Theorem instance_refined spec oauth :
  newProviderInstance DefaultFactoryRegistry spec oauth = client_provider <$> instance_client spec oauth.
Proof.
  unfold newProviderInstance, instance_client. destruct (_ == ""); [apply registry_refined|].
  destruct (_ == "claude_consumer_oauth"); [by destruct oauth|]. by destruct (_ == "codex_consumer_oauth"), oauth.
Qed.

(** What a client needs to send a request *)
Definition can_send (c : client) : Prop :=
  match c with
  | MockClient _ | CodexClient _ => True
  | OpenAIClient _ _ p => exists key, key <> "" /\ op_apiKeys p = [key]
  | AnthropicClient _ _ p => ap_credentialSource p = true \/ exists key, key <> "" /\ ap_apiKeys p = [key]
  end.
(** A validated outbound has what its client needs: a key that is not empty, just one, or an
    OAuth credential to ask for.  The protocol decides the format: the client of
    [openai_responses] speaks it, that of [openai_chat] does not. *)
Theorem validated_client tzdb ParseURL seen seen' o c :
  validate_outbound tzdb ParseURL seen o = Ok seen' -> instance_client o true = Ok c ->
  can_send c /\
  match c with
  | OpenAIClient _ url p =>
      ob_Protocol o = (match op_mode p with ModeChat => "openai_chat" | ModeResponses => "openai_responses" end) /\
      url = trim_slashes (ob_Endpoint o) +:+ (match op_mode p with ModeChat => "/chat/completions" | ModeResponses => "/responses" end)
  | _ => True
  end.
Proof.
  intros Hv Hc. unfold validate_outbound in Hv. validated Hv. clear Hv. unfold instance_client in Hc.
  destruct (oa_Type (ob_Auth o) == "") eqn:Et; [|repeat case_match; simplify_eq; cbn; tauto].
  apply String.eqb_eq in Et. unfold registry_client, client_factory in Hc. match goal with H : validate_endpoint o = _ |- _ => rename H into He end. unfold validate_endpoint in He. rewrite Et in He.
  cbn in He. repeat match type of Hc with context[String.eqb (ob_Protocol o) ?p] => destruct (String.eqb_spec (ob_Protocol o) p) as [Ep|] end;
    [simplify_eq; done| | | |done];
    rewrite bool_decide_eq_true_2 in He by (rewrite Ep; set_solver); validated He; breflect;
    rewrite (proj2 (String.eqb_neq _ _)) in Hc by exact He; injection Hc as <-; cbn; eauto.
Qed.
End clients.

(** A key and an address for the Responses format, on a host with its own rules *)
Definition paypal_outbound : OutboundSpec :=
  mkOutboundSpec "pp" "openai_responses" "https://api.paypal-ai.com/v1/" "key" (mkOutboundAuthConfig "" "") "main" None []
    (mkOutboundCapabilities (Some true) None None None false "") (mkOutboundQuotaConfig false [] "" "" (mkQuotaResetAllConfig false zero_reset_schedule))
    (mkOutboundProxyConfig "").
Definition paypal_host (url : string) : option string := if HasPrefix url "https://api.paypal-ai.com/" then Some "API.paypal-ai.com" else Some "".
(** What the host is known for holds, but for what the outbound says. *)
Example paypal_client :
  instance_client paypal_host paypal_outbound true =
    Ok (OpenAIClient "pp" "https://api.paypal-ai.com/v1/responses"
          (mkOpenAIProvider ["key"] ModeResponses (mkCompat true true true true false true) false)).
Proof. vm_compute. reflexivity. Qed.
Lemma validated_client_witness :
  can_send (OpenAIClient "pp" "https://api.paypal-ai.com/v1/responses"
    (mkOpenAIProvider ["key"] ModeResponses (mkCompat true true true true false true) false)).
Proof.
  refine (proj1 (validated_client paypal_host witness_zone witness_url ∅ ({["main"]} ∪ ∅) paypal_outbound _ _ paypal_client)).
  vm_compute. reflexivity.
Defined.
