(* ===== verification/Traces.v ===== *)
(** * Trace files

    Models the files that [SYROGO_TRACE] asks for: what is sent to a provider and comes back
    ([internal/provider/provider.go], with the traces of [openai_chat.go] and
    [anthropic_messages.go]), and what the Anthropic codec reads and streams
    ([internal/gateway/debug.go], with [anthropic_messages_codec.go] and [streaming.go]).

    A directory is a map from names to texts; whether the system lets a file be written is a
    parameter.  [json.MarshalIndent] fails as [json.Marshal] does and differs in white space
    only: the texts here are those of [Marshal].

    No trace holds a credential; a trace is written exactly when what it quotes is JSON; the
    trace of a stream is what the client was sent. *)

From S2P Require Import Prelude GoStrings GoTime ProviderErrors RuntimeModel GoJson HttpTime QuotaTracker ConfigTypes ConfigResources RuntimeRequest GatewayStream GatewayCodecs ProviderCodecs ProviderClient.

(** ** When and where *)

Section environment.
Context (SYROGO_TRACE : string).
Definition traceModeEnabled : bool :=
  EqualFold (TrimSpace SYROGO_TRACE) "1" || EqualFold (TrimSpace SYROGO_TRACE) "full".
Definition traceInboundEnabled : bool :=
  let value := ToLower (TrimSpace SYROGO_TRACE) in (value == "1") || (value == "full") || (value == "inbound").
Definition traceAnthropicStreamEnabled : bool :=
  let value := ToLower (TrimSpace SYROGO_TRACE) in (value == "1") || (value == "full") || (value == "anthropic_stream").
End environment.

(** [now.Format("20060102-150405.000")] *)
Definition trace_stamp (local : Location) (now : Time) : string :=
  let c := civil_in local now in
  format_year (c_year c) +:+ fixed_digits 2 (c_month c) +:+ fixed_digits 2 (c_day c) +:+ "-" +:+
  fixed_digits 2 (c_hour c) +:+ fixed_digits 2 (c_min c) +:+ fixed_digits 2 (c_sec c) +:+ "." +:+
  fixed_digits 3 (c_nsec c / 1000000).
Definition trace_base (local : Location) (now : Time) (requestID : string) : string :=
  if requestID == "" then trace_stamp local now else requestID.
(** The files of [tmp/trace] *)
Abbreviation traces := (gmap string string).
(** [MkdirAll], then [WriteFile]; the answer is whether there was no error. *)
Definition write_trace (allowed : string -> bool) (name : string) (payload : option string) (dir : traces) : traces * bool :=
  match payload with
  | Some text => if allowed name then (<[name := text]> dir, true) else (dir, false)
  | None => (dir, false)
  end.

(** ** Traces of providers *)

Record providerTraceSnapshot := mkProviderTrace {
  pt_RequestID : string;
  pt_Provider : string;
  pt_Protocol : string;
  pt_Method : string;
  pt_URL : string;
  pt_Headers : gmap string string;
  pt_Request : string;
  pt_Status : Z;
  pt_Response : string;
  pt_Error : string;
  pt_CreatedAt : string
}.
Definition redactHeaders (headers : gmap string string) : gmap string string :=
  map_imap (fun key value => Some (redactHeader key value)) headers.
Definition headers_value (headers : gmap string string) : list (string * value) :=
  match map_to_list headers with
  | [] => []
  | l => [("headers", VMap (map (fun kv => (kv.1, VStr kv.2)) l))]
  end.
Definition json_of_providerTrace (s : providerTraceSnapshot) : value :=
  VStruct (omit_str "request_id" (pt_RequestID s) ++
    [("provider", VStr (pt_Provider s)); ("protocol", VStr (pt_Protocol s)); ("method", VStr (pt_Method s)); ("url", VStr (pt_URL s))] ++
    headers_value (pt_Headers s) ++ omit_raw "request" (pt_Request s) ++ omit_int "status" (pt_Status s) ++
    omit_raw "response" (pt_Response s) ++ omit_str "error" (pt_Error s) ++ [("created_at", VStr (pt_CreatedAt s))]).
Definition with_error (error : string) (s : providerTraceSnapshot) : providerTraceSnapshot :=
  mkProviderTrace (pt_RequestID s) (pt_Provider s) (pt_Protocol s) (pt_Method s) (pt_URL s) (pt_Headers s) (pt_Request s)
    (pt_Status s) (pt_Response s) error (pt_CreatedAt s).
Definition with_status (status : Z) (s : providerTraceSnapshot) : providerTraceSnapshot :=
  mkProviderTrace (pt_RequestID s) (pt_Provider s) (pt_Protocol s) (pt_Method s) (pt_URL s) (pt_Headers s) (pt_Request s)
    status (pt_Response s) (pt_Error s) (pt_CreatedAt s).
Definition with_response (response : string) (s : providerTraceSnapshot) : providerTraceSnapshot :=
  mkProviderTrace (pt_RequestID s) (pt_Provider s) (pt_Protocol s) (pt_Method s) (pt_URL s) (pt_Headers s) (pt_Request s)
    (pt_Status s) response (pt_Error s) (pt_CreatedAt s).

Section files.
Context (SYROGO_TRACE : string) (allowed : string -> bool) (local : Location).

Definition provider_file (base provider protocol suffix : string) : string :=
  base +:+ ".outbound-" +:+ provider +:+ "-" +:+ protocol +:+ suffix.
Definition writeProviderTraceSnapshot (now : Time) (s : providerTraceSnapshot) (dir : traces) : traces * bool :=
  write_trace allowed (provider_file (trace_base local now (pt_RequestID s)) (pt_Provider s) (pt_Protocol s) ".json")
    (Marshal (json_of_providerTrace s)) dir.
(** The answer is whether an error is written to the standard error. *)
Definition appendProviderTraceSnapshot (now : Time) (s : providerTraceSnapshot) (dir : traces) : traces * bool :=
  if negb (traceModeEnabled SYROGO_TRACE) then (dir, false)
  else let '(dir, ok) := writeProviderTraceSnapshot now s dir in (dir, negb ok).

(** The writer of a stream's trace is the name of its file; [None] is nil. *)
Definition newProviderTraceWriter (now : Time) (requestID provider protocol suffix : string) (dir : traces) : option string * traces :=
  if negb (traceModeEnabled SYROGO_TRACE) then (None, dir) else
  let name := provider_file (trace_base local now requestID) provider protocol ("." +:+ suffix +:+ ".txt") in
  if allowed name then (Some name, <[name := ""]> dir) else (None, dir).
Definition trace_Write (w : option string) (text : string) (dir : traces) : traces :=
  match w with Some name => alter (fun old => old +:+ text) name dir | None => dir end.
End files.

(** *** The headers and the traces of a call *)

Definition openai_headers (apiKey accept : string) : gmap string string :=
  (if accept == "" then ∅ else {["Accept" := accept]}) ∪ {["Content-Type" := "application/json"; "Authorization" := "Bearer " +:+ apiKey]}.
(** With an OAuth credential there is no [x-api-key], and [Authorization] is not traced. *)
Definition anthropic_headers (credential : string) (oauth : bool) : gmap string string :=
  {["Content-Type" := "application/json"; "x-api-key" := (if oauth then "" else credential); "anthropic-version" := "2023-06-01"]}.
Definition call_trace (requestID provider protocol url createdAt payload : string) (headers : gmap string string)
    : providerTraceSnapshot :=
  mkProviderTrace requestID provider protocol "POST" url (redactHeaders headers) payload 0 "" "" createdAt.

Section answers.
Context (error_text : goerror -> string).
(** The snapshots of [completionWithAPIKey] and [completionWithCredential], in order *)
Definition completion_traces (trace : providerTraceSnapshot) (a : answer) : list providerTraceSnapshot :=
  match a with
  | BuildFailed _ => []
  | SendFailed err => [with_error (error_text err) trace]
  | Answered r =>
      match hr_ReadErr r with
      | Some err => [with_error (error_text err) (with_status (hr_Status r) trace)]
      | None => [with_response (hr_Body r) (with_status (hr_Status r) trace)]
      end
  end.
(** Those of [streamWithAPIKey] *)
Definition stream_traces (trace : providerTraceSnapshot) (a : answer) : list providerTraceSnapshot :=
  match a with
  | BuildFailed _ => []
  | SendFailed err => [with_error (error_text err) trace]
  | Answered r =>
      let trace := with_status (hr_Status r) trace in
      if 400 <=? hr_Status r then [with_response (hr_Body r) trace]
      else if Contains (ProviderClient.hr_Header r "Content-Type") "text/event-stream" then [trace]
      else match hr_ReadErr r with Some _ => [trace] | None => [trace; with_response (hr_Body r) trace] end
  end.
End answers.

(** ** Traces of the Anthropic codec *)

(** A raw member: what it decodes to, or the text if it does not *)
Definition raw_member (name raw : string) : list (string * value) :=
  if raw == "" then [] else
  match Unmarshal_any raw with Some v => [(name, v)] | None => [(name +:+ "_raw", VStr raw)] end.
Definition json_of_inboundToolCall (c : inboundToolCall) : value :=
  VStruct [("id", VStr (itc_ID c)); ("type", VStr (itc_Type c));
           ("function", VStruct [("name", VStr (itc_Name c)); ("arguments", VStr (itc_Arguments c))])].
Definition debug_tool (name description schema : string) : value :=
  VMap ([("name", VStr name); ("description", VStr description)] ++ raw_member "input_schema" schema).
Definition debugInboundRequest (req : inboundRequest) : list (string * value) :=
  let message msg :=
    VMap ([("role", VStr (im_Role msg))] ++ raw_member "content" (im_Content msg) ++
          (match im_ToolCalls msg with [] => [] | calls => [("tool_calls", VArr (map json_of_inboundToolCall calls))] end) ++
          omit_str "tool_call_id" (im_ToolCallID msg)) in
  let tool t := debug_tool (itd_Name t) (itd_Description t) (itd_InputSchema t) in
  [("model", VStr (ir_Model req)); ("max_tokens", VInt (ir_MaxTokens req)); ("stream", VBool (ir_Stream req));
   ("messages", VArr (map message (ir_Messages req))); ("tools", VArr (map tool (ir_Tools req)))] ++
  raw_member "system" (ir_System req).

Definition content_type_text (t : ContentPartType) : string :=
  match t with ContentPartTypeText => "text" | ContentPartTypeJSON => "json" | ContentPartTypeOther s => s end.
Definition json_of_runtimeToolCall (c : ToolCall) : value :=
  VStruct [("ID", VStr (tc_ID c)); ("Type", VStr (tc_Type c)); ("Name", VStr (tc_Name c));
           ("Arguments", VStr (tc_Arguments c)); ("Input", VStr (tc_Input c))].
Definition debugRuntimeRequest (req : Request) : list (string * value) :=
  let part p := VMap [("type", VStr (content_type_text (cp_Type p))); ("text", VStr (cp_Text p))] in
  let message msg :=
    VMap ([("role", VStr (msg_Role msg))] ++
          (match msg_Parts msg with [] => [] | parts => [("parts", VArr (map part parts))] end) ++
          (match msg_ToolCalls msg with [] => [] | calls => [("tool_calls", VArr (map json_of_runtimeToolCall calls))] end) ++
          omit_str "tool_call_id" (msg_ToolCallID msg)) in
  let tool t := debug_tool (td_Name t) (td_Description t) (td_InputSchema t) in
  [("model", VStr (req_Model req)); ("system", VStr (req_System req)); ("max_tokens", VInt (req_MaxTokens req));
   ("stream", VBool (req_Stream req)); ("messages", VArr (map message (req_Messages req)));
   ("tools", VArr (map tool (req_Tools req)))].

(** The maps are empty when they are nil. *)
Record inboundDebugSnapshot := mkInboundDebug {
  id_RequestID : string;
  id_Path : string;
  id_Inbound : string;
  id_ClientTag : string;
  id_ReceivedAt : string;
  id_RawBody : string;
  id_Parsed : list (string * value);
  id_Runtime : list (string * value);
  id_PlannedModel : string;
  id_ResolvedTo : list string;
  id_Error : string
}.
Definition omit_map (name : string) (m : list (string * value)) : list (string * value) :=
  match m with [] => [] | _ => [(name, VMap m)] end.
Definition json_of_inboundDebug (s : inboundDebugSnapshot) : value :=
  VStruct (omit_str "request_id" (id_RequestID s) ++
    [("path", VStr (id_Path s)); ("inbound", VStr (id_Inbound s)); ("client_tag", VStr (id_ClientTag s));
     ("received_at", VStr (id_ReceivedAt s)); ("raw_body", VRaw (id_RawBody s))] ++
    omit_map "parsed" (id_Parsed s) ++ omit_map "runtime" (id_Runtime s) ++ omit_str "planned_model" (id_PlannedModel s) ++
    omit_list "resolved_to" (map VStr (id_ResolvedTo s)) ++ omit_str "error" (id_Error s)).

(** The snapshot that [Handle] writes of a request that decodes: after its error, or after it
    is planned.  [built] is the request of the neutral model, [planned] its plan. *)
Definition inbound_snapshot (requestID path inbound tag receivedAt body : string) (req : inboundRequest)
    (built : result string Request) (planned : result string ExecutionPlan) : inboundDebugSnapshot :=
  let snapshot := mkInboundDebug requestID path inbound tag receivedAt body (debugInboundRequest req) in
  match built with
  | Err e => snapshot [] "" [] e
  | Ok internal =>
      match planned with
      | Err e => snapshot (debugRuntimeRequest internal) "" [] e
      | Ok plan => snapshot (debugRuntimeRequest internal) (plannedModel plan) (plan_ResolvedToTags plan) ""
      end
  end.

Section gateway_files.
Context (SYROGO_TRACE : string) (allowed : string -> bool) (local : Location).
Definition writeInboundDebugSnapshot (now : Time) (s : inboundDebugSnapshot) (dir : traces) : traces * bool :=
  if negb (traceInboundEnabled SYROGO_TRACE) then (dir, true) else
  write_trace allowed (trace_base local now (id_RequestID s) +:+ ".inbound.json") (Marshal (json_of_inboundDebug s)) dir.
Definition writeAnthropicStreamTrace (now : Time) (requestID payload : string) (dir : traces) : traces * bool :=
  if negb (traceAnthropicStreamEnabled SYROGO_TRACE) then (dir, true) else
  write_trace allowed (trace_base local now requestID +:+ ".gateway-anthropic.stream.txt") (Some payload) dir.
End gateway_files.
Definition appendAnthropicSSETrace (buf : string) (frame : anthropicSSEFrame) : string :=
  match Marshal (fr_payload frame) with
  | Some data => buf +:+ event_line (fr_event frame) +:+ data_line data
  | None => buf
  end.
(** What the trace of a stream holds when every frame was written *)
Definition stream_trace (frames : list anthropicSSEFrame) : string :=
  foldl appendAnthropicSSETrace "" frames +:+ event_line "done" +:+ data_line "{}".

(** ** Encoding *)

Definition encodes (v : value) : Prop := is_Some (Marshal v).
Definition fields_encode (l : list (string * value)) : Prop := Forall (fun kv => encodes kv.2) l.
Lemma encodes_struct l : encodes (VStruct l) <-> fields_encode l.
Proof.
  unfold encodes, fields_encode. induction l as [|[k v] l IH]; [split; [by constructor|by eexists]|].
  rewrite Forall_cons, <- IH. cbn. unfold encodes. destruct (Marshal v) as [s|]; cbn; [|split; [intros [? ?]; done|intros [[? ?] _]; done]].
  set (go := (fix go (l : list (string * value)) := _) l). destruct go; cbn.
  - split; [split|]; by eexists.
  - split; [intros [? ?]; done|intros [_ [? ?]]; done].
Qed.
Lemma encodes_map l : encodes (VMap l) <-> fields_encode l.
Proof.
  rewrite <- encodes_struct. unfold encodes. cbn. set (go := (fix go (l : list (string * value)) := _) l).
  destruct go; cbn; [split; by eexists|done].
Qed.
Lemma encodes_str s : encodes (VStr s).
Proof. by eexists. Qed.
Lemma encodes_int n : encodes (VInt n).
Proof. by eexists. Qed.
(** A raw text encodes if it is empty or JSON. *)
Definition quotable (raw : string) : Prop := raw = "" \/ Valid raw = true.
Lemma encodes_raw raw : encodes (VRaw raw) <-> quotable raw.
Proof.
  unfold encodes, quotable. cbn. destruct (String.eqb_spec raw ""); [split; [by left|by eexists]|].
  destruct (Valid raw); split; [by right|by eexists|intros [? ?]; done|intros [?|?]; done].
Qed.
Lemma fields_app l1 l2 : fields_encode (l1 ++ l2) <-> fields_encode l1 /\ fields_encode l2.
Proof. apply Forall_app. Qed.
Lemma fields_cons k v l : fields_encode ((k, v) :: l) <-> encodes v /\ fields_encode l.
Proof. apply (Forall_cons (fun kv : string * value => encodes kv.2)). Qed.
Lemma fields_nil : fields_encode [].
Proof. constructor. Qed.
Lemma omit_str_encodes name s : fields_encode (omit_str name s).
Proof. unfold omit_str. destruct (_ == ""); [constructor|]. apply fields_cons. split; [apply encodes_str|constructor]. Qed.
Lemma omit_int_encodes name n : fields_encode (omit_int name n).
Proof. unfold omit_int. destruct (_ =? 0); [constructor|]. apply fields_cons. split; [apply encodes_int|constructor]. Qed.
Lemma omit_raw_encodes name raw : fields_encode (omit_raw name raw) <-> quotable raw.
Proof.
  unfold omit_raw. destruct (String.eqb_spec raw "") as [->|Hne]; [split; [by left|constructor]|].
  rewrite fields_cons, encodes_raw. split; [by intros []|by split; [|constructor]].
Qed.
Lemma headers_encode headers : fields_encode (headers_value headers).
Proof.
  unfold headers_value. destruct (map_to_list headers) as [|kv l]; [constructor|].
  apply fields_cons. split; [|constructor]. apply encodes_map, Forall_fmap, Forall_true. intros x. apply encodes_str.
Qed.
Create HintDb traces discriminated.
#[export] Hint Resolve encodes_str encodes_int omit_str_encodes omit_int_encodes headers_encode fields_nil : traces.

Lemma trace_encodes s : encodes (json_of_providerTrace s) <-> quotable (pt_Request s) /\ quotable (pt_Response s).
Proof.
  unfold json_of_providerTrace. rewrite encodes_struct, !fields_app, !fields_cons, !omit_raw_encodes.
  intuition eauto with traces.
Qed.

(** ** Properties *)

(** A trace is written of what is JSON.  With traces on and the file allowed, the trace of a
    call is written exactly when the request and the answer it quotes are empty or JSON;
    otherwise the directory is as it was and an error is told.  In particular the answer of a
    proxy that is a page of HTML is never traced. *)
Theorem trace_written_iff env allowed local now s dir :
  traceModeEnabled env = true ->
  let name := provider_file (trace_base local now (pt_RequestID s)) (pt_Provider s) (pt_Protocol s) ".json" in
  allowed name = true ->
  (quotable (pt_Request s) /\ quotable (pt_Response s) ->
   exists text, appendProviderTraceSnapshot env allowed local now s dir = (<[name := text]> dir, false)) /\
  (~ (quotable (pt_Request s) /\ quotable (pt_Response s)) ->
   appendProviderTraceSnapshot env allowed local now s dir = (dir, true)).
Proof.
  intros Henv name Hname. unfold appendProviderTraceSnapshot, writeProviderTraceSnapshot, write_trace. rewrite Henv. cbn [negb].
  rewrite <- trace_encodes. unfold encodes. fold name. destruct (Marshal _) as [text|].
  - rewrite Hname. split; [by exists text|]. intros []. by eexists.
  - split; [intros [? ?]; done|done].
Qed.

Lemma redacted_same h1 h2 :
  (forall k, redactHeader k <$> h1 !! k = redactHeader k <$> h2 !! k) -> redactHeaders h1 = redactHeaders h2.
Proof.
  intros H. apply map_eq. intros k. unfold redactHeaders. rewrite !map_lookup_imap. specialize (H k).
  destruct (h1 !! k), (h2 !! k); cbn in *; congruence.
Qed.
Lemma bearer_redacted key : redactHeader "Authorization" ("Bearer " +:+ key) = "Bearer ***".
Proof. unfold redactHeader, maskCredential. change (ToLower "Authorization") with "authorization". cbn. by destruct key. Qed.
Lemma openai_redacted accept key1 key2 : redactHeaders (openai_headers key1 accept) = redactHeaders (openai_headers key2 accept).
Proof.
  assert (forall key, openai_headers key accept !! "Authorization" = Some ("Bearer " +:+ key)) as E.
  { intros key. unfold openai_headers. rewrite lookup_union, (lookup_insert_ne _ "Content-Type"), lookup_singleton_eq by done.
    destruct (accept == ""); by rewrite ?lookup_empty, ?lookup_singleton_ne by done. }
  apply redacted_same. intros k. destruct (decide (k = "Authorization")) as [->|Hk].
  - rewrite !E. unfold fmap, option_fmap, option_map. by rewrite !bearer_redacted.
  - unfold openai_headers. rewrite !lookup_union. destruct (decide (k = "Content-Type")) as [->|Hc]; [by rewrite !lookup_insert_eq|].
    by rewrite !(lookup_insert_ne _ "Content-Type"), !lookup_singleton_ne by done.
Qed.
Lemma anthropic_redacted oauth key1 key2 : key1 <> "" -> key2 <> "" ->
  redactHeaders (anthropic_headers key1 oauth) = redactHeaders (anthropic_headers key2 oauth).
Proof.
  intros H1 H2. apply redacted_same. intros k. unfold anthropic_headers.
  destruct (decide (k = "Content-Type")) as [->|Hc]; [by rewrite !lookup_insert_eq|].
  rewrite !(lookup_insert_ne _ "Content-Type") by done.
  destruct (decide (k = "x-api-key")) as [->|Hk]; [|by rewrite !(lookup_insert_ne _ "x-api-key") by done].
  rewrite !lookup_insert_eq. destruct oauth; [done|]. cbn. f_equal. unfold redactHeader, maskCredential.
  change (ToLower "x-api-key") with "x-api-key". cbn. by rewrite !(proj2 (String.eqb_neq _ _)) by done.
Qed.

(** No trace holds a credential.  The traces of a call do not depend on the key it was made
    with: with another key that is not empty, and the same answer, they are the same. *)
Theorem traces_hide_keys error_text requestID provider url createdAt payload accept oauth key1 key2 a :
  key1 <> "" -> key2 <> "" ->
  let openai protocol key := call_trace requestID provider protocol url createdAt payload (openai_headers key accept) in
  let anthropic key := call_trace requestID provider "anthropic_messages" url createdAt payload (anthropic_headers key oauth) in
  (forall protocol, completion_traces error_text (openai protocol key1) a = completion_traces error_text (openai protocol key2) a /\
                    stream_traces error_text (openai protocol key1) a = stream_traces error_text (openai protocol key2) a) /\
  completion_traces error_text (anthropic key1) a = completion_traces error_text (anthropic key2) a.
Proof.
  intros H1 H2 openai anthropic.
  assert (forall protocol, openai protocol key1 = openai protocol key2) as Ho.
  { intros protocol. unfold openai, call_trace. f_equal. by apply openai_redacted. }
  assert (anthropic key1 = anthropic key2) as Ha by (unfold anthropic, call_trace; f_equal; by apply anthropic_redacted).
  split; [intros protocol; split; (rewrite (Ho protocol); reflexivity)|]. rewrite Ha. reflexivity.
Qed.

Lemma trace_from buf last frames :
  Forall (fun f => encodes (fr_payload f)) frames ->
  foldl appendAnthropicSSETrace buf frames +:+ last =
  buf +:+ write_all (fun f => writeAnthropicSSE (fr_event f) (fr_payload f)) last frames.
Proof.
  intros H. revert buf. induction H as [|f l [data E] Hl IH]; intros buf; [reflexivity|].
  cbn [foldl write_all]. rewrite IH. unfold appendAnthropicSSETrace, writeAnthropicSSE at 2. rewrite E. cbn [mbind option_bind].
  by rewrite !str_app_assoc.
Qed.
(** The trace of a stream is what its client was sent.  When every frame of an Anthropic
    stream can be encoded, the file holds the text of the answer, to the end. *)
Theorem stream_trace_faithful frames :
  Forall (fun f => encodes (fr_payload f)) frames ->
  stream_trace frames = write_all (fun f => writeAnthropicSSE (fr_event f) (fr_payload f)) (event_line "done" +:+ data_line "{}") frames.
Proof. apply (trace_from ""). Qed.

(** ** Witnesses and examples *)

Definition traced (body : string) : providerTraceSnapshot :=
  with_response body (with_status 502 (call_trace "r1" "p" "openai_chat" "https://api/v1/chat/completions" "t" "{}" (openai_headers "k1" ""))).
(** The second attempt of a request on a provider, with its next key, takes the file of the
    first. *)
Example second_attempt_replaces :
  let append s dir := (appendProviderTraceSnapshot "1" (fun _ => true) UTC 0 s dir).1 in
  append (traced "[2]") (append (traced "[1]") ∅) = append (traced "[2]") ∅.
Proof. vm_compute. reflexivity. Qed.
(** A page of HTML is not traced. *)
Example html_answer_lost :
  appendProviderTraceSnapshot "1" (fun _ => true) UTC 0 (traced "<html>bad gateway</html>") ∅ = (∅, true).
Proof. vm_compute. reflexivity. Qed.
Lemma trace_written_iff_witness :
  exists text, appendProviderTraceSnapshot "full" (fun _ => true) UTC 0 (traced "[1]") ∅ =
    (<["r1.outbound-p-openai_chat.json" := text]> ∅, false).
Proof.
  refine (proj1 (trace_written_iff "full" (fun _ => true) UTC 0 (traced "[1]") ∅ _ _) _); [reflexivity|reflexivity|].
  split; right; vm_compute; reflexivity.
Defined.
Lemma traces_hide_keys_witness :
  completion_traces (fun _ => "") (call_trace "r" "p" "anthropic_messages" "u" "t" "{}" (anthropic_headers "secret" false))
    (SendFailed (ErrPlain "x")) =
  completion_traces (fun _ => "") (call_trace "r" "p" "anthropic_messages" "u" "t" "{}" (anthropic_headers "other" false))
    (SendFailed (ErrPlain "x")).
Proof.
  exact (proj2 (traces_hide_keys (fun _ => "") "r" "p" "u" "t" "{}" "" false "secret" "other" (SendFailed (ErrPlain "x"))
    ltac:(discriminate) ltac:(discriminate))).
Defined.
Lemma stream_trace_faithful_witness :
  stream_trace [mkFrame "ping" (VStruct [("type", VStr "ping")])] =
  write_all (fun f => writeAnthropicSSE (fr_event f) (fr_payload f)) (event_line "done" +:+ data_line "{}")
    [mkFrame "ping" (VStruct [("type", VStr "ping")])].
Proof. apply stream_trace_faithful. repeat constructor. by eexists. Defined.
