(* ===== verification/AdminMetrics.v ===== *)
(** * Metrics for the administrator

    Models [internal/gateway/admin_client_metrics.go] and [admin_provider_metrics.go]: the
    usage of each client by day, the timeline of each provider, and the live check of a
    provider.  The handlers' checks of method and token are in [AdminHandlers].

    The dispatcher is always configured: the assembly of the runtime sets it. *)

From Stdlib Require Import SpecFloat.
From S2P Require Import Prelude GoStrings GoTime GoTimeFacts GoStrconv RuntimeModel ConfigTypes ConfigResources AdminConfig QuotaWindow QuotaTracker Accounting AppRuntime Health Dispatcher GatewayCodecs Gateway GatewayStats.

(** ** Clients *)

Record clientFrequency := mkClientFrequency {
  cf_Requests : Z;
  cf_ActiveDays : Z;
  cf_CalendarDays : Z;
  cf_RequestsPerDay : float64;
  cf_RequestsPerActiveDay : float64
}.
Record clientMetricsResponse := mkClientMetricsResponse {
  cm_Client : clientResourceResponse;
  cm_AllTime : StatsItem;
  cm_Frequency : clientFrequency;
  cm_Quota : option SnapshotItem
}.
Record clientDailyUsage := mkClientDailyUsage { cd_Item : StatsItem; cd_Status : string }.
Record clientUsageResponse := mkClientUsageResponse {
  cu_Client : clientResourceResponse;
  cu_AllTime : StatsItem;
  cu_RangeSummary : StatsItem;
  cu_Quota : option SnapshotItem;
  cu_Coverage : Coverage;
  cu_StartDate : string;
  cu_EndDate : string;
  cu_Daily : list clientDailyUsage
}.

Definition defaultClientMetricsDays : Z := 30.
Definition defaultClientUsageDays : Z := 365.
Definition maxClientUsageDays : Z := 366.

Definition utcDate (value : Time) : Time := let c := civil value in date_utc (c_year c) (c_month c) (c_day c) 0 0 0 0.
Definition formatUTCDate (value : Time) : string := format_day value.

Definition parseClientMetricsDays (values : url_values) : result string Z :=
  let value := TrimSpace (Get values "days") in
  if value == "" then Ok defaultClientMetricsDays else
  match ParseInt value with
  | Some days =>
      if (days <? 1) || (maxClientUsageDays <? days) then Err "days must be an integer between 1 and 366" else Ok days
  | None => Err "days must be an integer between 1 and 366"
  end.
Definition parseClientUsageRange (values : url_values) (now : Time) : result string (Time * Time) :=
  let startValue := TrimSpace (Get values "start_date") in
  let endValue := TrimSpace (Get values "end_date") in
  let tomorrow := add_days_in UTC (utcDate now) 1 in
  if (startValue == "") && (endValue == "") then Ok (add_days_in UTC tomorrow (- defaultClientUsageDays), tomorrow)
  else if (startValue == "") || (endValue == "") then Err "start_date and end_date must be provided together"
  else
    match parseUsageDateRange startValue endValue with
    | Err e => Err (usage_error_text e)
    | Ok (start, stop) =>
        if After stop tomorrow then Err "end_date must not be later than tomorrow UTC"
        else if maxClientUsageDays <? Z.quot (Sub stop start) (24 * Hour) then Err "date range must not exceed 366 days"
        else Ok (start, stop)
    end.

(** Later items replace earlier ones with the same key. *)
Definition by_key {A} (key : A -> string) (items : list A) : gmap string A :=
  foldl (fun m item => <[key item := item]> m) ∅ items.
Definition clientQuotaByName (items : list SnapshotItem) : gmap string SnapshotItem := by_key si_Client items.
Definition statsByValue (items : list StatsItem) : gmap string StatsItem := by_key s_Value items.

Definition with_value (value date : string) (item : StatsItem) : StatsItem :=
  mkStatsItem value date (s_Agent item) (s_SessionID item) (s_Model item)
    (s_RequestCount item) (s_SuccessCount item) (s_ErrorCount item) (s_FallbackCount item)
    (s_InputTokens item) (s_OutputTokens item) (s_CachedInputReadTokens item) (s_CachedInputWriteTokens item)
    (s_CacheReadTokens item) (s_CacheCreateTokens item) (s_TotalTokens item) (s_CostUSD item)
    (s_ProviderUsageCount item) (s_EstimatedUsageCount item) (s_ToolUnits item) (s_LastSeenAt item).
Definition normalizedClientStats (item : option StatsItem) (value : string) : StatsItem :=
  let item := default zero_item item in with_value value (s_Date item) item.

Definition summarizeClientFrequency (items : list StatsItem) (calendarDays : Z) : clientFrequency :=
  let requests := foldl (fun n item => i64 (n + s_RequestCount item)) 0 items in
  let active := Z.of_nat (length (filter (fun item => 0 < s_RequestCount item) items)) in
  mkClientFrequency requests active calendarDays
    (if 0 <? calendarDays then fdiv (float_of_int requests) (float_of_int calendarDays) else fzero)
    (if 0 <? active then fdiv (float_of_int requests) (float_of_int active) else fzero).

Definition coverageTrackingDate (coverage : Coverage) : option Time :=
  if negb (cov_Known coverage) || (cov_TrackingStartedAt coverage == "") then None
  else utcDate <$> parse_rfc3339 (cov_TrackingStartedAt coverage).
Definition day_status (now day : Time) (coverage : Coverage) : string :=
  let today := utcDate now in
  if day =? today then "partial"
  else if Before day today && cov_Known coverage &&
          match coverageTrackingDate coverage with Some t => negb (Before day t) | None => false end
  then "complete" else "unknown".
Definition denseClientDaily (items : list StatsItem) (start stop now : Time) (coverage : Coverage) : list clientDailyUsage :=
  map (fun day =>
         let date := formatUTCDate day in
         mkClientDailyUsage (with_value date date (default zero_item (statsByValue items !! date))) (day_status now day coverage))
    (days_between start stop).

(** [mergeClientStats]: unlike the store's merge it leaves date, agent, session and model. *)
Definition mergeClientStats (dst src : StatsItem) (value : string) : StatsItem :=
  let cachedRead := i64 (s_CachedInputReadTokens dst + s_CachedInputReadTokens src) in
  let cachedWrite := i64 (s_CachedInputWriteTokens dst + s_CachedInputWriteTokens src) in
  mkStatsItem value (s_Date dst) (s_Agent dst) (s_SessionID dst) (s_Model dst)
    (i64 (s_RequestCount dst + s_RequestCount src)) (i64 (s_SuccessCount dst + s_SuccessCount src))
    (i64 (s_ErrorCount dst + s_ErrorCount src)) (i64 (s_FallbackCount dst + s_FallbackCount src))
    (i64 (s_InputTokens dst + s_InputTokens src)) (i64 (s_OutputTokens dst + s_OutputTokens src))
    cachedRead cachedWrite cachedRead cachedWrite (i64 (s_TotalTokens dst + s_TotalTokens src))
    (fadd (s_CostUSD dst) (s_CostUSD src)) (i64 (s_ProviderUsageCount dst + s_ProviderUsageCount src))
    (i64 (s_EstimatedUsageCount dst + s_EstimatedUsageCount src)) (add_units (s_ToolUnits dst) (s_ToolUnits src))
    (if String.ltb (s_LastSeenAt dst) (s_LastSeenAt src) then s_LastSeenAt src else s_LastSeenAt dst).
Definition summarizeDailyUsage (daily : list clientDailyUsage) (value : string) : StatsItem :=
  foldl (fun summary day => mergeClientStats summary (cd_Item day) value) (with_value value "" zero_item) daily.

Section reports.
Context (query_text : queryError -> string) (w : World) (now : Time).

(** [clientMetricsConfigView]: the runtime's clients and inbounds, or else the file's *)
Definition clientMetricsConfigView {A} (from_file : result A Config) (clients : list ClientSpec) (inbounds : list InboundSpec)
    : result A Config :=
  match clients, inbounds with
  | [], [] => from_file
  | _, _ => Ok (clients_config clients inbounds)
  end.

Definition all_time_query : Query := mkQuery "key" WindowTotal "" "" "" "".
Definition daily_query (name : string) (start stop : Time) : Query :=
  mkQuery "date" "" "" (formatUTCDate start) (formatUTCDate stop) name.
Definition usage_of (query : Query) : stats_answer (list StatsItem) :=
  match QueryUsageBy w query with Ok items => Data items | Err e => Refused StatusInternalServerError (query_text e) end.
Definition client_quota : list SnapshotItem := (ClientSnapshot (w_clients w) now).1.

(** The body of [handleConfigClientMetrics] after its checks *)
Fixpoint client_metrics_items (redacted : Config) (days : Z) (start stop : Time) (all_time : gmap string StatsItem)
    (quota : gmap string SnapshotItem) (clients : list ClientSpec) : stats_answer (list clientMetricsResponse) :=
  match clients with
  | [] => Data []
  | client :: clients =>
      match usage_of (daily_query (cs_Name client) start stop) with
      | Refused status message => Refused status message
      | Data daily =>
          match client_metrics_items redacted days start stop all_time quota clients with
          | Refused status message => Refused status message
          | Data items =>
              Data (mkClientMetricsResponse (clientResource redacted client)
                      (normalizedClientStats (all_time !! cs_Name client) (cs_Name client))
                      (summarizeClientFrequency daily days) (quota !! cs_Name client) :: items)
          end
      end
  end.
Definition client_metrics (cfg : Config) (days : Z) : stats_answer (list clientMetricsResponse * Z * string * string) :=
  let stop := add_days_in UTC (utcDate now) 1 in
  let start := add_days_in UTC stop (- days) in
  match usage_of all_time_query with
  | Refused status message => Refused status message
  | Data all_time =>
      let redacted := RedactedConfig cfg in
      match client_metrics_items redacted days start stop (statsByValue all_time) (clientQuotaByName client_quota)
              (cfg_Clients redacted) with
      | Refused status message => Refused status message
      | Data items => Data (items, days, formatUTCDate start, formatUTCDate stop)
      end
  end.

(** The body of [handleConfigClientUsage] once the configuration is read *)
Definition client_usage (cfg : Config) (name : string) (values : url_values) : stats_answer clientUsageResponse :=
  match FindClient (RedactedConfig cfg) name with
  | None => Refused StatusNotFound "client not found"
  | Some client =>
      match parseClientUsageRange values now with
      | Err e => Refused StatusBadRequest e
      | Ok (start, stop) =>
          match usage_of all_time_query with
          | Refused status message => Refused status message
          | Data all_time =>
              match usage_of (daily_query name start stop) with
              | Refused status message => Refused status message
              | Data items =>
                  let coverage := QueryUsageCoverage w in
                  let daily := denseClientDaily items start stop now coverage in
                  Data (mkClientUsageResponse (clientResource (RedactedConfig cfg) client)
                          (normalizedClientStats (statsByValue all_time !! name) name) (summarizeDailyUsage daily name)
                          (clientQuotaByName client_quota !! name) coverage (formatUTCDate start) (formatUTCDate stop) daily)
              end
          end
      end
  end.
End reports.

(** ** Providers *)

Definition providerTimelineBucketCount : nat := 36.
Record providerTimelineBucket := mkProviderTimelineBucket {
  tb_Start : Time;
  tb_End : Time;
  tb_RequestCount : Z;
  tb_SuccessCount : Z;
  tb_ErrorCount : Z
}.

Definition parseProviderMetricsHours (value : string) : Z :=
  match ParseInt value with
  | Some hours => if hours <=? 0 then 6 else if 48 <? hours then 48 else hours
  | None => 6
  end.
(** [Duration.Round] to minutes of a duration that is not negative *)
Definition round_minute (d : Duration) : Duration :=
  let r := d mod Minute in if r + r <? Minute then d - r else d + Minute - r.
Definition providerTimelineBucketSize (hours : Z) : Duration :=
  let raw := Z.quot (hours * Hour) (Z.of_nat providerTimelineBucketCount) in
  if raw <? Minute then Minute else round_minute raw.

Definition recordProviderName (record : UsageRecord) : string :=
  if ur_ProviderName record != "" then ur_ProviderName record else ur_OutboundName record.
Definition usageRecordTime (record : UsageRecord) : Time :=
  let timestamp := if ur_FinishedAt record == "" then ur_StartedAt record else ur_FinishedAt record in
  default zero_time (parse_rfc3339 timestamp).

Definition providerTimelineState (bucket : providerTimelineBucket) : string :=
  if tb_RequestCount bucket =? 0 then "empty"
  else if tb_ErrorCount bucket =? 0 then "success"
  else if tb_SuccessCount bucket =? 0 then "failed"
  else if SFleb (fdiv (float_of_int 7) (float_of_int 10))
                (fdiv (float_of_int (tb_ErrorCount bucket)) (float_of_int (tb_RequestCount bucket)))
  then "mostly_failed" else "partial_failed".

Definition count_record (record : UsageRecord) (b : providerTimelineBucket) : providerTimelineBucket :=
  let count := record_count record in
  mkProviderTimelineBucket (tb_Start b) (tb_End b) (i64 (tb_RequestCount b + count))
    (match ur_Status record with UsageStatusSuccess => i64 (tb_SuccessCount b + count) | _ => tb_SuccessCount b end)
    (match ur_Status record with UsageStatusError => i64 (tb_ErrorCount b + count) | _ => tb_ErrorCount b end).
Definition timeline_step (providerName : string) (start until : Time) (size : Duration) (buckets : list providerTimelineBucket)
    (record : UsageRecord) : list providerTimelineBucket :=
  if recordProviderName record != providerName then buckets else
  let recordedAt := usageRecordTime record in
  if IsZero recordedAt || Before recordedAt start || negb (Before recordedAt (Add until size)) then buckets else
  let index := Z.quot (Sub recordedAt start) size in
  if (index <? 0) || (Z.of_nat (length buckets) <=? index) then buckets
  else alter (count_record record) (Z.to_nat index) buckets.
Definition empty_timeline (start : Time) (size : Duration) : list providerTimelineBucket :=
  map (fun i => let s := Add start (Z.of_nat i * size) in mkProviderTimelineBucket s (Add s size) 0 0 0)
    (seq 0 providerTimelineBucketCount).
(** The state of a bucket is [providerTimelineState] of the result. *)
Definition buildProviderTimeline (providerName : string) (records : list UsageRecord) (until : Time) (size : Duration)
    : list providerTimelineBucket :=
  let start := Add until (- (size * Z.of_nat providerTimelineBucketCount)) in
  foldl (timeline_step providerName start until size) (empty_timeline start size) records.

Record providerMetricsResponse := mkProviderMetricsResponse {
  pm_Provider : OutboundSpec;
  pm_Usage : StatsItem;
  pm_Health : option HealthSnapshotItem;
  pm_Quota : option SnapshotItem;
  pm_Timeline : list (providerTimelineBucket * string)
}.
(** An item has no models, unlike the list of providers. *)
Definition provider_metrics_item (o : OutboundSpec) : OutboundSpec :=
  mkOutboundSpec (ob_Name o) (ob_Protocol o) (ob_Endpoint o) (ob_AuthToken o) (ob_Auth o) (ob_Tag o)
    (Some (OutboundEnabled o)) [] (ob_Capabilities o) (ob_Quota o) (ob_Proxy o).

Section providers.
Context (query_text : queryError -> string) (w : World) (now : Time).

(** The body of [handleConfigProviderMetrics] once the configuration is read: the items,
    the hours, the minutes of a bucket *)
Definition provider_metrics (cfg : Config) (values : url_values) : stats_answer (list providerMetricsResponse * Z * Z) :=
  let hours := parseProviderMetricsHours (Get values "hours") in
  let since := Add now (- (hours * Hour)) in
  let size := providerTimelineBucketSize hours in
  match QueryUsageBy w (mkQuery "provider" WindowTotal "" "" "" "") with
  | Err e => Refused StatusInternalServerError (query_text e)
  | Ok usage =>
      let records := QueryRecentUsage w (mkRecentRecordsQuery since 10000) in
      let usageByProvider := statsByValue usage in
      let healthByOutbound := by_key hsi_Outbound (QueryProviderHealth w) in
      let quotaByOutbound := by_key si_Outbound (QueryQuota w).1 in
      Data (map (fun o => mkProviderMetricsResponse (provider_metrics_item o)
                   (default zero_item (usageByProvider !! ob_Name o)) (healthByOutbound !! ob_Name o)
                   (quotaByOutbound !! ob_Name o)
                   (map (fun b => (b, providerTimelineState b)) (buildProviderTimeline (ob_Name o) records now size)))
              (cfg_Outbounds (RedactedConfig cfg)), hours, Z.quot size Minute)
  end.
End providers.

(** ** The live check *)

Record providerCheckResponse := mkProviderCheckResponse {
  pc_Name : string;
  pc_OK : bool;
  pc_State : string;
  pc_LatencyMs : Z;
  pc_CheckedAt : string;
  pc_Error : string
}.
Record providerCheckRequest := mkProviderCheckRequest {
  pcr_Name : string;
  pcr_Model : string;
  pcr_Provider : option OutboundSpec
}.

Definition findOutbound (cfg : Config) (name : string) : option OutboundSpec := find_named ob_Name name (cfg_Outbounds cfg).

(** The provider that is checked: the one of the request, with the token of the configured
    one of its name when it has none, or the configured one.  The models of the request are
    not used. *)
Definition checked_outbound (cfg : Config) (req : providerCheckRequest) : option OutboundSpec :=
  match pcr_Provider req with
  | None => findOutbound cfg (pcr_Name req)
  | Some p =>
      let o := mkOutboundSpec (ob_Name p) (ob_Protocol p) (ob_Endpoint p) (ob_AuthToken p) (ob_Auth p) (ob_Tag p)
                 (ob_Enabled p) [] (ob_Capabilities p) (ob_Quota p) (ob_Proxy p) in
      let o := if (ob_AuthToken o == RedactedValue) || (ob_AuthToken o == "") then
                 match findOutbound cfg (ob_Name o) with
                 | Some current => with_auth_token o (ob_AuthToken current)
                 | None => o
                 end
               else o in
      if ob_Name o == "" then None else Some o
  end.

Section check.
(** The text of an error, and what sending a request to an outbound with an endpoint and
    token gives: the text of its error, if any *)
Context (ParseURL : string -> option (string * string)) (app_text : appError -> string)
  (send : OutboundSpec -> Request -> option string).

Definition ping (model : string) : Request :=
  mkRequest model "" 1 [mkMessage MessageRoleUser [mkContentPart ContentPartTypeText "ping" ""] [] "" "" false] [] "" false ""
    "" "" "" "".

Definition checkProviderLive (outbound : OutboundSpec) (model : string) (startedAt finishedAt : Time) : providerCheckResponse :=
  let checkedAt := format_rfc3339nano startedAt in
  let model := TrimSpace model in
  let model := if (ob_Protocol outbound == "mock") && (model == "") then "syrogo-health-check" else model in
  let answer ok state ms error := mkProviderCheckResponse (ob_Name outbound) ok state ms checkedAt error in
  if oa_Type (ob_Auth outbound) != "" then
    answer false "unknown" 0 "OAuth provider checks are unavailable; connect the credential and send a real request"
  else if TrimSpace (ob_AuthToken outbound) == RedactedValue then
    answer false "unknown" 0 "auth_token is redacted; load the active runtime provider or enter a token before testing"
  else
    match NewHTTPClient ParseURL (ob_Proxy outbound) with
    | Err e => answer false "unavailable" 0 (app_text e)
    | Ok _ =>
        match registry_New DefaultFactoryRegistry (ob_Protocol outbound) (ob_Name outbound) (ob_Endpoint outbound)
                (ob_AuthToken outbound) (ob_Capabilities outbound) with
        | Err e => answer false "unavailable" 0 (app_text e)
        | Ok _ =>
            let ms := Milliseconds (Sub finishedAt startedAt) in
            match send outbound (ping model) with
            | Some e => answer false "unavailable" ms e
            | None => answer true "live" ms ""
            end
        end
    end.
End check.

(** ** The timeline *)

Lemma bucket_size_range value : Minute <= providerTimelineBucketSize (parseProviderMetricsHours value) <= 80 * Minute.
Proof.
  assert (1 <= parseProviderMetricsHours value <= 48) as H.
  { unfold parseProviderMetricsHours. destruct (ParseInt value) as [n|]; [|lia]. split_ifs; breflect; lia. }
  unfold providerTimelineBucketSize, round_minute. generalize dependent (parseProviderMetricsHours value). intros h H.
  unfold Hour, Minute, Second. change (Z.of_nat providerTimelineBucketCount) with 36. cbv zeta.
  repeat case_match; breflect; Z.to_euclidean_division_equations; lia.
Qed.

(** The provider's record was finished in the bucket that begins at [s]. *)
Definition in_bucket (providerName : string) (s : Time) (size : Duration) (record : UsageRecord) : bool :=
  (recordProviderName record == providerName) && negb (IsZero (usageRecordTime record)) &&
  (s <=? usageRecordTime record) && (usageRecordTime record <? s + size).

Lemma timeline_step_map name start until size (f : nat -> providerTimelineBucket) record :
  Minute <= size <= 80 * Minute -> until = start + 36 * size ->
  timeline_step name start until size (map f (seq 0 36)) record =
  map (fun i => if in_bucket name (start + Z.of_nat i * size) size record then count_record record (f i) else f i) (seq 0 36).
Proof.
  intros Hsize ->. unfold Minute, Second in Hsize. set (t := usageRecordTime record).
  assert (forall i, (i < 36)%nat -> in_bucket name (start + Z.of_nat i * size) size record = true ->
    (recordProviderName record == name) = true /\ IsZero t = false /\ start <= t /\ t < start + 36 * size /\ Z.quot (Sub t start) size = Z.of_nat i) as Hin.
  { intros i Hi H. unfold in_bucket in H. fold t in H. rewrite !andb_true_iff, negb_true_iff in H.
    destruct H as [[[Hn Hz] Hlo] Hhi]. apply Z.leb_le in Hlo. apply Z.ltb_lt in Hhi.
    assert (0 <= Z.of_nat i * size <= 35 * size) as Hb by (split; [apply Z.mul_nonneg_nonneg|apply Z.mul_le_mono_nonneg_r]; lia).
    split_and!; [done|done|lia|lia|].
    unfold Sub. change min_int64 with (-9223372036854775808). change max_int64 with 9223372036854775807.
    replace (Z.max _ _) with (t - start) by lia. rewrite Z.quot_div_nonneg by lia. symmetry. apply (Z.div_unique _ _ _ (t - start - Z.of_nat i * size)); lia. }
  assert (forall buckets, (forall i, (i < 36)%nat -> in_bucket name (start + Z.of_nat i * size) size record = false) ->
    buckets = map f (seq 0 36) -> buckets =
    map (fun i => if in_bucket name (start + Z.of_nat i * size) size record then count_record record (f i) else f i) (seq 0 36)) as Hnone.
  { intros b H ->. apply map_ext_in. intros i Hi. apply in_seq in Hi. by rewrite H by lia. }
  assert (forall i, in_bucket name (start + Z.of_nat i * size) size record = false \/
    in_bucket name (start + Z.of_nat i * size) size record = true) as Hcases by (intros i; destruct (in_bucket _ _ _ _); auto).
  unfold timeline_step. fold t.
  destruct (recordProviderName record == name) eqn:En; cbn [negb];
    [|apply Hnone; [|done]; intros i Hi; destruct (Hcases i) as [H|H]; [done|]; by apply Hin in H as [? _]].
  destruct (IsZero t || Before t start || _) eqn:Eg.
  { apply Hnone; [|done]. intros i Hi. destruct (Hcases i) as [H|H]; [done|]. apply Hin in H as (_ & Hz & Hlo & Hhi & _); [|done].
    unfold Before, Add in Eg. rewrite Hz in Eg. cbn [orb] in Eg. apply orb_true_iff in Eg as [Eg|Eg]; [apply Z.ltb_lt in Eg; lia|].
    apply negb_true_iff, Z.ltb_ge in Eg. lia. }
  apply orb_false_iff in Eg as [Eg Hhi]. apply orb_false_iff in Eg as [Hz Hlo]. unfold Before, Add in *.
  apply Z.ltb_ge in Hlo. apply negb_false_iff, Z.ltb_lt in Hhi.
  assert (Z.quot (Sub t start) size = (t - start) / size) as Hq.
  { unfold Sub. change min_int64 with (-9223372036854775808). change max_int64 with 9223372036854775807.
    replace (Z.max _ _) with (t - start) by lia. by rewrite Z.quot_div_nonneg by lia. }
  rewrite Hq, length_map, length_seq. pose proof (Z.div_pos (t - start) size ltac:(lia) ltac:(lia)).
  pose proof (Z.mul_div_le (t - start) size ltac:(lia)). pose proof (Z.mul_succ_div_gt (t - start) size ltac:(lia)).
  destruct ((_ <? 0) || _) eqn:Eb.
  { apply Hnone; [|done]. intros i Hi. destruct (Hcases i) as [H'|H']; [done|]. apply Hin in H' as (_ & _ & _ & _ & H'); [|done].
    rewrite Hq in H'. apply orb_true_iff in Eb as [Eb|Eb]; [apply Z.ltb_lt in Eb|apply Z.leb_le in Eb]; lia. }
  apply orb_false_iff in Eb as [_ Eb]. apply Z.leb_gt in Eb. apply list_eq. intros i.
  destruct (decide (i < 36)%nat) as [Hi|Hi].
  - rewrite (list_lookup_fmap _ _ i), lookup_seq_lt by done. cbn [fmap option_fmap option_map Nat.add].
    destruct (decide (i = Z.to_nat ((t - start) / size))) as [->|Hne].
    + assert (in_bucket name (start + Z.of_nat (Z.to_nat ((t - start) / size)) * size) size record = true) as Hb.
      { unfold in_bucket. fold t. rewrite En, Hz, Z2Nat.id by lia. cbn [negb andb]. apply andb_true_iff.
        split; [apply Z.leb_le|apply Z.ltb_lt]; lia. }
      rewrite list_lookup_alter, (list_lookup_fmap f), lookup_seq_lt by done. cbn [fmap option_fmap option_map Nat.add]. by rewrite decide_True, Hb.
    + rewrite list_lookup_alter_ne by done. rewrite (list_lookup_fmap f), lookup_seq_lt by done. cbn [fmap option_fmap option_map Nat.add].
      destruct (Hcases i) as [->|H']; [done|]. apply Hin in H' as (_ & _ & _ & _ & H'); [|done]. rewrite Hq in H'. lia.
  - rewrite !lookup_ge_None_2; [done|rewrite length_map, length_seq; lia|rewrite length_alter, length_map, length_seq; lia].
Qed.

(** Each bucket of a provider's timeline counts exactly the provider's records that were
    finished in its interval; the intervals cover the time up to [until] without gaps. *)
Theorem timeline_exact name records until value :
  let size := providerTimelineBucketSize (parseProviderMetricsHours value) in
  buildProviderTimeline name records until size =
  map (fun i => let s := until - (36 - Z.of_nat i) * size in
         foldl (fun b record => count_record record b) (mkProviderTimelineBucket s (s + size) 0 0 0)
           (filter (fun record => in_bucket name s size record = true) records)) (seq 0 36).
Proof.
  intros size. pose proof (bucket_size_range value) as Hsize. fold size in Hsize. clearbody size.
  unfold buildProviderTimeline, Add. change (Z.of_nat providerTimelineBucketCount) with 36.
  induction records as [|record records IH] using rev_ind.
  - cbn [foldl]. unfold empty_timeline, Add. apply map_ext. intros i. cbv zeta. rewrite filter_nil. cbn [foldl]. f_equal; lia.
  - rewrite foldl_app, IH. cbn [foldl]. rewrite timeline_step_map by lia. apply map_ext. intros i. cbv zeta.
    rewrite filter_app, foldl_app. replace (until + - (size * 36) + Z.of_nat i * size) with (until - (36 - Z.of_nat i) * size) by lia.
    rewrite filter_cons, filter_nil. by destruct (in_bucket _ _ _ _).
Qed.
