(* ===== verification/OAuth.v ===== *)
(** * OAuth credentials

    Models [internal/oauth]: the store of credentials ([store.go]), one file each, and the
    manager ([manager.go]): logging in to Claude with a callback, to Codex with a device
    code, and renewing a credential.  Also the sources of credentials of [internal/provider]
    ([credential.go], [oauth_credential.go]) and the Codex provider ([codex_consumer.go]).

    An operation of the store, and each use of the map of flows, holds a mutex and is one
    step.  An operation of the manager is a program ([Program]) over these steps, the clock,
    random values and the network; between two calls other operations run.  Renewals exclude
    each other ([refreshMu]).  The encodings of a stored credential, random values, SHA-256
    and the parsing of the callback's URL are parameters. *)

From S2P Require Import Prelude GoStrings GoTime GoTimeFacts ProviderErrors RuntimeModel GoJson Program.

(** ** Data *)

Definition ProviderClaude := "claude_consumer_oauth".
Definition ProviderCodex := "codex_consumer_oauth".

Record oauthCredential := mkOAuthCredential {
  oc_ID : string;
  oc_Provider : string;
  oc_AccessToken : string;
  oc_RefreshToken : string;
  oc_ExpiresAt : Time;
  oc_AccountLabel : string;
  oc_Scope : string;
  oc_CreatedAt : Time;
  oc_UpdatedAt : Time
}.
Record oauthMetadata := mkOAuthMetadata {
  om_ID : string;
  om_Provider : string;
  om_ExpiresAt : Time;
  om_AccountLabel : string;
  om_Scope : string;
  om_CreatedAt : Time;
  om_UpdatedAt : Time
}.
Definition Metadata (c : oauthCredential) : oauthMetadata :=
  mkOAuthMetadata (oc_ID c) (oc_Provider c) (oc_ExpiresAt c) (oc_AccountLabel c) (oc_Scope c) (oc_CreatedAt c) (oc_UpdatedAt c).

Inductive oauthError :=
| OAuthErr (format : string) (args : list string)
| CodexAuthorizationPending.

(** ** The store *)

Definition id_first (c : ascii) : bool :=
  let n := N_of_ascii c in
  ((48 <=? n) && (n <=? 57) || (65 <=? n) && (n <=? 90) || (97 <=? n) && (n <=? 122))%N.
Definition id_next (c : ascii) : bool := id_first c || bool_decide (c ∈ ["."; "_"; "-"]%char).
(** [^\[A-Za-z0-9\]\[A-Za-z0-9._-\]{0,127}$] *)
Definition credential_id_ok (id : string) : bool :=
  match id with
  | String c rest => id_first c && forallb id_next (String.list_ascii_of_string rest) && (len rest <=? 127)%nat
  | EmptyString => false
  end.
Definition validateCredentialID (id : string) : result oauthError unit :=
  require (credential_id_ok id) (OAuthErr "oauth credential id %q is invalid" [id]).
Definition validateCredential (c : oauthCredential) : result oauthError unit :=
  _ ← validateCredentialID (oc_ID c);
  _ ← require ((oc_Provider c == ProviderClaude) || (oc_Provider c == ProviderCodex))
        (OAuthErr "oauth credential %q has unsupported provider %q" [oc_ID c; oc_Provider c]);
  _ ← require (negb (TrimSpace (oc_AccessToken c) == "")) (OAuthErr "oauth credential %q access token is required" [oc_ID c]);
  require (negb (IsZero (oc_ExpiresAt c))) (OAuthErr "oauth credential %q expiry is required" [oc_ID c]).

(** The files of the directory that end in [.json], by their names without it;
    [cr_private] is whether group and others have no permissions. *)
Record credFile := mkCredFile { cr_private : bool; cr_data : string }.
Abbreviation credDir := (gmap string credFile).

Definition credentialVersion : Z := 1.
(** How the file operations of [Save] go: an error before the file is renamed, or after it *)
Inductive saveOutcome := SaveDone | SaveFailed (format : string) | SaveUnsynced (format : string).

Section store.
Context (marshalCredential : Z -> oauthCredential -> option string)
  (unmarshalCredential : string -> result string (Z * oauthCredential)).

Definition writeLocked (outcome : saveOutcome) (c : oauthCredential) (d : credDir) : result oauthError unit * credDir :=
  match marshalCredential credentialVersion c with
  | None => (Err (OAuthErr "encode oauth credential: %w" []), d)
  | Some data =>
      match outcome with
      | SaveFailed format => (Err (OAuthErr format []), d)
      | SaveUnsynced format => (Err (OAuthErr format []), <[oc_ID c := mkCredFile true data]> d)
      | SaveDone => (Ok tt, <[oc_ID c := mkCredFile true data]> d)
      end
  end.
Definition stamped (now : Time) (c : oauthCredential) : oauthCredential :=
  mkOAuthCredential (oc_ID c) (oc_Provider c) (oc_AccessToken c) (oc_RefreshToken c) (oc_ExpiresAt c) (oc_AccountLabel c)
    (oc_Scope c) (if IsZero (oc_CreatedAt c) then now else oc_CreatedAt c) now.
Definition Save (outcome : saveOutcome) (now : Time) (c : oauthCredential) (d : credDir) : result oauthError unit * credDir :=
  match validateCredential c with
  | Err e => (Err e, d)
  | Ok _ => writeLocked outcome (stamped now c) d
  end.

(** [readable] is whether the file can be read. *)
Definition loadLocked (readable : bool) (id : string) (d : credDir) : result oauthError oauthCredential :=
  match d !! id with
  | None => Err (OAuthErr "oauth credential %q not found" [id])
  | Some f =>
      if negb (cr_private f) then Err (OAuthErr "oauth credential %q has insecure permissions" [id]) else
      if negb readable then Err (OAuthErr "read oauth credential: %w" []) else
      match unmarshalCredential (cr_data f) with
      | Err e => Err (OAuthErr "decode oauth credential %q: %w" [id; e])
      | Ok (version, c) =>
          _ ← require (version =? credentialVersion) (OAuthErr "oauth credential %q has unsupported version %d" [id; itoa version]);
          _ ← require (oc_ID c == id) (OAuthErr "oauth credential %q has mismatched id" [id]);
          _ ← validateCredential c;
          Ok c
      end
  end.
Definition Load (readable : bool) (id : string) (d : credDir) : result oauthError oauthCredential :=
  _ ← validateCredentialID id; loadLocked readable id d.
(** One credential that cannot be loaded makes the list fail. *)
Fixpoint load_all (readable : bool) (ids : list string) (d : credDir) : result oauthError (list oauthMetadata) :=
  match ids with
  | [] => Ok []
  | id :: ids => c ← loadLocked readable id d; l ← load_all readable ids d; Ok (Metadata c :: l)
  end.
Definition credential_names (d : credDir) : list string := sort_by String.ltb (map fst (map_to_list d)).
Definition List_credentials (readable : bool) (d : credDir) : result oauthError (list oauthMetadata) :=
  l ← load_all readable (credential_names d) d;
  Ok (sort_by (fun a b => String.ltb (om_ID a) (om_ID b)) l).
(** [removed] is whether the file could be removed. *)
Definition Delete_credential (removed : bool) (id : string) (d : credDir) : result oauthError unit * credDir :=
  match validateCredentialID id with
  | Err e => (Err e, d)
  | Ok _ =>
      match d !! id with
      | None => (Ok tt, d)
      | Some _ => if removed then (Ok tt, delete id d) else (Err (OAuthErr "remove oauth credential: %w" []), d)
      end
  end.
End store.

(** ** Flows *)

Record oauthFlow := mkOAuthFlow {
  fl_ID : string;
  fl_Provider : string;
  fl_CredentialID : string;
  fl_AuthorizationURL : string;
  fl_VerificationURL : string;
  fl_UserCode : string;
  fl_Interval : Z;
  fl_ExpiresAt : Time;
  fl_state : string;
  fl_verifier : string;
  fl_deviceAuthID : string
}.
Definition publicFlow (f : oauthFlow) : oauthFlow :=
  mkOAuthFlow (fl_ID f) (fl_Provider f) (fl_CredentialID f) (fl_AuthorizationURL f) (fl_VerificationURL f) (fl_UserCode f)
    (fl_Interval f) (fl_ExpiresAt f) "" "" (fl_deviceAuthID f).

Abbreviation oauthFlows := (gmap string oauthFlow).
Definition cleanupLocked (now : Time) (flows : oauthFlows) : oauthFlows :=
  filter (fun kv => After (fl_ExpiresAt kv.2) now = true) flows.
Definition add_flow (now : Time) (f : oauthFlow) (flows : oauthFlows) : oauthFlows := <[fl_ID f := f]> (cleanupLocked now flows).
Definition get_flow (now : Time) (id : string) (flows : oauthFlows) : option oauthFlow * oauthFlows :=
  let flows := cleanupLocked now flows in (flows !! id, flows).
Definition take_flow (now : Time) (id : string) (flows : oauthFlows) : option oauthFlow * oauthFlows :=
  let flows := cleanupLocked now flows in (flows !! id, delete id flows).
Definition claim_flow (id deviceAuthID : string) (flows : oauthFlows) : bool * oauthFlows :=
  match flows !! id with
  | Some current => if fl_deviceAuthID current != deviceAuthID then (false, flows) else (true, delete id flows)
  | None => (false, flows)
  end.

(** ** Calls *)

Inductive oauthAnswer := NotSent (error : string) | NotRead (error : string) | Answer (status : Z) (payload : string).

Inductive oauthCall : Type -> Type :=
| ONow : oauthCall Time
| ORandom (size : Z) : oauthCall (result oauthError string)
| OSend (url : string) (body : list (string * string)) : oauthCall oauthAnswer
| OAddFlow (f : oauthFlow) : oauthCall unit
| OGetFlow (id : string) : oauthCall (option oauthFlow)
| OTakeFlow (id : string) : oauthCall (option oauthFlow)
| OClaimFlow (id deviceAuthID : string) : oauthCall bool
| OSave (c : oauthCredential) : oauthCall (result oauthError unit)
| OLoad (id : string) : oauthCall (result oauthError oauthCredential)
| OList : oauthCall (result oauthError (list oauthMetadata))
| ODelete (id : string) : oauthCall (result oauthError unit).
Inductive oauthEvent :=
| OENow (t : Time)
| OERandom (size : Z) (r : result oauthError string)
| OESend (url : string) (body : list (string * string)) (a : oauthAnswer)
| OEAdd (f : oauthFlow)
| OEGet (id : string) (f : option oauthFlow)
| OETake (id : string) (f : option oauthFlow)
| OEClaim (id deviceAuthID : string) (ok : bool)
| OESave (c : oauthCredential) (r : result oauthError unit)
| OELoad (id : string) (r : result oauthError oauthCredential)
| OEList (r : result oauthError (list oauthMetadata))
| OEDelete (id : string) (r : result oauthError unit).
Definition oauth_observe (B : Type) (c : oauthCall B) : B -> oauthEvent :=
  match c in oauthCall B return B -> oauthEvent with
  | ONow => OENow
  | ORandom n => OERandom n
  | OSend url body => OESend url body
  | OAddFlow f => fun _ => OEAdd f
  | OGetFlow id => OEGet id
  | OTakeFlow id => OETake id
  | OClaimFlow id d => OEClaim id d
  | OSave c => OESave c
  | OLoad id => OELoad id
  | OList => OEList
  | ODelete id => OEDelete id
  end.

(** A program that can fail *)
Abbreviation op A := (prog oauthCall (result oauthError A)).
Definition then_ {A B} (p : op A) (f : A -> op B) : op B := r ← p; match r with Ok a => f a | Err e => mret (Err e) end.
Notation "x '<~' p ; q" := (then_ p (fun x => q)) (at level 20, p at level 100, q at level 200).
Definition check {A} (r : result oauthError A) : op A := mret r.
Definition now_ : op Time := t ← perform ONow; mret (Ok t).
Definition oauth_failed {A} (format : string) (args : list string) : op A := mret (Err (OAuthErr format args)).

(** ** The manager *)

Definition claudeAuthorizationURL := "https://claude.ai/oauth/authorize".
Definition claudeTokenURL := "https://api.anthropic.com/v1/oauth/token".
Definition claudeClientID := "9d1c250a-e61b-44d9-88ed-5944d1962f5e".
Definition claudeRedirectURI := "http://localhost:54545/callback".
Definition codexClientID := "app_EMoamEEZ73f0CkXaXp7hrann".
Definition codexDeviceCodeURL := "https://auth.openai.com/api/accounts/deviceauth/usercode".
Definition codexDeviceTokenURL := "https://auth.openai.com/api/accounts/deviceauth/token".
Definition codexVerificationURL := "https://auth.openai.com/codex/device".
Definition codexTokenURL := "https://auth.openai.com/oauth/token".
Definition codexRedirectURI := "https://auth.openai.com/deviceauth/callback".
Definition maxOAuthResponseBytes : Z := 2 ^ 20.
Definition limit_bytes (limit : Z) (s : string) : string :=
  if Z.of_nat (len s) <=? limit then s else str_take (Z.to_nat limit) s.
Definition codexDeviceFlowTTL : Duration := 15 * Minute.
Definition codexPollInterval : Z := 5.

Section manager.
(** [values.Encode()], the hash of a verifier, the code and state in a callback *)
Context (encodeValues : list (string * string) -> string) (pkceChallenge : string -> string)
  (callbackQuery : string -> result string (string * string)).

(** Sends a request and reads the answer: the status and the first MiB of the body. *)
Definition send_json (url : string) (body : list (string * string)) (sending reading : string) : op (Z * string) :=
  a ← perform (OSend url body);
  match a with
  | NotSent e => oauth_failed sending [e]
  | NotRead e => oauth_failed reading [e]
  | Answer status payload => mret (Ok (status, limit_bytes maxOAuthResponseBytes payload))
  end.
(** [time.Duration(n) * time.Second] *)
Definition seconds (n : Z) : Duration := i64 (n * Second).

Definition claude_values (challenge state : string) : list (string * string) :=
  [("code", "true"); ("client_id", claudeClientID); ("response_type", "code"); ("redirect_uri", claudeRedirectURI);
   ("scope", "user:profile user:inference user:sessions:claude_code user:mcp_servers user:file_upload");
   ("code_challenge", challenge); ("code_challenge_method", "S256"); ("state", state)].
Definition StartClaudeFlow (credentialID : string) : op oauthFlow :=
  _u <~ check (validateCredentialID credentialID);
  flowID <~ perform (ORandom 24);
  state <~ perform (ORandom 24);
  verifier <~ perform (ORandom 48);
  now <~ now_;
  let flow := mkOAuthFlow flowID ProviderClaude credentialID
    (claudeAuthorizationURL +:+ "?" +:+ encodeValues (claude_values (pkceChallenge verifier) state)) "" "" 0
    (Add now (10 * Minute)) state verifier "" in
  (_ ← perform (OAddFlow flow); mret (Ok (publicFlow flow))).

Record deviceResponse := mkDeviceResponse { dr_DeviceAuthID : string; dr_UserCode : string; dr_Interval : Z; dr_ExpiresIn : Z }.
Definition dec_device (payload : string) : option deviceResponse :=
  j ← Parse payload; ms ← as_object j; d ← f_string "device_auth_id" ms; u ← f_string "user_code" ms;
  i ← f_int "interval" ms; e ← f_int "expires_in" ms; Some (mkDeviceResponse d u i e).
Definition StartCodexDeviceFlow (credentialID : string) : op oauthFlow :=
  _u <~ check (validateCredentialID credentialID);
  flowID <~ perform (ORandom 24);
  answer <~ send_json codexDeviceCodeURL [("client_id", codexClientID)]
                  "codex device authorization request: %w" "read Codex device authorization response: %w";
  if negb (answer.1 =? 200) then oauth_failed "codex device authorization failed with status %d" [itoa answer.1] else
  match dec_device answer.2 with
  | None => oauth_failed "decode Codex device authorization response: %w" []
  | Some device =>
      if (TrimSpace (dr_DeviceAuthID device) == "") || (TrimSpace (dr_UserCode device) == "")
      then oauth_failed "codex device authorization response is invalid" [] else
      let interval := if dr_Interval device <=? 0 then codexPollInterval else dr_Interval device in
      now <~ now_;
      expiresAt <~ (if (0 <? dr_ExpiresIn device) && (seconds (dr_ExpiresIn device) <? codexDeviceFlowTTL)
                        then now ← perform ONow; mret (Ok (Add now (seconds (dr_ExpiresIn device))))
                        else mret (Ok (Add now codexDeviceFlowTTL)));
      let flow := mkOAuthFlow flowID ProviderCodex credentialID "" codexVerificationURL (dr_UserCode device) interval expiresAt
                    "" "" (dr_DeviceAuthID device) in
      (_ ← perform (OAddFlow flow); mret (Ok (publicFlow flow)))
  end.

Record tokenResponse := mkTokenResponse { tk_AccessToken : string; tk_RefreshToken : string; tk_ExpiresIn : Z; tk_Scope : string }.
Definition dec_token_fields (ms : members) : option tokenResponse :=
  a ← f_string "access_token" ms; r ← f_string "refresh_token" ms; e ← f_int "expires_in" ms; s ← f_string "scope" ms;
  Some (mkTokenResponse a r e s).
Definition dec_token (payload : string) : option tokenResponse := j ← Parse payload; ms ← as_object j; dec_token_fields ms.
(** The token with the address of the account *)
Definition dec_claude_token (payload : string) : option (tokenResponse * string) :=
  j ← Parse payload; ms ← as_object j; t ← dec_token_fields ms;
  email ← field "" (fun j => ms ← as_object j; f_string "email_address" ms) "account" ms; Some (t, email).

Definition save_credential (c : oauthCredential) : op oauthMetadata :=
  _u <~ perform (OSave c); mret (Ok (Metadata c)).

Definition exchangeCodexAuthorizationCode (flow : oauthFlow) (authorizationCode codeVerifier : string) : op oauthMetadata :=
  answer <~ send_json codexTokenURL
    [("client_id", codexClientID); ("code", authorizationCode); ("code_verifier", codeVerifier);
     ("grant_type", "authorization_code"); ("redirect_uri", codexRedirectURI)]
    "codex OAuth exchange request: %w" "read Codex OAuth exchange response: %w";
  if negb (answer.1 =? 200) then oauth_failed "codex OAuth exchange failed with status %d" [itoa answer.1] else
  match dec_token answer.2 with
  | None => oauth_failed "decode Codex OAuth exchange response: %w" []
  | Some token =>
      if (TrimSpace (tk_AccessToken token) == "") || (tk_ExpiresIn token <=? 0)
      then oauth_failed "codex OAuth exchange response is invalid" [] else
      now <~ now_;
      save_credential (mkOAuthCredential (fl_CredentialID flow) ProviderCodex (tk_AccessToken token) (tk_RefreshToken token)
                         (Add now (seconds (tk_ExpiresIn token))) "" (tk_Scope token) zero_time zero_time)
  end.

Definition dec_device_token (payload : string) : option (string * string) :=
  j ← Parse payload; ms ← as_object j; c ← f_string "authorization_code" ms; v ← f_string "code_verifier" ms; Some (c, v).
Definition flow_gone : oauthError := OAuthErr "oauth flow not found or expired" [].
Definition PollCodexDeviceFlow (flowID : string) : op oauthMetadata :=
  found ← perform (OGetFlow flowID);
  match found with
  | None => mret (Err flow_gone)
  | Some flow =>
      if fl_Provider flow != ProviderCodex then mret (Err flow_gone) else
      answer <~ send_json codexDeviceTokenURL
        [("client_id", codexClientID); ("device_auth_id", fl_deviceAuthID flow); ("user_code", fl_UserCode flow)]
        "codex device token request: %w" "read Codex device token response: %w";
      if (answer.1 =? 403) || (answer.1 =? 401) then mret (Err CodexAuthorizationPending)
      else if negb (answer.1 =? 200) then oauth_failed "codex device token request failed with status %d" [itoa answer.1] else
      match dec_device_token answer.2 with
      | None => oauth_failed "decode Codex device token response: %w" []
      | Some (authorizationCode, codeVerifier) =>
          if (TrimSpace authorizationCode == "") || (TrimSpace codeVerifier == "")
          then oauth_failed "codex device token response is invalid" [] else
          claimed ← perform (OClaimFlow flowID (fl_deviceAuthID flow));
          if claimed : bool then exchangeCodexAuthorizationCode flow authorizationCode codeVerifier else mret (Err flow_gone)
      end
  end.

Definition claude_exchange (code state verifier : string) : list (string * string) :=
  [("code", code); ("state", state); ("grant_type", "authorization_code"); ("client_id", claudeClientID);
   ("redirect_uri", claudeRedirectURI); ("code_verifier", verifier)].
Definition CompleteClaudeFlow (flowID callback : string) : op oauthMetadata :=
  found ← perform (OTakeFlow flowID);
  match found with
  | None => mret (Err flow_gone)
  | Some flow =>
      if fl_Provider flow != ProviderClaude then mret (Err flow_gone) else
      match callbackQuery (TrimSpace callback) with
      | Err e => oauth_failed "parse OAuth callback: %w" [e]
      | Ok (code, state) =>
          if (code == "") || (state == "") || (state != fl_state flow) then oauth_failed "OAuth callback is invalid" [] else
          answer <~ send_json claudeTokenURL (claude_exchange code state (fl_verifier flow))
            "OAuth exchange request: %w" "read OAuth exchange response: %w";
          if negb (answer.1 =? 200) then oauth_failed "OAuth exchange failed with status %d" [itoa answer.1] else
          match dec_claude_token answer.2 with
          | None => oauth_failed "decode OAuth exchange response: %w" []
          | Some (token, email) =>
              now <~ now_;
              save_credential (mkOAuthCredential (fl_CredentialID flow) ProviderClaude (tk_AccessToken token)
                                 (tk_RefreshToken token) (Add now (seconds (tk_ExpiresIn token))) email (tk_Scope token)
                                 zero_time zero_time)
          end
      end
  end.

Definition oauthRefreshEndpoint (provider : string) : string * string :=
  if provider == ProviderCodex then (codexTokenURL, codexClientID) else (claudeTokenURL, claudeClientID).
(** The credential with what a token answer renews *)
Definition renewed (now : Time) (token : tokenResponse) (c : oauthCredential) : oauthCredential :=
  mkOAuthCredential (oc_ID c) (oc_Provider c) (tk_AccessToken token)
    (if TrimSpace (tk_RefreshToken token) == "" then oc_RefreshToken c else tk_RefreshToken token)
    (Add now (seconds (tk_ExpiresIn token))) (oc_AccountLabel c)
    (if TrimSpace (tk_Scope token) == "" then oc_Scope c else tk_Scope token) (oc_CreatedAt c) (oc_UpdatedAt c).
Definition refreshCredential (credential : oauthCredential) : op oauthCredential :=
  current <~ perform (OLoad (oc_ID credential));
  if oc_Provider current != oc_Provider credential then oauth_failed "oauth credential %q provider changed" [oc_ID credential] else
  now <~ now_;
  if After (oc_ExpiresAt current) (Add now Minute) && (oc_AccessToken current != oc_AccessToken credential)
  then mret (Ok current) else
  if TrimSpace (oc_RefreshToken current) == "" then oauth_failed "oauth credential %q requires reconnect" [oc_ID current] else
  let '(endpoint, clientID) := oauthRefreshEndpoint (oc_Provider current) in
  answer <~ send_json endpoint
    [("grant_type", "refresh_token"); ("refresh_token", oc_RefreshToken current); ("client_id", clientID)]
    "OAuth refresh request: %w" "read OAuth refresh response: %w";
  if negb (answer.1 =? 200) then oauth_failed "OAuth refresh failed with status %d; reconnect is required" [itoa answer.1] else
  match dec_token answer.2 with
  | None => oauth_failed "decode OAuth refresh response: %w" []
  | Some token =>
      if (TrimSpace (tk_AccessToken token) == "") || (tk_ExpiresIn token <=? 0)
      then oauth_failed "OAuth refresh response is invalid; reconnect is required" [] else
      now <~ now_;
      _u <~ perform (OSave (renewed now token current));
      perform (OLoad (oc_ID current))
  end.

Definition wrong_provider {A} (id provider : string) : op A :=
  oauth_failed "oauth credential %q is not a %s credential" [id; provider].
Definition ManagerCredential (id provider : string) : op oauthCredential :=
  credential <~ perform (OLoad id);
  if oc_Provider credential != provider then wrong_provider id provider else
  now <~ now_;
  if After (oc_ExpiresAt credential) (Add now Minute) then mret (Ok credential) else refreshCredential credential.
Definition RefreshCredential (id provider : string) : op oauthCredential :=
  credential <~ perform (OLoad id);
  if oc_Provider credential != provider then wrong_provider id provider else refreshCredential credential.
End manager.

(** ** Sources of credentials *)

(** [StaticCredentialSource]: [None] is the nil source. *)
Definition static_credential (source : option string) : result oauthError string :=
  match source with
  | Some value => if value == "" then Err (OAuthErr "api key is required" []) else Ok value
  | None => Err (OAuthErr "api key is required" [])
  end.

(** [OAuthCredentialSource]: the value of [invalidated] it finds decides, and it is reset. *)
Definition source_credential (id provider : string) (invalidated : bool) : op string :=
  credential <~ (if invalidated then RefreshCredential id provider else ManagerCredential id provider);
  mret (Ok (oc_AccessToken credential)).

(** ** The Codex provider *)

Definition codexConsumerBaseURL := "https://chatgpt.com/backend-api/codex".
Inductive codexCall : Type -> Type :=
| CodexCredential : codexCall (result goerror string)
| CodexInvalidate : codexCall unit
| CodexChat (token : string) (req : Request) : codexCall (result goerror RuntimeModel.Response).
Definition errored {A} (r : result goerror A) : option goerror := match r with Ok _ => None | Err e => Some e end.

(** The delegate is the client of the Responses format with one key and no capabilities. *)
Definition codex_ChatCompletion (req : Request) : prog codexCall (result goerror RuntimeModel.Response) :=
  credential ← perform CodexCredential;
  match credential with
  | Err e => mret (Err e)
  | Ok token =>
      response ← perform (CodexChat token req);
      if bool_decide (NormalizeError (errored response) = ErrorKindAuthFailed) then
        _ ← perform CodexInvalidate;
        credential ← perform CodexCredential;
        match credential with
        | Err e => mret (Err e)
        | Ok token => perform (CodexChat token req)
        end
      else mret response
  end.
