(* ===== verification/OAuthFacts.v ===== *)
(** * Logins and renewals of OAuth credentials

    Shows that a login stores a credential only for a flow that was started, once, and with
    the state of that flow in the callback; that what is stored is what is loaded; and what
    a renewal sends and stores. *)

From S2P Require Import Prelude GoStrings GoTime GoTimeFacts ProviderErrors RuntimeModel GoJson Program OAuth.

Abbreviation oruns := (runs oauth_observe).

Lemma runs_then {A B} (p : op A) (f : A -> op B) tr b :
  oruns (then_ p f) tr b <-> exists tr1 r tr2, tr = tr1 ++ tr2 /\ oruns p tr1 r /\
    match r with Ok a => oruns (f a) tr2 b | Err e => tr2 = [] /\ b = Err e end.
Proof.
  unfold then_. rewrite runs_bind. split; intros (tr1 & r & tr2 & -> & H1 & H2); exists tr1, r, tr2; (split; [done|]); (split; [done|]);
    by destruct r.
Qed.
Lemma runs_now tr r : oruns now_ tr r <-> exists t, tr = [OENow t] /\ r = Ok t.
Proof.
  unfold now_. rewrite runs_bind. split.
  - intros (tr1 & t & tr2 & -> & H1 & H2). apply runs_perform in H1 as ->. apply runs_ret in H2 as [-> ->]. by exists t.
  - intros (t & -> & ->). exists [OENow t], t, []. split; [done|]. split; [by apply runs_perform|by apply runs_ret].
Qed.
Lemma runs_send_json url body sending reading tr r : oruns (send_json url body sending reading) tr r ->
  exists a, tr = [OESend url body a] /\ forall status payload, r = Ok (status, payload) ->
    exists whole, a = Answer status whole /\ payload = limit_bytes maxOAuthResponseBytes whole.
Proof.
  intros H. unfold send_json in H. apply runs_bind in H as (tr1 & a & tr2 & -> & H1 & H2). apply runs_perform in H1 as ->.
  exists a. destruct a; apply runs_ret in H2 as [-> ->]; (split; [done|]); intros s p E; [done|done|].
  injection E as <- <-. by eexists.
Qed.

(** Takes a run of an operation apart; [trace] is what is left of it. *)
Ltac op_inv :=
  repeat match goal with
  | H : oruns (then_ _ _) _ _ |- _ =>
      let t1 := fresh "t" in let r := fresh "r" in let t2 := fresh "t" in let H1 := fresh "H" in
      apply runs_then in H as (t1 & r & t2 & -> & H1 & H); destruct r; [|destruct H as [-> ->]]
  | H : oruns now_ _ _ |- _ => let t := fresh "now" in apply runs_now in H as (t & -> & H); simplify_eq
  | H : oruns (send_json _ _ _ _) _ _ |- _ =>
      let a := fresh "answer" in let E := fresh "E" in apply runs_send_json in H as (a & -> & E)
  | H : oruns (mbind _ _) _ _ |- _ =>
      let H1 := fresh "H" in let t1 := fresh "t" in let t2 := fresh "t" in let x := fresh "x" in
      apply runs_bind in H as (t1 & x & t2 & -> & H1 & H)
  | H : oruns (perform _) _ _ |- _ => apply runs_perform in H as ->
  | H : oruns (mret _) _ _ |- _ => apply runs_ret in H as [-> ?]
  | H : oruns (oauth_failed _ _) _ _ |- _ => apply runs_ret in H as [-> ?]
  | H : oruns (save_credential _) _ _ |- _ => unfold save_credential in H
  end.
(** The events of a trace that is written out *)
Ltac in_trace := rewrite ?elem_of_app, ?elem_of_cons, ?elem_of_nil in *; naive_solver.

(** ** Flows *)

(** The map of flows along a trace, each step at some time *)
Inductive flows_run : oauthFlows -> list oauthEvent -> oauthFlows -> Prop :=
| FlowsNil flows : flows_run flows [] flows
| FlowsAdd now f flows tr flows' : flows_run (add_flow now f flows) tr flows' -> flows_run flows (OEAdd f :: tr) flows'
| FlowsGet now id flows tr flows' :
    flows_run (get_flow now id flows).2 tr flows' -> flows_run flows (OEGet id (get_flow now id flows).1 :: tr) flows'
| FlowsTake now id flows tr flows' :
    flows_run (take_flow now id flows).2 tr flows' -> flows_run flows (OETake id (take_flow now id flows).1 :: tr) flows'
| FlowsClaim id d flows tr flows' :
    flows_run (claim_flow id d flows).2 tr flows' -> flows_run flows (OEClaim id d (claim_flow id d flows).1 :: tr) flows'
| FlowsOther e flows tr flows' :
    match e with OEAdd _ | OEGet _ _ | OETake _ _ | OEClaim _ _ _ => False | _ => True end ->
    flows_run flows tr flows' -> flows_run flows (e :: tr) flows'.

Definition starts (id : string) (e : oauthEvent) : bool := match e with OEAdd f => fl_ID f == id | _ => false end.
Definition completes (id : string) (e : oauthEvent) : bool :=
  match e with OETake i (Some _) => i == id | OEClaim i _ true => i == id | _ => false end.
Definition count (p : oauthEvent -> bool) (tr : list oauthEvent) : nat := length (filter (fun e => p e = true) tr).
Definition present (id : string) (flows : oauthFlows) : nat := match flows !! id with Some _ => 1%nat | None => 0%nat end.

Lemma count_cons p e tr : count p (e :: tr) = ((if p e then 1 else 0) + count p tr)%nat.
Proof. unfold count. rewrite filter_cons. destruct (p e) eqn:E; [by rewrite decide_True|by rewrite decide_False]. Qed.
Lemma present_cleanup now id flows : (present id (cleanupLocked now flows) <= present id flows)%nat.
Proof.
  unfold present. destruct (cleanupLocked now flows !! id) as [f|] eqn:E; [|case_match; lia].
  apply map_lookup_filter_Some in E as [-> _]. done.
Qed.
Lemma present_delete i id flows : (present id (delete i flows) + (if i == id then present id flows else 0) <= present id flows)%nat.
Proof.
  unfold present. destruct (i == id) eqn:E; breflect.
  - subst. rewrite lookup_delete_eq. case_match; lia.
  - rewrite lookup_delete_ne by done. lia.
Qed.

Lemma flows_bounded flows tr flows' id : flows_run flows tr flows' ->
  (count (completes id) tr + present id flows' <= count (starts id) tr + present id flows)%nat.
Proof.
  induction 1 as [flows|now f flows tr flows' H IH|now i flows tr flows' H IH|now i flows tr flows' H IH|i d flows tr flows' H IH|e flows tr flows' He H IH];
    rewrite ?count_cons; cbn [completes starts].
  - done.
  - pose proof (present_cleanup now id flows) as Hc. unfold add_flow, present in *. destruct (fl_ID f == id) eqn:E; breflect.
    + subst. rewrite lookup_insert_eq in IH. case_match; lia.
    + rewrite lookup_insert_ne in IH by done. lia.
  - pose proof (present_cleanup now id flows). cbn [get_flow fst snd] in *. lia.
  - pose proof (present_cleanup now id flows) as Hc. cbn [take_flow fst snd] in *.
    pose proof (present_delete i id (cleanupLocked now flows)) as Hd.
    destruct (cleanupLocked now flows !! i) as [f|] eqn:E; [|lia]. destruct (i == id) eqn:Ei; [|lia].
    breflect. subst. unfold present in *. rewrite E in *. lia.
  - unfold claim_flow in *. destruct (flows !! i) as [f|] eqn:E; [|cbn [fst snd] in *; lia].
    destruct (fl_deviceAuthID f != d); cbn [fst snd] in *; [lia|]. pose proof (present_delete i id flows) as Hd.
    destruct (i == id) eqn:Ei; [|lia]. breflect. subst. unfold present in *. rewrite E in *. lia.
  - destruct e as [| | | | |? [|]|? ? [|]| | | |]; try done; cbn [completes starts] in *; lia.
Qed.

(** C37: a flow is completed at most as often as it was started, whichever operations of the
    manager interleave: of several requests that bring the callback, or poll the device
    code, one goes on to exchange the code. *)
Theorem flow_used_once tr flows id : flows_run ∅ tr flows ->
  (count (completes id) tr <= count (starts id) tr)%nat.
Proof. intros H. apply (flows_bounded _ _ _ id) in H. unfold present in H at 2. rewrite lookup_empty in H. lia. Qed.

Definition ex_flow : oauthFlow := mkOAuthFlow "F" ProviderClaude "me" "" "" "" 0 100 "S" "V" "".
Lemma flow_used_once_witness :
  let tr := [OEAdd ex_flow; OETake "F" (Some ex_flow); OETake "F" None] in
  (count (completes "F") tr <= count (starts "F") tr)%nat.
Proof.
  apply (flow_used_once _ (take_flow 60 "F" (take_flow 60 "F" (add_flow 50 ex_flow ∅)).2).2). apply (FlowsAdd 50).
  replace (Some ex_flow) with (take_flow 60 "F" (add_flow 50 ex_flow ∅)).1 by (vm_compute; reflexivity). apply FlowsTake.
  replace None with (take_flow 60 "F" (take_flow 60 "F" (add_flow 50 ex_flow ∅)).2).1 by (vm_compute; reflexivity).
  apply FlowsTake, FlowsNil.
Defined.

(** ** Logins *)

Section login.
Context (callbackQuery : string -> result string (string * string)).

(** A Claude login that stores a credential has taken the flow, had its state in the
    callback, and exchanged the callback's code with the flow's verifier. *)
Lemma claude_login_saves flowID callback tr out c r :
  oruns (CompleteClaudeFlow callbackQuery flowID callback) tr out -> OESave c r ∈ tr ->
  exists f code payload, OETake flowID (Some f) ∈ tr /\ fl_Provider f = ProviderClaude /\
    callbackQuery (TrimSpace callback) = Ok (code, fl_state f) /\ fl_state f <> "" /\
    OESend claudeTokenURL (claude_exchange code (fl_state f) (fl_verifier f)) (Answer 200 payload) ∈ tr /\
    oc_ID c = fl_CredentialID f /\ oc_Provider c = ProviderClaude.
Proof.
  intros H Hin. unfold CompleteClaudeFlow in H. op_inv. destruct x as [f|]; [|op_inv; in_trace].
  destruct (fl_Provider f != ProviderClaude) eqn:Ep; [op_inv; in_trace|].
  destruct (callbackQuery (TrimSpace callback)) as [[code state]|e] eqn:Ec; [|op_inv; in_trace].
  destruct (_ || _) eqn:Es in H; [op_inv; in_trace|]. apply orb_false_iff in Es as [Es E2]. apply orb_false_iff in Es as [_ Es].
  op_inv; [|in_trace]. destruct a as [status payload]. destruct (E _ _ eq_refl) as (whole & -> & ->). cbn [fst snd] in H.
  destruct (negb (status =? 200)) eqn:E200; [op_inv; in_trace|]. destruct (dec_claude_token _) as [[token email]|]; [|op_inv; in_trace].
  apply negb_false_iff, Z.eqb_eq in E200 as ->. apply String.eqb_neq in Es. apply negb_false_iff, String.eqb_eq in E2 as ->.
  op_inv; exists f, code, whole; rewrite ?app_nil_r in Hin; cbn [app] in *; rewrite !elem_of_cons, elem_of_nil in Hin;
    destruct Hin as [Hin|[Hin|[Hin|[Hin|Hin]]]]; try done; injection Hin as -> ->;
    (split; [by left|]; split; [by breflect|]; split; [done|]; split; [done|]; split; [by right; left|done]).
Qed.

(** A Codex login that stores a credential has found the flow, was told by the device
    endpoint that it is authorised, and was the one to claim the flow. *)
Lemma codex_login_saves flowID tr out c r : oruns (PollCodexDeviceFlow flowID) tr out -> OESave c r ∈ tr ->
  exists f code verifier device payload, OEGet flowID (Some f) ∈ tr /\ fl_Provider f = ProviderCodex /\
    OESend codexDeviceTokenURL [("client_id", codexClientID); ("device_auth_id", fl_deviceAuthID f); ("user_code", fl_UserCode f)]
      (Answer 200 device) ∈ tr /\
    dec_device_token (limit_bytes maxOAuthResponseBytes device) = Some (code, verifier) /\
    OEClaim flowID (fl_deviceAuthID f) true ∈ tr /\
    OESend codexTokenURL [("client_id", codexClientID); ("code", code); ("code_verifier", verifier);
      ("grant_type", "authorization_code"); ("redirect_uri", codexRedirectURI)] (Answer 200 payload) ∈ tr /\
    oc_ID c = fl_CredentialID f /\ oc_Provider c = ProviderCodex.
Proof.
  intros H Hin. unfold PollCodexDeviceFlow in H. op_inv. destruct x as [f|]; [|op_inv; in_trace].
  destruct (fl_Provider f != ProviderCodex) eqn:Ep; [op_inv; in_trace|]. op_inv; [|in_trace].
  destruct a as [status payload]. destruct (E _ _ eq_refl) as (device & -> & ->). cbn [fst snd] in H.
  destruct (_ || _); [op_inv; in_trace|]. destruct (negb (status =? 200)) eqn:E200; [op_inv; in_trace|].
  apply negb_false_iff, Z.eqb_eq in E200 as ->.
  destruct (dec_device_token _) as [[code verifier]|] eqn:Ed; [|op_inv; in_trace]. destruct (_ || _); [op_inv; in_trace|].
  op_inv. destruct x; [|op_inv; in_trace]. unfold exchangeCodexAuthorizationCode in H. op_inv; [|in_trace].
  destruct a as [status payload]. destruct (E0 _ _ eq_refl) as (whole & -> & ->). cbn [fst snd] in H.
  destruct (negb (status =? 200)) eqn:E200; [op_inv; in_trace|]. apply negb_false_iff, Z.eqb_eq in E200 as ->.
  destruct (dec_token _) as [token|]; [|op_inv; in_trace]. destruct (_ || _); [op_inv; in_trace|].
  op_inv; exists f, code, verifier, device, whole; rewrite ?app_nil_r in Hin; cbn [app] in *; rewrite !elem_of_cons, elem_of_nil in Hin;
    destruct Hin as [Hin|[Hin|[Hin|[Hin|[Hin|[Hin|Hin]]]]]]; try done; injection Hin as -> ->;
    (split; [by left|]; split; [by breflect|]; split; [by right; left|]; split; [done|]; split; [by do 2 right; left|];
     split; [by do 3 right; left|done]).
Qed.

(** C24: whatever else runs in between, and whatever the network answers: a login stores a
    credential only under the name for which the flow was started.  A Claude login has taken
    the flow, found its state in the callback, and exchanged the callback's code together
    with the flow's verifier; a Codex login has claimed the flow after the device was
    authorised. *)
Theorem login_authentic flowID callback tr1 out1 tr2 out2 :
  oruns (CompleteClaudeFlow callbackQuery flowID callback) tr1 out1 -> oruns (PollCodexDeviceFlow flowID) tr2 out2 ->
  (forall c r, OESave c r ∈ tr1 ->
    exists f code payload, OETake flowID (Some f) ∈ tr1 /\ fl_Provider f = ProviderClaude /\
      callbackQuery (TrimSpace callback) = Ok (code, fl_state f) /\ fl_state f <> "" /\
      OESend claudeTokenURL (claude_exchange code (fl_state f) (fl_verifier f)) (Answer 200 payload) ∈ tr1 /\
      oc_ID c = fl_CredentialID f /\ oc_Provider c = ProviderClaude) /\
  (forall c r, OESave c r ∈ tr2 ->
    exists f device, OEGet flowID (Some f) ∈ tr2 /\ fl_Provider f = ProviderCodex /\
      OESend codexDeviceTokenURL [("client_id", codexClientID); ("device_auth_id", fl_deviceAuthID f); ("user_code", fl_UserCode f)]
        (Answer 200 device) ∈ tr2 /\
      OEClaim flowID (fl_deviceAuthID f) true ∈ tr2 /\ oc_ID c = fl_CredentialID f /\ oc_Provider c = ProviderCodex).
Proof.
  intros H1 H2. split; intros c r Hin; [by eapply claude_login_saves|].
  destruct (codex_login_saves _ _ _ _ _ H2 Hin) as (f & code & verifier & device & payload & ?). exists f, device. naive_solver.
Qed.
End login.

Definition ex_claude_trace : list oauthEvent :=
  [OETake "F" (Some ex_flow);
   OESend claudeTokenURL (claude_exchange "C" "S" "V") (Answer 200 (js "{'access_token':'A','expires_in':60}"));
   OENow 200; OESave (mkOAuthCredential "me" ProviderClaude "A" "" (200 + 60 * Second) "" "" 0 0) (Ok tt)].
Definition ex_callback (s : string) : result string (string * string) := if s == "cb" then Ok ("C", "S") else Err "bad".
(** A world in which every call goes well *)
Definition ex_answer (B : Type) (c : oauthCall B) (s : unit) : unit * B :=
  match c in oauthCall B return unit * B with
  | ONow => (s, 200)
  | ORandom _ => (s, Ok "R")
  | OSend _ _ => (s, Answer 200 (js "{'access_token':'A','expires_in':60}"))
  | OAddFlow _ => (s, tt)
  | OGetFlow _ | OTakeFlow _ => (s, Some ex_flow)
  | OClaimFlow _ _ => (s, true)
  | OSave _ => (s, Ok tt)
  | OLoad id => (s, Err (OAuthErr "oauth credential %q not found" [id]))
  | OList => (s, Ok [])
  | ODelete _ => (s, Ok tt)
  end.
Lemma ex_claude_runs : oruns (CompleteClaudeFlow ex_callback "F" " cb") ex_claude_trace
  (Ok (mkOAuthMetadata "me" ProviderClaude (200 + 60 * Second) "" "" 0 0)).
Proof.
  pose proof (exec_runs oauth_observe ex_answer (CompleteClaudeFlow ex_callback "F" " cb") tt) as H.
  replace (exec oauth_observe ex_answer (CompleteClaudeFlow ex_callback "F" " cb") tt) with
    (tt, ex_claude_trace, Ok (E := oauthError) (mkOAuthMetadata "me" ProviderClaude (200 + 60 * Second) "" "" 0 0)) in H
    by (vm_compute; reflexivity). exact H.
Qed.

Lemma login_authentic_witness : exists f code payload,
  OETake "F" (Some f) ∈ ex_claude_trace /\ fl_Provider f = ProviderClaude /\ ex_callback (TrimSpace " cb") = Ok (code, fl_state f) /\
  fl_state f <> "" /\
  OESend claudeTokenURL (claude_exchange code (fl_state f) (fl_verifier f)) (Answer 200 payload) ∈ ex_claude_trace /\
  "me" = fl_CredentialID f /\ ProviderClaude = ProviderClaude.
Proof.
  refine (proj1 (login_authentic ex_callback "F" " cb" ex_claude_trace
    (Ok (mkOAuthMetadata "me" ProviderClaude (200 + 60 * Second) "" "" 0 0)) [OEGet "F" None] (Err flow_gone) _ _)
    (mkOAuthCredential "me" ProviderClaude "A" "" (200 + 60 * Second) "" "" 0 0) (Ok tt) _).
  - exact ex_claude_runs.
  - exists None. eexists. split; [reflexivity|]. split; reflexivity.
  - by do 3 right; left.
Defined.

(** ** The store *)

Section store.
Context (marshalCredential : Z -> oauthCredential -> option string)
  (unmarshalCredential : string -> result string (Z * oauthCredential)).
Context (Hcodec : forall v c s, marshalCredential v c = Some s -> unmarshalCredential s = Ok (v, c)).

(** What a save that succeeds stores is what is loaded afterwards, with the times set, and
    no other credential changes; a save that fails changes nothing, unless all that failed
    is making the renamed file durable. *)
Theorem save_then_load outcome now c d r d' : Save marshalCredential outcome now c d = (r, d') ->
  (r = Ok tt -> Load unmarshalCredential true (oc_ID c) d' = Ok (stamped now c)) /\
  (r <> Ok tt -> d' = d \/ exists format, outcome = SaveUnsynced format) /\
  (forall id, id <> oc_ID c -> d' !! id = d !! id).
Proof.
  unfold Save. destruct (validateCredential c) as [[]|e] eqn:Ev; intros H; [|injection H as <- <-; naive_solver].
  assert (validateCredential (stamped now c) = Ok tt) as Ev' by done.
  assert (validateCredentialID (oc_ID c) = Ok tt) as Eid.
  { unfold validateCredential in Ev. by destruct (validateCredentialID (oc_ID c)) as [[]|]. }
  unfold writeLocked in H. destruct (marshalCredential _ _) as [data|] eqn:Em; [|injection H as <- <-; naive_solver].
  destruct outcome; injection H as <- <-; split_and!; try naive_solver; intros; cbn [stamped oc_ID]; try by rewrite lookup_insert_ne.
  unfold Load. rewrite Eid. unfold loadLocked. cbn [mbind result_bind]. rewrite lookup_insert_eq. cbn [cr_private cr_data negb].
  rewrite (Hcodec _ _ _ Em). cbn [stamped oc_ID]. rewrite String.eqb_refl, Ev'. done.
Qed.
End store.

#[local] Instance credential_eq : EqDecision oauthCredential.
Proof. solve_decision. Defined.
#[local] Instance credential_countable : Countable oauthCredential.
Proof.
  refine (inj_countable' (fun c => (oc_ID c, oc_Provider c, oc_AccessToken c, oc_RefreshToken c, oc_ExpiresAt c, oc_AccountLabel c,
      oc_Scope c, oc_CreatedAt c, oc_UpdatedAt c))
    (fun x => let '(a, b, c, d, e, f, g, h, i) := x in mkOAuthCredential a b c d e f g h i) _). by intros [].
Defined.
Definition ex_marshal (v : Z) (c : oauthCredential) : option string := Some (text_of (v, c)).
Definition ex_unmarshal_credential (s : string) : result string (Z * oauthCredential) :=
  match of_text s with Some x => Ok x | None => Err "bad" end.
Lemma ex_codec v c s : ex_marshal v c = Some s -> ex_unmarshal_credential s = Ok (v, c).
Proof. intros [= <-]. unfold ex_unmarshal_credential. by rewrite of_text_of. Qed.
Definition ex_old : oauthCredential := mkOAuthCredential "me" ProviderCodex "A" "R" 100 "" "" 5 5.

Lemma save_then_load_witness :
  Load ex_unmarshal_credential true "me" (Save ex_marshal SaveDone 7 ex_old ∅).2 = Ok (stamped 7 ex_old).
Proof.
  destruct (save_then_load ex_marshal ex_unmarshal_credential ex_codec SaveDone 7 ex_old ∅ (Ok tt)
    (Save ex_marshal SaveDone 7 ex_old ∅).2) as [H _]; [|exact (H eq_refl)].
  unfold Save. replace (validateCredential ex_old) with (Ok (E := oauthError) tt) by (vm_compute; reflexivity). reflexivity.
Defined.

(** ** Renewals *)

(** A renewal stores a credential only when it sent the refresh token that it had loaded and
    got a token back; everything the answer does not renew stays. *)
Lemma refresh_saves credential tr out c r : oruns (refreshCredential credential) tr out -> OESave c r ∈ tr ->
  exists current payload token now, OELoad (oc_ID credential) (Ok current) ∈ tr /\
    OESend (oauthRefreshEndpoint (oc_Provider current)).1 [("grant_type", "refresh_token");
      ("refresh_token", oc_RefreshToken current); ("client_id", (oauthRefreshEndpoint (oc_Provider current)).2)] (Answer 200 payload) ∈ tr /\
    dec_token (limit_bytes maxOAuthResponseBytes payload) = Some token /\ c = renewed now token current.
Proof.
  intros H Hin. unfold refreshCredential in H. op_inv; [|in_trace]. rename a into current.
  destruct (oc_Provider current != oc_Provider credential); [op_inv; in_trace|]. op_inv.
  destruct (_ && _); [op_inv; in_trace|]. destruct (TrimSpace (oc_RefreshToken current) == ""); [op_inv; in_trace|].
  destruct (oauthRefreshEndpoint (oc_Provider current)) as [endpoint client] eqn:Ee. op_inv; [|in_trace].
  destruct a as [status payload]. destruct (E _ _ eq_refl) as (whole & -> & ->). cbn [fst snd] in H.
  destruct (negb (status =? 200)) eqn:E200; [op_inv; in_trace|]. apply negb_false_iff, Z.eqb_eq in E200 as ->.
  destruct (dec_token _) as [token|] eqn:Et; [|op_inv; in_trace]. destruct (_ || _); [op_inv; in_trace|].
  op_inv; exists current, whole, token; rewrite ?app_nil_r in Hin; cbn [app] in *; rewrite ?elem_of_cons, ?elem_of_nil in Hin;
    (destruct Hin as [Hin|[Hin|[Hin|[Hin|[Hin|Hin]]]]]; try done; try by destruct Hin);
    injection Hin as -> ->; eexists; (split; [by left|]; split; [rewrite Ee; by do 2 right; left|]; split; [exact Et|reflexivity]).
Qed.

(** Stores no more of a credential than its access token *)
Definition token_marshal (v : Z) (c : oauthCredential) : option string := Some (oc_AccessToken c).
Definition token_unmarshal (s : string) : result string (Z * oauthCredential) :=
  Ok (1, mkOAuthCredential "me" ProviderCodex s "R" 100 "" "" 5 5).

(** While a renewal waits for the network, a credential can be deleted: the renewal stores
    it again. *)
Definition deleting_answer (B : Type) (c : oauthCall B) (d : credDir) : credDir * B :=
  match c in oauthCall B return credDir * B with
  | ONow => (d, 200)
  | ORandom _ => (d, Ok "R")
  | OSend _ _ => ((Delete_credential true "me" d).2, Answer 200 (js "{'access_token':'A2','expires_in':60}"))
  | OAddFlow _ => (d, tt)
  | OGetFlow _ | OTakeFlow _ => (d, None)
  | OClaimFlow _ _ => (d, false)
  | OSave c => let '(r, d) := Save token_marshal SaveDone 300 c d in (d, r)
  | OLoad id => (d, Load token_unmarshal true id d)
  | OList => (d, List_credentials token_unmarshal true d)
  | ODelete id => let '(r, d) := Delete_credential true id d in (d, r)
  end.
Example delete_undone :
  let '(d, _, out) := exec oauth_observe deleting_answer (RefreshCredential "me" ProviderCodex)
    (Save token_marshal SaveDone 7 ex_old ∅).2 in
  d !! "me" <> None /\ (oc_AccessToken <$> (match out with Ok c => Some c | Err _ => None end)) = Some "A2".
Proof. vm_compute. split; [discriminate|reflexivity]. Qed.

(** ** The Codex provider *)

Inductive codexEvent :=
| CxCredential (r : result goerror string)
| CxInvalidate
| CxChat (token : string) (req : Request) (r : result goerror RuntimeModel.Response).
Definition codex_observe (B : Type) (c : codexCall B) : B -> codexEvent :=
  match c in codexCall B return B -> codexEvent with
  | CodexCredential => CxCredential
  | CodexInvalidate => fun _ => CxInvalidate
  | CodexChat token req => CxChat token req
  end.
(** A request is sent at most twice, the second time after an answer that the credential is
    not accepted, with the credential asked for again. *)
Lemma codex_sends req tr r : runs codex_observe (codex_ChatCompletion req) tr r ->
  (exists e, tr = [CxCredential (Err e)] /\ r = Err e) \/
  (exists token, tr = [CxCredential (Ok token); CxChat token req r] /\ NormalizeError (errored r) <> ErrorKindAuthFailed) \/
  (exists token first rest, tr = [CxCredential (Ok token); CxChat token req first; CxInvalidate] ++ rest /\
     NormalizeError (errored first) = ErrorKindAuthFailed /\
     ((exists e, rest = [CxCredential (Err e)] /\ r = Err e) \/
      exists token', rest = [CxCredential (Ok token'); CxChat token' req r])).
Proof.
  intros H. unfold codex_ChatCompletion in H. run_inv. destruct x as [token|e]; [|run_inv; left; by exists e].
  run_inv. case_bool_decide as Ek; [|run_inv; right; left; by exists token].
  run_inv. right. right. exists token, x. destruct x1 as [token'|e]; run_inv; eexists; (split; [reflexivity|]); (split; [done|]);
    [right; by exists token'|left; by exists e].
Qed.
