(* ===== verification/AdminHandlers.v ===== *)
(** * The administrator's endpoints

    Models the HTTP side of the administration: the handlers of
    [internal/gateway/admin_ui.go], [admin_config_resources.go], [admin_oauth.go], the
    metrics handlers, the configuration handlers of [handler.go], and the tables of paths in
    [Register] and [handleRequest].

    A handler is a program ([Program]) over what it calls: the runtime it loads (once to
    authorise, again to answer; it can be replaced in between), the clock, the stores, the
    reload manager, the OAuth manager, the log, the network.  What the JSON decoder makes of
    a body is a parameter for each type of request: the value and whether something follows
    it, or the text of the error.  An answer is a value of [adminReply] with its status; how
    it is written as JSON is left out, as are the audit lines of the log. *)

From S2P Require Import Prelude GoStrings GoTime GoTimeFacts GoStrconv ProviderErrors RuntimeModel ConfigTypes ConfigValidate ConfigResources AdminConfig QuotaWindow QuotaTracker QuotaEvents Accounting Latency Health Router Dispatcher Sessions AppRuntime Reload LogBuffer LogArchives LogLines LogView Program OAuth GatewayCodecs Gateway GatewaySessions GatewayStats AdminMetrics.

(** [url.Values] *)
Abbreviation urlValues := (gmap string (list string)).

(** ** Answers *)

Definition StatusServiceUnavailable := 503.
Definition StatusPreconditionRequired := 428.

Record adminOverview := mkAdminOverview {
  ao_Usage : Z * Z * Z * Z;
  ao_Latency : Z * Z * Z * Z;
  ao_QuotaOutbound : Z;
  ao_QuotaClient : Z;
  ao_QuotaLimited : Z;
  ao_QuotaCooldown : Z;
  ao_Providers : Z;
  ao_Degraded : Z;
  ao_Probing : Z;
  ao_Enabled : bool;
  ao_ConfigPathSet : bool;
  ao_Logs : AdminLogsConfig;
  ao_AccountingEnabled : bool;
  ao_Events : list QuotaEvents.Event
}.
Record routeDryRunStep := mkRouteDryRunStep {
  rd_Index : Z; rd_OutboundName : string; rd_OutboundProtocol : string; rd_Model : string; rd_OnError : FallbackCondition
}.
Record routeDryRunResponse := mkRouteDryRunResponse {
  rd_Inbound : string;
  rd_InboundProtocol : string;
  rd_Client : string;
  rd_ActiveTag : string;
  rd_RequestedModel : string;
  rd_MatchedRule : string;
  rd_Strategy : RoutingStrategy;
  rd_ResolvedToTags : list string;
  rd_Steps : list routeDryRunStep
}.
Record configOptions := mkConfigOptions {
  co_Path : string;
  co_Inbounds : list (string * string * string * list (string * string));
  co_Outbounds : list (string * string * string);
  co_ClientTags : list string;
  co_OutboundTags : list string;
  co_InboundProtocols : list string;
  co_OutboundProtocols : list string;
  co_Strategies : list string
}.

(** One constructor for each form of answer *)
Inductive adminReply :=
| AError (status : Z) (message : string)
| AInvalid (error : string)
| AMutationFailed (result : ReloadResult) (e : reloadError)
| AOrderConflict (revision : string)
| ARevisionConflict (revision : string)
| AIfMatchRequired
| AReload (result : ReloadResult)
| AUpdated (revision : string)
| AHistoryItems (items : list HistoryItem)
| ADiffOf (id current history : string)
| AValid
| AConfigView (ready : bool) (content revision : string)
| ASession (enabled : bool) (path : string)
| AOptions (o : configOptions)
| AProviders (items : list OutboundSpec)
| AClients (items : list clientResourceResponse)
| ARoutes (items : list RoutingRule) (revision : string)
| AUsage (items : list StatsItem)
| AOverviewOf (o : adminOverview)
| AQuota (outbound client : list SnapshotItem)
| ATraces (items : list Trace)
| AActive (items : list activeLatencyItem)
| ASummary (s : Summary)
| ADryRun (r : routeDryRunResponse)
| AProviderState (health : list HealthSnapshotItem) (outbound client : list SnapshotItem) (events : list QuotaEvents.Event) (s : Summary)
| ALogTail (path : string) (maxBytes lines : Z) (truncated : bool) (content : string)
| ALogPage (path : string) (maxBytes : Z) (content : string) (page : adminLogPage)
| AClientMetrics (items : list clientMetricsResponse) (days : Z) (start stop : string)
| AClientUsage (u : clientUsageResponse)
| AProviderMetrics (items : list providerMetricsResponse) (hours minutes : Z)
| ACheck (r : providerCheckResponse)
| ASessions (r : reply)
| ACredentials (items : list oauthMetadata)
| AFlow (f : oauthFlow)
| ACredential (m : oauthMetadata)
| APending
| ACompleted (m : oauthMetadata)
| ADone
| AHealthy
| AStatic
| AForClients.
Definition admin_status (a : adminReply) : Z :=
  match a with
  | AError status _ => status
  | AInvalid _ | AMutationFailed _ _ => StatusBadRequest
  | AOrderConflict _ | ARevisionConflict _ => StatusConflict
  | AIfMatchRequired => StatusPreconditionRequired
  | ASessions r => rp_Status r
  | _ => StatusOK
  end.

(** ** Calls *)

Inductive adminCall : Type -> Type :=
| ALoad : adminCall RuntimeState
| ANow : adminCall Time
| AStores : adminCall Dispatcher.World
| ASessionStore : adminCall Sessions.Store
| APlan (r : Router) (rc : RouteContext) : adminCall (result goerror ExecutionPlan)
| ASend (o : OutboundSpec) (req : Request) : adminCall (option string)
| AReadConfig (path : string) : adminCall (result string string)
| AApply : adminCall (result reloadError ReloadResult)
| AMutate (reason : string) (mutate : Config -> result mutationError Config) : adminCall (result reloadError ReloadResult)
| AUpdate (ifMatch data : string) : adminCall (result reloadError string)
| AHistory : adminCall (list HistoryItem)
| ADiff (id : string) : adminCall (result reloadError (string * string * string))
| ARollback (id : string) : adminCall (result reloadError ReloadResult)
| ARecent (since until : Time) : adminCall (RecentSnapshot * bool)
| ALogFiles : adminCall logFiles
| AOAuthList : adminCall (result oauthError (list oauthMetadata))
| AOAuthStart (claude : bool) (credentialID : string) : adminCall (result oauthError oauthFlow)
| AOAuthComplete (flowID callback : string) : adminCall (result oauthError oauthMetadata)
| AOAuthPoll (flowID : string) : adminCall (result oauthError oauthMetadata)
| AOAuthDelete (credentialID : string) : adminCall (result oauthError unit).
(** What a trace keeps of a call: the runtime it loaded, or that something else was called *)
Inductive adminEvent := EALoad (s : RuntimeState) | EACall (B : Type) (c : adminCall B) (b : B).
Definition admin_observe (B : Type) (c : adminCall B) : B -> adminEvent :=
  match c in adminCall B return B -> adminEvent with
  | ALoad => EALoad
  | c => EACall _ c
  end.
Abbreviation admin := (prog adminCall adminReply).

(** ** Endpoints *)

Inductive adminEndpoint :=
| EHealthz | EUsageStats | EQuotaStats | EClientQuotaStats | EGovernanceStats | ELatencySummaryStats | ELatencyStats
| ESessionRegister | ESessionHeartbeat | ESessionHookEvent | ESessionStopped
| EUsage | EQuota | ELogs | EOverview | ELatencySummary | EActiveLatency | ELatency | ESession | ESessions
| EOAuthCredentials | EClaudeStart | EClaudeComplete | ECodexStart | ECodexPoll | ECredentialDelete
| EConfig | EOptions | EProviders | EProviderMetrics | EProviderCheck | EProviderUpsert | EProviderEnabled | EProviderDelete
| EClients | EClientMetrics | EClientUsage | EClientUpsert | EClientDelete | EBindingUpsert | EBindingDelete
| ERoutes | ERoutesReorder | ERouteUpsert | ERouteDelete
| EValidate | EUpdate | EApply | EHistory | EHistoryDiff | ERollback | ETraces | EDryRun | EProviderDebug
| EUI | EGateway.

(** [Register]: the paths of the mux *)
Definition registered : list (string * adminEndpoint) :=
  [("/healthz", EHealthz); ("/stats/usage", EUsageStats); ("/stats/quota", EQuotaStats); ("/stats/client-quota", EClientQuotaStats);
   ("/stats/governance", EGovernanceStats); ("/stats/latency/summary", ELatencySummaryStats); ("/stats/latency", ELatencyStats);
   ("/session/register", ESessionRegister); ("/session/heartbeat", ESessionHeartbeat); ("/session/hook-event", ESessionHookEvent);
   ("/session/stopped", ESessionStopped); ("/admin/usage", EUsage); ("/admin/quota", EQuota); ("/admin/logs", ELogs);
   ("/admin/overview", EOverview); ("/admin/latency/summary", ELatencySummary); ("/admin/latency/active", EActiveLatency);
   ("/admin/latency", ELatency); ("/admin/session", ESession); ("/admin/sessions", ESessions);
   ("/admin/oauth/credentials", EOAuthCredentials); ("/admin/oauth/claude/start", EClaudeStart);
   ("/admin/oauth/claude/complete", EClaudeComplete); ("/admin/oauth/codex/start", ECodexStart); ("/admin/oauth/codex/poll", ECodexPoll);
   ("/admin/oauth/credentials/delete", ECredentialDelete); ("/admin/config", EConfig); ("/admin/config/options", EOptions);
   ("/admin/config/providers", EProviders); ("/admin/config/providers/metrics", EProviderMetrics);
   ("/admin/config/provider/check", EProviderCheck); ("/admin/config/provider/upsert", EProviderUpsert);
   ("/admin/config/provider/enabled", EProviderEnabled); ("/admin/config/provider/delete", EProviderDelete);
   ("/admin/config/clients", EClients); ("/admin/config/clients/metrics", EClientMetrics); ("/admin/config/client/usage", EClientUsage);
   ("/admin/config/client/upsert", EClientUpsert); ("/admin/config/client/delete", EClientDelete);
   ("/admin/config/client-binding/upsert", EBindingUpsert); ("/admin/config/client-binding/delete", EBindingDelete);
   ("/admin/config/routes", ERoutes); ("/admin/config/routes/reorder", ERoutesReorder); ("/admin/config/route/upsert", ERouteUpsert);
   ("/admin/config/route/delete", ERouteDelete); ("/admin/config/validate", EValidate); ("/admin/config/update", EUpdate);
   ("/admin/config/apply", EApply); ("/admin/config/history", EHistory); ("/admin/config/history/diff", EHistoryDiff);
   ("/admin/config/rollback", ERollback); ("/admin/debug/traces", ETraces); ("/admin/debug/route-dry-run", EDryRun);
   ("/admin/debug/providers", EProviderDebug)].
(** The pattern ["/admin/"] stands for every other path with that prefix, ["/"] for the rest. *)
Definition mux (path : string) : adminEndpoint :=
  match find_named fst path registered with
  | Some (_, e) => e
  | None => if HasPrefix path "/admin/" then EUI else EGateway
  end.
(** The tests of the path in [handleRequest], for a handler that is used without the mux *)
Definition direct : list (string * adminEndpoint) :=
  [("/healthz", EHealthz); ("/stats/usage", EUsageStats); ("/stats/quota", EQuotaStats); ("/stats/client-quota", EClientQuotaStats);
   ("/stats/governance", EGovernanceStats); ("/stats/latency", ELatencyStats); ("/admin/session", ESession);
   ("/admin/config/options", EOptions); ("/admin/config/providers", EProviders); ("/admin/config/providers/metrics", EProviderMetrics);
   ("/admin/config/provider/check", EProviderCheck); ("/admin/config/provider/upsert", EProviderUpsert);
   ("/admin/config/provider/enabled", EProviderEnabled); ("/admin/config/provider/delete", EProviderDelete);
   ("/admin/config/clients", EClients); ("/admin/config/clients/metrics", EClientMetrics); ("/admin/config/client/usage", EClientUsage);
   ("/admin/config/client/upsert", EClientUpsert); ("/admin/config/client/delete", EClientDelete);
   ("/admin/config/client-binding/upsert", EBindingUpsert); ("/admin/config/client-binding/delete", EBindingDelete);
   ("/admin/config/routes", ERoutes); ("/admin/config/routes/reorder", ERoutesReorder); ("/admin/config/route/upsert", ERouteUpsert);
   ("/admin/config/route/delete", ERouteDelete); ("/admin/config/validate", EValidate); ("/admin/config/update", EUpdate);
   ("/admin/config/apply", EApply); ("/admin/config/history", EHistory); ("/admin/config/history/diff", EHistoryDiff);
   ("/admin/config/rollback", ERollback); ("/admin/debug/traces", ETraces); ("/admin/debug/route-dry-run", EDryRun);
   ("/admin/debug/providers", EProviderDebug)].
Definition direct_route (path : string) : adminEndpoint :=
  match find_named fst path direct with Some (_, e) => e | None => EGateway end.

(** ** What the handlers share *)

Section handlers.
(** Decoders of bodies, with whether more follows the value; [None] is a body that cannot be
    read.  [decode_lenient] is that of the two handlers that take an empty body. *)
Context (dec_provider : option string -> result string (OutboundSpec * bool))
  (dec_name : option string -> result string (string * bool))
  (dec_enabled : option string -> result string (string * bool * bool))
  (dec_client : option string -> result string (clientResourceRequest * bool))
  (dec_binding : option string -> result string (string * string * string * bool))
  (dec_binding_ref : option string -> result string (string * string * bool))
  (dec_route : option string -> result string (RoutingRule * bool))
  (dec_reorder : option string -> result string (reorderRoutesRequest * bool))
  (dec_check : option string -> result string (providerCheckRequest * bool))
  (dec_credential : option string -> result string (string * bool))
  (dec_callback : option string -> result string (string * string * bool))
  (dec_flow : option string -> result string (string * bool))
  (dec_dry_run : option string -> result string (string * string * string * bool))
  (dec_rollback : option string -> result string string).
Context (parse_config : string -> result string Config) (redact_config : string -> result string string)
  (config_revision : string -> string) (route_revision : list RoutingRule -> string)
  (reload_text : reloadError -> string) (query_text : queryError -> string) (app_text : appError -> string)
  (plan_text : goerror -> string) (oauth_text : oauthError -> string) (time_json : Time -> string).
Context (ParseURL : string -> option (string * string)) (toLower toUpper : string -> string) (local : Location)
  (gunzip : string -> result string string) (os_error checksumHex : string -> string)
  (encodeCursor : adminLogCursor -> string) (unmarshalCursor : string -> option adminLogCursor).
(** Whether a reload manager, an OAuth manager and a buffer of recent lines are configured *)
Context (reloader oauth recent : bool).

Definition answer (a : adminReply) : admin := mret a.
Definition refuse (status : Z) (message : string) : admin := answer (AError status message).
(** What every handler does first *)
Definition guarded (method : string) (r : httpRequest) (k : admin) : admin :=
  if hr_Method r != method then refuse StatusMethodNotAllowed "method not allowed" else
  s ← perform ALoad;
  if authorizeAdmin s r then k else refuse StatusUnauthorized "invalid admin token".

Definition decodeJSONResourceRequest {A} (dec : option string -> result string (A * bool)) (r : httpRequest) (k : A -> admin) : admin :=
  match dec (hr_Body r) with
  | Err e => refuse StatusBadRequest ("decode request: " +:+ e)
  | Ok (req, more) => if more : bool then refuse StatusBadRequest "decode request: multiple JSON values" else k req
  end.
Definition readAdminConfigForResource (k : Config -> admin) : admin :=
  s ← perform ALoad;
  if rs_ConfigPath s == "" then refuse StatusServiceUnavailable "config path is not configured" else
  content ← perform (AReadConfig (rs_ConfigPath s));
  match content with
  | Err e => refuse StatusInternalServerError ("read config: " +:+ e)
  | Ok content => match parse_config content with Ok cfg => k cfg | Err e => answer (AInvalid e) end
  end.
(** The result that comes with an error: only a pending restart has one. *)
Definition failed_result (e : reloadError) : ReloadResult :=
  match e with RestartPending reason => mkReloadResult false false false true reason "" false | _ => zero_result end.
Definition with_reloader (k : admin) : admin :=
  if reloader then k else refuse StatusServiceUnavailable "config reload is not configured".
Definition writeAdminConfigMutation (reason : string) (mutate : Config -> result mutationError Config) : admin :=
  with_reloader (
    result ← perform (AMutate reason mutate);
    answer match result with Ok result => AReload result | Err e => AMutationFailed (failed_result e) e end).

(** ** Resources of the configuration *)

Definition handleAdminSession (r : httpRequest) : admin :=
  guarded MethodGet r (s ← perform ALoad; answer (ASession (adm_Enabled (rs_Admin s)) (rs_ConfigPath s))).
Definition config_options (path : string) (redacted : Config) : configOptions :=
  mkConfigOptions path
    (map (fun i => (in_Name i, in_Protocol i, in_Path i, map (fun b => (cb_Ref b, cb_Tag b)) (in_Clients i))) (cfg_Inbounds redacted))
    (map (fun o => (ob_Name o, ob_Protocol o, ob_Tag o)) (cfg_Outbounds redacted))
    (client_tags redacted) (outbound_tags redacted)
    ["openai_chat"; "openai_responses"; "anthropic_messages"] ["mock"; "openai_chat"; "openai_responses"; "anthropic_messages"]
    ["failover"; "round_robin"; "weighted_round_robin"].
Definition handleConfigOptions (r : httpRequest) : admin :=
  guarded MethodGet r (readAdminConfigForResource (fun cfg =>
    s ← perform ALoad; answer (AOptions (config_options (rs_ConfigPath s) (RedactedConfig cfg))))).
Definition handleConfigProviders (r : httpRequest) : admin :=
  guarded MethodGet r (readAdminConfigForResource (fun cfg => answer (AProviders (provider_items cfg)))).
Definition handleConfigProviderUpsert (r : httpRequest) : admin :=
  guarded MethodPost r (decodeJSONResourceRequest dec_provider r (fun req =>
    writeAdminConfigMutation ("provider_upsert_" +:+ ob_Name req) (provider_upsert req))).
Definition handleConfigProviderDelete (r : httpRequest) : admin :=
  guarded MethodPost r (decodeJSONResourceRequest dec_name r (fun name =>
    writeAdminConfigMutation ("provider_delete_" +:+ name) (provider_delete name))).
Definition handleConfigProviderEnabled (r : httpRequest) : admin :=
  guarded MethodPost r (decodeJSONResourceRequest dec_enabled r (fun '(name, enabled) =>
    writeAdminConfigMutation ("provider_enabled_" +:+ name +:+ "_" +:+ (if enabled : bool then "true" else "false"))
      (provider_enabled name enabled))).
Definition handleConfigClients (r : httpRequest) : admin :=
  guarded MethodGet r (readAdminConfigForResource (fun cfg => answer (AClients (client_items cfg)))).
Definition handleConfigClientUpsert (r : httpRequest) : admin :=
  guarded MethodPost r (decodeJSONResourceRequest dec_client r (fun req =>
    writeAdminConfigMutation ("client_upsert_" +:+ cr_Name req) (client_upsert req))).
Definition handleConfigClientDelete (r : httpRequest) : admin :=
  guarded MethodPost r (decodeJSONResourceRequest dec_name r (fun name =>
    writeAdminConfigMutation ("client_delete_" +:+ name) (client_delete name))).
Definition handleConfigClientBindingUpsert (r : httpRequest) : admin :=
  guarded MethodPost r (decodeJSONResourceRequest dec_binding r (fun '(inbound, ref, tag) =>
    writeAdminConfigMutation ("client_binding_upsert_" +:+ inbound +:+ "_" +:+ ref) (client_binding_upsert inbound ref tag))).
Definition handleConfigClientBindingDelete (r : httpRequest) : admin :=
  guarded MethodPost r (decodeJSONResourceRequest dec_binding_ref r (fun '(inbound, ref) =>
    writeAdminConfigMutation ("client_binding_delete_" +:+ inbound +:+ "_" +:+ ref) (client_binding_delete inbound ref))).
Definition handleConfigRoutes (r : httpRequest) : admin :=
  guarded MethodGet r (readAdminConfigForResource (fun cfg => answer (ARoutes (rules_of cfg) (route_revision (rules_of cfg))))).
Definition handleConfigRouteUpsert (r : httpRequest) : admin :=
  guarded MethodPost r (decodeJSONResourceRequest dec_route r (fun req =>
    writeAdminConfigMutation ("route_upsert_" +:+ rr_Name req) (route_upsert req))).
Definition handleConfigRoutesReorder (r : httpRequest) : admin :=
  guarded MethodPost r (decodeJSONResourceRequest dec_reorder r (fun req =>
    if (ro_FromIndex req <? 0) || (ro_ToIndex req <? 0) || (ro_FromIndex req =? ro_ToIndex req)
    then refuse StatusBadRequest "from_index and to_index must be distinct non-negative indexes"
    else if ro_ExpectedRevision req == "" then refuse StatusBadRequest "expected_revision is required"
    else with_reloader (
      result ← perform (AMutate "routes_reorder" (routes_reorder route_revision req));
      answer match result with
             | Ok result => AReload result
             | Err (ReloadMutationErr (RouteOrderConflict revision)) => AOrderConflict revision
             | Err e => AMutationFailed (failed_result e) e
             end))).
Definition handleConfigRouteDelete (r : httpRequest) : admin :=
  guarded MethodPost r (decodeJSONResourceRequest dec_name r (fun name =>
    writeAdminConfigMutation ("route_delete_" +:+ name) (route_delete name))).

(** ** The configuration as a whole *)

(** Also the accounting token may validate; the test loads the runtime again. *)
Definition handleConfigValidate (r : httpRequest) : admin :=
  if hr_Method r != MethodPost then refuse StatusMethodNotAllowed "method not allowed" else
  s ← perform ALoad;
  allowed ← (if authorizeAdmin s r then mret true else s ← perform ALoad; mret (authorizeAccounting s r));
  if negb allowed then refuse StatusUnauthorized "invalid admin token" else
  match hr_Body r with
  | None => refuse StatusBadRequest "read config: "
  | Some body => match parse_config body with Ok _ => answer AValid | Err e => answer (AInvalid e) end
  end.
Definition handleConfigUpdate (r : httpRequest) : admin :=
  guarded MethodPost r (with_reloader (
    let ifMatch := TrimSpace (hr_Header r "If-Match") in
    if ifMatch == "" then answer AIfMatchRequired else
    match hr_Body r with
    | None => refuse StatusBadRequest "read config: "
    | Some body =>
        result ← perform (AUpdate ifMatch body);
        answer match result with
               | Ok revision => AUpdated revision
               | Err (RevisionConflict revision) => ARevisionConflict revision
               | Err e => AInvalid (reload_text e)
               end
    end)).
Definition reload_answer (result : Prelude.result reloadError ReloadResult) : adminReply :=
  match result with Ok result => AReload result | Err e => AInvalid (reload_text e) end.
Definition handleConfigApply (r : httpRequest) : admin :=
  guarded MethodPost r (with_reloader (result ← perform AApply; answer (reload_answer result))).
Definition handleConfigHistory (r : httpRequest) : admin :=
  guarded MethodGet r (with_reloader (items ← perform AHistory; answer (AHistoryItems items))).
Definition handleConfigHistoryDiff (values : url_values) (r : httpRequest) : admin :=
  guarded MethodGet r (with_reloader (
    result ← perform (ADiff (TrimSpace (Get values "id")));
    answer match result with Ok (id, current, history) => ADiffOf id current history | Err e => AInvalid (reload_text e) end)).
Definition handleConfigRollback (r : httpRequest) : admin :=
  guarded MethodPost r (with_reloader (
    match dec_rollback (hr_Body r) with
    | Err e => refuse StatusBadRequest ("read rollback request: " +:+ e)
    | Ok id => result ← perform (ARollback (TrimSpace id)); answer (reload_answer result)
    end)).
Definition handleAdminConfig (r : httpRequest) : admin :=
  guarded MethodGet r (
    s ← perform ALoad;
    if rs_ConfigPath s == "" then answer (AConfigView false "" "") else
    content ← perform (AReadConfig (rs_ConfigPath s));
    match content with
    | Err e => refuse StatusInternalServerError ("read config: " +:+ e)
    | Ok content =>
        match redact_config content with
        | Err e => refuse StatusInternalServerError ("redact config: " +:+ e)
        | Ok redacted => answer (AConfigView true redacted (config_revision content))
        end
    end).

(** ** Views of the stores *)

Definition client_snapshot (s : RuntimeState) (w : Dispatcher.World) (now : Time) : list SnapshotItem :=
  (ClientSnapshot (w_clients w) now).1.
Definition events_of (s : RuntimeState) (w : Dispatcher.World) : list QuotaEvents.Event :=
  match rs_EventRecorder s with Some _ => QueryQuotaEvents w | None => [] end.

Definition handleAdminUsage (values : url_values) (r : httpRequest) : admin :=
  guarded MethodGet r (
    now ← perform ANow;
    match parseUsageQuery values now with
    | Err e => refuse StatusBadRequest (usage_error_text e)
    | Ok query =>
        _ ← perform ALoad; w ← perform AStores;
        match QueryUsageBy w query with
        | Err e => refuse StatusBadRequest (query_text e)
        | Ok items => answer (AUsage items)
        end
    end).

Definition countQuotaState (items : list SnapshotItem) (state : string) : Z :=
  Z.of_nat (length (filter (fun i => si_State i = state) items)).
Definition sum_of (f : StatsItem -> Z) (items : list StatsItem) : Z := foldl (fun n i => i64 (n + f i)) 0 items.
Definition adminOverview_of (s : RuntimeState) (w : Dispatcher.World) (now : Time) : adminOverview :=
  let usage := match QueryUsageBy w (mkQuery "key" WindowTotal "" "" "" "") with Ok items => items | Err _ => [] end in
  let latency := QueryLatencySummary w in
  let outbound := (QueryQuota w).1 in
  let client := client_snapshot s w now in
  let health := QueryProviderHealth w in
  mkAdminOverview
    (sum_of s_RequestCount usage, sum_of s_SuccessCount usage, sum_of s_ErrorCount usage, sum_of s_FallbackCount usage)
    (summary_Count latency, sum_P95Ms (summary_Total latency), sum_P99Ms (summary_Total latency), sum_MaxMs (summary_Total latency))
    (Z.of_nat (length outbound)) (Z.of_nat (length client))
    (countQuotaState outbound StateLimited + countQuotaState client StateLimited)
    (countQuotaState outbound StateCooldown + countQuotaState client StateCooldown)
    (Z.of_nat (length health))
    (Z.of_nat (length (filter (fun i => hsi_State i = HealthDegraded) health)))
    (Z.of_nat (length (filter (fun i => hsi_State i = HealthProbing) health)))
    (adm_Enabled (rs_Admin s)) (rs_ConfigPath s != "") (adm_Logs (rs_Admin s))
    (acc_Enabled (rs_Accounting s) && acc_ExposeHTTP (rs_Accounting s)) (events_of s w).
Definition handleAdminOverview (r : httpRequest) : admin :=
  guarded MethodGet r (s ← perform ALoad; now ← perform ANow; w ← perform AStores; answer (AOverviewOf (adminOverview_of s w now))).
Definition handleAdminQuota (r : httpRequest) : admin :=
  guarded MethodGet r (
    s ← perform ALoad; now ← perform ANow; w ← perform AStores; answer (AQuota (QueryQuota w).1 (client_snapshot s w now))).
Definition handleAdminLatency (r : httpRequest) : admin :=
  guarded MethodGet r (_ ← perform ALoad; w ← perform AStores; answer (ATraces (QueryLatency w))).
Definition handleAdminLatencySummary (r : httpRequest) : admin :=
  guarded MethodGet r (_ ← perform ALoad; w ← perform AStores; answer (ASummary (QueryLatencySummary w))).
Definition handleActiveLatency (r : httpRequest) : admin :=
  guarded MethodGet r (
    now ← perform ANow; _ ← perform ALoad; w ← perform AStores; answer (AActive (handleAdminActiveLatency now (QueryActiveLatency w)))).
Definition handleDebugTraces (r : httpRequest) : admin := handleAdminLatency r.
Definition handleProviderDebug (r : httpRequest) : admin :=
  guarded MethodGet r (
    s ← perform ALoad; now ← perform ANow; w ← perform AStores;
    answer (AProviderState (QueryProviderHealth w) (QueryQuota w).1 (client_snapshot s w now) (events_of s w) (QueryLatencySummary w))).
Definition handleSessions (values : url_values) (r : httpRequest) : admin :=
  if hr_Method r != MethodGet then refuse StatusMethodNotAllowed "method not allowed" else
  s ← perform ALoad;
  if negb (authorizeAdmin s r) then refuse StatusUnauthorized "invalid admin token" else
  st ← perform ASessionStore; answer (ASessions (handleAdminSessions time_json s r (Get values) st)).

Definition findDryRunClient (clients : list ClientSpec) (inbounds : list InboundSpec) (inboundName clientName : string)
    : option (InboundSpec * ClientSpec * ClientBindingSpec) :=
  inbound ← find_named in_Name inboundName inbounds;
  binding ← find_named cb_Ref clientName (in_Clients inbound);
  client ← FindClient (clients_config clients inbounds) (cb_Ref binding);
  Some (inbound, client, binding).
Definition dryRunResponse (plan : ExecutionPlan) : routeDryRunResponse :=
  mkRouteDryRunResponse (plan_InboundName plan) (plan_InboundProtocol plan) (plan_ClientName plan) (plan_ActiveTag plan)
    (plan_RequestedModel plan) (plan_MatchedRule plan) (plan_Strategy plan) (plan_ResolvedToTags plan)
    (imap (fun i step => mkRouteDryRunStep (Z.of_nat i) (st_OutboundName step) (st_OutboundProtocol step) (st_Model step)
             (st_OnError step)) (plan_Steps plan)).
Definition dry_run_context (model : string) (inbound : InboundSpec) (client : ClientSpec) (binding : ClientBindingSpec) : RouteContext :=
  mkRouteContext (mkRequest model "" 0 [] [] "" false "" "" "" "" "") (cs_Name client) (in_Name inbound) (in_Protocol inbound)
    (cb_Tag binding).
(** [stream] of the request has no effect on the plan and is left out. *)
Definition handleRouteDryRun (r : httpRequest) : admin :=
  guarded MethodPost r (
    match dec_dry_run (hr_Body r) with
    | Err e => refuse StatusBadRequest ("read dry-run request: " +:+ e)
    | Ok (inboundName, clientName, model, _) =>
        let inboundName := TrimSpace inboundName in let clientName := TrimSpace clientName in let model := TrimSpace model in
        if (inboundName == "") || (clientName == "") || (model == "")
        then refuse StatusBadRequest "inbound, client, and model are required" else
        s ← perform ALoad;
        match findDryRunClient (rs_Clients s) (rs_Inbounds s) inboundName clientName with
        | None => refuse StatusNotFound "inbound or client not found"
        | Some (inbound, client, binding) =>
            plan ← perform (APlan (rs_Router s) (dry_run_context model inbound client binding));
            match plan with
            | Err e => refuse StatusBadRequest (plan_text e)
            | Ok plan => answer (ADryRun (dryRunResponse plan))
            end
        end
    end).

(** ** Metrics *)

Definition stats_admin {A} (data : A -> adminReply) (a : stats_answer A) : admin :=
  match a with Refused status message => refuse status message | Data a => answer (data a) end.
Definition with_config_view (k : RuntimeState -> Config -> admin) : admin :=
  s ← perform ALoad;
  match clientMetricsConfigView (Err tt) (rs_Clients s) (rs_Inbounds s) with
  | Ok cfg => k s cfg
  | Err _ => readAdminConfigForResource (k s)
  end.
Definition handleConfigClientMetrics (values : url_values) (r : httpRequest) : admin :=
  guarded MethodGet r (
    match parseClientMetricsDays values with
    | Err e => refuse StatusBadRequest e
    | Ok days =>
        with_config_view (fun s cfg =>
          now ← perform ANow; w ← perform AStores;
          stats_admin (fun '(items, days, start, stop) => AClientMetrics items days start stop) (client_metrics query_text w now cfg days))
    end).
Definition handleConfigClientUsage (values : url_values) (r : httpRequest) : admin :=
  guarded MethodGet r (
    let name := TrimSpace (Get values "name") in
    if name == "" then refuse StatusBadRequest "name is required" else
    with_config_view (fun s cfg =>
      now ← perform ANow; w ← perform AStores; stats_admin AClientUsage (client_usage query_text w now cfg name values))).
Definition handleConfigProviderMetrics (values : url_values) (r : httpRequest) : admin :=
  guarded MethodGet r (readAdminConfigForResource (fun cfg =>
    _ ← perform ALoad; now ← perform ANow; w ← perform AStores;
    stats_admin (fun '(items, hours, minutes) => AProviderMetrics items hours minutes) (provider_metrics query_text w now cfg values))).
(** The answer of the network, when a request is sent, comes before the check's second look
    at the clock. *)
Definition handleConfigProviderCheck (r : httpRequest) : admin :=
  guarded MethodPost r (decodeJSONResourceRequest dec_check r (fun req =>
    readAdminConfigForResource (fun cfg =>
      match checked_outbound cfg req with
      | None => refuse StatusNotFound "provider not found"
      | Some o =>
          let model := TrimSpace (pcr_Model req) in
          if (ob_Protocol o != "mock") && (model == "") then refuse StatusBadRequest "model is required for non-mock providers" else
          started ← perform ANow;
          sent ← perform (ASend o (ping (if (ob_Protocol o == "mock") && (model == "") then "syrogo-health-check" else model)));
          finished ← perform ANow;
          answer (ACheck (checkProviderLive ParseURL app_text (fun _ _ => sent) o model started finished))
      end))).

(** ** The log *)

Definition file_page_answer (path : string) (maxBytes : Z) (query : adminLogQuery) (page : result logError adminLogPage) : admin :=
  match page with
  | Ok page => answer (ALogPage path maxBytes (redactLogContent (lp_Content page)) page)
  | Err LogCursorStale => refuse StatusConflict (log_error_text LogCursorStale)
  | Err (LogError text) =>
      if (lq_Cursor query != "") || Contains text "cursor" then refuse StatusBadRequest text
      else refuse StatusInternalServerError ("read logs: " +:+ text)
  end.
Definition from_recent (query : adminLogQuery) : prog adminCall (option adminLogPage) :=
  if (lq_Cursor query == "") && recent then
    '(snapshot, covered) ← perform (ARecent (lq_Since query) (lq_Until query));
    mret (if covered : bool then adminLogPageFromRecent toLower toUpper snapshot query else None)
  else mret None.
(** A reading of the log that never ends does not happen ([LogViewFacts]); it would be an
    error here. *)
Definition handleAdminLogs (values : urlValues) (r : httpRequest) : admin :=
  guarded MethodGet r (
    s ← perform ALoad;
    let logs := adm_Logs (rs_Admin s) in
    if negb (al_Enabled logs) then refuse StatusNotFound "admin logs are not enabled" else
    let path := log_path logs in
    let maxBytes := boundedAdminLogBytes (al_MaxBytes logs) (firstQueryValue values "bytes") in
    if negb (hasAdminLogPageQuery values) then
      v ← perform ALogFiles;
      match lv_dir v !! Base path with
      | None => refuse StatusInternalServerError ("read logs: " +:+ os_error path)
      | Some f =>
          let '(content, truncated) := readTail (f_content f) maxBytes in
          let lines := parsePositiveInt (firstQueryValue values "lines") in
          let content := if 0 <? lines then tailLines content lines else content in
          answer (ALogTail path maxBytes lines truncated (redactLogContent content))
      end
    else
      now ← perform ANow;
      match parseAdminLogQuery toLower toUpper values maxBytes now with
      | Err e => refuse StatusBadRequest e
      | Ok query =>
          hit ← from_recent query;
          match hit with
          | Some page => answer (ALogPage path maxBytes (redactLogContent (lp_Content page)) page)
          | None =>
              v ← perform ALogFiles;
              match readAdminLogPage toLower toUpper local gunzip os_error checksumHex encodeCursor unmarshalCursor logs query v with
              | Some page => file_page_answer path maxBytes query page
              | None => refuse StatusInternalServerError ""
              end
          end
      end).

(** ** OAuth *)

Definition oauthManagerForRequest (k : admin) : admin :=
  if oauth then k else refuse StatusServiceUnavailable "OAuth is not configured".
Definition oauth_answer {A} (data : A -> adminReply) (a : result oauthError A) : admin :=
  match a with Ok a => answer (data a) | Err e => refuse StatusBadRequest (oauth_text e) end.
Definition handleOAuthCredentials (r : httpRequest) : admin :=
  guarded MethodGet r (oauthManagerForRequest (
    items ← perform AOAuthList;
    match items with
    | Ok items => answer (ACredentials items)
    | Err e => refuse StatusInternalServerError ("list OAuth credentials: " +:+ oauth_text e)
    end)).
Definition handleOAuthStart (claude : bool) (r : httpRequest) : admin :=
  guarded MethodPost r (decodeJSONResourceRequest dec_credential r (fun id =>
    oauthManagerForRequest (flow ← perform (AOAuthStart claude (TrimSpace id)); oauth_answer AFlow flow))).
Definition handleOAuthClaudeStart := handleOAuthStart true.
Definition handleOAuthCodexStart := handleOAuthStart false.
Definition handleOAuthClaudeComplete (r : httpRequest) : admin :=
  guarded MethodPost r (decodeJSONResourceRequest dec_callback r (fun '(flowID, callback) =>
    oauthManagerForRequest (m ← perform (AOAuthComplete (TrimSpace flowID) (TrimSpace callback)); oauth_answer ACredential m))).
Definition handleOAuthCodexPoll (r : httpRequest) : admin :=
  guarded MethodPost r (decodeJSONResourceRequest dec_flow r (fun flowID =>
    oauthManagerForRequest (
      m ← perform (AOAuthPoll (TrimSpace flowID));
      match m with Err CodexAuthorizationPending => answer APending | m => oauth_answer ACompleted m end))).
Definition credentialIsReferenced (cfg : Config) (credentialID : string) : bool :=
  if credentialID == "" then false else existsb (fun o => oa_CredentialRef (ob_Auth o) == credentialID) (cfg_Outbounds cfg).
Definition handleOAuthCredentialDelete (r : httpRequest) : admin :=
  guarded MethodPost r (decodeJSONResourceRequest dec_credential r (fun id =>
    oauthManagerForRequest (readAdminConfigForResource (fun cfg =>
      if credentialIsReferenced cfg (TrimSpace id) then refuse StatusConflict "OAuth credential is still referenced by an outbound"
      else a ← perform (AOAuthDelete (TrimSpace id)); oauth_answer (fun _ => ADone) a)))).

(** ** The endpoints *)

(** [values] is the first value of each query parameter, [all] all of them.  The endpoints
    that are not the administrator's are modelled elsewhere ([GatewayStats],
    [GatewaySessions], [Gateway]). *)
Definition serve_endpoint (e : adminEndpoint) (values : url_values) (all : urlValues) (r : httpRequest) : admin :=
  match e with
  | EUsage => handleAdminUsage values r
  | EQuota => handleAdminQuota r
  | ELogs => handleAdminLogs all r
  | EOverview => handleAdminOverview r
  | ELatencySummary => handleAdminLatencySummary r
  | EActiveLatency => handleActiveLatency r
  | ELatency => handleAdminLatency r
  | ESession => handleAdminSession r
  | ESessions => handleSessions values r
  | EOAuthCredentials => handleOAuthCredentials r
  | EClaudeStart => handleOAuthClaudeStart r
  | EClaudeComplete => handleOAuthClaudeComplete r
  | ECodexStart => handleOAuthCodexStart r
  | ECodexPoll => handleOAuthCodexPoll r
  | ECredentialDelete => handleOAuthCredentialDelete r
  | EConfig => handleAdminConfig r
  | EOptions => handleConfigOptions r
  | EProviders => handleConfigProviders r
  | EProviderMetrics => handleConfigProviderMetrics values r
  | EProviderCheck => handleConfigProviderCheck r
  | EProviderUpsert => handleConfigProviderUpsert r
  | EProviderEnabled => handleConfigProviderEnabled r
  | EProviderDelete => handleConfigProviderDelete r
  | EClients => handleConfigClients r
  | EClientMetrics => handleConfigClientMetrics values r
  | EClientUsage => handleConfigClientUsage values r
  | EClientUpsert => handleConfigClientUpsert r
  | EClientDelete => handleConfigClientDelete r
  | EBindingUpsert => handleConfigClientBindingUpsert r
  | EBindingDelete => handleConfigClientBindingDelete r
  | ERoutes => handleConfigRoutes r
  | ERoutesReorder => handleConfigRoutesReorder r
  | ERouteUpsert => handleConfigRouteUpsert r
  | ERouteDelete => handleConfigRouteDelete r
  | EValidate => handleConfigValidate r
  | EUpdate => handleConfigUpdate r
  | EApply => handleConfigApply r
  | EHistory => handleConfigHistory r
  | EHistoryDiff => handleConfigHistoryDiff values r
  | ERollback => handleConfigRollback r
  | ETraces => handleDebugTraces r
  | EDryRun => handleRouteDryRun r
  | EProviderDebug => handleProviderDebug r
  | EHealthz => answer AHealthy
  | EUI => s ← perform ALoad; if adm_Enabled (rs_Admin s) then answer AStatic else refuse StatusNotFound "404 page not found"
  | _ => answer AForClients
  end.
End handlers.
