(* ===== verification/AdminHandlersFacts.v ===== *)
(** * Who may administer, and what is shown

    Shows that without the administrator's token nothing under [/admin/] is called or
    answered, that the two tables of paths agree, and that no answer shows a token of the
    configuration. *)

From S2P Require Import Prelude GoStrings GoTime GoTimeFacts GoStrconv ProviderErrors RuntimeModel ConfigTypes ConfigValidate ConfigResources AdminConfig QuotaWindow QuotaTracker QuotaEvents Accounting Latency Health Router Dispatcher Sessions AppRuntime Reload LogBuffer LogArchives LogLines LogView Program OAuth GatewayCodecs Gateway GatewaySessions GatewayStats AdminMetrics AdminHandlers.

Abbreviation aruns := (runs admin_observe).

(** ** Paths *)

Definition is_admin (e : adminEndpoint) : bool :=
  match e with
  | EHealthz | EUsageStats | EQuotaStats | EClientQuotaStats | EGovernanceStats | ELatencySummaryStats | ELatencyStats
  | ESessionRegister | ESessionHeartbeat | ESessionHookEvent | ESessionStopped | EUI | EGateway => false
  | _ => true
  end.
Lemma registered_admin : forallb (fun pe => Bool.eqb (HasPrefix pe.1 "/admin/") (is_admin pe.2)) registered = true.
Proof. by vm_compute. Qed.
Lemma find_named_In {A} (name : A -> string) n l x : find_named name n l = Some x -> In x l /\ name x = n.
Proof. unfold find_named. intros H. apply find_some in H as [H E]. by breflect. Qed.
Lemma mux_admin path : HasPrefix path "/admin/" = true -> is_admin (mux path) = true \/ mux path = EUI.
Proof.
  intros Hp. unfold mux. destruct (find_named fst path registered) as [[p e]|] eqn:E; [|rewrite Hp; by right].
  apply find_named_In in E as [Hin Ep]. cbn in Ep. subst. pose proof registered_admin as H. rewrite forallb_forall in H.
  specialize (H _ Hin). cbn [fst snd] in H. rewrite Hp in H. left. by destruct (is_admin e).
Qed.

(** A path that [handleRequest] treats specially is treated alike by the mux. *)
Lemma tables_agree path : direct_route path = EGateway \/ direct_route path = mux path.
Proof.
  unfold direct_route. destruct (find_named fst path direct) as [[p e]|] eqn:E; [right|by left].
  apply find_named_In in E as [Hin Ep]. cbn in Ep. subst.
  assert (forall pe, In pe direct -> find_named fst pe.1 registered = Some pe) as H.
  { intros pe H. cbn in H. repeat (destruct H as [<-|H]; [reflexivity|]). destruct H. }
  specialize (H _ Hin). cbn [fst] in H. unfold mux. by rewrite H.
Qed.

(** ** Without the token *)

Section facts.
Context (dec_provider : option string -> result string (OutboundSpec * bool))
  (dec_name : option string -> result string (string * bool))
  (dec_enabled : option string -> result string (string * bool * bool))
  (dec_client : option string -> result string (clientResourceRequest * bool))
  (dec_binding : option string -> result string (string * string * string * bool))
  (dec_binding_ref : option string -> result string (string * string * bool))
  (dec_route : option string -> result string (RoutingRule * bool))
  (dec_reorder : option string -> result string (reorderRoutesRequest * bool))
  (dec_check : option string -> result string (providerCheckRequest * bool))
  (dec_credential : option string -> result string (string * bool))
  (dec_callback : option string -> result string (string * string * bool))
  (dec_flow : option string -> result string (string * bool))
  (dec_dry_run : option string -> result string (string * string * string * bool))
  (dec_rollback : option string -> result string string).
Context (parse_config : string -> result string Config) (redact_config : string -> result string string)
  (config_revision : string -> string) (route_revision : list RoutingRule -> string)
  (reload_text : reloadError -> string) (query_text : queryError -> string) (app_text : appError -> string)
  (plan_text : goerror -> string) (oauth_text : oauthError -> string) (time_json : Time -> string).
Context (ParseURL : string -> option (string * string)) (toLower toUpper : string -> string) (local : Location)
  (gunzip : string -> result string string) (os_error checksumHex : string -> string)
  (encodeCursor : adminLogCursor -> string) (unmarshalCursor : string -> option adminLogCursor).
Context (reloader oauth recent : bool).
Abbreviation serve e values all r := (serve_endpoint dec_provider dec_name dec_enabled dec_client dec_binding dec_binding_ref
  dec_route dec_reorder dec_check dec_credential dec_callback dec_flow dec_dry_run dec_rollback parse_config redact_config
  config_revision route_revision reload_text query_text app_text plan_text oauth_text time_json ParseURL toLower toUpper local
  gunzip os_error checksumHex encodeCursor unmarshalCursor reloader oauth recent e values all r).

Definition is_load (e : adminEvent) : Prop := match e with EALoad _ => True | EACall _ _ _ => False end.
(** Nothing was called but the runtime, and the answer is one of the two that tell nothing. *)
Definition denied (tr : list adminEvent) (a : adminReply) : Prop :=
  Forall is_load tr /\
  (a = AError StatusMethodNotAllowed "method not allowed" \/ a = AError StatusUnauthorized "invalid admin token").

Lemma guarded_denied method r k tr a : aruns (guarded method r k) tr a ->
  (forall s, EALoad s ∈ tr -> authorizeAdmin s r = false) -> denied tr a.
Proof.
  unfold guarded, refuse, answer. intros H Hs. destruct (hr_Method r != method); [run_inv; split; [constructor|by left]|].
  run_inv. cbn [admin_observe app] in Hs |- *. rewrite (Hs x) in H by by left. run_inv. split; [by repeat constructor|by right].
Qed.
Lemma validate_denied r tr a : aruns (handleConfigValidate parse_config r) tr a ->
  (forall s, EALoad s ∈ tr -> authorizeAdmin s r = false /\ authorizeAccounting s r = false) -> denied tr a.
Proof.
  unfold handleConfigValidate, refuse, answer. intros H Hs. destruct (hr_Method r != MethodPost); [run_inv; split; [constructor|by left]|].
  run_inv. cbn [admin_observe app] in Hs |- *. destruct (Hs x) as [E1 _]; [by left|]. rewrite E1 in H1. run_inv.
  cbn [admin_observe app] in Hs |- *. destruct (Hs x1) as [_ E2]; [by right; left|]. rewrite E2 in H. cbn [negb] in H. run_inv.
  split; [by repeat constructor|by right].
Qed.

(** C6: without the administrator's token, and without that of accounting where it is enough
    too, a request for anything under [/admin/] changes nothing and reads nothing: no
    manager, store, file or provider is called, and the answer is that the method or the token
    is wrong.  The page itself, which holds no data, is the exception. *)
Theorem admin_requires_token path values all r tr a : HasPrefix path "/admin/" = true ->
  aruns (serve (mux path) values all r) tr a ->
  (forall s, EALoad s ∈ tr -> authorizeAdmin s r = false /\ (mux path = EValidate -> authorizeAccounting s r = false)) ->
  denied tr a \/ mux path = EUI /\ Forall is_load tr /\ (a = AStatic \/ a = AError StatusNotFound "404 page not found").
Proof.
  intros Hp H Hs. destruct (mux_admin path Hp) as [He|He]; [left|right].
  - destruct (mux path); try discriminate He; cbn [serve_endpoint] in H;
      first [eapply guarded_denied; [exact H|by intros; apply Hs] | idtac].
    + (* the list of sessions *)
      unfold handleSessions, refuse, answer in H. destruct (hr_Method r != MethodGet); [run_inv; split; [constructor|by left]|].
      run_inv. cbn [admin_observe app] in Hs |- *. destruct (Hs x) as [E _]; [by left|]. rewrite E in H. cbn [negb] in H. run_inv.
      split; [by repeat constructor|by right].
    + eapply validate_denied; [exact H|]. intros s Hin. destruct (Hs s Hin) as [E1 E2]. split; [done|by apply E2].
  - rewrite He in H. cbn [serve_endpoint] in H. run_inv. unfold refuse, answer in H.
    destruct (adm_Enabled (rs_Admin x)); run_inv; (split; [done|]; split; [by repeat constructor|auto]).
Qed.

(** ** Tokens in answers *)

Definition hidden (token : string) : Prop := token = "" \/ token = RedactedValue.
(** The tokens that an answer shows *)
Definition shown_tokens (a : adminReply) : list string :=
  match a with
  | AProviders items => map ob_AuthToken items
  | AClients items => map crr_Token items
  | AClientMetrics items _ _ _ => map (fun i => crr_Token (cm_Client i)) items
  | AClientUsage u => [crr_Token (cu_Client u)]
  | AProviderMetrics items _ _ => map (fun i => ob_AuthToken (pm_Provider i)) items
  | _ => []
  end.
Definition safe (a : adminReply) : Prop := Forall hidden (shown_tokens a).

(** Every answer of a program has the property, whatever its calls answer. *)
Fixpoint returns {A} (P : A -> Prop) (p : prog adminCall A) : Prop :=
  match p with Ret a => P a | Do _ k => forall b, returns P (k b) end.
Lemma returns_bind {A B} (P : B -> Prop) (p : prog adminCall A) (f : A -> prog adminCall B) :
  (forall a, returns P (f a)) -> returns P (p ≫= f).
Proof. intros H. induction p as [a|X c k IH]; cbn; [apply H|intros b; apply IH]. Qed.
Lemma runs_returns {A} (P : A -> Prop) (p : prog adminCall A) tr a : returns P p -> aruns p tr a -> P a.
Proof.
  revert tr. induction p as [x|X c k IH]; intros tr H; cbn; [by intros [_ ->]|]. intros (b & tr' & _ & Hr). by eapply IH.
Qed.

Lemma redactValue_hidden s : hidden (redactValue s).
Proof. unfold redactValue. destruct (s == ""); [by left|by right]. Qed.
Lemma redacted_clients c client : client ∈ cfg_Clients (RedactedConfig c) -> hidden (cs_Token client).
Proof. intros H. apply list_elem_of_fmap in H as (x & -> & _). apply redactValue_hidden. Qed.
Lemma redacted_outbounds c o : o ∈ cfg_Outbounds (RedactedConfig c) -> hidden (ob_AuthToken o).
Proof. intros H. apply list_elem_of_fmap in H as (x & -> & _). apply redactValue_hidden. Qed.

Lemma client_metrics_items_hidden w redacted days start stop (all_time : gmap string StatsItem) quota clients items :
  client_metrics_items query_text w redacted days start stop all_time quota clients = Data items ->
  (forall client, client ∈ clients -> hidden (cs_Token client)) -> Forall (fun i => hidden (crr_Token (cm_Client i))) items.
Proof.
  revert items. induction clients as [|c clients IH]; intros items E Hh; cbn [client_metrics_items] in E; [injection E as <-; constructor|].
  destruct (usage_of _ _ _); [discriminate E|]. destruct (client_metrics_items _ _ _ _ _ _ _ _ _) as [|l]; [discriminate E|].
  injection E as <-. constructor; [apply Hh; by left|]. apply IH; [reflexivity|]. intros x Hx. apply Hh. by right.
Qed.
Lemma client_metrics_hidden w now cfg days x :
  client_metrics query_text w now cfg days = Data x -> Forall (fun i => hidden (crr_Token (cm_Client i))) x.1.1.1.
Proof.
  unfold client_metrics. destruct (usage_of _ _ _) as [|all]; [discriminate|].
  destruct (client_metrics_items _ _ _ _ _ _ _ _ _) as [|l] eqn:E; [discriminate|]. intros Hx.
  apply (f_equal (fun a => match a with Data y => y.1.1.1 | _ => [] end)) in Hx. cbn [fst] in Hx. rewrite <-Hx.
  eapply client_metrics_items_hidden; [exact E|]. intros client. apply redacted_clients.
Qed.
Lemma client_usage_hidden w now cfg name values u :
  client_usage query_text w now cfg name values = Data u -> hidden (crr_Token (cu_Client u)).
Proof.
  unfold client_usage. destruct (FindClient _ _) as [c|] eqn:Ef; [|done]. destruct (parseClientUsageRange _ _) as [[a b]|]; [|done].
  destruct (usage_of _ _ _); [done|]. destruct (usage_of _ _ _); [done|]. intros [= <-]. cbn.
  apply (redacted_clients cfg). unfold FindClient in Ef. apply find_named_In in Ef as [Hin _]. by apply list_elem_of_In.
Qed.
Lemma provider_metrics_hidden w now cfg values x :
  provider_metrics query_text w now cfg values = Data x -> Forall (fun i => hidden (ob_AuthToken (pm_Provider i))) x.1.1.
Proof.
  unfold provider_metrics. destruct (QueryUsageBy _ _); [|discriminate]. intros E.
  pose proof (f_equal (fun a => match a with Data y => y.1.1 | _ => [] end) E) as Ex. cbn in Ex. rewrite <-Ex.
  apply Forall_forall. intros i Hi. apply list_elem_of_fmap in Hi as (o & -> & Ho). exact (redacted_outbounds cfg o Ho).
Qed.

Lemma hidden_map {A} (f : A -> string) l : Forall (fun i => hidden (f i)) l -> Forall hidden (map f l).
Proof. intros H. induction H; cbn; by constructor. Qed.
Lemma safe_quiet a : shown_tokens a = [] -> returns safe (answer a).
Proof. intros E. change (Forall hidden (shown_tokens a)). rewrite E. constructor. Qed.
Lemma safe_refuse status message : returns safe (refuse status message).
Proof. by apply safe_quiet. Qed.
Lemma safe_perform {A} (c : adminCall A) (k : A -> admin) : (forall x, returns safe (k x)) -> returns safe (x ← perform c; k x).
Proof. intros H. apply returns_bind, H. Qed.
Lemma safe_guarded method r k : returns safe k -> returns safe (guarded method r k).
Proof.
  intros H. unfold guarded. destruct (_ != _); [apply safe_refuse|]. apply safe_perform. intros s.
  destruct (authorizeAdmin s r); [done|apply safe_refuse].
Qed.
Lemma safe_decode {A} (dec : option string -> result string (A * bool)) r k :
  (forall x, returns safe (k x)) -> returns safe (decodeJSONResourceRequest dec r k).
Proof.
  intros H. unfold decodeJSONResourceRequest. destruct (dec _) as [[x [|]]|e]; [apply safe_refuse|apply H|apply safe_refuse].
Qed.
Lemma safe_read k : (forall cfg, returns safe (k cfg)) -> returns safe (readAdminConfigForResource parse_config k).
Proof.
  intros H. apply safe_perform. intros s. destruct (_ == ""); [apply safe_refuse|]. apply safe_perform. intros [content|e]; [|apply safe_refuse].
  destruct (parse_config content); [apply H|by apply safe_quiet].
Qed.
Lemma safe_reloader k : returns safe k -> returns safe (with_reloader reloader k).
Proof. intros H. unfold with_reloader. destruct reloader; [done|apply safe_refuse]. Qed.
Lemma safe_write reason mutate : returns safe (writeAdminConfigMutation reloader reason mutate).
Proof. apply safe_reloader, safe_perform. intros [e|x]; by apply safe_quiet. Qed.
Lemma safe_view k : (forall s cfg, returns safe (k s cfg)) -> returns safe (with_config_view parse_config k).
Proof.
  intros H. apply safe_perform. intros s. destruct (clientMetricsConfigView _ _ _); [apply H|apply safe_read, H].
Qed.
Lemma safe_stats {A} (data : A -> adminReply) a : (forall x, a = Data x -> safe (data x)) -> returns safe (stats_admin data a).
Proof. intros H. destruct a; [apply safe_refuse|by apply H]. Qed.
Lemma safe_oauth k : returns safe k -> returns safe (oauthManagerForRequest oauth k).
Proof. intros H. unfold oauthManagerForRequest. destruct oauth; [done|apply safe_refuse]. Qed.
Lemma safe_oauth_answer {A} (data : A -> adminReply) a :
  (forall x, shown_tokens (data x) = []) -> returns safe (oauth_answer oauth_text data a).
Proof. intros H. destruct a; [apply safe_quiet, H|apply safe_refuse]. Qed.
Lemma safe_file_page path n query page : returns safe (file_page_answer path n query page).
Proof.
  destruct page as [p|[|text]]; [by apply safe_quiet| |]; [apply safe_refuse|]. unfold file_page_answer.
  destruct (_ || _); apply safe_refuse.
Qed.
Lemma safe_logs all r : returns safe (handleAdminLogs toLower toUpper local gunzip os_error checksumHex encodeCursor unmarshalCursor recent all r).
Proof.
  apply safe_guarded, safe_perform. intros s. destruct (negb (al_Enabled _)); [apply safe_refuse|].
  destruct (negb (hasAdminLogPageQuery all)).
  - apply safe_perform. intros v. destruct (lv_dir v !! _); [|apply safe_refuse]. destruct (readTail _ _). by apply safe_quiet.
  - apply safe_perform. intros now. destruct (parseAdminLogQuery _ _ _ _ _) as [query|]; [|apply safe_refuse].
    apply returns_bind. intros [page|]; [by apply safe_quiet|]. apply safe_perform. intros v.
    destruct (readAdminLogPage _ _ _ _ _ _ _ _ _ _ _); [apply safe_file_page|apply safe_refuse].
Qed.
Lemma safe_validate r : returns safe (handleConfigValidate parse_config r).
Proof.
  unfold handleConfigValidate. destruct (_ != _); [apply safe_refuse|]. apply safe_perform. intros s. apply returns_bind.
  intros [|]; [|apply safe_refuse]. cbn [negb]. destruct (hr_Body r); [|apply safe_refuse].
  destruct (parse_config _); by apply safe_quiet.
Qed.

Ltac safe_step :=
  lazymatch goal with
  | |- returns safe (guarded _ _ _) => apply safe_guarded
  | |- returns safe (refuse _ _) => apply safe_refuse
  | |- returns safe (writeAdminConfigMutation _ _ _) => apply safe_write
  | |- returns safe (decodeJSONResourceRequest _ _ _) => apply safe_decode; intros
  | |- returns safe (readAdminConfigForResource _ _) => apply safe_read; intros
  | |- returns safe (with_config_view _ _) => apply safe_view; intros
  | |- returns safe (with_reloader _ _) => apply safe_reloader
  | |- returns safe (oauthManagerForRequest _ _) => apply safe_oauth
  | |- returns safe (oauth_answer _ _ _) => apply safe_oauth_answer; intros; reflexivity
  | |- returns safe (stats_admin _ _) => apply safe_stats; intros
  | |- returns safe (perform _ ≫= _) => apply safe_perform; intros
  | |- returns safe (answer (match ?x with _ => _ end)) => destruct x
  | |- returns safe (if ?b then _ else _) => destruct b
  | |- returns safe (match ?x with _ => _ end) => destruct x
  | |- returns safe (let _ := _ in _) => cbv zeta
  | |- returns safe (answer _) => apply safe_quiet; reflexivity
  end.
Create HintDb handlers.
#[local] Hint Unfold handleAdminUsage handleAdminQuota handleAdminOverview handleAdminLatencySummary handleActiveLatency
  handleAdminLatency handleAdminSession handleSessions handleOAuthCredentials handleOAuthClaudeStart
  handleOAuthCodexStart handleOAuthStart handleOAuthClaudeComplete handleOAuthCodexPoll
  handleOAuthCredentialDelete handleAdminConfig handleConfigOptions handleConfigProviders
  handleConfigProviderMetrics handleConfigProviderCheck handleConfigProviderUpsert handleConfigProviderEnabled
  handleConfigProviderDelete handleConfigClients handleConfigClientMetrics handleConfigClientUsage
  handleConfigClientUpsert handleConfigClientDelete handleConfigClientBindingUpsert
  handleConfigClientBindingDelete handleConfigRoutes handleConfigRoutesReorder handleConfigRouteUpsert
  handleConfigRouteDelete handleConfigUpdate handleConfigApply handleConfigHistory handleConfigHistoryDiff
  handleConfigRollback handleDebugTraces handleRouteDryRun handleProviderDebug : handlers.
(** The clients and providers in an answer of an administrator's endpoint, alone or with
    their metrics, never carry a token: the field is empty or [redacted], whatever the
    configuration, whatever the stores hold and whatever is asked. *)
Theorem answers_redacted e values all r tr a : aruns (serve e values all r) tr a -> safe a.
Proof.
  apply runs_returns. destruct e; cbn [serve_endpoint].
  all: try first [apply safe_logs | apply safe_validate].
  all: autounfold with handlers; repeat safe_step.
  - apply Forall_forall. intros x Hx. apply list_elem_of_fmap in Hx as (o & -> & Hx).
    apply list_elem_of_fmap in Hx as (o' & -> & Hx). exact (redacted_outbounds cfg o' Hx).
  - destruct x2 as [[items h] m]. by eapply hidden_map, (provider_metrics_hidden _ _ _ _ (items, h, m)).
  - apply Forall_forall. intros x Hx. apply list_elem_of_fmap in Hx as (o & -> & Hx).
    apply list_elem_of_fmap in Hx as (o' & -> & Hx). exact (redacted_clients cfg o' Hx).
  - destruct x1 as [[[items d] start] stop]. by eapply hidden_map, (client_metrics_hidden _ _ _ _ (items, d, start, stop)).
  - constructor; [by eapply client_usage_hidden|constructor].
  - apply safe_quiet. by destruct x.
  - apply safe_quiet. by destruct x.
Qed.
End facts.

(** ** Witnesses *)

Definition ex_admin_state : RuntimeState :=
  mkRuntimeState (Router.mkRouter [] ∅ ∅ ∅ ∅) (mkDispatcher false false false (Accounting.mkPriceCalculator [])) [] []
    None None None (cfg_Accounting (clients_config [] []))
    (mkAdminConfig true "secret" (adm_Logs (cfg_Admin (clients_config [] [])))) "config.json".
Definition ex_request (method path token : string) : httpRequest :=
  mkHTTPRequest method path (fun name => if name == "Authorization" then "Bearer " +:+ token else "") (Some "").
Definition ex_config : Config := clients_config [mkClientSpec "client" "t1" (mkClientQuotaConfig false [])] [].
Abbreviation ex_serve path method token :=
  (serve_endpoint (fun _ => Err "") (fun _ => Err "") (fun _ => Err "") (fun _ => Err "") (fun _ => Err "") (fun _ => Err "")
    (fun _ => Err "") (fun _ => Err "") (fun _ => Err "") (fun _ => Err "") (fun _ => Err "") (fun _ => Err "") (fun _ => Err "")
    (fun _ => Err "") (fun _ => Ok ex_config) (fun _ => Err "") id (fun _ => "") (fun _ => "") (fun _ => "") (fun _ => "")
    (fun _ => "") (fun _ => "") (fun _ => "") (fun _ => None) id id UTC (fun _ => Err "") id id (fun _ => "") (fun _ => None)
    true true true (mux path) (fun _ => None) ∅ (ex_request method path token)).

Lemma admin_requires_token_witness :
  aruns (ex_serve "/admin/config/provider/delete" "POST" "wrong") [EALoad ex_admin_state] (AError 401 "invalid admin token") /\
  denied [EALoad ex_admin_state] (AError 401 "invalid admin token").
Proof.
  assert (aruns (ex_serve "/admin/config/provider/delete" "POST" "wrong") [EALoad ex_admin_state]
    (AError 401 "invalid admin token")) as H.
  { exists ex_admin_state, []. split; [reflexivity|]. split; reflexivity. }
  split; [exact H|].
  destruct (admin_requires_token _ _ _ _ _ _ _ _ _ _ _ _ _ _ _ _ _ _ _ _ _ _ _ _ _ _ _ _ _ _ _ _ _ _ _ _
    "/admin/config/provider/delete" _ _ _ _ _ eq_refl H) as [Hd|[E _]]; [|exact Hd|discriminate E].
  intros s Hs. apply list_elem_of_singleton in Hs. injection Hs as ->. split; [reflexivity|discriminate].
Defined.

Definition ex_clients_answer : adminReply :=
  AClients [mkClientResourceResponse "client" RedactedValue (mkClientQuotaConfig false []) []].
Lemma answers_redacted_witness :
  aruns (ex_serve "/admin/config/clients" "GET" "secret")
    [EALoad ex_admin_state; EALoad ex_admin_state; EACall _ (AReadConfig "config.json") (Ok "text")] ex_clients_answer /\
  safe ex_clients_answer.
Proof.
  assert (aruns (ex_serve "/admin/config/clients" "GET" "secret")
    [EALoad ex_admin_state; EALoad ex_admin_state; EACall _ (AReadConfig "config.json") (Ok "text")] ex_clients_answer) as H.
  { exists ex_admin_state. eexists. split; [reflexivity|]. exists ex_admin_state. eexists. split; [reflexivity|].
    exists (Ok "text"). eexists. split; [reflexivity|]. split; reflexivity. }
  split; [exact H|]. exact (answers_redacted _ _ _ _ _ _ _ _ _ _ _ _ _ _ _ _ _ _ _ _ _ _ _ _ _ _ _ _ _ _ _ _ _ _ _ _ _ _ _ _ _ _ H).
Defined.
