(* ===== verification/CommandLine.v ===== *)
(** * The command line

    Models the parts of [cmd/syrogo] that only compute: which command the arguments name
    ([main.go]), the options of [run] and [activate], the plan to start an agent and its
    environment ([launcher.go]), the hooks and their command ([session_hooks.go],
    [session_cli.go]), what a terminal session is asked ([session_tmux.go]), and the sizes
    of the log ([logging.go]).  What is done with them is in [Launcher].

    Go's [flag.FlagSet.Parse], [net.SplitHostPort] and [net.JoinHostPort] are written out as
    far as they are used.  Reading a configuration file is a parameter. *)

From S2P Require Import Prelude GoStrings GoTime RuntimeModel ConfigTypes ConfigValidate ConfigResources Sessions LogArchives GatewaySessions.

(** ** Texts *)

(** [strings.Cut(s, sep)] for a one-byte separator *)
Fixpoint Cut (s : string) (sep : ascii) : option (string * string) :=
  match s with
  | EmptyString => None
  | String c s => if Ascii.eqb c sep then Some ("", s) else '(a, b) ← Cut s sep; Some (String c a, b)
  end.
(** [strings.CutPrefix(s, prefix)] *)
Definition CutPrefix (s prefix : string) : option string := if HasPrefix s prefix then Some (str_drop (len prefix) s) else None.

(** An error: the format and its arguments, or one wrapped after such a text *)
Inductive launchError := LaunchErr (format : string) (args : list string) | LaunchWrap (format : string) (args : list string) (e : launchError).

(** ** Flags *)

Inductive flagError := FlagSyntax (arg : string) | FlagUndefined (name : string) | FlagHelp
| FlagBoolean (value name : string) | FlagNeedsArgument (name : string).
Inductive flagToken := NotFlag | EndOfFlags | BadFlag | Flag (name : string) (value : option string).

(** The name, and what follows the first ['='] that is not its first byte *)
Definition flag_value (name : string) : flagToken :=
  match name with
  | String c rest =>
      if Ascii.eqb c "-" || Ascii.eqb c "=" then BadFlag else
      match Cut rest "=" with Some (a, b) => Flag (String c a) (Some b) | None => Flag name None end
  | EmptyString => BadFlag
  end.
Definition flag_token (arg : string) : flagToken :=
  match arg with
  | String c (String d rest) =>
      if negb (Ascii.eqb c "-") then NotFlag
      else if Ascii.eqb d "-" then match rest with EmptyString => EndOfFlags | _ => flag_value rest end
      else flag_value (String d rest)
  | _ => NotFlag
  end.
Definition ParseBool (s : string) : option bool :=
  if existsb (String.eqb s) ["1"; "t"; "T"; "TRUE"; "true"; "True"] then Some true
  else if existsb (String.eqb s) ["0"; "f"; "F"; "FALSE"; "false"; "False"] then Some false else None.

(** [flag.FlagSet.Parse]: [formal] says of each flag whether it is boolean; the value of a
    boolean is ["true"] or ["false"]. *)
Fixpoint parse_flags (formal : string -> option bool) (args : list string) (values : gmap string string)
    : result flagError (gmap string string * list string) :=
  match args with
  | [] => Ok (values, [])
  | arg :: rest =>
      match flag_token arg with
      | NotFlag => Ok (values, args)
      | EndOfFlags => Ok (values, rest)
      | BadFlag => Err (FlagSyntax arg)
      | Flag name value =>
          match formal name with
          | None => if (name == "help") || (name == "h") then Err FlagHelp else Err (FlagUndefined name)
          | Some true =>
              match ParseBool (default "true" value) with
              | Some b => parse_flags formal rest (<[name := if b then "true" else "false"]> values)
              | None => Err (FlagBoolean (default "true" value) name)
              end
          | Some false =>
              match value, rest with
              | Some v, _ => parse_flags formal rest (<[name := v]> values)
              | None, v :: rest => parse_flags formal rest (<[name := v]> values)
              | None, [] => Err (FlagNeedsArgument name)
              end
          end
      end
  end.
Definition flag_text (e : flagError) : launchError :=
  match e with
  | FlagSyntax arg => LaunchErr "bad flag syntax: %s" [arg]
  | FlagUndefined name => LaunchErr "flag provided but not defined: -%s" [name]
  | FlagHelp => LaunchErr "flag: help requested" []
  | FlagBoolean value name => LaunchErr "invalid boolean value %q for -%s" [value; name]
  | FlagNeedsArgument name => LaunchErr "flag needs an argument: -%s" [name]
  end.

(** ** Addresses *)

(** [net.SplitHostPort] *)
Definition split_host_error (hostport why : string) : launchError := LaunchErr "address %s: %s" [hostport; why].
Definition SplitHostPort (hostport : string) : result launchError (string * string) :=
  let fail why := Err (split_host_error hostport why) in
  match LastIndexByte hostport ":" with
  | None => fail "missing port in address"
  | Some i =>
      let port := str_drop (S i) hostport in
      if HasPrefix hostport "[" then
        match Index hostport "]" with
        | None => fail "missing ']' in address"
        | Some stop =>
            if (S stop =? len hostport)%nat then fail "missing port in address"
            else if negb (S stop =? i)%nat then
              fail (if HasPrefix (str_drop (S stop) hostport) ":" then "too many colons in address" else "missing port in address")
            else if Contains (str_drop 1 hostport) "[" then fail "unexpected '[' in address"
            else if Contains (str_drop (S stop) hostport) "]" then fail "unexpected ']' in address"
            else Ok (str_take (stop - 1) (str_drop 1 hostport), port)
        end
      else
        let host := str_take i hostport in
        if Contains host ":" then fail "too many colons in address"
        else if Contains hostport "[" then fail "unexpected '[' in address"
        else if Contains hostport "]" then fail "unexpected ']' in address"
        else Ok (host, port)
  end.
(** [net.JoinHostPort] *)
Definition JoinHostPort (host port : string) : string :=
  if Contains host ":" then "[" +:+ host +:+ "]:" +:+ port else host +:+ ":" +:+ port.

Definition launcherBaseURLFromListen (listen : string) : result launchError string :=
  if listen == "" then Ok "http://127.0.0.1:23234" else
  match SplitHostPort listen with
  | Err e => if HasPrefix listen ":" then Ok ("http://127.0.0.1" +:+ listen)
             else Err (LaunchWrap "infer launcher base url from listen %q" [listen] e)
  | Ok (host, port) =>
      let host := if (host == "") || (host == "0.0.0.0") || (host == "::") then "127.0.0.1" else host in
      Ok ("http://" +:+ JoinHostPort host port)
  end.

(** ** The command *)

Inductive mainCommand := MVersion | MRun (args : list string) | MActivate (args : list string) | MSession (args : list string)
| MServe (args : list string).

Definition isVersionCommand (args : list string) : bool :=
  match args with [arg] => existsb (String.eqb arg) ["--version"; "-version"; "version"] | _ => false end.
Definition normalizeVersion (buildVersion : string) : string := if buildVersion == "" then "dev" else buildVersion.
Definition formatVersion (buildVersion : string) : string := "syrogo " +:+ normalizeVersion buildVersion.

(** Each configuration before the command is put in front of the arguments after it. *)
Fixpoint prefix_args (prefix commandArgs : list string) : list string :=
  match prefix with
  | [] => commandArgs
  | arg :: prefix =>
      if (arg == "--config") || (arg == "-config") then
        match prefix with
        | value :: prefix => prefix_args prefix ("--config" :: value :: commandArgs)
        | [] => commandArgs
        end
      else prefix_args prefix
             (match CutPrefix arg "--config=" with Some value => "--config" :: value :: commandArgs | None => commandArgs end)
  end.
Definition is_command (arg : string) : bool := existsb (String.eqb arg) ["run"; "activate"; "session"].
Fixpoint split_command (prefix args : list string) : option (string * list string) :=
  match args with
  | [] => None
  | arg :: rest => if is_command arg then Some (arg, prefix_args prefix rest) else split_command (prefix ++ [arg]) rest
  end.
Definition splitCommandArgs (args : list string) : option (string * list string) := split_command [] args.
(** The command of [runMain]; what it does is left to its parts. *)
Definition main_command (args : list string) : mainCommand :=
  if isVersionCommand args then MVersion else
  match splitCommandArgs args with
  | Some (command, args) =>
      if command == "run" then MRun args else if command == "activate" then MActivate args else MSession args
  | None => MServe args
  end.

Record startupBannerData := mkStartupBannerData {
  bd_Version : string; bd_Tagline : string; bd_Listens : list string; bd_DevLogEnabled : bool; bd_DevLogPath : string;
  bd_TraceMode : string
}.
(** The lines of [buildStartupBanner] after the word mark *)
Definition buildStartupBanner (data : startupBannerData) : list string :=
  ["  " +:+ bd_Tagline data;
   "  version: " +:+ normalizeVersion (bd_Version data);
   "  listen: " +:+ (match bd_Listens data with [] => "(none)" | l => String.concat ", " l end);
   "  dev-log: " +:+ (if bd_DevLogEnabled data then "on (" +:+ bd_DevLogPath data +:+ ")" else "off");
   "  trace: " +:+ (if bd_TraceMode data == "" then "off" else bd_TraceMode data)].

(** ** Options of [run] and [activate] *)

Record launcherOptions := mkLauncherOptions {
  lo_ConfigPath : string;
  lo_BaseURL : string;
  lo_Client : string;
  lo_Inbound : string;
  lo_Token : string;
  lo_PrintEnv : bool;
  lo_Args : list string
}.
Record launcherClient := mkLauncherClient {
  lc_InboundName : string;
  lc_ClientName : string;
  lc_Token : string;
  lc_Tag : string
}.
Record launchPlan := mkLaunchPlan {
  lp_Command : string;
  lp_Args : list string;
  lp_Env : gmap string string;
  lp_Client : launcherClient
}.

Definition defaultInstalledConfigPath := "/opt/syrogo/config/config.yaml".
Definition launcher_flags : list string := ["config"; "base-url"; "client"; "inbound"; "token"].
Definition flag_forms (names : list string) : list string := flat_map (fun n => ["--" +:+ n; "-" +:+ n]) names.
Definition requiresLauncherFlagValue (arg : string) : bool := existsb (String.eqb arg) (flag_forms launcher_flags).
Definition isLauncherFlag (arg : string) : bool :=
  let arg := match Cut arg "=" with Some (name, _) => name | None => arg end in
  existsb (String.eqb arg) (flag_forms (launcher_flags ++ ["print-env"])).
Fixpoint splitLauncherArgs (args : list string) : list string * list string :=
  match args with
  | [] => ([], [])
  | arg :: rest =>
      if arg == "--" then ([], rest)
      else if negb (isLauncherFlag arg) then ([], args)
      else if requiresLauncherFlagValue arg && negb (Contains arg "=") then
        match rest with
        | [] => ([arg], [])
        | value :: rest => let '(flags, agent) := splitLauncherArgs rest in (arg :: value :: flags, agent)
        end
      else let '(flags, agent) := splitLauncherArgs rest in (arg :: flags, agent)
  end.

(** The matches for a client: the inbounds of that name, or those of the agent's protocol *)
Definition preferredProtocol (agent : string) : string :=
  if agent == "claude" then "anthropic_messages" else if agent == "codex" then "openai_responses" else "".
Definition inbound_wanted (inboundName agent : string) (inbound : InboundSpec) : bool :=
  if inboundName != "" then in_Name inbound == inboundName
  else (preferredProtocol agent == "") || (in_Protocol inbound == preferredProtocol agent).
Definition launcher_matches (cfg : Config) (inboundName clientName agent : string) : list launcherClient :=
  inbound ← List.filter (inbound_wanted inboundName agent) (cfg_Inbounds cfg);
  binding ← in_Clients inbound;
  match ResolveClientBinding cfg binding with
  | Some resolved =>
      let client := rcb_Client resolved in
      if (clientName != "") && (cs_Name client != clientName) then []
      else [mkLauncherClient (in_Name inbound) (cs_Name client) (cs_Token client) (cb_Tag binding)]
  | None => []
  end.
Definition selectLauncherClient (cfg : Config) (inboundName clientName agent : string) : result launchError launcherClient :=
  match launcher_matches cfg inboundName clientName agent with
  | [] => Err (LaunchErr "no client matched inbound=%q client=%q for %s" [inboundName; clientName; agent])
  | [client] => Ok client
  | _ => Err (LaunchErr "multiple clients matched for %s; pass --client or --inbound" [agent])
  end.

Section config.
Context (exists_file : string -> bool) (load : string -> result string Config).

Definition defaultLauncherConfigPath : string :=
  if exists_file defaultInstalledConfigPath then defaultInstalledConfigPath
  else if exists_file "configs/config.yaml" then "configs/config.yaml"
  else defaultInstalledConfigPath.
Definition load_config (path : string) : result launchError Config :=
  match load path with Ok cfg => Ok cfg | Err e => Err (LaunchErr "%s" [e]) end.

(** The inbound whose listener is looked for *)
Definition infer_inbound (cfg : Config) (inboundName clientName agent : string) : result launchError string :=
  if inboundName == "" then
    match selectLauncherClient cfg "" clientName agent with
    | Ok selected => Ok (lc_InboundName selected)
    | Err e => Err (LaunchWrap "infer launcher listener" [] e)
    end
  else if existsb (fun inbound => in_Name inbound == inboundName) (cfg_Inbounds cfg) then Ok inboundName
  else Err (LaunchErr "infer launcher listener: inbound %q not found" [inboundName]).
(** The address of the only listener with the inbound *)
Definition listener_url (listeners : list ListenerSpec) (selectedInbound : string) : result launchError string :=
  match List.filter (fun l => existsb (String.eqb selectedInbound) (ls_Inbounds l)) listeners with
  | [] => Err (LaunchErr "infer launcher listener: inbound %q is not bound to a listener" [selectedInbound])
  | [listener] => launcherBaseURLFromListen (ls_Listen listener)
  | matches =>
      Err (LaunchErr "infer launcher listener: inbound %q is bound to multiple listeners (%s); pass --base-url"
             [selectedInbound; String.concat ", " (map ls_Name matches)])
  end.
Definition inferLauncherBaseURL (configPath inboundName clientName agent : string) : result launchError string :=
  cfg ← load_config configPath;
  match cfg_Listeners cfg with
  | [] => launcherBaseURLFromListen (srv_Listen (cfg_Server cfg))
  | listeners =>
      selectedInbound ← infer_inbound cfg inboundName clientName agent;
      listener_url listeners selectedInbound
  end.

Definition is_agent (agent : string) : bool := (agent == "claude") || (agent == "codex").
Definition run_formal (name : string) : option bool :=
  if existsb (String.eqb name) launcher_flags then Some false else if name == "print-env" then Some true else None.
Definition activate_formal (name : string) : option bool :=
  if existsb (String.eqb name) launcher_flags then Some false else None.
(** The options that the flags give *)
Definition flag_options (agent : string) (agentArgs : list string) (values : gmap string string) : result launchError launcherOptions :=
  let get name := default "" (values !! name) in
  let path := default defaultLauncherConfigPath (values !! "config") in
  let options baseURL :=
    mkLauncherOptions path baseURL (get "client") (get "inbound") (get "token") (get "print-env" == "true") (agent :: agentArgs) in
  if get "base-url" == "" then
    baseURL ← inferLauncherBaseURL path (get "inbound") (get "client") agent; Ok (options baseURL)
  else Ok (options (get "base-url")).
Definition parseLauncherOptions (args : list string) : result launchError launcherOptions :=
  match args with
  | [] => Err (LaunchErr "usage: syrogo run" [])
  | agent :: args =>
      if negb (is_agent agent) then Err (LaunchErr "unsupported agent %q" [agent]) else
      let '(runArgs, agentArgs) := splitLauncherArgs args in
      match parse_flags run_formal runArgs ∅ with
      | Err e => Err (flag_text e)
      | Ok (values, _) => flag_options agent agentArgs values
      end
  end.
Definition parseActivateOptions (args : list string) : result launchError launcherOptions :=
  match args with
  | [] => Err (LaunchErr "usage: syrogo activate" [])
  | agent :: args =>
      if negb (is_agent agent) then Err (LaunchErr "unsupported agent %q" [agent]) else
      match parse_flags activate_formal args ∅ with
      | Err e => Err (flag_text e)
      | Ok (values, []) => flag_options agent [] values
      | Ok (_, _ :: _) => Err (LaunchErr "activate does not accept agent command arguments" [])
      end
  end.

(** ** The plan *)

Definition agent_env (agent baseURL token : string) : result launchError (gmap string string) :=
  if agent == "claude" then Ok {["ANTHROPIC_BASE_URL" := baseURL; "ANTHROPIC_AUTH_TOKEN" := token]}
  else if agent == "codex" then Ok {["OPENAI_BASE_URL" := baseURL; "OPENAI_API_KEY" := token]}
  else Err (LaunchErr "unsupported agent %q" [agent]).
Definition buildLaunchPlan (opts : launcherOptions) : result launchError launchPlan :=
  match lo_Args opts with
  | [] => Err (LaunchErr "agent command is required" [])
  | agent :: args =>
      client ← (if lo_Token opts == "" then
                  cfg ← load_config (lo_ConfigPath opts); selectLauncherClient cfg (lo_Inbound opts) (lo_Client opts) agent
                else Ok (mkLauncherClient (lo_Inbound opts) (lo_Client opts) (lo_Token opts) ""));
      let token := lc_Token client in
      if token == "" then Err (LaunchErr "client token is required" []) else
      if (agent == "claude") && (lc_InboundName client == "") then
        Err (LaunchErr "inbound is required for Claude session registration; pass --inbound" [])
      else
        env ← agent_env agent (lo_BaseURL opts) token;
        Ok (mkLaunchPlan agent args env client)
  end.
End config.

(** ** Environment and output *)

Definition shellQuote (value : string) : string := "'" +:+ replace_byte "'" "'\''" value +:+ "'".
Definition sorted_keys (env : gmap string string) : list string := sort_by String.ltb (map fst (map_to_list env)).
(** The lines of [printShellExports] *)
Definition printShellExports (env : gmap string string) : list string :=
  map (fun key => "export " +:+ key +:+ "=" +:+ shellQuote (default "" (env !! key))) (sorted_keys env).

Section upper.
Context (toUpper : string -> string).
Definition redactLaunchEnvValue (key value : string) : string :=
  if existsb (Contains (toUpper key)) ["TOKEN"; "KEY"; "SECRET"; "PASSWORD"] then "<redacted>" else value.
(** The lines of [printLaunchPlan] *)
Definition printLaunchPlan (plan : launchPlan) : list string :=
  map (fun key => key +:+ "=" +:+ redactLaunchEnvValue key (default "" (lp_Env plan !! key))) (sorted_keys (lp_Env plan)) ++
  ["command=" +:+ lp_Command plan +:+ (match lp_Args plan with [] => "" | args => " " +:+ String.concat " " args end)].
End upper.

(** What is new is added in the random order of a map; here it is that of [map_to_list]. *)
Definition merge_item (extra : gmap string string) (item : string) : string :=
  match Cut item "=" with
  | Some (key, _) => match extra !! key with Some value => key +:+ "=" +:+ value | None => item end
  | None => item
  end.
Definition env_keys (base : list string) : gset string := list_to_set (omap (fun item => fst <$> Cut item "=") base).
Definition mergeEnv (base : list string) (extra : gmap string string) : list string :=
  map (merge_item extra) base ++
  map (fun kv => kv.1 +:+ "=" +:+ kv.2) (filter (fun kv => kv.1 ∉ env_keys base) (map_to_list extra)).

(** ** Hooks *)

Definition claudeHookEvents : list string :=
  ["SessionStart"; "UserPromptSubmit"; "PreToolUse"; "PostToolUse"; "Notification"; "Stop"; "SubagentStop"; "PreCompact"; "SessionEnd"].
Record claudeHookCommand := mkClaudeHookCommand { hc_Type : string; hc_Command : string }.
Record claudeHookMatcher := mkClaudeHookMatcher { hm_Matcher : string; hm_Hooks : list claudeHookCommand }.
(** [decodeHookMatchers] of what a fresh map has for an event gives nothing. *)
Definition appendClaudeHook (existing : list claudeHookMatcher) (commandPath event : string) : list claudeHookMatcher :=
  existing ++ [mkClaudeHookMatcher ""
    [mkClaudeHookCommand "command" (shellQuote commandPath +:+ " session hook-event --event " +:+ shellQuote event)]].
(** The settings that [prepareClaudeSettingsWithHooks] writes *)
Definition claude_hooks (commandPath : string) : gmap string (list claudeHookMatcher) :=
  foldl (fun hooks event => <[event := appendClaudeHook (default [] (hooks !! event)) commandPath event]> hooks) ∅ claudeHookEvents.

(** ** The command of a hook *)

Inductive sessionArgs := SessionUsage (format : string) (args : list string) | SessionEvent (event : string).
Fixpoint session_options (args : list string) (event : string) : sessionArgs :=
  match args with
  | [] => SessionEvent event
  | arg :: args =>
      if (arg == "--event") || (arg == "-event") then
        match args with
        | value :: args => session_options args value
        | [] => SessionUsage "--event requires a value" []
        end
      else match CutPrefix arg "--event=" with
           | Some value => session_options args value
           | None => SessionUsage "unknown session option %q" [arg]
           end
  end.
Definition runSession (args : list string) : sessionArgs :=
  match args with
  | "hook-event" :: args => session_options args ""
  | _ => SessionUsage "usage: syrogo session hook-event --event <EventName>" []
  end.

(** ** The terminal and the repository *)

Section commands.
Context (getenv : string -> string) (run : list string -> option string).
(** [run] is the output of a command that succeeds. *)
Definition runTrimmedCommand (command : list string) : string :=
  match run command with Some output => TrimSpace output | None => "" end.
Definition tmux_field (field : string) : string := runTrimmedCommand ["tmux"; "display-message"; "-p"; field].
Definition collectTmuxInfo : TmuxInfo :=
  if (getenv "TMUX" == "") && (getenv "TMUX_PANE" == "") then mkTmuxInfo false "" "" "" "" "" else
  let paneID := tmux_field "#D" in
  mkTmuxInfo true (tmux_field "#S") (tmux_field "#I") (tmux_field "#W") (tmux_field "#P")
    (if paneID == "" then getenv "TMUX_PANE" else paneID).
Definition collectGitBranch : string :=
  let branch := runTrimmedCommand ["git"; "rev-parse"; "--abbrev-ref"; "HEAD"] in
  if (branch != "") && (branch != "HEAD") then branch else runTrimmedCommand ["git"; "rev-parse"; "--short"; "HEAD"].
End commands.

(** ** The log's options *)

Definition bytesPerMB : Z := 1024 * 1024.
Definition megabytesToBytes (value : Z) : option Z :=
  if (value <=? 0) || (Z.quot (2 ^ 63 - 1) bytesPerMB <? value) then None else Some (i64 (value * bytesPerMB)).
Definition daysToDuration (value : Z) : option Duration :=
  if (value <=? 0) || (Z.quot (2 ^ 63 - 1) (24 * Hour) <? value) then None else Some (i64 (value * (24 * Hour))).
Definition is_abs (path : string) : bool := HasPrefix path "/".
(** [filepath.Join] is a parameter. *)
Definition devLogPath (filepath_join : string -> string -> string) (baseDir : string) (logs : AdminLogsConfig) : string :=
  if (baseDir != "") && negb (is_abs (al_Path logs)) then filepath_join baseDir (al_Path logs) else al_Path logs.
(** The options of the file that [newLogger] writes with [--dev-log] *)
Definition log_options (path : string) (logs : AdminLogsConfig) : result launchError LogOptions :=
  let rotation := al_Rotation logs in
  let in_range (o : option Z) name value :=
    match o with Some n => Ok n | None => Err (LaunchWrap ("admin.logs.rotation." +:+ name) [] (LaunchErr "value %d is out of range" [itoa value])) end in
  maxSize ← in_range (megabytesToBytes (alr_MaxSizeMB rotation)) "max_size_mb" (alr_MaxSizeMB rotation);
  maxTotalSize ← in_range (megabytesToBytes (alr_MaxTotalSizeMB rotation)) "max_total_size_mb" (alr_MaxTotalSizeMB rotation);
  maxAge ← in_range (daysToDuration (alr_MaxAgeDays rotation)) "max_age_days" (alr_MaxAgeDays rotation);
  Ok (mkLogOptions path maxSize (alr_MaxFiles rotation) maxAge maxTotalSize (CompressionEnabled rotation)).
