(* ===== verification/Launcher.v ===== *)
(** * Starting an agent

    Models what [syrogo run] does once its plan is made ([launchAgent], [launchClaudeAgent]
    and the session reporter of [cmd/syrogo/launcher.go]) and what a hook does
    ([runSessionHookEvent] of [session_cli.go]).

    A run is a program over its calls: the process it starts, the requests to the gateway,
    the ticks of the reporter.  The reporter is a goroutine, but the main one only waits for
    the agent meanwhile, then stops the reporter and waits for it: the calls are one
    sequence.  [ticks] is how many ticks the reporter sees before it is stopped.  The body of
    a request is what the gateway decodes it to ([GatewaySessions]); the names of the members
    are the same on both sides.  The lines written to the standard error are calls too. *)

From S2P Require Import Prelude GoStrings GoTime RuntimeModel ConfigTypes Sessions Program GatewaySessions CommandLine.

Inductive sessionBody :=
| BodyRegister (req : sessionRegisterRequest)
| BodyHeartbeat (req : sessionHeartbeatRequest)
| BodyHookEvent (req : sessionHookEventRequest)
| BodyStopped (req : sessionStoppedRequest).
Inductive sessionError := SessionFailed (text : string) | SessionHTTPError (path : string) (statusCode : Z).

(** What a process that is started gives: its identifier *)
Inductive launchCall : Type -> Type :=
| LSessionID : launchCall string
| LExecutable : launchCall (option string)
| LWriteSettings (hooks : gmap string (list claudeHookMatcher)) : launchCall (result string string)
| LRemove (path : string) : launchCall unit
| LEnviron : launchCall (list string)
| LRun (command : string) (args env : list string) : launchCall (option string)
| LStart (command : string) (args env : list string) : launchCall (result string Z)
| LWait : launchCall (option string * Z)
| LNow : launchCall Time
| LHost : launchCall (string * string * string * TmuxInfo)
| LPost (url token : string) (body : sessionBody) : launchCall (result string Z)
| LTick : launchCall unit
| LCancel : launchCall unit
| LCancelled : launchCall bool
| LLog (phase sessionID baseURL inboundName : string) : launchCall unit
| LPrint (lines : list string) : launchCall unit.
Inductive launchEvent := LEvent (B : Type) (c : launchCall B) (b : B).
Definition launch_observe (B : Type) (c : launchCall B) (b : B) : launchEvent := LEvent B c b.
Abbreviation launch := (prog launchCall).

Definition session_path (body : sessionBody) : string :=
  match body with
  | BodyRegister _ => "/session/register"
  | BodyHeartbeat _ => "/session/heartbeat"
  | BodyHookEvent _ => "/session/hook-event"
  | BodyStopped _ => "/session/stopped"
  end.
Definition postSessionJSON (baseURL token : string) (body : sessionBody) : launch (option sessionError) :=
  r ← perform (LPost (trim_slashes baseURL +:+ session_path body) token body);
  mret match r with
       | Err e => Some (SessionFailed e)
       | Ok status => if (status <? 200) || (300 <=? status) then Some (SessionHTTPError (session_path body) status) else None
       end.

Section reporter.
Context (opts : launcherOptions) (plan : launchPlan) (sessionID : string).
Abbreviation client := (lp_Client plan).

Definition registerClaudeSession (pid : Z) (startedAt : Time) : launch (option sessionError) :=
  '(host, cwd, branch, tmux) ← perform LHost;
  postSessionJSON (lo_BaseURL opts) (lc_Token client)
    (BodyRegister (mkSessionRegisterRequest sessionID (lc_ClientName client) (lc_InboundName client) (lc_Tag client) host pid cwd
       branch (lp_Command plan :: lp_Args plan) tmux startedAt HeartbeatCapabilityV1)).
Definition heartbeatClaudeSession : launch (option sessionError) :=
  postSessionJSON (lo_BaseURL opts) (lc_Token client) (BodyHeartbeat (mkSessionHeartbeatRequest sessionID (lc_InboundName client))).
Definition logSessionReporterError (phase : string) : launch unit :=
  perform (LLog phase sessionID (lo_BaseURL opts) (lc_InboundName client)).
Definition is_None_error (e : option sessionError) : bool := match e with None => true | Some _ => false end.
(** The log of an error, unless the reporter is being stopped *)
Definition log_unless_cancelled (phase : string) : launch unit :=
  cancelled ← perform LCancelled; if cancelled : bool then mret tt else logSessionReporterError phase.

(** One tick: whether the session is registered afterwards *)
Definition reporter_tick (pid : Z) (startedAt : Time) (registered : bool) : launch bool :=
  if negb registered then
    e ← registerClaudeSession pid startedAt;
    (if is_None_error e then mret true else _ ← log_unless_cancelled "retry register"; mret false)
  else
    e ← heartbeatClaudeSession;
    match e with
    | None => mret true
    | Some e =>
        cancelled ← perform LCancelled;
        if cancelled : bool then mret true else
        match e with
        | SessionHTTPError _ 404 =>
            e ← registerClaudeSession pid startedAt;
            (if is_None_error e then mret true else _ ← log_unless_cancelled "retry register"; mret false)
        | _ => _ ← logSessionReporterError "heartbeat"; mret true
        end
    end.
Fixpoint runClaudeSessionReporter (ticks : nat) (pid : Z) (startedAt : Time) (registered : bool) : launch bool :=
  match ticks with
  | O => mret registered
  | S ticks => _ ← perform LTick; registered ← reporter_tick pid startedAt registered; runClaudeSessionReporter ticks pid startedAt registered
  end.
(** [startClaudeSessionReporter] up to its goroutine *)
Definition startClaudeSessionReporter (pid : Z) : launch (Time * bool) :=
  startedAt ← perform LNow;
  e ← registerClaudeSession pid startedAt;
  _ ← (if is_None_error e then mret tt else logSessionReporterError "initial register");
  mret (startedAt, is_None_error e).
(** [Close], after the goroutine has ended *)
Definition close_reporter (pid : Z) (startedAt : Time) (registered : bool) : launch bool :=
  if registered then mret true else
  e ← registerClaudeSession pid startedAt;
  if is_None_error e then mret true else _ ← logSessionReporterError "final register"; mret false.
End reporter.

Definition text_error (e : option string) : option launchError :=
  match e with Some text => Some (LaunchErr "%s" [text]) | None => None end.
(** The environment of the agent besides that of the plan *)
Definition session_env (opts : launcherOptions) (plan : launchPlan) (sessionID : string) : gmap string string :=
  <["SYROGO_SESSION_INBOUND_NAME" := lc_InboundName (lp_Client plan)]>
  (<["SYROGO_SESSION_AUTH_TOKEN" := lc_Token (lp_Client plan)]>
  (<["SYROGO_BASE_URL" := lo_BaseURL opts]>
  (<["SYROGO_SESSION_ID" := sessionID]> (lp_Env plan)))).

Definition launchClaudeAgent (ticks : nat) (opts : launcherOptions) (plan : launchPlan) : launch (option launchError) :=
  sessionID ← perform LSessionID;
  path ← perform LExecutable;
  settings ← perform (LWriteSettings (claude_hooks (default "syrogo" path)));
  match settings with
  | Err e => mret (Some (LaunchWrap "prepare claude hooks" [] (LaunchErr "%s" [e])))
  | Ok settingsPath =>
      environ ← perform LEnviron;
      started ← perform (LStart (lp_Command plan) ("--settings" :: settingsPath :: lp_Args plan)
                           (mergeEnv environ (session_env opts plan sessionID)));
      out ← match started with
            | Err e => mret (Some (LaunchErr "%s" [e]))
            | Ok pid =>
                '(startedAt, registered) ← startClaudeSessionReporter opts plan sessionID pid;
                registered ← runClaudeSessionReporter opts plan sessionID ticks pid startedAt registered;
                '(waitErr, exitCode) ← perform LWait;
                _ ← perform LCancel;
                _ ← close_reporter opts plan sessionID pid startedAt registered;
                e ← postSessionJSON (lo_BaseURL opts) (lc_Token (lp_Client plan))
                      (BodyStopped (mkSessionStoppedRequest sessionID (lc_InboundName (lp_Client plan)) exitCode));
                _ ← (if is_None_error e then mret tt else logSessionReporterError opts plan sessionID "stopped");
                mret (text_error waitErr)
            end;
      _ ← perform (LRemove settingsPath);
      mret out
  end.

Section run.
Context (exists_file : string -> bool) (load : string -> result string Config) (toUpper : string -> string).

Definition launchAgent (ticks : nat) (opts : launcherOptions) : launch (option launchError) :=
  match buildLaunchPlan load opts with
  | Err e => mret (Some e)
  | Ok plan =>
      if lo_PrintEnv opts then _ ← perform (LPrint (printLaunchPlan toUpper plan)); mret None
      else if lp_Command plan == "claude" then launchClaudeAgent ticks opts plan
      else
        environ ← perform LEnviron;
        e ← perform (LRun (lp_Command plan) (lp_Args plan) (mergeEnv environ (lp_Env plan)));
        mret (text_error e)
  end.
(** The exit code *)
Definition runLauncher (ticks : nat) (args : list string) : launch Z :=
  match parseLauncherOptions exists_file load args with
  | Err _ => mret 2
  | Ok opts => e ← launchAgent ticks opts; mret match e with Some _ => 1 | None => 0 end
  end.
Definition runActivate (args : list string) : launch Z :=
  match parseActivateOptions exists_file load args with
  | Err _ => mret 2
  | Ok opts =>
      match buildLaunchPlan load opts with
      | Err _ => mret 1
      | Ok plan => _ ← perform (LPrint (printShellExports (lp_Env plan))); mret 0
      end
  end.
End run.

(** ** A hook *)

Section hook.
Context (unmarshalPayload : string -> result string payload).
(** [stdin] is what it reads, unless that fails; a hook never makes the agent fail. *)
Definition hook_payload (stdin : option string) : payload :=
  match stdin with
  | Some data =>
      if TrimSpace data == "" then [] else
      match unmarshalPayload data with Ok p => p | Err e => [("parse_error", PString e)] end
  | None => []
  end.
Definition runSessionHookEvent (getenv : string -> string) (stdin : option string) (event : string) : launch Z :=
  let sessionID := getenv "SYROGO_SESSION_ID" in
  let baseURL := getenv "SYROGO_BASE_URL" in
  let token := getenv "SYROGO_SESSION_AUTH_TOKEN" in
  let inboundName := getenv "SYROGO_SESSION_INBOUND_NAME" in
  if event == "" then mret 0
  else if (sessionID == "") || (baseURL == "") || (token == "") || (inboundName == "") then mret 0
  else
    now ← perform LNow;
    _ ← postSessionJSON baseURL token
          (BodyHookEvent (mkSessionHookEventRequest sessionID inboundName event (hook_payload stdin) now));
    mret 0.
End hook.
