(* ===== verification/LauncherFacts.v ===== *)
(** * Properties of the launcher

    No argument is lost between the launcher's flags and the agent's; a shell reads the
    printed exports and the commands of the hooks back; the environment of the agent; the
    token and the address of a plan are those of a listener that serves the client; one tick
    of the session reporter makes the gateway know the session again. *)

From S2P Require Import Prelude GoStrings GoTime GoTimeFacts RuntimeModel ConfigTypes ConfigValidate ConfigFacts ConfigResources Sessions SessionsFacts AppRuntime Reload Program GatewayStream Gateway GatewaySafety GatewayCodecs GatewaySessions GatewaySessionsFacts CommandLine Launcher.

(** ** Arguments *)

Lemma Cut_app s t c : Cut s c = None -> Cut (s +:+ String c t) c = Some (s, t).
Proof.
  induction s as [|d s IH]; intros H; [change (Cut (String c t) c = Some ("", t)); cbn [Cut]; by rewrite Ascii.eqb_refl|].
  change (Cut (String d (s +:+ String c t)) c = Some (String d s, t)). cbn [Cut] in *.
  destruct (Ascii.eqb d c); [done|]. destruct (Cut s c) as [[a b]|] eqn:E; [done|]. by rewrite IH.
Qed.
Lemma Cut_Some s c a b : Cut s c = Some (a, b) -> s = a +:+ String c b /\ Cut a c = None.
Proof.
  revert a. induction s as [|d s IH]; intros a H; cbn [Cut] in H; [done|]. destruct (Ascii.eqb_spec d c) as [->|Hd].
  - by injection H as <- <-.
  - destruct (Cut s c) as [[a' b']|] eqn:E; [|done]. injection H as <- <-. destruct (IH a' eq_refl) as [-> Ha].
    split; [done|]. cbn [Cut]. by rewrite (proj2 (Ascii.eqb_neq _ _) Hd), Ha.
Qed.

Lemma Cut_app_None s t c : Cut (s +:+ t) c = None -> Cut s c = None.
Proof.
  induction s as [|d s IH]; [done|]. change (Cut (String d (s +:+ t)) c = None -> Cut (String d s) c = None). cbn [Cut].
  destruct (Ascii.eqb d c); [done|]. destruct (Cut (s +:+ t) c) as [[]|]; [done|]. intros _. by rewrite IH.
Qed.

(** A flag of the launcher is one for [flag.Parse] too, and takes the next argument for its
    value exactly if the launcher thinks so. *)
Lemma launcher_flag arg : isLauncherFlag arg = true ->
  exists name value, flag_token arg = Flag name value /\
    if requiresLauncherFlagValue arg && negb (Contains arg "=") then value = None /\ run_formal name = Some false
    else run_formal name = Some true \/ run_formal name = Some false /\ is_Some value.
Proof.
  unfold isLauncherFlag. destruct (Cut arg "=") as [[form v]|] eqn:Ec.
  - apply Cut_Some in Ec as [-> _]. intros H. assert (requiresLauncherFlagValue (form +:+ String "=" v) = false) as Hr.
    { apply not_true_is_false. intros Hr. unfold requiresLauncherFlagValue in Hr. apply existsb_exists in Hr as (f & Hin & Ef%String.eqb_eq).
      assert (Cut f "=" = None) as Hn by (cbn in Hin; repeat (destruct Hin as [<-|Hin]; [done|]); destruct Hin).
      rewrite <-Ef in Hn. pose proof (Cut_app_None _ _ _ Hn) as Hf. by rewrite Cut_app in Hn. }
    rewrite Hr. cbn [andb]. apply existsb_exists in H as (f & Hin & ->%String.eqb_eq). cbn in Hin.
    repeat (destruct Hin as [<-|Hin]; [eexists _, _; split; [reflexivity|]; first [by left|right; split; [reflexivity|by eexists]|by split]|]). destruct Hin.
  - intros H. apply existsb_exists in H as (f & Hin & ->%String.eqb_eq). cbn in Hin.
    repeat (destruct Hin as [<-|Hin]; [eexists _, _; split; [reflexivity|]; vm_compute; first [by left|right; split; [reflexivity|by eexists]|by split]|]). destruct Hin.
Qed.

(** No argument is lost.  The arguments after the agent's name are the launcher's and, after
    an optional [--], the agent's; [flag.Parse] reads all of the launcher's or refuses
    them, so that every argument is used once. *)
Theorem arguments_complete args values :
  let '(flags, agent) := splitLauncherArgs args in
  (args = flags ++ agent \/ args = flags ++ "--" :: agent) /\
  match parse_flags run_formal flags values with Ok (_, rest) => rest = [] | Err _ => True end.
Proof.
  remember (length args) as n eqn:E. revert args values E. induction n as [n IH] using lt_wf_ind. intros args values ->.
  destruct args as [|arg args]; [split; [by left|done]|]. cbn [splitLauncherArgs].
  destruct (String.eqb_spec arg "--") as [->|_]; [split; [by right|done]|].
  destruct (isLauncherFlag arg) eqn:Ef; cbn [negb]; [|split; [by left|done]].
  destruct (launcher_flag arg Ef) as (name & value & Et & Hf).
  destruct (_ && _); [destruct Hf as [-> Hf]; destruct args as [|v args]|].
  - split; [by left|]. cbn [parse_flags]. by rewrite Et, Hf.
  - specialize (IH (length args) ltac:(cbn; lia) args).
    destruct (splitLauncherArgs args) as [flags agent]. split.
    + destruct (IH values eq_refl) as [[->| ->] _]; [by left|by right].
    + cbn [parse_flags]. rewrite Et, Hf. apply IH; reflexivity.
  - specialize (IH (length args) ltac:(cbn; lia) args).
    destruct (splitLauncherArgs args) as [flags agent]. split.
    + destruct (IH values eq_refl) as [[->| ->] _]; [by left|by right].
    + cbn [parse_flags]. rewrite Et. destruct Hf as [Hf|[Hf [v ->]]]; rewrite Hf.
      * destruct (ParseBool _); [apply IH; reflexivity|done].
      * apply IH; reflexivity.
Qed.

(** The configuration before the command: the launcher takes it for the agent's name. *)
Example config_before_command :
  splitCommandArgs ["--config"; "c.yaml"; "run"; "claude"] = Some ("run", ["--config"; "c.yaml"; "claude"]) /\
  parseLauncherOptions (fun _ => true) (fun _ => Err "") ["--config"; "c.yaml"; "claude"] =
    Err (LaunchErr "unsupported agent %q" ["--config"]).
Proof. by vm_compute. Qed.

(** ** What a shell reads *)

Lemma sh_plain c w s : plain_byte c = true ->
  Ascii.eqb c "'" = false -> Ascii.eqb c "\" = false -> Ascii.eqb c " " = false ->
  sh false (Some w) (String c s) = sh false (Some (w +:+ String c "")) s.
Proof. intros H H1 H2 H3. cbn [sh]. by rewrite H, H1, H2, H3. Qed.
(** A word of plain bytes that is followed by a quoted text *)
Lemma sh_assignment prefix w value :
  (forall rest, sh_words (prefix +:+ rest) = (fun l => "export" :: l) <$> sh false (Some w) rest) ->
  sh_words (prefix +:+ shellQuote value) = Some ["export"; w +:+ value].
Proof.
  intros ->. unfold shellQuote. change (sh false (Some w) ("'" +:+ ?x)) with (sh true (Some w) x).
  change "'" with ("'" +:+ "") at 2. by rewrite sh_quoted.
Qed.

Lemma sorted_keys_lookup env key : key ∈ sorted_keys env <-> is_Some (env !! key).
Proof.
  unfold sorted_keys. rewrite sort_by_Permutation. rewrite list_elem_of_fmap. split.
  - intros ([k v] & -> & H%elem_of_map_to_list). by exists v.
  - intros [v H]. exists (key, v). split; [done|]. by apply elem_of_map_to_list.
Qed.
Lemma sh_quoted_word value rest : sh_words (shellQuote value +:+ rest) = sh false (Some value) rest.
Proof.
  unfold shellQuote. rewrite <-!str_app_assoc. exact (sh_quoted "" value rest).
Qed.

(** What [activate] prints is read back.  For every plan, whatever bytes the address and the
    token have, a shell reads each line that [activate] prints as [export] and one word:
    the variable, an equals sign and its value; the lines are those of the plan's variables. *)
Theorem exports_read_back load opts plan : buildLaunchPlan load opts = Ok plan ->
  Forall2 (fun line key => exists value, lp_Env plan !! key = Some value /\ sh_words line = Some ["export"; key +:+ "=" +:+ value])
    (printShellExports (lp_Env plan)) (sorted_keys (lp_Env plan)) /\
  (forall key, key ∈ sorted_keys (lp_Env plan) <-> is_Some (lp_Env plan !! key)).
Proof.
  intros H. split; [|intros key; apply sorted_keys_lookup]. unfold buildLaunchPlan in H.
  destruct (lo_Args opts) as [|agent args]; [done|]. apply bind_Ok in H as (client & _ & H).
  destruct (lc_Token client == ""); [done|]. destruct (_ && _); [done|]. apply bind_Ok in H as (env & He & [= <-]). cbn [lp_Env].
  revert He. generalize (lo_BaseURL opts) as url, (lc_Token client) as token. intros url token He. unfold agent_env in He.
  destruct (agent == "claude"); [|destruct (agent == "codex"); [|done]]; injection He as <-.
  - change (printShellExports _) with
      ["export ANTHROPIC_AUTH_TOKEN=" +:+ shellQuote token; "export ANTHROPIC_BASE_URL=" +:+ shellQuote url].
    change (sorted_keys _) with ["ANTHROPIC_AUTH_TOKEN"; "ANTHROPIC_BASE_URL"].
    repeat constructor; eexists; (split; [reflexivity|]); [apply (sh_assignment _ "ANTHROPIC_AUTH_TOKEN=")|apply (sh_assignment _ "ANTHROPIC_BASE_URL=")];
      reflexivity.
  - change (printShellExports _) with ["export OPENAI_API_KEY=" +:+ shellQuote token; "export OPENAI_BASE_URL=" +:+ shellQuote url].
    change (sorted_keys _) with ["OPENAI_API_KEY"; "OPENAI_BASE_URL"].
    repeat constructor; eexists; (split; [reflexivity|]); [apply (sh_assignment _ "OPENAI_API_KEY=")|apply (sh_assignment _ "OPENAI_BASE_URL=")];
      reflexivity.
Qed.

(** A hook reaches its event.  Wherever the program is installed, the command in the
    settings for an event is one that a shell reads as the program and its arguments, and
    the program takes these as the event. *)
Theorem hook_reaches_event commandPath event : event ∈ claudeHookEvents ->
  exists command args, claude_hooks commandPath !! event = Some [mkClaudeHookMatcher "" [mkClaudeHookCommand "command" command]] /\
    sh_words command = Some (commandPath :: "session" :: args) /\
    main_command ("session" :: args) = MSession args /\ runSession args = SessionEvent event.
Proof.
  intros H. exists (shellQuote commandPath +:+ " session hook-event --event " +:+ shellQuote event), ["hook-event"; "--event"; event].
  split; [|split; [|split; [reflexivity|reflexivity]]].
  - unfold claudeHookEvents in H. repeat (apply elem_of_cons in H as [->|H]; [reflexivity|]). by apply not_elem_of_nil in H.
  - rewrite sh_quoted_word. change (" session hook-event --event " +:+ ?x) with (String " " ("session hook-event --event " +:+ x)).
    cbn [sh Ascii.eqb Bool.eqb]. change (shellQuote event) with (shellArg event).
    change (sh false None ?x) with (sh_words x).
    by rewrite (sh_command "session hook-event --event " ["session"; "hook-event"; "--event"]).
Qed.

(** ** The environment *)

(** What a process finds: of equal keys the last one counts, as [os/exec] arranges. *)
Definition env_entry (key item : string) : option string :=
  '(k, v) ← Cut item "="; if k == key then Some v else None.
Definition env_get (env : list string) (key : string) : option string := last (omap (env_entry key) env).

Lemma last_const {A} (v : A) l : l <> [] -> Forall (eq v) l -> last l = Some v.
Proof.
  induction l as [|x l IH]; [done|]. intros _ H. apply Forall_cons in H as [<- H]. destruct l as [|y l]; [done|].
  rewrite last_cons_cons. by apply IH.
Qed.
Lemma env_entry_pair key k v : Cut k "=" = None -> env_entry key (k +:+ "=" +:+ v) = if k == key then Some v else None.
Proof. intros H. unfold env_entry. change (k +:+ "=" +:+ v) with (k +:+ String "=" v). by rewrite Cut_app. Qed.
Lemma Cut_key item key rest : Cut item "=" = Some (key, rest) -> Cut key "=" = None.
Proof. by intros [_ ?]%Cut_Some. Qed.
Lemma merge_item_entry extra key item :
  env_entry key (merge_item extra item) =
    match env_entry key item with Some v => Some (default v (extra !! key)) | None => None end.
Proof.
  unfold merge_item. destruct (Cut item "=") as [[k v]|] eqn:E; [|unfold env_entry; by rewrite E].
  assert (env_entry key item = if k == key then Some v else None) as -> by (unfold env_entry; by rewrite E).
  assert (env_entry key (match extra !! k with Some w => k +:+ "=" +:+ w | None => item end) =
    if k == key then Some (default v (extra !! k)) else None) as ->.
  { destruct (extra !! k) as [w|]; [apply env_entry_pair; by eapply Cut_key|]. unfold env_entry. by rewrite E. }
  by destruct (String.eqb_spec k key) as [->|].
Qed.
Lemma env_keys_entry base key : key ∈ env_keys base <-> omap (env_entry key) base <> [].
Proof.
  unfold env_keys. rewrite elem_of_list_to_set, list_elem_of_omap. split.
  - intros (item & Hin & Hk) E. apply fmap_Some in Hk as ([k v] & Ec & ->). cbn in E.
    assert (v ∈ omap (env_entry k) base) as Hv; [|rewrite E in Hv; by apply elem_of_nil in Hv].
    apply list_elem_of_omap. exists item. split; [done|]. unfold env_entry. rewrite Ec. cbn. by rewrite String.eqb_refl.
  - intros H. destruct (omap _ base) as [|v l] eqn:E; [done|]. assert (v ∈ omap (env_entry key) base) as Hv by (rewrite E; by left).
    apply list_elem_of_omap in Hv as (item & Hin & Hk). exists item. split; [done|]. unfold env_entry in Hk.
    destruct (Cut item "=") as [[k w]|]; [|done]. cbn in Hk |- *. destruct (String.eqb_spec k key) as [->|]; [done|done].
Qed.

Lemma merged_entries extra base key :
  omap (env_entry key) (map (merge_item extra) base) =
    match extra !! key with Some v => map (fun _ => v) (omap (env_entry key) base) | None => omap (env_entry key) base end.
Proof.
  induction base as [|item base IH]; [by destruct (extra !! key)|]. cbn. rewrite merge_item_entry.
  destruct (env_entry key item) as [v|]; rewrite IH; by destruct (extra !! key).
Qed.
Lemma added_entries extra (keys : gset string) key x : (forall k, is_Some (extra !! k) -> Cut k "=" = None) ->
  x ∈ omap (env_entry key) (map (fun kv => kv.1 +:+ "=" +:+ kv.2) (filter (fun kv => kv.1 ∉ keys) (map_to_list extra))) <->
  extra !! key = Some x /\ key ∉ keys.
Proof.
  intros Hk. rewrite list_elem_of_omap. split.
  - intros (item & Hin & He). apply list_elem_of_fmap in Hin as ([k v] & -> & Hin). apply list_elem_of_filter in Hin as [Hn Hin].
    apply elem_of_map_to_list in Hin. cbn in He, Hn. rewrite env_entry_pair in He by (apply Hk; by eexists).
    destruct (String.eqb_spec k key) as [->|]; [|done]. by injection He as <-.
  - intros [He Hn]. exists (key +:+ "=" +:+ x). split.
    + apply list_elem_of_fmap. exists (key, x). split; [done|]. apply list_elem_of_filter. split; [done|]. by apply elem_of_map_to_list.
    + rewrite env_entry_pair by (apply Hk; by eexists). by rewrite String.eqb_refl.
Qed.

(** The agent's environment.  A process that is started with the merged environment finds
    every variable of the plan with the plan's value, also one that was set before or set
    twice, and every other variable as it was. *)
Theorem merged_environment base extra key : (forall k, is_Some (extra !! k) -> Cut k "=" = None) ->
  env_get (mergeEnv base extra) key = match extra !! key with Some v => Some v | None => env_get base key end.
Proof.
  intros Hk. unfold env_get, mergeEnv. rewrite omap_app, merged_entries.
  pose proof (fun x => added_entries extra (env_keys base) key x Hk) as Ha. destruct (extra !! key) as [v|] eqn:Ev.
  - apply last_const.
    + destruct (decide (key ∈ env_keys base)) as [Hin|Hn].
      * apply env_keys_entry in Hin. by destruct (omap _ base).
      * assert (v ∈ omap (env_entry key) (map (fun kv => kv.1 +:+ "=" +:+ kv.2)
          (filter (fun kv => kv.1 ∉ env_keys base) (map_to_list extra)))) as Hv by by apply Ha.
        intros E. apply app_eq_nil in E as [_ E]. rewrite E in Hv. by apply elem_of_nil in Hv.
    + apply Forall_app. split; apply Forall_forall; intros x Hx; [by apply list_elem_of_fmap in Hx as (? & -> & _)|].
      apply Ha in Hx as [Hx _]. by injection Hx.
  - match goal with |- last (_ ++ ?l0) = _ => destruct l0 as [|x l] eqn:E end; [by rewrite app_nil_r|].
    assert (x ∈ x :: l) as Hx by by left. by apply Ha in Hx as [? _].
Qed.

(** ** The plan and the gateway *)

Lemma select_inv cfg inboundName clientName agent client :
  selectLauncherClient cfg inboundName clientName agent = Ok client ->
  exists i b resolved, i ∈ cfg_Inbounds cfg /\ inbound_wanted inboundName agent i = true /\ b ∈ in_Clients i /\
    find_named cs_Name (cb_Ref b) (cfg_Clients cfg) = Some resolved /\
    client = mkLauncherClient (in_Name i) (cs_Name resolved) (cs_Token resolved) (cb_Tag b).
Proof.
  unfold selectLauncherClient. intros H. assert (client ∈ launcher_matches cfg inboundName clientName agent) as Hin.
  { destruct (launcher_matches _ _ _ _) as [|c [|]]; [done| |done]. injection H as ->. by left. }
  unfold launcher_matches in Hin. apply list_elem_of_bind in Hin as (i & Hin & Hi). apply list_elem_of_bind in Hin as (b & Hin & Hb).
  apply list_elem_of_In, filter_In in Hi as [Hi Hw]. unfold ResolveClientBinding, FindClient in Hin.
  destruct (find_named cs_Name (cb_Ref b) (cfg_Clients cfg)) as [resolved|] eqn:E; [|by apply elem_of_nil in Hin]. cbn in Hin.
  destruct (_ && _); [by apply elem_of_nil in Hin|]. apply list_elem_of_singleton in Hin.
  exists i, b, resolved. split; [by apply list_elem_of_In|]. by split_and!.
Qed.

Section serves.
Context (tzdb : string -> option Location) (ParseURL : string -> option (string * string)) (c c' : Config)
  (Hvalid : Validate tzdb ParseURL c = (Ok tt, c')) (Hnames : NoDup (map in_Name (cfg_Inbounds c'))).

Lemma declared_inbound i : i ∈ cfg_Inbounds c' -> InboundByName c' (in_Name i) = i.
Proof.
  intros Hi. unfold InboundByName. change (find _ _) with (find_named in_Name (in_Name i) (cfg_Inbounds c')).
  by rewrite (find_named_NoDup in_Name).
Qed.
Lemma inbounds_named i : i ∈ cfg_Inbounds c' -> in_Name i <> "" /\ NoDup (map cb_Ref (in_Clients i)).
Proof.
  intros Hi. destruct (Validate_inv _ _ _ _ Hvalid) as (names & tokens & inputs & tags & _ & Hin & _).
  apply validate_inbounds_ok in Hin as [Hin _]. rewrite Forall_forall in Hin. by destruct (Hin i Hi) as (? & _ & ? & _).
Qed.
Lemma listener_serves l i : i ∈ cfg_Inbounds c' -> in_Name i ∈ ls_Inbounds l -> i ∈ ListenerInbounds c' l.
Proof.
  intros Hi Hl. apply list_elem_of_In, filter_In. split.
  - apply in_map_iff. exists (in_Name i). split; [by apply declared_inbound|by apply list_elem_of_In].
  - apply inbounds_named in Hi as [Hi _]. by rewrite (proj2 (String.eqb_neq _ _) Hi).
Qed.
Lemma listener_declared l i : i ∈ ListenerInbounds c' l -> i ∈ cfg_Inbounds c'.
Proof.
  intros H. apply list_elem_of_In, filter_In in H as [H Hn]. apply in_map_iff in H as (n & <- & _).
  unfold InboundByName in *. destruct (find _ _) as [x|] eqn:E; [|done]. by apply find_some in E as [E _]; apply list_elem_of_In.
Qed.

(** The first binding of an inbound whose client has the token is the only one. *)
Lemma session_client app rt l i b client r :
  i ∈ ListenerInbounds c' l -> b ∈ in_Clients i -> find_named cs_Name (cb_Ref b) (cfg_Clients c') = Some client ->
  bearerToken (hr_Header r "Authorization") = cs_Token client ->
  matchSessionClient (runtime_state app c' rt l) r (in_Name i) = Some (i, mkResolvedClientBinding client b).
Proof.
  intros Hi Hb Hc Hr. destruct (Validate_inv _ _ _ _ Hvalid) as (names & tokens & inputs & tags & Hcl & _).
  apply validate_clients_ok in Hcl as [Hn Ht _ _ Heach]. unfold matchSessionClient. rewrite Hr.
  destruct (find_named_Some cs_Name _ _ _ Hc) as [Hcin Hcn]. rewrite Forall_forall in Heach.
  destruct (Heach client Hcin) as (_ & Hct & _). rewrite (proj2 (String.eqb_neq _ _) Hct).
  pose proof (listener_declared _ _ Hi) as Hd. destruct (inbounds_named i Hd) as [Hin Hrefs].
  rewrite (proj2 (String.eqb_neq _ _) Hin). cbn [orb rs_Inbounds rs_Clients runtime_state ApplyRuntime].
  assert (find_named in_Name (in_Name i) (ListenerInbounds c' l) = Some i) as ->.
  { destruct (find_named _ _ (ListenerInbounds c' l)) as [x|] eqn:E.
    - apply find_named_Some in E as [Hx En]. f_equal. eapply (NoDup_map_inj in_Name); [exact Hnames| |exact Hd|exact En].
      by eapply listener_declared.
    - apply list_elem_of_In in Hi. apply (find_none _ _ E) in Hi. by rewrite String.eqb_refl in Hi. }
  cbn. destruct (List.find _ _) as [rb|] eqn:E; cbn.
  - apply find_some in E as [Hin' E%String.eqb_eq]. apply list_elem_of_In, elem_of_resolved in Hin' as [Hb' Hf].
    destruct (find_named_Some cs_Name _ _ _ Hf) as [Hf1 Hf2]. do 2 f_equal.
    assert (rcb_Client rb = client) as Ec by (by eapply (NoDup_map_inj cs_Token)).
    assert (rcb_Binding rb = b) as Eb by (eapply (NoDup_map_inj cb_Ref); [exact Hrefs|done|done|by rewrite <-Hf2, Ec]).
    by destruct rb; cbn in *; subst.
  - assert (mkResolvedClientBinding client b ∈ ResolveInboundClients
      (clients_config (cfg_Clients c') (ListenerInbounds c' l)) i) as Hin'%list_elem_of_In by by apply elem_of_resolved.
    apply (find_none _ _ E) in Hin'. unfold has_token in Hin'. cbn in Hin'. by rewrite String.eqb_refl in Hin'.
Qed.

Lemma listener_url_inv listeners n url : listener_url listeners n = Ok url ->
  exists l, l ∈ listeners /\ launcherBaseURLFromListen (ls_Listen l) = Ok url /\ n ∈ ls_Inbounds l.
Proof.
  unfold listener_url. intros H. destruct (List.filter _ listeners) as [|l [|]] eqn:Ef; [done| |done]. exists l.
  assert (In l (List.filter (fun l => existsb (String.eqb n) (ls_Inbounds l)) listeners)) as Hl by (rewrite Ef; by left).
  apply filter_In in Hl as [Hl Hn]. split; [by apply list_elem_of_In|]. split; [exact H|].
  apply existsb_exists in Hn as (m & Hn & ->%String.eqb_eq). by apply list_elem_of_In.
Qed.
(** The listener whose address is inferred serves the inbound that is selected. *)
Lemma inferred_listener load path inboundName clientName agent url client :
  load path = Ok c' -> inferLauncherBaseURL load path inboundName clientName agent = Ok url ->
  selectLauncherClient c' inboundName clientName agent = Ok client ->
  exists l, l ∈ normalizedListeners c' /\ launcherBaseURLFromListen (ls_Listen l) = Ok url /\ lc_InboundName client ∈ ls_Inbounds l.
Proof.
  intros Hload Hurl Hsel. destruct (select_inv _ _ _ _ _ Hsel) as (i & b & resolved & Hi & Hw & _ & _ & Ec).
  unfold inferLauncherBaseURL, load_config in Hurl. rewrite Hload in Hurl. cbn in Hurl. unfold normalizedListeners.
  destruct (cfg_Listeners c') as [|l0 ls] eqn:El.
  - eexists. split; [by left|]. split; [exact Hurl|]. rewrite Ec. cbn. apply list_elem_of_fmap_2, Hi.
  - apply bind_Ok in Hurl as (selected & Hs & Hurl). assert (selected = lc_InboundName client) as ->.
    { unfold infer_inbound in Hs. destruct (String.eqb_spec inboundName "") as [->|Hne].
      - rewrite Hsel in Hs. by injection Hs.
      - destruct (existsb _ _); [|done]. injection Hs as <-. rewrite Ec. cbn. unfold inbound_wanted in Hw.
        rewrite (proj2 (String.eqb_neq _ _) Hne) in Hw. by apply String.eqb_eq in Hw. }
    by apply listener_url_inv.
Qed.

(** C20: the launcher and the gateway agree.  When the launcher infers the address and takes the
    token from the configuration file, and the gateway serves this file, then the address is
    that of a listener, and with the token of the plan that listener accepts requests on the
    inbound's path as the client of the plan, and sessions of the inbound as this client's,
    with the tag of the plan.  It needs two things that a validated configuration may lack:
    inbounds of distinct names (the launcher asks for an inbound by its name, and the
    gateway serves the first one of it), and a token without blanks at its ends (the
    gateway trims the header, so that no request has such a token: [spaced_token_refused]). *)
Theorem launch_reaches_client load path inboundName clientName agent args print url plan :
  load path = Ok c' -> inferLauncherBaseURL load path inboundName clientName agent = Ok url ->
  buildLaunchPlan load (mkLauncherOptions path url clientName inboundName "" print (agent :: args)) = Ok plan ->
  let client := lp_Client plan in
  TrimSpace (lc_Token client) = lc_Token client ->
  agent_env agent url (lc_Token client) = Ok (lp_Env plan) /\
  exists l i, l ∈ normalizedListeners c' /\ launcherBaseURLFromListen (ls_Listen l) = Ok url /\
    i ∈ ListenerInbounds c' l /\ in_Name i = lc_InboundName client /\
    forall app rt r, hr_Header r "Authorization" = "Bearer " +:+ lc_Token client ->
    let s := runtime_state app c' rt l in
    (exists i' rb, match_state s (in_Path i) (bearerToken (hr_Header r "Authorization")) = Some (i', rb) /\
       cs_Name (rcb_Client rb) = lc_ClientName client) /\
    (exists rb, matchSessionClient s r (lc_InboundName client) = Some (i, rb) /\
       cs_Name (rcb_Client rb) = lc_ClientName client /\ cb_Tag (rcb_Binding rb) = lc_Tag client).
Proof.
  intros Hload Hurl Hplan. cbv zeta. unfold buildLaunchPlan in Hplan. cbn [lo_Args lo_Token lo_ConfigPath lo_Inbound lo_Client lo_BaseURL] in Hplan.
  apply bind_Ok in Hplan as (client & Hsel & Hplan). unfold load_config in Hsel. rewrite Hload in Hsel. cbn in Hsel.
  destruct (lc_Token client == ""); [done|]. destruct (_ && _); [done|]. apply bind_Ok in Hplan as (env & Henv & [= <-]). cbn [lp_Client lp_Env].
  intros Htrim. split; [exact Henv|].
  destruct (inferred_listener _ _ _ _ _ _ _ Hload Hurl Hsel) as (l & Hl & Hlisten & Hserve).
  destruct (select_inv _ _ _ _ _ Hsel) as (i & b & resolved & Hi & _ & Hb & Hres & Ec).
  assert (in_Name i = lc_InboundName client) as Hname by by rewrite Ec.
  pose proof (listener_serves l i Hi ltac:(by rewrite Hname)) as Hli.
  exists l, i. split_and!; try done. intros app rt r Hr.
  assert (bearerToken (hr_Header r "Authorization") = lc_Token client) as Hbt.
  { rewrite Hr. unfold bearerToken, TrimPrefix. change (HasPrefix ("Bearer " +:+ ?t) "Bearer ") with true. exact Htrim. }
  destruct (find_named_Some cs_Name _ _ _ Hres) as [Hrin Hrn]. split.
  - rewrite Hbt. assert (cs_Token resolved = lc_Token client) as Ht by by rewrite Ec.
    destruct (match_inbound_found (clients_config (cfg_Clients c') []) (in_Path i) (lc_Token client) (ListenerInbounds c' l) i
      (mkResolvedClientBinding resolved b)) as [[i' rb] Em]; [done|done|by apply elem_of_resolved|done|].
    exists i', rb. split; [exact Em|]. apply match_inbound_Some in Em as (_ & _ & Hrb & Htok).
    apply elem_of_resolved in Hrb as [_ [Hf _]%find_named_Some].
    destruct (Validate_inv _ _ _ _ Hvalid) as (names & tokens & inputs & tags & Hcl & _). apply validate_clients_ok in Hcl as [_ Htokens _ _ _].
    rewrite Ec. cbn. f_equal. by eapply (NoDup_map_inj cs_Token); [exact Htokens| | |rewrite Htok, <-Ht].
  - exists (mkResolvedClientBinding resolved b). rewrite <-Hname. split; [|by rewrite Ec].
    apply session_client; [done..|]. by rewrite Hbt, Ec.
Qed.
End serves.

(** ** The reporter and the gateway *)

Lemma exec_bind {C : Type -> Type} {E St A B} (observe : forall X, C X -> X -> E) (answer : forall X, C X -> St -> St * X)
    (p : prog C A) (f : A -> prog C B) s :
  exec observe answer (p ≫= f) s =
    let '(s1, tr1, a) := exec observe answer p s in let '(s2, tr2, b) := exec observe answer (f a) s1 in (s2, tr1 ++ tr2, b).
Proof.
  revert s. induction p as [a|X c k IH]; intros s; cbn; [by destruct (exec _ _ (f a) s) as [[]]|].
  destruct (answer X c s) as [s' x]. specialize (IH x s'). cbn in IH. rewrite IH. destruct (exec _ _ (k x) s') as [[s1 tr1] a].
  by destruct (exec _ _ (f a) s1) as [[]].
Qed.

Section reporter_facts.
Context (time_json : Time -> string) (s : RuntimeState) (now : Time) (host : string * string * string * TmuxInfo).
Context (opts : launcherOptions) (plan : launchPlan) (sessionID : string).
Abbreviation me := (lp_Client plan).

Definition session_op (body : sessionBody) : session_request :=
  match body with
  | BodyRegister q => SRegister (Ok q)
  | BodyHeartbeat q => SHeartbeat (Ok q)
  | BodyHookEvent q => SHook (Ok q)
  | BodyStopped q => SStopped (Ok q)
  end.
Definition session_post (token path : string) : httpRequest :=
  mkHTTPRequest "POST" path (fun name => if name == "Authorization" then "Bearer " +:+ token else "") (Some "").
(** The gateway answers every request; nothing is cancelled. *)
Definition gateway_answer (B : Type) (c : launchCall B) (st : Store) : Store * B :=
  match c in launchCall B return Store * B with
  | LPost _ token body =>
      let '(r, st) := serve_session time_json s (session_post token (session_path body)) now now (session_op body) st in
      (st, Ok (rp_Status r))
  | LSessionID => (st, sessionID)
  | LExecutable => (st, None)
  | LWriteSettings _ => (st, Ok "settings")
  | LRemove _ => (st, tt)
  | LEnviron => (st, [])
  | LRun _ _ _ => (st, None)
  | LStart _ _ _ => (st, Ok 1)
  | LWait => (st, (None, 0))
  | LNow => (st, now)
  | LHost => (st, host)
  | LTick => (st, tt)
  | LCancel => (st, tt)
  | LCancelled => (st, false)
  | LLog _ _ _ _ => (st, tt)
  | LPrint _ => (st, tt)
  end.

Context (Hid : sessionID <> "") (Hinbound : lc_InboundName me <> "").
(** The binding that the gateway finds for the launcher's token, whatever the path *)
Definition binding_of_token : option (InboundSpec * ResolvedClientBinding) :=
  matchSessionClient s (session_post (lc_Token me) "") (lc_InboundName me).

(** *** A tick that is refused *)

(** The gateway refuses what the token asks for the session, and keeps its store. *)
Definition refuses (status : Z) (st : Store) (body : sessionBody) : Prop :=
  forall url, gateway_answer _ (LPost url (lc_Token me) body) st = (st, Ok status).

Definition own_register (q : sessionRegisterRequest) : Prop :=
  srr_SessionID q = sessionID /\ srr_InboundName q = lc_InboundName me /\ srr_ClientName q = lc_ClientName me /\
  srr_HeartbeatCapability q = HeartbeatCapabilityV1.
Abbreviation own_heartbeat := (mkSessionHeartbeatRequest sessionID (lc_InboundName me)).

Lemma exec_register_refused status pid startedAt st : 300 <= status ->
  (forall q, own_register q -> refuses status st (BodyRegister q)) ->
  exists tr, exec launch_observe gateway_answer (registerClaudeSession opts plan sessionID pid startedAt) st =
    (st, tr, Some (SessionHTTPError "/session/register" status)).
Proof.
  intros Hs Hr. unfold registerClaudeSession, postSessionJSON. rewrite exec_bind.
  change (exec launch_observe gateway_answer (perform LHost) st) with (st, [launch_observe _ LHost host], host).
  destruct host as [[[h cwd] branch] tmux]. set (q := mkSessionRegisterRequest _ _ _ _ _ _ _ _ _ _ _ _).
  specialize (Hr q ltac:(done) (trim_slashes (lo_BaseURL opts) +:+ "/session/register")).
  eexists. cbn [session_path exec mbind prog_bind prog_bind' perform mret prog_ret]. rewrite Hr.
  assert ((status <? 200) || (300 <=? status) = true) as -> by (apply orb_true_iff; lia). reflexivity.
Qed.
Lemma exec_heartbeat_refused status st : 300 <= status -> refuses status st (BodyHeartbeat own_heartbeat) ->
  exists tr, exec launch_observe gateway_answer (heartbeatClaudeSession opts plan sessionID) st =
    (st, tr, Some (SessionHTTPError "/session/heartbeat" status)).
Proof.
  intros Hs Hr. specialize (Hr (trim_slashes (lo_BaseURL opts) +:+ "/session/heartbeat")).
  unfold heartbeatClaudeSession, postSessionJSON. eexists.
  cbn [session_path exec mbind prog_bind prog_bind' perform mret prog_ret]. rewrite Hr.
  assert ((status <? 200) || (300 <=? status) = true) as -> by (apply orb_true_iff; lia). reflexivity.
Qed.

(** A tick whose requests are refused changes nothing, and the reporter takes the session for
    registered only if it did and the gateway has not said that it does not know it. *)
Lemma tick_refused rstatus hstatus pid startedAt registered st : 300 <= rstatus -> 300 <= hstatus ->
  (forall q, own_register q -> refuses rstatus st (BodyRegister q)) -> refuses hstatus st (BodyHeartbeat own_heartbeat) ->
  exists tr, exec launch_observe gateway_answer (reporter_tick opts plan sessionID pid startedAt registered) st =
    (st, tr, registered && negb (hstatus =? 404)).
Proof.
  intros Hr Hh Hreg Hheart.
  destruct (exec_register_refused rstatus pid startedAt st Hr Hreg) as [tr1 E1].
  destruct (exec_heartbeat_refused hstatus st Hh Hheart) as [tr2 E2]. unfold reporter_tick.
  destruct registered; cbn [negb andb].
  - rewrite exec_bind, E2. cbv beta iota. rewrite exec_bind.
    change (exec launch_observe gateway_answer (perform LCancelled) st) with (st, [launch_observe _ LCancelled false], false).
    cbv beta iota. destruct (Z.eqb_spec hstatus 404) as [->|Hne].
    + rewrite exec_bind, E1. eexists. reflexivity.
    + assert (forall (x y : launch bool), match hstatus with 404 => x | _ => y end = y) as Hmatch.
      { intros x y. destruct hstatus as [|p|p]; try done. do 9 (destruct p as [p|p|]; try done). }
      rewrite Hmatch. eexists. reflexivity.
  - rewrite exec_bind, E1. eexists. reflexivity.
Qed.

Lemma refused_without_binding st : binding_of_token = None ->
  (forall q, own_register q -> refuses 401 st (BodyRegister q)) /\ refuses 401 st (BodyHeartbeat own_heartbeat).
Proof.
  intros Hm. split.
  - intros q (Hq & Hi & Hc & Hcap) url. unfold gateway_answer, serve_session, handleSessionRegister, with_client.
    cbn [session_op hr_Method session_post]. change ("POST" != MethodPost) with false. cbn iota.
    unfold register_missing. rewrite Hq, Hi, Hcap, (proj2 (String.eqb_neq _ _) Hid), (proj2 (String.eqb_neq _ _) Hinbound). cbn.
    by change (matchSessionClient _ _ _) with binding_of_token; rewrite Hm.
  - intros url. unfold gateway_answer, serve_session, handleSessionHeartbeat, with_client.
    cbn [session_op hr_Method session_post]. change ("POST" != MethodPost) with false. cbn iota. unfold ids_missing.
    cbn [shb_SessionID shb_InboundName].
    rewrite (proj2 (String.eqb_neq _ _) Hid), (proj2 (String.eqb_neq _ _) Hinbound). cbn.
    by change (matchSessionClient _ _ _) with binding_of_token; rewrite Hm.
Qed.

(** *** A tick that is accepted *)

Section accepted.
Context (i : InboundSpec) (rb : ResolvedClientBinding)
  (Hmatch : binding_of_token = Some (i, rb)) (Hclient : lc_ClientName me = cs_Name (rcb_Client rb)).

(** The gateway has the session as one of another client or inbound. *)
Definition foreign_session (st : Store) : Prop :=
  exists e, st_sessions st !! sessionID = Some e /\ owner e <> (cs_Name (rcb_Client rb), in_Name i).
(** The session, if the gateway has it, is this launcher's, as it registers it. *)
Definition own_session (st : Store) : Prop :=
  forall e, st_sessions st !! sessionID = Some e ->
  owner e = (cs_Name (rcb_Client rb), in_Name i) /\ sn_HeartbeatCapability e = HeartbeatCapabilityV1.
(** The gateway has the session, with a fresh lease unless it is stopped; all other
    sessions are as in [st]. *)
Definition reported (st st' : Store) : Prop :=
  (exists e, st_sessions st' !! sessionID = Some e /\ owner e = (cs_Name (rcb_Client rb), in_Name i) /\
     (stopped e = false /\ sn_LeaseExpiresAt e = Some (Add now DefaultLeaseTTL) \/
      stopped e = true /\ st_sessions st !! sessionID = Some e)) /\
  forall id, id <> sessionID -> st_sessions st' !! id = st_sessions st !! id.

Lemma match_any_path path : matchSessionClient s (session_post (lc_Token me) path) (lc_InboundName me) = Some (i, rb).
Proof. exact Hmatch. Qed.
Lemma reported_set st e : owner e = (cs_Name (rcb_Client rb), in_Name i) -> stopped e = false ->
  sn_LeaseExpiresAt e = Some (Add now DefaultLeaseTTL) -> reported st (setSessionLocked st sessionID e).
Proof.
  intros Ho Hs Hl. split; [exists e; rewrite set_sessions, lookup_insert_eq; split_and!; auto|].
  intros id Hne. by rewrite set_sessions, lookup_insert_ne.
Qed.

Lemma register_answered url q st : own_session st -> own_register q ->
  exists st', gateway_answer _ (LPost url (lc_Token me) (BodyRegister q)) st = (st', Ok 200) /\ reported st st'.
Proof.
  intros Hown (Hq & Hi & Hc & Hcap). unfold gateway_answer, serve_session, handleSessionRegister, with_client. cbn [session_op hr_Method session_post].
  change ("POST" != MethodPost) with false. cbn iota. unfold register_missing. rewrite Hq, Hi, Hcap.
  rewrite (proj2 (String.eqb_neq _ _) Hid), (proj2 (String.eqb_neq _ _) Hinbound). cbn.
  rewrite match_any_path, Hc, Hclient, String.eqb_refl, andb_false_r. set (reg := registration q i rb).
  assert (id_ID (sn_identity reg) = sessionID) as Eid by done.
  assert (owner reg = (cs_Name (rcb_Client rb), in_Name i)) as Eo by done.
  assert (sn_HeartbeatCapability reg = HeartbeatCapabilityV1) as Ecap by done.
  assert (sn_Status reg = StatusUnknown) as Est by done. clearbody reg. unfold Sessions.Register. rewrite Eid.
  destruct (st_sessions st !! sessionID) as [e|] eqn:E.
  - destruct (Hown e E) as [He _]. assert (owned e (id_ClientName (sn_identity reg)) (id_InboundName (sn_identity reg)) = true) as ->.
    { apply owned_owner. rewrite He, <-Eo. done. }
    cbn [negb]. destruct (stopped e) eqn:Es.
    + eexists. split; [reflexivity|]. split; [|done]. exists e. split; [done|]. split; [done|]. by right.
    + eexists. split; [reflexivity|]. apply reported_set.
      * unfold owner. rewrite registered_identity. exact Eo.
      * apply stopped_false. apply stopped_false in Es. cbn. by destruct (sn_Status e).
      * cbn. rewrite Ecap. cbn. by rewrite andb_false_r.
  - eexists. split; [reflexivity|]. apply reported_set.
    + exact Eo.
    + apply stopped_false. cbn. by rewrite Est.
    + cbn. by rewrite Ecap.
Qed.
Lemma heartbeat_answered url st : own_session st ->
  exists st' status, gateway_answer _ (LPost url (lc_Token me) (BodyHeartbeat (mkSessionHeartbeatRequest sessionID (lc_InboundName me)))) st
      = (st', Ok status) /\
    (status = 200 /\ reported st st' \/ status = 404 /\ st' = st).
Proof.
  intros Hown. unfold gateway_answer, serve_session, handleSessionHeartbeat, with_client. cbn [session_op hr_Method session_post].
  change ("POST" != MethodPost) with false. cbn iota. unfold ids_missing. cbn [shb_SessionID shb_InboundName].
  rewrite (proj2 (String.eqb_neq _ _) Hid), (proj2 (String.eqb_neq _ _) Hinbound). cbn. rewrite match_any_path.
  unfold Heartbeat, GetOwned. destruct (st_sessions st !! sessionID) as [e|] eqn:E; cbn; [|eexists _, _; split; [reflexivity|by right]].
  destruct (Hown e E) as [He Hcap]. rewrite (proj2 (owned_owner _ _ _) He). cbn.
  destruct (stopped e) eqn:Es.
  - eexists _, _. split; [reflexivity|]. left. split; [done|]. split; [|done]. exists e. split; [done|]. split; [done|]. by right.
  - rewrite Hcap. cbn. eexists _, _. split; [reflexivity|]. left. split; [done|]. apply reported_set; [exact He| |reflexivity].
    apply stopped_false. apply stopped_false in Es. cbn. by destruct (sn_RecoveryPending e).
Qed.

Lemma exec_register pid startedAt st : own_session st ->
  exists st' tr, exec launch_observe gateway_answer (registerClaudeSession opts plan sessionID pid startedAt) st = (st', tr, None) /\
    reported st st'.
Proof.
  intros Hown. unfold registerClaudeSession, postSessionJSON. rewrite exec_bind.
  change (exec launch_observe gateway_answer (perform LHost) st) with (st, [launch_observe _ LHost host], host).
  destruct host as [[[h cwd] branch] tmux]. set (q := mkSessionRegisterRequest _ _ _ _ _ _ _ _ _ _ _ _).
  destruct (register_answered (trim_slashes (lo_BaseURL opts) +:+ "/session/register") q st Hown) as (st' & E & Hrep); [done..|].
  eexists st', _. split; [|exact Hrep]. cbn [session_path exec mbind prog_bind prog_bind' perform mret prog_ret]. rewrite E. reflexivity.
Qed.

Lemma exec_heartbeat st : own_session st ->
  exists st' tr e, exec launch_observe gateway_answer (heartbeatClaudeSession opts plan sessionID) st = (st', tr, e) /\
    (e = None /\ reported st st' \/ e = Some (SessionHTTPError "/session/heartbeat" 404) /\ st' = st).
Proof.
  intros Hown. destruct (heartbeat_answered (trim_slashes (lo_BaseURL opts) +:+ "/session/heartbeat") st Hown) as (st' & status & E & H).
  unfold heartbeatClaudeSession, postSessionJSON. cbn [session_path exec mbind prog_bind prog_bind' perform mret prog_ret]. rewrite E.
  eexists _, _, _. split; [reflexivity|]. destruct H as [[-> H]|[-> ->]]; [by left|by right].
Qed.

Lemma refused_foreign st : foreign_session st ->
  (forall q, own_register q -> refuses 409 st (BodyRegister q)) /\ refuses 404 st (BodyHeartbeat own_heartbeat).
Proof.
  intros (e & E & Hforeign).
  assert (owned e (cs_Name (rcb_Client rb)) (in_Name i) = false) as Hno.
  { destruct (owned e _ _) eqn:Eo; [|done]. by apply owned_owner in Eo. }
  split.
  - intros q (Hq & Hi & Hc & Hcap) url. unfold gateway_answer, serve_session, handleSessionRegister, with_client.
    cbn [session_op hr_Method session_post]. change ("POST" != MethodPost) with false. cbn iota.
    unfold register_missing. rewrite Hq, Hi, Hcap, (proj2 (String.eqb_neq _ _) Hid), (proj2 (String.eqb_neq _ _) Hinbound). cbn.
    rewrite match_any_path, Hc, Hclient, String.eqb_refl, andb_false_r. set (reg := registration q i rb).
    assert (id_ID (sn_identity reg) = sessionID) as Eid by done.
    assert (owned e (id_ClientName (sn_identity reg)) (id_InboundName (sn_identity reg)) = false) as Hno' by exact Hno.
    clearbody reg. unfold Sessions.Register. by rewrite Eid, E, Hno'.
  - intros url. unfold gateway_answer, serve_session, handleSessionHeartbeat, with_client.
    cbn [session_op hr_Method session_post]. change ("POST" != MethodPost) with false. cbn iota. unfold ids_missing.
    cbn [shb_SessionID shb_InboundName].
    rewrite (proj2 (String.eqb_neq _ _) Hid), (proj2 (String.eqb_neq _ _) Hinbound). cbn. rewrite match_any_path.
    unfold Heartbeat, GetOwned. rewrite E. cbn. by rewrite Hno.
Qed.

Lemma tick_accepted pid startedAt registered st : own_session st ->
  exists st' tr, exec launch_observe gateway_answer (reporter_tick opts plan sessionID pid startedAt registered) st =
    (st', tr, true) /\ reported st st'.
Proof.
  intros Hown. destruct (exec_register pid startedAt st Hown) as (st2 & tr & E2 & Hrep). unfold reporter_tick.
  destruct registered; cbn [negb]; rewrite exec_bind; [|rewrite E2; by eexists _, _].
  destruct (exec_heartbeat st Hown) as (st1 & tr1 & e & E1 & Hst). rewrite E1. destruct Hst as [[-> H]|[-> ->]]; [by eexists _, _|].
  cbv beta iota. rewrite exec_bind. change (exec launch_observe gateway_answer (perform LCancelled) st) with (st, [launch_observe _ LCancelled false], false).
  cbv beta iota. rewrite exec_bind, E2. by eexists _, _.
Qed.
End accepted.

(** C31: what the gateway knows of the session after a tick that it answers.  The launcher has
    a session identifier and an inbound.  When the gateway binds the launcher's token on this
    inbound to the client that the launcher is of, and its store has the session as this
    launcher registers it, or does not have it (after a restart, or because it was never
    registered), then whether or not the reporter has managed to register before, the session
    is in the store afterwards with a lease from now on, or was stopped already, the reporter
    takes it for registered, and no other session is touched.  A session of this identifier
    that is another client's or of another inbound stays as it is with all others, and the
    reporter knows that it is not registered; and so is a gateway that refuses the token left
    as it was. *)
Theorem tick_reports pid startedAt registered st :
  let '(st', tr, registered') :=
    exec launch_observe gateway_answer (reporter_tick opts plan sessionID pid startedAt registered) st in
  match binding_of_token with
  | Some (i, rb) =>
      lc_ClientName me = cs_Name (rcb_Client rb) ->
      (own_session i rb st -> registered' = true /\ reported i rb st st') /\
      (foreign_session i rb st -> registered' = false /\ st' = st)
  | None => registered' = registered /\ st' = st
  end.
Proof.
  destruct binding_of_token as [[i rb]|] eqn:Em.
  - destruct (exec _ _ _ _) as [[st' tr] registered'] eqn:E. intros Hc. split.
    + intros Hown. destruct (tick_accepted i rb Em Hc pid startedAt registered st Hown) as (st1 & tr1 & E1 & H).
      rewrite E1 in E. by injection E as <- <- <-.
    + intros Hf. destruct (refused_foreign i rb Em Hc st Hf) as [Hr Hh].
      destruct (tick_refused 409 404 pid startedAt registered st) as [tr1 E1]; [done..|].
      rewrite E1, andb_false_r in E. by injection E as <- <- <-.
  - destruct (refused_without_binding st Em) as [Hr Hh].
    destruct (tick_refused 401 401 pid startedAt registered st) as [tr1 E1]; [done..|].
    rewrite E1. by rewrite andb_true_r.
Qed.
End reporter_facts.

(** ** Witnesses and examples *)

Definition witness_load (path : string) : result string Config := Ok witness_config'.
Definition witness_options : launcherOptions :=
  mkLauncherOptions "c.yaml" "http://127.0.0.1:8080" "" "chat" "" false ["codex"; "exec"].
Definition witness_plan : launchPlan :=
  mkLaunchPlan "codex" ["exec"] {["OPENAI_BASE_URL" := "http://127.0.0.1:8080"; "OPENAI_API_KEY" := "t1"]}
    (mkLauncherClient "chat" "alice" "t1" "team").
Example witness_plan_built : buildLaunchPlan witness_load witness_options = Ok witness_plan.
Proof. by vm_compute. Qed.

Lemma exports_read_back_witness :
  buildLaunchPlan witness_load witness_options = Ok witness_plan /\
  Forall2 (fun line key => exists value, lp_Env witness_plan !! key = Some value /\ sh_words line = Some ["export"; key +:+ "=" +:+ value])
    (printShellExports (lp_Env witness_plan)) (sorted_keys (lp_Env witness_plan)).
Proof. split; [exact witness_plan_built|]. exact (proj1 (exports_read_back _ _ _ witness_plan_built)). Defined.
Lemma hook_reaches_event_witness :
  exists command args, sh_words command = Some ("/opt/it's/syrogo" :: "session" :: args) /\ runSession args = SessionEvent "Stop".
Proof.
  destruct (hook_reaches_event "/opt/it's/syrogo" "Stop") as (command & args & _ & H1 & _ & H2); [|by exists command, args].
  refine (bool_decide_eq_true_1 _ _). vm_compute. reflexivity.
Defined.
Lemma merged_environment_witness :
  env_get (mergeEnv ["PATH=/bin"; "OPENAI_API_KEY=old"; "OPENAI_API_KEY=older"] (lp_Env witness_plan)) "OPENAI_API_KEY" = Some "t1".
Proof.
  rewrite (merged_environment _ (lp_Env witness_plan) "OPENAI_API_KEY"); [reflexivity|]. intros k [v Hv].
  cbn in Hv. apply lookup_insert_Some in Hv as [[<- _]|[_ Hv]]; [reflexivity|]. apply lookup_singleton_Some in Hv as [<- _]. reflexivity.
Defined.
Lemma launch_reaches_client_witness :
  exists l i, l ∈ normalizedListeners witness_config' /\ launcherBaseURLFromListen (ls_Listen l) = Ok "http://127.0.0.1:8080" /\
    forall app rt r, hr_Header r "Authorization" = "Bearer t1" ->
    exists rb, matchSessionClient (runtime_state app witness_config' rt l) r "chat" = Some (i, rb) /\ cs_Name (rcb_Client rb) = "alice".
Proof.
  destruct (launch_reaches_client witness_zone witness_url witness_config witness_config' witness_config_valid
    ltac:(refine (bool_decide_eq_true_1 _ _); vm_compute; reflexivity) witness_load "c.yaml" "chat" "" "codex" ["exec"] false
    "http://127.0.0.1:8080" witness_plan eq_refl) as (_ & l & i & Hl & Hu & _ & _ & H).
  - vm_compute. reflexivity.
  - exact witness_plan_built.
  - reflexivity.
  - exists l, i. split; [exact Hl|]. split; [exact Hu|]. intros app rt r Hr. destruct (H app rt r Hr) as [_ (rb & Hm & Hc & _)].
    by exists rb.
Defined.

Definition session_plan : launchPlan := mkLaunchPlan "claude" [] ∅ (mkLauncherClient "in" "client" "t1" "a").
Definition session_host : string * string * string * TmuxInfo := ("host", "/", "main", mkTmuxInfo false "" "" "" "" "").
Abbreviation tick now registered st :=
  (exec launch_observe (gateway_answer (fun _ => "") ex_state now session_host "cc-1")
     (reporter_tick witness_options session_plan "cc-1" 7 0 registered) st).
Definition session_binding : ResolvedClientBinding :=
  mkResolvedClientBinding (mkClientSpec "client" "t1" (mkClientQuotaConfig false [])) (mkClientBindingSpec "client" "a").
(** The gateway has restarted without the session that the reporter has registered. *)
Lemma tick_reports_witness :
  (tick ex_t0 true NewStore).2 = true /\
  exists e, st_sessions (tick ex_t0 true NewStore).1.1 !! "cc-1" = Some e /\ sn_LeaseExpiresAt e = Some (Add ex_t0 DefaultLeaseTTL).
Proof.
  pose proof (tick_reports (fun _ => "") ex_state ex_t0 session_host witness_options session_plan "cc-1"
    ltac:(discriminate) ltac:(discriminate) 7 0 true NewStore) as H.
  destruct (tick ex_t0 true NewStore) as [[st' tr] b] eqn:E.
  change (binding_of_token ex_state session_plan) with (Some (ex_inbound, session_binding)) in H. cbv iota beta in H.
  destruct (H eq_refl) as [H1 _]. destruct H1 as [-> [(e & He & _ & Hs) _]].
  - intros e He. discriminate He.
  - split; [reflexivity|]. exists e. split; [exact He|]. destruct Hs as [[_ Hs]|[_ Hs]]; [exact Hs|discriminate Hs].
Defined.

(** When the machine has slept for longer than the lease, the reaper stops the session:
    from then on the ticks are answered as if all were well, and the session stays stopped. *)
Example slept_session_stays_stopped :
  let st1 := (tick ex_t0 false NewStore).1.1 in
  let st2 := reaper_tick st1 (Add ex_t0 (60 * Second)) in
  let '(st3, _, registered) := tick (Add ex_t0 (61 * Second)) true st2 in
  registered = true /\ (sn_Status <$> st_sessions st3 !! "cc-1") = Some StatusStopped.
Proof. vm_compute. done. Qed.

(** A token with a blank at its end is valid in a configuration, and no request has it. *)
Definition spaced_client : ClientSpec := mkClientSpec "alice" "t1 " (mkClientQuotaConfig false []).
Definition spaced_config : Config :=
  mkConfig (cfg_Server witness_config) (cfg_Listeners witness_config) [spaced_client] (cfg_Inbounds witness_config)
    (cfg_Routing witness_config) (cfg_Outbounds witness_config) (cfg_Accounting witness_config) (cfg_Governance witness_config)
    (cfg_Sessions witness_config) (cfg_OAuth witness_config) (cfg_Admin witness_config).
Example spaced_token_refused :
  let '(r, c) := Validate witness_zone witness_url spaced_config in
  r = Ok tt /\ match_inbound (clients_config (cfg_Clients c) []) "/v1" (bearerToken "Bearer t1 ") (cfg_Inbounds c) = None.
Proof. vm_compute. done. Qed.
