(* ===== verification/Server.v ===== *)
(** * The running program

    Models how the program serves and ends: the HTTP servers of [internal/server/http.go],
    the lock of the session directory ([internal/sessions/instance_lock.go]), the opening
    of its snapshot store ([NewSnapshotStore] of [snapshot_store.go]), the reaper
    ([reaper.go]), [NewWithOptions], [newAccountingStore], [buildListeners] and [Close] of
    [internal/app/app.go], and [run] and the serving part of [runMain] of
    [cmd/syrogo/main.go].

    What it does is a program over its calls to the system.  [AStarted r] marks that the
    part [r] runs from then on, [AClose r] is the call of its [Close] in a shutdown, whose
    context may be over before the part has ended, and [ADrop r] the call with a context
    that is never over.  [AServe] is the time from the start of the servers to the signal or to their
    end; its answer holds the [App] that the reloads left ([Reload]).  The servers of
    [Start] run at the same time: they are a state machine on its own.  The contexts that
    bound a shutdown are part of the answers of the calls. *)

From S2P Require Import Prelude GoStrings GoTime ConfigTypes Sessions ConfigValidate QuotaSnapshot QuotaTracker Accounting AppRuntime Reload LogArchives Program CommandLine.

(** An error: a format with its arguments, or one that wraps another *)
Inductive serverError :=
| SErr (format : string) (args : list string)
| SWrap (format : string) (args : list string) (e : serverError)
| SAppErr (e : appError)
| SFlagErr (e : launchError).
Definition first_error (err closeErr : option serverError) : option serverError :=
  match err with Some _ => err | None => closeErr end.

(** ** HTTP servers *)

Record Listener (Handler : Type) := mkListener { lst_Addr : string; lst_Handler : Handler }.
Arguments mkListener {Handler}. Arguments lst_Addr {Handler}. Arguments lst_Handler {Handler}.
Record httpServer (Handler : Type) := mkHttpServer { hs_Addr : string; hs_Handler : Handler; hs_ReadHeaderTimeout : Duration }.
Arguments mkHttpServer {Handler}. Arguments hs_Addr {Handler}. Arguments hs_Handler {Handler}.
Arguments hs_ReadHeaderTimeout {Handler}.

(** How [ListenAndServe] returns *)
Inductive serveEnd := ServerClosed | ServeFailed (e : string).
Definition serve_error (addr : string) (r : serveEnd) : option serverError :=
  match r with ServerClosed => None | ServeFailed e => Some (SErr "listen and serve %s: %w" [addr; e]) end.

Section http.
Context {Handler : Type}.
Definition HTTPServer : Type := list (httpServer Handler).
Definition Listeners (s : HTTPServer) : list (Listener Handler) := map (fun srv => mkListener (hs_Addr srv) (hs_Handler srv)) s.
Definition NewListeners (listeners : list (Listener Handler)) : HTTPServer :=
  map (fun l => mkHttpServer (lst_Addr l) (lst_Handler l) (5 * Second)) listeners.
Definition NewMulti (listens : list string) (handler : Handler) : HTTPServer :=
  NewListeners (map (fun listen => mkListener listen handler) listens).
Definition New (listen : string) (handler : Handler) : HTTPServer := NewMulti [listen] handler.

(** The servers that have returned, in that order, by their position *)
Definition ended : Type := list (nat * serveEnd).
Inductive start_step (s : HTTPServer) : ended -> ended -> Prop :=
| StartEnds i srv r done : s !! i = Some srv -> i ∉ done.*1 -> start_step s done (done ++ [(i, r)]).
(** What the goroutines have sent to [errCh] *)
Definition errCh (s : HTTPServer) (done : ended) : list serverError :=
  omap (fun '(i, r) => srv ← s !! i; serve_error (hs_Addr srv) r) done.
(** What [Start] has returned, if it has *)
Definition Start (s : HTTPServer) (done : ended) : option (option serverError) :=
  match s with
  | [] => Some (Some (SErr "no http servers configured" []))
  | [srv] => match done with [] => None | (_, r) :: _ => Some (serve_error (hs_Addr srv) r) end
  | _ => if (length done =? length s)%nat then Some (head (errCh s done)) else None
  end.
End http.
Arguments HTTPServer : clear implicits.

(** ** Calls *)

Inductive flockResult := Locked | WouldBlock | FlockFailed (e : string).
Inductive fileCall : Type -> Type :=
| FMkdirAll (dir : string) : fileCall (option string)
| FChmodDir (dir : string) : fileCall (option string)
| FOpen (path : string) : fileCall (result string nat)
| FChmod (fd : nat) : fileCall (option string)
| FLock (fd : nat) : fileCall flockResult
| FUnlock (fd : nat) : fileCall (option string)
| FClose (fd : nat) : fileCall (option string).

(** What is there of the sessions' snapshot *)
Inductive sessionsFile :=
| SessMissing
| SessUnreadable (e : string)
| SessUndecodable (e : string)
| SessFile (version : Z) (snap : sessionSnapshot).
Inductive resource := ResAccounting | ResQuotaSnapshot | ResSessionSnapshot | ResReaper | ResLog.
#[export] Instance resource_eq_dec : EqDecision resource.
Proof. solve_decision. Defined.
Inductive served := Signalled (app : App) | ServersEnded (app : App) (e : option serverError).

(** How the [Close] of a part returns: the part has ended, perhaps with an error of its last
    save; or the context was over first, and what the part runs may go on. *)
Inductive closed := PartEnded (e : option serverError) | CloseTimedOut (e : serverError).
Definition close_error (c : closed) : option serverError :=
  match c with PartEnded e => e | CloseTimedOut e => Some e end.

Inductive appCall : Type -> Type :=
| AFile {B : Type} (c : fileCall B) : appCall B
| AOpenLocalFile (cfg : AccountingLocalFileConfig) : appCall (option string)
| AQuotaDisk : appCall (bool * snapshot_read * Time)
| AReadSessions (dir : string) : appCall sessionsFile
| ANow : appCall Time
| AStarted (r : resource) : appCall unit
| AClose (r : resource) : appCall closed
| ADrop (r : resource) : appCall (option serverError)
| APrint (lines : list string) : appCall (option string)
| AServe (app : App) (servers : HTTPServer RuntimeState) : appCall served
| AShutdown (addr : string) : appCall (option serverError)
| ALoad (path : string) : appCall (result string Config)
| AOpenLog (opts : LogOptions) : appCall (option string)
| AError (message : string) : appCall unit.
Inductive appEvent := AEvent (B : Type) (c : appCall B) (b : B).
Definition app_observe (B : Type) (c : appCall B) (b : B) : appEvent := AEvent B c b.
Abbreviation app := (prog appCall).

(** What follows a call that may fail: [undo] on an error, which [wrap] tells *)
Definition attempt {C : Type -> Type} {A B} (p : prog C (result serverError A)) (undo : prog C unit) (wrap : serverError -> serverError)
    (k : A -> prog C (result serverError B)) : prog C (result serverError B) :=
  r ← p; match r with Ok a => k a | Err e => _ ← undo; mret (Err (wrap e)) end.
Definition failing {C : Type -> Type} (p : prog C (option string)) : prog C (result serverError unit) :=
  e ← p; mret match e with None => Ok tt | Some e => Err (SErr "%w" [e]) end.
(** [fmt.Errorf("format: %w", err)] *)
Definition wrapped (format : string) (e : serverError) : serverError := SWrap format [] e.
Definition unwrapped (e : serverError) : serverError := e.

(** ** The lock of the session directory *)

Definition DefaultSweepInterval : Duration := 5 * Second.
Definition ErrInstanceLocked : string := "session data directory is already in use by another core instance".

Section lock.
Context (filepath_join : string -> string -> string).

Definition nothing {C : Type -> Type} : prog C unit := mret tt.
Definition close_file (fd : nat) : prog fileCall unit := _ ← perform (FClose fd); mret tt.

Definition AcquireInstanceLock (dir : string) : prog fileCall (result serverError nat) :=
  if dir == "" then mret (Err (SErr "session data dir is required" [])) else
  attempt (failing (perform (FMkdirAll dir))) nothing (wrapped "create session data dir: %w") (fun _ =>
  attempt (failing (perform (FChmodDir dir))) nothing (wrapped "secure session data dir: %w") (fun _ =>
  attempt (r ← perform (FOpen (filepath_join dir "core.lock")); mret match r with Ok fd => Ok fd | Err e => Err (SErr "%w" [e]) end)
    nothing (wrapped "open session instance lock: %w") (fun fd =>
  attempt (failing (perform (FChmod fd))) (close_file fd) (wrapped "secure session instance lock: %w") (fun _ =>
  r ← perform (FLock fd);
  match r with
  | Locked => mret (Ok fd)
  | WouldBlock => _ ← close_file fd; mret (Err (SErr "%w: %s" [ErrInstanceLocked; dir]))
  | FlockFailed e => _ ← close_file fd; mret (Err (SWrap "lock session data dir: %w" [] (SErr "%w" [e])))
  end)))).

(** [InstanceLock.Close]: the file that is left of the lock, with the error.  [None] is a
    lock that is nil or closed. *)
Definition CloseLock (lock : option nat) : prog fileCall (option nat * option serverError) :=
  match lock with
  | None => mret (None, None)
  | Some fd =>
      e ← perform (FUnlock fd);
      match e with
      | Some e => _ ← close_file fd; mret (None, Some (SWrap "unlock session data dir: %w" [] (SErr "%w" [e])))
      | None =>
          e ← perform (FClose fd);
          mret (None, match e with Some e => Some (SWrap "close session instance lock: %w" [] (SErr "%w" [e])) | None => None end)
      end
  end.
End lock.

(** A program over files, among the calls of the whole program *)
Fixpoint on_files {A} (p : prog fileCall A) : app A :=
  match p with Ret a => Ret a | Do c k => Do (AFile c) (fun b => on_files (k b)) end.

(** ** The reaper *)

Inductive reaperEvent := ReaperTick (now : Time) | ReaperDone.
(** The loop of the reaper: a sweep at each tick, until it is closed *)
Fixpoint reaper_run (events : list reaperEvent) (st : Store) : Store :=
  match events with
  | ReaperTick now :: events => reaper_run events (reaper_tick st now)
  | ReaperDone :: _ | [] => st
  end.

(** The goroutine and [Close]: the store, whether a tick waits in the channel, whether [done]
    is closed and whether [run] has returned.  [Close] stops the ticker before it closes
    [done]; it returns nil once [run] has returned, or the error of its context. *)
Record Reaper := mkReaper { rp_store : Store; rp_tick : bool; rp_done : bool; rp_returned : bool }.
Definition newReaper (st : Store) : Reaper := mkReaper st false false false.
Inductive reaperStep := RpOp (o : op) | RpTick | RpSweep (now : Time) | RpClose | RpReturn.
Definition reaper_step (r : Reaper) (e : reaperStep) : option Reaper :=
  match e with
  | RpOp o => Some (mkReaper (apply_op (rp_store r) o) (rp_tick r) (rp_done r) (rp_returned r))
  | RpTick => if rp_done r then None else Some (mkReaper (rp_store r) true (rp_done r) (rp_returned r))
  | RpSweep now =>
      if rp_tick r && negb (rp_returned r)
      then Some (mkReaper (reaper_tick (rp_store r) now) false (rp_done r) (rp_returned r)) else None
  | RpClose => if rp_done r then None else Some (mkReaper (rp_store r) (rp_tick r) true (rp_returned r))
  | RpReturn =>
      if rp_done r && negb (rp_returned r) then Some (mkReaper (rp_store r) (rp_tick r) true true) else None
  end.
Fixpoint reaper_steps (r : Reaper) (l : list reaperStep) : option Reaper :=
  match l with [] => Some r | e :: l => r ← reaper_step r e; reaper_steps r l end.
Definition reaper_close_returns (r : Reaper) (ctx_over : bool) : list closeResult :=
  (if rp_returned r then [CloseNil] else []) ++ (if ctx_over then [CloseContextErr] else []).

(** ** Opening the parts *)

Definition newAccountingStore (cfg : AccountingConfig) : app (result serverError unit) :=
  let backend := or_default (acc_Backend cfg) "memory" in
  if backend == "memory" then _ ← perform (AStarted ResAccounting); mret (Ok tt)
  else if backend == "local_file" then
    attempt (failing (perform (AOpenLocalFile (acc_LocalFile cfg)))) nothing (wrapped "create accounting local_file store: %w")
      (fun _ => _ ← perform (AStarted ResAccounting); mret (Ok tt))
  else mret (Err (SErr "unsupported accounting backend %q" [backend])).

(** [oauth.NewStore] *)
Definition NewOAuthStore (dir : string) : result serverError string :=
  if TrimSpace dir == "" then Err (SErr "oauth credential directory is required" []) else Ok dir.

Definition snapshotVersion : Z := 1.
(** [sessions.NewSnapshotStore]: the store as it is loaded, and what is known to be on disk;
    [None] if there are no snapshots *)
Definition load_sessions (dir : string) (store : Store) : app (result serverError (Sessions.SnapshotStore * Store)) :=
  file ← perform (AReadSessions dir);
  match file with
  | SessMissing => mret (Ok (Sessions.mkSnapshotStore 0 None, store))
  | SessUnreadable e => mret (Err (SWrap "read session snapshot: %w" [] (SErr "%w" [e])))
  | SessUndecodable e => mret (Err (SWrap "decode session snapshot: %w" [] (SErr "%w" [e])))
  | SessFile version snap =>
      if negb (version =? snapshotVersion) then mret (Err (SErr "unsupported session snapshot version %d" [itoa version]))
      else now ← perform ANow; mret (Ok (Sessions.Load (Sessions.mkSnapshotStore 0 (Some snap)) store now))
  end.
Definition NewSnapshotStore (enabled : bool) (dir : string) (interval : Duration) (store : Store)
    : app (result serverError (option Sessions.SnapshotStore * Store)) :=
  if negb enabled then mret (Ok (None, store))
  else if dir == "" then mret (Err (SErr "session snapshot dir is required" []))
  else if interval <=? 0 then mret (Err (SErr "session snapshot flush interval must be positive" []))
  else
    attempt (failing (perform (AFile (FMkdirAll dir)))) nothing (wrapped "create session snapshot dir: %w") (fun _ =>
    attempt (failing (perform (AFile (FChmodDir dir)))) nothing (wrapped "secure session snapshot dir: %w") (fun _ =>
    attempt (load_sessions dir store) nothing unwrapped (fun loaded =>
    _ ← perform (AStarted ResSessionSnapshot); mret (Ok (Some loaded.1, loaded.2))))).

(** ** The program *)

(** [App]: what reloads change, the servers, the sessions, and the parts that are there *)
Record runningApp := mkRunningApp {
  ra_app : App;
  ra_Server : HTTPServer RuntimeState;
  ra_sessions : Store;
  ra_sessionSnapshot : option Sessions.SnapshotStore;
  ra_lock : option nat
}.

(** [NewWithClientQuotaEventsLatencyConfigAdminAndSessions] *)
Definition new_handler (rt : appRuntime) (cfg : Config) (configPath : string) (listener : ListenerSpec) : RuntimeState :=
  ApplyRuntime (mkRuntimeState (ar_router rt) (ar_dispatcher rt) (cfg_Clients cfg) (ListenerInbounds cfg listener)
    (ar_clientQuotaTracker rt) (ar_eventRecorder rt) (ar_latencyStore rt) (cfg_Accounting cfg) (normalizeAdminConfig (cfg_Admin cfg)) configPath).
Definition buildListeners (rt : appRuntime) (cfg : Config) (configPath : string) : list (Listener RuntimeState) :=
  map (fun listener => mkListener (ls_Listen listener) (new_handler rt cfg configPath listener)) (normalizedListeners cfg).

Section program.
Context (filepath_join : string -> string -> string)
  (tzdb : string -> option Location) (ParseURL : string -> option (string * string)) (builtIn : list AccountingPriceConfig).

(** [_ = x.Close(context.Background())] *)
Definition dropping (r : resource) : app unit := _ ← perform (ADrop r); mret tt.
(** The snapshot store of the quotas is nil without quotas, and its [Close] does nothing then. *)
Definition drop_runtime (rt : appRuntime) : app unit :=
  _ ← dropping ResAccounting; when (is_some (ar_quotaSnapshotStore rt)) (dropping ResQuotaSnapshot).
Definition drop_lock (lock : option nat) : app unit := _ ← on_files (CloseLock lock); mret tt.

(** [buildRuntimeWithOAuth], whose snapshot store runs once it is made *)
Definition start_runtime (cfg : Config) : app (result serverError appRuntime) :=
  '(dir_ok, file, now) ← perform AQuotaDisk;
  match buildRuntimeWithOAuth tzdb ParseURL builtIn cfg true dir_ok file now with
  | Err e => mret (Err (SAppErr e))
  | Ok rt => _ ← when (is_some (ar_quotaSnapshotStore rt)) (perform (AStarted ResQuotaSnapshot)); mret (Ok rt)
  end.
Definition acquire_lock (snapshot : SessionSnapshotConfig) : app (result serverError (option nat)) :=
  if EnabledEffective snapshot then
    fd ← on_files (AcquireInstanceLock filepath_join (ss_Dir snapshot));
    mret match fd with Ok fd => Ok (Some fd) | Err e => Err e end
  else mret (Ok None).

Definition NewWithOptions (cfg : Config) (configPath : string) : app (result serverError runningApp) :=
  attempt (newAccountingStore (cfg_Accounting cfg)) nothing unwrapped (fun _ =>
  attempt (mret (NewOAuthStore (or_default (oauth_Dir (cfg_OAuth cfg)) "./data/oauth"))) (dropping ResAccounting) unwrapped (fun _ =>
  attempt (start_runtime cfg) (dropping ResAccounting) unwrapped (fun rt =>
  let snapshot := default_snapshot (sess_Snapshot (cfg_Sessions cfg)) in
  attempt (acquire_lock snapshot) (drop_runtime rt) (wrapped "acquire session instance lock: %w") (fun lock =>
  attempt (NewSnapshotStore (EnabledEffective snapshot) (ss_Dir snapshot) (DurationOf (ss_FlushInterval snapshot)) NewStore)
    (_ ← drop_lock lock; drop_runtime rt) (wrapped "create session snapshot store: %w") (fun '(sessionSnapshot, sessionStore) =>
  let listeners := buildListeners rt cfg configPath in
  _ ← perform (AStarted ResReaper);
  mret (Ok (mkRunningApp
    (mkApp cfg configPath (ar_outboundQuotaTracker rt) (ar_clientQuotaTracker rt) (is_some (ar_quotaSnapshotStore rt))
       (map lst_Handler listeners))
    (NewListeners listeners) sessionStore sessionSnapshot lock))))))).

(** [App.Close]: every part, and the first error *)
Definition close_if (b : bool) (r : resource) : app (option serverError) :=
  if b then c ← perform (AClose r); mret (close_error c) else mret None.
Definition Close (a : runningApp) : app (option serverError) :=
  e1 ← close_if true ResReaper;
  e2 ← close_if (is_some (ra_sessionSnapshot a)) ResSessionSnapshot;
  '(_, e3) ← on_files (CloseLock (ra_lock a));
  e4 ← close_if true ResAccounting;
  e5 ← close_if (app_snapshotting (ra_app a)) ResQuotaSnapshot;
  mret (first_error (first_error (first_error (first_error e1 e2) e3) e4) e5).

Fixpoint Shutdown {Handler} (s : HTTPServer Handler) (firstErr : option serverError) : app (option serverError) :=
  match s with
  | [] => mret firstErr
  | srv :: s => err ← perform (AShutdown (hs_Addr srv)); Shutdown s (first_error firstErr err)
  end.

(** The program after the reloads *)
Definition reloaded (a : runningApp) (app : App) : runningApp :=
  mkRunningApp app (ra_Server a) (ra_sessions a) (ra_sessionSnapshot a) (ra_lock a).

Definition run (configPath : string) (cfg : Config) (version : string) (devLogEnabled : bool) (logPath traceMode : string)
    : app (option serverError) :=
  r ← NewWithOptions cfg configPath;
  match r with
  | Err e => mret (Some e)
  | Ok application =>
      printed ← perform (APrint (buildStartupBanner (mkStartupBannerData version "AI Gateway / Semantic Router"
                  (ListenAddresses cfg) devLogEnabled logPath traceMode)));
      match printed with
      | Some e => mret (Some (SWrap "write startup banner: %w" [] (SErr "%w" [e])))
      | None =>
          served ← perform (AServe (ra_app application) (ra_Server application));
          match served with
          | ServersEnded _ e => mret e
          | Signalled app =>
              shutdownErr ← Shutdown (ra_Server application) None;
              closeErr ← Close (reloaded application app);
              mret (first_error shutdownErr closeErr)
          end
      end
  end.

(** ** The command *)

Definition serve_formal (name : string) : option bool :=
  if name == "config" then Some false else if name == "dev-log" then Some true else None.
(** [newLogger]: whether there is a file to close *)
Definition newLogger (enableDevLog : bool) (logs : AdminLogsConfig) : app (result serverError bool) :=
  if enableDevLog then
    match log_options (devLogPath filepath_join "" logs) logs with
    | Err e => mret (Err (SFlagErr e))
    | Ok opts => attempt (failing (perform (AOpenLog opts))) nothing unwrapped
                   (fun _ => _ ← perform (AStarted ResLog); mret (Ok true))
    end
  else mret (Ok false).
Definition exit_with (message : string) : app Z := _ ← perform (AError message); mret 1.
(** [runMain] without a command: the exit code, which is that of [flag.Parse] if it fails *)
Definition runMain (args : list string) (version traceMode : string) : app Z :=
  match parse_flags serve_formal args ∅ with
  | Err FlagHelp => mret 0
  | Err _ => mret 2
  | Ok (values, _) =>
      let configPath := default "./configs/config.example.yaml" (values !! "config") in
      let devLog := default "false" (values !! "dev-log") == "true" in
      cfg ← perform (ALoad configPath);
      match cfg with
      | Err _ => exit_with "load config failed"
      | Ok cfg =>
          let logs := adm_Logs (cfg_Admin cfg) in
          logger ← newLogger devLog logs;
          match logger with
          | Err _ => exit_with "initialize logger failed"
          | Ok opened =>
              err ← run configPath cfg version devLog (devLogPath filepath_join "" logs) traceMode;
              code ← match err with Some _ => exit_with "application exited with error" | None => mret 0 end;
              closed ← (if opened : bool then perform (ADrop ResLog) else mret None);
              _ ← when (is_some closed) (perform (AError "close logger failed"));
              mret code
          end
      end
  end.
End program.
