(* ===== verification/ServerFacts.v ===== *)
(** * Facts about the running program

    That [Start] tells a failure only when every server has ended, that two instances never
    hold the same session directory, which parts run after a start, a shutdown (also one
    whose time runs out) or a failure, that a reload ends with what a start would have made, and what the reaper does to a
    session that is no longer heard of. *)

From S2P Require Import Prelude GoStrings GoTime GoTimeFacts ConfigTypes Sessions SessionsFacts ConfigValidate ConfigFacts QuotaSnapshot QuotaTracker QuotaReload Accounting Router AppRuntime Reload ReloadFacts LogArchives Program CommandLine Server.

(** ** Servers *)

Section start.
Context {Handler : Type} (s : HTTPServer Handler).
Abbreviation reached := (rtc (start_step s) []).

Lemma reached_ok done : reached done -> NoDup done.*1 /\ forall i, i ∈ done.*1 -> (i < length s)%nat.
Proof.
  apply (rtc_ind_r (fun done => NoDup done.*1 /\ forall i, i ∈ done.*1 -> (i < length s)%nat)).
  - split; [constructor|]. by intros i Hi%elem_of_nil.
  - intros d1 d2 _ Hstep [Hnd Hlt]. destruct Hstep as [i srv r d1 Hi Hin]. rewrite fmap_app. cbn. split.
    + apply NoDup_app. split; [done|]. split; [|by apply NoDup_singleton].
      intros j Hj Hji%list_elem_of_singleton. by subst j.
    + intros j [Hj|Hj%list_elem_of_singleton]%elem_of_app; [by apply Hlt|]. subst j. by apply lookup_lt_Some in Hi.
Qed.
Lemma reached_subset done : reached done -> done.*1 ⊆+ seq 0 (length s).
Proof. intros [Hnd Hlt]%reached_ok. apply NoDup_submseteq; [done|]. intros i Hi%Hlt. apply elem_of_seq. lia. Qed.
Lemma reached_length done : reached done -> (length done <= length s)%nat.
Proof. intros H%reached_subset%submseteq_length. by rewrite length_fmap, length_seq in H. Qed.
Lemma reached_all done :
  reached done -> length done = length s <-> forall i, (i < length s)%nat -> i ∈ done.*1.
Proof.
  intros H. split.
  - intros Hlen i Hi. assert (done.*1 ≡ₚ seq 0 (length s)) as ->.
    { apply submseteq_length_Permutation; [by apply reached_subset|]. rewrite length_fmap, length_seq. lia. }
    apply elem_of_seq. lia.
  - intros Hall. apply Nat.le_antisymm; [by apply reached_length|].
    rewrite <- (length_fmap fst done), <- (length_seq (length s) 0) at 1. apply submseteq_length, NoDup_submseteq.
    + apply NoDup_seq.
    + intros i Hi%elem_of_seq. apply Hall. lia.
Qed.
Lemma errCh_length done : (length (errCh s done) <= length done)%nat.
Proof.
  induction done as [|[i r] done IH]; cbn; [done|]. fold (errCh s done). case_match; cbn; lia.
Qed.
End start.

(** [Start] returns when every server has ended, not before.  Whatever the order in which
    the servers end, it returns exactly once all have, with the error of the first that
    failed, or none if each was closed; with one server as with several.  The channel has
    room for every error, so no goroutine waits to send. *)
Theorem start_returns_last {Handler} (s : HTTPServer Handler) done r :
  s <> [] -> rtc (start_step s) [] done ->
  (Start s done = Some r <-> (forall i, (i < length s)%nat -> i ∈ done.*1) /\ r = head (errCh s done)) /\
  (length (errCh s done) <= length s)%nat.
Proof.
  intros Hs Hd. split.
  2: { etrans; [apply errCh_length|]. by apply reached_length. }
  rewrite <- (reached_all s done Hd). destruct s as [|srv [|srv' s']]; [done| |].
  - pose proof (reached_ok [srv] done Hd) as [_ Hlt]. pose proof (reached_length [srv] done Hd) as Hlen.
    destruct done as [|[i e] [|x done]]; cbn in *; [split; [done|by intros [? _]]| |lia].
    assert (i = 0)%nat as -> by (specialize (Hlt i ltac:(by left)); lia). cbn.
    destruct (serve_error (hs_Addr srv) e); cbn; split; [intros [= <-]|intros [_ ->]|intros [= <-]|intros [_ ->]]; done.
  - unfold Start. destruct (Nat.eqb_spec (length done) (length (srv :: srv' :: s'))) as [E|E].
    + split; [intros [= <-]; done|by intros [_ ->]].
    + split; [done|by intros [? _]].
Qed.

(** Two servers, of which the second fails while the first serves *)
Definition two_servers : HTTPServer unit := NewMulti [":8080"; ":8081"] tt.
(** The failure is not told. *)
Example failed_listener_waits :
  rtc (start_step two_servers) [] [(1%nat, ServeFailed "address already in use")] /\
  Start two_servers [(1%nat, ServeFailed "address already in use")] = None.
Proof.
  split; [|reflexivity]. apply rtc_once, (StartEnds two_servers 1 (mkHttpServer ":8081" tt (5 * Second)) _ []); [done|].
  by intros ?%elem_of_nil.
Qed.
Lemma start_returns_last_witness :
  Start two_servers [(1%nat, ServeFailed "in use"); (0%nat, ServerClosed)] =
    Some (Some (SErr "listen and serve %s: %w" [":8081"; "in use"])).
Proof.
  refine (proj2 (proj1 (start_returns_last two_servers _ _ _ _)) _); [done| |].
  - eapply rtc_l; [apply (StartEnds two_servers 1 (mkHttpServer ":8081" tt (5 * Second)) (ServeFailed "in use") []); [done|by intros ?%elem_of_nil]|].
    apply rtc_once, (StartEnds two_servers 0 (mkHttpServer ":8080" tt (5 * Second)) ServerClosed [(1%nat, ServeFailed "in use")]); [done|].
    by intros ?%list_elem_of_singleton.
  - split; [|done]. intros [|[|i]] Hi; cbn in *; [by right; left|by left|lia].
Defined.

(** ** The lock *)

(** The files that are open and the locks: [flock] grants a lock on a file to one open
    description of it at a time, and a lock ends with the description that holds it. *)
Record osState := mkOs { os_step : nat; os_files : gmap nat string; os_locks : gmap string nat }.
Definition release (fd : nat) (locks : gmap string nat) : gmap string nat := filter (fun kv => kv.2 <> fd) locks.

Section lock.
Context (filepath_join : string -> string -> string) (fault : nat -> option string).
Definition lock_file (dir : string) : string := filepath_join dir "core.lock".

(** The call at step [n] fails if [fault n] says so. *)
Definition os_answer (B : Type) (c : fileCall B) (st : osState) : osState * B :=
  let failed := fault (os_step st) in
  let next files locks := mkOs (S (os_step st)) files locks in
  let same := next (os_files st) (os_locks st) in
  match c in fileCall B return osState * B with
  | FMkdirAll _ | FChmodDir _ | FChmod _ => (same, failed)
  | FOpen path =>
      match failed with
      | Some e => (same, Err e)
      | None => let fd := fresh (dom (os_files st)) in (next (<[fd := path]> (os_files st)) (os_locks st), Ok fd)
      end
  | FLock fd =>
      match failed, os_files st !! fd with
      | Some e, _ => (same, FlockFailed e)
      | None, None => (same, FlockFailed "bad file descriptor")
      | None, Some path =>
          match os_locks st !! path with
          | Some owner => (same, if bool_decide (owner = fd) then Locked else WouldBlock)
          | None => (next (os_files st) (<[path := fd]> (os_locks st)), Locked)
          end
      end
  | FUnlock fd =>
      match failed with Some e => (same, Some e) | None => (next (os_files st) (release fd (os_locks st)), None) end
  | FClose fd => (next (delete fd (os_files st)) (release fd (os_locks st)), failed)
  end.
Definition on_os {A} (p : prog fileCall A) (st : osState) : osState * A :=
  let '(st, _, a) := exec (fun _ _ _ => tt) os_answer p st in (st, a).

(** Instances that take and leave directories; an instance has at most one. *)
Inductive lockOp := OpAcquire (who : nat) (dir : string) | OpClose (who : nat).
Record lockState := mkLockState { ls_os : osState; ls_held : gmap nat (string * nat) }.
Definition lock_op (st : lockState) (o : lockOp) : lockState :=
  match o with
  | OpAcquire who dir =>
      if is_some (ls_held st !! who) then st else
      let '(os, r) := on_os (AcquireInstanceLock filepath_join dir) (ls_os st) in
      mkLockState os (match r with Ok fd => <[who := (dir, fd)]> (ls_held st) | Err _ => ls_held st end)
  | OpClose who =>
      match ls_held st !! who with
      | None => st
      | Some (_, fd) => mkLockState (on_os (CloseLock (Some fd)) (ls_os st)).1 (delete who (ls_held st))
      end
  end.
Definition no_locks : lockState := mkLockState (mkOs 0 ∅ ∅) ∅.
Definition lock_ops (ops : list lockOp) : lockState := foldl lock_op no_locks ops.

(** What is open is locked, by the instance that has it. *)
Record lock_inv (st : lockState) : Prop := mkLockInv {
  li_files fd path : os_files (ls_os st) !! fd = Some path <-> exists who dir, ls_held st !! who = Some (dir, fd) /\ path = lock_file dir;
  li_locks path fd : os_locks (ls_os st) !! path = Some fd <-> os_files (ls_os st) !! fd = Some path;
  li_owner who1 who2 d1 d2 fd : ls_held st !! who1 = Some (d1, fd) -> ls_held st !! who2 = Some (d2, fd) -> who1 = who2
}.

Lemma fresh_file (files : gmap nat string) : files !! fresh (dom files) = None.
Proof. apply not_elem_of_dom, is_fresh. Qed.
Lemma release_none fd (locks : gmap string nat) : (forall path, locks !! path <> Some fd) -> release fd locks = locks.
Proof.
  intros H. apply map_filter_id. intros path fd' Hp. cbn. intros ->. by apply (H path).
Qed.
Lemma release_lookup fd (locks : gmap string nat) path fd' : release fd locks !! path = Some fd' <-> locks !! path = Some fd' /\ fd' <> fd.
Proof. unfold release. by rewrite map_lookup_filter_Some. Qed.

Lemma acquire_run st dir os r :
  (forall path fd, os_locks st !! path = Some fd -> is_Some (os_files st !! fd)) ->
  on_os (AcquireInstanceLock filepath_join dir) st = (os, r) ->
  match r with
  | Ok fd => os_files st !! fd = None /\ os_locks st !! lock_file dir = None /\
             os_files os = <[fd := lock_file dir]> (os_files st) /\ os_locks os = <[lock_file dir := fd]> (os_locks st)
  | Err _ => os_files os = os_files st /\ os_locks os = os_locks st
  end.
Proof.
  intros Hinv. unfold on_os, AcquireInstanceLock. destruct (dir == ""); cbn; [by intros [= <- <-]|].
  destruct (fault (os_step st)); cbn; [by intros [= <- <-]|].
  destruct (fault (S _)); cbn; [by intros [= <- <-]|].
  destruct (fault (S (S _))); cbn; [by intros [= <- <-]|].
  set (fd := fresh (dom (os_files st))). pose proof (fresh_file (os_files st)) as Hfd. fold fd in Hfd.
  assert (forall path, os_locks st !! path <> Some fd) as Hlocks.
  { intros path Hp. destruct (Hinv _ _ Hp). congruence. }
  destruct (fault (S (S (S _)))); cbn.
  { intros [= <- <-]. cbn. by rewrite delete_insert_id, release_none. }
  destruct (fault (S (S (S (S _))))); cbn.
  { intros [= <- <-]. cbn. by rewrite delete_insert_id, release_none. }
  rewrite lookup_insert_eq. unfold lock_file. destruct (os_locks st !! _) as [owner|] eqn:E.
  - rewrite bool_decide_eq_false_2 by (intros ->; by apply (Hlocks _ E)). cbn.
    intros [= <- <-]. cbn. by rewrite delete_insert_id, release_none.
  - cbn. by intros [= <- <-].
Qed.
Lemma close_run st fd :
  let os := (on_os (CloseLock (Some fd)) st).1 in
  os_files os = delete fd (os_files st) /\ (forall path fd', os_locks os !! path = Some fd' <-> os_locks st !! path = Some fd' /\ fd' <> fd).
Proof.
  unfold on_os. cbn. destruct (fault (os_step st)); cbn; (split; [done|]); intros path fd'; rewrite !release_lookup; tauto.
Qed.

Lemma lock_inv_op st o : lock_inv st -> lock_inv (lock_op st o).
Proof.
  intros [Hf Hl Ho]. destruct o as [who dir|who]; unfold lock_op.
  - destruct (ls_held st !! who) eqn:Ew; cbn; [done|].
    destruct (on_os _ _) as [os r] eqn:E. apply acquire_run in E.
    2: { intros path fd Hp. apply Hl in Hp. by eexists. }
    destruct r as [fd|e]; [|destruct E as [Ef El]; constructor; cbn; [by rewrite Ef|by rewrite El, Ef|done]].
    destruct E as (Hfd & Hlk & Ef & El). constructor; cbn.
    + intros fd' path. rewrite Ef, lookup_insert_Some, Hf. split.
      * intros [[<- <-]|[Hne (w & d & Hw & ->)]].
        -- exists who, dir. by rewrite lookup_insert_eq.
        -- exists w, d. split; [|done]. rewrite lookup_insert_ne; [done|]. congruence.
      * intros (w & d & [[-> [= -> ->]]|[Hne Hw]]%lookup_insert_Some & ->); [by left|].
        right. split; [|by exists w, d]. intros ->. assert (os_files (ls_os st) !! fd' = Some (lock_file d)) by (apply Hf; eauto). congruence.
    + intros path fd'. rewrite El, Ef, !lookup_insert_Some, Hl. split.
      * intros [[<- <-]|[Hne Hp]]; [by left|]. right. split; [|done]. congruence.
      * intros [[<- <-]|[Hne Hp]]; [by left|]. right. split; [|done]. intros <-. apply Hl in Hp. congruence.
    + intros w1 w2 d1 d2 fd' [[<- E1]|[Hn1 H1]]%lookup_insert_Some [[<- E2]|[Hn2 H2]]%lookup_insert_Some; simplify_eq;
        [done| | |by eapply Ho].
      * assert (os_files (ls_os st) !! fd' = Some (lock_file d2)) by (apply Hf; eauto). congruence.
      * assert (os_files (ls_os st) !! fd' = Some (lock_file d1)) by (apply Hf; eauto). congruence.
  - destruct (ls_held st !! who) as [[dir fd]|] eqn:Ew; [|done].
    destruct (close_run (ls_os st) fd) as [Ef El]. set (os := (on_os _ _).1) in *. clearbody os.
    constructor; cbn [ls_os ls_held].
    + intros fd' path. rewrite Ef, lookup_delete_Some, Hf. split.
      * intros [Hne (w & d & Hw & ->)]. exists w, d. split; [|done]. rewrite lookup_delete_ne; [done|]. congruence.
      * intros (w & d & [Hne Hw]%lookup_delete_Some & ->). split; [|by exists w, d]. intros ->. apply Hne. by eapply Ho.
    + intros path fd'. rewrite Ef, El, lookup_delete_Some, Hl. split; [intros []; by split|intros [? ?]; by split].
    + intros w1 w2 d1 d2 fd' [_ H1]%lookup_delete_Some [_ H2]%lookup_delete_Some. by eapply Ho.
Qed.
Lemma lock_inv_ops ops : lock_inv (lock_ops ops).
Proof.
  unfold lock_ops. assert (lock_inv no_locks) as H.
  { constructor; cbn; [|done|done]. intros fd path. rewrite lookup_empty. split; [done|]. by intros (? & ? & ? & _). }
  revert H. generalize no_locks. induction ops as [|o ops IH]; intros st H; cbn; [done|]. apply IH. by apply lock_inv_op.
Qed.

(** C32: two instances never have the same directory.  However instances take and leave
    directories, and whichever file operations fail, two that hold the lock of the same file
    are one; the files that are open are those of the instances that hold a lock, so a refused
    start leaves none behind; and an instance gets a lock nobody has if no operation fails. *)
Theorem lock_exclusive ops who1 who2 d1 d2 fd1 fd2 :
  let st := lock_ops ops in
  (ls_held st !! who1 = Some (d1, fd1) -> ls_held st !! who2 = Some (d2, fd2) -> lock_file d1 = lock_file d2 -> who1 = who2) /\
  (forall fd, is_Some (os_files (ls_os st) !! fd) <-> exists who dir, ls_held st !! who = Some (dir, fd)) /\
  ((forall n, fault n = None) -> d1 <> "" -> ls_held st !! who1 = None ->
   (forall who d fd, ls_held st !! who = Some (d, fd) -> lock_file d <> lock_file d1) ->
   exists fd, ls_held (lock_op st (OpAcquire who1 d1)) !! who1 = Some (d1, fd)).
Proof.
  intros st. destruct (lock_inv_ops ops) as [Hf Hl Ho]. fold st in Hf, Hl, Ho. split; [|split].
  - intros H1 H2 Hd. assert (os_locks (ls_os st) !! lock_file d1 = Some fd1) as L1 by (apply Hl, Hf; eauto).
    assert (os_locks (ls_os st) !! lock_file d2 = Some fd2) as L2 by (apply Hl, Hf; eauto).
    rewrite Hd in L1. simplify_eq. by eapply Ho.
  - intros fd. split; [intros [path (w & d & Hw & _)%Hf]; eauto|intros (w & d & Hw)].
    exists (lock_file d). apply Hf. eauto.
  - intros Hfault Hd Hw Hfree. cbn. rewrite Hw. cbn. unfold on_os, AcquireInstanceLock.
    rewrite (proj2 (String.eqb_neq d1 "")) by done. cbn. repeat (rewrite Hfault; cbn).
    rewrite lookup_insert_eq. cbn. fold (lock_file d1).
    destruct (os_locks (ls_os st) !! lock_file d1) as [owner|] eqn:E; cbn.
    + exfalso. apply Hl, Hf in E as (w & d & Hh & Hp). by apply (Hfree _ _ _ Hh).
    + eexists. apply lookup_insert_eq.
Qed.
End lock.

(** Two instances, each with a directory of its own *)
Definition join_slash (a b : string) : string := a +:+ "/" +:+ b.
Lemma lock_exclusive_witness :
  let st := lock_ops join_slash (fun _ => None) [OpAcquire 0 "a"; OpAcquire 1 "a"] in
  ls_held st !! 1%nat = None /\ 0%nat = 0%nat /\
  exists fd, ls_held (lock_op join_slash (fun _ => None) st (OpAcquire 1 "b")) !! 1%nat = Some ("b", fd).
Proof.
  pose proof (lock_exclusive join_slash (fun _ => None) [OpAcquire 0 "a"; OpAcquire 1 "a"] 0 0 "a" "a" 0 0) as [H _].
  pose proof (lock_exclusive join_slash (fun _ => None) [OpAcquire 0 "a"; OpAcquire 1 "a"] 1 0 "b" "a" 0 0) as [_ [_ H']].
  split; [by vm_compute|]. split; [apply H; by vm_compute|]. apply H'; [done|done|by vm_compute|].
  intros who d fd Hh. assert (ls_held (lock_ops join_slash (fun _ => None) [OpAcquire 0 "a"; OpAcquire 1 "a"]) =
    <[0%nat := ("a", 0%nat)]> ∅) as E by (by vm_compute). rewrite E in Hh.
  apply lookup_insert_Some in Hh as [[_ [= <- _]]|[_ Hh]]; [by vm_compute|]. by rewrite lookup_empty in Hh.
Defined.

(** ** The parts that run *)

(** A part runs, does not, or was closed with a context that was over before the part had
    ended: then what it runs may go on, such as its last save. *)
Inductive pstate := Off | On | Late.
Definition on (b : bool) : pstate := if b then On else Off.
Definition closed_state (c : closed) : pstate := match c with PartEnded _ => Off | CloseTimedOut _ => Late end.
(** The states of the parts, the files that are open and those that hold a lock, and how the
    time of serving ended: [true] by a signal *)
Record parts := mkParts {
  p_accounting : pstate; p_quota : pstate; p_sessions : pstate; p_reaper : pstate; p_log : pstate;
  p_files : gset nat; p_locked : gset nat;
  p_end : option bool
}.
Definition no_parts : parts := mkParts Off Off Off Off Off ∅ ∅ None.
Definition part (r : resource) (s : parts) : pstate :=
  match r with
  | ResAccounting => p_accounting s
  | ResQuotaSnapshot => p_quota s
  | ResSessionSnapshot => p_sessions s
  | ResReaper => p_reaper s
  | ResLog => p_log s
  end.
Definition set_part (r : resource) (b : pstate) (s : parts) : parts :=
  let '(mkParts a q ss re l f k e) := s in
  match r with
  | ResAccounting => mkParts b q ss re l f k e
  | ResQuotaSnapshot => mkParts a b ss re l f k e
  | ResSessionSnapshot => mkParts a q b re l f k e
  | ResReaper => mkParts a q ss b l f k e
  | ResLog => mkParts a q ss re b f k e
  end.
Definition set_files (f k : gset nat) (s : parts) : parts :=
  mkParts (p_accounting s) (p_quota s) (p_sessions s) (p_reaper s) (p_log s) f k (p_end s).
(** The end of serving, and whether the reloads left snapshots of the quotas *)
Definition set_end (b quota : bool) (s : parts) : parts :=
  mkParts (p_accounting s) (on quota) (p_sessions s) (p_reaper s) (p_log s) (p_files s) (p_locked s) (Some b).
Definition file_effect {B} (c : fileCall B) : B -> parts -> parts :=
  match c in fileCall B return B -> parts -> parts with
  | FOpen _ => fun r s => match r with Ok fd => set_files ({[fd]} ∪ p_files s) (p_locked s) s | Err _ => s end
  | FLock fd => fun r s => match r with Locked => set_files (p_files s) ({[fd]} ∪ p_locked s) s | _ => s end
  | FUnlock fd => fun r s => match r with None => set_files (p_files s) (p_locked s ∖ {[fd]}) s | Some _ => s end
  | FClose fd => fun _ s => set_files (p_files s ∖ {[fd]}) (p_locked s ∖ {[fd]}) s
  | FMkdirAll _ | FChmodDir _ | FChmod _ => fun _ s => s
  end.
Definition part_effect (e : appEvent) : parts -> parts :=
  match e with AEvent B c b =>
    match c in appCall B return B -> parts -> parts with
    | AFile c => file_effect c
    | AStarted r => fun _ => set_part r On
    | AClose r => fun c => set_part r (closed_state c)
    | ADrop r => fun _ => set_part r Off
    | AServe _ _ => fun r =>
        match r with
        | Signalled app => set_end true (app_snapshotting app)
        | ServersEnded app _ => set_end false (app_snapshotting app)
        end
    | _ => fun _ s => s
    end b
  end.
(** The lock of the directory of the sessions is held while their snapshots are written,
    unless by what a [Close] that timed out has left. *)
Definition guarded (s : parts) : Prop := p_sessions s = On -> p_locked s <> ∅.
Abbreviation app_post := (post app_observe part_effect guarded).
Abbreviation parts_after := (after part_effect no_parts).

(** The parts of a program, with or without a log file *)
Definition lock_files (lock : option nat) : gset nat := match lock with Some fd => {[fd]} | None => ∅ end.
Definition parts_of (a : runningApp) (log : bool) (e : option bool) : parts :=
  mkParts On (on (app_snapshotting (ra_app a))) (on (is_some (ra_sessionSnapshot a))) On (on log) (lock_files (ra_lock a)) (lock_files (ra_lock a)) e.

Lemma closed_not_on c : closed_state c <> On.
Proof. by destruct c. Qed.
(** Goes through a program: each answer, then what follows it. *)
Ltac post_steps :=
  repeat first
    [ progress cbn -[difference union closed_state] in *
    | progress intros
    | match goal with
      | |- guarded _ /\ _ => first [split; [by unfold guarded; cbn; first [done|intros ?%closed_not_on]|]|progress case_match; simplify_eq]
      | |- post _ _ _ _ _ _ => progress case_match; simplify_eq
      end ].
Ltac parts_steps := post_steps; unfold set_files; cbn; autorewrite with parts; try done.
Lemma unopened (fd : nat) : ({[fd]} ∪ ∅) ∖ {[fd]} = (∅ : gset nat).
Proof. set_solver. Qed.
Lemma nothing_closed (fd : nat) : ∅ ∖ {[fd]} = (∅ : gset nat).
Proof. set_solver. Qed.
Lemma closed_file (fd : nat) : {[fd]} ∖ {[fd]} = (∅ : gset nat).
Proof. set_solver. Qed.
Lemma opened (fd : nat) : {[fd]} ∪ ∅ = ({[fd]} : gset nat).
Proof. set_solver. Qed.
Create Rewrite HintDb parts.
#[export] Hint Rewrite unopened nothing_closed closed_file opened : parts.

Section lifecycle.
Context (filepath_join : string -> string -> string)
  (tzdb : string -> option Location) (ParseURL : string -> option (string * string)) (builtIn : list AccountingPriceConfig).

Lemma acquire_post dir s :
  p_sessions s = Off -> p_files s = ∅ -> p_locked s = ∅ ->
  app_post (on_files (AcquireInstanceLock filepath_join dir)) s
    (fun r s' => s' = match r with Ok fd => set_files {[fd]} {[fd]} s | Err _ => s end).
Proof.
  destruct s as [a q ss re l f k e]. cbn. intros -> -> ->. unfold AcquireInstanceLock.
  destruct (dir == ""); parts_steps.
Qed.
Lemma snapshots_post enabled dir interval store s :
  guarded s -> (enabled = true -> p_locked s <> ∅) ->
  app_post (NewSnapshotStore enabled dir interval store) s
    (fun r s' => match r with
                 | Ok (o, _) => is_some o = enabled /\ s' = (if enabled then set_part ResSessionSnapshot On s else s)
                 | Err _ => s' = s
                 end).
Proof.
  intros Hg Hl. unfold NewSnapshotStore. destruct enabled; [specialize (Hl eq_refl)|done].
  destruct s as [a q ss re l f k e]. cbn in *. unfold guarded in Hg. cbn in Hg.
  destruct (dir == ""); [done|]. destruct (interval <=? 0); [done|]. cbn. parts_steps.
Qed.
Lemma start_runtime_post cfg s :
  guarded s -> p_quota s = Off ->
  app_post (start_runtime tzdb ParseURL builtIn cfg) s
    (fun r s' => s' = match r with Ok rt => set_part ResQuotaSnapshot (on (is_some (ar_quotaSnapshotStore rt))) s | Err _ => s end).
Proof.
  intros Hg Hq. destruct s as [a q ss re l f k e]. cbn in Hq. subst q. unfold start_runtime. cbn -[buildRuntimeWithOAuth]. intros [[ok file] now].
  split; [done|]. destruct (buildRuntimeWithOAuth _ _ _ _ _ _ _ _) as [rt|]; [|done].
  destruct (ar_quotaSnapshotStore rt) as [st|] eqn:E; cbn; rewrite ?E; cbn; [|done]. intros _. split; [done|]. by rewrite ?E.
Qed.
Lemma drop_runtime_post rt s Q :
  p_sessions s = Off -> Q tt (set_part ResAccounting Off (set_part ResQuotaSnapshot Off s)) -> p_quota s = on (is_some (ar_quotaSnapshotStore rt)) ->
  app_post (drop_runtime rt) s Q.
Proof.
  destruct s as [a q ss re l f k e]. cbn. intros -> HQ ->. unfold drop_runtime. cbn. intros _. split; [done|].
  destruct (ar_quotaSnapshotStore rt); cbn in *; [|done]. intros _. by split.
Qed.
Lemma close_lock_post lock s :
  p_sessions s = Off -> p_files s = lock_files lock -> p_locked s = lock_files lock ->
  app_post (on_files (CloseLock lock)) s (fun _ s' => s' = set_files ∅ ∅ s).
Proof.
  destruct s as [a q ss re l f k e]. cbn. intros -> -> ->. destruct lock as [fd|]; cbn; [|done]. parts_steps.
Qed.

Lemma drop_lock_post lock s :
  p_sessions s = Off -> p_files s = lock_files lock -> p_locked s = lock_files lock ->
  app_post (drop_lock lock) s (fun _ s' => s' = set_files ∅ ∅ s).
Proof. intros Hs Hf Hk. eapply post_then; [by apply close_lock_post|]. by intros a s' ->. Qed.
Lemma post_attempt {A B} (p : app (result serverError A)) undo wrap (k : A -> app (result serverError B)) s M Q :
  app_post p s M -> (forall e s, M (Err e) s -> app_post undo s (fun _ s => Q (Err (wrap e)) s)) ->
  (forall a s, M (Ok a) s -> app_post (k a) s Q) -> app_post (attempt p undo wrap k) s Q.
Proof.
  intros Hp He Hk. unfold attempt. eapply post_then; [exact Hp|]. intros [a|e] s' HM; [by apply Hk|].
  eapply post_then; [by apply He|]. by intros [].
Qed.
Lemma accounting_post cfg s :
  guarded s -> app_post (newAccountingStore cfg) s
    (fun r s' => s' = match r with Ok _ => set_part ResAccounting On s | Err _ => s end).
Proof.
  destruct s as [a q ss re l f k e]. intros Hg. assert (ss = On -> k <> ∅) by exact Hg. unfold newAccountingStore.
  destruct (_ == "memory"); [by parts_steps|]. destruct (_ == "local_file"); by parts_steps.
Qed.
Lemma acquire_lock_post snapshot s :
  p_sessions s = Off -> p_files s = ∅ -> p_locked s = ∅ ->
  app_post (acquire_lock filepath_join snapshot) s
    (fun r s' => match r with
                 | Ok lock => s' = set_files (lock_files lock) (lock_files lock) s /\ is_some lock = EnabledEffective snapshot
                 | Err _ => s' = s
                 end).
Proof.
  intros Hs Hf Hk. unfold acquire_lock. destruct (EnabledEffective snapshot).
  - eapply post_then; [by apply acquire_post|]. by intros [fd|e] s' ->.
  - cbn. split; [|done]. destruct s. cbn in *. by subst.
Qed.

(** What a start leaves: nothing, or the parts of the program *)
Lemma NewWithOptions_post cfg configPath log :
  app_post (NewWithOptions filepath_join tzdb ParseURL builtIn cfg configPath) (set_part ResLog (on log) no_parts)
    (fun r s' => match r with
                 | Ok a => s' = parts_of a log None /\ is_some (ra_sessionSnapshot a) = is_some (ra_lock a)
                 | Err _ => s' = set_part ResLog (on log) no_parts
                 end).
Proof.
  unfold NewWithOptions. eapply post_attempt; [by apply accounting_post|intros e s ->; by cbn|intros _ s ->].
  eapply (post_attempt _ _ _ _ _ (fun _ s => s = set_part ResAccounting On (set_part ResLog (on log) no_parts))); [done|intros e s ->; by cbn|].
  intros _ s ->. eapply post_attempt; [by apply start_runtime_post|intros e s ->; by cbn|intros rt s ->].
  eapply post_attempt; [by apply acquire_lock_post| |].
  { intros e s ->. by apply drop_runtime_post. }
  intros lock s [-> Hlock]. eapply post_attempt; [apply snapshots_post| |].
  - done.
  - rewrite <- Hlock. destruct lock; [|done]. cbn. set_solver.
  - intros e s ->. eapply post_then; [by apply drop_lock_post|]. intros [] s ->. by apply drop_runtime_post.
  - intros [sp st] s [Hsp ->]. rewrite <- Hsp, <- Hlock in *. cbn. intros _. by destruct sp, lock.
Qed.

(** After a shutdown: what is left of the program is what a [Close] that timed out has left. *)
Definition stopped_parts (log : bool) (s : parts) : Prop :=
  (forall r, r <> ResLog -> part r s <> On) /\ p_log s = on log /\ p_files s = ∅ /\ p_locked s = ∅ /\ p_end s = Some true.
Lemma Close_post a log :
  is_some (ra_sessionSnapshot a) = is_some (ra_lock a) ->
  app_post (Close a) (parts_of a log (Some true)) (fun _ s' => stopped_parts log s').
Proof.
  destruct a as [[cfg path out client snap binds] servers sessions sp lock]. cbn. intros Hl. unfold Close, parts_of. cbn.
  assert (forall a q ss re, a <> On -> q <> On -> ss <> On -> re <> On ->
    stopped_parts log (mkParts a q ss re (on log) ∅ ∅ (Some true))) as Hstop.
  { intros a q ss re ????. split; [by intros []|done]. }
  intros c1. split; [unfold guarded; cbn; intros Hs; rewrite Hl in Hs; destruct lock; [set_solver|done]|].
  destruct sp, lock as [fd|]; try done; cbn -[closed_state]; destruct snap; parts_steps;
    apply Hstop; by try apply closed_not_on.
Qed.
Lemma Shutdown_post (servers : HTTPServer RuntimeState) err s :
  guarded s -> app_post (Shutdown servers err) s (fun _ s' => s' = s).
Proof. intros Hs. revert err. induction servers as [|srv l IH]; intros err; cbn; [done|]. intros b. split; [done|]. apply IH. Qed.

(** A program whose sessions are saved if and only if it has their directory *)
Definition coherent (a : runningApp) : Prop := is_some (ra_sessionSnapshot a) = is_some (ra_lock a).
(** How a run ends: by a signal, which ends what the start made; or with all of it *)
Definition run_ended (log : bool) (s : parts) : Prop :=
  match p_end s with
  | Some true => stopped_parts log s
  | Some false => exists a, coherent a /\ s = parts_of a log (Some false)
  | None => s = set_part ResLog (on log) no_parts \/ exists a, coherent a /\ s = parts_of a log None
  end.
Lemma stopped_run_ended log s : stopped_parts log s -> run_ended log s.
Proof. intros H. assert (p_end s = Some true) as He by apply H. unfold run_ended. by rewrite He. Qed.
Lemma parts_guarded a log e : coherent a -> guarded (parts_of a log e).
Proof. unfold coherent, guarded, parts_of. cbn. intros -> Hs. destruct (ra_lock a); [cbn; set_solver|done]. Qed.
Lemma run_ended_cases log s :
  run_ended log s -> stopped_parts log s \/ s = set_part ResLog (on log) no_parts \/ exists a e, e <> Some true /\ coherent a /\ s = parts_of a log e.
Proof.
  unfold run_ended. destruct (p_end s) as [[]|]; [by left|intros (a & Ha & ->)|intros [->|(a & Ha & ->)]].
  - right. right. by exists a, (Some false).
  - right. by left.
  - right. right. by exists a, None.
Qed.
Lemma run_ended_guarded log s : run_ended log s -> guarded s.
Proof.
  intros [(Hoff & _)|[->|(a & e & _ & Ha & ->)]]%run_ended_cases; [|done|by apply parts_guarded].
  intros Hs. by destruct (Hoff ResSessionSnapshot ltac:(done)).
Qed.
Lemma run_ended_log log s : run_ended log s -> run_ended false (set_part ResLog Off s).
Proof.
  intros [(Hoff & Hl & Hf & Hk & He)|[->|(a & e & He & Ha & ->)]]%run_ended_cases; [|by left|].
  { destruct s as [a q ss re l f k e]. cbn in Hl, Hf, Hk, He. subst. cbn. split; [|done].
    intros r Hr. specialize (Hoff r Hr). by destruct r. }
  destruct e as [[]|]; [done|by exists a|by right; exists a].
Qed.
Lemma run_post configPath cfg version devLog logPath traceMode log :
  app_post (run filepath_join tzdb ParseURL builtIn configPath cfg version devLog logPath traceMode)
    (set_part ResLog (on log) no_parts) (fun _ s' => run_ended log s').
Proof.
  unfold run. eapply post_then; [apply NewWithOptions_post|].
  intros [a|e] s H; [destruct H as [-> Hl]|subst s; cbn; by destruct log; left].
  cbn -[buildStartupBanner Close Shutdown]. intros printed. split; [by apply parts_guarded|].
  destruct printed; cbn -[Close Shutdown]; [by right; exists a|]. intros served.
  destruct served as [app|app e]; cbn -[Close Shutdown]; (split; [apply (parts_guarded (reloaded a app)); done|]).
  - eapply post_then; [by apply Shutdown_post, (parts_guarded (reloaded a app))|]. intros e s ->.
    eapply post_then; [by apply (Close_post (reloaded a app))|]. by intros e' s H%stopped_run_ended.
  - by exists (reloaded a app).
Qed.
Lemma newLogger_post dev logs :
  app_post (newLogger filepath_join dev logs) no_parts
    (fun r s' => match r with Ok opened => s' = set_part ResLog (on opened) no_parts | Err _ => s' = no_parts end).
Proof.
  unfold newLogger. destruct dev; [|done]. destruct (log_options _ _) as [opts|]; [|done].
  cbn. intros [e|]; cbn; (split; [done|]); [done|]. intros []. by split.
Qed.
Lemma runMain_post args version traceMode :
  app_post (runMain filepath_join tzdb ParseURL builtIn args version traceMode) no_parts (fun _ s' => run_ended false s').
Proof.
  unfold runMain. destruct (parse_flags _ _ _) as [[values rest]|e]; [|destruct e; by left].
  cbn -[newLogger run]. intros [cfg|e]; (split; [done|]); [|by cbn; split; [|left]].
  eapply post_then; [apply newLogger_post|]. intros [opened|e] s ->; [|by cbn; split; [|left]].
  eapply post_then; [apply run_post|]. intros err s Hs. assert (Hg := run_ended_guarded _ _ Hs).
  eapply (post_then _ _ _ _ _ _ (fun _ s' => s' = s)); [by destruct err; cbn|]. intros code s' ->.
  destruct opened; cbn.
  - intros closed. assert (guarded (set_part ResLog Off s)) by (by eapply run_ended_guarded, run_ended_log). split; [done|].
    destruct closed; cbn; [intros _; split; [done|]|]; by eapply run_ended_log.
  - done.
Qed.

(** A part is late only because its [Close] timed out. *)
Lemma part_set r r' b s : part r (set_part r' b s) = if decide (r = r') then b else part r s.
Proof. by destruct s, r, r'. Qed.
Lemma late_closed tr r s :
  part r (after part_effect s tr) = Late -> part r s = Late \/ exists e, AEvent _ (AClose r) (CloseTimedOut e) ∈ tr.
Proof.
  revert s. induction tr as [|[B c b] tr IH]; intros s; cbn [after foldl]; [by left|].
  intros [H|[e He]]%IH; [|right; exists e; by right].
  assert (forall r' p, part r (set_part r' p s) = Late -> part r s = Late \/ (r = r' /\ p = Late)) as Hset.
  { intros r' p. rewrite part_set. destruct (decide (r = r')) as [->|]; auto. }
  destruct c as [B' c| | | | |r'|r'|r'| | | | | |]; cbn in H; try (by left).
  - left. destruct c; cbn in H; try done; destruct b; by destruct r.
  - apply Hset in H as [H|[_ H]]; [by left|done].
  - apply Hset in H as [H|[-> H]]; [by left|]. destruct b as [e|e]; [done|]. right. exists e. by left.
  - apply Hset in H as [H|[_ H]]; [by left|done].
  - left. destruct b as [ap|ap e]; destruct r; cbn in *; try done; by destruct (app_snapshotting ap).
Qed.

(** C19: a signal ends all that the program started.  However the calls of a run of the
    program go, from its arguments to its exit code: when a signal ended the serving, no file
    is open, the directory of the sessions is free, and no part runs any more, except what a
    part runs whose [Close] answered that the time for the shutdown was over; when the start
    failed, or its configuration or log did, nothing is left at all.  What is left otherwise,
    because the servers ended by themselves or the banner could not be written, is all the
    program consisted of.  At each moment, who may write the snapshots of the sessions has the
    lock of their directory, unless it is a store whose [Close] timed out. *)
Theorem shutdown_complete args version traceMode tr code :
  runs app_observe (runMain filepath_join tzdb ParseURL builtIn args version traceMode) tr code ->
  run_ended false (parts_after tr) /\
  (forall r, part r (parts_after tr) = Late -> exists e, AEvent _ (AClose r) (CloseTimedOut e) ∈ tr) /\
  forall tr', tr' `prefix_of` tr -> guarded (parts_after tr').
Proof.
  intros Hr. assert (run_ended false (parts_after tr) /\ forall tr', tr' `prefix_of` tr -> guarded (parts_after tr')) as [H Hg].
  { eapply post_runs in Hr; [exact Hr|done|apply runMain_post]. }
  split; [exact H|]. split; [clear Hr|exact Hg].
  intros r [Hr|He]%late_closed; [by destruct r|exact He].
Qed.
End lifecycle.

Definition demo_file {B} (c : fileCall B) : B :=
  match c in fileCall B return B with
  | FMkdirAll _ | FChmodDir _ | FChmod _ | FUnlock _ | FClose _ => None
  | FOpen _ => Ok 3%nat
  | FLock _ => Locked
  end.
(** Every call succeeds, and a signal ends the serving. *)
Definition demo_answer (cfg : Config) (B : Type) (c : appCall B) (st : unit) : unit * B :=
  (st, match c in appCall B return B with
       | AFile c => demo_file c
       | AQuotaDisk => (true, SnapshotMissing, 0)
       | AReadSessions _ => SessMissing
       | ANow => 0
       | AStarted _ | AError _ => tt
       | AClose _ => PartEnded None
       | AOpenLocalFile _ | ADrop _ | APrint _ | AShutdown _ | AOpenLog _ => None
       | AServe app _ => Signalled app
       | ALoad _ => Ok cfg
       end).
Lemma shutdown_complete_witness :
  let tr := (exec app_observe (demo_answer witness_config')
    (runMain join_slash witness_zone witness_url [] ["-config"; "c.yaml"] "1.0" "") tt).1.2 in
  p_end (parts_after tr) = Some true /\ run_ended false (parts_after tr).
Proof. split; [by vm_compute|]. eapply shutdown_complete, exec_runs. Defined.

(** ** Starts and reloads *)

Lemma normalizeAdminConfig_idem cfg : normalizeAdminConfig (normalizeAdminConfig cfg) = normalizeAdminConfig cfg.
Proof.
  unfold normalizeAdminConfig. cbn. f_equal. f_equal.
  - unfold or_default. destruct (al_Path (adm_Logs cfg) == "") eqn:E; [done|]. by rewrite E.
  - destruct (al_MaxBytes (adm_Logs cfg) <=? 0) eqn:E; [done|]. by rewrite E.
Qed.
Lemma same_addresses current next :
  length current = length next -> listeners_changed current next = "" -> map ls_Listen current = map ls_Listen next.
Proof.
  revert next. induction current as [|c current IH]; intros [|n next] Hlen; cbn; try done.
  destruct (ls_Name c != ls_Name n); [done|].
  destruct (String.eqb_spec (ls_Listen c) (ls_Listen n)) as [->|]; cbn; [|done].
  destruct (_ != _); [done|]. intros H. f_equal. apply IH; [by injection Hlen|done].
Qed.
Lemma no_restart_addresses current next :
  restartRequiredReason current next = "" ->
  map ls_Listen (normalizedListeners current) = map ls_Listen (normalizedListeners next).
Proof.
  intros H. apply same_addresses; [by apply no_restart_listeners|]. revert H. unfold restartRequiredReason.
  destruct (effectiveOAuthDir _ != _); [done|]. destruct (negb _ || _ || negb _); [done|].
  destruct (negb (_ =? _)%nat); [done|]. cbv zeta.
  destruct (String.eqb_spec (listeners_changed (normalizedListeners current) (normalizedListeners next)) "") as [->|]; [done|].
  cbn. intros H. done.
Qed.

(** What a handler serves with, but for what its client quota tracker has recorded *)
Definition without_usage (s : RuntimeState) : RuntimeState :=
  mkRuntimeState (rs_Router s) (rs_Dispatcher s) (rs_Clients s) (rs_Inbounds s) (tracker_config <$> rs_ClientQuotaTracker s)
    (rs_EventRecorder s) (rs_LatencyStore s) (rs_Accounting s) (rs_Admin s) (rs_ConfigPath s).

(** Two builds of a configuration differ in their trackers of quotas and snapshots only. *)
Lemma builds_agree tzdb ParseURL builtIn next out1 cl1 load1 out2 cl2 load2 oauth ok1 ok2 file1 file2 now1 now2 rt1 rt2 :
  buildRuntimeWithTrackersAndOAuth tzdb ParseURL builtIn next out1 cl1 load1 oauth ok1 file1 now1 = Ok rt1 ->
  buildRuntimeWithTrackersAndOAuth tzdb ParseURL builtIn next out2 cl2 load2 oauth ok2 file2 now2 = Ok rt2 ->
  ar_router rt1 = ar_router rt2 /\ ar_health rt1 = ar_health rt2 /\ ar_eventRecorder rt1 = ar_eventRecorder rt2 /\
  ar_prices rt1 = ar_prices rt2 /\ ar_latencyStore rt1 = ar_latencyStore rt2.
Proof.
  unfold buildRuntimeWithTrackersAndOAuth. destruct (fold_err _ _ _) as [providers|]; [|done]. cbn -[ReconfigureOutbounds ReconfigureClientSpecs].
  destruct (Router.New _ _ _) as [router|]; [|done]. cbn -[ReconfigureOutbounds ReconfigureClientSpecs].
  intros (s1 & _ & [= <-])%bind_Ok (s2 & _ & [= <-])%bind_Ok. by split_and!.
Qed.

(** What the trackers of a build are configured to be: as they were given, if nothing is
    loaded, and for the configuration, if the snapshot is. *)
Lemma build_trackers tzdb ParseURL builtIn next out cl load oauth dir_ok file now rt :
  buildRuntimeWithTrackersAndOAuth tzdb ParseURL builtIn next (Some out) (Some cl) load oauth dir_ok file now = Ok rt ->
  let out' := if load then (ReconfigureOutbounds tzdb (Some out) (enabledOutbounds next)).2 else Some out in
  let cl' := if load then (ReconfigureClientSpecs tzdb (Some cl) (cfg_Clients next)).2 else Some cl in
  if load then tracker_config <$> ar_outboundQuotaTracker rt = tracker_config <$> out' /\
               tracker_config <$> ar_clientQuotaTracker rt = tracker_config <$> cl'
  else ar_outboundQuotaTracker rt = out' /\ ar_clientQuotaTracker rt = cl'.
Proof.
  unfold buildRuntimeWithTrackersAndOAuth. destruct (fold_err _ _ _) as [providers|]; [|done]. cbn -[ReconfigureOutbounds ReconfigureClientSpecs].
  destruct (Router.New _ _ _) as [router|]; [|done]. cbn -[ReconfigureOutbounds ReconfigureClientSpecs].
  set (out' := if load then _ else Some out). set (cl' := if load then _ else Some cl).
  intros (store & Hs & [= <-])%bind_Ok. cbn.
  assert (match store with
          | Some st => if load then tracker_config <$> sst_outbound st = tracker_config <$> out' /\
                                    tracker_config <$> sst_client st = tracker_config <$> cl'
                       else sst_outbound st = out' /\ sst_client st = cl'
          | None => True
          end) as Hst.
  { destruct (hasQuotaConfig _ _); [|by injection Hs as <-]. unfold newSnapshotStore in Hs.
    destruct (_ || _); [by injection Hs as <-|]. destruct (negb dir_ok); [done|]. destruct load; [|by injection Hs as <-].
    destruct file as [| | |f]; cbn in Hs; try done; injection Hs as <-; cbn; [done|]. by rewrite !import_config. }
  destruct store as [st|]; [exact Hst|]. by destruct load.
Qed.

(** C38: a reload ends with what a start would have made.  The program has its two trackers
    of quotas, and a handler for each listener.  If nothing asks for a restart, then the swap
    to a runtime that a reload has built with the trackers in use succeeds, and the handlers
    serve as those of a start that reads the new configuration: with the same router,
    dispatcher, prices, recorders, clients, inbounds and administration, on the addresses that
    the running servers have.  The trackers of quotas are configured as those of the start,
    subject for subject and window for window; they differ in what they have recorded only. *)
Theorem reload_as_start tzdb ParseURL builtIn app files n next outbound client oauth dir_ok now rt dir_ok0 file0 now0 rt0 :
  app_outboundQuotaTracker app = Some outbound -> tr_client outbound = false ->
  app_clientQuotaTracker app = Some client -> tr_client client = true ->
  length (app_bindings app) = length (normalizedListeners (app_cfg app)) ->
  restartRequiredReason (app_cfg app) next = "" ->
  buildRuntimeWithTrackersAndOAuth tzdb ParseURL builtIn next (app_outboundQuotaTracker app) (app_clientQuotaTracker app)
    false oauth dir_ok SnapshotMissing now = Ok rt ->
  buildRuntimeWithOAuth tzdb ParseURL builtIn next oauth dir_ok0 file0 now0 = Ok rt0 ->
  let fresh := buildListeners rt0 next (app_configPath app) in
  exists reset w', applyRuntimeLocked tzdb next rt (mkWorld app files n) = (Ok reset, w') /\
    map without_usage (app_bindings (w_app w')) = map without_usage (map lst_Handler fresh) /\
    tracker_config <$> app_outboundQuotaTracker (w_app w') = tracker_config <$> ar_outboundQuotaTracker rt0 /\
    tracker_config <$> app_clientQuotaTracker (w_app w') = tracker_config <$> ar_clientQuotaTracker rt0 /\
    forall old, map hs_Addr (NewListeners fresh) =
      map hs_Addr (NewListeners (buildListeners old (app_cfg app) (app_configPath app))).
Proof.
  intros Hout Hob Hcl Hcb Hlen Hreason Hb Hb0 fresh. rewrite Hout, Hcl in Hb. unfold buildRuntimeWithOAuth in Hb0.
  assert (length (app_bindings (w_app (mkWorld app files n))) = length (normalizedListeners next)) as Hnext
    by (cbn; by rewrite Hlen, (no_restart_listeners _ _ Hreason)).
  destruct (applyRuntimeLocked_run tzdb next rt (mkWorld app files n) Hnext) as [reset E]. cbv zeta in E.
  pose proof (build_trackers _ _ _ _ _ _ _ _ _ _ _ _ Hb) as [Eo Ec].
  pose proof (build_trackers _ _ _ _ _ _ _ _ _ _ _ _ Hb0) as [Eo0 Ec0].
  destruct (builds_agree _ _ _ _ _ _ _ _ _ _ _ _ _ _ _ _ _ _ _ Hb Hb0) as (Hr & Hh & He & Hp & Hl).
  rewrite reconfigure_outbounds_config in Eo0 by done. rewrite reconfigure_clients_config in Ec0 by done.
  assert (forall a b : option Tracker, tracker_config <$> a = tracker_config <$> b -> is_some a = is_some b) as Hsome
    by by intros [] [].
  pose proof (reconfigure_outbounds_config tzdb outbound (enabledOutbounds next) Hob) as Eo1. rewrite <- Eo0 in Eo1.
  pose proof (reconfigure_clients_config tzdb client (cfg_Clients next) Hcb) as Ec1. rewrite <- Ec0 in Ec1.
  eexists _, _. split; [exact E|]. cbn [w_app app_bindings app_outboundQuotaTracker app_clientQuotaTracker]. rewrite Eo, Ec.
  generalize dependent (ReconfigureOutbounds tzdb (Some outbound) (enabledOutbounds next)).2.
  generalize dependent (ReconfigureClientSpecs tzdb (Some client) (cfg_Clients next)).2. intros cl Ecl out Eout.
  split_and!; [|exact Eout|exact Ecl|].
  - unfold fresh, buildListeners. rewrite !map_map. apply map_ext. intros l.
    unfold new_handler, runtime_state, ApplyRuntime, without_usage, ar_dispatcher. cbn.
    rewrite Hr, Hh, He, Hp, Hl, normalizeAdminConfig_idem, Ecl. by rewrite (Hsome _ _ Eout), (Hsome _ _ Ecl).
  - intros old. unfold fresh, buildListeners, NewListeners. rewrite !map_map. cbn. symmetry. by apply no_restart_addresses.
Qed.
Definition start_build : result appError appRuntime :=
  buildRuntimeWithOAuth witness_zone witness_url [] witness_config' true true SnapshotMissing 0.
Definition running_app : App :=
  mkApp witness_config' "c.yaml" (Some (newTrackerFromOutbounds witness_zone [])) (Some (newTrackerFromClients witness_zone []))
    false (match start_build with Ok rt => map lst_Handler (buildListeners rt witness_config' "c.yaml") | Err _ => [] end).
Definition reload_build : result appError appRuntime :=
  buildRuntimeWithTrackersAndOAuth witness_zone witness_url [] witness_config' (app_outboundQuotaTracker running_app)
    (app_clientQuotaTracker running_app) false true true SnapshotMissing 0.
Lemma reload_as_start_witness :
  exists rt rt0 reset w', reload_build = Ok rt /\ start_build = Ok rt0 /\
    applyRuntimeLocked witness_zone witness_config' rt (mkWorld running_app (mkFiles None ∅ ∅) 0) = (Ok reset, w') /\
    map without_usage (app_bindings (w_app w')) = map without_usage (map lst_Handler (buildListeners rt0 witness_config' "c.yaml")).
Proof.
  assert (exists rt, reload_build = Ok rt) as [rt E] by (eexists; vm_compute; reflexivity).
  assert (exists rt0, start_build = Ok rt0) as [rt0 E0] by (eexists; vm_compute; reflexivity).
  destruct (reload_as_start witness_zone witness_url [] running_app (mkFiles None ∅ ∅) 0 witness_config'
    (newTrackerFromOutbounds witness_zone []) (newTrackerFromClients witness_zone []) true true 0 rt true SnapshotMissing 0 rt0
    eq_refl eq_refl eq_refl eq_refl ltac:(by vm_compute) ltac:(by vm_compute) E E0) as (reset & w' & Hw & Hs & _).
  by exists rt, rt0, reset, w'.
Defined.

Lemma attempt_ok {A B} (p : app (result serverError A)) undo wrap (k : A -> app (result serverError B)) tr b :
  runs app_observe (attempt p undo wrap k) tr (Ok b) ->
  exists a t1 t2, runs app_observe p t1 (Ok a) /\ runs app_observe (k a) t2 (Ok b).
Proof.
  unfold attempt. intros (t1 & [a|e] & t2 & -> & H1 & H2)%runs_bind; [by exists a, t1, t2|].
  apply runs_bind in H2 as (t3 & u & t4 & -> & _ & [_ H]%runs_ret). done.
Qed.
(** A started program serves the configuration's listeners, each with a handler. *)
Lemma started filepath_join tzdb ParseURL builtIn cfg configPath tr a :
  runs app_observe (NewWithOptions filepath_join tzdb ParseURL builtIn cfg configPath) tr (Ok a) ->
  exists rt, app_cfg (ra_app a) = cfg /\ app_configPath (ra_app a) = configPath /\
    app_bindings (ra_app a) = map lst_Handler (buildListeners rt cfg configPath) /\
    ra_Server a = NewListeners (buildListeners rt cfg configPath).
Proof.
  intros (? & ? & ? & _ & (? & ? & ? & _ & (rt & ? & ? & _ & (lock & ? & ? & _ & ([sp st] & ? & ? & _ & H)%attempt_ok)%attempt_ok)%attempt_ok)%attempt_ok)%attempt_ok.
  apply runs_bind in H as (? & ? & ? & _ & _ & [_ [= ->]]%runs_ret). by exists rt.
Qed.

(** No reload of a started program panics.  Whatever changes, reloads and rollbacks are
    asked of the program that [NewWithOptions] made, with whatever contents and failures of
    the files, the loop that rebinds the handlers stays in range. *)
Theorem started_never_panics filepath_join tzdb ParseURL builtIn cfg configPath tr a
    unmarshal decode decodeLegacy marshal marshalNode checksumHex oauth fails clock files ops :
  runs app_observe (NewWithOptions filepath_join tzdb ParseURL builtIn cfg configPath) tr (Ok a) ->
  (run_operations tzdb ParseURL unmarshal decode decodeLegacy marshal marshalNode checksumHex builtIn oauth fails clock
     ops (mkWorld (ra_app a) files 0)).2 = false.
Proof.
  intros (rt & Hcfg & _ & Hb & _)%started. apply reload_never_panics. unfold bindings_ok. cbn.
  rewrite Hb, Hcfg. unfold buildListeners. by rewrite !length_map.
Qed.

(** ** The reaper *)

(** A session that is no longer heard of: its lease as it was, or stopped before [now] *)
Definition silent (lease now : Time) (o : option Session) : Prop :=
  match o with
  | None => True
  | Some s => (stopped s = false /\ sn_HeartbeatCapability s = HeartbeatCapabilityV1 /\ sn_LeaseExpiresAt s = Some lease) \/
              (stopped s = true /\ sn_LastSeenAt s <= now)
  end.
Lemma tick_silent st id lease now bound :
  now <= bound -> silent lease bound (st_sessions st !! id) -> silent lease bound (st_sessions (reaper_tick st now) !! id).
Proof.
  intros Ht. unfold reaper_tick. rewrite Sweep_lookup. destruct (st_sessions st !! id) as [s|]; [|done].
  cbn. intros [(Hs & Hc & Hl)|[Hs Hseen]].
  - unfold swept_session, sweep_session. rewrite Hs, Hc, Hl. cbn. destruct (Before now lease); cbn.
    + destruct (_ && _); cbn; left; by repeat split.
    + by right.
  - rewrite swept_stopped by done. destruct (_ && _); [done|]. by right.
Qed.
Lemma ticks_silent st id lease bound l :
  Forall (fun t => t <= bound) l -> silent lease bound (st_sessions st !! id) ->
  silent lease bound (st_sessions (foldl reaper_tick st l) !! id).
Proof.
  intros Hl. revert st. induction Hl as [|t l Ht Hl IH]; intros st H; [done|]. cbn. apply IH. by apply tick_silent.
Qed.
(** Stopped and last seen by [bound], or removed *)
Definition dead (bound : Time) (o : option Session) : Prop :=
  match o with None => True | Some s => stopped s = true /\ sn_LastSeenAt s <= bound end.
Lemma tick_kills st id lease now :
  Before now lease = false -> silent lease now (st_sessions st !! id) -> dead now (st_sessions (reaper_tick st now) !! id).
Proof.
  intros Ht. unfold reaper_tick. rewrite Sweep_lookup. destruct (st_sessions st !! id) as [s|]; [|done].
  cbn. intros [(Hs & Hc & Hl)|[Hs Hseen]].
  - unfold swept_session, sweep_session. rewrite Hs, Hc, Hl, Ht. done.
  - rewrite swept_stopped by done. by destruct (_ && _).
Qed.
Lemma ticks_dead st id bound l :
  dead bound (st_sessions st !! id) -> dead bound (st_sessions (foldl reaper_tick st l) !! id).
Proof.
  revert st. induction l as [|t l IH]; intros st H; [done|]. cbn. apply IH. unfold reaper_tick. rewrite Sweep_lookup.
  destruct (st_sessions st !! id) as [s|]; [|done]. cbn. rewrite swept_stopped by apply H. by destruct (_ && _).
Qed.
Lemma reaper_run_ticks l st : reaper_run (map ReaperTick l) st = foldl reaper_tick st l.
Proof. revert st. induction l as [|t l IH]; intros st; cbn; [done|]. apply IH. Qed.
Lemma gone_stays st id l : st_sessions st !! id = None -> st_sessions (foldl reaper_tick st l) !! id = None.
Proof.
  revert st. induction l as [|t l IH]; intros st H; [done|]. cbn. apply IH. unfold reaper_tick. by rewrite Sweep_lookup, H.
Qed.

(** A session that is no longer heard of is stopped, then removed.  If nothing but the
    reaper writes a session with a lease, a tick at or after the end of the lease leaves it
    stopped or removed; and a tick more than an hour after that one leaves it removed, as do
    all that follow. *)
Theorem silent_session_reaped st id s lease l1 t1 l2 t2 l3 :
  st_sessions st !! id = Some s -> stopped s = false -> sn_HeartbeatCapability s = HeartbeatCapabilityV1 ->
  sn_LeaseExpiresAt s = Some lease -> Forall (fun t => t <= t1) l1 ->
  Before t1 lease = false -> Add t1 DefaultStoppedRetention < t2 ->
  let reaped l := st_sessions (reaper_run (map ReaperTick l) st) !! id in
  match reaped (l1 ++ [t1]) with None => True | Some s' => stopped s' = true end /\
  reaped (l1 ++ t1 :: l2 ++ t2 :: l3) = None.
Proof.
  intros Hs Hstop Hcap Hlease Hl1 Ht1 Ht2 reaped. unfold reaped. rewrite !reaper_run_ticks, !foldl_app. cbn.
  assert (dead t1 (st_sessions (reaper_tick (foldl reaper_tick st l1) t1) !! id)) as Hd.
  { apply (tick_kills _ _ lease); [done|]. apply ticks_silent; [done|]. rewrite Hs. by left. }
  split; [revert Hd; unfold dead; case_match; [by intros []|done]|].
  rewrite foldl_app. cbn. apply gone_stays. unfold reaper_tick at 1. rewrite Sweep_lookup.
  apply (ticks_dead _ _ _ l2) in Hd. revert Hd. unfold dead. case_match; [intros [Hst Hseen]|done].
  cbn. rewrite swept_stopped by done. unfold Before, Add in *. rewrite (proj2 (Z.ltb_lt (sn_LastSeenAt _) _)); [done|lia].
Qed.
Lemma silent_session_reaped_witness :
  st_sessions (reaper_run (map ReaperTick [ex_t0 + 5 * Second; ex_t0 + 50 * Second; ex_t0 + 3700 * Second]) ex_store) !! "s1" = None.
Proof.
  exact (proj2 (silent_session_reaped ex_store "s1" (ex_found ex_store) (ex_t0 + 45 * Second)
    [ex_t0 + 5 * Second] (ex_t0 + 50 * Second) [] (ex_t0 + 3700 * Second) []
    ltac:(by vm_compute) ltac:(by vm_compute) ltac:(by vm_compute) ltac:(by vm_compute)
    ltac:(by repeat constructor) ltac:(by vm_compute) ltac:(by vm_compute))).
Defined.

(** *** After [Close] the reaper is quiet

    Once it is called there is at most one sweep more, for a tick that was waiting; and when
    it has returned nil there is none, so the snapshot store, which [App.Close] closes next,
    saves what stays. *)
Definition is_sweep (e : reaperStep) : bool := match e with RpSweep _ => true | _ => false end.
Definition sweeps_left (r : Reaper) : nat := if rp_tick r && negb (rp_returned r) then 1 else 0.
Lemma reaper_closed_run r l r' :
  rp_done r = true -> reaper_steps r l = Some r' ->
  rp_done r' = true /\ (sweeps_left r' + length (List.filter is_sweep l) <= sweeps_left r)%nat.
Proof.
  revert r. induction l as [|e l IH]; intros r Hd; cbn; [intros [= <-]; split; [done|lia]|].
  destruct (reaper_step r e) as [r1|] eqn:E; [|done]. cbn. intros H.
  assert (rp_done r1 = true /\ (sweeps_left r1 + (if is_sweep e then 1 else 0) <= sweeps_left r)%nat) as [Hd1 H1].
  { destruct r as [st t [] ret], e; cbn in *; try done; repeat case_match; simplify_eq/=; try done;
      unfold sweeps_left; cbn; destruct t, ret; cbn in *; split; try done; lia. }
  destruct (IH r1 Hd1 H) as [Hd' H2]. split; [done|]. destruct (is_sweep e); cbn; lia.
Qed.
Theorem reaper_close_quiet st before after r ctx_over :
  reaper_steps (newReaper st) (before ++ RpClose :: after) = Some r ->
  (length (List.filter is_sweep after) <= 1)%nat /\
  (CloseNil ∈ reaper_close_returns r ctx_over -> forall later r', reaper_steps r later = Some r' -> List.filter is_sweep later = []).
Proof.
  assert (forall l r0, reaper_steps r0 (l ++ RpClose :: after) = Some r ->
    exists r1, rp_done r1 = true /\ reaper_steps r1 after = Some r) as Hsplit.
  { induction l as [|e l IH]; intros r0; cbn.
    - destruct (rp_done r0); [done|]. intros H. by eexists; split; [|exact H].
    - destruct (reaper_step r0 e); [apply IH|done]. }
  intros H. destruct (Hsplit _ _ H) as (r1 & Hd1 & Ha). destruct (reaper_closed_run _ _ _ Hd1 Ha) as [Hd Hn]. split.
  - revert Hn. unfold sweeps_left at 2. destruct (rp_tick r1 && negb (rp_returned r1)); lia.
  - intros Hnil later r' Hl. destruct (reaper_closed_run r later r' Hd Hl) as [_ Hn2]. revert Hn2.
    assert (rp_returned r = true) as Hr
      by (revert Hnil; unfold reaper_close_returns; destruct (rp_returned r), ctx_over; set_solver).
    unfold sweeps_left at 2. rewrite Hr, andb_false_r. destruct (List.filter is_sweep later); [done|cbn; lia].
Qed.

(** ** The limits of the log *)

Lemma scaled_exact unit v n :
  0 < unit ->
  (if (v <=? 0) || (Z.quot (2 ^ 63 - 1) unit <? v) then None else Some (i64 (v * unit))) = Some n <->
  0 < v /\ v * unit < 2 ^ 63 /\ n = v * unit.
Proof.
  intros Hu. assert (Z.quot (2 ^ 63 - 1) unit < v <-> 2 ^ 63 - 1 < v * unit) as Hq.
  { rewrite Z.quot_div_nonneg by lia. split; intros H; [|apply Z.div_lt_upper_bound; lia].
    pose proof (Z.mul_succ_div_gt (2 ^ 63 - 1) unit Hu). nia. }
  destruct (Z.leb_spec v 0); cbn; [split; [done|lia]|].
  destruct (Z.ltb_spec (Z.quot (2 ^ 63 - 1) unit) v) as [Hlt|Hge].
  - apply Hq in Hlt. split; [done|lia].
  - assert (v * unit <= 2 ^ 63 - 1) by (apply Z.nlt_ge; intros ?%Hq; lia).
    rewrite i64_id by (unfold in_i64, min_int64, max_int64; nia). split; [intros [= <-]; lia|intros (_ & _ & ->); done].
Qed.
(** The limits of the log are exact.  A limit is accepted exactly when it is positive and
    its value in bytes, or in nanoseconds, is an [int64]; the value is then the limit times
    its unit, and no product wraps around. *)
Theorem log_limits_exact v n :
  (megabytesToBytes v = Some n <-> 0 < v /\ v * 1048576 < 2 ^ 63 /\ n = v * 1048576) /\
  (daysToDuration v = Some n <-> 0 < v /\ v * (24 * Hour) < 2 ^ 63 /\ n = v * (24 * Hour)).
Proof. split; by apply scaled_exact. Qed.
